(* ===== verification/_CoqProject ===== *)
-Q . S2P
Prelude.v
Text.v
Crates.v
Errors.v
Utils.v
Timestamp.v
BootSector.v
Device.v
SlotCache.v
Regions.v
Touched.v
Fat.v
Allocation.v
AllocationSearch.v
DirectoryEntry.v
Volume.v
VolumeInv.v
FlushOrder.v
Mount.v
VolumeAlloc.v
Directory.v
FileSystem.v
File.v
FileRead.v
DirSets.v
FileFlush.v
DirWalk.v
DirFree.v
DirLookup.v
PathLookup.v
DirCreate.v
DirInsert.v
FileGrow.v
FreeChain.v
FileWrite.v
FileSeek.v
Api.v
FileOpen.v
DirRemove.v
PathCreate.v
DirUpdate.v
Truncate.v
PathFiles.v
PathReplace.v
DirMake.v
DirEmpty.v
DirList.v
Leaves.v
Copy.v
Append.v
FsActor.v
Logger.v
LoggerProofs.v
ActorFile.v
Embassy.v
ReplyPool.v
ActorProofs.v
ReplyProofs.v
Replays.v
