(* ===== verification/Prelude.v ===== *)
(** * exfat-slim: a verification development

    exfat-slim is a [no_std] driver for the exFAT file system. It is a stack:
    a user-supplied block device; three write-back sector caches over it (file
    allocation table, allocation bitmap, data); the FAT, the cluster allocator
    and the directory entries on the caches; the mounted volume; directories,
    files and the path-level operations; and an actor that serves requests of
    many tasks on one volume. The sources are macro-expanded into a synchronous
    and an asynchronous variant of the same text; the model is the synchronous
    reading, in which every [await] is the call it awaits.

    ** How code is modelled

    An operation is a function of the state monad [M S E A] of this file: it
    takes the state and returns the state with an [outcome]: [Ok], [Err] (a
    [Result::Err] of the source), [Panic] (a Rust panic: index, slice, unwrap,
    division, checked overflow) or [OutOfFuel]. [?] is the monad's bind, [try_]
    is a [match] on a [Result], [zoom] runs an operation on a part of the state
    (a field of a struct, an argument passed by [&mut]). Machine integers are
    [Z] with their width in the operation ([add u32 a b]); the class [Config]
    holds what the build decides (sector size, width of [usize], capacity of
    the caches, overflow checks on or off), so each theorem holds for every
    build [ConfigOk] allows. Third-party crates are parameters with their
    documented laws (Crates.v), and so is the block device (Device.v).

    ** The files

    - Prelude.v: the monad and its laws, machine integers, byte lists, slices.
    - Text.v: the functions of the standard library on text (UTF-8, UTF-16).
    - Crates.v, Errors.v: third-party crates; the error types of src/error.rs.
    - Utils.v: src/utils.rs and the up-case map of src/upcase_table.rs.
    - Timestamp.v: src/timestamp.rs. BootSector.v: src/boot_sector.rs.
    - Device.v: src/block_device.rs, src/test_utils.rs, [set_volume_dirty].
    - SlotCache.v: src/slot_cache.rs, the sector cache with clock eviction.
    - Touched.v: the dirty-sector list [FileDirty] of src/file.rs.
    - Fat.v: src/fat.rs. Allocation.v, AllocationSearch.v: src/allocation.rs
      (operations; correctness of the search).
    - DirectoryEntry.v: the entry structs of src/directory_entry.rs.
    - Volume.v: the structs of src/file_system.rs, mounting, flushing.
    - Directory.v: [DirectoryEntryChain] and [DirSetWriter] of
      src/directory_entry.rs and src/directory.rs.
    - FileSystem.v, Api.v: the operations of src/file_system.rs, without and
      with open files. File.v: src/file.rs.
    - FsActor.v: src/fs.rs, requests, clients, handles, the serving loop.
    - Regions.v, VolumeInv.v, VolumeAlloc.v, Mount.v: proofs about the caches
      together, and about mounting; FlushOrder.v: about the order in which a
      flush writes. FileRead.v, FileGrow.v, FileWrite.v,
      FileSeek.v, FileOpen.v, FileFlush.v (on DirSets.v, entry sets on a
      volume): proofs about open files on a volume.
    - DirWalk.v, DirFree.v, DirLookup.v, PathLookup.v, DirCreate.v, DirInsert.v,
      DirRemove.v, PathCreate.v (on FreeChain.v, releasing clusters): proofs about
      directories (walking one, room in it, names, paths; creating, removing and
      renaming an entry). DirUpdate.v: flushing a file, seen from its directory.
      Truncate.v: truncating a file. PathFiles.v, PathReplace.v: reading, writing
      and replacing whole files by path. DirMake.v, DirEmpty.v: creating and
      removing directories. DirList.v: listing them. Copy.v (on Leaves.v, what
      operations leave alone): copying a file by path. Append.v: appending to a
      file that stays open.
    - Embassy.v: the synchronisation primitives of the embassy crates that
      src/fs.rs uses, as classes with laws, and an instance of each.
      ReplyPool.v: the reply pool of src/fs.rs, the calls of tasks and the loop of
      the actor as a transition system.
    - Logger.v: src/helpers.rs, src/backup_ram.rs and src/logger_fs.rs of the
      demo src/demos/embassy-demo, a logger that uses the actor. LoggerProofs.v:
      proofs about it against the interface [AppendFile]; ActorFile.v: the actor
      implements this interface, and the logger on top of everything.
    - ActorProofs.v, ReplyProofs.v: proofs about the actor. Replays.v: the unit tests of the crate, run on the model, and
      a few runs the tests leave out.

    A definition has the name of the function it models; loops have the name of
    their function with [_loop] or [_step].

    ** What is proved

    - Caches (SlotCache.v): a cache with its device refines an array of sectors
      ([seen]) under reads, writes and evictions; flushing makes the device
      equal to it; choosing a victim terminates. Regions.v transfers this to
      several caches on one device, each in its own region.
    - Tables (Fat.v, Allocation.v, AllocationSearch.v): the FAT refines an array
      of 32-bit entries and linking extends a chain; the free-run search equals a
      bit-by-bit reference search and keeps what each policy promises;
      allocation hands out free clusters and marks exactly these.
    - Formats (DirectoryEntry.v, BootSector.v, Timestamp.v, Utils.v): round
      trips of parsing and serialising, the directory set checksum and the name
      hash against their definitions, validation of the boot sector.
    - The volume (VolumeInv.v, VolumeAlloc.v, Mount.v): the invariant [vol_inv]
      that the three caches together represent a volume ([vseen]); mounting a
      well-formed device establishes it; what flushing an operation writes and
      in which order, stated over a device that logs its writes (FlushOrder.v:
      data, bitmap, FAT, directory, but FAT first once the list of touched
      sectors has overflowed); unmounting and mounting again loses nothing; clusters do
      not overlap; every change of a table or of data is on the device or on
      the operation's list of touched sectors ([tracked]).
    - Files: the invariant [grow_inv] of an open file, its directory entry, the
      FAT and the bitmap, and the bytes of a file ([file_data]). Opening
      establishes it (FileOpen.v); reading returns the next bytes, however
      buffer, sectors and clusters are cut, and ends, unless on a 32-bit build
      it comes to a position with a positive multiple of 4 GiB left, from where
      it never ends ([read_stalls], FileRead.v); growing adds free
      clusters and keeps entry, FAT and bitmap in agreement (FileGrow.v);
      writing stores the buffer and touches nothing of anything else
      (FileWrite.v); seeking moves the cursor, and what was written is read
      back (FileSeek.v); flushing stores a correct entry set in the directory
      (FileFlush.v), provided the set lies in one cluster, as the source
      assumes in [next_dir_entry_location]. Each of these holds outside a few inputs
      on which the code goes wrong. Writing, and with it everything that writes
      contents (the round trips, writing a file by its path, the logger's flush
      on demand), leaves out lengths that put a short tail directly behind a
      cluster boundary the whole sectors reach ([write_misses_cluster]), and
      takes buffers below 4 GiB, at or before the valid data length; reading
      whole files into memory and copying them take files shorter than
      [2 ^ usize]. Theorems of their own say what happens on the inputs left
      out ([write_gap_overwrites_cluster], [seek_to_full_end_leaves_file],
      [open_append_full_misplaces_cursor], [read_returns_file_bytes]).
    - Directories: a directory ([directory], DirWalk.v) is a list of clusters,
      of entries ([dir_list]) and of entry sets ([dir_sets], DirLookup.v), and
      at last a map from names to details ([in_directory], PathLookup.v).
      Looking a name up, however its entries lie in the clusters, evaluates this
      map; a path follows it through the tree ([resolves]); the search for room
      finds the first run of unused entries (DirFree.v); creating an entry
      writes a correct set there (DirCreate.v) and adds exactly one name to the
      map (DirInsert.v), provided the set lies in one cluster; so do, by path,
      creating and renaming (PathCreate.v); flushing a file gives its name new
      details (DirUpdate.v); removing a file takes its name from
      the map and releases exactly its clusters (DirRemove.v, FreeChain.v), and
      truncating it releases all of them, the first one too, and keeps the name
      (Truncate.v). Creating
      a directory turns a free cluster into an empty directory, to which the
      path then leads (DirMake.v), provided the FAT entries of free clusters
      have no links, since the source follows the FAT in every directory and
      does not set the entry of a new one; removing a directory succeeds
      exactly when no entry of it is in use, and takes back what creating it
      did (DirEmpty.v). Listing a directory gives each entry set once and in
      order, with its name (DirList.v). These
      calls leave everything on the device that was there before ([stays_durable]).
    - All of it together (PathFiles.v, PathReplace.v): writing a new file by its path, in a
      directory of any depth, and what the path stands for afterwards
      ([write_creates_file]); reading a file by its path; what was written is
      read back ([write_read_roundtrip]); writing to a path that has a file
      ([write_replaces_file]); copying a file into one run of free clusters,
      or, when the search finds no such run, failing without a change
      ([copy_copies_file], Copy.v).
    - The actor (ActorProofs.v): its state machine, independence of handles
      (while the card stays: [Shutdown] and [NoCard] drop them all), agreement of clients and server on the protocol.
    - The logger of the demo (LoggerProofs.v, ActorFile.v): whatever arrives in
      its ring buffer gets into log.bin, in order and once, through client,
      actor, file, caches and device ([logger_stores_log]); only its daily limit
      drops bytes, which it can do without having written any
      ([waiting_bytes_use_up_the_limit]). It goes on until the disk is full, and
      then too no byte is lost that is not in the file or the ring buffer. The
      log file is new or ends inside its last cluster ([log_ready]). A flush on demand writes buffers of
      any length, so there the hypothesis [fits_rounds] rules the gap of
      [File::write] out; the whole sectors the logger writes otherwise never
      reach it.
    - The reply pool (ReplyProofs.v): tasks call the actor concurrently, every
      [await] of src/fs.rs is a point where another task may run, and a run is
      any sequence of steps of tasks and actor ([step]). With four tasks at
      most every answer reaches the task that sent the request, in every
      interleaving, and every run ends with all requests answered, or with the
      actor stopped at a request on which the handler panics ([Stopped]), or at
      one whose handler does not come back ([Looping], a circular chain on a
      corrupt volume); with a fifth task answers get lost
      ([fifth_request_loses_answers]).

    Every theorem with hypotheses has a witness, a concrete state on which they
    hold.

    ** Fuel and bounds

    [choose_victim] has fuel [2 * SLOTS + 1], two turns of the clock hand, and
    is proved to end; reading has one step per byte of the buffer at most,
    proved to be enough whenever any number of steps is; [allocate] tries at most as many runs as clusters are
    asked for; a name has at most 18 entries ([NAME_ROUNDS]) and a set at most
    256 ([ENTRY_ROUNDS]). Directory scans are bounded by the class [Fuel], since
    a corrupt FAT can make a directory chain circular and the source then loops
    for ever; [OutOfFuel] stands for that.

    ** Not modelled

    - The [bisync] attribute macros (src/ of the macro crate): they only choose
      between the two variants.
    - The embassy channel, signal and semaphore that carry requests in src/fs.rs
      are third-party code: parameters with their documented laws (Embassy.v). The
      mutex around the slot bitmap is held inside one step only, so it is that
      step. A task that is dropped while it waits is not modelled.
    - Logging, [defmt] formatting and [Display] texts; the test doubles other
      than the in-memory device; the examples, and of the demo the set-up of
      clocks, pins and memory, the SD card driver and the clock, which are glue
      to hardware crates. *)

From stdpp Require Export base tactics decidable option list numbers gmap strings.
From Stdlib Require Export ZArith Lia.

#[export] Set Default Goal Selector "!".
Open Scope Z_scope.

(** ** Outcomes of Rust computations

    [Ok] and [Err] are the two constructors of [Result]; [Panic] is a Rust
    panic (failed [assert!], slice index out of bounds, checked arithmetic
    overflow, [unimplemented!]); [OutOfFuel] is the model's own marker for a
    loop that has not finished within the fuel it was given. *)
Inductive outcome (E A : Type) : Type :=
  | Ok (a : A)
  | Err (e : E)
  | Panic
  | OutOfFuel.
Arguments Ok {E A} a.
Arguments Err {E A} e.
Arguments Panic {E A}.
Arguments OutOfFuel {E A}.

(** Stateful fallible code: [&mut] arguments are the state, which keeps its
    mutations when the computation returns [Err] or panics. *)
Definition M (S E A : Type) : Type := S → S * outcome E A.

#[export] Instance outcome_ret E : MRet (outcome E) := λ A a, Ok a.
#[export] Instance outcome_bind E : MBind (outcome E) := λ A B f o,
  match o with
  | Ok a => f a
  | Err e => Err e
  | Panic => Panic
  | OutOfFuel => OutOfFuel
  end.
#[export] Instance outcome_fmap E : FMap (outcome E) := λ A B f o,
  match o with
  | Ok a => Ok (f a)
  | Err e => Err e
  | Panic => Panic
  | OutOfFuel => OutOfFuel
  end.

#[export] Instance M_ret S E : MRet (M S E) := λ A a s, (s, Ok a).
#[export] Instance M_bind S E : MBind (M S E) := λ A B f m s,
  match m s with
  | (s', Ok a) => f a s'
  | (s', Err e) => (s', Err e)
  | (s', Panic) => (s', Panic)
  | (s', OutOfFuel) => (s', OutOfFuel)
  end.

(** [?] on a [Result] that does not touch the state, and Rust's [map_err]. *)
Definition lift {S E A} (o : outcome E A) : M S E A := λ s, (s, o).
Definition map_err_o {E E' A} (f : E → E') (o : outcome E A) : outcome E' A :=
  match o with
  | Ok a => Ok a
  | Err e => Err (f e)
  | Panic => Panic
  | OutOfFuel => OutOfFuel
  end.
Definition throw {S E A} (e : E) : M S E A := lift (Err e).
Definition panic {S E A} : M S E A := lift Panic.

(** Reading and writing the state. *)
Definition gets {S E A} (f : S → A) : M S E A := λ s, (s, Ok (f s)).
Definition modify {S E} (f : S → S) : M S E () := λ s, (f s, Ok ()).

(** A lens picks the part of a larger state that a callee borrows. *)
Record lens (S T : Type) : Type := Lens { view : S → T; put : T → S → S }.
Arguments Lens {S T} view put.
Arguments view {S T} l.
Arguments put {S T} l.

Definition zoom {S T E A} (l : lens S T) (m : M T E A) : M S E A := λ s,
  let '(t, o) := m (view l s) in (put l t s, o).

Definition lfst {A B} : lens (A * B) A := Lens fst (λ a s, (a, snd s)).
Definition lsnd {A B} : lens (A * B) B := Lens snd (λ b s, (fst s, b)).

(** Run [m] with a fresh local variable [x] next to the borrowed state; the
    final value of the local is returned on success and dropped otherwise. *)
Definition with_local {L S E A} (x : L) (m : M (L * S) E A) : M S E (L * A) := λ s,
  let '((x', s'), o) := m (x, s) in (s', pair x' <$> o).

(** What a caller that inspects the [Result] itself sees: [Ok]/[Err] become
    data, panics and exhausted fuel still propagate. *)
Definition try_ {S E A} (m : M S E A) : M S E (E + A) := λ s,
  let '(s', o) := m s in
  (s', match o with
       | Ok a => Ok (inr a)
       | Err e => Ok (inl e)
       | Panic => Panic
       | OutOfFuel => OutOfFuel
       end).

(** [for x in l { body }] with [?] inside the body. *)
Fixpoint for_each {S E A} (l : list A) (body : A → M S E ()) : M S E () :=
  match l with
  | [] => mret ()
  | x :: l' => body x ;; for_each l' body
  end.

(** ** The build: const generics, target and profile

    [SIZE] (bytes per sector) and [SLOTS] (the const generic [N], slots per
    cache) are the const generics of the source; [usize_bits] is the pointer
    width of the target; [overflow_checks] and [debug_assertions] are the
    settings of the Cargo profile (both on in the dev and test profiles, both
    off in release). *)
Class Config := {
  SIZE : Z;
  SLOTS : nat;
  usize_bits : Z;
  overflow_checks : bool;
  debug_assertions : bool;
}.

Class ConfigOk (C : Config) : Prop := {
  SIZE_range : 32 ≤ SIZE ≤ 65536;
  SIZE_entries : SIZE mod 32 = 0;
  SLOTS_pos : (0 < SLOTS)%nat;
  usize_cases : usize_bits = 32 ∨ usize_bits = 64;
}.

(** Two concrete builds for a 32-bit target with 512-byte sectors and the
    default number of slots, used by the examples and witnesses. *)
Definition debug_build : Config := {|
  SIZE := 512; SLOTS := 4; usize_bits := 32;
  overflow_checks := true; debug_assertions := true |}.
Definition release_build : Config := {|
  SIZE := 512; SLOTS := 4; usize_bits := 32;
  overflow_checks := false; debug_assertions := false |}.
Lemma debug_build_ok : ConfigOk debug_build.
Proof. split; cbn; try lia; auto. Qed.
Lemma release_build_ok : ConfigOk release_build.
Proof. split; cbn; try lia; auto. Qed.

(** ** Machine integers

    A [w]-bit unsigned integer is a [Z]; an operation whose mathematical
    result does not fit panics when overflow checks are on and wraps around
    when they are off. *)
Abbreviation u8 := 8 (only parsing).
Abbreviation u16 := 16 (only parsing).
Abbreviation u32 := 32 (only parsing).
Abbreviation u64 := 64 (only parsing).
Abbreviation usize := usize_bits (only parsing).

Definition fits (w x : Z) : bool := (0 <=? x) && (x <? 2 ^ w).
Definition cast (w x : Z) : Z := x mod 2 ^ w.
Definition umax (w : Z) : Z := 2 ^ w - 1.

Section Arith.
Context {cfg : Config} {E : Type}.

Definition arith (w x : Z) : outcome E Z :=
  if fits w x then Ok x
  else if overflow_checks then Panic else Ok (cast w x).
Definition add (w a b : Z) : outcome E Z := arith w (a + b).
Definition sub (w a b : Z) : outcome E Z := arith w (a - b).
Definition mul (w a b : Z) : outcome E Z := arith w (a * b).
(** Division and remainder by zero always panic. *)
Definition udiv (a b : Z) : outcome E Z := if b =? 0 then Panic else Ok (a / b).
Definition urem (a b : Z) : outcome E Z := if b =? 0 then Panic else Ok (a mod b).
Definition div_ceil (a b : Z) : outcome E Z :=
  if b =? 0 then Panic else Ok (if a mod b =? 0 then a / b else a / b + 1).
Definition assert (b : bool) : outcome E () := if b then Ok () else Panic.
End Arith.

Definition saturating_sub (a b : Z) : Z := Z.max 0 (a - b).
Definition wrapping_add (w a b : Z) : Z := cast w (a + b).
(** [rotate_right(1)] on a [w]-bit integer *)
Definition rotate_right1 (w x : Z) : Z :=
  Z.lor (Z.shiftr x 1) (Z.shiftl (Z.land x 1) (w - 1)).

(** ** Slices

    Indexing and sub-slicing panic out of range; [copy_from_slice] panics when
    the lengths differ. *)
Definition len {A} (l : list A) : Z := Z.of_nat (length l).

Section Slices.
Context {E A : Type}.

Definition index (l : list A) (i : Z) : outcome E A :=
  if i <? 0 then Panic
  else match l !! Z.to_nat i with Some x => Ok x | None => Panic end.
Definition set_index (l : list A) (i : Z) (x : A) : outcome E (list A) :=
  if (0 <=? i) && (i <? len l) then Ok (<[Z.to_nat i := x]> l) else Panic.
Definition slice (l : list A) (a b : Z) : outcome E (list A) :=
  if (0 <=? a) && (a <=? b) && (b <=? len l)
  then Ok (take (Z.to_nat (b - a)) (drop (Z.to_nat a) l)) else Panic.
(** [l[a..b].copy_from_slice(src)] *)
Definition splice (l : list A) (a : Z) (src : list A) : list A :=
  take (Z.to_nat a) l ++ src ++ drop (Z.to_nat a + length src) l.
Definition copy_into (l : list A) (a b : Z) (src : list A) : outcome E (list A) :=
  if (0 <=? a) && (a <=? b) && (b <=? len l) && (len src =? b - a)
  then Ok (splice l a src) else Panic.
End Slices.

(** [as_chunks::<n>().0]: the whole chunks, the remainder is dropped. *)
Fixpoint as_chunks_fuel {A} (fuel n : nat) (l : list A) : list (list A) :=
  match fuel with
  | O => []
  | S fuel =>
      if (n <=? length l)%nat then take n l :: as_chunks_fuel fuel n (drop n l) else []
  end.
Definition as_chunks {A} (n : nat) (l : list A) : list (list A) :=
  as_chunks_fuel (length l / n) n l.

(** ** Little-endian byte strings *)
Definition byte_ok (b : Z) : Prop := 0 ≤ b < 256.
Fixpoint to_le_bytes (n : nat) (x : Z) : list Z :=
  match n with
  | O => []
  | S n => x mod 256 :: to_le_bytes n (x / 256)
  end.
Fixpoint from_le_bytes (bs : list Z) : Z :=
  match bs with
  | [] => 0
  | b :: bs => b + 256 * from_le_bytes bs
  end.
#[export] Instance byte_ok_dec b : Decision (byte_ok b).
Proof. unfold byte_ok. apply _. Defined.
Definition zeros (n : Z) : list Z := replicate (Z.to_nat n) 0.

(** ** Text

    A [str] is the list of its Unicode scalar values. *)
Abbreviation str := (list Z) (only parsing).

(** * Lemmas *)

Create HintDb exfat.
Create Rewrite HintDb exfat.

(** ** Monad *)
Section MonadLemmas.
Context {S E : Type}.

Lemma bind_Ok {A B} (m : M S E A) (f : A → M S E B) s s' a :
  m s = (s', Ok a) → (m ≫= f) s = f a s'.
Proof. intros H. unfold mbind, M_bind. by rewrite H. Qed.
Lemma bind_Err {A B} (m : M S E A) (f : A → M S E B) s s' e :
  m s = (s', Err e) → (m ≫= f) s = (s', Err e).
Proof. intros H. unfold mbind, M_bind. by rewrite H. Qed.
Lemma bind_Ok_inv {A B} (m : M S E A) (f : A → M S E B) s s' b :
  (m ≫= f) s = (s', Ok b) → ∃ s1 a, m s = (s1, Ok a) ∧ f a s1 = (s', Ok b).
Proof. unfold mbind, M_bind. destruct (m s) as [s1 [a|e| |]]; naive_solver. Qed.
Lemma bind_lift_Ok {A B} (a : A) (f : A → M S E B) s :
  (lift (Ok a) ≫= f) s = f a s.
Proof. done. Qed.
Lemma bind_assoc {A B C} (m : M S E A) (f : A → M S E B) (g : B → M S E C) s :
  ((m ≫= f) ≫= g) s = (m ≫= λ a, f a ≫= g) s.
Proof. unfold mbind, M_bind. destruct (m s) as [s' [a|e| |]]; done. Qed.
Lemma bind_ext {A B} (m : M S E A) (f g : A → M S E B) s :
  (∀ a s', f a s' = g a s') → (m ≫= f) s = (m ≫= g) s.
Proof. intros H. unfold mbind, M_bind. destruct (m s) as [s' [a|e| |]]; auto. Qed.
Lemma zoom_eq {T A} (l : lens S T) (m : M T E A) s t o :
  m (view l s) = (t, o) → zoom l m s = (put l t s, o).
Proof. intros H. unfold zoom. by rewrite H. Qed.
Lemma zoom_to {T A} (l : lens S T) (m : M T E A) s t o s' :
  m (view l s) = (t, o) → put l t s = s' → zoom l m s = (s', o).
Proof. intros H <-. by apply zoom_eq. Qed.
Lemma with_local_eq {L A} (x : L) (m : M (L * S) E A) s x' s' o :
  m (x, s) = ((x', s'), o) → with_local x m s = (s', pair x' <$> o).
Proof. intros H. unfold with_local. by rewrite H. Qed.
Lemma with_local_ext {L A B} (x : L) (m m' : M (L * S) E A) (g : L * A → M S E B) s :
  m (x, s) = m' (x, s) → (with_local x m ≫= g) s = (with_local x m' ≫= g) s.
Proof. intros H. unfold mbind, M_bind, with_local. by rewrite H. Qed.
Lemma for_each_app {A} (l1 l2 : list A) (body : A → M S E ()) s :
  for_each (l1 ++ l2) body s = (for_each l1 body ;; for_each l2 body) s.
Proof.
  revert s. induction l1 as [|x l1 IH]; intros s; [done|].
  cbn [for_each app]. rewrite bind_assoc. apply bind_ext. auto.
Qed.
End MonadLemmas.

(** Execute the first action of a computation with a known result. *)
Tactic Notation "run" uconstr(H) := erewrite (bind_Ok _ _ _ _ _ H).

(** Linear arithmetic with [/] and [mod] by constants. *)
Ltac pow_consts :=
  repeat match goal with
  | |- context [2 ^ Zpos ?k] =>
      let v := eval vm_compute in (2 ^ Zpos k) in change (2 ^ Zpos k) with v in *
  | H : context [2 ^ Zpos ?k] |- _ =>
      let v := eval vm_compute in (2 ^ Zpos k) in change (2 ^ Zpos k) with v in *
  end.
Ltac dlia := pow_consts; Z.to_euclidean_division_equations; lia.

(** ** Integers *)
Lemma fits_true w x : 0 ≤ x < 2 ^ w → fits w x = true.
Proof. unfold fits. lia. Qed.

Section ArithLemmas.
Context {cfg : Config} {E : Type}.
Lemma arith_ok w x : 0 ≤ x < 2 ^ w → arith (E:=E) w x = Ok x.
Proof. intros. unfold arith. by rewrite fits_true. Qed.
Lemma add_ok w a b : 0 ≤ a + b < 2 ^ w → add (E:=E) w a b = Ok (a + b).
Proof. apply arith_ok. Qed.
Lemma sub_ok w a b : 0 ≤ a - b < 2 ^ w → sub (E:=E) w a b = Ok (a - b).
Proof. apply arith_ok. Qed.
Lemma mul_ok w a b : 0 ≤ a * b < 2 ^ w → mul (E:=E) w a b = Ok (a * b).
Proof. apply arith_ok. Qed.
Lemma udiv_ok a b : b ≠ 0 → udiv (E:=E) a b = Ok (a / b).
Proof. intros. unfold udiv. by rewrite (proj2 (Z.eqb_neq _ _)). Qed.
Lemma urem_ok a b : b ≠ 0 → urem (E:=E) a b = Ok (a mod b).
Proof. intros. unfold urem. by rewrite (proj2 (Z.eqb_neq _ _)). Qed.
Lemma div_ceil_ok a b : 0 < b → div_ceil (E:=E) a b = Ok ((a + b - 1) / b).
Proof.
  intros Hb. unfold div_ceil. rewrite (proj2 (Z.eqb_neq _ _)) by lia. f_equal.
  pose proof (Z.div_mod a b ltac:(lia)) as Hd. pose proof (Z.mod_pos_bound a b Hb).
  destruct (Z.eqb_spec (a mod b) 0) as [Hz|Hz].
  - apply Z.div_unique with (b - 1); lia.
  - apply Z.div_unique with (a mod b - 1); lia.
Qed.
End ArithLemmas.

Lemma cast_range w x : 0 ≤ w → 0 ≤ cast w x < 2 ^ w.
Proof. intros. apply Z.mod_pos_bound. lia. Qed.
Lemma cast_id w x : 0 ≤ x < 2 ^ w → cast w x = x.
Proof. apply Z.mod_small. Qed.

(** ** Bits *)
Lemma land_shiftl_small a b k : 0 ≤ k → 0 ≤ a < 2 ^ k → Z.land a (Z.shiftl b k) = 0.
Proof.
  intros Hk Ha. destruct (decide (a = 0)) as [->|Hne]; [apply Z.land_0_l|].
  apply Z.bits_inj'. intros i Hi. rewrite Z.land_spec, Z.bits_0.
  destruct (decide (i < k)).
  - by rewrite Z.shiftl_spec_low, andb_false_r.
  - rewrite (Z.bits_above_log2 a), andb_false_l; [done|lia|].
    apply Z.lt_le_trans with k; [|lia]. apply Z.log2_lt_pow2; lia.
Qed.
Lemma lor_shiftl_add a b k :
  0 ≤ k → 0 ≤ a < 2 ^ k → Z.lor a (Z.shiftl b k) = a + b * 2 ^ k.
Proof.
  intros Hk Ha. rewrite <-Z.add_nocarry_lor by (by apply land_shiftl_small).
  by rewrite Z.shiftl_mul_pow2.
Qed.
Lemma land_low a k : 0 ≤ k → Z.land a (2 ^ k - 1) = a mod 2 ^ k.
Proof. intros. rewrite <-Z.land_ones by done. f_equal. rewrite Z.ones_equiv. lia. Qed.

(** ** Lists *)
Section ListLemmas.
Context {E A : Type}.
Implicit Types l : list A.

Lemma len_nonneg l : 0 ≤ len l.
Proof. unfold len. lia. Qed.
Lemma len_pos l : l ≠ [] → 0 < len l.
Proof. destruct l; [done|]. unfold len. cbn. lia. Qed.
Lemma len_app l1 l2 : len (l1 ++ l2) = len l1 + len l2.
Proof. unfold len. rewrite length_app. lia. Qed.
Lemma len_insert l i x : len (<[i:=x]> l) = len l.
Proof. unfold len. by rewrite length_insert. Qed.
Lemma len_take l n : len (take n l) = Z.min (Z.of_nat n) (len l).
Proof. unfold len. rewrite length_take. lia. Qed.
Lemma len_drop l n : len (drop n l) = Z.max 0 (len l - Z.of_nat n).
Proof. unfold len. rewrite length_drop. lia. Qed.

Lemma index_ok l i x :
  0 ≤ i → l !! Z.to_nat i = Some x → index (E:=E) l i = Ok x.
Proof. intros Hi Hx. unfold index. rewrite (proj2 (Z.ltb_ge _ _)) by lia. by rewrite Hx. Qed.
Lemma slice_ok l a b :
  0 ≤ a ≤ b → b ≤ len l →
  slice (E:=E) l a b = Ok (take (Z.to_nat (b - a)) (drop (Z.to_nat a) l)).
Proof.
  intros Ha Hb. unfold slice.
  rewrite (proj2 (Z.leb_le 0 a)), (proj2 (Z.leb_le a b)), (proj2 (Z.leb_le b _)) by lia.
  done.
Qed.
Lemma copy_into_ok l a b src :
  0 ≤ a → b ≤ len l → len src = b - a →
  copy_into (E:=E) l a b src = Ok (splice l a src).
Proof.
  intros Ha Hb Hs. unfold copy_into. pose proof (len_nonneg src).
  rewrite (proj2 (Z.leb_le 0 a)), (proj2 (Z.leb_le a b)), (proj2 (Z.leb_le b _)),
    (proj2 (Z.eqb_eq _ _)) by lia. done.
Qed.
Lemma length_splice l a src :
  0 ≤ a → a + len src ≤ len l → length (splice l a src) = length l.
Proof.
  unfold splice, len. intros. rewrite !length_app, length_take, length_drop. lia.
Qed.
Lemma lookup_splice_in l a src (i : nat) :
  0 ≤ a → a + len src ≤ len l → a ≤ Z.of_nat i < a + len src →
  splice l a src !! i = src !! (i - Z.to_nat a)%nat.
Proof.
  unfold splice, len. intros. rewrite lookup_app_r by (rewrite length_take; lia).
  rewrite length_take, lookup_app_l by lia. f_equal. lia.
Qed.
Lemma lookup_splice_out l a src (i : nat) :
  0 ≤ a → a + len src ≤ len l → ¬ (a ≤ Z.of_nat i < a + len src) →
  splice l a src !! i = l !! i.
Proof.
  unfold splice, len. intros Ha Hl Hi.
  destruct (decide (Z.of_nat i < a)).
  - rewrite lookup_app_l by (rewrite length_take; lia). apply lookup_take_lt. lia.
  - rewrite !lookup_app_r by (rewrite ?length_take; lia).
    rewrite lookup_drop, length_take. f_equal. lia.
Qed.
End ListLemmas.

(** ** Little-endian round trips *)
Lemma length_to_le_bytes n x : length (to_le_bytes n x) = n.
Proof. revert x. induction n; intros; cbn; auto. Qed.
Lemma len_to_le_bytes n x : len (to_le_bytes n x) = Z.of_nat n.
Proof. unfold len. by rewrite length_to_le_bytes. Qed.
Lemma to_le_bytes_ok n x : Forall byte_ok (to_le_bytes n x).
Proof.
  revert x. induction n; intros; cbn; constructor; auto.
  apply Z.mod_pos_bound. lia.
Qed.
Lemma from_to_le_bytes n x :
  from_le_bytes (to_le_bytes n x) = x mod 2 ^ (8 * Z.of_nat n).
Proof.
  revert x. induction n as [|n IH]; intros x.
  { cbn. by rewrite Z.mod_1_r. }
  cbn [to_le_bytes from_le_bytes]. rewrite IH.
  replace (8 * Z.of_nat (S n)) with (8 + 8 * Z.of_nat n) by lia.
  rewrite Z.pow_add_r, (Z.rem_mul_r x (2 ^ 8)) by lia. done.
Qed.
Lemma from_to_le_bytes_small n x :
  0 ≤ x < 2 ^ (8 * Z.of_nat n) → from_le_bytes (to_le_bytes n x) = x.
Proof. intros. rewrite from_to_le_bytes. by apply Z.mod_small. Qed.
Lemma to_from_le_bytes bs :
  Forall byte_ok bs → to_le_bytes (length bs) (from_le_bytes bs) = bs.
Proof.
  unfold byte_ok. induction 1 as [|b bs Hb _ IH]; [done|]. cbn [length to_le_bytes from_le_bytes].
  f_equal.
  - rewrite (Z.mul_comm 256), Z.mod_add by lia. by apply Z.mod_small.
  - rewrite (Z.mul_comm 256), Z.div_add, Z.div_small by lia. done.
Qed.
Lemma from_le_bytes_range bs :
  Forall byte_ok bs → 0 ≤ from_le_bytes bs < 2 ^ (8 * len bs).
Proof.
  unfold len, byte_ok. induction 1 as [|b bs Hb _ IH]; [done|]. cbn [length from_le_bytes].
  replace (8 * Z.of_nat (S (length bs))) with (8 + 8 * Z.of_nat (length bs)) by lia.
  rewrite Z.pow_add_r by lia. change (2 ^ 8) with 256. lia.
Qed.

(** A decidable property of bytes is checked on all 256 of them. *)
Lemma forall_byte (P : Z → bool) :
  forallb P (seqZ 0 256) = true → ∀ b, byte_ok b → P b = true.
Proof.
  unfold byte_ok. intros H b Hb. rewrite forallb_forall in H. apply H.
  apply list_elem_of_In, elem_of_seqZ. lia.
Qed.

(** ** Chunks *)
Lemma as_chunks_lookup {A} (n : nat) (l : list A) (i : nat) :
  (0 < n)%nat → (n * S i ≤ length l)%nat →
  as_chunks n l !! i = Some (take n (drop (n * i) l)).
Proof.
  intros Hn. unfold as_chunks.
  assert (Hgen : ∀ fuel i (l : list A), (i < fuel)%nat → (n * S i ≤ length l)%nat →
    as_chunks_fuel fuel n l !! i = Some (take n (drop (n * i) l))); last first.
  { intros Hi. apply Hgen; [|done]. apply Nat.div_le_lower_bound; lia. }
  clear l i. induction fuel as [|fuel IH]; intros i l Hf Hl; [lia|]. cbn [as_chunks_fuel].
  rewrite (proj2 (Nat.leb_le n _)) by lia. destruct i as [|i].
  { cbn. by rewrite Nat.mul_0_r, drop_0. }
  cbn [lookup list_lookup]. change (as_chunks_fuel fuel n (drop n l) !! i = Some (take n (drop (n * S i) l))).
  rewrite IH by (rewrite ?length_drop; lia). rewrite drop_drop. do 3 f_equal. lia.
Qed.
Lemma concat_as_chunks {A} (n : nat) (l : list A) :
  (0 < n)%nat → concat (as_chunks n l) ++ drop (length (as_chunks n l) * n) l = l.
Proof.
  intros Hn. unfold as_chunks. generalize (length l / n)%nat. intros fuel. revert l.
  induction fuel as [|fuel IH]; intros l; [done|]. cbn [as_chunks_fuel].
  destruct (Nat.leb_spec n (length l)); [|done].
  cbn [concat length]. rewrite <-app_assoc, Nat.mul_succ_l, Nat.add_comm, <-drop_drop.
  rewrite IH. apply take_drop.
Qed.
Lemma length_as_chunks {A} (n : nat) (l : list A) :
  (0 < n)%nat → length (as_chunks n l) = (length l / n)%nat.
Proof.
  intros Hn. unfold as_chunks.
  assert (Hgen : ∀ fuel (l : list A), (n * fuel ≤ length l)%nat →
    length (as_chunks_fuel fuel n l) = fuel); last first.
  { apply Hgen. apply Nat.Div0.mul_div_le. }
  clear l. induction fuel as [|fuel IH]; intros l Hl; [done|]. cbn [as_chunks_fuel].
  rewrite (proj2 (Nat.leb_le n _)) by lia. cbn [length]. f_equal. apply IH.
  rewrite length_drop. lia.
Qed.

#[export] Hint Rewrite @len_app @len_insert @len_take @len_drop @len_to_le_bytes : exfat.
#[export] Hint Resolve to_le_bytes_ok len_nonneg : exfat.

(** ** Transition systems *)
Section Transitions.
Context {State : Type} (step : State → State → Prop).

(** On every run from here the property holds sooner or later; until then there
    is always a next step. *)
Inductive eventually (P : State → Prop) (s : State) : Prop :=
  | eventually_now : P s → eventually P s
  | eventually_step : (∃ s', step s s') → (∀ s', step s s' → eventually P s') → eventually P s.

(** A rule for it: an invariant, a measure that every step lowers, and a step as
    long as the property does not hold. *)
Lemma eventually_measure (Inv P : State → Prop) (measure : State → nat) s :
  (∀ s s', Inv s → step s s' → Inv s' ∧ (measure s' < measure s)%nat) →
  (∀ s, Inv s → P s ∨ ∃ s', step s s') →
  Inv s → eventually P s.
Proof.
  intros Hstep Hprogress.
  remember (measure s) as n eqn:Hn. revert s Hn.
  induction n as [n IH] using lt_wf_ind. intros s -> Hs.
  destruct (Hprogress s Hs) as [HP|Hex]; [by apply eventually_now|].
  apply eventually_step; [done|]. intros s' Hs'. destruct (Hstep s s' Hs Hs') as [Hs2 Hlt]. by eapply IH.
Qed.
Lemma eventually_weaken (P Q : State → Prop) s :
  (∀ s, P s → Q s) → eventually P s → eventually Q s.
Proof. intros HPQ. induction 1; [apply eventually_now; auto|by apply eventually_step]. Qed.
End Transitions.
