(* ===== verification/Text.v ===== *)
(** * Text functions of the Rust standard library

    The source uses [str::encode_utf16], [char::decode_utf16],
    [char::encode_utf8], [core::str::from_utf8], [str::split], [str::rfind]
    and [str::trim].  This file gives them on the [str] of the model (a list of
    Unicode scalar values) and proves the round trips file names rely on. *)

From S2P Require Import Prelude.

(** A Unicode scalar value: a code point that is not a surrogate. *)
Definition scalar (c : Z) : Prop :=
  (0 ≤ c < 0xD800) ∨ (0xE000 ≤ c < 0x110000).

#[export] Instance scalar_dec c : Decision (scalar c).
Proof. unfold scalar. apply _. Defined.

(** ** UTF-16 *)
Definition encode_utf16_char (c : Z) : list Z :=
  if c <? 0x10000 then [c]
  else [0xD800 + (c - 0x10000) / 0x400; 0xDC00 + (c - 0x10000) mod 0x400].
Definition encode_utf16 (s : str) : list Z := flat_map encode_utf16_char s.

(** [None] stands for the [Err] of an unpaired surrogate. *)
Fixpoint decode_utf16 (us : list Z) : list (option Z) :=
  match us with
  | [] => []
  | u :: us' =>
      if (u <? 0xD800) || (0xDFFF <? u) then Some u :: decode_utf16 us'
      else if 0xDC00 <=? u then None :: decode_utf16 us'
      else match us' with
           | [] => [None]
           | u2 :: us'' =>
               if (u2 <? 0xDC00) || (0xDFFF <? u2) then None :: decode_utf16 us'
               else Some (0x10000 + (u - 0xD800) * 0x400 + (u2 - 0xDC00))
                      :: decode_utf16 us''
           end
  end.

(** ** UTF-8 *)
Definition encode_utf8 (c : Z) : list Z :=
  if c <? 0x80 then [c]
  else if c <? 0x800 then [0xC0 + c / 64; 0x80 + c mod 64]
  else if c <? 0x10000 then [0xE0 + c / 4096; 0x80 + c / 64 mod 64; 0x80 + c mod 64]
  else [0xF0 + c / 262144; 0x80 + c / 4096 mod 64; 0x80 + c / 64 mod 64; 0x80 + c mod 64].
Definition len_utf8 (c : Z) : Z :=
  if c <? 0x80 then 1 else if c <? 0x800 then 2 else if c <? 0x10000 then 3 else 4.
Definition utf8 (s : str) : list Z := flat_map encode_utf8 s.

Definition in_range (lo hi x : Z) : bool := (lo <=? x) && (x <=? hi).
Definition continuation (b : Z) : bool := in_range 0x80 0xBF b.

(** [core::str::from_utf8]: overlong forms, surrogates and code points above
    U+10FFFF are rejected by the bounds on the second byte. *)
Fixpoint from_utf8 (bs : list Z) : option str :=
  match bs with
  | [] => Some []
  | b0 :: r0 =>
      if in_range 0 0x7F b0 then cons b0 <$> from_utf8 r0
      else match r0 with
      | [] => None
      | b1 :: r1 =>
          if in_range 0xC2 0xDF b0 then
            if continuation b1
            then cons ((b0 - 0xC0) * 64 + (b1 - 0x80)) <$> from_utf8 r1 else None
          else match r1 with
          | [] => None
          | b2 :: r2 =>
              if in_range 0xE0 0xEF b0 then
                if in_range (if b0 =? 0xE0 then 0xA0 else 0x80)
                            (if b0 =? 0xED then 0x9F else 0xBF) b1 && continuation b2
                then cons ((b0 - 0xE0) * 4096 + (b1 - 0x80) * 64 + (b2 - 0x80))
                       <$> from_utf8 r2
                else None
              else match r2 with
              | [] => None
              | b3 :: r3 =>
                  if in_range 0xF0 0xF4 b0 then
                    if in_range (if b0 =? 0xF0 then 0x90 else 0x80)
                                (if b0 =? 0xF4 then 0x8F else 0xBF) b1
                       && continuation b2 && continuation b3
                    then cons ((b0 - 0xF0) * 262144 + (b1 - 0x80) * 4096
                               + (b2 - 0x80) * 64 + (b3 - 0x80)) <$> from_utf8 r3
                    else None
                  else None
              end
          end
      end
  end.

(** ** Splitting and trimming *)
Fixpoint split_on (p : Z → bool) (s : str) : list str :=
  match s with
  | [] => [[]]
  | c :: s' =>
      if p c then [] :: split_on p s'
      else match split_on p s' with
           | [] => [[c]]
           | w :: ws => (c :: w) :: ws
           end
  end.

(** index of the last character satisfying [p] *)
Fixpoint rfind (p : Z → bool) (s : str) : option nat :=
  match s with
  | [] => None
  | c :: s' =>
      match rfind p s' with
      | Some i => Some (S i)
      | None => if p c then Some O else None
      end
  end.

(** [char::is_whitespace]: the Unicode property [White_Space]. *)
Definition is_whitespace (c : Z) : bool :=
  in_range 0x9 0xD c || (c =? 0x20) || (c =? 0x85) || (c =? 0xA0) || (c =? 0x1680)
  || in_range 0x2000 0x200A c || (c =? 0x2028) || (c =? 0x2029) || (c =? 0x202F)
  || (c =? 0x205F) || (c =? 0x3000).
Fixpoint trim_start (s : str) : str :=
  match s with
  | c :: s' => if is_whitespace c then trim_start s' else s
  | [] => []
  end.
Definition trim (s : str) : str := rev (trim_start (rev (trim_start s))).

(** ASCII literals *)
Definition of_string (s : string) : str :=
  (λ a, Z.of_N (Ascii.N_of_ascii a)) <$> String.list_ascii_of_string s.

(** * Lemmas *)

Lemma encode_utf16_app s1 s2 : encode_utf16 (s1 ++ s2) = encode_utf16 s1 ++ encode_utf16 s2.
Proof. apply flat_map_app. Qed.

Lemma encode_utf16_char_u16 c :
  scalar c → Forall (λ u, 0 ≤ u < 2 ^ 16) (encode_utf16_char c).
Proof.
  unfold scalar, encode_utf16_char. intros Hc. change (2 ^ 16) with 65536.
  destruct (Z.ltb_spec c 0x10000); repeat constructor; try lia;
    pose proof (Z.mod_pos_bound (c - 0x10000) 0x400);
    pose proof (Z.div_mod (c - 0x10000) 0x400); lia.
Qed.

Lemma decode_encode_utf16 s :
  Forall scalar s → decode_utf16 (encode_utf16 s) = Some <$> s.
Proof.
  induction 1 as [|c s Hc _ IH]; [done|].
  change (encode_utf16 (c :: s)) with (encode_utf16_char c ++ encode_utf16 s).
  set (us := encode_utf16 s) in *. cbn [fmap list_fmap]. unfold encode_utf16_char. unfold scalar in Hc. destruct (Z.ltb_spec c 0x10000) as [Hl|Hl].
  - cbn [app decode_utf16]. destruct (_ || _) eqn:Hb; [by rewrite IH|]. exfalso. lia.
  - cbn [app decode_utf16].
    pose proof (Z.mod_pos_bound (c - 0x10000) 0x400 ltac:(lia)).
    pose proof (Z.div_mod (c - 0x10000) 0x400 ltac:(lia)).
    set (q := (c - 0x10000) / 0x400) in *. set (r := (c - 0x10000) mod 0x400) in *.
    destruct (_ || _) eqn:Hb1; [exfalso; lia|].
    destruct (_ <=? _) eqn:Hb2; [exfalso; lia|].
    destruct ((0xDC00 + r <? _) || _) eqn:Hb3; [exfalso; lia|].
    rewrite IH. do 2 f_equal. lia.
Qed.

Lemma length_encode_utf8 c : len (encode_utf8 c) = len_utf8 c.
Proof.
  unfold encode_utf8, len_utf8. by repeat case_match.
Qed.

Lemma from_utf8_char c bs :
  scalar c → from_utf8 (encode_utf8 c ++ bs) = cons c <$> from_utf8 bs.
Proof.
  unfold scalar, encode_utf8. intros Hc.
  pose proof (Z.div_mod c 64 ltac:(lia)). pose proof (Z.mod_pos_bound c 64 ltac:(lia)).
  pose proof (Z.div_mod (c / 64) 64 ltac:(lia)).
  pose proof (Z.mod_pos_bound (c / 64) 64 ltac:(lia)).
  assert (Hd1 : c / 4096 = c / 64 / 64) by (by rewrite Z.div_div).
  pose proof (Z.div_mod (c / 4096) 64 ltac:(lia)).
  pose proof (Z.mod_pos_bound (c / 4096) 64 ltac:(lia)).
  assert (Hd2 : c / 262144 = c / 4096 / 64) by (by rewrite Z.div_div).
  repeat match goal with
  | |- context [if ?a <? ?b then [_] else _] => destruct (Z.ltb_spec a b)
  | |- context [if ?a <? ?b then [_; _] else _] => destruct (Z.ltb_spec a b)
  | |- context [if ?a <? ?b then [_; _; _] else _] => destruct (Z.ltb_spec a b)
  end; cbn [app from_utf8]; unfold continuation, in_range;
  repeat match goal with
  | |- context [if ?b then _ else _] =>
      destruct b eqn:?; try (exfalso; lia)
  end; try done.
  all: try (f_equal; f_equal; lia).
  all: exfalso; repeat match goal with
  | H : context [if ?b then _ else _] |- _ => destruct b eqn:?
  end; lia.
Qed.

Lemma from_utf8_utf8 s : Forall scalar s → from_utf8 (utf8 s) = Some s.
Proof.
  unfold utf8. induction 1 as [|c s Hc _ IH]; [done|]. cbn [flat_map].
  rewrite from_utf8_char by done. by rewrite IH.
Qed.

Lemma rfind_Some p s i :
  rfind p s = Some i →
  ∃ c, s !! i = Some c ∧ p c = true ∧ Forall (λ c, p c = false) (drop (S i) s).
Proof.
  revert i. induction s as [|c s IH]; intros i Hi; cbn in Hi; [done|].
  destruct (rfind p s) as [j|] eqn:Hj.
  - simplify_eq. destruct (IH j eq_refl) as (d & ? & ? & ?). by exists d.
  - destruct (p c) eqn:Hc; [|done]. simplify_eq. exists c. split_and!; [done..|].
    cbn. rewrite drop_0. clear IH Hc. induction s as [|d s IH]; [constructor|]. cbn in Hj.
    destruct (rfind p s); [done|]. destruct (p d) eqn:?; [done|]. constructor; auto.
Qed.
Lemma rfind_None p s : rfind p s = None → Forall (λ c, p c = false) s.
Proof.
  induction s as [|d s IH]; [constructor|]. cbn. intros Hj.
  destruct (rfind p s); [done|]. destruct (p d) eqn:?; [done|]. constructor; auto.
Qed.

Lemma fmap_cons_Some {A} (x : A) (o : option (list A)) l :
  cons x <$> o = Some l → ∃ l', o = Some l' ∧ l = x :: l'.
Proof. destruct o as [l'|]; [|done]. intros [= <-]. eauto. Qed.

(** Text that decodes to ASCII is its own encoding. *)
Lemma from_utf8_ascii bs s :
  from_utf8 bs = Some s → Forall (λ c, c < 128) s → bs = s.
Proof.
  remember (length bs) as n eqn:Hn. revert bs s Hn.
  induction n as [n IH] using lt_wf_ind. intros bs s Hn Hs Ha. subst n.
  destruct bs as [|b0 r0]; cbn in Hs; [by simplify_eq|].
  unfold continuation, in_range in Hs.
  repeat (match type of Hs with
  | context [if ?b then _ else _] => destruct b eqn:?
  | context [match ?r with [] => _ | _ :: _ => _ end] => destruct r
  end; try done);
  apply fmap_cons_Some in Hs as (s' & Hs & ->); apply Forall_cons in Ha as [Hc Ha].
  { f_equal. by eapply IH; [|done..]; cbn; lia. }
  all: exfalso; repeat match goal with
  | H : context [if ?b then _ else _] |- _ => destruct b eqn:?
  end; lia.
Qed.
