(* ===== verification/Crates.v ===== *)
(** * Third-party crates the source calls

    [bitflags] and [heapless] are not part of the repository.  Their functions
    are the fields of a class the model is parametric in, and what the source
    relies on is the class [CratesOk] of documented laws.  [reference_crates]
    is a concrete instance the witnesses run on. *)

From S2P Require Import Prelude Text.

Class Crates := {
  (** [bitflags]: [T::from_bits_truncate] (the first argument is the union of
      the declared flags), [contains], [set] and [|] on the bits of a flag
      value. *)
  from_bits_truncate : Z → Z → Z;
  contains : Z → Z → bool;
  set_flag : Z → Z → bool → Z;
  flag_union : Z → Z → Z;
  (** [heapless::Vec::push]: [None] is the [Err] of a full vector. *)
  vec_push : ∀ {A}, nat → list A → A → option (list A);
  (** collecting characters into a [heapless::String] of a byte capacity;
      [None] is a panic *)
  string_collect : nat → list Z → option (list Z);
}.

Class CratesOk (C : Crates) : Prop := {
  from_bits_truncate_spec all bits : from_bits_truncate all bits = Z.land bits all;
  contains_spec flags other : contains flags other = (Z.land flags other =? other);
  set_flag_spec flags other (b : bool) :
    set_flag flags other b = if b then Z.lor flags other else Z.ldiff flags other;
  flag_union_spec a b : flag_union a b = Z.lor a b;
  vec_push_spec A cap (l : list A) x :
    vec_push cap l x = if decide (length l < cap)%nat then Some (l ++ [x]) else None;
}.

Definition reference_crates : Crates := {|
  from_bits_truncate all bits := Z.land bits all;
  contains flags other := Z.land flags other =? other;
  set_flag flags other b := if b then Z.lor flags other else Z.ldiff flags other;
  flag_union := Z.lor;
  vec_push A cap l x := if decide (length l < cap)%nat then Some (l ++ [x]) else None;
  string_collect cap s := if len (utf8 s) <=? Z.of_nat cap then Some s else None;
|}.

Lemma reference_crates_ok : CratesOk reference_crates.
Proof. split; done. Qed.
