(* ===== verification/Errors.v ===== *)
(** * Error types (src/error.rs and the error enums of the modules) *)

From S2P Require Import Prelude.

Module BootSectorError.
(** [boot_sector::Error] *)
Inductive Error :=
  | InvalidJumpBoot
  | InvalidFileSystemName
  | InvalidBootSignature
  | InvalidBytesPerSectorShift (shift : Z)
  | InvalidSectorsPerClusterShift (shift : Z).
End BootSectorError.

Module DirectoryEntryError.
(** [directory_entry::Error] *)
Inductive Error :=
  | InvalidUtf16String (reason : string).
End DirectoryEntryError.

(** [ExFatError<E>], [E] being the error type of the block device *)
Inductive ExFatError (E : Type) :=
  | Io (e : E)
  | DirectoryEntry (e : DirectoryEntryError.Error)
  | NotExFat (e : BootSectorError.Error)
  | EndOfFatChain
  | InvalidUtf16String (reason : string)
  | InvalidFileName (reason : string)
  | InvalidFileSystem (reason : string)
  | FileNotFound
  | DirectoryNotFound
  | Utf8Error
  | DiskFull
  | InvalidClusterId (id : Z)
  | InvalidSectorId (id : Z)
  | DirectoryNotEmpty
  | WriteNotEnabled
  | ReadNotEnabled
  | AlreadyExists
  | SeekOutOfRange
  | InvalidAllocation (lba index : Z) (allocated allocated_new : bool)
  | InvalidOptions
  | Unexpected (reason : string)
  | FileNameBufferTooSmall
  | DirectoryFull.
Arguments Io {E} e.
Arguments DirectoryEntry {E} e.
Arguments NotExFat {E} e.
Arguments EndOfFatChain {E}.
Arguments InvalidUtf16String {E} reason.
Arguments InvalidFileName {E} reason.
Arguments InvalidFileSystem {E} reason.
Arguments FileNotFound {E}.
Arguments DirectoryNotFound {E}.
Arguments Utf8Error {E}.
Arguments DiskFull {E}.
Arguments InvalidClusterId {E} id.
Arguments InvalidSectorId {E} id.
Arguments DirectoryNotEmpty {E}.
Arguments WriteNotEnabled {E}.
Arguments ReadNotEnabled {E}.
Arguments AlreadyExists {E}.
Arguments SeekOutOfRange {E}.
Arguments InvalidAllocation {E} lba index allocated allocated_new.
Arguments InvalidOptions {E}.
Arguments Unexpected {E} reason.
Arguments FileNameBufferTooSmall {E}.
Arguments DirectoryFull {E}.
