(* ===== verification/Utils.v ===== *)
(** * src/utils.rs and the up-case mapping of src/upcase_table.rs

    Little-endian field readers, the file name hash, path splitting, the
    chunking of names into 15-unit directory entries and the table that folds
    case.  ([set_volume_dirty] does I/O and is in Device.v.) *)

From S2P Require Import Prelude Text.
Open Scope string_scope.
Open Scope list_scope.
Open Scope Z_scope.

(** ** The up-case table *)
Record UpcaseTable := { mapping : list Z }.

Definition default_mapping : list Z :=
  [0; 1; 2; 3; 4; 5; 6; 7; 8; 9; 10; 11; 12; 13; 14; 15; 16; 17; 18; 19; 20; 21; 22;
   23; 24; 25; 26; 27; 28; 29; 30; 31; 32; 33; 34; 35; 36; 37; 38; 39; 40; 41; 42; 43;
   44; 45; 46; 47; 48; 49; 50; 51; 52; 53; 54; 55; 56; 57; 58; 59; 60; 61; 62; 63; 64;
   65; 66; 67; 68; 69; 70; 71; 72; 73; 74; 75; 76; 77; 78; 79; 80; 81; 82; 83; 84; 85;
   86; 87; 88; 89; 90; 91; 92; 93; 94; 95; 96; 65; 66; 67; 68; 69; 70; 71; 72; 73; 74;
   75; 76; 77; 78; 79; 80; 81; 82; 83; 84; 85; 86; 87; 88; 89; 90; 123; 124; 125; 126;
   127].
Definition UpcaseTable_default : UpcaseTable := {| mapping := default_mapping |}.
Definition UpcaseTable_empty : UpcaseTable := {| mapping := replicate 128 0 |}.

Definition upcase (t : UpcaseTable) (utf16_char : Z) : Z :=
  match mapping t !! Z.to_nat utf16_char with
  | Some c => c
  | None => utf16_char
  end.

(** [for (to, from) in self.mapping.iter_mut().zip(chars) { *to = .. }] *)
Definition load_mapping (t : UpcaseTable) (block : list Z) : UpcaseTable :=
  let chars := from_le_bytes <$> as_chunks 2 block in
  let n := Nat.min (length (mapping t)) (length chars) in
  {| mapping := take n chars ++ drop n (mapping t) |}.

(** ** Field readers *)
Section Readers.
Context {E : Type}.
Definition read_u16_le (idx : Z) (value : list Z) : outcome E Z :=
  from_le_bytes <$> slice value idx (idx + 2).
Definition read_u32_le (idx : Z) (value : list Z) : outcome E Z :=
  from_le_bytes <$> slice value idx (idx + 4).
Definition read_u64_le (idx : Z) (value : list Z) : outcome E Z :=
  from_le_bytes <$> slice value idx (idx + 8).
End Readers.

(** ** Names *)
Definition is_illegal_name_char (c : Z) : bool :=
  (c <=? 0x1F)
  || existsb (Z.eqb c)
       [0x22; 0x2A; 0x2F; 0x3A; 0x3C; 0x3E; 0x3F; 0x5C; 0x7C].

Section Names.
Context {cfg : Config}.

(** the number of 32 byte entries of a directory entry set *)
Definition calc_dir_entry_set_len {E} (name_char_count : Z) : outcome E Z :=
  d ← div_ceil (cast u32 name_char_count) 15;
  add usize 2 (cast usize d).

(** one [hash = rotated + byte] line of [encode_utf16_upcase_and_hash] *)
Definition hash_byte {E} (hash byte : Z) : outcome E Z :=
  h ← add u16 (if 0 <? Z.land hash 1 then 0x8000 else 0) (Z.shiftr hash 1);
  add u16 h byte.

(** the [for c in s.encode_utf16()] loop *)
Fixpoint hash_loop (table : UpcaseTable) (us : list Z) (hash count : Z)
    : outcome string (Z * Z) :=
  match us with
  | [] => Ok (hash, count)
  | c :: us =>
      count ← add usize count 1;
      if is_illegal_name_char c then Err "name contains an illegal character"
      else
        let c := upcase table c in
        hash ← hash_byte hash (Z.land c 0xFF);
        hash ← hash_byte hash (Z.shiftr c 8);
        hash_loop table us hash count
  end.

Definition encode_utf16_upcase_and_hash (s : str) (table : UpcaseTable)
    : outcome string (Z * Z) :=
  if decide (s = of_string "." ∨ s = of_string "..")
  then Err ". and .. are reserved names"
  else
    r ← hash_loop table (encode_utf16 s) 0 0;
    if snd r =? 0 then Err "name is empty" else Ok r.
End Names.

(** ** Paths *)
Definition is_separator (c : Z) : bool := (c =? 0x2F) || (c =? 0x5C).
Definition split_path (path : str) : str * str :=
  match rfind is_separator path with
  | Some i => (take i path, drop (S i) path)
  | None => ([], path)
  end.

(** The iterator of [path_to_iter], [get_leaf_file_entry] and
    [is_root_directory]: split at the separators, drop the empty parts, trim
    the others. *)
Definition path_to_iter (path : str) : list str :=
  trim <$> filter (λ part, part ≠ []) (split_on is_separator path).

(** ** Chunked UTF-16 ([Utf16Chunks])

    The iterator is the list of code units it has left. *)
Definition next_chunk (n : nat) (iter : list Z) : list Z * option (list Z * Z) :=
  let index := Nat.min n (length iter) in
  (drop index iter,
   if (index =? 0)%nat then None
   else Some (take index iter ++ replicate (n - index) 0, Z.of_nat index)).

(** * Specifications *)

(** The exFAT name hash: over the little-endian bytes of the up-cased name,
    rotate the 16-bit hash right by one and add the byte. *)
Definition spec_hash_byte (hash byte : Z) : Z := wrapping_add u16 (rotate_right1 16 hash) byte.
Definition spec_name_hash (table : UpcaseTable) (us : list Z) (hash : Z) : Z :=
  fold_left (λ h c, let c := upcase table c in
    spec_hash_byte (spec_hash_byte h (Z.land c 0xFF)) (Z.shiftr c 8)) us hash.

(** What [encode_utf16_upcase_and_hash] promises when no addition overflows. *)
Definition spec_encode_hash (table : UpcaseTable) (s : str) : outcome string (Z * Z) :=
  if decide (s = of_string "." ∨ s = of_string "..")
  then Err ". and .. are reserved names"
  else if existsb is_illegal_name_char (encode_utf16 s)
  then Err "name contains an illegal character"
  else if decide (s = []) then Err "name is empty"
  else Ok (spec_name_hash table (encode_utf16 s) 0, len (encode_utf16 s)).

Definition table_ok (t : UpcaseTable) : Prop :=
  length (mapping t) = 128%nat ∧ Forall (λ c, 0 ≤ c < 2 ^ 16) (mapping t).

(** All the chunks a [while let Some(..) = chunks.next_chunk(..)] loop gets. *)
Fixpoint all_chunks (fuel n : nat) (iter : list Z) : list (list Z * Z) :=
  match fuel with
  | O => []
  | S fuel =>
      match next_chunk n iter with
      | (iter, Some chunk) => chunk :: all_chunks fuel n iter
      | (_, None) => []
      end
  end.

(** * Lemmas and theorems *)

Lemma rotate_right1_16 x :
  0 ≤ x < 2 ^ 16 →
  rotate_right1 16 x = (if 0 <? Z.land x 1 then 0x8000 else 0) + Z.shiftr x 1.
Proof.
  intros Hx. unfold rotate_right1. change (16 - 1) with 15.
  assert (Hs : 0 ≤ Z.shiftr x 1 < 2 ^ 15).
  { rewrite Z.shiftr_div_pow2 by lia. change (2 ^ 1) with 2.
    split; [apply Z.div_pos; lia | apply Z.div_lt_upper_bound; lia]. }
  rewrite lor_shiftl_add by lia. change (Z.land x 1) with (Z.land x (2 ^ 1 - 1)).
  rewrite land_low by lia. change (2 ^ 1) with 2.
  pose proof (Z.mod_pos_bound x 2 ltac:(lia)).
  assert (x mod 2 = 0 ∨ x mod 2 = 1) as [-> | ->] by lia;
    [change (0 <? 0) with false | change (0 <? 1) with true]; lia.
Qed.

Lemma rotate_right1_16_range x : 0 ≤ x < 2 ^ 16 → 0 ≤ rotate_right1 16 x < 2 ^ 16.
Proof.
  intros Hx. rewrite rotate_right1_16 by done. rewrite Z.shiftr_div_pow2 by lia.
  pose proof (Z.div_lt_upper_bound x 2 0x8000 ltac:(lia) ltac:(lia)).
  pose proof (Z.div_pos x 2). change (2 ^ 1) with 2. destruct (_ <? _); lia.
Qed.

Lemma upcase_range t c : table_ok t → 0 ≤ c < 2 ^ 16 → 0 ≤ upcase t c < 2 ^ 16.
Proof.
  intros [_ Ht] Hc. unfold upcase. destruct (mapping t !! _) as [d|] eqn:Hd; [|done].
  by eapply Forall_lookup_1 in Ht.
Qed.

Lemma spec_hash_byte_range h b : 0 ≤ spec_hash_byte h b < 2 ^ 16.
Proof. apply cast_range. lia. Qed.

Lemma encode_utf16_nil s : encode_utf16 s = [] ↔ s = [].
Proof.
  split; [|by intros ->]. destruct s as [|c s]; [done|]. cbn. unfold encode_utf16_char.
  by destruct (c <? _).
Qed.

Section NameTheorems.
Context {cfg : Config}.

Lemma hash_byte_spec {E} h b :
  0 ≤ h < 2 ^ 16 → 0 ≤ b < 2 ^ 8 →
  hash_byte (E:=E) h b = Ok (spec_hash_byte h b) ∨
  (overflow_checks = true ∧ 2 ^ 16 ≤ rotate_right1 16 h + b ∧ hash_byte (E:=E) h b = Panic).
Proof.
  intros Hh Hb. unfold hash_byte, spec_hash_byte, wrapping_add, mbind, outcome_bind.
  pose proof (rotate_right1_16_range h Hh) as Hr. rewrite rotate_right1_16 in * by done.
  rewrite add_ok by done. unfold add, arith.
  destruct (fits u16 _) eqn:Hf; unfold fits in Hf.
  - left. by rewrite cast_id by lia.
  - destruct overflow_checks eqn:Ho; [right|by left]. split_and!; [done|lia|done].
Qed.

Lemma hash_loop_spec t us h n :
  table_ok t → Forall (λ u, 0 ≤ u < 2 ^ 16) us → 0 ≤ h < 2 ^ 16 →
  0 ≤ n → n + len us < 2 ^ usize_bits →
  hash_loop t us h n =
    (if existsb is_illegal_name_char us then Err "name contains an illegal character"
     else Ok (spec_name_hash t us h, n + len us)) ∨
  (overflow_checks = true ∧ hash_loop t us h n = Panic).
Proof.
  intros Ht Hus. revert h n. induction Hus as [|u us Hu Hus IH]; intros h n Hh Hn Hlen.
  { left. cbn. unfold len. cbn. do 2 f_equal. lia. }
  unfold len in Hlen. cbn [length] in Hlen.
  cbn [hash_loop existsb spec_name_hash fold_left]. rewrite add_ok by lia.
  cbn [mbind outcome_bind]. destruct (is_illegal_name_char u); [by left|]. cbn [orb].
  pose proof (upcase_range t u Ht Hu) as Hc. set (c := upcase t u) in *.
  assert (Hlo : 0 ≤ Z.land c 0xFF < 2 ^ 8).
  { change 0xFF with (2 ^ 8 - 1). rewrite land_low by lia. apply Z.mod_pos_bound. lia. }
  assert (Hhi : 0 ≤ Z.shiftr c 8 < 2 ^ 8).
  { rewrite Z.shiftr_div_pow2 by lia. split; [apply Z.div_pos; lia|].
    apply Z.div_lt_upper_bound; lia. }
  destruct (hash_byte_spec (E:=string) h _ Hh Hlo) as [->|(Ho & _ & ->)]; [|by right].
  cbn [mbind outcome_bind].
  destruct (hash_byte_spec (E:=string) _ _ (spec_hash_byte_range h (Z.land c 0xFF)) Hhi)
    as [->|(Ho & _ & ->)]; [|by right].
  cbn [mbind outcome_bind].
  destruct (IH _ (n + 1) (spec_hash_byte_range (spec_hash_byte h (Z.land c 0xFF)) (Z.shiftr c 8)) ltac:(lia)
    ltac:(unfold len in *; lia)) as [IH'|[Ho IH']]; [left|by right].
  rewrite IH'. destruct (existsb _ us); [done|]. unfold spec_name_hash, len. cbn [length].
  do 2 f_equal. lia.
Qed.

Lemma encode_utf16_u16 s : Forall scalar s → Forall (λ u, 0 ≤ u < 2 ^ 16) (encode_utf16 s).
Proof.
  induction 1 as [|c s Hc _ IH]; [constructor|].
  change (encode_utf16 (c :: s)) with (encode_utf16_char c ++ encode_utf16 s).
  apply Forall_app. split; [by apply encode_utf16_char_u16|done].
Qed.

(** hashing a file name computes the exFAT name hash and the number of
    UTF-16 units, rejects exactly the reserved, illegal and empty names, and
    otherwise can only panic, when overflow checks are on. *)
Theorem encode_hash_correct (t : UpcaseTable) (s : str) :
  table_ok t → Forall scalar s → len (encode_utf16 s) < 2 ^ usize_bits →
  encode_utf16_upcase_and_hash s t = spec_encode_hash t s ∨
  (overflow_checks = true ∧ encode_utf16_upcase_and_hash s t = Panic).
Proof.
  intros Ht Hs Hlen. unfold encode_utf16_upcase_and_hash, spec_encode_hash.
  destruct (decide _); [by left|].
  destruct (hash_loop_spec t (encode_utf16 s) 0 0 Ht (encode_utf16_u16 s Hs))
    as [->|[Ho ->]]; [lia..| |by right]. left.
  destruct (existsb _ _); [done|]. cbn [mbind outcome_bind snd].
  destruct (decide (s = [])) as [->|Hne]; [done|].
  assert (encode_utf16 s ≠ []) by (by rewrite encode_utf16_nil).
  destruct (encode_utf16 s) eqn:He; [done|]. done.
Qed.

(** with overflow checks on, hashing the legal name "log45.txt" panics:
    the 16-bit addition of the hash is not a wrapping one. *)
Theorem encode_hash_panics_on_legal_name :
  overflow_checks = true → usize_bits = 32 ∨ usize_bits = 64 →
  encode_utf16_upcase_and_hash (of_string "log45.txt") UpcaseTable_default = Panic.
Proof.
  intros Ho Hu. unfold encode_utf16_upcase_and_hash, add, arith.
  destruct cfg as [a b c d e]. cbn in Ho, Hu. subst d. destruct Hu as [-> | ->];
    vm_compute; reflexivity.
Qed.
End NameTheorems.

(** The conditions of the hash theorem hold for the default table. *)
Lemma default_table_ok : table_ok UpcaseTable_default.
Proof.
  split; [done|]. apply (bool_decide_unpack _). vm_compute. done.
Qed.

(** ** Chunks of names *)
Lemma next_chunk_nil n : next_chunk n [] = ([], None).
Proof. unfold next_chunk. cbn [length]. by rewrite Nat.min_0_r. Qed.
Lemma next_chunk_Some n (iter : list Z) :
  (0 < n)%nat → iter ≠ [] →
  next_chunk n iter =
    (drop n iter, Some (take n iter ++ replicate (n - length iter) 0,
                        Z.min (Z.of_nat n) (len iter))).
Proof.
  intros Hn Hi. unfold next_chunk, len.
  assert (0 < length iter)%nat by (destruct iter; [done|cbn; lia]).
  rewrite (proj2 (Nat.eqb_neq _ _)) by lia.
  destruct (Nat.min_spec n (length iter)) as [[Hl ->]|[Hl ->]].
  - replace (n - length iter)%nat with (n - n)%nat by lia.
    by rewrite Z.min_l by lia.
  - rewrite drop_all, (drop_ge _ n), take_ge, (take_ge _ n) by lia.
    by rewrite Z.min_r by lia.
Qed.

(** splitting a name into directory entries loses nothing: the chunks,
    cut to their reported lengths, concatenate to the name's UTF-16 units; each
    chunk is a full zero-padded array; and there are as many of them as
    [calc_dir_entry_set_len] reserves after the first two entries. *)
Theorem chunks_roundtrip {cfg : Config} (s : str) (n : nat) :
  (0 < n)%nat → 
  let us := encode_utf16 s in
  let chunks := all_chunks (S (length us)) n us in
  concat ((λ c, take (Z.to_nat (snd c)) (fst c)) <$> chunks) = us ∧
  Forall (λ c, length (fst c) = n ∧ 0 < snd c ≤ Z.of_nat n) chunks ∧
  len chunks = (len us + Z.of_nat n - 1) / Z.of_nat n.
Proof.
  intros Hn us chunks. subst chunks.
  assert (Hgen : ∀ fuel us, (length us < fuel)%nat →
    let chunks := all_chunks fuel n us in
    concat ((λ c, take (Z.to_nat (snd c)) (fst c)) <$> chunks) = us ∧
    Forall (λ c, length (fst c) = n ∧ 0 < snd c ≤ Z.of_nat n) chunks ∧
    len chunks = (len us + Z.of_nat n - 1) / Z.of_nat n); [|apply Hgen; lia].
  clear us s. induction fuel as [|fuel IH]; intros us Hf; [lia|]. cbn [all_chunks].
  destruct us as [|u us].
  { rewrite next_chunk_nil. split_and!; [done|constructor|]. symmetry. apply Z.div_small.
    unfold len. cbn. lia. }
  rewrite next_chunk_Some by done. set (v := u :: us) in *.
  assert (Hv : (0 < length v)%nat) by (cbn; lia).
  destruct (IH (drop n v)) as (IH1 & IH2 & IH3); [rewrite length_drop; lia|].
  split_and!.
  - rewrite fmap_cons, concat_cons, IH1. cbn [fst snd]. unfold len.
    rewrite take_app_le by (rewrite length_take; lia). rewrite take_take.
    etransitivity; [|apply (take_drop n v)]. f_equal.
    destruct (decide (n ≤ length v)%nat); [f_equal; lia|].
    by rewrite !take_ge by lia.
  - constructor; [|done]. cbn [fst snd]. unfold len.
    rewrite length_app, length_take, length_replicate. lia.
  - unfold len in *. cbn [length]. rewrite Nat2Z.inj_succ, IH3, length_drop.
    destruct (decide (n ≤ length v)%nat).
    + replace (Z.of_nat (length v) + Z.of_nat n - 1)
        with (Z.of_nat (length v - n) + Z.of_nat n - 1 + 1 * Z.of_nat n) by lia.
      rewrite Z.div_add by lia. lia.
    + replace (length v - n)%nat with O by lia. rewrite Z.div_small by lia.
      apply Z.div_unique with (Z.of_nat (length v) - 1); lia.
Qed.

Lemma chunks_roundtrip_witness :
  let us := encode_utf16 (of_string "abcdefghij0123456789ABCDE") in
  concat ((λ c, take (Z.to_nat (snd c)) (fst c)) <$> all_chunks (S (length us)) 15 us) = us.
Proof.
  refine (proj1 (@chunks_roundtrip debug_build _ 15 _)). lia.
Defined.

Lemma encode_hash_correct_witness :
  @encode_utf16_upcase_and_hash release_build (of_string "Hello.TXT") UpcaseTable_default
    = Ok (0x3046, 9).
Proof.
  destruct (@encode_hash_correct release_build UpcaseTable_default (of_string "Hello.TXT"))
    as [H|[H _]]; [apply default_table_ok|apply (bool_decide_unpack _); vm_compute; exact I
        |vm_compute; reflexivity| |discriminate H].
  rewrite H. vm_compute. reflexivity.
Defined.

Lemma encode_hash_panics_witness :
  @encode_utf16_upcase_and_hash debug_build (of_string "log45.txt") UpcaseTable_default
    = Panic ∧
  @encode_utf16_upcase_and_hash release_build (of_string "log45.txt") UpcaseTable_default
    = Ok (52, 9).
Proof.
  split; [|vm_compute; reflexivity].
  apply (@encode_hash_panics_on_legal_name debug_build); [reflexivity|left; reflexivity].
Defined.

(** The unit tests of src/utils.rs, on the model. *)
Example hash_long_name :
  @encode_utf16_upcase_and_hash debug_build (of_string "This IS A LONG folder NAME !!")
    UpcaseTable_default = Ok (0xEF63, 29).
Proof. vm_compute. reflexivity. Qed.
Example split_path_edge_cases :
  split_path (of_string "a/b/c.txt") = (of_string "a/b", of_string "c.txt") ∧
  split_path (of_string "c.txt") = ([], of_string "c.txt") ∧
  split_path (of_string "/c.txt") = ([], of_string "c.txt") ∧
  split_path (of_string "a\b\c.txt") = (of_string "a\b", of_string "c.txt") ∧
  split_path (of_string "a/b/") = (of_string "a/b", []).
Proof. vm_compute. done. Qed.

(** ** Paths *)
(** [split_path] cuts a path at its last separator: the two parts joined
    by that separator give back the path and the last part holds no
    separator; a path without one is all name. *)
Theorem split_path_correct (path : str) :
  let '(dir, name) := split_path path in
  Forall (λ c, is_separator c = false) name ∧
  ((∃ sep, is_separator sep = true ∧ path = dir ++ sep :: name) ∨
   (dir = [] ∧ path = name)).
Proof.
  unfold split_path. destruct (rfind is_separator path) as [i|] eqn:Hr.
  - apply rfind_Some in Hr as (c & Hc & Hs & Hd). split; [done|]. left. exists c.
    split; [done|]. symmetry. by apply take_drop_middle.
  - apply rfind_None in Hr. by split; [|right].
Qed.
