(* ===== verification/Timestamp.v ===== *)
(** * src/timestamp.rs: packing and unpacking exFAT timestamps *)

From S2P Require Import Prelude.

Definition MIN_TIMESTAMP : Z := 0x00210000.
Definition MIN_YEAR : Z := 1980.
Definition MAX_YEAR : Z := 2107.
Definition UTC_OFFSET_VALID : Z := 0x80.

Record Timestamp := {
  year : Z;      (* u16 *)
  month : Z;     (* u8 *)
  day : Z;       (* u8 *)
  hour : Z;      (* u8 *)
  minute : Z;    (* u8 *)
  second : Z;    (* u8 *)
  centis : Z;    (* u8 *)
  utc_offset_15min : option Z; (* Option<i8> *)
}.

Record EncodedTimestamp := {
  packed : Z;          (* u32 *)
  increment_10ms : Z;  (* u8 *)
  utc_offset : Z;      (* u8 *)
}.
Definition EncodedTimestamp_default : EncodedTimestamp :=
  {| packed := MIN_TIMESTAMP; increment_10ms := 0; utc_offset := 0 |}.

(** the bit pattern of a [u8] read as an [i8] *)
Definition as_i8 (x : Z) : Z := if x <? 128 then x else x - 256.

Definition is_leap_year (year : Z) : bool :=
  (year mod 4 =? 0) && (negb (year mod 100 =? 0) || (year mod 400 =? 0)).
Definition days_in_month (year month : Z) : Z :=
  if existsb (Z.eqb month) [1; 3; 5; 7; 8; 10; 12] then 31
  else if existsb (Z.eqb month) [4; 6; 9; 11] then 30
  else if month =? 2 then 28 + Z.b2z (is_leap_year year)
  else 0.

Definition is_valid (t : Timestamp) : bool :=
  ((MIN_YEAR <=? year t) && (year t <=? MAX_YEAR))
  && ((1 <=? day t) && (day t <=? days_in_month (year t) (month t)))
  && (hour t <=? 23)
  && (minute t <=? 59)
  && (second t <=? 59)
  && (centis t <=? 99)
  && match utc_offset_15min t with
     | None => true
     | Some offset => (-48 <=? offset) && (offset <=? 56)
     end.

Section Codec.
Context {cfg : Config} {E : Type}.

Definition encode (t : Timestamp) : outcome E EncodedTimestamp :=
  if debug_assertions && negb (is_valid t) then Panic
  else if negb (is_valid t) then Ok EncodedTimestamp_default
  else
    y ← sub u16 (year t) MIN_YEAR;
    let shl x k := cast u32 (Z.shiftl x k) in
    let packed :=
      Z.lor (Z.lor (Z.lor (Z.lor (Z.lor
        (shl y 25) (shl (month t) 21)) (shl (day t) 16)) (shl (hour t) 11))
        (shl (minute t) 5)) (Z.shiftr (second t) 1) in
    odd ← mul u8 (Z.land (second t) 1) 100;
    increment_10ms ← add u8 odd (centis t);
    let utc_offset :=
      match utc_offset_15min t with
      | Some offset => Z.lor UTC_OFFSET_VALID (Z.land (cast u8 offset) 0x7F)
      | None => 0
      end in
    Ok {| packed := packed; increment_10ms := increment_10ms; utc_offset := utc_offset |}.

Definition decode (e : EncodedTimestamp) : outcome E Timestamp :=
  let p := packed e in
  let extra_secs := increment_10ms e / 100 in
  second ← add u8 (cast u8 (Z.shiftl (Z.land (cast u8 p) 0x1F) 1)) extra_secs;
  let centis := increment_10ms e mod 100 in
  let utc_offset_15min :=
    if negb (Z.land (utc_offset e) UTC_OFFSET_VALID =? 0)
    then Some (Z.shiftr (as_i8 (cast u8 (Z.shiftl (utc_offset e) 1))) 1)
    else None in
  year ← add u16 (cast u16 (Z.shiftr p 25)) MIN_YEAR;
  Ok {| year := year;
        month := Z.land (cast u8 (Z.shiftr p 21)) 0x0F;
        day := Z.land (cast u8 (Z.shiftr p 16)) 0x1F;
        hour := Z.land (cast u8 (Z.shiftr p 11)) 0x1F;
        minute := Z.land (cast u8 (Z.shiftr p 5)) 0x3F;
        second := second;
        centis := centis;
        utc_offset_15min := utc_offset_15min |}.

(** [Timestamp::default()] *)
Definition Timestamp_default : outcome E Timestamp := decode EncodedTimestamp_default.
End Codec.

(** The fields hold values of their Rust types. *)
Definition timestamp_typed (t : Timestamp) : Prop :=
  0 ≤ year t < 2 ^ 16 ∧ 0 ≤ month t < 2 ^ 8 ∧ 0 ≤ day t < 2 ^ 8 ∧ 0 ≤ hour t < 2 ^ 8 ∧
  0 ≤ minute t < 2 ^ 8 ∧ 0 ≤ second t < 2 ^ 8 ∧ 0 ≤ centis t < 2 ^ 8 ∧
  match utc_offset_15min t with Some o => -128 ≤ o < 128 | None => True end.
Definition encoded_typed (e : EncodedTimestamp) : Prop :=
  0 ≤ packed e < 2 ^ 32 ∧ 0 ≤ increment_10ms e < 2 ^ 8 ∧ 0 ≤ utc_offset e < 2 ^ 8.

(** The reading of a packed word as a positional number. *)
Definition packed_sum (t : Timestamp) : Z :=
  (year t - 1980) * 2 ^ 25 + month t * 2 ^ 21 + day t * 2 ^ 16 + hour t * 2 ^ 11
  + minute t * 2 ^ 5 + second t / 2.

(** * Lemmas and theorems *)

Lemma days_in_month_bound y m :
  days_in_month y m ≤ 31 ∧ (1 ≤ days_in_month y m → 1 ≤ m ≤ 12).
Proof.
  unfold days_in_month. cbn [existsb]. destruct (is_leap_year y); cbn [Z.b2z];
    repeat case_match; split; lia.
Qed.

Lemma valid_ranges t :
  timestamp_typed t → is_valid t = true →
  1980 ≤ year t ≤ 2107 ∧ 1 ≤ month t ≤ 12 ∧ 1 ≤ day t ≤ 31 ∧ 0 ≤ hour t ≤ 23 ∧
  0 ≤ minute t ≤ 59 ∧ 0 ≤ second t ≤ 59 ∧ 0 ≤ centis t ≤ 99 ∧
  match utc_offset_15min t with Some o => -48 ≤ o ≤ 56 | None => True end.
Proof.
  unfold timestamp_typed, is_valid, MIN_YEAR, MAX_YEAR. intros Ht Hv.
  pose proof (days_in_month_bound (year t) (month t)).
  destruct (utc_offset_15min t); lia.
Qed.

Lemma lor_mul_add a b k : 0 ≤ k → 0 ≤ a < 2 ^ k → Z.lor (b * 2 ^ k) a = b * 2 ^ k + a.
Proof.
  intros. rewrite <-Z.shiftl_mul_pow2, Z.lor_comm, lor_shiftl_add by lia.
  rewrite Z.shiftl_mul_pow2 by lia. lia.
Qed.

(** Rewrite shifts and masks by constants into [/], [*] and [mod]. *)
Ltac arith_bits :=
  unfold cast in *;
  repeat match goal with
  | |- context [Z.shiftr ?x ?k] => rewrite (Z.shiftr_div_pow2 x k) by lia
  | |- context [Z.shiftl ?x ?k] => rewrite (Z.shiftl_mul_pow2 x k) by lia
  | |- context [Z.land ?x 1] => change (Z.land x 1) with (Z.land x (2 ^ 1 - 1));
                                rewrite (land_low x 1) by lia
  | |- context [Z.land ?x 0x0F] => change (Z.land x 0x0F) with (Z.land x (2 ^ 4 - 1));
                                rewrite (land_low x 4) by lia
  | |- context [Z.land ?x 0x1F] => change (Z.land x 0x1F) with (Z.land x (2 ^ 5 - 1));
                                rewrite (land_low x 5) by lia
  | |- context [Z.land ?x 0x3F] => change (Z.land x 0x3F) with (Z.land x (2 ^ 6 - 1));
                                rewrite (land_low x 6) by lia
  | |- context [Z.land ?x 0x7F] => change (Z.land x 0x7F) with (Z.land x (2 ^ 7 - 1));
                                rewrite (land_low x 7) by lia
  end.

Section Theorems.
Context {cfg : Config} {E : Type}.

Lemma encode_valid t :
  timestamp_typed t → is_valid t = true →
  encode (E:=E) t = Ok {|
    packed := packed_sum t;
    increment_10ms := second t mod 2 * 100 + centis t;
    utc_offset := match utc_offset_15min t with Some o => 128 + o mod 128 | None => 0 end |}.
Proof.
  intros Ht Hv. destruct (valid_ranges t Ht Hv) as (Hy & Hm & Hd & Hh & Hi & Hs & Hc & Ho).
  unfold encode, packed_sum. rewrite Hv. cbn [negb]. rewrite andb_false_r.
  unfold MIN_YEAR. rewrite sub_ok by lia. cbn [mbind outcome_bind]. arith_bits.
  rewrite mul_ok by (change (2 ^ 1) with 2; dlia). cbn [mbind outcome_bind].
  change (2 ^ 1) with 2. rewrite add_ok by dlia. cbn [mbind outcome_bind].
  do 2 f_equal.
  - rewrite !Z.mod_small by lia. change (2 ^ 1) with 2.
    rewrite lor_mul_add by lia.
    replace ((year t - 1980) * 2 ^ 25 + month t * 2 ^ 21)
      with (((year t - 1980) * 2 ^ 4 + month t) * 2 ^ 21) by lia.
    rewrite lor_mul_add by lia.
    replace (_ + day t * 2 ^ 16)
      with (((year t - 1980) * 2 ^ 9 + month t * 2 ^ 5 + day t) * 2 ^ 16) by lia.
    rewrite lor_mul_add by lia.
    replace (_ + hour t * 2 ^ 11)
      with (((year t - 1980) * 2 ^ 14 + month t * 2 ^ 10 + day t * 2 ^ 5 + hour t)
            * 2 ^ 11) by lia.
    rewrite lor_mul_add by lia.
    replace (_ + minute t * 2 ^ 5)
      with (((year t - 1980) * 2 ^ 20 + month t * 2 ^ 16 + day t * 2 ^ 11 + hour t * 2 ^ 6
             + minute t) * 2 ^ 5) by lia.
    rewrite lor_mul_add by dlia. lia.
  - destruct (utc_offset_15min t) as [o|]; [|done]. unfold UTC_OFFSET_VALID.
    arith_bits. change (Z.lor 0x80) with (Z.lor (1 * 2 ^ 7)).
    rewrite lor_mul_add by dlia. dlia.
Qed.

Lemma decode_arith e :
  encoded_typed e →
  decode (E:=E) e = Ok {|
    year := packed e / 2 ^ 25 + 1980;
    month := packed e / 2 ^ 21 mod 16;
    day := packed e / 2 ^ 16 mod 32;
    hour := packed e / 2 ^ 11 mod 32;
    minute := packed e / 2 ^ 5 mod 64;
    second := packed e mod 32 * 2 + increment_10ms e / 100;
    centis := increment_10ms e mod 100;
    utc_offset_15min :=
      if 128 <=? utc_offset e
      then Some (if utc_offset e mod 128 <? 64 then utc_offset e mod 128
                 else utc_offset e mod 128 - 128)
      else None |}.
Proof.
  intros (Hp & Hi & Hu). unfold decode, MIN_YEAR. cbv zeta. arith_bits.
  rewrite add_ok by dlia. cbn [mbind outcome_bind].
  rewrite add_ok by dlia. cbn [mbind outcome_bind].
  f_equal. f_equal; try dlia.
  assert (Hl : Z.land (utc_offset e) UTC_OFFSET_VALID = utc_offset e / 128 * 128).
  { apply Z.eqb_eq.
    refine (forall_byte (λ u, Z.land u UTC_OFFSET_VALID =? u / 128 * 128) _ _ Hu). done. }
  rewrite Hl. unfold as_i8.
  destruct (Z.leb_spec 128 (utc_offset e)) as [Hge|Hlt].
  - rewrite (proj2 (Z.eqb_neq _ _)) by dlia. cbn [negb]. f_equal.
    destruct (_ <? 128) eqn:?, (_ <? 64) eqn:?; dlia.
  - rewrite (proj2 (Z.eqb_eq _ _)) by dlia. done.
Qed.

(** a valid timestamp survives encoding and decoding unchanged, in every
    build profile. *)
Theorem timestamp_roundtrip (t : Timestamp) :
  timestamp_typed t → is_valid t = true →
  (e ← encode (E:=E) t; decode e) = Ok t.
Proof.
  intros Ht Hv. rewrite encode_valid by done. cbn [mbind outcome_bind].
  destruct (valid_ranges t Ht Hv) as (Hy & Hm & Hd & Hh & Hi & Hs & Hc & Ho).
  unfold packed_sum. rewrite decode_arith.
  2: { split_and!; cbn; try dlia; destruct (utc_offset_15min t); dlia. }
  cbn [packed increment_10ms utc_offset]. f_equal.
  destruct t as [y m d h mi s c o]; cbn in *. f_equal; try dlia.
  destruct o as [o|]; [|done].
  rewrite (proj2 (Z.leb_le _ _)) by dlia. f_equal. destruct (_ <? _) eqn:?; dlia.
Qed.

(** decoding never panics, and re-encoding what it yields gives back the
    stored bytes, provided they describe a valid time. *)
Theorem encoded_roundtrip (e : EncodedTimestamp) (t : Timestamp) :
  encoded_typed e → increment_10ms e < 200 → (utc_offset e = 0 ∨ 128 ≤ utc_offset e) →
  decode (E:=E) e = Ok t → is_valid t = true →
  encode (E:=E) t = Ok e.
Proof.
  intros He Hinc Hu Hd Hv. rewrite decode_arith in Hd by done. injection Hd as <-.
  destruct He as (Hp & Hi & Hu'). rewrite encode_valid; [|split_and!; cbn; try dlia|done].
  - unfold packed_sum. destruct e as [p i u]; cbn in *. do 2 f_equal; try dlia.
    destruct (128 <=? u) eqn:?; [|lia]. destruct (_ <? 64) eqn:?; dlia.
  - destruct (128 <=? _); [|done]. destruct (_ <? 64) eqn:?; dlia.
Qed.

(** every encoding fits its on-disk fields; an invalid timestamp panics
    when debug assertions are on and is stored as 1980-01-01 otherwise. *)
Theorem encode_total (t : Timestamp) :
  timestamp_typed t →
  (is_valid t = false → debug_assertions = true → encode (E:=E) t = Panic) ∧
  (is_valid t = false → debug_assertions = false →
     encode (E:=E) t = Ok EncodedTimestamp_default) ∧
  (is_valid t = true ∨ debug_assertions = false →
     ∃ e, encode (E:=E) t = Ok e ∧ encoded_typed e).
Proof.
  intros Ht. split_and!.
  - intros Hv Hd. unfold encode. by rewrite Hv, Hd.
  - intros Hv Hd. unfold encode. by rewrite Hv, Hd.
  - destruct (is_valid t) eqn:Hv.
    + intros _. eexists. split; [by apply encode_valid|].
      destruct (valid_ranges t Ht Hv) as (Hy & Hm & Hd & Hh & Hi & Hs & Hc & Ho).
      unfold packed_sum. split_and!; cbn; try dlia; destruct (utc_offset_15min t); dlia.
    + intros [|Hd]; [done|]. exists EncodedTimestamp_default. unfold encode.
      by rewrite Hv, Hd.
Qed.
End Theorems.

(** * Witnesses and the unit tests of src/timestamp.rs *)
Definition sample : Timestamp := {|
  year := 2026; month := 8; day := 11; hour := 14; minute := 30; second := 37;
  centis := 25; utc_offset_15min := Some (-20) |}.
Definition sample_encoded : EncodedTimestamp :=
  {| packed := 1561031634; increment_10ms := 125; utc_offset := 0xEC |}.

Example round_trip_test :
  @encode debug_build unit sample = Ok sample_encoded ∧
  @decode debug_build unit sample_encoded = Ok sample.
Proof. vm_compute. done. Qed.

Lemma timestamp_roundtrip_witness :
  (e ← @encode debug_build unit sample; @decode debug_build unit e) = Ok sample.
Proof.
  apply timestamp_roundtrip; [|reflexivity]. unfold timestamp_typed. cbn. lia.
Defined.
Lemma encoded_roundtrip_witness : @encode debug_build unit sample = Ok sample_encoded.
Proof.
  apply encoded_roundtrip; [unfold encoded_typed; cbn; lia|cbn; lia|right; cbn; lia|
    vm_compute; reflexivity|reflexivity].
Defined.
Lemma encode_total_witness :
  ∃ e, @encode release_build unit (Build_Timestamp 2100 2 29 0 0 0 0 None) = Ok e
       ∧ encoded_typed e.
Proof.
  apply (@encode_total release_build unit); [unfold timestamp_typed; cbn; lia|].
  right; reflexivity.
Defined.
