(* ===== verification/BootSector.v ===== *)
(** * src/boot_sector.rs: validating and parsing the boot sector *)

From S2P Require Import Prelude Text Crates Errors Utils.
Import BootSectorError.

(** [VolumeFlags] (bitflags over [u16]) *)
Definition FirstFat : Z := 1.
Definition VolumeDirty : Z := 2.
Definition MediaFailure : Z := 4.
Definition VolumeFlags_all : Z := 7.

Record BootSector := {
  partition_offset : Z;          (* u64 *)
  volume_length : Z;             (* u64 *)
  fat_offset : Z;                (* u32 *)
  fat_length : Z;                (* u32 *)
  cluster_heap_offset : Z;       (* u32 *)
  cluster_count : Z;             (* u32 *)
  first_cluster_of_root_dir : Z; (* u32 *)
  volume_serial_number : Z;      (* u32 *)
  file_system_revision : Z;      (* u16 *)
  volume_flags : Z;              (* VolumeFlags *)
  bytes_per_sector : Z;          (* u16 *)
  sectors_per_cluster : Z;       (* u32 *)
  number_of_fats : Z;            (* u8 *)
  drive_select : Z;              (* u8 *)
  percent_in_use : Z;            (* u8 *)
}.

Section Parse.
Context {cfg : Config} {crates : Crates}.

Definition check_is_valid (value : list Z) : outcome Error () :=
  b0 ← index value 0;
  bad_jump ←
    (if negb (b0 =? 0xeb) then Ok true
     else b1 ← index value 1;
          if negb (b1 =? 0x76) then Ok true
          else b2 ← index value 2; Ok (negb (b2 =? 0x90)));
  if (bad_jump : bool) then Err InvalidJumpBoot else
  name ← slice value 3 11;
  match from_utf8 name with
  | Some s =>
      if bool_decide (s = of_string "EXFAT   ") then
        s0 ← index value 510;
        bad_sig ←
          (if negb (s0 =? 0x55) then Ok true
           else s1 ← index value 511; Ok (negb (s1 =? 0xaa)));
        if (bad_sig : bool) then Err InvalidBootSignature else Ok ()
      else Err InvalidFileSystemName
  | None => Err InvalidFileSystemName
  end.

(** [TryFrom<&Aligned<A, [u8; SIZE]>> for BootSector] *)
Definition try_from (value : list Z) : outcome Error BootSector :=
  check_is_valid value ≫= λ _,
  partition_offset ← read_u64_le 64 value;
  volume_length ← read_u64_le 72 value;
  fat_offset ← read_u32_le 80 value;
  fat_length ← read_u32_le 84 value;
  cluster_heap_offset ← read_u32_le 88 value;
  cluster_count ← read_u32_le 92 value;
  first_cluster_of_root_dir ← read_u32_le 96 value;
  volume_serial_number ← read_u32_le 100 value;
  file_system_revision ← read_u16_le 104 value;
  flags ← read_u16_le 106 value;
  let volume_flags := from_bits_truncate VolumeFlags_all flags in
  bytes_per_sector_shift ← index value 108;
  if negb ((9 <=? bytes_per_sector_shift) && (bytes_per_sector_shift <=? 12))
  then Err (InvalidBytesPerSectorShift bytes_per_sector_shift) else
  sectors_per_cluster_shift ← index value 109;
  shifts ← add u32 bytes_per_sector_shift sectors_per_cluster_shift;
  if 25 <? shifts then Err (InvalidSectorsPerClusterShift sectors_per_cluster_shift) else
  number_of_fats ← index value 110;
  drive_select ← index value 111;
  percent_in_use ← index value 112;
  Ok {| partition_offset := partition_offset;
        volume_length := volume_length;
        fat_offset := fat_offset;
        fat_length := fat_length;
        cluster_heap_offset := cluster_heap_offset;
        cluster_count := cluster_count;
        first_cluster_of_root_dir := first_cluster_of_root_dir;
        volume_serial_number := volume_serial_number;
        file_system_revision := file_system_revision;
        volume_flags := volume_flags;
        bytes_per_sector := cast u16 (Z.shiftl 1 bytes_per_sector_shift);
        sectors_per_cluster := cast u32 (Z.shiftl 1 sectors_per_cluster_shift);
        number_of_fats := number_of_fats;
        drive_select := drive_select;
        percent_in_use := percent_in_use |}.
End Parse.

(** What a parsed boot sector guarantees to the rest of the crate. *)
Definition boot_sector_ok (b : BootSector) : Prop :=
  512 ≤ bytes_per_sector b ≤ 4096 ∧ 1 ≤ sectors_per_cluster b ≤ 65536 ∧
  bytes_per_sector b * sectors_per_cluster b ≤ 2 ^ 25 ∧
  0 ≤ fat_offset b < 2 ^ 32 ∧ 0 ≤ cluster_heap_offset b < 2 ^ 32 ∧
  0 ≤ cluster_count b < 2 ^ 32 ∧ 0 ≤ first_cluster_of_root_dir b < 2 ^ 32.

(** The three signatures of an exFAT boot sector. *)
Definition has_signatures (value : list Z) : Prop :=
  take 3 value = [0xeb; 0x76; 0x90] ∧
  take 8 (drop 3 value) = of_string "EXFAT   " ∧
  take 2 (drop 510 value) = [0x55; 0xaa].

(** * Lemmas and theorems *)

Lemma index_lookup {E} (l : list Z) (n : nat) x :
  l !! n = Some x → index (E:=E) l (Z.of_nat n) = Ok x.
Proof. intros H. apply index_ok; [lia|]. by rewrite Nat2Z.id. Qed.

Lemma lookup_byte (l : list Z) (n : nat) :
  Forall byte_ok l → (n < length l)%nat → ∃ x, l !! n = Some x ∧ byte_ok x.
Proof.
  intros Hl Hn. destruct (lookup_lt_is_Some_2 l n Hn) as [x Hx]. exists x.
  split; [done|]. by eapply Forall_lookup_1 in Hl.
Qed.

Lemma slice_bytes {E} (l : list Z) a b :
  Forall byte_ok l → 0 ≤ a ≤ b → b ≤ len l →
  ∃ s, slice (E:=E) l a b = Ok s ∧ Forall byte_ok s ∧ len s = b - a.
Proof.
  intros Hl Ha Hb. eexists. split_and!; [by apply slice_ok| |].
  - by apply Forall_take, Forall_drop.
  - autorewrite with exfat. lia.
Qed.

Lemma read_le_ok {E} (l : list Z) a (n : Z) :
  Forall byte_ok l → 0 ≤ a → 0 ≤ n → a + n ≤ len l →
  ∃ x, from_le_bytes <$> slice (E:=E) l a (a + n) = Ok x ∧ 0 ≤ x < 2 ^ (8 * n).
Proof.
  intros Hl Ha Hn Hb. destruct (slice_bytes (E:=E) l a (a + n)) as (s & -> & Hs & Hlen);
    [done|lia..|].
  exists (from_le_bytes s). split; [done|]. replace n with (len s) by lia.
  by apply from_le_bytes_range.
Qed.

Lemma check_is_valid_cases value :
  512 ≤ len value →
  check_is_valid value = Ok () ∨ check_is_valid value = Err InvalidJumpBoot ∨
  check_is_valid value = Err InvalidFileSystemName ∨
  check_is_valid value = Err InvalidBootSignature.
Proof.
  unfold len. intros Hl. unfold check_is_valid.
  assert (Hi : ∀ n : nat, (n < 512)%nat →
    ∃ x, index (E:=Error) value (Z.of_nat n) = Ok x).
  { intros n Hn. destruct (lookup_lt_is_Some_2 value n) as [x Hx]; [lia|].
    exists x. by apply index_lookup. }
  destruct (Hi 0%nat) as [b0 H0]; [lia|]. destruct (Hi 1%nat) as [b1 H1]; [lia|].
  destruct (Hi 2%nat) as [b2 H2]; [lia|]. destruct (Hi 510%nat) as [s0 H3]; [lia|].
  destruct (Hi 511%nat) as [s1 H4]; [lia|]. change (Z.of_nat 0) with 0 in H0.
  change (Z.of_nat 1) with 1 in H1. change (Z.of_nat 2) with 2 in H2.
  change (Z.of_nat 510) with 510 in H3. change (Z.of_nat 511) with 511 in H4.
  rewrite H0. cbn [mbind outcome_bind].
  rewrite H1, H2, H3, H4, slice_ok by (unfold len; lia). cbn [mbind outcome_bind].
  repeat (case_match; cbn [mbind outcome_bind] in *; simplify_eq; auto).
Qed.

Lemma lookup_take_2 (l : list Z) (a : nat) (xs : list Z) :
  (∀ i, (i < length xs)%nat → l !! (a + i)%nat = xs !! i) →
  take (length xs) (drop a l) = xs.
Proof.
  intros H. apply list_eq. intros i. destruct (decide (i < length xs)%nat).
  - by rewrite lookup_take_lt, lookup_drop, H by lia.
  - rewrite lookup_take_ge by lia. symmetry. apply lookup_ge_None. lia.
Qed.

Lemma index_inv {E} (l : list Z) i x :
  index (E:=E) l i = Ok x → l !! Z.to_nat i = Some x.
Proof. unfold index. repeat case_match; naive_solver. Qed.

Lemma slice_inv {E} (l : list Z) a b s :
  slice (E:=E) l a b = Ok s → s = take (Z.to_nat (b - a)) (drop (Z.to_nat a) l).
Proof. unfold slice. case_match; naive_solver. Qed.

(** Invert a successful chain of [outcome] binds. *)
Lemma obind_Ok {E A B} (o : outcome E A) (f : A → outcome E B) b :
  o ≫= f = Ok b → ∃ a, o = Ok a ∧ f a = Ok b.
Proof. destruct o; [eauto|done..]. Qed.
Ltac inv_binds H :=
  repeat match type of H with
  | _ ≫= _ = Ok _ =>
      let x := fresh "x" in let Hx := fresh "Hx" in
      apply obind_Ok in H as (x & Hx & H)
  end.

Lemma check_is_valid_signatures value :
  check_is_valid value = Ok () → has_signatures value.
Proof.
  unfold check_is_valid. intros H.
  apply obind_Ok in H as (b0 & H0 & H). apply obind_Ok in H as (bad & Hbad & H).
  destruct bad; [done|]. apply obind_Ok in H as (name & Hname & H).
  destruct (from_utf8 name) as [s|] eqn:Hs; [|done]. case_bool_decide as Hsn; [|done].
  apply obind_Ok in H as (s0 & H3 & H). apply obind_Ok in H as (bad & Hbad' & H).
  destruct bad; [done|].
  destruct (negb (b0 =? _)) eqn:E0; [done|]. apply obind_Ok in Hbad as (b1 & H1 & Hbad).
  destruct (negb (b1 =? _)) eqn:E1; [done|]. apply obind_Ok in Hbad as (b2 & H2 & Hbad).
  destruct (negb (s0 =? _)) eqn:E3; [done|]. apply obind_Ok in Hbad' as (s1 & H4 & Hbad').
  injection Hbad as E2. injection Hbad' as E4.
  apply index_inv in H0, H1, H2, H3, H4. apply slice_inv in Hname.
  unfold has_signatures. split_and!.
  - rewrite <-(drop_0 value). apply (lookup_take_2 value 0 [0xeb; 0x76; 0x90]).
    intros [|[|[|i]]] Hi; cbn in Hi |- *; [etransitivity; [exact H0|]|etransitivity; [exact H1|]
      |etransitivity; [exact H2|]|lia]; f_equal; lia.
  - apply from_utf8_ascii in Hs; [|rewrite Hsn; apply (bool_decide_unpack _); vm_compute; exact I].
    by rewrite <-Hsn, <-Hs, Hname.
  - apply (lookup_take_2 value 510 [0x55; 0xaa]).
    intros [|[|i]] Hi; cbn in Hi |- *; [etransitivity; [exact H3|]|etransitivity; [exact H4|]|lia]; f_equal; lia.
Qed.

Lemma pow2_cast w k : 0 ≤ k < w → cast w (Z.shiftl 1 k) = 2 ^ k.
Proof.
  intros Hk. rewrite Z.shiftl_1_l, cast_id; [done|].
  pose proof (Z.pow_pos_nonneg 2 k). pose proof (Z.pow_lt_mono_r 2 k w). lia.
Qed.

Lemma read_le_inv {E} (l : list Z) a n x :
  Forall byte_ok l → 0 ≤ n →
  from_le_bytes <$> slice (E:=E) l a (a + n) = Ok x → 0 ≤ x < 2 ^ (8 * n).
Proof.
  intros Hl Hn. unfold slice. destruct (_ && _) eqn:Hb; cbn; [|done]. intros [= <-].
  match goal with |- context [from_le_bytes ?s] => set (t := s) end.
  assert (Ht : Forall byte_ok t) by (by apply Forall_take, Forall_drop).
  apply from_le_bytes_range in Ht. replace n with (len t); [done|].
  subst t. autorewrite with exfat. unfold len in *. lia.
Qed.

Section Theorems.
Context {cfg : Config} {crates : Crates}.

(** a boot sector is accepted only with the three exFAT signatures, and
    then its geometry is sane: 512 to 4096 bytes per sector, clusters of at
    most 32 MiB, so no shift or product computed from it overflows. *)
Theorem boot_sector_accepted (value : list Z) (b : BootSector) :
  Forall byte_ok value → try_from value = Ok b →
  has_signatures value ∧ boot_sector_ok b.
Proof.
  intros Hv H. unfold try_from in H. apply obind_Ok in H as ([] & Hc & H).
  split; [by apply check_is_valid_signatures|]. inv_binds H.
  destruct (negb _) eqn:Hb in H; [done|]. inv_binds H. destruct (25 <? _) eqn:Hs; [done|].
  inv_binds H. injection H as <-. unfold boot_sector_ok; cbn.
  unfold read_u32_le in *.
  repeat match goal with
  | H : from_le_bytes <$> slice value ?a (?a + 4) = Ok _ |- _ =>
      apply (read_le_inv value a 4 _ Hv ltac:(lia)) in H
  end.
  match goal with
  | H : index value 108 = Ok ?x, H' : index value 109 = Ok ?y |- _ =>
      rename x into bs, y into sc; apply index_inv in H, H';
      eapply Forall_lookup_1 in H, H'; [|done..]
  end.
  unfold byte_ok in *.
  match goal with H : add u32 bs sc = Ok _ |- _ => rewrite add_ok in H by lia; simplify_eq end.
  rewrite !pow2_cast by lia. rewrite <-Z.pow_add_r by lia.
  pose proof (Z.pow_le_mono_r 2 9 bs). pose proof (Z.pow_le_mono_r 2 bs 12).
  pose proof (Z.pow_le_mono_r 2 0 sc). pose proof (Z.pow_le_mono_r 2 sc 16).
  pose proof (Z.pow_le_mono_r 2 (bs + sc) 25). lia.
Qed.

(** on a sector of at least 512 bytes parsing never panics, whatever the
    bytes: it returns a boot sector or an error.  (The README: the library
    should not panic on a badly formed file system.) *)
Theorem boot_sector_no_panic (value : list Z) :
  Forall byte_ok value → 512 ≤ len value →
  (∃ b, try_from value = Ok b) ∨ (∃ e, try_from value = Err e).
Proof.
  intros Hv Hl. unfold try_from.
  destruct (check_is_valid_cases value Hl) as [-> | [-> | [-> | ->]]];
    cbn [mbind outcome_bind]; [|eauto..].
  unfold read_u64_le, read_u32_le, read_u16_le.
  repeat match goal with
  | |- context [from_le_bytes <$> slice value ?a (?a + ?n)] =>
      destruct (read_le_ok (E:=Error) value a n Hv) as (? & -> & ?); [lia..|];
      cbn [mbind outcome_bind]
  | |- context [index value ?i] =>
      let x := fresh "x" in let Hx := fresh in let Hb := fresh in
      destruct (lookup_byte value (Z.to_nat i) Hv) as (x & Hx & Hb);
        [unfold len in Hl; lia|];
      rewrite (index_ok value i x ltac:(lia) Hx); cbn [mbind outcome_bind]
  end.
  unfold byte_ok in *. rewrite add_ok by lia. cbn [mbind outcome_bind].
  repeat case_match; eauto.
Qed.
End Theorems.

(** * Witnesses and unit tests *)
Definition SAMPLE_BOOT_SECTOR : list Z :=
  [0xeb; 0x76; 0x90; 0x45; 0x58; 0x46; 0x41; 0x54; 0x20; 0x20; 0x20] ++ zeros 53
  ++ [0x00; 0x08; 0x00; 0x00; 0x00; 0x00; 0x00; 0x00; 0x00; 0x18; 0xf1; 0x00; 0x00; 0x00; 0x00; 0x00]
  ++ [0x00; 0x08; 0x00; 0x00; 0xc0; 0x07; 0x00; 0x00; 0x00; 0x10; 0x00; 0x00; 0x20; 0xc4; 0x03; 0x00]
  ++ [0x04; 0x00; 0x00; 0x00; 0xeb; 0xb9; 0xdd; 0xee; 0x00; 0x01; 0x02; 0x00; 0x09; 0x06; 0x01; 0x80]
  ++ zeros 398 ++ [0x55; 0xaa].

(** the values the unit test [parse_real_boot_sector] expects *)
Definition sample_parsed : BootSector := {|
  partition_offset := 2048; volume_length := 15800320; fat_offset := 2048;
  fat_length := 1984; cluster_heap_offset := 4096; cluster_count := 246816;
  first_cluster_of_root_dir := 4; volume_serial_number := 0xEEDDB9EB;
  file_system_revision := 0x0100; volume_flags := VolumeDirty;
  bytes_per_sector := 512; sectors_per_cluster := 64; number_of_fats := 1;
  drive_select := 0x80; percent_in_use := 0 |}.

Lemma sample_bytes : Forall byte_ok SAMPLE_BOOT_SECTOR ∧ len SAMPLE_BOOT_SECTOR = 512.
Proof. split; [apply (bool_decide_unpack _)|]; vm_compute; exact I || reflexivity. Qed.

Example parse_real_boot_sector :
  @try_from debug_build reference_crates SAMPLE_BOOT_SECTOR = Ok sample_parsed.
Proof. vm_compute. reflexivity. Qed.

Lemma boot_sector_accepted_witness :
  has_signatures SAMPLE_BOOT_SECTOR ∧ boot_sector_ok sample_parsed.
Proof.
  apply (@boot_sector_accepted debug_build reference_crates);
    [apply sample_bytes|vm_compute; reflexivity].
Defined.
Lemma boot_sector_no_panic_witness :
  (∃ b, @try_from debug_build reference_crates (zeros 512) = Ok b) ∨
  (∃ e, @try_from debug_build reference_crates (zeros 512) = Err e).
Proof.
  apply (@boot_sector_no_panic debug_build reference_crates);
    [apply (bool_decide_unpack _); vm_compute; exact I|vm_compute; discriminate].
Defined.
