(* ===== verification/Device.v ===== *)
(** * The block device: src/block_device.rs, its test double and raw access

    [BlockDevice] is the trait the user of the crate implements.  Every call
    in the source passes one block.  [DeviceOk] is the contract the caches and
    everything above them rely on (a device whose addressable sectors hold
    what was last written to them); [DummyBlockDevice] is the in-memory device
    of src/test_utils.rs and is proved to meet it. *)

From S2P Require Import Prelude Text Crates Errors Utils BootSector.

Class BlockDevice := {
  dev : Type;
  dev_error : Type;
  (** address, buffer before -> device and buffer after, result *)
  dev_read : Z → list Z → dev → dev * list Z * outcome dev_error ();
  dev_write : Z → list Z → dev → dev * outcome dev_error ();
}.

Definition err `{BlockDevice} : Type := ExFatError dev_error.

(** The contract of a reliable device. *)
Class DeviceOk (cfg : Config) (bd : BlockDevice) := {
  content : dev → Z → list Z;
  addressable : dev → Z → Prop;
  content_bytes d s : addressable d s → len (content d s) = SIZE ∧ Forall byte_ok (content d s);
  dev_read_ok d s buf :
    addressable d s → len buf = SIZE →
    ∃ d', dev_read s buf d = ((d', content d s), Ok ()) ∧
          (∀ s', content d' s' = content d s') ∧ (∀ s', addressable d' s' ↔ addressable d s');
  dev_write_ok d s b :
    addressable d s → len b = SIZE → Forall byte_ok b →
    ∃ d', dev_write s b d = (d', Ok ()) ∧
          content d' s = b ∧
          (∀ s', addressable d s' → s' ≠ s → content d' s' = content d s') ∧
          (∀ s', addressable d' s' ↔ addressable d s');
}.

Section Raw.
Context {cfg : Config} {crates : Crates} {bd : BlockDevice}.

(** [io.read(addr, &mut block).map_err(ExFatError::Io)?] into a fresh block *)
Definition io_read (addr : Z) : M dev err (list Z) := λ d,
  let '((d', buf), r) := dev_read addr (zeros SIZE) d in
  (d', map_err_o Io ((λ _, buf) <$> r)).
Definition io_write (addr : Z) (block : list Z) : M dev err () := λ d,
  let '(d', r) := dev_write addr block d in (d', map_err_o Io r).

(** [utils::set_volume_dirty] *)
Definition set_volume_dirty (is_dirty : bool) : M dev err () :=
  block ← io_read 0;
  flags ← lift (read_u16_le 106 block);
  let volume_flags := from_bits_truncate VolumeFlags_all flags in
  let volume_flags := set_flag volume_flags VolumeDirty is_dirty in
  block ← lift (copy_into block 106 108 (to_le_bytes 2 volume_flags));
  io_write 0 block.
End Raw.

(** ** The in-memory device of src/test_utils.rs *)
Definition BLOCK_SIZE : Z := 512.
Record DummyBlockDevice := { blocks : list (list Z); write_count : Z }.
Definition DummyBlockDevice_new (count : nat) : DummyBlockDevice :=
  {| blocks := replicate count (zeros BLOCK_SIZE); write_count := 0 |}.

Definition dummy_read (addr : Z) (buf : list Z) (d : DummyBlockDevice)
    : DummyBlockDevice * list Z * outcome () () :=
  match index (E:=()) (blocks d) addr with
  | Ok b => ((d, b), Ok ())
  | _ => ((d, buf), Panic)
  end.
Definition dummy_write (addr : Z) (b : list Z) (d : DummyBlockDevice)
    : DummyBlockDevice * outcome () () :=
  match set_index (E:=()) (blocks d) addr b with
  | Ok bs => ({| blocks := bs; write_count := write_count d + 1 |}, Ok ())
  | _ => (d, Panic)
  end.
Definition dummy_device : BlockDevice := {|
  dev := DummyBlockDevice; dev_error := (); dev_read := dummy_read; dev_write := dummy_write |}.

(** * Lemmas and theorems *)

Definition dummy_content (d : DummyBlockDevice) (s : Z) : list Z :=
  blocks d !!! Z.to_nat s.
Definition dummy_addressable (d : DummyBlockDevice) (s : Z) : Prop :=
  0 ≤ s < len (blocks d) ∧
  Forall (λ b, len b = BLOCK_SIZE ∧ Forall byte_ok b) (blocks d).

Lemma zeros_len n : 0 ≤ n → len (zeros n) = n.
Proof. unfold len, zeros. rewrite length_replicate. lia. Qed.
Lemma zeros_bytes n : Forall byte_ok (zeros n).
Proof. apply Forall_replicate. done. Qed.

Lemma set_index_ok {E A} (l : list A) i x :
  0 ≤ i < len l → set_index (E:=E) l i x = Ok (<[Z.to_nat i:=x]> l).
Proof.
  intros Hi. unfold set_index.
  by rewrite (proj2 (Z.leb_le _ _)), (proj2 (Z.ltb_lt _ _)) by lia.
Qed.

Lemma dummy_lookup d s :
  dummy_addressable d s → blocks d !! Z.to_nat s = Some (dummy_content d s).
Proof.
  intros [Hs _]. unfold dummy_content. destruct (lookup_lt_is_Some_2 (blocks d) (Z.to_nat s))
    as [b Hb]; [unfold len in Hs; lia|]. by rewrite Hb, (list_lookup_total_correct _ _ _ Hb).
Qed.

(** The test double meets the device contract. *)
#[export] Program Instance dummy_device_ok (cfg : Config) (HS : SIZE = BLOCK_SIZE) :
    DeviceOk cfg dummy_device := {|
  content := dummy_content; addressable := dummy_addressable |}.
Next Obligation.
  intros cfg HS d s Hs. pose proof (dummy_lookup d s Hs) as Hl. destruct Hs as [_ Hb].
  eapply Forall_lookup_1 in Hb; [|done]. rewrite HS. exact Hb.
Qed.
Next Obligation.
  intros cfg HS d s buf Hs _. exists d. cbn. unfold dummy_read.
  rewrite (index_ok _ s (dummy_content d s)); [done|destruct Hs; lia|by apply dummy_lookup].
Qed.
Next Obligation.
  intros cfg HS d s b [Hs Hf] Hl Hb. cbn. unfold dummy_write. rewrite set_index_ok by done.
  eexists. split; [done|]. unfold dummy_content, dummy_addressable; cbn.
  assert (Z.to_nat s < length (blocks d))%nat by (unfold len in Hs; lia). split_and!.
  - by rewrite list_lookup_total_insert_eq.
  - intros s' [Hs' _] Hne. rewrite list_lookup_total_insert_ne by lia. done.
  - intros s'. unfold len. rewrite length_insert. split; intros [? ?]; (split; [lia|]).
    + done.
    + apply Forall_insert; [done|]. by rewrite <-HS.
Qed.

(** The flags [set_volume_dirty] writes. *)
Definition dirty_flags (flags : Z) (b : bool) : Z :=
  if b then Z.lor (Z.land flags 7) 2 else Z.ldiff (Z.land flags 7) 2.

Lemma dirty_flags_range flags b : 0 ≤ dirty_flags flags b < 256.
Proof.
  assert (Hf : byte_ok (Z.land flags 7)).
  { change 7 with (2 ^ 3 - 1). rewrite land_low by lia. unfold byte_ok. dlia. }
  pose proof (forall_byte (λ f, (0 <=? Z.lor f 2) && (Z.lor f 2 <? 256) &&
    (0 <=? Z.ldiff f 2) && (Z.ldiff f 2 <? 256)) eq_refl _ Hf) as Hall.
  cbv beta in Hall. unfold dirty_flags. destruct b; lia.
Qed.

Lemma dirty_flags_bits flags b :
  Z.testbit (dirty_flags flags b) 1 = b ∧
  Z.testbit (dirty_flags flags b) 0 = Z.testbit flags 0 ∧
  Z.testbit (dirty_flags flags b) 2 = Z.testbit flags 2.
Proof.
  unfold dirty_flags. destruct b; rewrite ?Z.lor_spec, ?Z.ldiff_spec, ?Z.land_spec.
  all: change (Z.testbit 7 0) with true; change (Z.testbit 7 1) with true;
       change (Z.testbit 7 2) with true; change (Z.testbit 2 0) with false;
       change (Z.testbit 2 1) with true; change (Z.testbit 2 2) with false.
  all: by rewrite ?andb_true_r, ?orb_true_r, ?orb_false_r, ?andb_false_r.
Qed.

(** [set_volume_dirty] changes nothing of the boot sector but the two
    volume-flags bytes, where it sets or clears the dirty bit. *)
Theorem set_volume_dirty_correct {cfg : Config} {crates : Crates} {bd : BlockDevice}
    {Hcfg : ConfigOk cfg} {Hcr : CratesOk crates} {Hbd : DeviceOk cfg bd} (d : dev) (b : bool) :
  addressable d 0 → 108 ≤ SIZE →
  ∃ d', set_volume_dirty b d = (d', Ok ()) ∧
    (∀ s, addressable d s → s ≠ 0 → content d' s = content d s) ∧
    (∀ i, ¬ (106 ≤ i < 108)%nat → content d' 0 !! i = content d 0 !! i) ∧
    (let flags := from_le_bytes (take 2 (drop 106 (content d 0))) in
     let flags' := from_le_bytes (take 2 (drop 106 (content d' 0))) in
     Z.testbit flags' 1 = b ∧ Z.testbit flags' 0 = Z.testbit flags 0 ∧
     Z.testbit flags' 2 = Z.testbit flags 2).
Proof.
  intros Ha HS. destruct (content_bytes d 0 Ha) as [Hlen Hbytes].
  destruct (dev_read_ok d 0 (zeros SIZE) Ha) as (d1 & Hr & Hc1 & Ha1).
  { apply zeros_len. lia. }
  unfold set_volume_dirty. erewrite bind_Ok.
  2: { unfold io_read. rewrite Hr. reflexivity. }
  unfold read_u16_le. rewrite slice_ok by lia. cbn [fmap outcome_fmap]. rewrite bind_lift_Ok.
  rewrite from_bits_truncate_spec, set_flag_spec.
  change (Z.to_nat (106 + 2 - 106)) with 2%nat. change (Z.to_nat 106) with 106%nat.
  set (flags := from_le_bytes (take 2 (drop 106 (content d 0)))).
  change (if b then Z.lor (Z.land flags VolumeFlags_all) VolumeDirty
          else Z.ldiff (Z.land flags VolumeFlags_all) VolumeDirty)
    with (dirty_flags flags b).
  pose proof (dirty_flags_range flags b). set (flags' := dirty_flags flags b) in *.
  rewrite copy_into_ok by (rewrite ?len_to_le_bytes; lia). rewrite bind_lift_Ok.
  set (block := splice (content d 0) 106 (to_le_bytes 2 flags')).
  assert (Hbl : len block = SIZE).
  { unfold len, block. rewrite length_splice by (rewrite ?len_to_le_bytes; lia). done. }
  assert (Hbb : Forall byte_ok block).
  { unfold block, splice. repeat apply Forall_app_2;
      auto using Forall_take, Forall_drop with exfat. }
  destruct (dev_write_ok d1 0 block) as (d2 & Hw & Hc2 & Hne & _); [by apply Ha1|done..|].
  exists d2. unfold io_write. rewrite Hw. split; [done|]. rewrite Hc2. split; [|split].
  - intros s Hs Hs0. rewrite Hne, Hc1; [done|by apply Ha1|done].
  - intros i Hi. unfold block. apply lookup_splice_out; rewrite ?len_to_le_bytes; lia.
  - assert (Ht : take 2 (drop 106 block) = to_le_bytes 2 flags').
    { apply (lookup_take_2 block 106 (to_le_bytes 2 flags')). intros i Hi.
      rewrite length_to_le_bytes in Hi. unfold block.
      rewrite lookup_splice_in by (rewrite ?len_to_le_bytes; lia). f_equal. lia. }
    cbv zeta. rewrite Ht, from_to_le_bytes_small by (cbn; lia). apply dirty_flags_bits.
Qed.

(** * Witness *)
Lemma set_volume_dirty_witness :
  let d := {| blocks := [SAMPLE_BOOT_SECTOR]; write_count := 0 |} in
  ∃ d' : DummyBlockDevice,
    @set_volume_dirty debug_build reference_crates dummy_device false d = (d', Ok ()) ∧
    Z.testbit (from_le_bytes (take 2 (drop 106 (dummy_content d' 0)))) 1 = false.
Proof.
  intros d.
  destruct (@set_volume_dirty_correct debug_build reference_crates dummy_device debug_build_ok
    reference_crates_ok (dummy_device_ok debug_build eq_refl) d false)
    as (d' & Hd & _ & _ & Hf & _).
  - split; [vm_compute; split; congruence|]. apply Forall_singleton.
    destruct sample_bytes. done.
  - vm_compute. discriminate.
  - exists d'. split; [exact Hd|exact Hf].
Defined.
