(* ===== verification/SlotCache.v ===== *)
(** * src/slot_cache.rs: the write-back sector cache with clock eviction

    State: the cache together with the device.  [&mut Slot] results are slot
    indices.  The abstract specification is an array of sectors ([seen]):
    what a reader of a sector through the cache sees. *)

From S2P Require Import Prelude Crates Errors Device.

Record Slot := {
  sector_id : Z;
  is_dirty : bool;
  is_used : bool;
  is_valid : bool;
  block : list Z;
}.
Record SlotCache := { cache : list Slot; hand : nat }.

Definition slot_set_dirty (b : bool) (s : Slot) : Slot :=
  {| sector_id := sector_id s; is_dirty := b; is_used := is_used s;
     is_valid := is_valid s; block := block s |}.
Definition slot_set_used (b : bool) (s : Slot) : Slot :=
  {| sector_id := sector_id s; is_dirty := is_dirty s; is_used := b;
     is_valid := is_valid s; block := block s |}.
Definition slot_set_block (b : list Z) (s : Slot) : Slot :=
  {| sector_id := sector_id s; is_dirty := is_dirty s; is_used := is_used s;
     is_valid := is_valid s; block := b |}.

Section Ops.
Context {cfg : Config} {bd : BlockDevice}.
Abbreviation CM := (M (SlotCache * dev) err) (only parsing).

Definition Slot_new : Slot :=
  {| sector_id := 0; is_dirty := false; is_used := false; is_valid := false;
     block := zeros SIZE |}.
Definition SlotCache_new : SlotCache :=
  {| cache := replicate SLOTS Slot_new; hand := 0 |}.

(** ** Access to [self.cache[i]] and [self.hand] *)
Definition get_slot (i : nat) : CM Slot := λ s,
  (s, match cache (fst s) !! i with Some sl => Ok sl | None => Panic end).
Definition put_slot (i : nat) (sl : Slot) : CM () := λ s,
  (({| cache := <[i := sl]> (cache (fst s)); hand := hand (fst s) |}, snd s), Ok ()).
Definition get_hand : CM nat := gets (λ s, hand (fst s)).
Definition put_hand (h : nat) : CM () :=
  modify (λ s, ({| cache := cache (fst s); hand := h |}, snd s)).
(** [self.hand += 1; if self.hand == N { self.hand = 0 }] *)
Definition advance_hand : CM () :=
  h ← get_hand;
  put_hand (if (S h =? SLOTS)%nat then 0%nat else S h).

(** [Slot::flush] *)
Definition Slot_flush (i : nat) : CM () :=
  sl ← get_slot i;
  if is_dirty sl then
    zoom lsnd (io_write (sector_id sl) (block sl)) ;;
    put_slot i (slot_set_dirty false sl)
  else mret ().

(** [SlotCache::flush] *)
Definition flush : CM () := λ s,
  for_each (seq 0 (length (cache (fst s)))) Slot_flush s.

(** [SlotCache::flush_sector]: the first slot with that sector id *)
Fixpoint flush_sector_loop (idxs : list nat) (sector : Z) : CM () :=
  match idxs with
  | [] => mret ()
  | i :: idxs =>
      sl ← get_slot i;
      if sector_id sl =? sector then Slot_flush i else flush_sector_loop idxs sector
  end.
Definition flush_sector (sector : Z) : CM () := λ s,
  flush_sector_loop (seq 0 (length (cache (fst s)))) sector s.

(** [cache_hit]: visits the slots from the hand on, moving the hand along *)
Fixpoint cache_hit_loop (idxs : list nat) (sid : Z) : CM (option nat) :=
  match idxs with
  | [] => mret None
  | i :: idxs =>
      sl ← get_slot i;
      if (sector_id sl =? sid) && is_valid sl then
        put_slot i (slot_set_used true sl) ;;
        h ← get_hand;
        mret (Some h)
      else advance_hand ;; cache_hit_loop idxs sid
  end.
Definition cache_hit (sid : Z) : CM (option nat) :=
  h ← get_hand;
  n ← gets (λ s, length (cache (fst s)));
  if (h <=? n)%nat then cache_hit_loop (seq h (n - h) ++ seq 0 h) sid
  else panic (* split_at_mut out of range *).

(** [write_back] *)
Definition write_back (i : nat) : CM () :=
  sl ← get_slot i;
  zoom lsnd (io_write (sector_id sl) (block sl)) ;;
  put_slot i (slot_set_dirty false sl).

(** [choose_victim]: the [loop] runs on fuel *)
Fixpoint choose_victim_loop (fuel : nat) : CM nat :=
  match fuel with
  | O => lift OutOfFuel
  | S fuel =>
      i ← get_hand;
      advance_hand ;;
      sl ← get_slot i;
      if negb (is_valid sl) then mret i
      else if is_used sl then
        put_slot i (slot_set_used false sl) ;; choose_victim_loop fuel
      else if is_dirty sl then write_back i ;; mret i
      else mret i
  end.
Definition choose_victim : CM nat := choose_victim_loop (2 * SLOTS + 1).

(** [io.read(sid, buf)]: the buffer afterwards and the [Result] *)
Definition device_read (sid : Z) (buf : list Z) : CM (list Z * outcome dev_error ()) := λ s,
  let '((d, buf'), r) := dev_read sid buf (snd s) in ((fst s, d), Ok (buf', r)).

(** [read_inner]: on a failing device read the buffer keeps whatever the
    device left in it and the slot keeps its old label *)
Definition read_inner (sid : Z) : CM nat :=
  hit ← cache_hit sid;
  match hit with
  | Some i => mret i
  | None =>
      i ← choose_victim;
      sl ← get_slot i;
      r ← device_read sid (block sl);
      put_slot i (slot_set_block (fst r) sl) ;;
      lift (map_err_o Io (snd r)) ;;
      put_slot i {| sector_id := sid; is_dirty := is_dirty sl; is_used := true;
                    is_valid := true; block := fst r |} ;;
      mret i
  end.
Definition read_mut (sid : Z) : CM nat := read_inner sid.
Definition read (sid : Z) : CM nat := read_inner sid.

(** [slot.as_slice()] and writes through [slot.as_mut_slice()] *)
Definition as_slice (i : nat) : CM (list Z) := sl ← get_slot i; mret (block sl).
Definition as_mut_slice (i : nat) (f : list Z → outcome err (list Z)) : CM () :=
  sl ← get_slot i;
  put_slot i (slot_set_dirty true sl) ;;
  b ← lift (f (block sl));
  put_slot i (slot_set_block b (slot_set_dirty true sl)).

(** [SlotCache::write]: a full block, written through *)
Definition write (sid : Z) (b : list Z) : CM () :=
  hit ← cache_hit sid;
  (match hit with
   | Some i =>
       sl ← get_slot i;
       put_slot i (slot_set_dirty false (slot_set_block b sl))
   | None => mret ()
   end) ;;
  zoom lsnd (io_write sid b).

(** The two ways the rest of the crate uses a slot. *)
Definition fetch (sid : Z) : CM (list Z) := i ← read sid; as_slice i.
Definition update (sid : Z) (f : list Z → outcome err (list Z)) : CM () :=
  i ← read_mut sid; as_mut_slice i f.
End Ops.

(** * Specification *)

Section Spec.
Context {cfg : Config} {bd : BlockDevice} {Hbd : DeviceOk cfg bd}.

Definition hit (s : Z) (sl : Slot) : bool := (sector_id sl =? s) && is_valid sl.

(** The abstract array of sectors a cache and its device represent. *)
Definition seen (c : SlotCache) (d : dev) (s : Z) : list Z :=
  match find (hit s) (cache c) with
  | Some sl => block sl
  | None => content d s
  end.

Definition block_ok (b : list Z) : Prop := len b = SIZE ∧ Forall byte_ok b.

(** A valid clean slot mirrors the device; an unused slot is labelled 0. *)
Definition slot_inv (d : dev) (sl : Slot) : Prop :=
  block_ok (block sl) ∧
  (if is_valid sl
   then addressable d (sector_id sl) ∧
        (is_dirty sl = false → block sl = content d (sector_id sl))
   else sector_id sl = 0 ∧ is_dirty sl = false).

Record cache_inv (c : SlotCache) (d : dev) : Prop := {
  inv_length : length (cache c) = SLOTS;
  inv_hand : (hand c < SLOTS)%nat;
  inv_slots : ∀ i sl, cache c !! i = Some sl → slot_inv d sl;
  inv_unique : ∀ i j si sj, cache c !! i = Some si → cache c !! j = Some sj →
    is_valid si = true → is_valid sj = true → sector_id si = sector_id sj → i = j;
}.

(** The device holds what readers of the sector see. *)
Definition saved (c : SlotCache) (d : dev) (s : Z) : Prop := content d s = seen c d s.

(** The sectors outside [P] look the same before and after, and those of them
    that were saved on the device still are. *)
Definition frame (P : Z → Prop) (c : SlotCache) (d : dev) (c' : SlotCache) (d' : dev) : Prop :=
  (∀ s, addressable d' s ↔ addressable d s) ∧
  (∀ s, addressable d s → ¬ P s →
     seen c' d' s = seen c d s ∧ (saved c d s → saved c' d' s)).

Definition misses (c : SlotCache) (s : Z) : Prop :=
  ∀ j sl, cache c !! j = Some sl → is_valid sl = true → sector_id sl ≠ s.
End Spec.
Abbreviation same_sectors := (frame (λ _, False)).

(** * Lemmas *)

Section Lemmas.
Context {cfg : Config} {bd : BlockDevice} {Hcfg : ConfigOk cfg} {Hbd : DeviceOk cfg bd}.
Implicit Types (c : SlotCache) (d : dev) (s : Z).

Lemma keep_sector c d c' d' s :
  seen c' d' s = seen c d s → content d' s = content d s ∨ content d' s = seen c d s →
  seen c' d' s = seen c d s ∧ (saved c d s → saved c' d' s).
Proof. unfold saved. intros -> []; split; congruence. Qed.

Lemma same_refl c d : same_sectors c d c d.
Proof. split; done. Qed.
Lemma frame_trans P c0 d0 c1 d1 c2 d2 :
  frame P c0 d0 c1 d1 → frame P c1 d1 c2 d2 → frame P c0 d0 c2 d2.
Proof.
  intros [Ha H1] [Hb H2]. split; [by intros s; rewrite Hb|].
  intros s Hs HP. destruct (H1 s Hs HP) as [<- ?]. destruct (H2 s) as [<- ?]; [by apply Ha|done|].
  auto.
Qed.
Lemma frame_weaken (P Q : Z → Prop) c0 d0 c1 d1 :
  (∀ s, P s → Q s) → frame P c0 d0 c1 d1 → frame Q c0 d0 c1 d1.
Proof. intros HPQ [Ha H1]. split; [done|]. intros. apply H1; auto. Qed.

Lemma hit_true s sl : hit s sl = true ↔ is_valid sl = true ∧ sector_id sl = s.
Proof. unfold hit. rewrite andb_true_iff, Z.eqb_eq. tauto. Qed.

Lemma hit_cases c s :
  (∃ i sl, cache c !! i = Some sl ∧ is_valid sl = true ∧ sector_id sl = s) ∨ misses c s.
Proof.
  destruct (find (hit s) (cache c)) as [sl|] eqn:Hf.
  - apply find_some in Hf as [Hin Hh]. apply list_elem_of_In, list_elem_of_lookup in Hin as [i Hi].
    left. exists i, sl. split; [done|by apply hit_true].
  - right. intros j sl Hj Hv <-. assert (hit (sector_id sl) sl = true) by by apply hit_true.
    assert (hit (sector_id sl) sl = false); [|congruence].
    eapply find_none; [done|]. apply list_elem_of_In, list_elem_of_lookup. eauto.
Qed.

Lemma sector_hit c d i sl :
  cache_inv c d → cache c !! i = Some sl → is_valid sl = true →
  seen c d (sector_id sl) = block sl.
Proof.
  intros Hinv Hi Hv. unfold seen.
  destruct (find (hit (sector_id sl)) (cache c)) as [sl'|] eqn:Hf.
  - apply find_some in Hf as [Hin Hh].
    apply list_elem_of_In, list_elem_of_lookup in Hin as [j Hj]. apply hit_true in Hh as [Hv' Hs'].
    assert (i = j) as -> by (by eapply (inv_unique c d)). congruence.
  - eapply find_none in Hf; [|apply list_elem_of_In, list_elem_of_lookup; eauto].
    assert (hit (sector_id sl) sl = true) by by apply hit_true. congruence.
Qed.

Lemma sector_miss c d s : misses c s → seen c d s = content d s.
Proof.
  intros Hm. unfold seen. destruct (find (hit s) (cache c)) as [sl|] eqn:Hf; [|done].
  apply find_some in Hf as [Hin Hh]. apply hit_true in Hh as [Hv Hs].
  apply list_elem_of_In, list_elem_of_lookup in Hin as [j Hj]. by destruct (Hm j sl Hj Hv).
Qed.

Lemma sector_ok c d s : cache_inv c d → addressable d s → block_ok (seen c d s).
Proof.
  intros Hinv Ha. destruct (hit_cases c s) as [(i & sl & Hi & Hv & <-)|Hm].
  - rewrite (sector_hit c d i) by done. apply (inv_slots _ _ Hinv i sl Hi).
  - rewrite sector_miss by done. apply content_bytes, Ha.
Qed.

(** A slot is replaced: what must be shown for the invariant to survive. *)
Lemma inv_insert c d c' d' i sl' :
  cache_inv c d → cache c' = <[i:=sl']> (cache c) → (hand c' < SLOTS)%nat →
  slot_inv d' sl' →
  (∀ j sl, j ≠ i → cache c !! j = Some sl → slot_inv d' sl) →
  (is_valid sl' = true → ∀ j sl, j ≠ i → cache c !! j = Some sl →
     is_valid sl = true → sector_id sl ≠ sector_id sl') →
  cache_inv c' d'.
Proof.
  intros Hinv Hc' Hh Hsl' Hothers Huniq.
  assert (Hl : ∀ j sl, cache c' !! j = Some sl →
    (j = i ∧ sl = sl') ∨ (j ≠ i ∧ cache c !! j = Some sl)).
  { intros j sl. rewrite Hc'. intros [(<- & <- & _)|[Hne Hj]]%list_lookup_insert_Some; auto. }
  split.
  - rewrite Hc', length_insert. apply (inv_length _ _ Hinv).
  - done.
  - intros j sl Hj. destruct (Hl j sl Hj) as [[-> ->]|[? ?]]; eauto.
  - intros j k sj sk Hj Hk Hvj Hvk Hid.
    destruct (Hl j sj Hj) as [[-> ->]|[Hne ?]], (Hl k sk Hk) as [[-> ->]|[Hne' ?]];
      [done| | |by eapply (inv_unique c d)].
    + by destruct (Huniq Hvj k sk).
    + by destruct (Huniq Hvk j sj).
Qed.

(** A sector that neither the old nor the new slot holds is unaffected. *)
Lemma sector_other c d c' d' i sl sl' s :
  cache_inv c d → cache_inv c' d' → cache c !! i = Some sl →
  cache c' = <[i:=sl']> (cache c) →
  (is_valid sl = true → sector_id sl ≠ s) → (is_valid sl' = true → sector_id sl' ≠ s) →
  (misses c s → content d' s = content d s) →
  seen c' d' s = seen c d s.
Proof.
  intros Hinv Hinv' Hi Hc' Ho Hn Hcont.
  destruct (hit_cases c s) as [(j & sj & Hj & Hv & <-)|Hm].
  - assert (j ≠ i) by (intros ->; simplify_eq; by apply Ho).
    rewrite (sector_hit c d j) by done. apply (sector_hit c' d' j); [done| |done].
    by rewrite Hc', list_lookup_insert_ne.
  - rewrite (sector_miss c d s Hm). rewrite sector_miss; [auto|].
    intros j sj. rewrite Hc'. intros [(<- & <- & _)|[Hne Hj]]%list_lookup_insert_Some; eauto.
Qed.

(** Rewriting a slot without touching label, validity or bytes. *)
Lemma inv_relabel c d i sl sl' h :
  cache_inv c d → cache c !! i = Some sl → (h < SLOTS)%nat →
  sector_id sl' = sector_id sl → is_valid sl' = is_valid sl → block sl' = block sl →
  is_dirty sl' = is_dirty sl →
  let c' := {| cache := <[i:=sl']> (cache c); hand := h |} in
  cache_inv c' d ∧ same_sectors c d c' d.
Proof.
  intros Hinv Hi Hh Hid Hv Hb Hd c'. assert (Hinv' : cache_inv c' d).
  { eapply (inv_insert c d c' d i sl'); [done..| | |].
    - pose proof (inv_slots _ _ Hinv i sl Hi) as Hs. unfold slot_inv in *.
      by rewrite Hid, Hv, Hb, Hd.
    - intros j sj _ Hj. by eapply (inv_slots c d).
    - intros Hv' j sj Hne Hj Hvj Hid'. rewrite Hid in Hid'. rewrite Hv in Hv'.
      by destruct Hne; eapply (inv_unique c d). }
  split; [done|]. split; [done|]. intros s Hs _. apply keep_sector; [|by left].
  destruct (decide (is_valid sl = true ∧ sector_id sl = s)) as [[Hvs <-]|Hns].
  - rewrite (sector_hit c d i) by done. rewrite <-Hid, <-Hb.
    apply (sector_hit c' d i); [done| |congruence].
    cbn. rewrite list_lookup_insert_eq; [done|by eapply lookup_lt_Some].
  - eapply (sector_other c d c' d i sl sl'); [done..| | |done]; rewrite ?Hid, ?Hv; tauto.
Qed.

Lemma inv_move_hand c d h :
  cache_inv c d → (h < SLOTS)%nat →
  let c' := {| cache := cache c; hand := h |} in cache_inv c' d ∧ same_sectors c d c' d.
Proof. intros [? ? ? ?] Hh. split; [by split|split; done]. Qed.
End Lemmas.

(** ** The operations *)

(** The order in which [cache_hit] visits the slots. *)
Lemma visit_order (h n : nat) :
  (h < n)%nat → seq h (n - h) ++ seq 0 h = (λ k, (h + k) mod n)%nat <$> seq 0 n.
Proof.
  intros Hh. apply list_eq. intros i. rewrite list_lookup_fmap.
  destruct (decide (i < n)%nat).
  - rewrite (lookup_seq_lt 0 n) by lia. cbn.
    destruct (decide (i < n - h)%nat).
    + rewrite lookup_app_l by (rewrite length_seq; lia).
      rewrite lookup_seq_lt by lia. f_equal. rewrite Nat.mod_small; lia.
    + rewrite lookup_app_r by (rewrite length_seq; lia). rewrite length_seq.
      rewrite lookup_seq_lt by lia. f_equal.
      replace (h + i)%nat with (h + i - n + 1 * n)%nat by lia.
      rewrite Nat.Div0.mod_add, Nat.mod_small; lia.
  - rewrite (lookup_seq_ge 0 n) by lia. apply lookup_ge_None.
    rewrite length_app, !length_seq. lia.
Qed.

Fixpoint used_count (l : list Slot) : nat :=
  match l with
  | [] => 0
  | sl :: l => (if is_used sl then 1 else 0) + used_count l
  end.

Lemma used_count_clear l i sl :
  l !! i = Some sl → is_used sl = true →
  S (used_count (<[i:=slot_set_used false sl]> l)) = used_count l.
Proof.
  revert i. induction l as [|x l IH]; intros [|i] Hi Hu; [done..| |].
  - simplify_eq/=. by rewrite Hu.
  - change (<[S i:=slot_set_used false sl]> (x :: l))
      with (x :: <[i:=slot_set_used false sl]> l). cbn [used_count].
    rewrite <-(IH i Hi Hu). lia.
Qed.
Lemma used_count_le l : (used_count l ≤ length l)%nat.
Proof. induction l as [|x l IH]; cbn; [lia|]. destruct (is_used x); lia. Qed.

Section OpLemmas.
Context {cfg : Config} {bd : BlockDevice} {Hcfg : ConfigOk cfg} {Hbd : DeviceOk cfg bd}.
Implicit Types (c : SlotCache) (d : dev) (s : Z).

Lemma get_slot_ok c d i sl :
  cache c !! i = Some sl → get_slot i (c, d) = ((c, d), Ok sl).
Proof. intros Hi. unfold get_slot. cbn. by rewrite Hi. Qed.

Lemma advance_hand_ok c d :
  (hand c < SLOTS)%nat →
  advance_hand (c, d) =
    (({| cache := cache c; hand := (S (hand c)) mod SLOTS |}, d), Ok ()) ∧
  ((S (hand c)) mod SLOTS < SLOTS)%nat.
Proof.
  intros Hh. split; [|apply Nat.mod_upper_bound; lia].
  unfold advance_hand, get_hand, put_hand, gets, modify, mbind, M_bind.
  cbn [fst snd cache hand].
  destruct (Nat.eqb_spec (S (hand c)) SLOTS) as [Heq|Hne].
  - by rewrite Heq, Nat.Div0.mod_same.
  - by rewrite Nat.mod_small by lia.
Qed.

Lemma cache_hit_loop_ok s c d h k m :
  length (cache c) = SLOTS → (h < SLOTS)%nat → hand c = ((h + k) mod SLOTS)%nat →
  (∃ i sl, cache c !! i = Some sl ∧ hit s sl = true ∧
     cache_hit_loop ((λ k, (h + k) mod SLOTS)%nat <$> seq k m) s (c, d) =
       (({| cache := <[i:=slot_set_used true sl]> (cache c); hand := i |}, d), Ok (Some i))) ∨
  ((∀ j sl, j ∈ ((λ k, (h + k) mod SLOTS)%nat <$> seq k m) → cache c !! j = Some sl →
      hit s sl = false) ∧
   cache_hit_loop ((λ k, (h + k) mod SLOTS)%nat <$> seq k m) s (c, d) =
     (({| cache := cache c; hand := (h + (k + m)) mod SLOTS |}, d), Ok None)).
Proof.
  intros Hlen Hh. revert k c Hlen. induction m as [|m IH]; intros k c Hlen Hk.
  { right. split; [by intros ?? ?%elem_of_nil|]. cbn. rewrite Nat.add_0_r, <-Hk.
    by destruct c. }
  pose proof SLOTS_pos. cbn [seq fmap list_fmap cache_hit_loop].
  destruct (lookup_lt_is_Some_2 (cache c) ((h + k) mod SLOTS)%nat) as [sl Hsl].
  { rewrite Hlen. apply Nat.mod_upper_bound. lia. }
  rewrite (bind_Ok _ _ _ _ _ (get_slot_ok c d _ sl Hsl)).
  fold (hit s sl). destruct (hit s sl) eqn:Hhit.
  - left. exists ((h + k) mod SLOTS)%nat, sl. split_and!; [done..|].
    unfold put_slot, get_hand, gets, mbind, M_bind. cbn. by rewrite Hk.
  - destruct (advance_hand_ok c d) as [Ha Hlt].
    { rewrite Hk. apply Nat.mod_upper_bound. lia. }
    rewrite (bind_Ok _ _ _ _ _ Ha).
    set (c1 := {| cache := cache c; hand := (S (hand c) mod SLOTS)%nat |}).
    destruct (IH (S k) c1) as [(i & sl' & Hi & Hs' & ->)|[Hno ->]]; [done| | |].
    + cbn. rewrite Hk. replace (h + S k)%nat with (S (h + k)) by lia.
      rewrite <-(Nat.add_1_l (_ mod _)), Nat.Div0.add_mod_idemp_r. done.
    + left. exists i, sl'. done.
    + right. split.
      * intros j sl' [->|Hj]%elem_of_cons Hsl'; [congruence|by eapply Hno].
      * cbn. do 4 f_equal. lia.
Qed.

(** A hit leaves the hand on the slot it returns. *)
Lemma cache_hit_ok c d s :
  cache_inv c d →
  (∃ i sl, cache c !! i = Some sl ∧ is_valid sl = true ∧ sector_id sl = s ∧
     cache_hit s (c, d) =
       (({| cache := <[i:=slot_set_used true sl]> (cache c); hand := i |}, d), Ok (Some i))) ∨
  (misses c s ∧ cache_hit s (c, d) = ((c, d), Ok None)).
Proof.
  intros Hinv. pose proof (inv_length _ _ Hinv) as Hlen. pose proof (inv_hand _ _ Hinv) as Hh.
  assert (Hrun : cache_hit s (c, d) =
    cache_hit_loop ((λ k, (hand c + k) mod SLOTS)%nat <$> seq 0 SLOTS) s (c, d)).
  { unfold cache_hit, get_hand, gets, mbind, M_bind. cbn. rewrite Hlen.
    rewrite (proj2 (Nat.leb_le _ _)) by lia. by rewrite visit_order. }
  rewrite Hrun. destruct (cache_hit_loop_ok s c d (hand c) 0 SLOTS)
    as [(i & sl & Hi & Hhit & ->)|[Hno ->]]; [done|done|..].
  - rewrite Nat.add_0_r, Nat.mod_small; lia.
  - left. apply hit_true in Hhit as [? ?]. exists i, sl. done.
  - right. split.
    + intros j sl Hj Hv Hs. assert (hit s sl = true) by by apply hit_true.
      assert (hit s sl = false); [|congruence]. apply (Hno j); [|done].
      rewrite <-visit_order by done. apply elem_of_app. rewrite !elem_of_seq.
      apply lookup_lt_Some in Hj. lia.
    + replace (hand c + (0 + SLOTS))%nat with (hand c + 1 * SLOTS)%nat by lia.
      rewrite Nat.Div0.mod_add, Nat.mod_small by done. by destruct c.
Qed.

Lemma io_write_ok d s b :
  addressable d s → block_ok b →
  ∃ d', io_write s b d = (d', Ok ()) ∧ content d' s = b ∧
    (∀ s', addressable d s' → s' ≠ s → content d' s' = content d s') ∧
    (∀ s', addressable d' s' ↔ addressable d s').
Proof.
  intros Ha [Hl Hb]. destruct (dev_write_ok d s b Ha Hl Hb) as (d' & Hw & ? & ? & ?).
  exists d'. unfold io_write. rewrite Hw. done.
Qed.

(** Writing a dirty slot back makes it clean and changes no sector. *)
Lemma write_back_ok c d i sl :
  cache_inv c d → cache c !! i = Some sl → is_valid sl = true →
  let c' := {| cache := <[i:=slot_set_dirty false sl]> (cache c); hand := hand c |} in
  ∃ d', write_back i (c, d) = ((c', d'), Ok ()) ∧ cache_inv c' d' ∧
    same_sectors c d c' d' ∧ content d' (sector_id sl) = block sl ∧
    (∀ s, addressable d s → s ≠ sector_id sl → content d' s = content d s).
Proof.
  intros Hinv Hi Hv c'. pose proof (inv_slots _ _ Hinv i sl Hi) as Hs.
  unfold slot_inv in Hs. rewrite Hv in Hs. destruct Hs as (Hb & Ha & Hc).
  destruct (io_write_ok d (sector_id sl) (block sl) Ha Hb) as (d' & Hw & Hcs & Hco & Had).
  exists d'. split.
  { unfold write_back. rewrite (bind_Ok _ _ _ _ _ (get_slot_ok c d i sl Hi)).
    unfold mbind, M_bind, zoom. cbn. by rewrite Hw. }
  assert (Hinv' : cache_inv c' d').
  { eapply (inv_insert c d c' d' i (slot_set_dirty false sl)); [done..| | | |].
    - apply (inv_hand _ _ Hinv).
    - unfold slot_inv; cbn. rewrite Hv. split; [done|]. split; [by apply Had|done].
    - intros j sj Hne Hj. pose proof (inv_slots _ _ Hinv j sj Hj) as (Hbj & Hsj).
      split; [done|]. destruct (is_valid sj) eqn:Hvj; [|done]. destruct Hsj as [Haj Hcj].
      split; [by apply Had|]. intros Hd. rewrite Hco, Hcj; [done..|].
      intros Heq. destruct Hne. by eapply (inv_unique c d).
    - intros _ j sj Hne Hj Hvj Heq. destruct Hne. by eapply (inv_unique c d). }
  split_and!; [done| |done|done]. split; [done|]. intros s Has _.
  apply keep_sector; destruct (decide (sector_id sl = s)) as [<-|Hne].
  3: { right. by rewrite (sector_hit c d i). } 3: by left; auto.
  - rewrite (sector_hit c d i) by done.
    apply (sector_hit c' d' i (slot_set_dirty false sl)); [done| |done].
    cbn. apply list_lookup_insert_eq. by eapply lookup_lt_Some.
  - eapply (sector_other c d c' d' i sl (slot_set_dirty false sl)); auto.
Qed.

(** A victim slot is clean: it may be overwritten without losing data. *)
Lemma choose_victim_loop_ok fuel c d :
  cache_inv c d → (used_count (cache c) < fuel)%nat →
  ∃ c' d' i sl, choose_victim_loop fuel (c, d) = ((c', d'), Ok i) ∧
    cache_inv c' d' ∧ same_sectors c d c' d' ∧
    (∀ s, misses c s → misses c' s) ∧
    cache c' !! i = Some sl ∧ is_dirty sl = false.
Proof.
  revert c d. induction fuel as [|fuel IH]; intros c d Hinv Hf; [lia|].
  cbn [choose_victim_loop]. unfold get_hand at 1. rewrite (bind_Ok _ _ _ (c, d) (hand c)) by done.
  destruct (advance_hand_ok c d (inv_hand _ _ Hinv)) as [Ha Hlt].
  rewrite (bind_Ok _ _ _ _ _ Ha). set (c1 := {| cache := cache c; hand := _ |}).
  destruct (inv_move_hand c d _ Hinv Hlt) as [Hinv1 Hsame1]. fold c1 in Hinv1, Hsame1.
  destruct (lookup_lt_is_Some_2 (cache c) (hand c)) as [sl Hsl].
  { rewrite (inv_length _ _ Hinv). apply (inv_hand _ _ Hinv). }
  rewrite (bind_Ok _ _ _ _ _ (get_slot_ok c1 d _ sl Hsl)).
  destruct (is_valid sl) eqn:Hv; cbn [negb].
  2: { exists c1, d, (hand c), sl. split_and!; [done..|].
       pose proof (inv_slots _ _ Hinv _ _ Hsl) as [_ Hs]. rewrite Hv in Hs. apply Hs. }
  destruct (is_used sl) eqn:Hu.
  - destruct (inv_relabel c1 d (hand c) sl (slot_set_used false sl) (hand c1)) as [Hinv2 Hsame2];
      [done..|].
    set (c2 := {| cache := <[hand c:=slot_set_used false sl]> (cache c1); hand := hand c1 |}) in *.
    rewrite (bind_Ok (put_slot (hand c) (slot_set_used false sl)) _ _ (c2, d) ()) by done.
    destruct (IH c2 d Hinv2) as (c' & d' & i & sl' & Hr & Hi' & Hs' & Hm & ? & ?).
    { pose proof (used_count_clear (cache c) (hand c) sl Hsl Hu). cbn in *. lia. }
    exists c', d', i, sl'. split_and!; try done.
    + eapply frame_trans; [exact Hsame1|]. by eapply frame_trans.
    + intros s Hmiss. apply Hm. intros j sj. unfold c2; cbn.
      intros [(<- & <- & _)|[_ Hj]]%list_lookup_insert_Some; [exact (Hmiss (hand c) sl Hsl)|eauto].
  - destruct (is_dirty sl) eqn:Hd; [|by exists c1, d, (hand c), sl].
    destruct (write_back_ok c1 d (hand c) sl Hinv1 Hsl Hv) as (d' & Hw & Hi' & Hs' & _).
    rewrite (bind_Ok _ _ _ _ _ Hw).
    eexists _, d', (hand c), (slot_set_dirty false sl). split_and!; [done|done| | | |done].
    + eapply frame_trans; [exact Hsame1|done].
    + intros s Hmiss j sj. cbn.
      intros [(<- & <- & _)|[_ Hj]]%list_lookup_insert_Some; [exact (Hmiss (hand c) sl Hsl)|eauto].
    + cbn. apply list_lookup_insert_eq. by eapply lookup_lt_Some.
Qed.
End OpLemmas.

Section Contract.
Context {cfg : Config} {bd : BlockDevice} {Hcfg : ConfigOk cfg} {Hbd : DeviceOk cfg bd}.
Implicit Types (c : SlotCache) (d : dev) (s : Z).

Lemma choose_victim_ok c d :
  cache_inv c d →
  ∃ c' d' i sl, choose_victim (c, d) = ((c', d'), Ok i) ∧
    cache_inv c' d' ∧ same_sectors c d c' d' ∧ (∀ s, misses c s → misses c' s) ∧
    cache c' !! i = Some sl ∧ is_dirty sl = false.
Proof.
  intros Hinv. apply choose_victim_loop_ok; [done|].
  pose proof (used_count_le (cache c)). rewrite (inv_length _ _ Hinv) in *.
  pose proof SLOTS_pos. lia.
Qed.

(** Loading a missing sector into a clean victim slot. *)
Lemma fill_victim_ok c d d' s i sl :
  cache_inv c d → addressable d s → misses c s → cache c !! i = Some sl →
  is_dirty sl = false →
  (∀ s', content d' s' = content d s') → (∀ s', addressable d' s' ↔ addressable d s') →
  let sl' := {| sector_id := s; is_dirty := false; is_used := true; is_valid := true;
                block := content d s |} in
  let c' := {| cache := <[i:=sl']> (cache c); hand := hand c |} in
  cache_inv c' d' ∧ same_sectors c d c' d'.
Proof.
  intros Hinv Ha Hm Hi Hd Hcont Hadr sl' c'.
  assert (Hinv' : cache_inv c' d').
  { eapply (inv_insert c d c' d' i sl'); [done|done|apply (inv_hand _ _ Hinv)|..].
    - split; [by apply content_bytes|]. cbn. split; [by apply Hadr|by intros _; rewrite Hcont].
    - intros j sj _ Hj. destruct (inv_slots _ _ Hinv j sj Hj) as [Hb Hsj]. split; [done|].
      destruct (is_valid sj); [|done]. rewrite Hcont. by rewrite Hadr.
    - intros _ j sj _ Hj Hv. by apply (Hm j). }
  split; [done|]. split; [done|]. intros s' Hs' _. apply keep_sector; [|by left].
  destruct (decide (s = s')) as [<-|Hne].
  - rewrite (sector_miss c d s Hm).
    apply (sector_hit c' d' i sl'); [done| |done]. cbn.
    apply list_lookup_insert_eq. by eapply lookup_lt_Some.
  - destruct (decide (is_valid sl = true ∧ sector_id sl = s')) as [[Hv <-]|Hn].
    + rewrite (sector_hit c d i) by done.
      destruct (inv_slots _ _ Hinv i sl Hi) as [_ Hs]. rewrite Hv in Hs.
      rewrite (proj2 Hs Hd). rewrite sector_miss; [by rewrite Hcont|].
      intros j sj. cbn. intros [(<- & <- & _)|[Hij Hj]]%list_lookup_insert_Some; [done|].
      intros Hvj Heq. destruct Hij. by eapply (inv_unique c d).
    + eapply (sector_other c d c' d' i sl sl'); [done..| | |]; cbn; [tauto|tauto|auto].
Qed.

(** The returned slot holds the requested sector. *)
Lemma read_inner_ok c d s :
  cache_inv c d → addressable d s →
  ∃ c' d' i sl, read_inner s (c, d) = ((c', d'), Ok i) ∧
    cache_inv c' d' ∧ same_sectors c d c' d' ∧
    cache c' !! i = Some sl ∧ is_valid sl = true ∧ sector_id sl = s ∧
    block sl = seen c d s.
Proof.
  intros Hinv Ha. unfold read_inner.
  destruct (cache_hit_ok c d s Hinv) as [(i & sl & Hi & Hv & <- & Hr)|[Hm Hr]];
    rewrite (bind_Ok _ _ _ _ _ Hr).
  - assert (i < SLOTS)%nat.
    { rewrite <-(inv_length _ _ Hinv). by eapply lookup_lt_Some. }
    destruct (inv_relabel c d i sl (slot_set_used true sl) i) as [Hinv' Hsame]; [done..|].
    eexists _, d, i, (slot_set_used true sl). split_and!; [done|done|done| |done|done|].
    + cbn. apply list_lookup_insert_eq. by eapply lookup_lt_Some.
    + exact (eq_sym (sector_hit c d i sl Hinv Hi Hv)).
  - destruct (choose_victim_ok c d Hinv) as (c1 & d1 & i & sl & Hcv & Hinv1 & Hsame1 & Hm1 & Hi & Hd).
    rewrite (bind_Ok _ _ _ _ _ Hcv), (bind_Ok _ _ _ _ _ (get_slot_ok c1 d1 i sl Hi)).
    assert (Ha1 : addressable d1 s) by by apply Hsame1.
    destruct (dev_read_ok d1 s (block sl) Ha1) as (d2 & Hdr & Hc2 & Ha2).
    { apply (inv_slots _ _ Hinv1 i sl Hi). }
    destruct (fill_victim_ok c1 d1 d2 s i sl Hinv1 Ha1 (Hm1 s Hm) Hi Hd Hc2 Ha2) as [Hinv' Hsame'].
    eexists _, d2, i, _. split_and!; [|exact Hinv'| | | | |].
    + unfold device_read, mbind, M_bind, put_slot, lift. cbn [fst snd cache hand].
      rewrite Hdr. cbn. by rewrite Hd, list_insert_insert_eq.
    + by eapply frame_trans.
    + cbn. apply list_lookup_insert_eq. by eapply lookup_lt_Some.
    + done.
    + done.
    + cbn. rewrite <-(proj1 (proj2 Hsame1 s Ha (λ f, f))). symmetry. apply sector_miss. by apply Hm1.
Qed.

Lemma fetch_ok c d s :
  cache_inv c d → addressable d s →
  ∃ c' d', fetch s (c, d) = ((c', d'), Ok (seen c d s)) ∧
    cache_inv c' d' ∧ same_sectors c d c' d'.
Proof.
  intros Hinv Ha. destruct (read_inner_ok c d s Hinv Ha)
    as (c' & d' & i & sl & Hr & Hinv' & Hsame & Hi & _ & _ & Hb).
  exists c', d'. split; [|done]. unfold fetch, read, as_slice.
  rewrite (bind_Ok _ _ _ _ _ Hr), (bind_Ok _ _ _ _ _ (get_slot_ok c' d' i sl Hi)). by rewrite Hb.
Qed.

(** The bytes of a resident slot are replaced and the slot becomes dirty. *)
Lemma as_mut_slice_ok c d i sl f b :
  cache_inv c d → cache c !! i = Some sl → is_valid sl = true →
  f (block sl) = Ok b → block_ok b →
  ∃ c', as_mut_slice i f (c, d) = ((c', d), Ok ()) ∧ cache_inv c' d ∧
    frame (λ s, s = sector_id sl) c d c' d ∧ seen c' d (sector_id sl) = b.
Proof.
  intros Hinv Hi Hv Hf Hb. set (sl' := slot_set_block b (slot_set_dirty true sl)).
  set (c' := {| cache := <[i:=sl']> (cache c); hand := hand c |}). exists c'. split.
  { unfold as_mut_slice. rewrite (bind_Ok _ _ _ _ _ (get_slot_ok c d i sl Hi)).
    unfold put_slot, lift, mbind, M_bind. cbn [fst snd cache hand]. rewrite Hf.
    unfold c'. by rewrite list_insert_insert_eq. }
  assert (Hinv' : cache_inv c' d).
  { eapply (inv_insert c d c' d i sl'); [done|done|apply (inv_hand _ _ Hinv)| | |].
    - destruct (inv_slots _ _ Hinv i sl Hi) as [_ Hs]. split; [done|]. cbn. rewrite Hv in *.
      by split; [apply Hs|].
    - intros j sj _ Hj. by apply (inv_slots _ _ Hinv j).
    - intros _ j sj Hne Hj Hvj Heq. destruct Hne. by eapply (inv_unique c d). }
  split_and!; [done| |].
  - split; [done|]. intros s Hs Hne. apply keep_sector; [|by left].
    eapply (sector_other c d c' d i sl sl'); auto.
  - apply (sector_hit c' d i sl'); [done| |done]. cbn. apply list_lookup_insert_eq.
    by eapply lookup_lt_Some.
Qed.

Lemma update_ok c d s f b :
  cache_inv c d → addressable d s → f (seen c d s) = Ok b → block_ok b →
  ∃ c' d', update s f (c, d) = ((c', d'), Ok ()) ∧ cache_inv c' d' ∧
    frame (λ s', s' = s) c d c' d' ∧ seen c' d' s = b.
Proof.
  intros Hinv Ha Hf Hb. destruct (read_inner_ok c d s Hinv Ha)
    as (c1 & d1 & i & sl & Hr & Hinv1 & Hsame & Hi & Hv & Hid & Hbl).
  destruct (as_mut_slice_ok c1 d1 i sl f b Hinv1 Hi Hv) as (c2 & Hm & Hinv2 & Hframe & Hsec);
    [by rewrite Hbl|done|]. rewrite Hid in *.
  exists c2, d1. split_and!; [|done| |done].
  - unfold update, read_mut. by rewrite (bind_Ok _ _ _ _ _ Hr).
  - eapply frame_trans; [|done]. by eapply frame_weaken; [|exact Hsame].
Qed.

Lemma Slot_flush_ok c d i sl :
  cache_inv c d → cache c !! i = Some sl →
  ∃ d', let c' := {| cache := <[i:=slot_set_dirty false sl]> (cache c); hand := hand c |} in
    Slot_flush i (c, d) = ((c', d'), Ok ()) ∧ cache_inv c' d' ∧ same_sectors c d c' d' ∧
    (is_valid sl = true → content d' (sector_id sl) = block sl) ∧
    (∀ s, addressable d s → s ≠ sector_id sl → content d' s = content d s).
Proof.
  intros Hinv Hi. unfold Slot_flush. rewrite (bind_Ok _ _ _ _ _ (get_slot_ok c d i sl Hi)).
  pose proof (inv_slots _ _ Hinv i sl Hi) as [Hb Hs].
  destruct (is_dirty sl) eqn:Hd.
  - destruct (is_valid sl) eqn:Hv; [|by destruct Hs].
    destruct (write_back_ok c d i sl Hinv Hi Hv) as (d' & Hw & ? & ? & ? & ?).
    exists d'. cbv zeta. split_and!; try done. unfold write_back in Hw.
    by rewrite (bind_Ok _ _ _ _ _ (get_slot_ok c d i sl Hi)) in Hw.
  - exists d. cbv zeta.
    assert (slot_set_dirty false sl = sl) as -> by (destruct sl; cbn in *; by subst).
    rewrite list_insert_id by done. split_and!; [by destruct c|by destruct c| | |done].
    + destruct c. apply same_refl.
    + intros Hv. rewrite Hv in Hs. symmetry. by apply Hs.
Qed.

Lemma cache_hit_inv c d i sl :
  cache_inv c d → cache c !! i = Some sl →
  let c' := {| cache := <[i:=slot_set_used true sl]> (cache c); hand := i |} in
  cache_inv c' d ∧ same_sectors c d c' d.
Proof.
  intros Hinv Hi. apply (inv_relabel c d i sl (slot_set_used true sl) i); try done.
  rewrite <-(inv_length _ _ Hinv). by eapply lookup_lt_Some.
Qed.
End Contract.

Section Theorems.
Context {cfg : Config} {bd : BlockDevice} {Hcfg : ConfigOk cfg} {Hbd : DeviceOk cfg bd}.
Implicit Types (c : SlotCache) (d : dev) (s : Z).

(** The device changes one sector that no other slot holds. *)
Lemma slot_inv_other_write d d' s sj b :
  slot_inv d sj → (is_valid sj = true → sector_id sj ≠ s) →
  content d' s = b → (∀ s', addressable d s' → s' ≠ s → content d' s' = content d s') →
  (∀ s', addressable d' s' ↔ addressable d s') → slot_inv d' sj.
Proof.
  intros [Hb Hs] Hne Hc Ho Ha. split; [done|]. destruct (is_valid sj) eqn:Hv; [|done].
  destruct Hs as [Hadr Hcl]. split; [by apply Ha|]. intros Hd. rewrite Ho; auto.
Qed.

Lemma write_ok c d s b :
  cache_inv c d → addressable d s → block_ok b →
  ∃ c' d', write s b (c, d) = ((c', d'), Ok ()) ∧ cache_inv c' d' ∧
    frame (λ s', s' = s) c d c' d' ∧ seen c' d' s = b ∧ content d' s = b.
Proof.
  intros Hinv Ha Hb. destruct (io_write_ok d s b Ha Hb) as (d' & Hw & Hc & Ho & Had).
  unfold write. destruct (cache_hit_ok c d s Hinv) as [(i & sl & Hi & Hv & <- & Hr)|[Hm Hr]];
    rewrite (bind_Ok _ _ _ _ _ Hr).
  - set (sl' := slot_set_dirty false (slot_set_block b (slot_set_used true sl))).
    assert (Hil : (i < length (cache c))%nat) by by eapply lookup_lt_Some.
    exists {| cache := <[i:=sl']> (cache c); hand := i |}, d'. split.
    { unfold mbind, M_bind, get_slot, put_slot, zoom. cbn [fst snd cache hand].
      rewrite list_lookup_insert_eq by done. cbn [fst snd cache hand view put lsnd].
      rewrite Hw, list_insert_insert_eq. done. }
    assert (Hinv' : cache_inv {| cache := <[i:=sl']> (cache c); hand := i |} d').
    { eapply (inv_insert c d _ d' i sl'); [done|done|cbn; by rewrite <-(inv_length _ _ Hinv)|..].
      - split; [done|]. cbn. rewrite Hv. split; [by apply Had|by intros _].
      - intros j sj Hne Hj.
        eapply slot_inv_other_write;
          [exact (inv_slots _ _ Hinv j sj Hj)| |exact Hc|exact Ho|exact Had].
        intros Hvj Heq. destruct Hne. by eapply (inv_unique c d).
      - intros _ j sj Hne Hj Hvj Heq. destruct Hne. by eapply (inv_unique c d). }
    split_and!; [done| | |done].
    + split; [done|]. intros s Hs Hne. apply keep_sector; [|left; auto].
      eapply (sector_other c d _ d' i sl sl'); [done..|cbn; auto|cbn; auto|by intros _; apply Ho].
    + apply (sector_hit _ d' i sl'); [done| |done]. cbn. by apply list_lookup_insert_eq.
  - exists c, d'. split.
    { unfold mbind, M_bind, zoom. cbn. by rewrite Hw. }
    assert (Hinv' : cache_inv c d').
    { destruct Hinv as [? ? Hsl ?]. split; [done|done| |done]. intros j sj Hj.
      eapply slot_inv_other_write; [by eapply Hsl|by apply (Hm j)|exact Hc|done|done]. }
    split_and!; [done| |by rewrite sector_miss|done]. split; [done|].
    intros s' Hs' Hne. apply keep_sector; [|left; auto]. destruct (hit_cases c s') as [(j & sj & Hj & Hvj & <-)|Hm'].
    + by rewrite !(sector_hit _ _ j) by done.
    + rewrite !sector_miss by done. by apply Ho.
Qed.

Lemma flush_loop_ok k n c d :
  cache_inv c d → (k + n = SLOTS)%nat →
  (∀ j sl, (j < k)%nat → cache c !! j = Some sl → is_dirty sl = false) →
  ∃ c' d', for_each (seq k n) Slot_flush (c, d) = ((c', d'), Ok ()) ∧ cache_inv c' d' ∧
    same_sectors c d c' d' ∧ (∀ j sl, cache c' !! j = Some sl → is_dirty sl = false).
Proof.
  revert k c d. induction n as [|n IH]; intros k c d Hinv Hkn Hcl.
  { exists c, d. split_and!; [done|done|apply same_refl|]. intros j sl Hj. apply (Hcl j); [|done].
    apply lookup_lt_Some in Hj. rewrite (inv_length _ _ Hinv) in Hj. lia. }
  destruct (lookup_lt_is_Some_2 (cache c) k) as [sl Hsl]; [rewrite (inv_length _ _ Hinv); lia|].
  destruct (Slot_flush_ok c d k sl Hinv Hsl) as (d1 & Hf & Hinv1 & Hs1 & _).
  cbn [seq for_each]. rewrite (bind_Ok _ _ _ _ _ Hf).
  destruct (IH (S k) _ d1 Hinv1) as (c' & d' & Hr & Hinv' & Hs' & Hd'); [lia| |].
  { intros j sj Hj. cbn. intros [(<- & <- & _)|[Hne Hj']]%list_lookup_insert_Some; [done|].
    apply (Hcl j); [lia|done]. }
  exists c', d'. split_and!; [done|done|by eapply frame_trans|done].
Qed.

Lemma flush_ok c d :
  cache_inv c d →
  ∃ c' d', flush (c, d) = ((c', d'), Ok ()) ∧ cache_inv c' d' ∧ same_sectors c d c' d' ∧
    (∀ i sl, cache c' !! i = Some sl → is_dirty sl = false) ∧
    (∀ s, addressable d s → content d' s = seen c d s).
Proof.
  intros Hinv. destruct (flush_loop_ok 0 SLOTS c d) as (c' & d' & Hr & Hinv' & Hs & Hd);
    [done|lia|lia|].
  exists c', d'. split_and!; [|done|done|done|].
  - unfold flush. cbn [fst]. by rewrite (inv_length _ _ Hinv).
  - intros s Ha. rewrite <-(proj1 (proj2 Hs s Ha (λ f, f))).
    destruct (hit_cases c' s) as [(i & sl & Hi & Hv & <-)|Hm]; [|by rewrite sector_miss].
    rewrite (sector_hit c' d' i) by done. destruct (inv_slots _ _ Hinv' i sl Hi) as [_ Hsl].
    rewrite Hv in Hsl. symmetry. apply Hsl. by eapply Hd.
Qed.

Lemma flush_sector_loop_ok s k n c d :
  cache_inv c d → (k + n = SLOTS)%nat → s ≠ 0 → addressable d s →
  (∀ j sl, (j < k)%nat → cache c !! j = Some sl → sector_id sl ≠ s) →
  ∃ c' d', flush_sector_loop (seq k n) s (c, d) = ((c', d'), Ok ()) ∧ cache_inv c' d' ∧
    same_sectors c d c' d' ∧ content d' s = seen c d s ∧
    (∀ s', addressable d s' → s' ≠ s → content d' s' = content d s').
Proof.
  intros Hinv. revert k. induction n as [|n IH]; intros k Hkn Hs0 Ha Hno.
  { exists c, d. split_and!; [done|done|apply same_refl| |done]. symmetry. apply sector_miss.
    intros j sl Hj _. apply (Hno j); [|done]. apply lookup_lt_Some in Hj.
    rewrite (inv_length _ _ Hinv) in Hj. lia. }
  destruct (lookup_lt_is_Some_2 (cache c) k) as [sl Hsl]; [rewrite (inv_length _ _ Hinv); lia|].
  cbn [seq flush_sector_loop]. rewrite (bind_Ok _ _ _ _ _ (get_slot_ok c d k sl Hsl)).
  destruct (Z.eqb_spec (sector_id sl) s) as [<-|Hne].
  - destruct (Slot_flush_ok c d k sl Hinv Hsl) as (d' & Hf & Hinv' & Hs' & Hc & Ho).
    eexists _, d'. split_and!; [exact Hf|done|done| |done].
    assert (Hv : is_valid sl = true).
    { destruct (is_valid sl) eqn:Hv; [done|].
      destruct (inv_slots _ _ Hinv k sl Hsl) as [_ Hi]. rewrite Hv in Hi. by destruct Hi. }
    rewrite Hc by done. symmetry. by apply (sector_hit c d k).
  - apply IH; [lia|done|done|]. intros j sj Hj Hjl. destruct (decide (j = k)) as [->|].
    + congruence.
    + apply (Hno j); [lia|done].
Qed.

Lemma flush_sector_ok c d s :
  cache_inv c d → s ≠ 0 → addressable d s →
  ∃ c' d', flush_sector s (c, d) = ((c', d'), Ok ()) ∧ cache_inv c' d' ∧
    same_sectors c d c' d' ∧ content d' s = seen c d s ∧
    (∀ s', addressable d s' → s' ≠ s → content d' s' = content d s').
Proof.
  intros Hinv Hs Ha. unfold flush_sector. cbn [fst]. rewrite (inv_length _ _ Hinv).
  apply flush_sector_loop_ok; [done|lia|done|done|lia].
Qed.

Lemma seen_new d s : seen SlotCache_new d s = content d s.
Proof.
  unfold seen. destruct (find (hit s) (cache SlotCache_new)) as [sl|] eqn:Hf; [|done].
  apply find_some in Hf as [Hin Hh]. cbn in Hin. apply list_elem_of_In, elem_of_replicate in Hin as [-> _].
  by apply hit_true in Hh as [? _].
Qed.
Lemma SlotCache_new_inv d : cache_inv SlotCache_new d.
Proof.
  pose proof SLOTS_pos. pose proof SIZE_range. split; cbn.
  - apply length_replicate.
  - done.
  - intros i sl [-> _]%lookup_replicate. split; [|done].
    split; [apply zeros_len; lia|apply zeros_bytes].
  - intros i j si sj [-> _]%lookup_replicate _. done.
Qed.

(** C27 - the cache refines a plain array of sectors: from any state
    satisfying the invariant, reading a sector yields its current bytes,
    writing through a mutable slot or writing a full block changes exactly
    that sector, and the invariant is kept. *)
Theorem cache_refines_array c d s :
  cache_inv c d → addressable d s →
  (∃ c' d', fetch s (c, d) = ((c', d'), Ok (seen c d s)) ∧
     cache_inv c' d' ∧ same_sectors c d c' d') ∧
  (∀ f b, f (seen c d s) = Ok b → block_ok b →
     ∃ c' d', update s f (c, d) = ((c', d'), Ok ()) ∧ cache_inv c' d' ∧
       frame (λ s', s' = s) c d c' d' ∧ seen c' d' s = b) ∧
  (∀ b, block_ok b →
     ∃ c' d', write s b (c, d) = ((c', d'), Ok ()) ∧ cache_inv c' d' ∧
       frame (λ s', s' = s) c d c' d' ∧ seen c' d' s = b ∧ content d' s = b).
Proof. intros. split_and!; intros; [by apply fetch_ok|by apply update_ok|by apply write_ok]. Qed.

(** C31 - flushing the cache makes the device hold exactly what readers of
    the cache saw, leaves no dirty slot, and changes nothing they see. *)
Theorem flush_persists c d :
  cache_inv c d →
  ∃ c' d', flush (c, d) = ((c', d'), Ok ()) ∧ cache_inv c' d' ∧ same_sectors c d c' d' ∧
    (∀ i sl, cache c' !! i = Some sl → is_dirty sl = false) ∧
    (∀ s, addressable d s → content d' s = seen c d s).
Proof. apply flush_ok. Qed.

(** flushing one sector other than sector 0 makes that sector durable
    and writes no other sector. *)
Theorem flush_sector_persists c d s :
  cache_inv c d → s ≠ 0 → addressable d s →
  ∃ c' d', flush_sector s (c, d) = ((c', d'), Ok ()) ∧ cache_inv c' d' ∧
    same_sectors c d c' d' ∧ content d' s = seen c d s ∧
    (∀ s', addressable d s' → s' ≠ s → content d' s' = content d s').
Proof. apply flush_sector_ok. Qed.
End Theorems.

(** ** A failing device

    What the cache keeps when a transfer fails, for any device.  Neither state
    satisfies [cache_inv]: the slot is clean and valid, and is not what the
    device holds. *)
Section Failures.
Context {cfg : Config} {bd : BlockDevice}.
Implicit Types (c : SlotCache) (d : dev).

(** A failed read: the victim keeps the label of its old sector, with whatever
    the device left in the buffer. *)
Lemma failed_read_keeps_label c c0 c1 d d1 d2 sid i sl buf e :
  cache_hit sid (c, d) = ((c0, d), Ok None) → choose_victim (c0, d) = ((c1, d1), Ok i) →
  cache c1 !! i = Some sl → dev_read sid (block sl) d1 = ((d2, buf), Err e) →
  read_inner sid (c, d) =
    (({| cache := <[i := slot_set_block buf sl]> (cache c1); hand := hand c1 |}, d2), Err (Io e)).
Proof.
  intros Hh Hv Hi Hr. unfold read_inner. rewrite (bind_Ok _ _ _ _ _ Hh), (bind_Ok _ _ _ _ _ Hv).
  rewrite (bind_Ok (get_slot i) _ _ (c1, d1) sl) by (unfold get_slot; cbn; by rewrite Hi).
  rewrite (bind_Ok (device_read _ _) _ _ (c1, d2) (buf, Err e)) by (unfold device_read; cbn; by rewrite Hr).
  by rewrite (bind_Ok _ _ _ ({| cache := <[i := slot_set_block buf sl]> (cache c1); hand := hand c1 |}, d2) ()) by done.
Qed.

(** A failed write-through: the slot has the new bytes and is clean, so they
    are never written. *)
Lemma failed_write_leaves_clean c c0 d d' sid i sl b e :
  cache_hit sid (c, d) = ((c0, d), Ok (Some i)) → cache c0 !! i = Some sl →
  dev_write sid b d = (d', Err e) →
  write sid b (c, d) =
    (({| cache := <[i := slot_set_dirty false (slot_set_block b sl)]> (cache c0); hand := hand c0 |}, d'), Err (Io e)).
Proof.
  intros Hh Hi Hw. unfold write. rewrite (bind_Ok _ _ _ _ _ Hh).
  rewrite (bind_Ok _ _ _ ({| cache := <[i := slot_set_dirty false (slot_set_block b sl)]> (cache c0); hand := hand c0 |}, d) ()).
  2: { by rewrite (bind_Ok (get_slot i) _ _ (c0, d) sl) by (unfold get_slot; cbn; by rewrite Hi). }
  eapply zoom_to; [unfold io_write; cbn; by rewrite Hw|done].
Qed.
End Failures.

(** ** Termination of the clock, on any device *)
Section Termination.
Context {cfg : Config} {bd : BlockDevice}.

Lemma choose_victim_loop_terminates fuel c d :
  length (cache c) = SLOTS → (hand c < SLOTS)%nat → (used_count (cache c) < fuel)%nat →
  (∀ a b d0, snd (dev_write a b d0) ≠ OutOfFuel) →
  snd (choose_victim_loop fuel (c, d)) ≠ OutOfFuel.
Proof.
  intros Hlen Hh Hf Hdev. revert c d Hlen Hh Hf. induction fuel as [|fuel IH];
    intros c d Hlen Hh Hf; [lia|].
  cbn [choose_victim_loop]. unfold get_hand at 1.
  rewrite (bind_Ok _ _ _ (c, d) (hand c)) by done.
  destruct (advance_hand_ok c d Hh) as [Ha Hlt]. rewrite (bind_Ok _ _ _ _ _ Ha).
  set (c1 := {| cache := cache c; hand := _ |}).
  destruct (lookup_lt_is_Some_2 (cache c) (hand c)) as [sl Hsl]; [lia|].
  rewrite (bind_Ok _ _ _ _ _ (get_slot_ok c1 d _ sl Hsl)).
  destruct (negb (is_valid sl)); [done|]. destruct (is_used sl) eqn:Hu.
  - unfold put_slot, mbind, M_bind. cbn [fst snd cache hand].
    apply IH; cbn; [by rewrite length_insert|done|].
    pose proof (used_count_clear (cache c) (hand c) sl Hsl Hu). cbn in *. lia.
  - destruct (is_dirty sl); [|done]. unfold write_back, mbind, M_bind, zoom, io_write, put_slot.
    rewrite (get_slot_ok c1 d _ sl Hsl). cbn [view lsnd snd].
    pose proof (Hdev (sector_id sl) (block sl) d) as Hw.
    by destruct (dev_write _ _ _) as [d' []].
Qed.

(** choosing an eviction victim terminates within one turn of the clock
    hand plus one step, whatever the slots hold and however the device
    behaves. *)
Theorem choose_victim_terminates c d :
  length (cache c) = SLOTS → (hand c < SLOTS)%nat →
  (∀ a b d0, snd (dev_write a b d0) ≠ OutOfFuel) →
  snd (choose_victim_loop (S SLOTS) (c, d)) ≠ OutOfFuel ∧
  snd (choose_victim (c, d)) ≠ OutOfFuel.
Proof.
  intros Hlen Hh Hdev. pose proof (used_count_le (cache c)).
  split; apply choose_victim_loop_terminates; auto; lia.
Qed.
End Termination.

(** * Witnesses and replays of the unit tests *)

(** A device of [n] zeroed sectors, and the contract instance for it. *)
Definition blank (n : nat) : DummyBlockDevice := DummyBlockDevice_new n.
Abbreviation blank_ok := (dummy_device_ok debug_build eq_refl).
Lemma blank_addressable n s : 0 ≤ s < Z.of_nat n → dummy_addressable (blank n) s.
Proof.
  intros. split.
  - unfold len. cbn. by rewrite length_replicate.
  - apply Forall_replicate. split; [by rewrite zeros_len|apply zeros_bytes].
Qed.

Abbreviation dev0 := (blank 8).
Abbreviation new_cache := (@SlotCache_new debug_build).

Lemma cache_refines_array_witness :
  cache_inv (Hbd:=blank_ok) new_cache dev0 ∧
  ∃ c' d', @fetch debug_build dummy_device 3 (new_cache, dev0) = ((c', d'), Ok (zeros 512)).
Proof.
  assert (Hinv : cache_inv (Hbd:=blank_ok) new_cache dev0).
  { apply (SlotCache_new_inv (Hcfg:=debug_build_ok)). }
  split; [exact Hinv|].
  destruct (cache_refines_array (Hcfg:=debug_build_ok) (Hbd:=blank_ok) new_cache dev0 3 Hinv
    (blank_addressable 8 3 ltac:(lia))) as [(c' & d' & Hf & _) _].
  exists c', d'. exact Hf.
Defined.

Lemma flush_persists_witness :
  ∃ c' d', flush (bd:=dummy_device) (new_cache, dev0) = ((c', d'), Ok ()).
Proof.
  destruct (flush_persists (Hbd:=blank_ok) new_cache dev0
    (SlotCache_new_inv (Hcfg:=debug_build_ok) _)) as (c' & d' & Hf & _).
  exists c', d'. exact Hf.
Defined.

Lemma flush_sector_persists_witness :
  ∃ c' d', flush_sector (bd:=dummy_device) 5 (new_cache, dev0) = ((c', d'), Ok ()) ∧
    dummy_content d' 5 = zeros 512.
Proof.
  destruct (flush_sector_persists (Hbd:=blank_ok) new_cache dev0 5
    (SlotCache_new_inv (Hcfg:=debug_build_ok) _) ltac:(lia)
    (blank_addressable 8 5 ltac:(lia))) as (c' & d' & Hf & _ & _ & Hc & _).
  exists c', d'. split; [exact Hf|exact Hc].
Defined.

Lemma choose_victim_terminates_witness :
  snd (@choose_victim debug_build dummy_device (new_cache, dev0)) ≠ OutOfFuel.
Proof.
  refine (proj2 (choose_victim_terminates (cfg:=debug_build) (bd:=dummy_device)
    new_cache dev0 eq_refl _ _)).
  - vm_compute. lia.
  - intros a b d0. cbn. unfold dummy_write. by destruct (set_index _ _ _).
Defined.

(** The unit tests of src/slot_cache.rs *)
Section Tests.
#[local] Existing Instance debug_build.
#[local] Existing Instance dummy_device.
Abbreviation TM := (M (SlotCache * dev) err) (only parsing).

(** [slot.as_mut_slice()[..n].copy_from_slice(bytes)] *)
Definition put_bytes (bytes : list Z) (b : list Z) : outcome err (list Z) :=
  copy_into b 0 (len bytes) bytes.
Definition first_bytes (d : DummyBlockDevice) (s : Z) (n : nat) : list Z :=
  take n (dummy_content d s).

Example read_and_write_cache :
  let '((c, d), o) :=
    (update 0 (put_bytes [1; 2; 3; 4]) ;; flush) (new_cache, blank 4) in
  o = Ok () ∧ first_bytes d 0 4 = [1; 2; 3; 4] ∧ forallb (negb ∘ is_dirty) (cache c) = true.
Proof. vm_compute. auto. Qed.

Example evicted_cache_should_flush :
  let '((c, d), o) :=
    (update 0 (put_bytes [1; 2; 3; 4]) ;; update 1 (put_bytes [5; 6; 7; 8]) ;;
     update 2 (put_bytes [9; 10; 11; 12]) ;; update 3 (put_bytes [13; 14; 15; 16]) ;;
     update 4 (put_bytes [17; 18; 19; 20])) (new_cache, dev0) in
  o = Ok () ∧ first_bytes d 0 4 = [1; 2; 3; 4] ∧ first_bytes d 1 4 = [0; 0; 0; 0].
Proof. vm_compute. auto. Qed.

Example cache_hit_returns_the_slot_holding_that_sector :
  let d := {| blocks := (λ i, i :: zeros 511) <$> seqZ 0 8; write_count := 0 |} in
  let visit (s : Z) : TM () := b ← fetch s; lift (assert (b !!! 0%nat =? s)) in
  snd (for_each [0; 1; 2; 3; 2; 0; 3; 1; 3; 3; 0] visit (new_cache, d)) = Ok ().
Proof. vm_compute. auto. Qed.
End Tests.
