(* ===== verification/Regions.v ===== *)
(** * Caches that share a device

    The file system keeps three sector caches (FAT, bitmap, data) over one
    device.  Each cache only ever holds sectors of its own region, so an
    operation of one cache leaves the rest of the device alone.  The argument
    is made once, for every operation: a device restricted to a region, with
    everything outside it frozen, meets the device contract again
    ([region_device]), so the theorems about a cache that owns its device hold
    for a cache that owns a region of it. *)

From S2P Require Import Prelude Crates Errors Device SlotCache.

Section Regions.
Context {cfg : Config} {bd : BlockDevice} {Hbd : DeviceOk cfg bd}.
Implicit Types (R P : Z → Prop) (c : SlotCache) (d : dev) (s : Z).

(** Nothing outside the region differs from [d0]. *)
Definition outside R d0 d : Prop :=
  (∀ s, addressable d s ↔ addressable d0 s) ∧
  (∀ s, addressable d0 s → ¬ R s → content d s = content d0 s).

Lemma outside_refl R d : outside R d d.
Proof. split; done. Qed.
Lemma outside_trans R d0 d1 d2 : outside R d0 d1 → outside R d1 d2 → outside R d0 d2.
Proof.
  intros [Ha Hc] [Ha' Hc']. split; [by intros s; rewrite Ha'|].
  intros s Hs HR. rewrite Hc' by (by rewrite ?Ha). auto.
Qed.
Lemma outside_same R d0 d d' :
  (∀ s, content d' s = content d s) → (∀ s, addressable d' s ↔ addressable d s) →
  outside R d0 d' ↔ outside R d0 d.
Proof.
  intros Hc Ha. unfold outside. split; intros [H1 H2]; split; intros s.
  - by rewrite <-Ha.
  - intros. rewrite <-Hc. auto.
  - by rewrite Ha.
  - intros. rewrite Hc. auto.
Qed.
Lemma outside_write R d0 d d' s :
  R s → (∀ s', addressable d s' → s' ≠ s → content d' s' = content d s') →
  (∀ s', addressable d' s' ↔ addressable d s') →
  outside R d0 d' ↔ outside R d0 d.
Proof.
  intros HR Hc Ha. unfold outside.
  split; intros [H1 H2]; (split; [intros s'; by rewrite ?Ha, <-?H1, ?Ha|]); intros s' Hs' HR';
    (assert (s' ≠ s) by (by intros ->)).
  - rewrite <-Hc by (rewrite <-?Ha, ?H1; done). auto.
  - rewrite Hc by (rewrite ?H1; done). auto.
Qed.

(** The device seen by a cache that owns the region [R], from [d0] on. *)
#[program] Definition region_device R d0 : DeviceOk cfg bd := {|
  content := content;
  addressable d s := addressable d s ∧ R s ∧ outside R d0 d |}.
Next Obligation. intros R d0 d s (Ha & _). by apply content_bytes. Qed.
Next Obligation.
  intros R d0 d s buf (Ha & HR & Ho) Hl. destruct (dev_read_ok d s buf Ha Hl) as (d' & Hr & Hc & Had).
  exists d'. split_and!; [done|done|]. intros s'. by rewrite Had, (outside_same R d0 d d').
Qed.
Next Obligation.
  intros R d0 d s b (Ha & HR & Ho) Hl Hb.
  destruct (dev_write_ok d s b Ha Hl Hb) as (d' & Hw & Hc & Hother & Had).
  exists d'. split_and!; [done|done|by intros s' (? & _); auto|].
  intros s'. by rewrite Had, (outside_write R d0 d d' s).
Qed.

(** A cache that owns a region: its invariant, and only labels of the region. *)
Record owns R c d : Prop := {
  own_inv : cache_inv c d;
  own_labels i sl : cache c !! i = Some sl → is_valid sl = true → R (sector_id sl);
}.

Lemma owns_enter R c d : owns R c d → cache_inv (Hbd:=region_device R d) c d.
Proof.
  intros [[Hlen Hh Hs Hu] Hl]. split; [done..| |done]. intros i sl Hi.
  destruct (Hs i sl Hi) as [Hb Hsl]. split; [exact Hb|].
  destruct (is_valid sl) eqn:Hv; [|exact Hsl]. destruct Hsl as [Ha Hc].
  split; [|exact Hc]. split_and!; [done|by eapply Hl|apply outside_refl].
Qed.

Lemma owns_leave R d0 c d : cache_inv (Hbd:=region_device R d0) c d → owns R c d.
Proof.
  intros [Hlen Hh Hs Hu]. split.
  - split; [done..| |done]. intros i sl Hi. destruct (Hs i sl Hi) as [Hb Hsl]. split; [exact Hb|].
    destruct (is_valid sl); [|exact Hsl]. destruct Hsl as [(Ha & _) Hc]. by split.
  - intros i sl Hi Hv. destruct (Hs i sl Hi) as [_ Hsl]. rewrite Hv in Hsl. apply Hsl.
Qed.

(** Of the region, only the sectors in [P] look different; nothing else does. *)
Definition confined R P c d c' d' : Prop :=
  outside R d d' ∧
  (∀ s, addressable d s → R s → ¬ P s →
     seen c' d' s = seen c d s ∧ (saved c d s → saved c' d' s)).

Lemma confined_refl R P c d : confined R P c d c d.
Proof. split; [apply outside_refl|done]. Qed.

Lemma frame_leave R P c d c' d' s :
  addressable d s → R s → frame (Hbd:=region_device R d) P c d c' d' → confined R P c d c' d'.
Proof.
  intros Ha HR [Hfa Hfs]. split.
  - destruct (proj2 (Hfa s)) as (_ & _ & Ho); [|done]. split_and!; [done..|apply outside_refl].
  - intros s' Ha' HR' HP. apply (Hfs s'); [|done]. split_and!; [done..|apply outside_refl].
Qed.

(** A cache is not disturbed by what happens outside its region. *)
Lemma owns_other R R' c d d' :
  (∀ s, R s → ¬ R' s) → owns R c d → outside R' d d' →
  owns R c d' ∧ (∀ s, addressable d s → R s → seen c d' s = seen c d s ∧ (saved c d s → saved c d' s)).
Proof.
  intros Hdis [Hinv Hl] [Ha Hc].
  assert (Hinv' : cache_inv c d').
  { destruct Hinv as [? ? Hs ?]. split; [done..| |done]. intros i sl Hi.
    destruct (Hs i sl Hi) as [Hb Hsl]. split; [done|]. destruct (is_valid sl) eqn:Hv; [|done].
    destruct Hsl as [Has Hcs]. split; [by apply Ha|]. intros Hd. rewrite Hcs by done.
    symmetry. apply Hc; [done|]. by eapply Hdis, Hl. }
  split; [by split|]. intros s Has HR. apply keep_sector; [|left; apply Hc; [done|by apply Hdis]].
  destruct (hit_cases c s) as [(i & sl & Hi & Hv & <-)|Hm].
  - by rewrite !(sector_hit _ _ i) by done.
  - rewrite !sector_miss by done. apply Hc; [done|]. by apply Hdis.
Qed.

Lemma owns_new R d (Hcfg : ConfigOk cfg) : owns R SlotCache_new d.
Proof. split; [apply SlotCache_new_inv|]. by intros i sl [-> _]%lookup_replicate. Qed.
End Regions.

(** ** The cache operations on a region *)
Section RegionOps.
Context {cfg : Config} {bd : BlockDevice} {Hcfg : ConfigOk cfg} {Hbd : DeviceOk cfg bd}.
Implicit Types (R P : Z → Prop) (c : SlotCache) (d : dev) (s : Z).

Ltac in_region R d s :=
  assert (addressable (DeviceOk:=region_device R d) d s)
    by (split_and!; [done|done|apply outside_refl]).

Lemma region_fetch R c d s :
  owns R c d → addressable d s → R s →
  ∃ c' d', fetch s (c, d) = ((c', d'), Ok (seen c d s)) ∧
    owns R c' d' ∧ confined R (λ _, False) c d c' d'.
Proof.
  intros Hown Ha HR. in_region R d s.
  destruct (fetch_ok (Hbd:=region_device R d) c d s (owns_enter _ _ _ Hown))
    as (c' & d' & Hf & Hinv' & Hfr); [done|].
  exists c', d'. split_and!; [exact Hf|by eapply owns_leave|by eapply frame_leave].
Qed.

Lemma region_update R c d s f b :
  owns R c d → addressable d s → R s → f (seen c d s) = Ok b → block_ok b →
  ∃ c' d', update s f (c, d) = ((c', d'), Ok ()) ∧
    owns R c' d' ∧ confined R (λ s', s' = s) c d c' d' ∧ seen c' d' s = b.
Proof.
  intros Hown Ha HR Hf Hb. in_region R d s.
  destruct (update_ok (Hbd:=region_device R d) c d s f b (owns_enter _ _ _ Hown))
    as (c' & d' & Hu & Hinv' & Hfr & Hs); [done..|].
  exists c', d'. split_and!; [exact Hu|by eapply owns_leave|by eapply frame_leave|exact Hs].
Qed.

Lemma region_write R c d s b :
  owns R c d → addressable d s → R s → block_ok b →
  ∃ c' d', write s b (c, d) = ((c', d'), Ok ()) ∧
    owns R c' d' ∧ confined R (λ s', s' = s) c d c' d' ∧ seen c' d' s = b ∧ content d' s = b.
Proof.
  intros Hown Ha HR Hb. in_region R d s.
  destruct (write_ok (Hbd:=region_device R d) c d s b (owns_enter _ _ _ Hown))
    as (c' & d' & Hu & Hinv' & Hfr & Hs & Hcn); [done..|].
  exists c', d'. split_and!; [exact Hu|by eapply owns_leave|by eapply frame_leave|exact Hs|exact Hcn].
Qed.

Lemma region_flush R c d s :
  owns R c d → addressable d s → R s →
  ∃ c' d', flush (c, d) = ((c', d'), Ok ()) ∧
    owns R c' d' ∧ confined R (λ _, False) c d c' d' ∧
    (∀ s, addressable d s → R s → content d' s = seen c d s).
Proof.
  intros Hown Ha HR. in_region R d s.
  destruct (flush_ok (Hbd:=region_device R d) c d (owns_enter _ _ _ Hown))
    as (c' & d' & Hf & Hinv' & Hfr & _ & Hc).
  exists c', d'. split_and!; [exact Hf|by eapply owns_leave|by eapply frame_leave|].
  intros s' Ha' HR'. apply (Hc s'). split_and!; [done..|apply outside_refl].
Qed.

Lemma region_flush_sector R c d s :
  owns R c d → addressable d s → R s → s ≠ 0 →
  ∃ c' d', flush_sector s (c, d) = ((c', d'), Ok ()) ∧
    owns R c' d' ∧ confined R (λ _, False) c d c' d' ∧ content d' s = seen c d s ∧
    (∀ s', addressable d s' → s' ≠ s → content d' s' = content d s').
Proof.
  intros Hown Ha HR Hs0. in_region R d s.
  destruct (flush_sector_ok (Hbd:=region_device R d) c d s (owns_enter _ _ _ Hown) Hs0)
    as (c' & d' & Hf & Hinv' & Hfr & Hc & _); [done|].
  destruct (flush_sector_ok c d s (own_inv _ _ _ Hown) Hs0 Ha)
    as (c2 & d2 & Hf2 & _ & _ & _ & Ho).
  assert (c2 = c' ∧ d2 = d') as [-> ->] by (rewrite Hf in Hf2; by simplify_eq).
  exists c', d'. split_and!; [exact Hf|by eapply owns_leave|by eapply frame_leave|exact Hc|exact Ho].
Qed.
End RegionOps.
