(* ===== verification/Touched.v ===== *)
(** * The dirty-sector list of an operation: [Touched] of src/file.rs

    Every operation that changes sectors records them in a [FileDirty], a
    fixed-capacity vector; when the operation ends the sectors are written in
    the order data, bitmap, FAT, directory.  The flush itself needs the caches
    of the volume and is in Volume.v. *)

From stdpp Require Import sorting.
From S2P Require Import Prelude Text Crates.

Definition NO_CLUSTER_ID : Z := 0.
Definition DEFAULT_TOUCHED_SECTORS : nat := 6.

Inductive TouchedKind := Data | Fat | Bitmap | Dir | None_.
#[export] Instance TouchedKind_eq_dec : EqDecision TouchedKind.
Proof. solve_decision. Defined.

Definition rank (k : TouchedKind) : Z :=
  match k with Data => 0 | Bitmap => 1 | Fat => 2 | Dir => 3 | None_ => 4 end.

Record TouchedSector := { kind : TouchedKind; sector : Z }.
Definition TouchedSector_new (k : TouchedKind) (s : Z) : TouchedSector :=
  {| kind := k; sector := s |}.

Record FileDirty := {
  sectors : list TouchedSector;
  overflowed : bool;
  is_dir_entry_dirty : bool;
}.
Definition FileDirty_new : FileDirty :=
  {| sectors := []; overflowed := false; is_dir_entry_dirty := false |}.

(** [touched.is_dir_entry_dirty = b] *)
Definition set_dir_entry_dirty (b : bool) (t : FileDirty) : FileDirty :=
  {| sectors := sectors t; overflowed := overflowed t; is_dir_entry_dirty := b |}.

Section Ops.
Context {crates : Crates}.

(** [insert]: a sector already listed, of whatever kind, is not added again;
    a full vector sets [overflowed] *)
Definition insert (touched : TouchedSector) (t : FileDirty) : FileDirty :=
  if existsb (λ x, sector x =? sector touched) (sectors t) then t
  else match vec_push DEFAULT_TOUCHED_SECTORS (sectors t) touched with
       | Some l => {| sectors := l; overflowed := overflowed t;
                      is_dir_entry_dirty := is_dir_entry_dirty t |}
       | None => {| sectors := sectors t; overflowed := true;
                    is_dir_entry_dirty := is_dir_entry_dirty t |}
       end.

(** The same, as an action on the first component of a state. *)
Definition touch {S E} (k : TouchedKind) (s : Z) : M (FileDirty * S) E () :=
  modify (λ st, (insert (TouchedSector_new k s) (fst st), snd st)).
End Ops.

(** [sort_unstable_by_key(|x| (x.kind.rank(), x.sector))] *)
Definition key_le (x y : TouchedSector) : Prop :=
  rank (kind x) < rank (kind y) ∨ (rank (kind x) = rank (kind y) ∧ sector x ≤ sector y).
#[export] Instance key_le_dec : RelDecision key_le.
Proof. unfold RelDecision, key_le. intros. apply _. Defined.
Definition sort (t : FileDirty) : FileDirty :=
  {| sectors := merge_sort key_le (sectors t); overflowed := overflowed t;
     is_dir_entry_dirty := is_dir_entry_dirty t |}.

(** * Specification *)

(** The operation has recorded sector [s]: it is listed, or everything will
    be flushed because the list overflowed. *)
Definition records (t : FileDirty) (s : Z) : Prop :=
  overflowed t = true ∨ s ∈ sector <$> sectors t.

(** At most [DEFAULT_TOUCHED_SECTORS] sectors, none listed twice. *)
Definition dirty_ok (t : FileDirty) : Prop :=
  (length (sectors t) ≤ DEFAULT_TOUCHED_SECTORS)%nat ∧ NoDup (sector <$> sectors t).

(** The list grew, by items that satisfy [K] only. *)
Definition extends (K : TouchedSector → Prop) (t t' : FileDirty) : Prop :=
  (∀ s, records t s → records t' s) ∧
  (∀ x, x ∈ sectors t' → x ∈ sectors t ∨ K x) ∧
  (is_dir_entry_dirty t = true → is_dir_entry_dirty t' = true).

#[export] Instance key_le_total : Total key_le.
Proof. intros x y. unfold key_le. destruct (Ztrichotomy (rank (kind x)) (rank (kind y))) as [?|[?|?]]; lia. Qed.
#[export] Instance key_le_trans : Transitive key_le.
Proof. intros x y z. unfold key_le. lia. Qed.

Section Lemmas.
Context {crates : Crates} {Hcr : CratesOk crates}.

Lemma existsb_sector t s :
  existsb (λ x, Touched.sector x =? s) (sectors t) = true ↔ s ∈ sector <$> sectors t.
Proof.
  rewrite existsb_exists, list_elem_of_fmap. split.
  - intros (x & Hx & Heq). apply Z.eqb_eq in Heq. exists x. split; [by symmetry|]. by apply list_elem_of_In.
  - intros (x & -> & Hx). exists x. split; [by apply list_elem_of_In|apply Z.eqb_refl].
Qed.

Lemma insert_spec x t :
  dirty_ok t →
  dirty_ok (insert x t) ∧ records (insert x t) (sector x) ∧
  (∀ s, records t s → records (insert x t) s) ∧
  (∀ s, s ∈ sector <$> sectors (insert x t) → s = sector x ∨ s ∈ sector <$> sectors t) ∧
  is_dir_entry_dirty (insert x t) = is_dir_entry_dirty t.
Proof.
  intros [Hl Hnd]. unfold insert. destruct (existsb _ _) eqn:He.
  { apply existsb_sector in He. split_and!; auto; [by split|by right]. }
  assert (Hx : sector x ∉ sector <$> sectors t) by (rewrite <-existsb_sector, He; done).
  rewrite vec_push_spec. destruct (decide _) as [Hlt|Hge]; cbn.
  - split_and!; [split|right| | |done]; cbn.
    + rewrite length_app. cbn. lia.
    + rewrite fmap_app. apply NoDup_app. split_and!; [done| |apply NoDup_singleton].
      intros y Hy ->%list_elem_of_singleton. done.
    + rewrite fmap_app. apply elem_of_app. right. by apply list_elem_of_singleton.
    + intros s [?|?]; [by left|right]. cbn. rewrite fmap_app. by apply elem_of_app; left.
    + intros s. rewrite fmap_app, elem_of_app. intros [?|Hs]; [by right|left].
      by apply list_elem_of_singleton in Hs.
  - split_and!; [by split|by left|intros s _; by left|auto|done].
Qed.

Lemma insert_ok x t : dirty_ok t → dirty_ok (insert x t).
Proof. intros Ht. destruct (insert_spec x t Ht) as (? & ? & Hm & _). auto. Qed.
Lemma insert_records x t : dirty_ok t → records (insert x t) (sector x).
Proof. intros Ht. destruct (insert_spec x t Ht) as (? & ? & Hm & _). auto. Qed.
Lemma insert_mono x t s : dirty_ok t → records t s → records (insert x t) s.
Proof. intros Ht. destruct (insert_spec x t Ht) as (? & ? & Hm & _). auto. Qed.

Lemma extends_refl K t : extends K t t.
Proof. by split_and!; auto. Qed.
Lemma extends_trans K t0 t1 t2 : extends K t0 t1 → extends K t1 t2 → extends K t0 t2.
Proof.
  intros (Hm & Hn & Hd) (Hm' & Hn' & Hd'). split_and!; [auto| |auto].
  intros x [?|?]%Hn'; auto.
Qed.
Lemma extends_weaken (K K' : TouchedSector → Prop) t t' :
  (∀ x, K x → K' x) → extends K t t' → extends K' t t'.
Proof. intros HK (Hm & Hn & Hd). split_and!; [auto| |done]. intros x [?|?]%Hn; auto. Qed.
Lemma extends_insert (K : TouchedSector → Prop) x t : dirty_ok t → K x → extends K t (insert x t).
Proof.
  intros Ht HK. destruct (insert_spec x t Ht) as (_ & _ & Hm & _ & Hd). split_and!; [done| |by rewrite Hd].
  intros y. unfold insert. destruct (existsb _ _); [auto|]. rewrite vec_push_spec.
  destruct (decide _); cbn; [|auto]. intros [?| ->%list_elem_of_singleton]%elem_of_app; auto.
Qed.

Lemma FileDirty_new_ok : dirty_ok FileDirty_new.
Proof. split; cbn; [lia|constructor]. Qed.

Lemma sort_spec t :
  sectors (sort t) ≡ₚ sectors t ∧ StronglySorted key_le (sectors (sort t)).
Proof.
  split; [apply merge_sort_Permutation|]. apply StronglySorted_merge_sort; apply _.
Qed.
End Lemmas.
#[export] Hint Resolve insert_ok insert_records insert_mono FileDirty_new_ok extends_refl extends_insert : exfat.
