(* ===== verification/Fat.v ===== *)
(** * src/fat.rs: the file allocation table

    State: the table's location and its sector cache, next to the device (and,
    for [set], the caller's dirty-sector list).  The abstract specification is
    an array of 32-bit entries ([entry]). *)

From S2P Require Import Prelude Text Crates Errors Utils BootSector Device SlotCache Touched.

Definition MIN_CLUSER_ID : Z := 2.
Definition CLUSTER_LEN : Z := 0xFFFFFFF6.
Definition ENTRY_SIZE : Z := 4.
Definition END_OF_CHAIN : Z := 0xFFFFFFFF.

Record Fat := { start_of_fat_sector : option Z; fcache : SlotCache }.

Definition lcache {D} : lens (Fat * D) (SlotCache * D) :=
  Lens (λ s, (fcache (fst s), snd s))
       (λ t s, ({| start_of_fat_sector := start_of_fat_sector (fst s); fcache := fst t |}, snd t)).

Section Ops.
Context {cfg : Config} {crates : Crates} {bd : BlockDevice}.
Abbreviation FM := (M (Fat * dev) err) (only parsing).

Definition Fat_new : Fat := {| start_of_fat_sector := None; fcache := SlotCache_new |}.

Definition flush : FM () := zoom lcache SlotCache.flush.
Definition flush_sector (sector : Z) : FM () := zoom lcache (SlotCache.flush_sector sector).

Definition num_entries : Z := cast u32 (SIZE / ENTRY_SIZE).

Definition get_sector_id (fat : Fat) (cluster_id : Z) : outcome err Z :=
  match start_of_fat_sector fat with
  | Some fat_offset => q ← udiv cluster_id num_entries; add u32 fat_offset q
  | None => Err (Unexpected "attemt to access fat when not initialized")
  end.

(** [chunks[sector_offset].copy_from_slice(&v)] on [as_chunks_mut::<4>] *)
Definition set_chunk (off : Z) (v : list Z) (b : list Z) : outcome err (list Z) :=
  if (0 <=? off) && (off <? len b / ENTRY_SIZE)
  then copy_into b (ENTRY_SIZE * off) (ENTRY_SIZE * off + ENTRY_SIZE) v else Panic.

Definition set (cluster_id cluster_id_to : Z) : M (FileDirty * (Fat * dev)) err () :=
  lift (assert (MIN_CLUSER_ID <=? cluster_id)) ;;
  fat ← gets (fst ∘ snd);
  sector_id ← lift (get_sector_id fat cluster_id);
  touch Touched.Fat sector_id ;;
  i ← zoom lsnd (zoom lcache (read_mut sector_id));
  sector_offset ← lift (urem cluster_id num_entries);
  zoom lsnd (zoom lcache
    (as_mut_slice i (set_chunk sector_offset (to_le_bytes 4 cluster_id_to)))).

Definition next_cluster_in_fat_chain (cluster_id : Z) : FM (option Z) :=
  lift (assert (MIN_CLUSER_ID <=? cluster_id)) ;;
  fat ← gets fst;
  sector_id ← lift (get_sector_id fat cluster_id);
  sector_offset ← lift (urem cluster_id num_entries);
  slice ← zoom lcache (fetch sector_id);
  chunk ← lift (index (as_chunks 4 slice) sector_offset);
  let next_cluster_id := from_le_bytes chunk in
  mret (if (MIN_CLUSER_ID <=? next_cluster_id) && (next_cluster_id <=? CLUSTER_LEN)
        then Some next_cluster_id else None).
End Ops.

(** * Specification *)
Section Spec.
Context {cfg : Config} {bd : BlockDevice} {Hbd : DeviceOk cfg bd}.

Definition per_sector : Z := SIZE / 4.

(** The table as an array of entries, [s0] being its first sector. *)
Definition entry (s0 : Z) (fat : Fat) (d : dev) (id : Z) : Z :=
  from_le_bytes (take 4 (drop (Z.to_nat (4 * (id mod per_sector)))
    (seen (fcache fat) d (s0 + id / per_sector)))).

(** What the code takes an entry to mean. *)
Definition successor (e : Z) : option Z :=
  if (2 <=? e) && (e <=? 0xFFFFFFF6) then Some e else None.

(** Cluster [id] has an entry the code can reach. *)
Definition has_entry (s0 : Z) (d : dev) (id : Z) : Prop :=
  2 ≤ id < 2 ^ 32 ∧ 0 ≤ s0 ∧ s0 + id / per_sector < 2 ^ 32 ∧
  addressable d (s0 + id / per_sector).

Record fat_inv (s0 : Z) (fat : Fat) (d : dev) : Prop := {
  fat_start : start_of_fat_sector fat = Some s0;
  fat_cache_inv : cache_inv (fcache fat) d;
}.

(** The entries from [id] on form the chain [l] ([l] excludes [id]). *)
Fixpoint chain (s0 : Z) (fat : Fat) (d : dev) (id : Z) (l : list Z) : Prop :=
  match l with
  | [] => successor (entry s0 fat d id) = None
  | id' :: l => successor (entry s0 fat d id) = Some id' ∧ chain s0 fat d id' l
  end.
End Spec.

(** * Lemmas and theorems *)
Section Theorems.
Context {cfg : Config} {crates : Crates} {bd : BlockDevice}.
Context {Hcfg : ConfigOk cfg} {Hcr : CratesOk crates} {Hbd : DeviceOk cfg bd}.
Implicit Types (fat : Fat) (d : dev) (t : FileDirty).

Lemma per_sector_size : SIZE = 4 * per_sector ∧ 8 ≤ per_sector ≤ 16384.
Proof. pose proof SIZE_range. pose proof SIZE_entries. unfold per_sector. dlia. Qed.
Lemma num_entries_eq : num_entries = per_sector.
Proof.
  destruct per_sector_size. unfold num_entries, per_sector, ENTRY_SIZE in *.
  apply cast_id. lia.
Qed.

Lemma offset_range id : 2 ≤ id → 0 ≤ id mod per_sector < per_sector ∧ 0 ≤ id / per_sector.
Proof.
  intros. destruct per_sector_size. split; [apply Z.mod_pos_bound; lia|].
  apply Z.div_pos; lia.
Qed.

Lemma get_sector_id_ok fat d s0 id :
  fat_inv s0 fat d → has_entry s0 d id →
  get_sector_id fat id = Ok (s0 + id / per_sector).
Proof.
  intros [Hs _] (Hid & ? & ? & _). unfold get_sector_id. rewrite Hs, num_entries_eq.
  destruct per_sector_size. rewrite udiv_ok by lia. cbn [mbind outcome_bind].
  destruct (offset_range id); [lia|]. apply add_ok. lia.
Qed.

Lemma take_splice_same (b src : list Z) (a : Z) :
  0 ≤ a → a + len src ≤ len b → take (length src) (drop (Z.to_nat a) (splice b a src)) = src.
Proof.
  unfold splice, len. intros.
  rewrite drop_app_ge by (rewrite length_take; lia). rewrite length_take.
  replace (_ - _)%nat with 0%nat by lia. rewrite drop_0. by apply take_app_length.
Qed.
Lemma take_splice_other (b src : list Z) (a c : Z) (n : nat) :
  0 ≤ a → 0 ≤ c → a + len src ≤ len b → (c + Z.of_nat n ≤ a ∨ a + len src ≤ c) →
  take n (drop (Z.to_nat c) (splice b a src)) = take n (drop (Z.to_nat c) b).
Proof.
  intros Ha Hc Hl Hd. apply list_eq. intros i. destruct (decide (i < n)%nat) as [Hi|Hi].
  - rewrite !lookup_take_lt, !lookup_drop by done. apply lookup_splice_out; [lia..|].
    unfold len in *. lia.
  - rewrite !lookup_take_ge by lia. done.
Qed.

(** A chain only depends on the entries of its clusters. *)
Lemma chain_frame s0 fat d fat' d' id l :
  Forall (λ x, entry s0 fat' d' x = entry s0 fat d x) (id :: l) →
  chain s0 fat d id l → chain s0 fat' d' id l.
Proof.
  revert id. induction l as [|x l IH]; intros id Hall; cbn [chain];
    inversion Hall as [|? ? Hhd Htl]; subst; rewrite Hhd; [done|].
  intros [? ?]. auto.
Qed.

Lemma set_chunk_ok b off v :
  block_ok b → 0 ≤ off < per_sector → Forall byte_ok v → len v = 4 →
  set_chunk off v b = Ok (splice b (4 * off) v) ∧ block_ok (splice b (4 * off) v).
Proof.
  intros [Hl Hb] Ho Hv Hlv. destruct per_sector_size as [HS _]. unfold set_chunk, ENTRY_SIZE.
  rewrite Hl, (proj2 (Z.leb_le _ _)), (proj2 (Z.ltb_lt _ _)) by (unfold per_sector in *; lia).
  cbn [andb]. rewrite copy_into_ok by lia. split; [done|]. split.
  - unfold len in *. rewrite length_splice; unfold len; lia.
  - unfold splice. repeat apply Forall_app_2; auto using Forall_take, Forall_drop.
Qed.

Lemma next_ok s0 fat d id :
  fat_inv s0 fat d → has_entry s0 d id →
  ∃ fat' d', next_cluster_in_fat_chain id (fat, d) =
      ((fat', d'), Ok (successor (entry s0 fat d id))) ∧
    fat_inv s0 fat' d' ∧ same_sectors (fcache fat) d (fcache fat') d'.
Proof.
  intros Hinv Hid. destruct per_sector_size as [HS ?].
  pose proof Hid as (? & ? & ? & Had). destruct (offset_range id) as [Ho ?]; [lia|].
  destruct (fetch_ok (fcache fat) d _ (fat_cache_inv _ _ _ Hinv) Had)
    as (c' & d' & Hf & Hinv' & Hsame).
  exists {| start_of_fat_sector := start_of_fat_sector fat; fcache := c' |}, d'.
  split; [|split; [split; [apply Hinv|done]|done]].
  unfold next_cluster_in_fat_chain, MIN_CLUSER_ID. rewrite (proj2 (Z.leb_le _ _)) by lia.
  unfold assert. rewrite bind_lift_Ok. unfold gets at 1. rewrite (bind_Ok _ _ _ (fat, d) fat) by done.
  rewrite (get_sector_id_ok fat d s0), bind_lift_Ok by done.
  rewrite urem_ok, bind_lift_Ok by (rewrite num_entries_eq; lia).
  erewrite bind_Ok; [|apply zoom_eq; exact Hf]. cbn [put lcache fst snd].
  destruct (sector_ok (fcache fat) d _ (fat_cache_inv _ _ _ Hinv) Had) as [Hl _].
  rewrite num_entries_eq. unfold len in Hl.
  erewrite index_ok; [|lia|apply as_chunks_lookup; lia].
  rewrite bind_lift_Ok. unfold successor, entry. do 3 f_equal.
  rewrite Z2Nat.inj_mul by lia. done.
Qed.

Lemma set_ok s0 fat d t id v :
  fat_inv s0 fat d → has_entry s0 d id → 0 ≤ v < 2 ^ 32 → dirty_ok t →
  ∃ t' fat' d', set id v (t, (fat, d)) = ((t', (fat', d')), Ok ()) ∧
    fat_inv s0 fat' d' ∧ t' = insert (TouchedSector_new Touched.Fat (s0 + id / per_sector)) t ∧
    frame (λ s, s = s0 + id / per_sector) (fcache fat) d (fcache fat') d' ∧
    (∀ id', has_entry s0 d id' →
       entry s0 fat' d' id' = if decide (id' = id) then v else entry s0 fat d id').
Proof.
  intros Hinv Hid Hv Ht. destruct per_sector_size as [HS ?].
  pose proof Hid as (? & ? & ? & Had). destruct (offset_range id) as [Ho ?]; [lia|].
  set (s := s0 + id / per_sector) in *.
  destruct (sector_ok (fcache fat) d s (fat_cache_inv _ _ _ Hinv) Had) as [Hl Hb].
  destruct (set_chunk_ok (seen (fcache fat) d s) (id mod per_sector) (to_le_bytes 4 v))
    as [Hset Hok]; [done|done|auto with exfat|by rewrite len_to_le_bytes|].
  destruct (read_inner_ok (fcache fat) d s (fat_cache_inv _ _ _ Hinv) Had)
    as (c1 & d1 & i & sl & Hr & Hinv1 & Hsame & Hi & Hval & Hid1 & Hbl).
  destruct (as_mut_slice_ok c1 d1 i sl (set_chunk (id mod per_sector) (to_le_bytes 4 v))
    (splice (seen (fcache fat) d s) (4 * (id mod per_sector)) (to_le_bytes 4 v)) Hinv1 Hi Hval) as (c2 & Hm & Hinv2 & Hframe & Hsec);
    [rewrite Hbl; exact Hset|done|]. rewrite Hid1 in *.
  assert (Hfr : frame (λ s', s' = s) (fcache fat) d c2 d1).
  { eapply frame_trans; [|done]. by eapply frame_weaken; [|exact Hsame]. }
  eexists _, {| start_of_fat_sector := start_of_fat_sector fat; fcache := c2 |}, d1.
  split_and!; [|split; [apply Hinv|done]|reflexivity|done|].
  - unfold set, MIN_CLUSER_ID. rewrite (proj2 (Z.leb_le _ _)) by lia.
    unfold assert. rewrite bind_lift_Ok. unfold gets at 1.
    rewrite (bind_Ok _ _ _ (t, (fat, d)) fat) by done.
    rewrite (get_sector_id_ok fat d s0), bind_lift_Ok by done.
    rewrite (bind_Ok _ _ _ (insert (TouchedSector_new Touched.Fat s) t, (fat, d)) ()) by done.
    erewrite bind_Ok; [|apply zoom_eq, zoom_eq; exact Hr]. cbn [put view lcache lsnd fst snd].
    rewrite urem_ok, bind_lift_Ok by (rewrite num_entries_eq; lia). rewrite num_entries_eq.
    erewrite zoom_eq; [|apply zoom_eq; exact Hm]. done.
  - intros id' (? & ? & ? & Had'). destruct (offset_range id') as [Ho' ?]; [lia|].
    assert (Hps : per_sector ≠ 0) by lia.
    pose proof (Z.div_mod id per_sector Hps). pose proof (Z.div_mod id' per_sector Hps).
    unfold entry. cbn [fcache].
    destruct (decide (s0 + id' / per_sector = s)) as [Hs|Hs].
    + rewrite Hs, Hsec. destruct (decide (id' = id)) as [->|Hne].
      * rewrite <-(length_to_le_bytes 4 v) at 1.
        rewrite take_splice_same by (rewrite ?len_to_le_bytes; lia).
        apply from_to_le_bytes_small. lia.
      * f_equal. apply take_splice_other; rewrite ?len_to_le_bytes, ?Hl; [lia..|].
        assert (id' mod per_sector ≠ id mod per_sector); [|lia].
        unfold s in Hs. intros Heq. apply Hne. assert (id' / per_sector = id / per_sector) by lia.
        congruence.
    + rewrite (proj1 (proj2 Hfr _ Had' Hs)). rewrite decide_False; [done|].
      intros ->. by apply Hs.
Qed.
End Theorems.

Section Properties.
Context {cfg : Config} {crates : Crates} {bd : BlockDevice}.
Context {Hcfg : ConfigOk cfg} {Hcr : CratesOk crates} {Hbd : DeviceOk cfg bd}.
Implicit Types (fat : Fat) (d : dev) (t : FileDirty).

(** the table refines an array of 32-bit entries: [set] changes exactly
    the entry it is given (in whichever sector it lies), records that sector
    for flushing and keeps the cache invariant; [next_cluster_in_fat_chain]
    reports precisely the entries 2 to 0xFFFFFFF6 as successors and changes
    no entry. *)
Theorem fat_refines_entries s0 fat d t id v :
  fat_inv s0 fat d → has_entry s0 d id → 0 ≤ v < 2 ^ 32 → dirty_ok t →
  (∃ fat' d', next_cluster_in_fat_chain id (fat, d) =
       ((fat', d'), Ok (successor (entry s0 fat d id))) ∧
     fat_inv s0 fat' d' ∧
     (∀ id', has_entry s0 d id' → entry s0 fat' d' id' = entry s0 fat d id')) ∧
  (∃ t' fat' d', set id v (t, (fat, d)) = ((t', (fat', d')), Ok ()) ∧
     fat_inv s0 fat' d' ∧ dirty_ok t' ∧ records t' (s0 + id / per_sector) ∧
     (∀ id', has_entry s0 d id' ↔ has_entry s0 d' id') ∧
     (∀ id', has_entry s0 d id' →
        entry s0 fat' d' id' = if decide (id' = id) then v else entry s0 fat d id')).
Proof.
  intros Hinv Hid Hv Ht. split.
  - destruct (next_ok s0 fat d id Hinv Hid) as (fat' & d' & Hn & Hinv' & [_ Hs]).
    exists fat', d'. split_and!; [done|done|]. intros id' (_ & _ & _ & Had).
    unfold entry. by rewrite (proj1 (Hs _ Had (λ f, f))).
  - destruct (set_ok s0 fat d t id v Hinv Hid Hv Ht)
      as (t' & fat' & d' & Hset & Hinv' & -> & [Ha _] & He).
    eexists _, fat', d'. split_and!; [done|done|auto with exfat| | |done].
    + apply (insert_records (TouchedSector_new _ _)). done.
    + intros id'. unfold has_entry. by rewrite Ha.
Qed.

(** a chain written entry by entry is read back: after linking [id] to
    [id'] in front of a chain that starts at [id'] and does not visit [id],
    the walk from [id] visits [id'] and then the old chain. *)
Theorem fat_link_extends_chain s0 fat d t id id' l :
  fat_inv s0 fat d → dirty_ok t → Forall (has_entry s0 d) (id :: id' :: l) →
  id' ≤ 0xFFFFFFF6 → chain s0 fat d id' l → id ∉ id' :: l →
  ∃ t' fat' d', set id id' (t, (fat, d)) = ((t', (fat', d')), Ok ()) ∧
    fat_inv s0 fat' d' ∧ chain s0 fat' d' id (id' :: l).
Proof.
  intros Hinv Ht Hall Hid' Hch Hni. inversion Hall as [|? ? Hid Hall']; subst.
  inversion Hall' as [|? ? (Hr & _) _]; subst.
  destruct (set_ok s0 fat d t id id' Hinv Hid) as (t' & fat' & d' & Hset & Hinv' & _ & _ & He);
    [lia|done|].
  exists t', fat', d'. split_and!; [done|done|]. cbn [chain]. split.
  { rewrite He, decide_True by done. unfold successor.
    by rewrite (proj2 (Z.leb_le _ _)), (proj2 (Z.leb_le _ _)) by lia. }
  eapply chain_frame; [|exact Hch]. rewrite Forall_forall in Hall' |- *.
  intros x Hx. rewrite He by auto. rewrite decide_False; [done|]. by intros ->.
Qed.
End Properties.

(** * Witnesses and replays of the unit tests *)
Section Tests.
#[local] Existing Instance debug_build.
#[local] Existing Instance dummy_device.
#[local] Existing Instance reference_crates.
#[local] Instance tests_device_ok : DeviceOk debug_build dummy_device := blank_ok.

(** a FAT that starts at sector 0 of the device *)
Definition fat0 : Fat := {| start_of_fat_sector := Some 0; fcache := SlotCache_new |}.

Lemma fat0_inv d : fat_inv 0 fat0 d.
Proof. split; [done|]. apply (SlotCache_new_inv (Hcfg:=debug_build_ok)). Qed.
Lemma blank_has_entry id : 2 ≤ id < 512 → has_entry 0 (blank 4) id.
Proof.
  intros. assert (per_sector = 128) as Hp by done. unfold has_entry. rewrite Hp.
  split_and!; [lia..|dlia|]. apply blank_addressable. dlia.
Qed.

Lemma fat_refines_entries_witness :
  ∃ t' fat' d', set 128 129 (FileDirty_new, (fat0, blank 4)) = ((t', (fat', d')), Ok ()) ∧
    entry 0 fat' d' 128 = 129.
Proof.
  destruct (fat_refines_entries (bd:=dummy_device)
    (Hcfg:=debug_build_ok) (Hcr:=reference_crates_ok) 0 fat0
    (blank 4) FileDirty_new 128 129 (fat0_inv _) (blank_has_entry 128 ltac:(lia)) ltac:(lia)
    FileDirty_new_ok) as [_ (t' & fat' & d' & Hs & _ & _ & _ & _ & He)].
  exists t', fat', d'. split; [exact Hs|].
  rewrite He by (apply blank_has_entry; lia). reflexivity.
Defined.

Lemma fat_link_extends_chain_witness :
  ∃ t' fat' d', set 2 3 (FileDirty_new, (fat0, blank 4)) = ((t', (fat', d')), Ok ()) ∧
    chain 0 fat' d' 2 [3].
Proof.
  destruct (fat_link_extends_chain (bd:=dummy_device)
    (Hcfg:=debug_build_ok) 0 fat0
    (blank 4) FileDirty_new 2 3 [] (fat0_inv _) FileDirty_new_ok) as (t' & fat' & d' & Hs & _ & Hc).
  - apply Forall_cons_2, Forall_singleton; apply blank_has_entry; lia.
  - lia.
  - vm_compute. reflexivity.
  - apply (bool_decide_unpack _). vm_compute. exact I.
  - exists t', fat', d'. split; [exact Hs|exact Hc].
Defined.

Abbreviation TM := (M (FileDirty * (Fat * dev)) err) (only parsing).
Definition next (id : Z) : TM (option Z) := zoom lsnd (next_cluster_in_fat_chain id).
Definition expect (id : Z) (r : option Z) : TM () :=
  x ← next id; lift (assert (bool_decide (x = r))).

Example fat_chain_crosses_fat_sector_boundary :
  let '((_, (_, d)), o) :=
    (set 126 127 ;; set 127 128 ;; set 128 129 ;; set 129 END_OF_CHAIN ;;
     zoom lsnd flush ;;
     expect 126 (Some 127) ;; expect 127 (Some 128) ;; expect 128 (Some 129) ;;
     expect 129 None) (FileDirty_new, (fat0, blank 4)) in
  o = Ok () ∧ take 8 (drop 504 (dummy_content d 0)) = to_le_bytes 4 127 ++ to_le_bytes 4 128 ∧
  take 8 (dummy_content d 1) = to_le_bytes 4 129 ++ to_le_bytes 4 END_OF_CHAIN.
Proof. vm_compute. auto. Qed.

Example unlinking_cluster_breaks_chain :
  let '((_, (_, d)), o) :=
    (set 2 3 ;; set 3 END_OF_CHAIN ;; expect 2 (Some 3) ;; expect 3 None ;;
     set 2 NO_CLUSTER_ID ;; expect 2 None ;; zoom lsnd flush)
      (FileDirty_new, (fat0, blank 2)) in
  o = Ok () ∧ take 4 (drop 8 (dummy_content d 0)) = [0; 0; 0; 0].
Proof. vm_compute. auto. Qed.

Example fat_entry_values_that_terminate_a_chain :
  let check '(e, r) := set 2 e ;; expect 2 r in
  snd (for_each [(0, None); (1, None); (2, Some 2); (0xFFFFFFF5, Some 0xFFFFFFF5);
                 (0xFFFFFFF6, Some 0xFFFFFFF6); (0xFFFFFFF7, None); (0xFFFFFFFF, None)]
         check (FileDirty_new, (fat0, blank 2))) = Ok ().
Proof. vm_compute. auto. Qed.
End Tests.
