(* ===== verification/Allocation.v ===== *)
(** * src/allocation.rs: the cluster allocation bitmap

    One bit per cluster, the first bit of the first byte standing for cluster
    2.  State: the bitmap's place and size, its sector cache and the rover
    [next_search_cluster], next to the device and the caller's dirty list.
    The abstract specification is the set of allocated clusters
    ([allocated]). *)

From S2P Require Import Prelude Text Crates Errors Utils BootSector Device SlotCache Touched Fat.

Definition FIRST_CLUSTER_ID : Z := 2.

Module BitmapPos.
Record t := { sector : Z; bit : Z }.
End BitmapPos.

Record BitmapChunk := { chunk_sector : Z; bits : Z * Z }.
Record BitmapRunChunks := { cluster_id : Z; remaining : Z }.

Module AllocationBitmap.
Record t := { first_cluster : Z; num_sectors : Z }.
End AllocationBitmap.

Inductive SearchPolicy := FirstRun | LongestRun.
Record AllocatedRun := { first_cluster : Z; cluster_count : Z }.

Inductive StoredChain :=
  | Empty
  | Contiguous (first cluster_count : Z)
  | FatChain (first last cluster_count : Z).

Module Slim.
(** [AllocationBitmapSlim] *)
Record t := { first_sector : Z; num_sectors : Z; cluster_count : Z }.
Definition default : t := {| first_sector := 0; num_sectors := 0; cluster_count := 0 |}.
End Slim.

Record Allocator := {
  bitmap : Slim.t;
  acache : SlotCache;
  next_search_cluster : Z;
}.

Definition lacache {D} : lens (Allocator * D) (SlotCache * D) :=
  Lens (λ s, (acache (fst s), snd s))
       (λ t s, ({| bitmap := bitmap (fst s); acache := fst t;
                   next_search_cluster := next_search_cluster (fst s) |}, snd t)).

(** ** Loops that can be left early *)
Inductive flow (S R : Type) :=
  | Next (s : S)    (* on to the next iteration *)
  | Return (r : R)  (* [return Ok(r)] from the function *)
  | Break (s : S).  (* [break 'scan] *)
Arguments Next {S R} s.
Arguments Return {S R} r.
Arguments Break {S R} s.

Fixpoint flow_each {E S R A} (l : list A) (body : A → S → outcome E (flow S R)) (s : S)
    : outcome E (flow S R) :=
  match l with
  | [] => Ok (Next s)
  | x :: l =>
      fl ← body x s;
      match fl with Next s => flow_each l body s | Return r => Ok (Return r) | Break s => Ok (Break s) end
  end.

(** [byte & (1 << bit_in_byte) == 0] *)
Definition is_free (byte bit_in_byte : Z) : bool := Z.land byte (Z.shiftl 1 bit_in_byte) =? 0.

(** The variables of the scan in [find_free_clusters_from]. *)
Record scan := {
  scan_cluster : Z;
  scan_first : option Z;
  scan_count : Z;
  scan_longest : option AllocatedRun;
}.

Section Ops.
Context {cfg : Config} {crates : Crates} {bd : BlockDevice}.
Abbreviation AM := (M (Allocator * dev) err) (only parsing).
Abbreviation TM := (M (FileDirty * (Allocator * dev)) err) (only parsing).

(** ** Positions in the bitmap *)
Definition CLUSTERS_PER_SECTOR : Z := cast u32 (SIZE * 8).
Definition BitmapPos_of {E} (cluster_id : Z) : outcome E BitmapPos.t :=
  index ← sub u32 cluster_id FIRST_CLUSTER_ID;
  q ← udiv index CLUSTERS_PER_SECTOR;
  r ← urem index CLUSTERS_PER_SECTOR;
  Ok {| BitmapPos.sector := q; BitmapPos.bit := r |}.
Definition BitmapPos_cluster {E} (p : BitmapPos.t) : outcome E Z :=
  a ← mul u32 (BitmapPos.sector p) CLUSTERS_PER_SECTOR;
  b ← add u32 a (BitmapPos.bit p);
  add u32 b FIRST_CLUSTER_ID.
Definition first_cluster_of {E} (sector : Z) : outcome E Z :=
  BitmapPos_cluster {| BitmapPos.sector := sector; BitmapPos.bit := 0 |}.

(** [BitmapRunChunks::next] *)
Definition BitmapRunChunks_next {E} (s : BitmapRunChunks)
    : outcome E (option (BitmapChunk * BitmapRunChunks)) :=
  if remaining s =? 0 then Ok None
  else
    pos ← BitmapPos_of (cluster_id s);
    room ← sub u32 CLUSTERS_PER_SECTOR (BitmapPos.bit pos);
    let taken := Z.min room (remaining s) in
    cluster_id' ← add u32 (cluster_id s) taken;
    remaining' ← sub u32 (remaining s) taken;
    last ← add u32 (BitmapPos.bit pos) taken;
    Ok (Some ({| chunk_sector := BitmapPos.sector pos; bits := (BitmapPos.bit pos, last) |},
              {| cluster_id := cluster_id'; remaining := remaining' |})).

(** [AllocationBitmap::new] on the entry's first cluster and data length *)
Definition AllocationBitmap_new {E} (entry_first_cluster data_length : Z)
    : outcome E AllocationBitmap.t :=
  n ← div_ceil data_length (cast u64 SIZE);
  Ok {| AllocationBitmap.first_cluster := entry_first_cluster;
        AllocationBitmap.num_sectors := cast u32 n |}.

Definition Allocator_new : Allocator :=
  {| bitmap := Slim.default; acache := SlotCache_new; next_search_cluster := FIRST_CLUSTER_ID |}.

(** [close_run]: the updated variables and the run to return, if any *)
Definition close_run (policy : SearchPolicy) (st : scan) : scan * option AllocatedRun :=
  let run := (λ f, {| first_cluster := f; cluster_count := scan_count st |}) <$> scan_first st in
  let closed longest := {| scan_cluster := scan_cluster st; scan_first := None;
                           scan_count := 0; scan_longest := longest |} in
  match policy, run with
  | FirstRun, run => (closed (scan_longest st), run)
  | LongestRun, Some run =>
      let better := match scan_longest st with
                    | None => true
                    | Some x => cluster_count x <? cluster_count run
                    end in
      (closed (if better then Some run else scan_longest st), None)
  | LongestRun, None => (closed (scan_longest st), None)
  end.

Definition flush_sector (sector : Z) : AM () := zoom lacache (SlotCache.flush_sector sector).
Definition flush : AM () := zoom lacache SlotCache.flush.

(** [set_bit_range] *)
Definition set_bit {E} (set : bool) (block : list Z) (bit : Z) : outcome E (list Z) :=
  let byte := bit / 8 in
  let mask := Z.shiftl 1 (bit mod 8) in
  b ← index block byte;
  set_index block byte (if set then Z.lor b mask else Z.ldiff b mask).
Fixpoint set_bits {E} (set : bool) (range : list Z) (block : list Z) : outcome E (list Z) :=
  match range with
  | [] => Ok block
  | bit :: range => block ← set_bit set block bit; set_bits set range block
  end.
Definition set_bit_range {E} (range : Z * Z) (set : bool) (block : list Z)
    : outcome E (list Z) :=
  set_bits set (seqZ (fst range) (snd range - fst range)) block.

(** ** Marking a run *)
Fixpoint mark_chunks (fuel : nat) (allocated : bool) (iter : BitmapRunChunks) : TM () :=
  match fuel with
  | O => lift OutOfFuel
  | S fuel =>
      o ← lift (BitmapRunChunks_next iter);
      match o with
      | None => mret ()
      | Some (chunk, iter) =>
          bm ← gets (bitmap ∘ fst ∘ snd);
          sector_id ← lift (add u32 (Slim.first_sector bm) (chunk_sector chunk));
          zoom lsnd (zoom lacache (update sector_id (set_bit_range (bits chunk) allocated))) ;;
          touch Bitmap sector_id ;;
          mark_chunks fuel allocated iter
      end
  end.

Definition mark_allocated (run : AllocatedRun) (allocated : bool) : TM () :=
  if cluster_count run =? 0 then mret ()
  else if first_cluster run <? FIRST_CLUSTER_ID then
    throw (InvalidClusterId (first_cluster run))
  else
    n ← lift (sub u32 (cluster_count run) 1);
    let last_cluster := first_cluster run + n in
    if negb (fits u32 last_cluster) then throw (InvalidClusterId (first_cluster run))
    else
      bm ← gets (bitmap ∘ fst ∘ snd);
      end_cluster ← lift (add u32 FIRST_CLUSTER_ID (Slim.cluster_count bm));
      outside ← (if end_cluster <=? last_cluster then mret true
                 else p ← lift (BitmapPos_of last_cluster);
                      mret (Slim.num_sectors bm <=? BitmapPos.sector p));
      if outside : bool then throw (InvalidClusterId (first_cluster run))
      else
        mark_chunks (Z.to_nat (cluster_count run / CLUSTERS_PER_SECTOR + 3)) allocated
          {| cluster_id := first_cluster run; remaining := cluster_count run |}.

(** ** Searching free clusters *)

(** One bit of the scan. *)
Definition scan_bit (policy : SearchPolicy) (from_cluster end_cluster num_clusters byte bit : Z)
    (st : scan) : outcome err (flow scan AllocatedRun) :=
  let advance st :=
    c ← add u32 (scan_cluster st) 1;
    Ok {| scan_cluster := c; scan_first := scan_first st; scan_count := scan_count st;
          scan_longest := scan_longest st |} in
  if scan_cluster st <? from_cluster then st ← advance st; Ok (Next st)
  else if end_cluster <=? scan_cluster st then Ok (Break st)
  else if is_free byte bit then
    let first := match scan_first st with None => Some (scan_cluster st) | Some f => Some f end in
    count ← add u32 (scan_count st) 1;
    if count =? num_clusters then
      match first with
      | Some f => Ok (Return {| first_cluster := f; cluster_count := count |})
      | None => Panic
      end
    else
      st ← advance {| scan_cluster := scan_cluster st; scan_first := first; scan_count := count;
                      scan_longest := scan_longest st |};
      Ok (Next st)
  else
    match close_run policy st with
    | (_, Some run) => Ok (Return run)
    | (st, None) => st ← advance st; Ok (Next st)
    end.

(** One 4-byte chunk: a full chunk is skipped as a whole. *)
Definition scan_chunk (policy : SearchPolicy) (from_cluster end_cluster num_clusters : Z)
    (chunk : list Z) (st : scan) : outcome err (flow scan AllocatedRun) :=
  if from_le_bytes chunk =? umax u32 then
    match close_run policy st with
    | (_, Some run) => Ok (Return run)
    | (st, None) =>
        c ← add u32 (scan_cluster st) 32;
        Ok (Next {| scan_cluster := c; scan_first := scan_first st;
                    scan_count := scan_count st; scan_longest := scan_longest st |})
    end
  else
    flow_each chunk (λ byte,
      flow_each (seqZ 0 8) (scan_bit policy from_cluster end_cluster num_clusters byte)) st.

(** The sectors of the bitmap, one cache read each. *)
Fixpoint scan_sectors (policy : SearchPolicy) (from_cluster end_cluster num_clusters : Z)
    (sectors : list Z) (st : scan) : AM (flow scan AllocatedRun) :=
  match sectors with
  | [] => mret (Next st)
  | sector :: sectors =>
      bm ← gets (bitmap ∘ fst);
      sector_id ← lift (add u32 (Slim.first_sector bm) sector);
      slice ← zoom lacache (fetch sector_id);
      fl ← lift (flow_each (as_chunks 4 slice)
                   (scan_chunk policy from_cluster end_cluster num_clusters) st);
      match fl with
      | Next st => scan_sectors policy from_cluster end_cluster num_clusters sectors st
      | fl => mret fl
      end
  end.

(** What follows the loop: the run in progress, else the longest one. *)
Definition scan_finish (policy : SearchPolicy) (st : scan) : outcome err AllocatedRun :=
  match close_run policy st with
  | (_, Some run) => Ok run
  | (st, None) => match scan_longest st with Some run => Ok run | None => Err DiskFull end
  end.

Definition find_free_clusters_from (from_cluster num_clusters : Z) (policy : SearchPolicy)
    : AM AllocatedRun :=
  if from_cluster <? FIRST_CLUSTER_ID then throw (InvalidClusterId from_cluster)
  else
    bm ← gets (bitmap ∘ fst);
    end_cluster ← lift (add u32 FIRST_CLUSTER_ID (Slim.cluster_count bm));
    start ← lift (BitmapPos_of from_cluster);
    let num_sectors := Slim.num_sectors bm in
    if (end_cluster <=? from_cluster) || (num_sectors <=? BitmapPos.sector start)
    then throw DiskFull
    else
      c ← lift (first_cluster_of (BitmapPos.sector start));
      fl ← scan_sectors policy from_cluster end_cluster num_clusters
             (seqZ (BitmapPos.sector start) (num_sectors - BitmapPos.sector start))
             {| scan_cluster := c; scan_first := None; scan_count := 0; scan_longest := None |};
      match fl with
      | Return run => mret run
      | Next st | Break st => lift (scan_finish policy st)
      end.

Definition put_next_search (c : Z) : AM () :=
  modify (λ s, ({| bitmap := bitmap (fst s); acache := acache (fst s);
                   next_search_cluster := c |}, snd s)).

Definition find_free_clusters (from_cluster : option Z) (num_clusters : Z)
    (policy : SearchPolicy) : AM AllocatedRun :=
  rover ← gets (next_search_cluster ∘ fst);
  let from_cluster := default rover from_cluster in
  r ← try_ (find_free_clusters_from from_cluster num_clusters policy);
  run ← (match r with
         | inr run => mret run
         | inl DiskFull =>
             if FIRST_CLUSTER_ID <? from_cluster
             then find_free_clusters_from FIRST_CLUSTER_ID num_clusters policy
             else throw DiskFull
         | inl e => throw e
         end);
  c ← lift (add u32 (first_cluster run) (cluster_count run));
  put_next_search c ;;
  mret run.

(** ** Allocating and freeing *)
Definition allocate (chain : StoredChain) (count : Z) : TM AllocatedRun :=
  run ← (match chain with
         | Empty => zoom lsnd (find_free_clusters None count LongestRun)
         | Contiguous first n =>
             from ← lift (add u32 first n);
             zoom lsnd (find_free_clusters (Some from) count FirstRun)
         | FatChain _ last _ =>
             from ← lift (add u32 last 1);
             zoom lsnd (find_free_clusters (Some from) count FirstRun)
         end);
  mark_allocated run true ;;
  mret run.

(** The state of [free]: the dirty list, the allocator, the FAT, the device. *)
Definition lalloc : lens (FileDirty * (Allocator * (Fat * dev))) (FileDirty * (Allocator * dev)) :=
  Lens (λ s, (fst s, (fst (snd s), snd (snd (snd s)))))
       (λ t s, (fst t, (fst (snd t), (fst (snd (snd s)), snd (snd t))))).
Definition lfat : lens (FileDirty * (Allocator * (Fat * dev))) (FileDirty * (Fat * dev)) :=
  Lens (λ s, (fst s, snd (snd s))) (λ t s, (fst t, (fst (snd s), snd t))).

(** the loop over a FAT chain, at most [n] rounds *)
Fixpoint free_loop (n : nat) (cluster_id : Z) : M (FileDirty * (Allocator * (Fat * dev))) err () :=
  match n with
  | O => mret ()
  | S n =>
      next_cluster_id ← zoom lfat (zoom lsnd (next_cluster_in_fat_chain cluster_id));
      zoom lalloc (mark_allocated {| first_cluster := cluster_id; cluster_count := 1 |} false) ;;
      zoom lfat (set cluster_id NO_CLUSTER_ID) ;;
      match next_cluster_id with
      | Some next => free_loop n next
      | None => mret ()
      end
  end.

Definition free (chain : StoredChain) : M (FileDirty * (Allocator * (Fat * dev))) err () :=
  match chain with
  | Empty => mret ()
  | Contiguous first n =>
      zoom lalloc (mark_allocated {| first_cluster := first; cluster_count := n |} false)
  | FatChain first _ n => free_loop (Z.to_nat n) first
  end.
End Ops.

(** * Specification *)

(** Bit [i] of a bitmap sector, the first bit being the lowest of byte 0. *)
Definition bit_of (b : list Z) (i : Z) : bool := Z.testbit (b !!! Z.to_nat (i / 8)) (i mod 8).

Section Spec.
Context {cfg : Config} {bd : BlockDevice} {Hbd : DeviceOk cfg bd}.

(** Bits per sector. *)
Definition BPS : Z := SIZE * 8.
(** The bitmap sector of a cluster. *)
Definition bitmap_sector (al : Allocator) (k : Z) : Z :=
  Slim.first_sector (bitmap al) + (k - 2) / BPS.

(** The abstract state: is cluster [k] allocated? *)
Definition allocated (al : Allocator) (d : dev) (k : Z) : bool :=
  bit_of (seen (acache al) d (bitmap_sector al k)) ((k - 2) mod BPS).

(** One past the last cluster that has a bit in the bitmap. *)
Definition limit (al : Allocator) : Z :=
  Z.min (2 + Slim.cluster_count (bitmap al)) (2 + Slim.num_sectors (bitmap al) * BPS).

Record alloc_inv (al : Allocator) (d : dev) : Prop := {
  alloc_cache : cache_inv (acache al) d;
  alloc_sectors : 0 ≤ Slim.first_sector (bitmap al) ∧ 0 ≤ Slim.num_sectors (bitmap al) ∧
    Slim.first_sector (bitmap al) + Slim.num_sectors (bitmap al) ≤ 2 ^ 32;
  alloc_clusters : 0 ≤ Slim.cluster_count (bitmap al) ∧ 2 + Slim.cluster_count (bitmap al) < 2 ^ 32;
  alloc_bits : 2 + Slim.num_sectors (bitmap al) * BPS < 2 ^ 32;
  alloc_addressable : ∀ s, Slim.first_sector (bitmap al) ≤ s <
    Slim.first_sector (bitmap al) + Slim.num_sectors (bitmap al) → addressable d s;
  alloc_rover : 2 ≤ next_search_cluster al < 2 ^ 32;
}.

Definition bitmap_sectors (al : Allocator) (s : Z) : Prop :=
  Slim.first_sector (bitmap al) ≤ s < Slim.first_sector (bitmap al) + Slim.num_sectors (bitmap al).

(** Only bitmap sectors differ between the two states. *)
Definition bitmap_frame (al : Allocator) (d : dev) (al' : Allocator) (d' : dev) : Prop :=
  bitmap al' = bitmap al ∧ next_search_cluster al' = next_search_cluster al ∧
  frame (bitmap_sectors al) (acache al) d (acache al') d'.

(** The dirty list grew by bitmap sectors, and has every sector that is no
    longer saved. *)
Definition tracks (t : FileDirty) (al : Allocator) (d : dev) (t' : FileDirty) (al' : Allocator) (d' : dev)
    : Prop :=
  extends (λ x, kind x = Bitmap ∧ bitmap_sectors al (Touched.sector x)) t t' ∧
  (∀ s, addressable d s → saved (acache al) d s → saved (acache al') d' s ∨ records t' s).
End Spec.

(** * Lemmas: positions *)
Section Positions.
Context {cfg : Config} {Hcfg : ConfigOk cfg}.

Lemma CPS_eq : CLUSTERS_PER_SECTOR = BPS.
Proof. pose proof SIZE_range. unfold CLUSTERS_PER_SECTOR, BPS. apply cast_id. lia. Qed.
Lemma BPS_range : 256 ≤ BPS ≤ 524288.
Proof. pose proof SIZE_range. unfold BPS. lia. Qed.
Lemma BPS_mod i : 0 ≤ i mod BPS < BPS.
Proof. apply Z.mod_pos_bound. pose proof BPS_range. lia. Qed.

Lemma BitmapPos_of_ok {E} id : 2 ≤ id < 2 ^ 32 →
  BitmapPos_of (E:=E) id = Ok {| BitmapPos.sector := (id - 2) / BPS;
                                 BitmapPos.bit := (id - 2) mod BPS |}.
Proof.
  intros. pose proof BPS_range. unfold BitmapPos_of, FIRST_CLUSTER_ID. rewrite CPS_eq.
  rewrite sub_ok by lia. cbn [mbind outcome_bind].
  rewrite udiv_ok, urem_ok by lia. done.
Qed.

Lemma pos_split i : i = BPS * (i / BPS) + i mod BPS.
Proof. apply Z.div_mod. pose proof BPS_range. lia. Qed.

Lemma pos_unique q r : 0 ≤ r < BPS → (BPS * q + r) / BPS = q ∧ (BPS * q + r) mod BPS = r.
Proof.
  intros. split.
  - symmetry. apply Z.div_unique with r; lia.
  - symmetry. apply Z.mod_unique with q; lia.
Qed.

(** the position of a cluster in the bitmap and back: [cluster] inverts
    [of] on every 32-bit cluster id and neither overflows. *)
Theorem bitmap_pos_roundtrip id : 2 ≤ id < 2 ^ 32 →
  ∃ p, BitmapPos_of (E:=()) id = Ok p ∧ BitmapPos_cluster (E:=()) p = Ok id ∧
    0 ≤ BitmapPos.bit p < SIZE * 8.
Proof.
  intros Hid. eexists. split; [by apply BitmapPos_of_ok|]. unfold BitmapPos_cluster. cbn.
  pose proof (BPS_mod (id - 2)). pose proof (pos_split (id - 2)) as Hs. pose proof BPS_range.
  assert (0 ≤ (id - 2) / BPS) by (apply Z.div_pos; lia).
  rewrite CPS_eq, mul_ok by nia. cbn. rewrite add_ok by nia. cbn.
  unfold FIRST_CLUSTER_ID. split; [|exact H]. rewrite add_ok by nia. f_equal. lia.
Qed.
End Positions.

(** * Lemmas: bits of a block *)
Section Bits.
Lemma list_lookup_total_byte (b : list Z) (i : nat) :
  Forall byte_ok b → byte_ok (b !!! i).
Proof.
  intros Hb. destruct (b !! i) as [x|] eqn:Hx.
  - rewrite (list_lookup_total_correct _ _ _ Hx). by eapply Forall_lookup_1.
  - rewrite list_lookup_total_alt, Hx. done.
Qed.

Lemma lor_byte b k : byte_ok b → 0 ≤ k < 8 → byte_ok (Z.lor b (Z.shiftl 1 k)).
Proof.
  intros Hb Hk. assert (k ∈ seqZ 0 8) as Hin by (apply elem_of_seqZ; lia).
  pose proof (forall_byte (λ b, forallb (λ k, bool_decide (byte_ok (Z.lor b (Z.shiftl 1 k))))
    (seqZ 0 8)) ltac:(vm_compute; exact eq_refl) b Hb) as Ha.
  rewrite forallb_forall in Ha. apply list_elem_of_In in Hin. apply Ha in Hin.
  by apply bool_decide_eq_true in Hin.
Qed.
Lemma ldiff_byte b k : byte_ok b → 0 ≤ k < 8 → byte_ok (Z.ldiff b (Z.shiftl 1 k)).
Proof.
  intros Hb Hk. assert (k ∈ seqZ 0 8) as Hin by (apply elem_of_seqZ; lia).
  pose proof (forall_byte (λ b, forallb (λ k, bool_decide (byte_ok (Z.ldiff b (Z.shiftl 1 k))))
    (seqZ 0 8)) ltac:(vm_compute; exact eq_refl) b Hb) as Ha.
  rewrite forallb_forall in Ha. apply list_elem_of_In in Hin. apply Ha in Hin.
  by apply bool_decide_eq_true in Hin.
Qed.

Lemma testbit_mask k j : 0 ≤ k → Z.testbit (Z.shiftl 1 k) j = bool_decide (k = j).
Proof.
  intros Hk. rewrite Z.shiftl_1_l. case_bool_decide as H.
  - subst. apply Z.pow2_bits_true. lia.
  - apply Z.pow2_bits_false. done.
Qed.

Lemma byte_index (b : list Z) i : 0 ≤ i < 8 * len b → 0 ≤ i / 8 < len b ∧ 0 ≤ i mod 8 < 8.
Proof. intros. dlia. Qed.

Lemma set_bit_ok {E} (v : bool) b i :
  Forall byte_ok b → 0 ≤ i < 8 * len b →
  ∃ b', set_bit (E:=E) v b i = Ok b' ∧ len b' = len b ∧ Forall byte_ok b' ∧
    ∀ j, 0 ≤ j < 8 * len b → bit_of b' j = if decide (j = i) then v else bit_of b j.
Proof.
  intros Hb Hi. destruct (byte_index b i Hi) as [Hq Hr]. unfold set_bit.
  pose proof (list_lookup_total_byte b (Z.to_nat (i / 8)) Hb) as Hbyte.
  assert (Hlt : (Z.to_nat (i / 8) < length b)%nat) by (unfold len in Hq; lia).
  rewrite (index_ok _ _ (b !!! Z.to_nat (i / 8))); [|lia|].
  2: { by apply list_lookup_lookup_total_lt. }
  cbn [mbind outcome_bind]. rewrite set_index_ok by done.
  set (x := if v then _ else _). eexists. split; [done|]. split; [apply len_insert|].
  assert (byte_ok x) by (unfold x; destruct v; [by apply lor_byte|by apply ldiff_byte]).
  split; [by apply Forall_insert|]. intros j Hj. destruct (byte_index b j Hj) as [Hjq Hjr].
  unfold bit_of. destruct (decide (j / 8 = i / 8)) as [Heq|Hne].
  - rewrite Heq, list_lookup_total_insert_eq by done. unfold x.
    assert (Hm : Z.testbit (Z.shiftl 1 (i mod 8)) (j mod 8) = bool_decide (j = i)).
    { rewrite testbit_mask by lia. apply bool_decide_ext. split; [|by intros ->].
      intros. dlia. }
    destruct v; rewrite ?Z.lor_spec, ?Z.ldiff_spec, Hm;
      case_bool_decide; case_decide; try done;
      by rewrite ?orb_true_r, ?orb_false_r, ?andb_false_r, ?andb_true_r.
  - rewrite list_lookup_total_insert_ne by lia. rewrite decide_False; [done|]. by intros ->.
Qed.

Lemma set_bits_ok {E} (v : bool) range b :
  Forall byte_ok b → Forall (λ i, 0 ≤ i < 8 * len b) range →
  ∃ b', set_bits (E:=E) v range b = Ok b' ∧ len b' = len b ∧ Forall byte_ok b' ∧
    ∀ j, 0 ≤ j < 8 * len b → bit_of b' j = if decide (j ∈ range) then v else bit_of b j.
Proof.
  intros Hb Hr. revert b Hb Hr. induction range as [|i range IH]; intros b Hb Hr.
  { exists b. split_and!; [done..|]. intros j _. rewrite decide_False; [done|set_solver]. }
  inversion Hr as [|? ? Hi Hr']; subst.
  destruct (set_bit_ok (E:=E) v b i Hb Hi) as (b1 & H1 & Hl1 & Hb1 & Hs1).
  destruct (IH b1 Hb1) as (b2 & H2 & Hl2 & Hb2 & Hs2); [by rewrite Hl1|].
  exists b2. cbn [set_bits]. rewrite H1. cbn [mbind outcome_bind].
  split_and!; [done|congruence|done|]. intros j Hj. rewrite Hs2 by congruence.
  destruct (decide (j ∈ range)).
  { by rewrite decide_True by (by right). }
  rewrite Hs1 by done. destruct (decide (j = i)) as [->|].
  - by rewrite decide_True by (by left).
  - rewrite decide_False; [done|]. by intros [?|?]%elem_of_cons.
Qed.

Lemma set_bit_range_ok {E} (v : bool) lo hi b :
  Forall byte_ok b → 0 ≤ lo ≤ hi → hi ≤ 8 * len b →
  ∃ b', set_bit_range (E:=E) (lo, hi) v b = Ok b' ∧ len b' = len b ∧ Forall byte_ok b' ∧
    ∀ j, 0 ≤ j < 8 * len b →
      bit_of b' j = if decide (lo ≤ j < hi) then v else bit_of b j.
Proof.
  intros Hb Hlo Hhi. unfold set_bit_range. cbn [fst snd].
  destruct (set_bits_ok (E:=E) v (seqZ lo (hi - lo)) b Hb) as (b' & ? & ? & ? & Hs).
  { apply Forall_forall. intros i Hi%elem_of_seqZ. lia. }
  exists b'. split_and!; [done..|]. intros j Hj. rewrite Hs by done.
  apply decide_ext. rewrite elem_of_seqZ. lia.
Qed.
End Bits.

(** * Lemmas: marking runs *)
Section Marking.
Context {cfg : Config} {crates : Crates} {bd : BlockDevice}.
Context {Hcfg : ConfigOk cfg} {Hcr : CratesOk crates} {Hbd : DeviceOk cfg bd}.
Implicit Types (al : Allocator) (d : dev) (t : FileDirty).

Definition with_cache al c : Allocator :=
  {| bitmap := bitmap al; acache := c; next_search_cluster := next_search_cluster al |}.

Lemma alloc_inv_cache al d c' d' :
  alloc_inv al d → cache_inv c' d' → (∀ s, addressable d' s ↔ addressable d s) →
  alloc_inv (with_cache al c') d'.
Proof. intros [] Hc Ha. split; cbn; try done. intros s Hs. apply Ha. auto. Qed.

Lemma bitmap_frame_refl al d : bitmap_frame al d al d.
Proof. split_and!; [done..|]. split; done. Qed.
Lemma bitmap_frame_trans al0 d0 al1 d1 al2 d2 :
  bitmap_frame al0 d0 al1 d1 → bitmap_frame al1 d1 al2 d2 → bitmap_frame al0 d0 al2 d2.
Proof.
  intros (Hb & Hn & Hf) (Hb' & Hn' & Hf'). split_and!; [congruence..|].
  eapply frame_trans; [done|]. unfold bitmap_sectors. by rewrite <-Hb.
Qed.

Lemma tracks_refl t al d : tracks t al d t al d.
Proof. split; auto with exfat. Qed.
Lemma tracks_trans t0 al0 d0 t1 al1 d1 t2 al2 d2 :
  (∀ s, addressable d1 s ↔ addressable d0 s) → bitmap al1 = bitmap al0 →
  tracks t0 al0 d0 t1 al1 d1 → tracks t1 al1 d1 t2 al2 d2 → tracks t0 al0 d0 t2 al2 d2.
Proof.
  intros Ha Hb [Hm Hs] [Hm' Hs']. unfold bitmap_sectors in Hm'. rewrite Hb in Hm'.
  split; [by eapply extends_trans|]. intros s Had Hsv.
  destruct (Hs s Had Hsv) as [?|?]; [apply Hs'; [by apply Ha|done]|right; by apply Hm'].
Qed.

Lemma limit_range al d : alloc_inv al d → limit al < 2 ^ 32.
Proof. intros [_ _ ? ? _ _]. unfold limit. lia. Qed.

(** Every cluster below the limit has its bit in a sector of the bitmap. *)
Lemma bitmap_sector_range al d k :
  alloc_inv al d → 2 ≤ k < limit al →
  0 ≤ (k - 2) / BPS < Slim.num_sectors (bitmap al) ∧
  addressable d (bitmap_sector al k) ∧ 0 ≤ bitmap_sector al k < 2 ^ 32.
Proof.
  intros Hinv Hk. pose proof BPS_range. destruct (alloc_sectors _ _ Hinv) as (? & ? & ?).
  assert (0 ≤ (k - 2) / BPS < Slim.num_sectors (bitmap al)).
  { split; [apply Z.div_pos; lia|]. apply Z.div_lt_upper_bound; unfold limit in Hk; lia. }
  unfold bitmap_sector. split_and!; [lia..| |lia|lia]. apply (alloc_addressable _ _ Hinv). lia.
Qed.

Lemma mark_one_ok v al d q lo hi :
  alloc_inv al d → 0 ≤ q < Slim.num_sectors (bitmap al) → 0 ≤ lo ≤ hi → hi ≤ BPS →
  ∃ c' d', update (Slim.first_sector (bitmap al) + q) (set_bit_range (lo, hi) v) (acache al, d) =
      ((c', d'), Ok ()) ∧
    alloc_inv (with_cache al c') d' ∧ bitmap_frame al d (with_cache al c') d' ∧
    frame (λ s, s = Slim.first_sector (bitmap al) + q) (acache al) d c' d' ∧
    ∀ k, 2 ≤ k < limit al → allocated (with_cache al c') d' k =
      if decide (2 + BPS * q + lo ≤ k < 2 + BPS * q + hi) then v else allocated al d k.
Proof.
  intros Hinv Hq Hlo Hhi. set (s := Slim.first_sector (bitmap al) + q).
  assert (Had : addressable d s) by (apply (alloc_addressable _ _ Hinv); lia).
  destruct (sector_ok _ d s (alloc_cache _ _ Hinv) Had) as [Hl Hb].
  destruct (set_bit_range_ok (E:=err) v lo hi (seen (acache al) d s) Hb Hlo)
    as (b' & Hset & Hl' & Hb' & Hbits); [unfold BPS in Hhi; lia|].
  destruct (update_ok (acache al) d s (set_bit_range (lo, hi) v) b' (alloc_cache _ _ Hinv) Had Hset)
    as (c' & d' & Hu & Hc' & Hf & Hs); [split; [lia|done]|].
  exists c', d'. split_and!; [done| |split_and!; [done..|]|exact Hf|].
  - by apply (alloc_inv_cache al d); [..|apply Hf].
  - eapply frame_weaken; [|exact Hf]. intros ? ->. unfold bitmap_sectors. cbn. lia.
  - intros k Hk. destruct (bitmap_sector_range al d k Hinv Hk) as (_ & Hka & _).
    pose proof (pos_split (k - 2)). pose proof (BPS_mod (k - 2)). pose proof BPS_range.
    unfold allocated, bitmap_sector in *. cbn [acache with_cache bitmap].
    destruct (decide ((k - 2) / BPS = q)) as [<-|Hne].
    + fold s. rewrite Hs, Hbits by (unfold BPS in *; lia). apply decide_ext. lia.
    + assert (Hns : Slim.first_sector (bitmap al) + (k - 2) / BPS ≠ s) by (unfold s; lia).
      rewrite (proj1 (proj2 Hf _ Hka Hns)). rewrite decide_False; [done|]. intros Hr. apply Hne.
      symmetry. apply Z.div_unique with (k - 2 - BPS * q); lia.
Qed.

Lemma mark_chunks_ok fuel v c r t al d :
  alloc_inv al d → dirty_ok t → 2 ≤ c → 0 ≤ r → c + r ≤ limit al → (0 < fuel)%nat →
  (r = 0 ∨ (c - 2) mod BPS + r ≤ BPS * (Z.of_nat fuel - 1)) →
  ∃ t' al' d', mark_chunks fuel v {| cluster_id := c; remaining := r |} (t, (al, d)) =
      ((t', (al', d')), Ok ()) ∧
    alloc_inv al' d' ∧ bitmap_frame al d al' d' ∧ dirty_ok t' ∧
    tracks t al d t' al' d' ∧
    (∀ k, c ≤ k < c + r → records t' (bitmap_sector al k)) ∧
    (∀ k, 2 ≤ k < limit al →
       allocated al' d' k = if decide (c ≤ k < c + r) then v else allocated al d k).
Proof.
  intros Hinv Ht Hc Hr Hlim Hf Hfuel. revert c r t al d Hinv Ht Hc Hr Hlim Hf Hfuel.
  induction fuel as [|fuel IH]; intros c r t al d Hinv Ht Hc Hr Hlim Hf Hfuel; [lia|].
  cbn [mark_chunks]. unfold BitmapRunChunks_next. cbn [remaining cluster_id].
  destruct (Z.eqb_spec r 0) as [->|Hr0].
  { exists t, al, d. rewrite bind_lift_Ok.
    split_and!; [done|done|apply bitmap_frame_refl|done|apply tracks_refl|lia|].
    intros k _. by rewrite decide_False by lia. }
  destruct Hfuel as [|Hfuel]; [lia|].
  pose proof (limit_range _ _ Hinv). pose proof BPS_range.
  destruct (bitmap_sector_range al d c Hinv) as (Hq & Had & Hsec); [lia|].
  pose proof (BPS_mod (c - 2)) as Hbit. pose proof (pos_split (c - 2)) as Hsplit.
  set (q := (c - 2) / BPS) in *. set (bit := (c - 2) mod BPS) in *.
  rewrite BitmapPos_of_ok by lia. cbn [mbind outcome_bind BitmapPos.bit BitmapPos.sector].
  rewrite CPS_eq. fold bit q. rewrite sub_ok by lia. cbn [mbind outcome_bind].
  set (taken := Z.min (BPS - bit) r).
  rewrite add_ok, sub_ok, add_ok by lia. cbn [mbind outcome_bind]. rewrite bind_lift_Ok.
  cbn [chunk_sector bits].
  rewrite (bind_Ok (gets _) _ _ (t, (al, d)) (bitmap al)) by done.
  rewrite add_ok, bind_lift_Ok by exact Hsec.
  destruct (mark_one_ok v al d q bit (bit + taken) Hinv Hq) as (c' & d' & Hu & Hinv' & Hfr & Hone & Hal);
    [lia..|].
  erewrite bind_Ok; [|apply zoom_eq, zoom_eq; exact Hu]. cbn [put view lacache lsnd fst snd].
  change ({| bitmap := _; acache := c'; next_search_cluster := _ |}) with (with_cache al c').
  set (s := Slim.first_sector (bitmap al) + q) in *.
  rewrite (bind_Ok _ _ _ (insert (TouchedSector_new Bitmap s) t, (with_cache al c', d')) ()) by done.
  assert (Hnext : r - taken = 0 ∨ (c + taken - 2) mod BPS = 0).
  { destruct (decide (r ≤ BPS - bit)); [left; lia|right].
    replace (c + taken - 2) with (BPS * (q + 1) + 0) by lia. by apply pos_unique; lia. }
  destruct (IH (c + taken) (r - taken) (insert (TouchedSector_new Bitmap s) t)
    (with_cache al c') d') as (t2 & al2 & d2 & Hm & Hinv2 & Hfr2 & Ht2 & Hmono & Hrec & Hal2).
  { done. } { auto with exfat. } { lia. } { lia. } { cbn. unfold limit in *. cbn. lia. }
  { nia. } { destruct Hnext as [?|Hz]; [by left|]. rewrite Hz. destruct (decide (r = taken)); nia. }
  exists t2, al2, d2. split_and!; [exact Hm|done|by eapply bitmap_frame_trans|done| | |].
  - eapply (tracks_trans t al d _ (with_cache al c') d'); [apply Hone|done| |exact Hmono].
    split; [apply extends_insert; [done|]; split; [done|unfold bitmap_sectors; cbn; lia]|].
    intros s' Hs' Hsv. destruct (decide (s' = s)) as [->|Hne].
    + right. apply (insert_records (TouchedSector_new Bitmap s) t Ht).
    + left. by apply (proj2 Hone s' Hs' Hne).
  - intros k Hk. destruct (decide (c + taken ≤ k)); [apply Hrec; lia|].
    apply (proj1 (proj1 Hmono)). assert ((k - 2) / BPS = q) as Hkq.
    { symmetry. apply Z.div_unique with (k - 2 - BPS * q); lia. }
    unfold bitmap_sector. rewrite Hkq. apply (insert_records (TouchedSector_new Bitmap s) t Ht).
  - intros k Hk. rewrite Hal2, Hal by done.
    repeat case_decide; try done; lia.
Qed.
End Marking.

Section MarkAllocated.
Context {cfg : Config} {crates : Crates} {bd : BlockDevice}.
Context {Hcfg : ConfigOk cfg} {Hcr : CratesOk crates} {Hbd : DeviceOk cfg bd}.
Implicit Types (al : Allocator) (d : dev) (t : FileDirty).

(** The run lies in the bitmap: what [mark_allocated] accepts. *)
Definition run_ok al (run : AllocatedRun) : Prop :=
  2 ≤ first_cluster run ∧ 0 < cluster_count run ∧
  first_cluster run + cluster_count run ≤ limit al.
Definition in_run (run : AllocatedRun) (k : Z) : Prop :=
  first_cluster run ≤ k < first_cluster run + cluster_count run.
#[export] Instance in_run_dec run k : Decision (in_run run k).
Proof. unfold in_run. apply _. Defined.

Lemma limit_le al d k : alloc_inv al d → 2 ≤ k < 2 ^ 32 →
  (2 + Slim.cluster_count (bitmap al) <=? k) || (Slim.num_sectors (bitmap al) <=? (k - 2) / BPS)
    = bool_decide (limit al ≤ k).
Proof.
  intros Hinv Hk. pose proof BPS_range. destruct (alloc_sectors _ _ Hinv) as (_ & ? & _).
  unfold limit. pose proof (pos_split (k - 2)). pose proof (BPS_mod (k - 2)).
  symmetry. case_bool_decide; symmetry; [apply orb_true_iff|apply orb_false_iff]; nia.
Qed.

Lemma mark_allocated_ok al d t run v :
  alloc_inv al d → dirty_ok t → run_ok al run →
  ∃ t' al' d', mark_allocated run v (t, (al, d)) = ((t', (al', d')), Ok ()) ∧
    alloc_inv al' d' ∧ bitmap_frame al d al' d' ∧ dirty_ok t' ∧
    tracks t al d t' al' d' ∧
    (∀ k, in_run run k → records t' (bitmap_sector al k)) ∧
    (∀ k, 2 ≤ k < limit al →
       allocated al' d' k = if decide (in_run run k) then v else allocated al d k).
Proof.
  intros Hinv Ht (Hf & Hc & Hl). destruct run as [f n]. cbn [first_cluster cluster_count] in *.
  pose proof (limit_range _ _ Hinv). pose proof (alloc_clusters _ _ Hinv). pose proof BPS_range.
  pose proof (BPS_mod (f - 2)). pose proof (pos_split n). pose proof (BPS_mod n).
  assert (0 ≤ n / BPS) by (apply Z.div_pos; lia).
  destruct (mark_chunks_ok (Z.to_nat (n / BPS + 3)) v f n t al d) as (t' & al' & d' & Hm & Hpost);
    [done|done|lia|lia|lia|lia|right; nia|].
  exists t', al', d'. split; [|exact Hpost]. unfold mark_allocated, FIRST_CLUSTER_ID.
  cbn [first_cluster cluster_count].
  rewrite (proj2 (Z.eqb_neq n 0)), (proj2 (Z.ltb_ge f 2)) by lia.
  rewrite sub_ok, bind_lift_Ok by lia. rewrite fits_true by lia. cbn [negb].
  rewrite (bind_Ok (gets _) _ _ (t, (al, d)) (bitmap al)) by done.
  rewrite add_ok, bind_lift_Ok by lia.
  pose proof (limit_le al d (f + (n - 1)) Hinv ltac:(lia)) as Hle.
  rewrite bool_decide_eq_false_2 in Hle by lia. apply orb_false_iff in Hle as [-> Hle].
  rewrite BitmapPos_of_ok by lia.
  rewrite (bind_Ok _ _ _ (t, (al, d)) false); [|rewrite bind_lift_Ok; cbn [BitmapPos.sector]; by rewrite Hle].
  by rewrite CPS_eq.
Qed.

(** [mark_allocated] on a run inside the bitmap sets (or clears) exactly
    the bits of its clusters, across sector boundaries, records every bitmap
    sector it changed, and touches no sector outside the bitmap; an empty run
    is a no-op and a run that starts below cluster 2 or leaves the bitmap is
    refused with [InvalidClusterId] before anything changes. *)
Theorem mark_allocated_correct al d t run v :
  alloc_inv al d → dirty_ok t →
  0 ≤ first_cluster run < 2 ^ 32 → 0 ≤ cluster_count run < 2 ^ 32 →
  (run_ok al run →
   ∃ t' al' d', mark_allocated run v (t, (al, d)) = ((t', (al', d')), Ok ()) ∧
     alloc_inv al' d' ∧ bitmap_frame al d al' d' ∧ dirty_ok t' ∧
     tracks t al d t' al' d' ∧
     (∀ k, in_run run k → records t' (bitmap_sector al k)) ∧
     (∀ k, 2 ≤ k < limit al →
        allocated al' d' k = if decide (in_run run k) then v else allocated al d k)) ∧
  (cluster_count run = 0 → mark_allocated run v (t, (al, d)) = ((t, (al, d)), Ok ())) ∧
  (¬ run_ok al run → cluster_count run ≠ 0 →
   mark_allocated run v (t, (al, d)) =
     ((t, (al, d)), Err (InvalidClusterId (first_cluster run)))).
Proof.
  intros Hinv Ht Hf Hn. split; [by apply mark_allocated_ok|].
  destruct run as [f n]. cbn [first_cluster cluster_count] in *.
  unfold mark_allocated, run_ok, FIRST_CLUSTER_ID. cbn [first_cluster cluster_count].
  split; [by intros ->|]. intros Hbad Hn0. rewrite (proj2 (Z.eqb_neq n 0)) by done.
  destruct (Z.ltb_spec f 2); [done|]. rewrite sub_ok, bind_lift_Ok by lia.
  destruct (fits u32 (f + (n - 1))) eqn:Hfits; [|done]. unfold fits in Hfits. cbn [negb].
  rewrite (bind_Ok (gets _) _ _ (t, (al, d)) (bitmap al)) by done.
  pose proof (alloc_clusters _ _ Hinv). rewrite add_ok, bind_lift_Ok by lia.
  pose proof (limit_le al d (f + (n - 1)) Hinv ltac:(lia)) as Hle.
  rewrite bool_decide_eq_true_2 in Hle by lia.
  rewrite BitmapPos_of_ok by lia.
  rewrite (bind_Ok _ _ _ (t, (al, d)) true); [done|].
  destruct (2 + Slim.cluster_count (bitmap al) <=? f + (n - 1)) eqn:He; [done|].
  cbn [orb] in Hle. rewrite bind_lift_Ok. cbn [BitmapPos.sector]. by rewrite Hle.
Qed.
End MarkAllocated.
