(* ===== verification/AllocationSearch.v ===== *)
(** * The free-cluster search of src/allocation.rs is correct

    [find_free_clusters_from] walks the bitmap sector by sector, skips full
    32-bit words, ignores bits before its starting cluster and stops at the
    end of the heap.  It is proved equal to [ref_scan], which looks at one
    cluster after the other, and [ref_scan] to return what the search policy
    promises.  [find_free_clusters] and [allocate] build on it. *)

From S2P Require Import Prelude Text Crates Errors Utils BootSector Device SlotCache Touched Fat Allocation.

(** * The reference *)

(** The scan variables moved to cluster [k]. *)
Definition at_cluster (k : Z) (st : scan) : scan :=
  {| scan_cluster := k; scan_first := scan_first st; scan_count := scan_count st;
     scan_longest := scan_longest st |}.
Definition scan_init (k : Z) : scan :=
  {| scan_cluster := k; scan_first := None; scan_count := 0; scan_longest := None |}.

Section Reference.
Context (policy : SearchPolicy) (num : Z) (is_free : Z → bool).

Definition ref_finish (st : scan) : option AllocatedRun :=
  match close_run policy st with
  | (_, Some run) => Some run
  | (st, None) => scan_longest st
  end.

(** One cluster at a time, [n] clusters in all. *)
Fixpoint ref_scan (n : nat) (st : scan) : option AllocatedRun :=
  match n with
  | O => ref_finish st
  | S n =>
      let k := scan_cluster st in
      if is_free k then
        let first := default k (scan_first st) in
        let count := scan_count st + 1 in
        if count =? num then Some {| first_cluster := first; cluster_count := count |}
        else ref_scan n {| scan_cluster := k + 1; scan_first := Some first; scan_count := count;
                           scan_longest := scan_longest st |}
      else match close_run policy st with
           | (_, Some run) => Some run
           | (st, None) => ref_scan n (at_cluster (k + 1) st)
           end
  end.
End Reference.

(** * Full words *)
Lemma full_chunk chunk i :
  length chunk = 4%nat → Forall byte_ok chunk → from_le_bytes chunk = umax u32 →
  (i < 4)%nat → chunk !!! i = 255.
Proof.
  intros Hl Hb Hf Hi. assert (chunk = [255; 255; 255; 255]) as ->.
  { rewrite <-(to_from_le_bytes chunk), Hl, Hf by done. by vm_compute. }
  do 4 (destruct i as [|i]; [done|]). lia.
Qed.
Lemma is_free_testbit b j : 0 ≤ j → is_free b j = negb (Z.testbit b j).
Proof.
  intros Hj. unfold is_free. destruct (Z.testbit b j) eqn:Hb; cbn.
  - apply Z.eqb_neq. intros H0.
    assert (Ht : Z.testbit (Z.land b (Z.shiftl 1 j)) j = true).
    { by rewrite Z.land_spec, Hb, testbit_mask, bool_decide_eq_true_2. }
    by rewrite H0, Z.bits_0 in Ht.
  - apply Z.eqb_eq, Z.bits_inj'. intros n Hn. rewrite Z.land_spec, testbit_mask, Z.bits_0 by done.
    case_bool_decide; [subst; by rewrite Hb|apply andb_false_r].
Qed.
Lemma full_byte_taken j : 0 ≤ j < 8 → is_free 255 j = false.
Proof.
  intros Hj. rewrite is_free_testbit by lia. change 255 with (Z.ones 8).
  rewrite Z.ones_spec_low by lia. done.
Qed.

(** * The code's scan equals the reference *)
Section Equivalence.
Context {cfg : Config} {bd : BlockDevice} {Hcfg : ConfigOk cfg}.
Context (policy : SearchPolicy) (from_cluster end_cluster num top : Z) (freeb : Z → bool).
Hypothesis Hfrom : 2 ≤ from_cluster.
Hypothesis Htop : top < 2 ^ 32.
Let lim := Z.min end_cluster top.

(** What the reference returns from the code's position. *)
Definition rest (st : scan) : option AllocatedRun :=
  let k := Z.max (scan_cluster st) from_cluster in
  ref_scan policy num freeb (Z.to_nat (lim - k)) (at_cluster k st).

Definition scan_inv (c : Z) (st : scan) : Prop :=
  scan_cluster st = c ∧ 2 ≤ c ∧ (c ≤ from_cluster → st = scan_init c) ∧
  0 ≤ scan_count st ∧ (from_cluster ≤ c → scan_count st ≤ c - from_cluster).

Definition good (r : option AllocatedRun) (fl : flow scan AllocatedRun) (c : Z) : Prop :=
  match fl with
  | Next st => scan_inv c st ∧ rest st = r
  | Return run => r = Some run
  | Break st => ref_finish policy st = r
  end.

Lemma ref_finish_at k st : ref_finish policy (at_cluster k st) = ref_finish policy st.
Proof. destruct policy, st as [? [] ? []]; done. Qed.

Lemma close_run_at k st :
  close_run policy (at_cluster k st) =
    (at_cluster k (close_run policy st).1, (close_run policy st).2).
Proof. destruct policy, st as [? [] ? []]; done. Qed.

Lemma close_run_closed st st' :
  close_run policy st = (st', None) →
  scan_first st' = None ∧ scan_count st' = 0 ∧ scan_cluster st' = scan_cluster st ∧
  ref_finish policy st' = ref_finish policy st.
Proof. unfold ref_finish. destruct policy, st as [? [] ? []]; cbn; intros; by simplify_eq. Qed.

Lemma close_run_init k : close_run policy (scan_init k) = (scan_init k, None).
Proof. by destruct policy. Qed.

Lemma close_run_nothing st :
  scan_first st = None → scan_count st = 0 → close_run policy st = (st, None).
Proof. destruct policy, st as [? [] ? []]; cbn; intros; by simplify_eq. Qed.

Lemma ref_skip m n st :
  scan_first st = None → scan_count st = 0 →
  (∀ j, scan_cluster st ≤ j < scan_cluster st + Z.of_nat m → freeb j = false) →
  ref_scan policy num freeb (m + n) st =
    ref_scan policy num freeb n (at_cluster (scan_cluster st + Z.of_nat m) st).
Proof.
  revert st. induction m as [|m IH]; intros st Hf Hc Hj.
  { f_equal. destruct st; cbn in *. unfold at_cluster. cbn. by rewrite Z.add_0_r. }
  cbn [ref_scan Nat.add]. rewrite Hj by lia. rewrite close_run_nothing by done.
  rewrite IH; cbn [at_cluster scan_cluster scan_first scan_count]; [|done..|].
  - unfold at_cluster at 1 3. cbn. do 2 f_equal. lia.
  - intros j ?. apply Hj. lia.
Qed.

Lemma flow_each_good {A} (l : list A) body w c st :
  (∀ i x, l !! i = Some x → ∀ st, scan_inv (c + w * Z.of_nat i) st →
     ∃ fl, body x st = Ok fl ∧ good (rest st) fl (c + w * Z.of_nat i + w)) →
  scan_inv c st →
  ∃ fl, flow_each (E:=err) l body st = Ok fl ∧ good (rest st) fl (c + w * len l).
Proof.
  revert c st. induction l as [|x l IH]; intros c st Hbody Hst.
  { exists (Next st). split; [done|]. unfold len. cbn. by rewrite Z.mul_0_r, Z.add_0_r. }
  destruct (Hbody 0%nat x eq_refl st) as (fl & Hx & Hg).
  { cbn. by rewrite Z.mul_0_r, Z.add_0_r. }
  cbn [flow_each]. rewrite Hx. cbn [mbind outcome_bind]. destruct fl as [st1|run|st1].
  - destruct Hg as [Hi Hr]. rewrite <-Hr.
    replace (c + w * Z.of_nat 0 + w) with (c + w) in Hi by lia.
    destruct (IH (c + w) st1) as (fl & Hfl & Hg); [|done|].
    + intros i y Hy. specialize (Hbody (S i) y Hy).
      replace (c + w + w * Z.of_nat i) with (c + w * Z.of_nat (S i)) by lia. done.
    + exists fl. split; [done|].
      replace (c + w * len (x :: l)) with (c + w + w * len l) by (unfold len; cbn [length]; lia).
      done.
  - exists (Return run). done.
  - exists (Break st1). done.
Qed.

Lemma rest_at c st k : from_cluster ≤ c → scan_cluster st = c → c < lim → k = c →
  rest st = ref_scan policy num freeb (S (Z.to_nat (lim - (c + 1)))) (at_cluster k st).
Proof.
  intros Hc Hst Hl ->. unfold rest. rewrite Hst, Z.max_l by lia. f_equal. lia.
Qed.

Lemma scan_bit_good byte bit c st :
  scan_inv c st → c < top → (from_cluster ≤ c < lim → freeb c = is_free byte bit) →
  ∃ fl, scan_bit policy from_cluster end_cluster num byte bit st = Ok fl ∧
    good (rest st) fl (c + 1).
Proof.
  intros (Hst & Hc2 & Hinit & Hcnt & Hbound) Hct Hfree. unfold scan_bit.
  rewrite Hst. destruct (Z.ltb_spec c from_cluster) as [Hlt|Hge].
  { rewrite add_ok by lia. cbn [mbind outcome_bind]. eexists. split; [done|]. cbn.
    rewrite (Hinit ltac:(lia)). split; [split_and!; cbn; (done || (intros; lia))|].
    unfold rest. cbn. by rewrite !Z.max_r by lia. }
  specialize (Hbound Hge). destruct (Z.leb_spec end_cluster c) as [He|He].
  { eexists. split; [done|]. cbn. unfold rest. rewrite Hst, Z.max_l by lia.
    replace (Z.to_nat _) with 0%nat by lia. cbn. by rewrite ref_finish_at. }
  assert (Hcl : c < lim) by (unfold lim; lia). rewrite (rest_at c st c) by done.
  cbn [ref_scan at_cluster scan_cluster]. rewrite Hfree by lia.
  destruct (is_free byte bit).
  - cbn [at_cluster scan_cluster scan_count scan_first scan_longest].
    rewrite !add_ok by lia. cbn [mbind outcome_bind].
    replace (match scan_first st with Some f => Some f | None => Some c end)
      with (Some (default c (scan_first st))) by (by destruct (scan_first st)).
    destruct (scan_count st + 1 =? num).
    { eexists. split; [done|]. by destruct (scan_first st). }
    eexists. split; [done|]. cbn. split; [split_and!; cbn; (done || (intros; lia))|]. unfold rest. cbn.
    rewrite Z.max_l by lia. f_equal.
  - rewrite (close_run_at c st). destruct (close_run policy st) as [st1 [run|]] eqn:Hcr; cbn [fst snd].
    { eexists. split; [done|]. done. }
    destruct (close_run_closed _ _ Hcr) as (Hf1 & Hc1 & Hk1 & _). rewrite Hk1, Hst.
    rewrite add_ok by lia. cbn [mbind outcome_bind]. eexists. split; [done|].
    cbn. split; [split_and!; cbn; (done || (intros; lia))|].
    unfold rest. cbn. rewrite Z.max_l by lia. f_equal.
Qed.

(** The chunk [scan_chunk] skips: 32 clusters that are all taken. *)
Lemma skip_good c st st1 :
  scan_inv c st → c + 32 ≤ top → (∀ k, from_cluster ≤ k < lim → c ≤ k < c + 32 → freeb k = false) →
  close_run policy st = (st1, None) → good (rest st) (Next (at_cluster (c + 32) st1)) (c + 32).
Proof.
  intros (Hst & Hc2 & Hinit & Hcnt & Hbound) Htop' Hfree Hcr.
  destruct (close_run_closed _ _ Hcr) as (Hf1 & Hc1 & Hk1 & Hfin).
  assert (Hinv : scan_inv (c + 32) (at_cluster (c + 32) st1)).
  { split_and!; cbn; [done|lia| |lia|intros; lia]. intros Hle. rewrite Hinit in Hcr by lia.
    rewrite close_run_init in Hcr. by simplify_eq. }
  split; [exact Hinv|]. unfold rest. cbn [at_cluster scan_cluster]. rewrite Hst.
  destruct (decide (c + 32 ≤ from_cluster)) as [Hle|Hgt].
  { rewrite !Z.max_r by lia. rewrite Hinit in Hcr |- * by lia.
    rewrite close_run_init in Hcr. by simplify_eq. }
  rewrite (Z.max_l (c + 32)) by lia. set (k0 := Z.max c from_cluster).
  destruct (decide (lim ≤ k0)) as [Hlim|Hlim].
  { replace (Z.to_nat (lim - k0)) with 0%nat by lia.
    replace (Z.to_nat (lim - (c + 32))) with 0%nat by lia. cbn [ref_scan].
    rewrite !ref_finish_at. exact Hfin. }
  replace (Z.to_nat (lim - k0)) with
    (S (Z.to_nat (Z.min lim (c + 32) - (k0 + 1)) + Z.to_nat (lim - (c + 32))))%nat by lia.
  cbn [ref_scan]. cbn [at_cluster scan_cluster]. rewrite Hfree by lia.
  rewrite (close_run_at k0 st), Hcr. cbn [fst snd].
  rewrite ref_skip; [|done..|].
  - cbn [at_cluster scan_cluster scan_first scan_count scan_longest].
    destruct (decide (c + 32 ≤ lim)).
    + unfold at_cluster. cbn. do 2 f_equal. lia.
    + replace (Z.to_nat (lim - (c + 32))) with 0%nat by lia. cbn [ref_scan].
      by rewrite !ref_finish_at.
  - cbn. intros j Hj. apply Hfree; lia.
Qed.

Lemma scan_chunk_good chunk c st :
  scan_inv c st → length chunk = 4%nat → Forall byte_ok chunk → c + 32 ≤ top →
  (∀ i j, (i < 4)%nat → 0 ≤ j < 8 → from_cluster ≤ c + 8 * Z.of_nat i + j < lim →
     freeb (c + 8 * Z.of_nat i + j) = is_free (chunk !!! i) j) →
  ∃ fl, scan_chunk policy from_cluster end_cluster num chunk st = Ok fl ∧
    good (rest st) fl (c + 32).
Proof.
  intros Hst Hlen Hb Hct Hfree. unfold scan_chunk.
  destruct (Z.eqb_spec (from_le_bytes chunk) (umax u32)) as [Hfull|_].
  - destruct (close_run policy st) as [st1 [run|]] eqn:Hcr.
    + exists (Return run). split; [done|]. unfold good, rest.
      destruct Hst as (Hst & Hc2 & Hinit & _ & _).
      destruct (decide (c ≤ from_cluster)).
      { rewrite Hinit, close_run_init in Hcr by done. done. }
      rewrite Hst, Z.max_l by lia. destruct (decide (lim ≤ c)) as [|Hlim].
      * replace (Z.to_nat _) with 0%nat by lia. cbn. rewrite ref_finish_at. unfold ref_finish.
        by rewrite Hcr.
      * replace (Z.to_nat (lim - c)) with (S (Z.to_nat (lim - (c + 1)))) by lia.
        cbn [ref_scan]. cbn [at_cluster scan_cluster].
        assert (Hfalse : freeb c = false).
        { specialize (Hfree 0%nat 0). rewrite Z.mul_0_r, !Z.add_0_r in Hfree.
          rewrite Hfree by lia. rewrite (full_chunk chunk) by (done || lia). by apply full_byte_taken. }
        rewrite Hfalse, (close_run_at c st), Hcr. done.
    + pose proof (close_run_closed _ _ Hcr) as (_ & _ & Hk1 & _).
      pose proof Hst as (Hst' & ? & _). rewrite Hk1, Hst'. rewrite add_ok by lia.
      eexists. split; [done|]. apply skip_good; [done|done| |done].
      intros k Hk Hkc. set (i := Z.to_nat ((k - c) / 8)). set (j := (k - c) mod 8).
      replace k with (c + 8 * Z.of_nat i + j) in * by (unfold i, j; dlia).
      rewrite Hfree; [|unfold i; dlia|unfold j; dlia|done].
      rewrite (full_chunk chunk) by (done || (unfold i; dlia)).
      apply full_byte_taken. unfold j. dlia.
  - replace (c + 32) with (c + 8 * len chunk) by (unfold len; lia).
    apply flow_each_good; [|done]. intros i x Hx st' Hst'.
    pose proof (lookup_lt_Some _ _ _ Hx) as Hi.
    replace (c + 8 * Z.of_nat i + 8) with (c + 8 * Z.of_nat i + 1 * len (seqZ 0 8)) by done.
    apply flow_each_good; [|done]. intros j b Hj st2 Hst2.
    apply lookup_seqZ in Hj as [-> Hj]. rewrite Z.mul_1_l in *.
    apply scan_bit_good; [done|lia|]. intros Hr. rewrite Z.add_0_l.
    rewrite Hfree by lia. by rewrite (list_lookup_total_correct _ _ _ Hx).
Qed.
End Equivalence.

(** * The search over the cached bitmap *)
Section Search.
Context {cfg : Config} {bd : BlockDevice} {Hcfg : ConfigOk cfg} {Hbd : DeviceOk cfg bd}.
Implicit Types (al : Allocator) (d : dev).

(** Nothing a reader of the bitmap sees has changed. *)
Definition same_alloc al d al' d' : Prop :=
  alloc_inv al' d' ∧ bitmap al' = bitmap al ∧ next_search_cluster al' = next_search_cluster al ∧
  same_sectors (acache al) d (acache al') d'.

Lemma same_alloc_refl al d : alloc_inv al d → same_alloc al d al d.
Proof. intros. split_and!; [done..|apply same_refl]. Qed.
Lemma same_alloc_trans al0 d0 al1 d1 al2 d2 :
  same_alloc al0 d0 al1 d1 → same_alloc al1 d1 al2 d2 → same_alloc al0 d0 al2 d2.
Proof.
  intros (? & ? & ? & ?) (? & ? & ? & ?). split_and!; [done|congruence..|by eapply frame_trans].
Qed.
Lemma same_alloc_allocated al d al' d' k :
  alloc_inv al d → same_alloc al d al' d' → 2 ≤ k < limit al →
  allocated al' d' k = allocated al d k.
Proof.
  intros Hinv (_ & Hb & _ & Hs) Hk. unfold allocated, bitmap_sector. rewrite Hb.
  destruct (bitmap_sector_range al d k Hinv Hk) as (_ & Had & _).
  unfold bitmap_sector in Had. by rewrite (proj1 (proj2 Hs _ Had (λ f, f))).
Qed.
Lemma same_alloc_limit al d al' d' : same_alloc al d al' d' → limit al' = limit al.
Proof. intros (_ & Hb & _ & _). unfold limit. by rewrite Hb. Qed.

Lemma fetch_bitmap al d q :
  alloc_inv al d → 0 ≤ q < Slim.num_sectors (bitmap al) →
  ∃ al' d', zoom lacache (fetch (Slim.first_sector (bitmap al) + q)) (al, d) =
      ((al', d'), Ok (seen (acache al) d (Slim.first_sector (bitmap al) + q))) ∧
    same_alloc al d al' d'.
Proof.
  intros Hinv Hq. set (s := Slim.first_sector (bitmap al) + q).
  assert (Had : addressable d s) by (apply (alloc_addressable _ _ Hinv); lia).
  destruct (fetch_ok (acache al) d s (alloc_cache _ _ Hinv) Had) as (c' & d' & Hf & Hc' & Hs).
  exists (with_cache al c'), d'. split.
  - erewrite zoom_eq; [|exact Hf]. done.
  - split_and!; [|done..]. by apply (alloc_inv_cache al d); [..|apply Hs].
Qed.

Context (policy : SearchPolicy) (from_cluster num : Z).
Hypothesis Hfrom : 2 ≤ from_cluster.

Lemma byte_of_chunk (b : list Z) (i j : nat) :
  len b = SIZE → (i < length b / 4)%nat → (j < 4)%nat →
  (take 4 (drop (4 * i) b)) !!! j = b !!! (4 * i + j)%nat.
Proof.
  intros Hl Hi Hj. rewrite !list_lookup_total_alt, lookup_take_lt by done. by rewrite lookup_drop.
Qed.

Lemma scan_sector_good freeb al d q st :
  alloc_inv al d → 0 ≤ q < Slim.num_sectors (bitmap al) →
  (∀ k, 2 ≤ k < limit al → freeb k = negb (allocated al d k)) →
  let end_cluster := 2 + Slim.cluster_count (bitmap al) in
  let top := 2 + Slim.num_sectors (bitmap al) * BPS in
  let c := 2 + BPS * q in
  scan_inv from_cluster c st →
  ∃ fl, flow_each (as_chunks 4 (seen (acache al) d (Slim.first_sector (bitmap al) + q)))
      (scan_chunk policy from_cluster end_cluster num) st = Ok fl ∧
    good policy from_cluster end_cluster num top freeb
      (rest policy from_cluster end_cluster num top freeb st) fl (2 + BPS * (q + 1)).
Proof.
  intros Hinv Hq Hfree end_cluster top c Hst.
  set (s := Slim.first_sector (bitmap al) + q).
  assert (Had : addressable d s) by (apply (alloc_addressable _ _ Hinv); lia).
  destruct (sector_ok _ d s (alloc_cache _ _ Hinv) Had) as [Hl Hb].
  set (b := seen (acache al) d s) in *. pose proof BPS_range. pose proof SIZE_entries as Hent.
  assert (Hchunks : length (as_chunks 4 b) = (length b / 4)%nat) by (apply length_as_chunks; lia).
  assert (Hlen4 : 4 * (Z.of_nat (length b / 4)) = SIZE).
  { rewrite Nat2Z.inj_div. unfold len in Hl. rewrite Hl. change (Z.of_nat 4) with 4. dlia. }
  replace (2 + BPS * (q + 1)) with (c + 32 * len (as_chunks 4 b))
    by (unfold len; rewrite Hchunks; unfold BPS in *; lia).
  apply flow_each_good; [|done]. intros i x Hx st' Hst'.
  pose proof (lookup_lt_Some _ _ _ Hx) as Hi. rewrite Hchunks in Hi.
  assert (Hi4 : (4 * S i ≤ length b)%nat) by (unfold len in Hl; lia).
  rewrite as_chunks_lookup in Hx by lia. apply (inj Some) in Hx as <-.
  assert (Hctop : c + 32 * Z.of_nat i + 32 ≤ top).
  { unfold c, top, BPS in *. unfold len in Hl. nia. }
  apply scan_chunk_good; [done|apply (alloc_bits _ _ Hinv)|done| | |done|].
  - rewrite length_take, length_drop. lia.
  - by apply Forall_take, Forall_drop.
  - intros j m Hj Hm Hr. rewrite byte_of_chunk by done.
    rewrite is_free_testbit by lia. rewrite Hfree by (unfold limit; fold end_cluster top; lia).
    f_equal. unfold allocated, bit_of, bitmap_sector.
    set (r := 32 * Z.of_nat i + 8 * Z.of_nat j + m).
    assert (Hr8 : 0 ≤ r < BPS) by (unfold r, BPS, len in *; lia).
    replace (c + 32 * Z.of_nat i + 8 * Z.of_nat j + m - 2) with (BPS * q + r) by (unfold c, r; lia).
    destruct (pos_unique q r Hr8) as [-> ->]. fold s b.
    f_equal; [|unfold r; dlia]. f_equal. unfold r. dlia.
Qed.

Lemma scan_sectors_good freeb n al d q st :
  alloc_inv al d → 0 ≤ q → q + Z.of_nat n = Slim.num_sectors (bitmap al) →
  (∀ k, 2 ≤ k < limit al → freeb k = negb (allocated al d k)) →
  let end_cluster := 2 + Slim.cluster_count (bitmap al) in
  let top := 2 + Slim.num_sectors (bitmap al) * BPS in
  scan_inv from_cluster (2 + BPS * q) st →
  ∃ fl al' d', scan_sectors policy from_cluster end_cluster num (seqZ q (Z.of_nat n)) st (al, d) =
      ((al', d'), Ok fl) ∧ same_alloc al d al' d' ∧
    good policy from_cluster end_cluster num top freeb
      (rest policy from_cluster end_cluster num top freeb st) fl
      (2 + BPS * Slim.num_sectors (bitmap al)).
Proof.
  cbv zeta. revert al d q st.
  induction n as [|n IH]; intros al d q st Hinv Hq Hn Hfree Hst.
  { exists (Next st), al, d. split_and!; [done|by apply same_alloc_refl|].
    replace (Slim.num_sectors (bitmap al)) with q by lia. done. }
  rewrite seqZ_cons by lia. replace (Z.succ q) with (q + 1) by lia.
  replace (Z.pred (Z.of_nat (S n))) with (Z.of_nat n) by lia. cbn [scan_sectors].
  rewrite (bind_Ok (gets _) _ _ (al, d) (bitmap al)) by done.
  destruct (alloc_sectors _ _ Hinv) as (? & ? & ?).
  rewrite add_ok, bind_lift_Ok by lia.
  destruct (fetch_bitmap al d q Hinv) as (al1 & d1 & Hf & Hs1); [lia|].
  rewrite (bind_Ok _ _ _ _ _ Hf).
  destruct (scan_sector_good freeb al d q st Hinv) as (fl & Hfl & Hg); [lia|done|done|].
  rewrite Hfl, bind_lift_Ok. destruct fl as [st1|run|st1].
  - destruct Hg as [Hst1 <-]. pose proof Hs1 as (Hinv1 & Hb1 & _).
    destruct (IH al1 d1 (q + 1) st1) as (fl & al' & d' & Hr & Hs & Hg);
      [done|lia|rewrite Hb1; lia| |done|].
    + intros k Hk. rewrite (same_alloc_limit _ _ _ _ Hs1) in Hk.
      rewrite (same_alloc_allocated al d) by done. auto.
    + rewrite Hb1 in *. exists fl, al', d'. split_and!; [done|by eapply same_alloc_trans|done].
  - exists (Return run), al1, d1. done.
  - exists (Break st1), al1, d1. done.
Qed.

(** The search returns what the reference returns. *)
Lemma find_free_clusters_from_ok al d :
  alloc_inv al d → from_cluster < 2 ^ 32 →
  ∃ al' d', find_free_clusters_from from_cluster num policy (al, d) =
      ((al', d'),
       match ref_scan policy num (λ k, negb (allocated al d k))
               (Z.to_nat (limit al - from_cluster)) (scan_init from_cluster) with
       | Some run => Ok run
       | None => Err DiskFull
       end) ∧
    same_alloc al d al' d'.
Proof.
  intros Hinv Hf. pose proof BPS_range. unfold find_free_clusters_from, FIRST_CLUSTER_ID.
  rewrite (proj2 (Z.ltb_ge _ _)) by lia.
  rewrite (bind_Ok (gets _) _ _ (al, d) (bitmap al)) by done.
  destruct (alloc_clusters _ _ Hinv). rewrite add_ok, bind_lift_Ok by lia.
  rewrite BitmapPos_of_ok, bind_lift_Ok by lia. cbn [BitmapPos.sector].
  pose proof (limit_le al d from_cluster Hinv ltac:(lia)) as ->.
  case_bool_decide as Hlim.
  { exists al, d. split; [|by apply same_alloc_refl]. replace (Z.to_nat _) with 0%nat by lia.
    by destruct policy. }
  destruct (bitmap_sector_range al d from_cluster Hinv) as (Hq & _); [lia|].
  set (q := (from_cluster - 2) / BPS) in *. pose proof (alloc_bits _ _ Hinv).
  unfold first_cluster_of, BitmapPos_cluster, FIRST_CLUSTER_ID. rewrite CPS_eq.
  cbn [BitmapPos.sector BitmapPos.bit]. rewrite mul_ok by nia. cbn [mbind outcome_bind].
  rewrite add_ok by nia. cbn [mbind outcome_bind]. rewrite add_ok by nia. rewrite bind_lift_Ok.
  replace (q * BPS + 0 + 2) with (2 + BPS * q) by lia.
  destruct (scan_sectors_good (λ k, negb (allocated al d k))
    (Z.to_nat (Slim.num_sectors (bitmap al) - q)) al d q
    (scan_init (2 + BPS * q))) as (fl & al' & d' & Hs & Hsame & Hg);
    [done|lia|lia|done|split_and!; cbn; (done || lia || (intros; lia))|].
  rewrite Z2Nat.id in Hs by lia. unfold scan_init in Hs at 1. rewrite (bind_Ok _ _ _ _ _ Hs).
  exists al', d'. split; [|done].
  assert (Hrest : rest policy from_cluster (2 + Slim.cluster_count (bitmap al)) num
    (2 + Slim.num_sectors (bitmap al) * BPS) (λ k, negb (allocated al d k))
    (scan_init (2 + BPS * q)) =
    ref_scan policy num (λ k, negb (allocated al d k))
      (Z.to_nat (limit al - from_cluster)) (scan_init from_cluster)).
  { unfold rest. cbn [scan_init scan_cluster].
    assert (2 + BPS * q ≤ from_cluster).
    { unfold q. pose proof (pos_split (from_cluster - 2)). pose proof (BPS_mod (from_cluster - 2)). lia. }
    rewrite Z.max_r by done. done. }
  rewrite <-Hrest. destruct fl as [st|run|st]; unfold good in Hg.
  - destruct Hg as [(Hst & _) <-]. unfold rest. rewrite Hst.
    replace (Z.to_nat _) with 0%nat by (unfold limit in Hlim; lia). cbn [ref_scan].
    rewrite ref_finish_at. unfold scan_finish, ref_finish. by destruct (close_run policy st) as [? []].
  - by rewrite Hg.
  - rewrite <-Hg. unfold scan_finish, ref_finish. by destruct (close_run policy st) as [? []].
Qed.
End Search.

(** * What the reference returns *)
Section RefSpec.
Context (policy : SearchPolicy) (num from lim : Z) (free : Z → bool).

(** [n] free clusters from [k] on, all inside the searched range. *)
Definition free_run (k n : Z) : Prop := ∀ j, k ≤ j < k + n → free j = true.
Definition run_in_range (r : AllocatedRun) : Prop :=
  from ≤ first_cluster r ∧ 0 < cluster_count r ∧
  first_cluster r + cluster_count r ≤ lim ∧ free_run (first_cluster r) (cluster_count r) ∧
  (0 < num → cluster_count r ≤ num).

(** The promise of each policy about a run shorter than asked for. *)
Definition first_run_promise (r : AllocatedRun) : Prop :=
  (∀ j, from ≤ j < first_cluster r → free j = false) ∧
  (cluster_count r = num ∨ first_cluster r + cluster_count r = lim ∨
   free (first_cluster r + cluster_count r) = false).
Definition longest_run_promise (r : AllocatedRun) : Prop :=
  cluster_count r = num ∨
  (∀ k n, from ≤ k → k + n ≤ lim → free_run k n → n ≤ cluster_count r).
Definition promise (r : AllocatedRun) : Prop :=
  match policy with FirstRun => first_run_promise r | LongestRun => longest_run_promise r end.

Definition ref_result (o : option AllocatedRun) : Prop :=
  match o with
  | Some r => run_in_range r ∧ promise r
  | None => ∀ j, from ≤ j < lim → free j = false
  end.

(** The run in progress: maximal to the left, ending right before [k]. *)
Definition open_run (k : Z) (st : scan) : Prop :=
  match scan_first st with
  | None => scan_count st = 0 ∧ (from < k → free (k - 1) = false)
  | Some f => from ≤ f ∧ 0 < scan_count st ∧ f + scan_count st = k ∧
      free_run f (scan_count st) ∧ (from < f → free (f - 1) = false) ∧
      (0 < num → scan_count st < num)
  end.
(** What is known of the clusters before [k] under each policy. *)
Definition seen_before (k : Z) (st : scan) : Prop :=
  match policy with
  | FirstRun => scan_longest st = None ∧ ∀ j, from ≤ j < default k (scan_first st) → free j = false
  | LongestRun =>
      (match scan_longest st with Some r => run_in_range r | None => True end) ∧
      ∀ a n, from ≤ a → 0 < n → a + n ≤ default k (scan_first st) → free_run a n →
        match scan_longest st with Some r => n ≤ cluster_count r | None => False end
  end.
Definition ref_inv (k : Z) (st : scan) : Prop :=
  scan_cluster st = k ∧ from ≤ k ∧ k ≤ lim ∧ open_run k st ∧ seen_before k st.

(** A run that ends at or after [k] when [f-1] is not free starts at [f] or later. *)
Lemma run_split a n f : free_run a n → a < f < a + n + 1 → from ≤ a →
  (from < f → free (f - 1) = false) → False.
Proof. intros Hr Ha Hf Hn. assert (free (f - 1) = true) by (apply Hr; lia). rewrite Hn in H; [done|lia]. Qed.

(** Closing the run in progress before a cluster that is not free, or at the end. *)
Lemma close_run_spec k st :
  ref_inv k st → (k = lim ∨ free k = false) →
  match close_run policy st with
  | (_, Some r) => run_in_range r ∧ promise r
  | (st', None) => scan_cluster st' = k ∧ scan_first st' = None ∧ scan_count st' = 0 ∧
      seen_before k st'
  end.
Proof.
  intros (Hk & Hfk & Hkl & Hop & Hseen) Hend. unfold open_run, seen_before in *.
  destruct st as [k' [f|] cnt lng]; cbn [scan_cluster scan_first scan_count scan_longest default] in *; unfold id in *;
    subst k'; unfold promise.
  - destruct Hop as (Hff & Hc & Hfc & Hfr & Hl & Hnum).
    assert (Hrange : run_in_range {| first_cluster := f; cluster_count := cnt |}).
    { split_and!; cbn; try done; lia. }
    destruct policy; cbn.
    + split; [done|]. destruct Hseen as [_ Hs]. split; [done|]. cbn. right.
      destruct Hend as [->|Hend]; [by left|right]. by rewrite Hfc.
    + destruct Hseen as [Hlr Hs].
      split_and!; [done..| |].
      { destruct lng as [r|]; [destruct (_ <? _)|]; done. }
      intros a n Ha Hn Hak Hr.
      assert (Hcase : a + n ≤ f ∨ n ≤ cnt).
      { destruct (decide (a < f)); [|lia]. destruct (decide (a + n ≤ f)); [by left|].
        exfalso. by eapply (run_split a n f); [done|lia|done|]. }
      destruct lng as [r|]; cbn.
      * destruct (Z.ltb_spec (cluster_count r) cnt); destruct Hcase as [Hc'|]; cbn; try lia.
        all: specialize (Hs a n Ha Hn Hc' Hr); lia.
      * destruct Hcase as [Hc'|]; cbn; [|lia]. by specialize (Hs a n Ha Hn Hc' Hr).
  - destruct Hop as [-> Hprev]. destruct policy; cbn; split_and!; try done; apply Hseen.
Qed.

Lemma ref_scan_spec n k st :
  ref_inv k st → n = Z.to_nat (lim - k) → ref_result (ref_scan policy num free n st).
Proof.
  revert k st. induction n as [|n IH]; intros k st Hinv Hn.
  - assert (k = lim) as Hlim by (destruct Hinv as (_ & _ & ? & _); lia).
    cbn [ref_scan]. unfold ref_finish.
    pose proof (close_run_spec k st Hinv (or_introl Hlim)) as Hc.
    destruct (close_run policy st) as [st' [r|]]; [done|].
    destruct Hc as (Hk' & Hf' & Hc' & Hs'). rewrite Hlim in *. clear Hinv Hn. revert Hs'.
    unfold seen_before, ref_result, promise. rewrite Hf'. cbn [default].
    destruct policy.
    + intros [-> Hs']. intros j Hj. apply Hs'. lia.
    + destruct (scan_longest st') as [r|].
      * intros [Hr Hs']. split; [done|]. right. intros a m Ha Hm Hfr.
        destruct (decide (0 < m)); [by eapply Hs'|]. destruct Hr as (_ & ? & _). lia.
      * intros [_ Hs'] j Hj. destruct (free j) eqn:Hfj; [|done]. exfalso.
        apply (Hs' j 1); [lia..|]. intros i Hi. by replace i with j by lia.
  - cbn [ref_scan]. pose proof Hinv as (Hk & Hfk & Hkl & Hop & Hseen). rewrite Hk.
    destruct (free k) eqn:Hfree.
    + assert (Hop' : from ≤ default k (scan_first st) ∧
        default k (scan_first st) + (scan_count st + 1) = k + 1 ∧ 0 ≤ scan_count st ∧
        free_run (default k (scan_first st)) (scan_count st + 1) ∧
        (from < default k (scan_first st) → free (default k (scan_first st) - 1) = false) ∧
        (0 < num → scan_count st < num)).
      { unfold open_run in Hop. destruct (scan_first st) as [f|]; cbn [default]; unfold id.
        - destruct Hop as (? & ? & ? & Hr & ? & ?). split_and!; try done; try lia.
          intros j Hj. destruct (decide (j = k)) as [->|]; [done|]. apply Hr. lia.
        - destruct Hop as [-> ?]. split_and!; try done; try lia.
          intros j Hj. by replace j with k by lia. }
      destruct Hop' as (Hf0 & Hf1 & Hf2 & Hf3 & Hf4 & Hf5).
      destruct (Z.eqb_spec (scan_count st + 1) num) as [Heq|Hne].
      * split; [split_and!; cbn; try done; lia|]. unfold promise, seen_before in *.
        destruct policy; [|by left]. split; [|by left]. cbn. apply Hseen.
      * apply (IH (k + 1)); [|lia]. split_and!; cbn; [done|lia|lia| |].
        -- unfold open_run. cbn. split_and!; try done; lia.
        -- unfold seen_before in *. cbn. destruct policy; exact Hseen.
    + pose proof (close_run_spec k st Hinv (or_intror Hfree)) as Hc.
      destruct (close_run policy st) as [st' [r|]]; [done|].
      destruct Hc as (Hk' & Hf' & Hc' & Hs'). apply (IH (k + 1)); [|lia].
      split_and!; cbn; [done|lia|lia| |].
      * unfold open_run. cbn. rewrite Hf'. split; [done|]. intros _. by replace (k + 1 - 1) with k by lia.
      * unfold seen_before in *. cbn. rewrite Hf' in *. cbn [default] in *.
        destruct policy; (split; [apply Hs'|]).
        -- intros j Hj. destruct (decide (j = k)) as [->|]; [done|]. apply Hs'. lia.
        -- intros a m Ha Hm Ham Hr. destruct (decide (a + m ≤ k)); [by eapply Hs'|].
           exfalso. by eapply (run_split a m (k + 1)); [done|lia|done|intros _; by replace (k + 1 - 1) with k by lia].
Qed.

Lemma ref_scan_correct :
  ref_result (ref_scan policy num free (Z.to_nat (lim - from)) (scan_init from)).
Proof.
  destruct (decide (from ≤ lim)) as [Hle|Hgt].
  2: { replace (Z.to_nat (lim - from)) with 0%nat by lia. destruct policy; cbn; lia. }
  apply (ref_scan_spec _ from); [|done]. split_and!; cbn; [done|lia|done| |].
  - unfold open_run. cbn. split; [done|lia].
  - unfold seen_before. cbn. destruct policy; (split; [done|]); [lia|].
    intros a n Ha Hn Han. lia.
Qed.
End RefSpec.

(** * Theorems *)
Section Theorems.
Context {cfg : Config} {crates : Crates} {bd : BlockDevice}.
Context {Hcfg : ConfigOk cfg} {Hcr : CratesOk crates} {Hbd : DeviceOk cfg bd}.
Implicit Types (al : Allocator) (d : dev) (t : FileDirty).

Definition is_free_in al d (k : Z) : bool := negb (allocated al d k).

(** What one search from [from] may answer in the state [al], [d]. *)
Definition search_answer al d (policy : SearchPolicy) (num from : Z)
    (o : outcome err AllocatedRun) : Prop :=
  match o with
  | Ok run => run_in_range num from (limit al) (is_free_in al d) run ∧
              promise policy num from (limit al) (is_free_in al d) run
  | Err DiskFull => ∀ j, from ≤ j < limit al → allocated al d j = true
  | _ => False
  end.

Lemma search_from_ok al d policy from num :
  alloc_inv al d → 2 ≤ from < 2 ^ 32 →
  ∃ al' d' o, find_free_clusters_from from num policy (al, d) = ((al', d'), o) ∧
    same_alloc al d al' d' ∧ search_answer al d policy num from o.
Proof.
  intros Hinv Hf. destruct (find_free_clusters_from_ok policy from num (proj1 Hf) al d Hinv)
    as (al' & d' & Hr & Hs); [lia|].
  pose proof (ref_scan_correct policy num from (limit al) (is_free_in al d)) as Hspec.
  eexists al', d', _. split_and!; [exact Hr|done|]. fold (is_free_in al d).
  destruct (ref_scan _ _ _ _ _) as [run|]; [exact Hspec|].
  intros j Hj. specialize (Hspec j Hj). unfold is_free_in in Hspec. by apply negb_false_iff.
Qed.

(** C28 - the bitmap scan, which reads whole sectors, skips full 32-bit words
    and ignores the padding behind the heap, returns exactly what a scan that
    looks at one cluster after the other returns, and changes nothing a
    reader of the bitmap sees. *)
Theorem scan_equals_reference al d policy from num :
  alloc_inv al d → 2 ≤ from < 2 ^ 32 →
  ∃ al' d', find_free_clusters_from from num policy (al, d) =
      ((al', d'),
       match ref_scan policy num (is_free_in al d)
               (Z.to_nat (limit al - from)) (scan_init from) with
       | Some run => Ok run
       | None => Err DiskFull
       end) ∧
    same_alloc al d al' d'.
Proof.
  intros Hinv Hf. destruct (find_free_clusters_from_ok policy from num (proj1 Hf) al d Hinv)
    as (al' & d' & Hr & Hs); [lia|]. exists al', d'. split; [exact Hr|done].
Qed.

(** what the scan promises: the run it returns is free, non-empty, in
    the heap, behind the starting cluster and no longer than asked for; with
    [FirstRun] it is the first free run, cut short only at the requested
    length; with [LongestRun] it has the requested length or no free run
    behind the starting cluster is longer; [DiskFull] means that every
    cluster from the starting one on is taken. *)
Theorem search_keeps_promise al d policy from num :
  alloc_inv al d → 2 ≤ from < 2 ^ 32 →
  ∃ al' d' o, find_free_clusters_from from num policy (al, d) = ((al', d'), o) ∧
    same_alloc al d al' d' ∧ search_answer al d policy num from o.
Proof. apply search_from_ok. Qed.

Lemma put_next_search_ok al d k :
  alloc_inv al d → 2 ≤ k < 2 ^ 32 →
  ∃ al', put_next_search k (al, d) = ((al', d), Ok ()) ∧ alloc_inv al' d ∧
    bitmap al' = bitmap al ∧ acache al' = acache al ∧ next_search_cluster al' = k.
Proof. intros [] Hk. eexists. split; [done|]. by split_and!; [split|..]. Qed.

Lemma with_rover_ok (m : M (Allocator * dev) err AllocatedRun) al d al1 d1 run from num :
  m (al, d) = ((al1, d1), Ok run) → alloc_inv al d → same_alloc al d al1 d1 →
  2 ≤ from → run_in_range num from (limit al) (is_free_in al d) run →
  ∃ al', (run ← m; c ← lift (add u32 (first_cluster run) (cluster_count run));
          put_next_search c ;; mret run) (al, d) = ((al', d1), Ok run) ∧
    alloc_inv al' d1 ∧ bitmap al' = bitmap al ∧
    same_sectors (acache al) d (acache al') d1 ∧
    next_search_cluster al' = first_cluster run + cluster_count run.
Proof.
  intros Hm Hinv (Hinv1 & Hb & _ & Hs) Hf (H1 & H2 & H3 & _).
  pose proof (limit_range _ _ Hinv). rewrite (bind_Ok _ _ _ _ _ Hm).
  rewrite add_ok, bind_lift_Ok by lia.
  destruct (put_next_search_ok al1 d1 (first_cluster run + cluster_count run) Hinv1)
    as (al' & Hp & Hinv' & Hb' & Hc' & Hn'); [lia|].
  rewrite (bind_Ok _ _ _ _ _ Hp). exists al'. split_and!; [done|done|congruence| |done].
  by rewrite Hc'.
Qed.

(** What [find_free_clusters] answers, wrapping included. *)
Definition find_answer al d (policy : SearchPolicy) (num from : Z) al'
    (o : outcome err AllocatedRun) : Prop :=
  match o with
  | Ok run =>
      (∃ start, (start = from ∨ start = 2 ∧ ∀ j, from ≤ j < limit al → allocated al d j = true) ∧
         search_answer al d policy num start (Ok run)) ∧
      next_search_cluster al' = first_cluster run + cluster_count run
  | Err DiskFull =>
      (∀ j, 2 ≤ j < limit al → allocated al d j = true) ∧
      next_search_cluster al' = next_search_cluster al
  | _ => False
  end.

Lemma find_free_clusters_ok al d from num policy :
  alloc_inv al d → 2 ≤ default (next_search_cluster al) from < 2 ^ 32 →
  ∃ al' d' o, find_free_clusters from num policy (al, d) = ((al', d'), o) ∧
    alloc_inv al' d' ∧ bitmap al' = bitmap al ∧ same_sectors (acache al) d (acache al') d' ∧
    find_answer al d policy num (default (next_search_cluster al) from) al' o.
Proof.
  intros Hinv Hf. set (f := default _ from) in *. unfold find_free_clusters.
  rewrite (bind_Ok (gets _) _ _ (al, d) (next_search_cluster al)) by done. cbv zeta. fold f.
  destruct (search_from_ok al d policy f num Hinv Hf) as (al1 & d1 & o & Hr & Hs & Ho).
  unfold search_answer in Ho. destruct o as [run|[]| |]; try done.
  - erewrite bind_Ok; [|unfold try_; rewrite Hr; done]. cbv iota.
    destruct (with_rover_ok (λ _, ((al1, d1), Ok run)) al d al1 d1 run f num) as
      (al' & Hw & Hinv' & Hb' & Hs' & Hn'); [done|done|done|lia|apply Ho|].
    exists al', d1, (Ok run). split_and!; [|done..|].
    + exact Hw.
    + split; [|done]. exists f. split; [by left|exact Ho].
  - erewrite bind_Ok; [|unfold try_; rewrite Hr; done]. cbv iota. unfold FIRST_CLUSTER_ID.
    pose proof Hs as (Hinv1 & Hb1 & Hn1 & Hs1).
    destruct (Z.ltb_spec 2 f) as [Hlt|Hle].
    + destruct (search_from_ok al1 d1 policy 2 num Hinv1) as (al2 & d2 & o2 & Hr2 & Hs2 & Ho2);
        [lia|].
      assert (Hsame : same_alloc al d al2 d2) by by eapply same_alloc_trans.
      assert (Hall : ∀ k, 2 ≤ k < limit al → allocated al1 d1 k = allocated al d k).
      { intros k. by apply same_alloc_allocated. }
      assert (Ho2' : search_answer al d policy num 2 o2).
      { revert Ho2. unfold search_answer. rewrite (same_alloc_limit _ _ _ _ Hs).
        assert (Hfr : ∀ k n, 2 ≤ k → k + n ≤ limit al →
          free_run (is_free_in al1 d1) k n ↔ free_run (is_free_in al d) k n).
        { intros k n Hk Hn. unfold free_run, is_free_in.
          split; intros H j Hj; [rewrite <-Hall by lia|rewrite Hall by lia]; auto. }
        destruct o2 as [run|[]| |]; try done.
        - intros [(R1 & R2 & R3 & R4 & R5) Hp]. split.
          + split_and!; try done. by apply Hfr; [lia..|].
          + unfold promise in *. destruct policy.
            * destruct Hp as [P1 P2]. split.
              -- intros j Hj. unfold is_free_in. rewrite <-Hall by lia. by apply P1.
              -- destruct P2 as [?|[?|P2]]; [by left|by right; left|].
                 destruct (decide (first_cluster run + cluster_count run = limit al));
                   [by right; left|]. right. right. unfold is_free_in. rewrite <-Hall by lia. done.
            * destruct Hp as [?|P]; [by left|]. right. intros k n Hk Hn Hr'. apply (P k n Hk Hn).
              by apply Hfr.
        - intros H j Hj. rewrite <-Hall by lia. by apply H. }
      unfold search_answer in Ho2'. destruct o2 as [run|[]| |]; try done.
      * destruct (with_rover_ok (λ _, ((al2, d2), Ok run)) al d al2 d2 run 2 num) as
          (al' & Hw & Hinv' & Hb' & Hs' & Hn'); [done|done|done|lia|apply Ho2'|].
        exists al', d2, (Ok run). split_and!; [|done..|].
        -- unfold mbind at 1, M_bind. rewrite Hr2. exact Hw.
        -- split; [|done]. exists 2. split; [by right|exact Ho2'].
      * destruct Hsame as (? & ? & ? & ?). exists al2, d2, (Err DiskFull). split_and!; try done.
        unfold mbind at 1, M_bind. by rewrite Hr2.
    + exists al1, d1, (Err DiskFull). split_and!; try done. split; [|done]. intros j Hj. apply Ho. lia.
Qed.

(** [find_free_clusters] searches from the given cluster or, without
    one, from the rover; it goes back to cluster 2 only when everything from
    there on is taken, moves the rover behind the run it returns, and
    reports [DiskFull] only when no cluster of the heap is free. *)
Theorem find_free_clusters_correct al d from num policy :
  alloc_inv al d → 2 ≤ default (next_search_cluster al) from < 2 ^ 32 →
  ∃ al' d' o, find_free_clusters from num policy (al, d) = ((al', d'), o) ∧
    alloc_inv al' d' ∧ bitmap al' = bitmap al ∧ same_sectors (acache al) d (acache al') d' ∧
    find_answer al d policy num (default (next_search_cluster al) from) al' o.
Proof. apply find_free_clusters_ok. Qed.

(** Where [allocate] starts to search. *)
Definition search_start al (chain : StoredChain) : Z :=
  match chain with
  | Empty => next_search_cluster al
  | Contiguous first n => first + n
  | FatChain _ last _ => last + 1
  end.

Lemma same_allocated al d al' d' k :
  alloc_inv al d → bitmap al' = bitmap al → same_sectors (acache al) d (acache al') d' →
  2 ≤ k < limit al → allocated al' d' k = allocated al d k.
Proof.
  intros Hinv Hb Hs Hk. unfold allocated, bitmap_sector. rewrite Hb.
  destruct (bitmap_sector_range al d k Hinv Hk) as (_ & Had & _).
  unfold bitmap_sector in Had. by rewrite (proj1 (proj2 Hs _ Had (λ f, f))).
Qed.

Lemma allocate_search al d t chain count :
  alloc_inv al d → 0 ≤ search_start al chain < 2 ^ 32 →
  (match chain with
   | Empty => zoom lsnd (find_free_clusters None count LongestRun)
   | Contiguous first n =>
       from ← lift (add u32 first n);
       zoom lsnd (find_free_clusters (Some from) count FirstRun)
   | FatChain _ last _ =>
       from ← lift (add u32 last 1);
       zoom lsnd (find_free_clusters (Some from) count FirstRun)
   end) (t, (al, d)) =
  zoom lsnd (find_free_clusters
    (match chain with Empty => None | _ => Some (search_start al chain) end) count
    (match chain with Empty => LongestRun | _ => FirstRun end)) (t, (al, d)).
Proof.
  intros Hinv Hs. destruct chain; cbn [search_start] in *; [done|..];
    by rewrite add_ok, bind_lift_Ok by lia.
Qed.

(** Sectors that look the same need no tracking. *)
Lemma same_tracks t al d al' d' :
  same_sectors (acache al) d (acache al') d' → tracks t al d t al' d'.
Proof. intros [_ Hs]. split; [auto with exfat|]. intros s Ha Hsv. left. by apply (Hs s Ha (λ f, f)). Qed.

Lemma allocate_ok al d t chain count :
  alloc_inv al d → dirty_ok t → 0 < count → 2 ≤ search_start al chain < 2 ^ 32 →
  ∃ t' al' d' o, allocate chain count (t, (al, d)) = ((t', (al', d')), o) ∧
    alloc_inv al' d' ∧ dirty_ok t' ∧ bitmap al' = bitmap al ∧
    frame (bitmap_sectors al) (acache al) d (acache al') d' ∧ tracks t al d t' al' d' ∧
    match o with
    | Ok run =>
        run_ok al run ∧ cluster_count run ≤ count ∧
        (∀ k, in_run run k → allocated al d k = false ∧ records t' (bitmap_sector al k)) ∧
        (∀ k, 2 ≤ k < limit al →
           allocated al' d' k = if decide (in_run run k) then true else allocated al d k)
    | Err DiskFull =>
        t' = t ∧ ∀ k, 2 ≤ k < limit al → allocated al d k = true ∧ allocated al' d' k = true
    | _ => False
    end.
Proof.
  intros Hinv Ht Hc Hst.
  destruct (find_free_clusters_ok al d
    (match chain with Empty => None | _ => Some (search_start al chain) end) count
    (match chain with Empty => LongestRun | _ => FirstRun end) Hinv)
    as (al1 & d1 & o & Hf & Hinv1 & Hb1 & Hs1 & Ho); [by destruct chain|].
  assert (Hlim : limit al1 = limit al) by (unfold limit; by rewrite Hb1).
  pose proof (allocate_search al d t chain count Hinv ltac:(lia)) as Heq.
  unfold find_answer in Ho. destruct o as [run|[]| |]; try done.
  - destruct Ho as [(start & Hstart & (R1 & R2 & R3 & R4 & R5) & _) _].
    assert (2 ≤ start) by (destruct Hstart as [->|[-> _]]; [destruct chain; apply Hst|lia]).
    assert (Hrun : run_ok al1 run) by (split_and!; lia).
    destruct (mark_allocated_ok al1 d1 t run true Hinv1 Ht Hrun)
      as (t' & al' & d' & Hm & Hinv' & Hfr & Ht' & Htr & Hrec & Hal).
    exists t', al', d', (Ok run). split_and!;
      [|exact Hinv'|exact Ht'|rewrite (proj1 Hfr); exact Hb1| | |split_and!; lia|by apply R5| |].
    + unfold allocate. erewrite bind_Ok; [|rewrite Heq; apply zoom_eq; exact Hf].
      cbn [put lsnd fst]. rewrite (bind_Ok _ _ _ _ _ Hm). done.
    + eapply frame_trans; [by eapply frame_weaken; [|exact Hs1]|].
      unfold bitmap_sectors. rewrite <-Hb1. apply Hfr.
    + eapply tracks_trans; [apply Hs1|exact Hb1|by apply same_tracks|exact Htr].
    + intros k Hk. split.
      * specialize (R4 k Hk). unfold is_free_in in R4. by apply negb_true_iff.
      * specialize (Hrec k Hk). unfold bitmap_sector in *. by rewrite Hb1 in Hrec.
    + intros k Hk. rewrite Hal by lia. by rewrite (same_allocated al d al1 d1).
  - destruct Ho as [Ho _]. exists t, al1, d1, (Err DiskFull). split_and!; try done.
    2: by eapply frame_weaken; [|exact Hs1]. 2: by apply same_tracks.
    + unfold allocate. rewrite (bind_Err (E:=err) _ _ _ (t, (al1, d1)) DiskFull); [done|].
      rewrite Heq. unfold zoom. cbn [view lsnd snd]. by rewrite Hf.
    + intros k Hk. rewrite (same_allocated al d al1 d1) by done. split; by apply Ho.
Qed.

(** C29 - [allocate] either hands out a run of clusters that were all free,
    inside the heap and at most as long as asked for, marks exactly these
    clusters and records every bitmap
    sector it leaves unsaved on the device, or answers [DiskFull]
    with the bitmap unchanged when no cluster of the heap is free. *)
Theorem allocate_correct al d t chain count :
  alloc_inv al d → dirty_ok t → 0 < count → 2 ≤ search_start al chain < 2 ^ 32 →
  ∃ t' al' d' o, allocate chain count (t, (al, d)) = ((t', (al', d')), o) ∧
    alloc_inv al' d' ∧ dirty_ok t' ∧ bitmap al' = bitmap al ∧
    frame (bitmap_sectors al) (acache al) d (acache al') d' ∧ tracks t al d t' al' d' ∧
    match o with
    | Ok run =>
        run_ok al run ∧ cluster_count run ≤ count ∧
        (∀ k, in_run run k → allocated al d k = false ∧ records t' (bitmap_sector al k)) ∧
        (∀ k, 2 ≤ k < limit al →
           allocated al' d' k = if decide (in_run run k) then true else allocated al d k)
    | Err DiskFull =>
        t' = t ∧ ∀ k, 2 ≤ k < limit al → allocated al d k = true ∧ allocated al' d' k = true
    | _ => False
    end.
Proof. apply allocate_ok. Qed.
End Theorems.

(** * Witnesses and replays of the unit tests *)
Section Tests.
#[local] Existing Instance debug_build.
#[local] Existing Instance dummy_device.
#[local] Existing Instance reference_crates.
#[local] Existing Instance reference_crates_ok.
#[local] Existing Instance debug_build_ok.
#[local] Instance search_tests_device_ok : DeviceOk debug_build dummy_device := blank_ok.

(** an allocator for [n] bitmap sectors behind sector 0 and [count] clusters *)
Definition alloc1 (n count : Z) : Allocator :=
  {| bitmap := {| Slim.first_sector := 1; Slim.num_sectors := n; Slim.cluster_count := count |};
     acache := SlotCache_new; next_search_cluster := 2 |}.

Lemma alloc1_inv n count :
  0 ≤ n ≤ 3 → 0 ≤ count ≤ 4096 * n → alloc_inv (alloc1 n count) (blank 4).
Proof.
  intros Hn Hc. assert (BPS = 4096) as HB by done. split; cbn; rewrite ?HB; try lia.
  - apply SlotCache_new_inv.
  - intros s Hs. apply blank_addressable. lia.
Qed.
Abbreviation al1 := (alloc1 2 5000).
Lemma al1_inv : alloc_inv al1 (blank 4).
Proof. apply alloc1_inv; lia. Qed.

Lemma bitmap_pos_roundtrip_witness :
  ∃ p, BitmapPos_of (E:=()) 4098 = Ok p ∧ BitmapPos_cluster (E:=()) p = Ok 4098.
Proof.
  destruct (bitmap_pos_roundtrip 4098) as (p & ? & ? & _); [lia|].
  exists p. split; assumption.
Defined.

Lemma mark_allocated_witness :
  let run := {| first_cluster := 4094; cluster_count := 8 |} in
  ∃ t' al' d', mark_allocated run true (FileDirty_new, (al1, blank 4)) = ((t', (al', d')), Ok ()) ∧
    allocated al' d' 4100 = true.
Proof.
  intros run.
  destruct (mark_allocated_correct (bd:=dummy_device) al1 (blank 4) FileDirty_new run true al1_inv FileDirty_new_ok)
    as [H _]; [cbn; lia|cbn; lia|].
  destruct H as (t' & al' & d' & Hm & _ & _ & _ & _ & _ & Hal).
  - assert (limit al1 = 5002) as Hl by reflexivity.
    unfold run_ok. rewrite Hl. cbn. lia.
  - exists t', al', d'. split; [exact Hm|]. rewrite Hal by (vm_compute; intuition congruence).
    reflexivity.
Defined.

Lemma scan_equals_reference_witness :
  ∃ al' d', find_free_clusters_from 4000 200 LongestRun (al1, blank 4) =
    ((al', d'), Ok {| first_cluster := 4000; cluster_count := 200 |}).
Proof.
  destruct (scan_equals_reference (bd:=dummy_device) al1 (blank 4) LongestRun 4000 200 al1_inv)
    as (al' & d' & H & _); [lia|].
  exists al', d'. etransitivity; [exact H|vm_compute; reflexivity].
Defined.

Lemma search_keeps_promise_witness :
  ∃ al' d' o, find_free_clusters_from 4000 200 FirstRun (al1, blank 4) = ((al', d'), o) ∧
    search_answer al1 (blank 4) FirstRun 200 4000 o.
Proof.
  destruct (search_keeps_promise (bd:=dummy_device) al1 (blank 4) FirstRun 4000 200 al1_inv)
    as (al' & d' & o & H & _ & Ho); [lia|].
  exists al', d', o. split; [exact H|exact Ho].
Defined.

Lemma find_free_clusters_witness :
  ∃ al' d' o, find_free_clusters None 7 LongestRun (al1, blank 4) = ((al', d'), o) ∧
    alloc_inv al' d'.
Proof.
  destruct (find_free_clusters_correct (bd:=dummy_device) al1 (blank 4) None 7 LongestRun al1_inv)
    as (al' & d' & o & H & Hi & _); [cbn; lia|].
  exists al', d', o. split; [exact H|exact Hi].
Defined.

Lemma allocate_witness :
  ∃ t' al' d' o, allocate Empty 10 (FileDirty_new, (al1, blank 4)) = ((t', (al', d')), o) ∧
    alloc_inv al' d'.
Proof.
  destruct (allocate_correct (bd:=dummy_device) al1 (blank 4) FileDirty_new Empty 10 al1_inv FileDirty_new_ok)
    as (t' & al' & d' & o & H & Hi & _); [lia|cbn; lia|].
  exists t', al', d', o. split; [exact H|exact Hi].
Defined.

Definition start1 (n count : Z) := (FileDirty_new, (alloc1 n count, blank 4)).

Example alloate_and_free_bitmap_bits :
  let '((_, (_, d)), o) := (run ← allocate Empty 10; zoom lsnd flush ;; mret run) (start1 1 4096) in
  o = Ok {| first_cluster := 2; cluster_count := 10 |} ∧
  dummy_content d 1 = 255 :: 3 :: zeros 510 ∧ dummy_content d 0 = zeros 512.
Proof. vm_compute. auto. Qed.

Example allocate_run_crossing_bitmap_sector_boundary :
  let '((_, (_, d)), o) :=
    (mark_allocated {| first_cluster := 4094; cluster_count := 8 |} true ;; zoom lsnd flush)
      (start1 2 8192) in
  o = Ok () ∧ dummy_content d 1 !! 511%nat = Some 240 ∧ dummy_content d 2 !! 0%nat = Some 15.
Proof. vm_compute. auto. Qed.

Example do_not_allocate_past_end_of_cluster_heap :
  let '(s1, o1) := allocate Empty 12 (start1 1 10) in
  let '(s2, o2) := allocate Empty 1 s1 in
  let '(s3, o3) := mark_allocated {| first_cluster := 12; cluster_count := 1 |} true s2 in
  o1 = Ok {| first_cluster := 2; cluster_count := 10 |} ∧ o2 = Err DiskFull ∧
  o3 = Err (InvalidClusterId 12).
Proof. vm_compute. auto. Qed.

Example search_wraps_to_start_of_heap_when_end_is_full :
  snd ((allocate Empty 8 ;;
        mark_allocated {| first_cluster := 2; cluster_count := 3 |} false ;;
        allocate Empty 2) (start1 1 8)) = Ok {| first_cluster := 2; cluster_count := 2 |}.
Proof. vm_compute. auto. Qed.

(** A request of two clusters with two free ones left before the rover gets
    the single cluster behind it: the search wraps only on [DiskFull], not
    for a longer run as the comment on [LongestRun] says. *)
Example longest_run_does_not_wrap :
  snd ((allocate Empty 9 ;;
        mark_allocated {| first_cluster := 2; cluster_count := 3 |} false ;;
        allocate Empty 3) (start1 1 10)) = Ok {| first_cluster := 11; cluster_count := 1 |}.
Proof. vm_compute. auto. Qed.
End Tests.
