(* ===== verification/DirectoryEntry.v ===== *)
(** * src/directory_entry.rs: the 32-byte directory entries

    Entry types and the parsers and serialisers of the entry structs, the
    decoding of names, and the directory-set checksum.  A raw entry is a list
    of 32 bytes.  ([DirectoryEntryChain] and [DirSetWriter]'s writes need the
    file system and are in Directory.v.) *)

From S2P Require Import Prelude Text Crates Errors Utils Timestamp BootSector.
Open Scope string_scope.
Open Scope list_scope.
Open Scope Z_scope.

Definition RAW_ENTRY_LEN : Z := 32.
Abbreviation RawDirEntry := (list Z) (only parsing).

(** ** Entry types *)
Module EntryType.
Inductive t :=
  | EndOfDirectory
  | Unused (x : Z)
  | AllocationBitmap
  | UpcaseTable
  | VolumeLabel
  | FileAndDirectory
  | VolumeGuid
  | TexFATPadding
  | StreamExtension
  | Filename
  | Reserved (x : Z).
#[global] Instance t_eq_dec : EqDecision t.
Proof. solve_decision. Defined.

(** [From<u8>] *)
Definition from (value : Z) : t :=
  if value =? 0x00 then EndOfDirectory
  else if Z.land value 0x80 =? 0 then Unused value
  else if value =? 0x81 then AllocationBitmap
  else if value =? 0x82 then UpcaseTable
  else if value =? 0x83 then VolumeLabel
  else if value =? 0x85 then FileAndDirectory
  else if value =? 0xA0 then VolumeGuid
  else if value =? 0xA1 then TexFATPadding
  else if value =? 0xC0 then StreamExtension
  else if value =? 0xC1 then Filename
  else Reserved value.

Definition serialize (e : t) : Z :=
  match e with
  | EndOfDirectory => 0x00
  | Unused x => x
  | AllocationBitmap => 0x81
  | UpcaseTable => 0x82
  | VolumeLabel => 0x83
  | FileAndDirectory => 0x85
  | VolumeGuid => 0xA0
  | TexFATPadding => 0xA1
  | StreamExtension => 0xC0
  | Filename => 0xC1
  | Reserved x => x
  end.
End EntryType.

(** ** Flags *)
Definition BitmapFlags_all : Z := 0x01.
Definition AllocationPossible : Z := 0x01.
Definition NoFatChain : Z := 0x02.
Definition GeneralSecondaryFlags_all : Z := 0x03.
Definition ReadOnly : Z := 0x01.
Definition Hidden : Z := 0x02.
Definition System : Z := 0x04.
Definition Directory : Z := 0x10.
Definition Archive : Z := 0x20.
Definition FileAttributes_all : Z := 0x37.

(** ** The entry structs *)
Module AllocationBitmapDirEntry.
Record t := { bitmap_flags : Z; first_cluster : Z; data_length : Z }.
End AllocationBitmapDirEntry.

Module UpcaseTableDirEntry.
Record t := { table_checksum : Z; first_cluster : Z; data_length : Z }.
End UpcaseTableDirEntry.

Module FileDirEntry.
Record t := {
  secondary_count : Z;
  set_checksum : Z;
  file_attributes : Z;
  create_timestamp : Z;
  last_modified_timestamp : Z;
  last_accessed_timestamp : Z;
  create_10ms_increment : Z;
  last_modified_10ms_increment : Z;
  create_utc_offset : Z;
  last_modified_utc_offset : Z;
  last_accessed_utc_offset : Z;
}.

(** [raw[i] = x] and [raw[i..i + n].copy_from_slice(&x.to_le_bytes())] on
    the 32-byte array, the offsets being constants in range *)
Definition serialize (e : t) : RawDirEntry :=
  let raw := zeros RAW_ENTRY_LEN in
  let raw := splice raw 0 [EntryType.serialize EntryType.FileAndDirectory] in
  let raw := splice raw 1 [secondary_count e] in
  let raw := splice raw 2 (to_le_bytes 2 (set_checksum e)) in
  let raw := splice raw 4 (to_le_bytes 2 (file_attributes e)) in
  let raw := splice raw 8 (to_le_bytes 4 (create_timestamp e)) in
  let raw := splice raw 12 (to_le_bytes 4 (last_modified_timestamp e)) in
  let raw := splice raw 16 (to_le_bytes 4 (last_accessed_timestamp e)) in
  let raw := splice raw 20 [create_10ms_increment e] in
  let raw := splice raw 21 [last_modified_10ms_increment e] in
  let raw := splice raw 22 [create_utc_offset e] in
  let raw := splice raw 23 [last_modified_utc_offset e] in
  splice raw 24 [last_accessed_utc_offset e].

Definition created (e : t) : EncodedTimestamp :=
  {| packed := create_timestamp e; increment_10ms := create_10ms_increment e;
     utc_offset := create_utc_offset e |}.
Definition modified (e : t) : EncodedTimestamp :=
  {| packed := last_modified_timestamp e; increment_10ms := last_modified_10ms_increment e;
     utc_offset := last_modified_utc_offset e |}.
Definition accessed (e : t) : EncodedTimestamp :=
  {| packed := last_accessed_timestamp e; increment_10ms := 0;
     utc_offset := last_accessed_utc_offset e |}.
End FileDirEntry.

Module StreamExtensionDirEntry.
Record t := {
  general_secondary_flags : Z;
  name_length : Z;
  name_hash : Z;
  valid_data_length : Z;
  first_cluster : Z;
  data_length : Z;
}.
Definition serialize (e : t) : RawDirEntry :=
  let raw := zeros RAW_ENTRY_LEN in
  let raw := splice raw 0 [EntryType.serialize EntryType.StreamExtension] in
  let raw := splice raw 1 [general_secondary_flags e] in
  let raw := splice raw 3 [name_length e] in
  let raw := splice raw 4 (to_le_bytes 2 (name_hash e)) in
  let raw := splice raw 8 (to_le_bytes 8 (valid_data_length e)) in
  let raw := splice raw 20 (to_le_bytes 4 (first_cluster e)) in
  splice raw 24 (to_le_bytes 8 (data_length e)).
End StreamExtensionDirEntry.

Module FileNameDirEntry.
Record t := { general_secondary_flags : Z; file_name : list Z }.
(** the [for (to, from) in chunks.iter_mut().zip(&self.file_name)] loop *)
Definition serialize (e : t) : RawDirEntry :=
  let raw := zeros RAW_ENTRY_LEN in
  let raw := splice raw 0 [EntryType.serialize EntryType.Filename] in
  let raw := splice raw 1 [general_secondary_flags e] in
  splice raw 2 (flat_map (to_le_bytes 2) (take 15 (file_name e))).
End FileNameDirEntry.

(** [VolumeLabelDirEntry(heapless::String<22>)] *)
Definition VOLUME_LABEL_CAPACITY : nat := 22.

Section Parse.
Context {cfg : Config} {crates : Crates} {E : Type}.

Definition AllocationBitmapDirEntry_from (value : RawDirEntry)
    : outcome E AllocationBitmapDirEntry.t :=
  f ← index value 1;
  first_cluster ← read_u32_le 20 value;
  data_length ← read_u64_le 24 value;
  Ok {| AllocationBitmapDirEntry.bitmap_flags := from_bits_truncate BitmapFlags_all f;
        AllocationBitmapDirEntry.first_cluster := first_cluster;
        AllocationBitmapDirEntry.data_length := data_length |}.

Definition UpcaseTableDirEntry_from (value : RawDirEntry) : outcome E UpcaseTableDirEntry.t :=
  table_checksum ← read_u32_le 4 value;
  first_cluster ← read_u32_le 20 value;
  data_length ← read_u64_le 24 value;
  Ok {| UpcaseTableDirEntry.table_checksum := table_checksum;
        UpcaseTableDirEntry.first_cluster := first_cluster;
        UpcaseTableDirEntry.data_length := data_length |}.

Definition FileDirEntry_from (value : RawDirEntry) : outcome E FileDirEntry.t :=
  secondary_count ← index value 1;
  set_checksum ← read_u16_le 2 value;
  attributes ← read_u16_le 4 value;
  create_timestamp ← read_u32_le 8 value;
  last_modified_timestamp ← read_u32_le 12 value;
  last_accessed_timestamp ← read_u32_le 16 value;
  create_10ms_increment ← index value 20;
  last_modified_10ms_increment ← index value 21;
  create_utc_offset ← index value 22;
  last_modified_utc_offset ← index value 23;
  last_accessed_utc_offset ← index value 24;
  Ok {| FileDirEntry.secondary_count := secondary_count;
        FileDirEntry.set_checksum := set_checksum;
        FileDirEntry.file_attributes := from_bits_truncate FileAttributes_all attributes;
        FileDirEntry.create_timestamp := create_timestamp;
        FileDirEntry.last_modified_timestamp := last_modified_timestamp;
        FileDirEntry.last_accessed_timestamp := last_accessed_timestamp;
        FileDirEntry.create_10ms_increment := create_10ms_increment;
        FileDirEntry.last_modified_10ms_increment := last_modified_10ms_increment;
        FileDirEntry.create_utc_offset := create_utc_offset;
        FileDirEntry.last_modified_utc_offset := last_modified_utc_offset;
        FileDirEntry.last_accessed_utc_offset := last_accessed_utc_offset |}.

Definition StreamExtensionDirEntry_from (value : RawDirEntry)
    : outcome E StreamExtensionDirEntry.t :=
  f ← index value 1;
  name_length ← index value 3;
  name_hash ← read_u16_le 4 value;
  valid_data_length ← read_u64_le 8 value;
  first_cluster ← read_u32_le 20 value;
  data_length ← read_u64_le 24 value;
  Ok {| StreamExtensionDirEntry.general_secondary_flags :=
          from_bits_truncate GeneralSecondaryFlags_all f;
        StreamExtensionDirEntry.name_length := name_length;
        StreamExtensionDirEntry.name_hash := name_hash;
        StreamExtensionDirEntry.valid_data_length := valid_data_length;
        StreamExtensionDirEntry.first_cluster := first_cluster;
        StreamExtensionDirEntry.data_length := data_length |}.

(** zipping the units with a zeroed [[u16; 15]] *)
Definition FileNameDirEntry_from (value : RawDirEntry) : outcome E FileNameDirEntry.t :=
  f ← index value 1;
  bytes ← slice value 2 RAW_ENTRY_LEN;
  let units := from_le_bytes <$> as_chunks 2 bytes in
  Ok {| FileNameDirEntry.general_secondary_flags := from_bits_truncate GeneralSecondaryFlags_all f;
        FileNameDirEntry.file_name :=
          take 15 units ++ replicate (15 - length units) 0 |}.

(** [try_into]: only an entry of the expected type is parsed *)
Definition try_into {T} (from : RawDirEntry → outcome E T) (dir_entry : RawDirEntry)
    (entry_type : EntryType.t) : outcome E (option T) :=
  b ← index dir_entry 0;
  if decide (EntryType.from b = entry_type) then Some <$> from dir_entry else Ok None.
End Parse.

(** ** Names *)

(** the characters before the first invalid unit, and whether there is one *)
Fixpoint valid_prefix (l : list (option Z)) : list Z * bool :=
  match l with
  | [] => ([], true)
  | Some c :: l => let '(cs, ok) := valid_prefix l in (c :: cs, ok)
  | None :: _ => ([], false)
  end.

Section Names.
Context {cfg : Config} {crates : Crates}.

(** [decode_utf16_le]: the characters are collected one by one into a string
    of fixed capacity until the first invalid one *)
Definition decode_utf16_le (cap : nat) (bytes : list Z)
    : outcome DirectoryEntryError.Error (list Z) :=
  let '(cs, ok) := valid_prefix (decode_utf16 (from_le_bytes <$> as_chunks 2 bytes)) in
  match string_collect cap cs with
  | None => Panic
  | Some s =>
      if ok then Ok s else Err (DirectoryEntryError.InvalidUtf16String "invalid u16 char detected")
  end.

(** [TryFrom for VolumeLabelDirEntry] *)
Definition VolumeLabelDirEntry_try_from (value : RawDirEntry)
    : outcome DirectoryEntryError.Error (list Z) :=
  character_count ← index value 1;
  if 11 <? character_count
  then Err (DirectoryEntryError.InvalidUtf16String "character count exceeds 11")
  else
    bytes ← slice value 2 (2 + character_count * 2);
    decode_utf16_le VOLUME_LABEL_CAPACITY bytes.

(** [decode_utf16_to_utf8]; the state is the caller's buffer *)
Fixpoint decode_loop {E} (chars : list (option Z)) (cursor : Z) : M (list Z) (ExFatError E) Z :=
  match chars with
  | [] => mret cursor
  | None :: _ =>
      throw (InvalidUtf16String "file name contains an invalid utf16 character")
  | Some ch :: chars =>
      let needed := len_utf8 ch in
      next ← lift (add usize cursor needed);
      n ← gets len;
      if next <=? n then
        buf ← gets (λ b, b);
        buf ← lift (copy_into buf cursor next (encode_utf8 ch));
        modify (λ _, buf) ;;
        decode_loop chars next
      else throw FileNameBufferTooSmall
  end.
Definition decode_utf16_to_utf8 {E} (utf16 : list Z) : M (list Z) (ExFatError E) Z :=
  decode_loop (decode_utf16 utf16) 0.
End Names.

Definition is_end_of_directory (directory_entry : RawDirEntry) : bool :=
  forallb (λ x, x =? 0) directory_entry.

(** ** The set checksum ([DirSetWriter::calc_checksum]) *)
Fixpoint calc_checksum_loop (raw : list Z) (byte_index : Z) (is_file_dir : bool) (checksum : Z) : Z :=
  match raw with
  | [] => checksum
  | b :: raw =>
      let checksum' :=
        if is_file_dir && ((byte_index =? 2) || (byte_index =? 3)) then checksum
        else wrapping_add u16 (rotate_right1 16 checksum) b in
      calc_checksum_loop raw (byte_index + 1) is_file_dir checksum'
  end.
Definition calc_checksum (raw : RawDirEntry) (is_file_dir : bool) (checksum : Z) : Z :=
  calc_checksum_loop raw 0 is_file_dir checksum.

(** * Specification *)

(** Every value of a field fits its Rust type. *)
Definition file_entry_typed (e : FileDirEntry.t) : Prop :=
  byte_ok (FileDirEntry.secondary_count e) ∧ 0 ≤ FileDirEntry.set_checksum e < 2 ^ 16 ∧
  (0 ≤ FileDirEntry.file_attributes e < 2 ^ 16 ∧
   Z.land (FileDirEntry.file_attributes e) FileAttributes_all = FileDirEntry.file_attributes e) ∧
  0 ≤ FileDirEntry.create_timestamp e < 2 ^ 32 ∧
  0 ≤ FileDirEntry.last_modified_timestamp e < 2 ^ 32 ∧
  0 ≤ FileDirEntry.last_accessed_timestamp e < 2 ^ 32 ∧
  byte_ok (FileDirEntry.create_10ms_increment e) ∧
  byte_ok (FileDirEntry.last_modified_10ms_increment e) ∧
  byte_ok (FileDirEntry.create_utc_offset e) ∧ byte_ok (FileDirEntry.last_modified_utc_offset e) ∧
  byte_ok (FileDirEntry.last_accessed_utc_offset e).

Definition stream_entry_typed (e : StreamExtensionDirEntry.t) : Prop :=
  (byte_ok (StreamExtensionDirEntry.general_secondary_flags e) ∧
   Z.land (StreamExtensionDirEntry.general_secondary_flags e) GeneralSecondaryFlags_all =
     StreamExtensionDirEntry.general_secondary_flags e) ∧
  byte_ok (StreamExtensionDirEntry.name_length e) ∧
  0 ≤ StreamExtensionDirEntry.name_hash e < 2 ^ 16 ∧
  0 ≤ StreamExtensionDirEntry.valid_data_length e < 2 ^ 64 ∧
  0 ≤ StreamExtensionDirEntry.first_cluster e < 2 ^ 32 ∧
  0 ≤ StreamExtensionDirEntry.data_length e < 2 ^ 64.

Definition name_entry_typed (e : FileNameDirEntry.t) : Prop :=
  (byte_ok (FileNameDirEntry.general_secondary_flags e) ∧
   Z.land (FileNameDirEntry.general_secondary_flags e) GeneralSecondaryFlags_all =
     FileNameDirEntry.general_secondary_flags e) ∧
  length (FileNameDirEntry.file_name e) = 15%nat ∧
  Forall (λ u, 0 ≤ u < 2 ^ 16) (FileNameDirEntry.file_name e).

Definition raw_ok (raw : RawDirEntry) : Prop := length raw = 32%nat ∧ Forall byte_ok raw.

(** The exFAT set checksum as the specification of the file system states it:
    over all bytes of the set, rotate right by one and add, leaving out the
    checksum field itself. *)
Definition spec_checksum (set : list Z) : Z :=
  fold_left (λ c b, wrapping_add u16 (rotate_right1 16 c) b) (take 2 set ++ drop 4 set) 0.

(** * Lemmas *)
Section Layout.
Context {crates : Crates} {Hcr : CratesOk crates} {E : Type}.

Lemma FileDirEntry_from_bytes b0 b1 b2 b3 b4 b5 b6 b7 b8 b9 b10 b11 b12 b13 b14 b15 b16 b17 b18
    b19 b20 b21 b22 b23 b24 b25 b26 b27 b28 b29 b30 b31 :
  FileDirEntry_from (E:=E) [b0; b1; b2; b3; b4; b5; b6; b7; b8; b9; b10; b11; b12; b13; b14; b15;
    b16; b17; b18; b19; b20; b21; b22; b23; b24; b25; b26; b27; b28; b29; b30; b31] =
  Ok {| FileDirEntry.secondary_count := b1;
        FileDirEntry.set_checksum := from_le_bytes [b2; b3];
        FileDirEntry.file_attributes :=
          from_bits_truncate FileAttributes_all (from_le_bytes [b4; b5]);
        FileDirEntry.create_timestamp := from_le_bytes [b8; b9; b10; b11];
        FileDirEntry.last_modified_timestamp := from_le_bytes [b12; b13; b14; b15];
        FileDirEntry.last_accessed_timestamp := from_le_bytes [b16; b17; b18; b19];
        FileDirEntry.create_10ms_increment := b20;
        FileDirEntry.last_modified_10ms_increment := b21;
        FileDirEntry.create_utc_offset := b22;
        FileDirEntry.last_modified_utc_offset := b23;
        FileDirEntry.last_accessed_utc_offset := b24 |}.
Proof. reflexivity. Qed.

Lemma StreamExtensionDirEntry_from_bytes b0 b1 b2 b3 b4 b5 b6 b7 b8 b9 b10 b11 b12 b13 b14 b15
    b16 b17 b18 b19 b20 b21 b22 b23 b24 b25 b26 b27 b28 b29 b30 b31 :
  StreamExtensionDirEntry_from (E:=E) [b0; b1; b2; b3; b4; b5; b6; b7; b8; b9; b10; b11; b12;
    b13; b14; b15; b16; b17; b18; b19; b20; b21; b22; b23; b24; b25; b26; b27; b28; b29; b30;
    b31] =
  Ok {| StreamExtensionDirEntry.general_secondary_flags :=
          from_bits_truncate GeneralSecondaryFlags_all b1;
        StreamExtensionDirEntry.name_length := b3;
        StreamExtensionDirEntry.name_hash := from_le_bytes [b4; b5];
        StreamExtensionDirEntry.valid_data_length :=
          from_le_bytes [b8; b9; b10; b11; b12; b13; b14; b15];
        StreamExtensionDirEntry.first_cluster := from_le_bytes [b20; b21; b22; b23];
        StreamExtensionDirEntry.data_length :=
          from_le_bytes [b24; b25; b26; b27; b28; b29; b30; b31] |}.
Proof. reflexivity. Qed.

Lemma FileDirEntry_serialize_bytes e :
  FileDirEntry.serialize e =
    [0x85; FileDirEntry.secondary_count e] ++ to_le_bytes 2 (FileDirEntry.set_checksum e) ++
    to_le_bytes 2 (FileDirEntry.file_attributes e) ++ [0; 0] ++
    to_le_bytes 4 (FileDirEntry.create_timestamp e) ++
    to_le_bytes 4 (FileDirEntry.last_modified_timestamp e) ++
    to_le_bytes 4 (FileDirEntry.last_accessed_timestamp e) ++
    [FileDirEntry.create_10ms_increment e; FileDirEntry.last_modified_10ms_increment e;
     FileDirEntry.create_utc_offset e; FileDirEntry.last_modified_utc_offset e;
     FileDirEntry.last_accessed_utc_offset e; 0; 0; 0; 0; 0; 0; 0].
Proof. reflexivity. Qed.

Lemma StreamExtensionDirEntry_serialize_bytes e :
  StreamExtensionDirEntry.serialize e =
    [0xC0; StreamExtensionDirEntry.general_secondary_flags e; 0;
     StreamExtensionDirEntry.name_length e] ++
    to_le_bytes 2 (StreamExtensionDirEntry.name_hash e) ++ [0; 0] ++
    to_le_bytes 8 (StreamExtensionDirEntry.valid_data_length e) ++ [0; 0; 0; 0] ++
    to_le_bytes 4 (StreamExtensionDirEntry.first_cluster e) ++
    to_le_bytes 8 (StreamExtensionDirEntry.data_length e).
Proof. reflexivity. Qed.

Lemma FileNameDirEntry_serialize_ok e : name_entry_typed e → raw_ok (FileNameDirEntry.serialize e).
Proof.
  intros ((? & _) & Hl & Hu). destruct e as [f us]. cbn [FileNameDirEntry.general_secondary_flags FileNameDirEntry.file_name] in *.
  do 15 (destruct us as [|? us]; [done|]). destruct us; [|done]. split; [reflexivity|].
  match goal with |- Forall _ (FileNameDirEntry.serialize {| FileNameDirEntry.general_secondary_flags := _;
    FileNameDirEntry.file_name := ?us |}) =>
    change (Forall byte_ok ([0xC1; f] ++ flat_map (to_le_bytes 2) us)) end.
  apply Forall_app_2; [repeat constructor; unfold byte_ok in *; lia|].
  cbn [flat_map]. repeat (apply Forall_app_2; [apply to_le_bytes_ok|]). apply Forall_nil_2.
Qed.

Lemma FileDirEntry_serialize_ok e : file_entry_typed e → raw_ok (FileDirEntry.serialize e).
Proof.
  intros (? & ? & ? & ? & ? & ? & ? & ? & ? & ? & ?). split; [reflexivity|].
  rewrite FileDirEntry_serialize_bytes.
  repeat first [apply Forall_app_2 | apply to_le_bytes_ok | apply Forall_cons_2 | apply Forall_nil_2];
    unfold byte_ok in *; lia.
Qed.
Lemma StreamExtensionDirEntry_serialize_ok e :
  stream_entry_typed e → raw_ok (StreamExtensionDirEntry.serialize e).
Proof.
  intros ((? & _) & ? & ?). split; [reflexivity|]. rewrite StreamExtensionDirEntry_serialize_bytes.
  repeat first [apply Forall_app_2 | apply to_le_bytes_ok | apply Forall_cons_2 | apply Forall_nil_2];
    unfold byte_ok in *; lia.
Qed.

Lemma file_entry_roundtrip e :
  file_entry_typed e → FileDirEntry_from (E:=E) (FileDirEntry.serialize e) = Ok e.
Proof.
  intros (? & ? & (? & Ha) & ? & ? & ? & ? & ? & ? & ? & ?).
  rewrite FileDirEntry_serialize_bytes. cbn [to_le_bytes app]. rewrite FileDirEntry_from_bytes.
  rewrite from_bits_truncate_spec. destruct e; cbn in *. f_equal. f_equal; try (dlia).
  etransitivity; [|exact Ha]. f_equal. dlia.
Qed.

Lemma from_to_le_8 x : 0 ≤ x < 2 ^ 64 →
  from_le_bytes [x mod 256; x / 256 mod 256; x / 256 / 256 mod 256; x / 256 / 256 / 256 mod 256;
    x / 256 / 256 / 256 / 256 mod 256; x / 256 / 256 / 256 / 256 / 256 mod 256;
    x / 256 / 256 / 256 / 256 / 256 / 256 mod 256;
    x / 256 / 256 / 256 / 256 / 256 / 256 / 256 mod 256] = x.
Proof. apply (from_to_le_bytes_small 8). Qed.

Lemma stream_entry_roundtrip e :
  stream_entry_typed e →
  StreamExtensionDirEntry_from (E:=E) (StreamExtensionDirEntry.serialize e) = Ok e.
Proof.
  intros ((? & Ha) & ? & ? & ? & ? & ?).
  rewrite StreamExtensionDirEntry_serialize_bytes. cbn [to_le_bytes app].
  rewrite StreamExtensionDirEntry_from_bytes, from_bits_truncate_spec.
  rewrite !from_to_le_8 by done. destruct e; cbn in *. f_equal. f_equal; try dlia.
Qed.

Lemma name_entry_roundtrip e :
  name_entry_typed e → FileNameDirEntry_from (E:=E) (FileNameDirEntry.serialize e) = Ok e.
Proof.
  intros ((? & Ha) & Hl & Hu). destruct e as [f us]. cbn in Hl, Hu, Ha.
  do 15 (destruct us as [|? us]; [done|]). destruct us; [|done].
  assert (Hs : FileNameDirEntry_from (E:=E) (FileNameDirEntry.serialize
    {| FileNameDirEntry.general_secondary_flags := f;
       FileNameDirEntry.file_name := [z; z0; z1; z2; z3; z4; z5; z6; z7; z8; z9; z10; z11; z12; z13] |})
    = Ok {| FileNameDirEntry.general_secondary_flags :=
              from_bits_truncate GeneralSecondaryFlags_all f;
            FileNameDirEntry.file_name := (λ u, from_le_bytes (to_le_bytes 2 u)) <$>
              [z; z0; z1; z2; z3; z4; z5; z6; z7; z8; z9; z10; z11; z12; z13] |}) by reflexivity.
  rewrite Hs, from_bits_truncate_spec, Ha. do 2 f_equal.
  rewrite <-(list_fmap_id [z; z0; z1; z2; z3; z4; z5; z6; z7; z8; z9; z10; z11; z12; z13]) at 2.
  apply list_fmap_ext. intros i u Hi. apply from_to_le_bytes_small.
  rewrite Forall_lookup in Hu. by apply (Hu i).
Qed.
End Layout.

(** * Theorems *)
Section Theorems.
Context {cfg : Config} {crates : Crates} {Hcr : CratesOk crates}.

(** the entry type keeps the type byte: for every byte, parsing it and
    serialising the result gives the byte back, so the in-use bit and unknown
    types survive; only the byte 0 is the end-of-directory type and exactly
    the bytes 1 to 127 are unused entries. *)
Theorem entry_type_roundtrip b :
  byte_ok b →
  EntryType.serialize (EntryType.from b) = b ∧
  (EntryType.from b = EntryType.EndOfDirectory ↔ b = 0) ∧
  ((∃ x, EntryType.from b = EntryType.Unused x) ↔ 0 < b < 128).
Proof.
  intros Hb.
  pose proof (forall_byte (λ b, (EntryType.serialize (EntryType.from b) =? b) &&
    eqb (bool_decide (EntryType.from b = EntryType.EndOfDirectory)) (b =? 0) &&
    eqb (bool_decide (EntryType.from b = EntryType.Unused b)) ((0 <? b) && (b <? 128)))
    ltac:(vm_compute; exact eq_refl) b Hb) as H. cbv beta in H.
  apply andb_true_iff in H as [[H1 H2%eqb_prop]%andb_true_iff H3%eqb_prop].
  apply Z.eqb_eq in H1. split; [done|]. split.
  - rewrite <-(Z.eqb_eq b 0), <-H2. symmetry. apply bool_decide_eq_true.
  - assert (Hu : (0 <? b) && (b <? 128) = true ↔ 0 < b < 128) by lia.
    rewrite <-Hu, <-H3, bool_decide_eq_true. split; [|eauto].
    intros [x Hx]. rewrite Hx in *. cbn in H1. by subst x.
Qed.

(** the three entries of a directory set survive a write and a read:
    parsing what [serialize] wrote gives back the same file, stream
    extension or name entry, and what it wrote is 32 bytes. *)
Theorem entries_roundtrip {E} (f : FileDirEntry.t) (s : StreamExtensionDirEntry.t)
    (n : FileNameDirEntry.t) :
  file_entry_typed f → stream_entry_typed s → name_entry_typed n →
  (FileDirEntry_from (E:=E) (FileDirEntry.serialize f) = Ok f ∧
   raw_ok (FileDirEntry.serialize f)) ∧
  (StreamExtensionDirEntry_from (E:=E) (StreamExtensionDirEntry.serialize s) = Ok s ∧
   raw_ok (StreamExtensionDirEntry.serialize s)) ∧
  FileNameDirEntry_from (E:=E) (FileNameDirEntry.serialize n) = Ok n.
Proof.
  intros. split_and!; [by apply file_entry_roundtrip|by apply FileDirEntry_serialize_ok|
    by apply stream_entry_roundtrip|by apply StreamExtensionDirEntry_serialize_ok|
    by apply name_entry_roundtrip].
Qed.

Lemma raw_ok_explicit raw : raw_ok raw →
  ∃ b0 b1 b2 b3 b4 b5 b6 b7 b8 b9 b10 b11 b12 b13 b14 b15 b16 b17 b18 b19 b20 b21 b22 b23 b24
    b25 b26 b27 b28 b29 b30 b31,
    raw = [b0; b1; b2; b3; b4; b5; b6; b7; b8; b9; b10; b11; b12; b13; b14; b15; b16; b17; b18;
           b19; b20; b21; b22; b23; b24; b25; b26; b27; b28; b29; b30; b31].
Proof.
  intros [Hl _]. do 32 (destruct raw as [|? raw]; [done|]). destruct raw; [|done].
  repeat eexists.
Qed.

Lemma land_attributes x : byte_ok (Z.land x FileAttributes_all).
Proof.
  assert (Z.land x FileAttributes_all = Z.land (x mod 256) FileAttributes_all) as ->.
  { change 256 with (2 ^ 8). rewrite <-(land_low x 8) by lia. by rewrite <-Z.land_assoc. }
  pose proof (forall_byte (λ x, bool_decide (byte_ok (Z.land x FileAttributes_all)))
    ltac:(vm_compute; exact eq_refl) (x mod 256)) as H.
  rewrite bool_decide_eq_true in H. apply H. unfold byte_ok. dlia.
Qed.

Ltac bytes := repeat (apply Forall_cons_2; [assumption|]); apply Forall_nil_2.

(** rewriting a file entry as [File::flush] does keeps every byte except
    the reserved ones: parsing any 32 bytes succeeds, and serialising the
    result gives the type byte 0x85, the original bytes 1-3 and 8-24, the
    known attribute bits, and zeros in the reserved fields. *)
Theorem file_entry_rewrite {E} (raw : RawDirEntry) :
  raw_ok raw →
  ∃ e, FileDirEntry_from (E:=E) raw = Ok e ∧ file_entry_typed e ∧
    FileDirEntry.serialize e =
      0x85 :: take 3 (drop 1 raw) ++
      to_le_bytes 2 (Z.land (from_le_bytes (take 2 (drop 4 raw))) FileAttributes_all) ++
      [0; 0] ++ take 17 (drop 8 raw) ++ zeros 7.
Proof.
  intros Hraw. destruct (raw_ok_explicit raw Hraw) as (b0 & b1 & b2 & b3 & b4 & b5 & b6 & b7 & b8 &
    b9 & b10 & b11 & b12 & b13 & b14 & b15 & b16 & b17 & b18 & b19 & b20 & b21 & b22 & b23 & b24 &
    b25 & b26 & b27 & b28 & b29 & b30 & b31 & ->).
  destruct Hraw as [_ Hb]. rewrite FileDirEntry_from_bytes, from_bits_truncate_spec.
  eexists. split; [done|]. repeat (apply Forall_cons in Hb as [? Hb]).
  assert (Hle : ∀ bs, Forall byte_ok bs → 0 ≤ from_le_bytes bs < 2 ^ (8 * len bs) ∧
    to_le_bytes (length bs) (from_le_bytes bs) = bs).
  { intros bs ?. split; [by apply from_le_bytes_range|by apply to_from_le_bytes]. }
  destruct (Hle [b2; b3]) as [Hr1 Hle1]; [bytes|]. change (8 * len _) with 16 in Hr1.
  destruct (Hle [b8; b9; b10; b11]) as [Hr2 Hle2]; [bytes|]. change (8 * len _) with 32 in Hr2.
  destruct (Hle [b12; b13; b14; b15]) as [Hr3 Hle3]; [bytes|]. change (8 * len _) with 32 in Hr3.
  destruct (Hle [b16; b17; b18; b19]) as [Hr4 Hle4]; [bytes|]. change (8 * len _) with 32 in Hr4.
  assert (Ha : 0 ≤ Z.land (from_le_bytes [b4; b5]) FileAttributes_all < 2 ^ 16).
  { pose proof (land_attributes (from_le_bytes [b4; b5])) as Hla. unfold byte_ok in Hla. lia. }
  split.
  - split_and!; cbn [FileDirEntry.secondary_count FileDirEntry.set_checksum
      FileDirEntry.file_attributes FileDirEntry.create_timestamp
      FileDirEntry.last_modified_timestamp FileDirEntry.last_accessed_timestamp
      FileDirEntry.create_10ms_increment FileDirEntry.last_modified_10ms_increment
      FileDirEntry.create_utc_offset FileDirEntry.last_modified_utc_offset
      FileDirEntry.last_accessed_utc_offset]; try done; try lia.
    by rewrite <-Z.land_assoc, Z.land_diag.
  - rewrite FileDirEntry_serialize_bytes. cbn [FileDirEntry.secondary_count
      FileDirEntry.set_checksum FileDirEntry.file_attributes FileDirEntry.create_timestamp
      FileDirEntry.last_modified_timestamp FileDirEntry.last_accessed_timestamp
      FileDirEntry.create_10ms_increment FileDirEntry.last_modified_10ms_increment
      FileDirEntry.create_utc_offset FileDirEntry.last_modified_utc_offset
      FileDirEntry.last_accessed_utc_offset].
    cbn [length] in Hle1, Hle2, Hle3, Hle4. rewrite Hle1, Hle2, Hle3, Hle4. reflexivity.
Qed.

Lemma stream_entry_parses {E} (raw : RawDirEntry) :
  raw_ok raw → ∃ e, StreamExtensionDirEntry_from (E:=E) raw = Ok e ∧ stream_entry_typed e.
Proof.
  intros Hraw. destruct (raw_ok_explicit raw Hraw) as (b0 & b1 & b2 & b3 & b4 & b5 & b6 & b7 & b8 &
    b9 & b10 & b11 & b12 & b13 & b14 & b15 & b16 & b17 & b18 & b19 & b20 & b21 & b22 & b23 & b24 &
    b25 & b26 & b27 & b28 & b29 & b30 & b31 & ->).
  destruct Hraw as [_ Hb]. rewrite StreamExtensionDirEntry_from_bytes, from_bits_truncate_spec.
  eexists. split; [done|]. repeat (apply Forall_cons in Hb as [? Hb]).
  split_and!; cbn -[from_le_bytes]; try done;
    try (apply from_le_bytes_range; bytes);
    try (by rewrite <-Z.land_assoc, Z.land_diag).
  pose proof (forall_byte (λ x, bool_decide (byte_ok (Z.land x GeneralSecondaryFlags_all)))
    ltac:(vm_compute; exact eq_refl) b1 ltac:(assumption)) as Hf.
  by rewrite bool_decide_eq_true in Hf.
Qed.

Lemma calc_checksum_loop_tail raw i c b :
  4 ≤ i ∨ b = false →
  calc_checksum_loop raw i b c = fold_left (λ c b, wrapping_add u16 (rotate_right1 16 c) b) raw c.
Proof.
  revert i c. induction raw as [|x raw IH]; intros i c Hi; [done|]. cbn [calc_checksum_loop fold_left].
  rewrite IH by (destruct Hi; [left; lia|by right]). destruct Hi as [Hi| ->]; [|done].
  rewrite (proj2 (Z.eqb_neq i 2)), (proj2 (Z.eqb_neq i 3)), andb_false_r by lia. done.
Qed.

Lemma set_checksum_ok (first : RawDirEntry) (others : list RawDirEntry) :
  (4 ≤ length first)%nat →
  fold_left (λ c raw, calc_checksum raw false c) others (calc_checksum first true 0) =
    spec_checksum (first ++ concat others).
Proof.
  intros Hl. unfold spec_checksum.
  do 4 (destruct first as [|? first]; [cbn in Hl; lia|]).
  assert (Hg : ∀ c, fold_left (λ c raw, calc_checksum raw false c) others c =
    fold_left (λ c b, wrapping_add u16 (rotate_right1 16 c) b) (concat others) c).
  { induction others as [|o others IH]; intros c; [done|]. cbn [fold_left concat].
    rewrite IH, fold_left_app. f_equal. apply calc_checksum_loop_tail. by right. }
  rewrite Hg. cbn [take drop app fold_left]. rewrite drop_0, fold_left_app. f_equal.
  unfold calc_checksum. cbn [calc_checksum_loop andb orb Z.eqb Z.add Pos.eqb].
  rewrite calc_checksum_loop_tail by (left; done). done.
Qed.

(** The checksum [DirSetWriter] accumulates over the entries it is given
    (the file entry first, then the others in order) is the set checksum of
    the exFAT specification over the concatenated bytes, whatever the old
    checksum field holds. *)
Theorem set_checksum_correct (first : RawDirEntry) (others : list RawDirEntry) :
  (4 ≤ length first)%nat →
  fold_left (λ c raw, calc_checksum raw false c) others (calc_checksum first true 0) =
    spec_checksum (first ++ concat others).
Proof. apply set_checksum_ok. Qed.
End Theorems.

(** ** Decoding names *)
Section NameTheorems.
Context {cfg : Config} {Hcfg : ConfigOk cfg}.

Lemma splice_app (pre rest x : list Z) :
  splice (pre ++ rest) (len pre) x = pre ++ x ++ drop (length x) rest.
Proof.
  unfold splice, len. rewrite Nat2Z.id, take_app_length, drop_app_ge by lia. do 3 f_equal. lia.
Qed.

Lemma usize_ge_32 x : 0 ≤ x < 2 ^ 32 → 0 ≤ x < 2 ^ usize.
Proof. destruct usize_cases as [-> | ->]; lia. Qed.

Lemma len_utf8_range c : 1 ≤ len_utf8 c ≤ 4.
Proof. unfold len_utf8. repeat case_match; lia. Qed.

Lemma decode_loop_ok {E} s pre rest :
  len (pre ++ rest) < 2 ^ 32 - 4 →
  let r := decode_loop (E:=E) (Some <$> s) (len pre) (pre ++ rest) in
  if len (utf8 s) <=? len rest
  then r = (pre ++ utf8 s ++ drop (length (utf8 s)) rest, Ok (len pre + len (utf8 s)))
  else snd r = Err FileNameBufferTooSmall.
Proof.
  revert pre rest. induction s as [|c s IH]; intros pre rest Hl; cbv zeta.
  { change (utf8 []) with (@nil Z). change (len (@nil Z)) with 0.
    rewrite (proj2 (Z.leb_le 0 (len rest))) by apply len_nonneg. by rewrite Z.add_0_r. }
  cbn [fmap list_fmap decode_loop]. rewrite len_app in Hl.
  pose proof (len_nonneg pre). pose proof (len_nonneg rest). pose proof (len_utf8_range c).
  pose proof (length_encode_utf8 c) as Hc.
  rewrite add_ok, bind_lift_Ok by (apply usize_ge_32; lia).
  rewrite (bind_Ok (gets len) _ _ (pre ++ rest) (len (pre ++ rest))) by done. rewrite len_app.
  change (utf8 (c :: s)) with (encode_utf8 c ++ utf8 s). rewrite len_app, Hc.
  pose proof (len_nonneg (utf8 s)).
  destruct (Z.leb_spec (len pre + len_utf8 c) (len pre + len rest)) as [Hfit|Hno].
  2: { by rewrite (proj2 (Z.leb_gt _ _)) by lia. }
  rewrite (bind_Ok (gets _) _ _ (pre ++ rest) (pre ++ rest)) by done.
  rewrite copy_into_ok, bind_lift_Ok by (rewrite ?len_app, ?Hc; lia).
  rewrite splice_app.
  rewrite (bind_Ok _ _ _ (pre ++ encode_utf8 c ++ drop (length (encode_utf8 c)) rest) ()) by done.
  set (rest' := drop (length (encode_utf8 c)) rest).
  assert (Hr' : len rest' = len rest - len_utf8 c).
  { unfold rest'. rewrite len_drop. unfold len in *. lia. }
  specialize (IH (pre ++ encode_utf8 c) rest'). rewrite !len_app, Hc, Hr' in IH.
  specialize (IH ltac:(lia)). cbv zeta in IH. rewrite <-app_assoc in IH.
  replace (len_utf8 c + len (utf8 s) <=? len rest) with (len (utf8 s) <=? len rest - len_utf8 c) by lia.
  destruct (len (utf8 s) <=? _); [|exact IH].
  rewrite IH. unfold rest'. rewrite drop_drop, length_app, <-!app_assoc. do 2 f_equal. lia.
Qed.

(** names survive the way from the disk to the user: decoding the UTF-16
    units of any name into a buffer that can hold its UTF-8 form puts exactly
    these bytes at the front of the buffer, leaves the rest alone and returns
    their number, from which the name itself is read back; a buffer that is
    too small is reported, never overrun. *)
Theorem decode_name_correct {E} (s : str) (buf : list Z) :
  Forall scalar s → len buf < 2 ^ 32 - 4 →
  let r := decode_utf16_to_utf8 (E:=E) (encode_utf16 s) buf in
  if len (utf8 s) <=? len buf
  then r = (utf8 s ++ drop (length (utf8 s)) buf, Ok (len (utf8 s))) ∧
       from_utf8 (take (length (utf8 s)) (fst r)) = Some s
  else snd r = Err FileNameBufferTooSmall.
Proof.
  intros Hs Hl. unfold decode_utf16_to_utf8. rewrite decode_encode_utf16 by done.
  pose proof (decode_loop_ok (E:=E) s [] buf Hl) as H. cbn [app] in H.
  change (len (@nil Z)) with 0 in H. cbv zeta in *. destruct (_ <=? _); [|done].
  rewrite H. split; [done|]. cbn [fst]. rewrite take_app_length. by apply from_utf8_utf8.
Qed.
End NameTheorems.

(** ** Concrete instances *)
Definition sample_file_entry : FileDirEntry.t := {|
  FileDirEntry.secondary_count := 2;
  FileDirEntry.set_checksum := 0x1234;
  FileDirEntry.file_attributes := 0x20;
  FileDirEntry.create_timestamp := 0x5A210000;
  FileDirEntry.last_modified_timestamp := 0x5A210001;
  FileDirEntry.last_accessed_timestamp := 0x5A210002;
  FileDirEntry.create_10ms_increment := 3;
  FileDirEntry.last_modified_10ms_increment := 4;
  FileDirEntry.create_utc_offset := 0x80;
  FileDirEntry.last_modified_utc_offset := 0x84;
  FileDirEntry.last_accessed_utc_offset := 0xFC |}.

Definition sample_stream_entry : StreamExtensionDirEntry.t := {|
  StreamExtensionDirEntry.general_secondary_flags := 3;
  StreamExtensionDirEntry.name_length := 5;
  StreamExtensionDirEntry.name_hash := 0xBEEF;
  StreamExtensionDirEntry.valid_data_length := 0x100000001;
  StreamExtensionDirEntry.first_cluster := 9;
  StreamExtensionDirEntry.data_length := 0x100000002 |}.

Definition sample_name_entry : FileNameDirEntry.t := {|
  FileNameDirEntry.general_secondary_flags := 1;
  FileNameDirEntry.file_name := [97; 98; 99; 0xFFFF; 0xD83D; 0xDE00; 7; 8; 9; 10; 11; 12; 13; 0; 0] |}.

Lemma entry_type_roundtrip_witness :
  EntryType.serialize (EntryType.from 0x85) = 0x85 ∧
  (EntryType.from 0x85 = EntryType.EndOfDirectory ↔ 0x85 = 0) ∧
  ((∃ x, EntryType.from 0x85 = EntryType.Unused x) ↔ 0 < 0x85 < 128).
Proof. apply (entry_type_roundtrip 0x85). unfold byte_ok. lia. Defined.

Lemma entries_roundtrip_witness :
  let crates := reference_crates in
  (FileDirEntry_from (E:=unit) (FileDirEntry.serialize sample_file_entry) = Ok sample_file_entry ∧
   raw_ok (FileDirEntry.serialize sample_file_entry)) ∧
  (StreamExtensionDirEntry_from (E:=unit) (StreamExtensionDirEntry.serialize sample_stream_entry) =
     Ok sample_stream_entry ∧
   raw_ok (StreamExtensionDirEntry.serialize sample_stream_entry)) ∧
  FileNameDirEntry_from (E:=unit) (FileNameDirEntry.serialize sample_name_entry) =
    Ok sample_name_entry.
Proof.
  intros crates.
  apply (@entries_roundtrip crates reference_crates_ok unit sample_file_entry sample_stream_entry
    sample_name_entry).
  - unfold file_entry_typed, byte_ok. cbn. repeat split; try lia; reflexivity.
  - unfold stream_entry_typed, byte_ok. cbn. repeat split; try lia; reflexivity.
  - unfold name_entry_typed, byte_ok. cbn.
    split; [repeat split; try lia; reflexivity|split; [reflexivity|]].
    apply (bool_decide_unpack _). vm_compute. exact I.
Defined.

Lemma file_entry_rewrite_witness :
  let crates := reference_crates in
  ∃ e, FileDirEntry_from (E:=unit) (0x85 :: zeros 31) = Ok e ∧ file_entry_typed e ∧
    FileDirEntry.serialize e =
      0x85 :: take 3 (drop 1 (0x85 :: zeros 31)) ++
      to_le_bytes 2 (Z.land (from_le_bytes (take 2 (drop 4 (0x85 :: zeros 31)))) FileAttributes_all) ++
      [0; 0] ++ take 17 (drop 8 (0x85 :: zeros 31)) ++ zeros 7.
Proof.
  intros crates. apply (@file_entry_rewrite crates reference_crates_ok unit (0x85 :: zeros 31)).
  split; [reflexivity|apply (bool_decide_unpack _); vm_compute; exact I].
Defined.

Lemma set_checksum_witness :
  fold_left (λ c raw, calc_checksum raw false c)
    [StreamExtensionDirEntry.serialize sample_stream_entry;
     FileNameDirEntry.serialize sample_name_entry]
    (calc_checksum (FileDirEntry.serialize sample_file_entry) true 0) =
  spec_checksum (FileDirEntry.serialize sample_file_entry ++
    concat [StreamExtensionDirEntry.serialize sample_stream_entry;
            FileNameDirEntry.serialize sample_name_entry]).
Proof. apply set_checksum_correct. apply Nat.leb_le. reflexivity. Defined.

Lemma decode_name_witness :
  let cfg := debug_build in
  let r := decode_utf16_to_utf8 (E:=unit) (encode_utf16 [97; 0xE9; 0x1F600]) (zeros 9) in
  if len (utf8 [97; 0xE9; 0x1F600]) <=? len (zeros 9)
  then r = (utf8 [97; 0xE9; 0x1F600] ++ drop (length (utf8 [97; 0xE9; 0x1F600])) (zeros 9),
            Ok (len (utf8 [97; 0xE9; 0x1F600]))) ∧
       from_utf8 (take (length (utf8 [97; 0xE9; 0x1F600])) (fst r)) = Some [97; 0xE9; 0x1F600]
  else snd r = Err FileNameBufferTooSmall.
Proof.
  intros cfg. apply (@decode_name_correct cfg debug_build_ok unit [97; 0xE9; 0x1F600] (zeros 9)).
  - unfold scalar. repeat (apply Forall_cons_2; [lia|]). apply Forall_nil_2.
  - vm_compute. reflexivity.
Defined.
