(* ===== verification/Volume.v ===== *)
(** * The file system state, its caches and mounting

    The structs [FileSystemDetails] and [FileSystem] of src/file_system.rs,
    the timestamps it hands out, [Touched::flush] of src/file.rs (which writes
    an operation's dirty sectors in order), flushing and unmounting, and
    mounting: the boot sector, the root-directory scan, the up-case table.

    The user's [fn() -> Timestamp] is a stream of timestamps; [clock] counts
    the calls so far. *)

From S2P Require Import Prelude Text Crates Errors Utils Timestamp BootSector Device SlotCache Touched Fat Allocation DirectoryEntry.
Open Scope string_scope.
Open Scope list_scope.
Open Scope Z_scope.

(** A bound for the loops that the contents of a volume could keep going. *)
Class Fuel := fuel : nat.

Module FileSystemDetails.
Record t := {
  cluster_heap_offset : Z;
  fat_offset : Z;
  sectors_per_cluster : Z;
  cluster_length : Z;
  cluster_count : Z;
  first_cluster_of_root_dir : Z;
}.
Definition empty : t := {|
  cluster_heap_offset := 0; fat_offset := 0; sectors_per_cluster := 64; cluster_length := 32768;
  cluster_count := 0; first_cluster_of_root_dir := 0 |}.

Section New.
Context {cfg : Config} {E : Type}.
Definition new (boot_sector : BootSector) : outcome E t :=
  cluster_length ← mul u32 (bytes_per_sector boot_sector) (BootSector.sectors_per_cluster boot_sector);
  Ok {| cluster_heap_offset := BootSector.cluster_heap_offset boot_sector;
        fat_offset := BootSector.fat_offset boot_sector;
        sectors_per_cluster := BootSector.sectors_per_cluster boot_sector;
        cluster_length := cluster_length;
        cluster_count := BootSector.cluster_count boot_sector;
        first_cluster_of_root_dir := BootSector.first_cluster_of_root_dir boot_sector |}.
End New.
End FileSystemDetails.
Import FileSystemDetails (cluster_length, sectors_per_cluster, cluster_heap_offset).

Record FileSystemMetadata := {
  details : FileSystemDetails.t;
  md_upcase_table : UpcaseTable;
  alloc_bitmap : AllocationBitmap.t;
}.

Section State.
Context {bd : BlockDevice}.

Record FileSystem := {
  device : dev;
  is_mounted : bool;
  fs : FileSystemDetails.t;
  upcase_table : UpcaseTable;
  allocator : Allocator;
  fat : Fat;
  data_blocks : SlotCache;
  time_provider : option (nat → Timestamp);
  clock : nat;
}.

(** ** The parts of the file system its methods borrow *)
Definition ldev : lens FileSystem dev :=
  Lens device (λ d f, {| device := d; is_mounted := is_mounted f; fs := fs f;
    upcase_table := upcase_table f; allocator := allocator f; fat := fat f;
    data_blocks := data_blocks f; time_provider := time_provider f; clock := clock f |}).
Definition lfatdev : lens FileSystem (Fat * dev) :=
  Lens (λ f, (fat f, device f))
    (λ p f, {| device := snd p; is_mounted := is_mounted f; fs := fs f;
    upcase_table := upcase_table f; allocator := allocator f; fat := fst p;
    data_blocks := data_blocks f; time_provider := time_provider f; clock := clock f |}).
Definition lallocdev : lens FileSystem (Allocator * dev) :=
  Lens (λ f, (allocator f, device f))
    (λ p f, {| device := snd p; is_mounted := is_mounted f; fs := fs f;
    upcase_table := upcase_table f; allocator := fst p; fat := fat f;
    data_blocks := data_blocks f; time_provider := time_provider f; clock := clock f |}).
Definition ldata : lens FileSystem (SlotCache * dev) :=
  Lens (λ f, (data_blocks f, device f))
    (λ p f, {| device := snd p; is_mounted := is_mounted f; fs := fs f;
    upcase_table := upcase_table f; allocator := allocator f; fat := fat f;
    data_blocks := fst p; time_provider := time_provider f; clock := clock f |}).
Definition lfree : lens FileSystem (Allocator * (Fat * dev)) :=
  Lens (λ f, (allocator f, (fat f, device f)))
    (λ p f, {| device := snd (snd p); is_mounted := is_mounted f; fs := fs f;
    upcase_table := upcase_table f; allocator := fst p; fat := fst (snd p);
    data_blocks := data_blocks f; time_provider := time_provider f; clock := clock f |}).

(** a callee that borrows the dirty list and a part of the file system *)
Definition with_touched {T} (l : lens FileSystem T)
    : lens (FileDirty * FileSystem) (FileDirty * T) :=
  Lens (λ s, (fst s, view l (snd s))) (λ t s, (fst t, put l (snd t) (snd s))).
End State.

Section Ops.
Context {cfg : Config} {crates : Crates} {bd : BlockDevice}.
Abbreviation FSM := (M FileSystem err) (only parsing).
Abbreviation TM := (M (FileDirty * FileSystem) err) (only parsing).

Definition get_heap_sector_id (d : FileSystemDetails.t) (cluster_id : Z) : outcome err Z :=
  if cluster_id <? 2 then Err (InvalidClusterId cluster_id)
  else
    k ← sub u32 cluster_id 2;
    o ← mul u32 k (sectors_per_cluster d);
    add u32 (cluster_heap_offset d) o.

(** [FileSystem::new] *)
Definition FileSystem_new (io : dev) : FileSystem := {|
  device := io; is_mounted := false; fs := FileSystemDetails.empty;
  upcase_table := UpcaseTable_empty; allocator := Allocator_new; fat := Fat_new;
  data_blocks := SlotCache_new; time_provider := None; clock := 0 |}.

Definition set_time_provider (p : nat → Timestamp) (f : FileSystem) : FileSystem := {|
  device := device f; is_mounted := is_mounted f; fs := fs f;
  upcase_table := upcase_table f; allocator := allocator f; fat := fat f;
  data_blocks := data_blocks f; time_provider := Some p; clock := clock f |}.

Definition get_current_timestamp : FSM EncodedTimestamp := λ f,
  match time_provider f with
  | Some get_timestamp =>
      ({| device := device f; is_mounted := is_mounted f; fs := fs f;
          upcase_table := upcase_table f; allocator := allocator f; fat := fat f;
          data_blocks := data_blocks f; time_provider := time_provider f;
          clock := S (clock f) |},
       encode (get_timestamp (clock f)))
  | None => (f, Ok EncodedTimestamp_default)
  end.

(** ** Flushing *)

(** [FileSystem::flush] *)
Definition flush : FSM () :=
  zoom lfatdev Fat.flush ;;
  zoom lallocdev Allocation.flush ;;
  zoom ldata SlotCache.flush.

(** one sector of the list in [Touched::flush] *)
Definition flush_touched (item : TouchedSector) : FSM () :=
  match kind item with
  | Bitmap => zoom lallocdev (Allocation.flush_sector (Touched.sector item))
  | Touched.Fat => zoom lfatdev (Fat.flush_sector (Touched.sector item))
  | Data | Dir => zoom ldata (SlotCache.flush_sector (Touched.sector item))
  | None_ => mret ()
  end.

(** [Touched::flush] of [FileDirty] *)
Definition FileDirty_flush : TM () :=
  t ← gets fst;
  (if overflowed t then zoom lsnd flush
   else
     modify (λ s, (sort (fst s), snd s)) ;;
     items ← gets (sectors ∘ fst);
     for_each items (λ item, zoom lsnd (flush_touched item))) ;;
  modify (λ s, (FileDirty_new, snd s)).

(** [unmount]: the flush is best effort *)
Definition unmount : FSM dev :=
  try_ flush ;;
  gets device.

(** ** Mounting *)

(** [UpcaseTable::load] *)
Definition load (t : UpcaseTable) (dir_entry : UpcaseTableDirEntry.t) (d : FileSystemDetails.t)
    : M dev err UpcaseTable :=
  sector_id ← lift (get_heap_sector_id d (UpcaseTableDirEntry.first_cluster dir_entry));
  block ← io_read sector_id;
  mret (load_mapping t block).

Definition read_boot_sector (sector_id : Z) : M dev err BootSector :=
  data ← io_read sector_id;
  lift (map_err_o NotExFat (try_from data)).

(** the three entries looked for in the first sector of the root directory *)
Record found := {
  allocation_bitmap_dir_entry : option AllocationBitmapDirEntry.t;
  volume_label : option (list Z);
  upcase_table_dir_entry : option UpcaseTableDirEntry.t;
}.
Fixpoint scan_root (chunks : list RawDirEntry) (st : found) : outcome err found :=
  match chunks with
  | [] => Ok st
  | chunk :: chunks =>
      entry_type_val ← index chunk 0;
      let check st :=
        if bool_decide (is_Some (allocation_bitmap_dir_entry st))
           && bool_decide (is_Some (upcase_table_dir_entry st))
           && bool_decide (is_Some (volume_label st))
        then Ok st else scan_root chunks st in
      match EntryType.from entry_type_val with
      | EntryType.AllocationBitmap =>
          entry ← AllocationBitmapDirEntry_from chunk;
          check {| allocation_bitmap_dir_entry := Some entry; volume_label := volume_label st;
                   upcase_table_dir_entry := upcase_table_dir_entry st |}
      | EntryType.VolumeLabel =>
          entry ← map_err_o DirectoryEntry (VolumeLabelDirEntry_try_from chunk);
          check {| allocation_bitmap_dir_entry := allocation_bitmap_dir_entry st;
                   volume_label := Some entry;
                   upcase_table_dir_entry := upcase_table_dir_entry st |}
      | EntryType.UpcaseTable =>
          entry ← UpcaseTableDirEntry_from chunk;
          check {| allocation_bitmap_dir_entry := allocation_bitmap_dir_entry st;
                   volume_label := volume_label st; upcase_table_dir_entry := Some entry |}
      | EntryType.EndOfDirectory =>
          if is_end_of_directory chunk then Ok st else check st
      | _ => check st
      end
  end.

Definition read_file_system_metadata : M dev err FileSystemMetadata :=
  boot_sector ← read_boot_sector 0;
  d ← lift (FileSystemDetails.new boot_sector);
  sector_id ← lift (get_heap_sector_id d (FileSystemDetails.first_cluster_of_root_dir d));
  data ← io_read sector_id;
  st ← lift (scan_root (as_chunks 32 data)
               {| allocation_bitmap_dir_entry := None; volume_label := None;
                  upcase_table_dir_entry := None |});
  match upcase_table_dir_entry st with
  | None => throw (InvalidFileSystem "no upcase table found in root dir")
  | Some upcase_entry =>
      if bool_decide (volume_label st = None)
      then throw (InvalidFileSystem "no volume label found in root dir")
      else match allocation_bitmap_dir_entry st with
           | None => throw (InvalidFileSystem "no allocation bitmap found in root dir")
           | Some bitmap_entry =>
               table ← load UpcaseTable_default upcase_entry d;
               bm ← lift (AllocationBitmap_new (AllocationBitmapDirEntry.first_cluster bitmap_entry)
                            (AllocationBitmapDirEntry.data_length bitmap_entry));
               mret {| details := d; md_upcase_table := table; alloc_bitmap := bm |}
           end
  end.

(** [mount]: the fields are assigned one after the other *)
Definition mount : FSM () :=
  m ← gets is_mounted;
  if m : bool then mret ()
  else
    md ← zoom ldev read_file_system_metadata;
    let d := details md in
    modify (λ f, {| device := device f; is_mounted := is_mounted f; fs := d;
      upcase_table := upcase_table f;
      allocator := {| bitmap := {| Slim.first_sector := Slim.first_sector (bitmap (allocator f));
                                   Slim.num_sectors := Slim.num_sectors (bitmap (allocator f));
                                   Slim.cluster_count := FileSystemDetails.cluster_count d |};
                      acache := acache (allocator f);
                      next_search_cluster := next_search_cluster (allocator f) |};
      fat := {| start_of_fat_sector := Some (FileSystemDetails.fat_offset d);
                fcache := fcache (fat f) |};
      data_blocks := data_blocks f; time_provider := time_provider f; clock := clock f |}) ;;
    first_sector ← lift (get_heap_sector_id d (AllocationBitmap.first_cluster (alloc_bitmap md)));
    modify (λ f, {| device := device f; is_mounted := true; fs := fs f;
      upcase_table := md_upcase_table md;
      allocator := {| bitmap := {| Slim.first_sector := first_sector;
                                   Slim.num_sectors := AllocationBitmap.num_sectors (alloc_bitmap md);
                                   Slim.cluster_count := Slim.cluster_count (bitmap (allocator f)) |};
                      acache := acache (allocator f);
                      next_search_cluster := next_search_cluster (allocator f) |};
      fat := fat f; data_blocks := data_blocks f; time_provider := time_provider f;
      clock := clock f |}).
End Ops.
