(* ===== verification/VolumeInv.v ===== *)
(** * The mounted volume: what its caches together represent

    A mounted file system is an array of sectors ([vseen]): the FAT as the FAT
    cache shows it, the allocation bitmap as the allocator's cache shows it,
    the rest of the cluster heap as the data cache shows it.  [vol_inv] is the
    invariant that every cache stays in its region of a well-formed volume; the
    lemmas say what each cache operation does to the volume.  The theorems are
    about flushing: what is written to the device, prefix by prefix of the
    sorted list; all of a flush, in order, is in FlushOrder.v. *)

From stdpp Require Import sorting.
From S2P Require Import Prelude Text Crates Errors Utils BootSector Device SlotCache Touched Fat Allocation Regions Volume.
Import FileSystemDetails (cluster_length, sectors_per_cluster, cluster_heap_offset, fat_offset).

(** * Specification *)
Section Spec.
Context {cfg : Config} {bd : BlockDevice} {Hbd : DeviceOk cfg bd}.
Implicit Types (f : FileSystem) (s : Z).

(** The regions; [fl] is the length of the FAT in sectors, which the code does
    not keep. *)
Definition fat_region (fl : Z) f s : Prop := fat_offset (fs f) ≤ s < fat_offset (fs f) + fl.
Definition bitmap_region f s : Prop :=
  Slim.first_sector (bitmap (allocator f)) ≤ s <
    Slim.first_sector (bitmap (allocator f)) + Slim.num_sectors (bitmap (allocator f)).
Definition heap_region f s : Prop :=
  cluster_heap_offset (fs f) ≤ s <
    cluster_heap_offset (fs f) + sectors_per_cluster (fs f) * FileSystemDetails.cluster_count (fs f).
Definition data_region f s : Prop := heap_region f s ∧ ¬ bitmap_region f s.
Definition in_volume (fl : Z) f s : Prop := fat_region fl f s ∨ bitmap_region f s ∨ data_region f s.

#[export] Instance fat_region_dec fl f s : Decision (fat_region fl f s).
Proof. unfold fat_region. apply _. Defined.
#[export] Instance bitmap_region_dec f s : Decision (bitmap_region f s).
Proof. unfold bitmap_region. apply _. Defined.
#[export] Instance data_region_dec f s : Decision (data_region f s).
Proof. unfold data_region, heap_region, bitmap_region. apply _. Defined.

(** A well-formed volume: FAT, then heap; the bitmap in the heap; the FAT has
    an entry and the bitmap a bit for every cluster; all in 32-bit sectors. *)
Record geometry_ok (fl : Z) (d : FileSystemDetails.t) (b : Slim.t) : Prop := {
  geo_fat : 0 < fat_offset d ∧ 0 < fl ∧ fat_offset d + fl ≤ cluster_heap_offset d;
  geo_cluster : 1 ≤ sectors_per_cluster d ∧ cluster_length d = SIZE * sectors_per_cluster d ∧
    cluster_length d < 2 ^ 32;
  geo_count : 1 ≤ FileSystemDetails.cluster_count d ∧
    2 + FileSystemDetails.cluster_count d ≤ CLUSTER_LEN ∧
    Slim.cluster_count b = FileSystemDetails.cluster_count d;
  geo_heap : cluster_heap_offset d + sectors_per_cluster d * FileSystemDetails.cluster_count d < 2 ^ 32;
  geo_fat_covers : 2 + FileSystemDetails.cluster_count d ≤ fl * per_sector;
  geo_bitmap : cluster_heap_offset d ≤ Slim.first_sector b ∧ 1 ≤ Slim.num_sectors b ∧
    Slim.first_sector b + Slim.num_sectors b ≤
      cluster_heap_offset d + sectors_per_cluster d * FileSystemDetails.cluster_count d ∧
    Slim.num_sectors b < sectors_per_cluster d * FileSystemDetails.cluster_count d;
  geo_bits : FileSystemDetails.cluster_count d ≤ Slim.num_sectors b * BPS ∧
    2 + Slim.num_sectors b * BPS < 2 ^ 32;
}.

Record vol_inv (fl : Z) f : Prop := {
  vol_mounted : is_mounted f = true;
  vol_start : start_of_fat_sector (fat f) = Some (fat_offset (fs f));
  vol_fat : owns (fat_region fl f) (fcache (fat f)) (device f);
  vol_bitmap : owns (bitmap_region f) (acache (allocator f)) (device f);
  vol_data : owns (data_region f) (data_blocks f) (device f);
  vol_geometry : geometry_ok fl (fs f) (bitmap (allocator f));
  vol_addressable s : in_volume fl f s → addressable (device f) s;
  vol_rover : 2 ≤ next_search_cluster (allocator f) < 2 ^ 32;
}.

(** What a reader of sector [s] sees, through the cache that owns it. *)
Definition vseen (fl : Z) f s : list Z :=
  if decide (fat_region fl f s) then seen (fcache (fat f)) (device f) s
  else if decide (bitmap_region f s) then seen (acache (allocator f)) (device f) s
  else seen (data_blocks f) (device f) s.

(** The device holds what readers of the sector see. *)
Definition durable (fl : Z) f s : Prop := content (device f) s = vseen fl f s.

(** Only the sectors in [P] look different afterwards, or are no longer on the
    device as readers see them. *)
Record vol_step (fl : Z) (P : Z → Prop) f f' : Prop := {
  step_fs : fs f' = fs f;
  step_bitmap : bitmap (allocator f') = bitmap (allocator f);
  step_table : upcase_table f' = upcase_table f;
  step_clock : time_provider f' = time_provider f;
  step_outside : outside (in_volume fl f) (device f) (device f');
  step_seen s : in_volume fl f s → ¬ P s → vseen fl f' s = vseen fl f s;
  step_durable s : in_volume fl f s → ¬ P s → durable fl f s → durable fl f' s;
}.

End Spec.
Abbreviation vol_same fl := (vol_step fl (λ _, False)).

(** * Lemmas *)
Section Lemmas.
Context {cfg : Config} {crates : Crates} {bd : BlockDevice}.
Context {Hcfg : ConfigOk cfg} {Hbd : DeviceOk cfg bd}.
Implicit Types (f : FileSystem) (s : Z).

Lemma regions_disjoint fl f s :
  geometry_ok fl (fs f) (bitmap (allocator f)) →
  (fat_region fl f s → ¬ bitmap_region f s ∧ ¬ data_region f s) ∧
  (bitmap_region f s → ¬ fat_region fl f s ∧ ¬ data_region f s) ∧
  (data_region f s → ¬ fat_region fl f s ∧ ¬ bitmap_region f s).
Proof.
  intros [? ? ? ? ? ? ?]. unfold data_region, fat_region, bitmap_region, heap_region. lia.
Qed.

Lemma in_volume_range fl f s :
  geometry_ok fl (fs f) (bitmap (allocator f)) → in_volume fl f s → 0 < s < 2 ^ 32.
Proof.
  intros [? ? ? ? ? ? ?]. unfold in_volume, data_region, fat_region, bitmap_region, heap_region. lia.
Qed.

Lemma vseen_fat fl f s : fat_region fl f s → vseen fl f s = seen (fcache (fat f)) (device f) s.
Proof. intros. unfold vseen. by rewrite decide_True. Qed.
Lemma vseen_bitmap fl f s :
  vol_inv fl f → bitmap_region f s → vseen fl f s = seen (acache (allocator f)) (device f) s.
Proof.
  intros Hi ?. destruct (regions_disjoint fl f s (vol_geometry _ _ Hi)) as (_ & [] & _); [done|].
  unfold vseen. by rewrite decide_False, decide_True.
Qed.
Lemma vseen_data fl f s :
  vol_inv fl f → data_region f s → vseen fl f s = seen (data_blocks f) (device f) s.
Proof.
  intros Hi ?. destruct (regions_disjoint fl f s (vol_geometry _ _ Hi)) as (_ & _ & []); [done|].
  unfold vseen. by rewrite !decide_False.
Qed.

Lemma vseen_ok fl f s : vol_inv fl f → in_volume fl f s → block_ok (vseen fl f s).
Proof.
  intros Hi Hs. pose proof (vol_addressable _ _ Hi s Hs) as Ha. destruct Hs as [Hs|[Hs|Hs]].
  - rewrite vseen_fat by done. by apply sector_ok; [apply (vol_fat _ _ Hi)|].
  - rewrite vseen_bitmap by done. by apply sector_ok; [apply (vol_bitmap _ _ Hi)|].
  - rewrite vseen_data by done. by apply sector_ok; [apply (vol_data _ _ Hi)|].
Qed.

(** ** Steps *)
Lemma in_volume_step fl P f f' s : vol_step fl P f f' → in_volume fl f' s ↔ in_volume fl f s.
Proof.
  intros [Hfs Hb _ _ _ _ _].
  unfold in_volume, data_region, fat_region, bitmap_region, heap_region. by rewrite Hfs, Hb.
Qed.
Lemma vol_step_refl fl P f : vol_step fl P f f.
Proof. by split. Qed.
Lemma outside_ext R R' d d' : (∀ s, R s ↔ R' s) → outside R d d' → outside R' d d'.
Proof. intros HR [Ha Hc]. split; [done|]. intros s Hs HR'. apply Hc; [done|]. by rewrite HR. Qed.
Lemma vol_step_trans fl P f0 f1 f2 :
  vol_step fl P f0 f1 → vol_step fl P f1 f2 → vol_step fl P f0 f2.
Proof.
  intros H1 H2. pose proof H1 as [A1 B1 C1 K1 D1 E1 G1]. pose proof H2 as [A2 B2 C2 K2 D2 E2 G2].
  split; [congruence..| | |].
  - eapply outside_trans; [done|]. eapply outside_ext; [|done]. intros s. by eapply in_volume_step.
  - intros s Hs HP. rewrite E2, E1; [done..|by eapply in_volume_step|done].
  - intros s Hs HP Hd. apply G2; [by eapply in_volume_step|done|auto].
Qed.
Lemma vol_step_weaken fl (P Q : Z → Prop) f f' :
  (∀ s, P s → Q s) → vol_step fl P f f' → vol_step fl Q f f'.
Proof. intros HPQ []. split; auto. Qed.
Lemma vol_same_step fl P f f' : vol_same fl f f' → vol_step fl P f f'.
Proof. by apply vol_step_weaken. Qed.

(** ** What a cache operation on its region does to the volume *)
Lemma data_step fl P f c' d' :
  vol_inv fl f → owns (data_region f) c' d' →
  confined (data_region f) P (data_blocks f) (device f) c' d' →
  let f' := put ldata (c', d') f in
  vol_inv fl f' ∧ vol_step fl P f f' ∧ (∀ s, data_region f s → vseen fl f' s = seen c' d' s).
Proof.
  intros Hi Hown [Ho Hs] f'. pose proof (vol_geometry _ _ Hi) as Hg.
  destruct (owns_other (fat_region fl f) (data_region f) _ _ d'
    (λ s H, proj2 (proj1 (regions_disjoint fl f s Hg) H)) (vol_fat _ _ Hi) Ho) as [Hf Hfs].
  destruct (owns_other (bitmap_region f) (data_region f) _ _ d'
    (λ s H, proj2 (proj1 (proj2 (regions_disjoint fl f s Hg)) H)) (vol_bitmap _ _ Hi) Ho) as [Hb Hbs].
  assert (Hi' : vol_inv fl f').
  { destruct Hi. split; cbn; try done. intros s Hin. apply Ho. by apply vol_addressable0. }
  assert (Hkeep : ∀ s, in_volume fl f s → ¬ P s →
    vseen fl f' s = vseen fl f s ∧ (durable fl f s → durable fl f' s)).
  { intros s Hin HP. pose proof (vol_addressable _ _ Hi s Hin) as Ha. unfold durable.
    destruct Hin as [Hin|[Hin|Hin]].
    - rewrite !vseen_fat by done. by apply Hfs.
    - rewrite !vseen_bitmap by done. by apply Hbs.
    - rewrite !vseen_data by done. by apply Hs. }
  split; [exact Hi'|]. split.
  - split; try done.
    + destruct Ho as [Ha Hc]. split; [done|]. intros s Hsa Hn. apply Hc; [done|].
      intros Hd. apply Hn. by right; right.
    + intros s Hin HP. by apply (Hkeep s Hin HP).
    + intros s Hin HP. by apply (Hkeep s Hin HP).
  - intros s Hd. by rewrite vseen_data by done.
Qed.

Lemma fat_step fl P f c' d' :
  vol_inv fl f → owns (fat_region fl f) c' d' →
  confined (fat_region fl f) P (fcache (fat f)) (device f) c' d' →
  let f' := put lfatdev ({| start_of_fat_sector := start_of_fat_sector (fat f); fcache := c' |}, d') f in
  vol_inv fl f' ∧ vol_step fl P f f' ∧ (∀ s, fat_region fl f s → vseen fl f' s = seen c' d' s).
Proof.
  intros Hi Hown [Ho Hs] f'. pose proof (vol_geometry _ _ Hi) as Hg.
  destruct (owns_other (data_region f) (fat_region fl f) _ _ d'
    (λ s H, proj1 (proj2 (proj2 (regions_disjoint fl f s Hg)) H)) (vol_data _ _ Hi) Ho) as [Hf Hfs].
  destruct (owns_other (bitmap_region f) (fat_region fl f) _ _ d'
    (λ s H, proj1 (proj1 (proj2 (regions_disjoint fl f s Hg)) H)) (vol_bitmap _ _ Hi) Ho) as [Hb Hbs].
  assert (Hi' : vol_inv fl f').
  { destruct Hi. split; cbn; try done. intros s Hin. apply Ho. by apply vol_addressable0. }
  assert (Hkeep : ∀ s, in_volume fl f s → ¬ P s →
    vseen fl f' s = vseen fl f s ∧ (durable fl f s → durable fl f' s)).
  { intros s Hin HP. pose proof (vol_addressable _ _ Hi s Hin) as Ha. unfold durable.
    destruct Hin as [Hin|[Hin|Hin]].
    - rewrite !vseen_fat by done. by apply Hs.
    - rewrite !vseen_bitmap by done. by apply Hbs.
    - rewrite !vseen_data by done. by apply Hfs. }
  split; [exact Hi'|]. split.
  - split; try done.
    + destruct Ho as [Ha Hc]. split; [done|]. intros s Hsa Hn. apply Hc; [done|].
      intros Hd. apply Hn. by left.
    + intros s Hin HP. by apply (Hkeep s Hin HP).
    + intros s Hin HP. by apply (Hkeep s Hin HP).
  - intros s Hd. by rewrite vseen_fat by done.
Qed.

Lemma bitmap_step fl P f c' d' rover :
  vol_inv fl f → owns (bitmap_region f) c' d' → 2 ≤ rover < 2 ^ 32 →
  confined (bitmap_region f) P (acache (allocator f)) (device f) c' d' →
  let f' := put lallocdev ({| bitmap := bitmap (allocator f); acache := c';
                              next_search_cluster := rover |}, d') f in
  vol_inv fl f' ∧ vol_step fl P f f' ∧ (∀ s, bitmap_region f s → vseen fl f' s = seen c' d' s).
Proof.
  intros Hi Hown Hr [Ho Hs] f'. pose proof (vol_geometry _ _ Hi) as Hg.
  destruct (owns_other (data_region f) (bitmap_region f) _ _ d'
    (λ s H, proj2 (proj2 (proj2 (regions_disjoint fl f s Hg)) H)) (vol_data _ _ Hi) Ho) as [Hf Hfs].
  destruct (owns_other (fat_region fl f) (bitmap_region f) _ _ d'
    (λ s H, proj1 (proj1 (regions_disjoint fl f s Hg) H)) (vol_fat _ _ Hi) Ho) as [Hb Hbs].
  assert (Hi' : vol_inv fl f').
  { destruct Hi. split; cbn; try done. intros s Hin. apply Ho. by apply vol_addressable0. }
  assert (Hkeep : ∀ s, in_volume fl f s → ¬ P s →
    vseen fl f' s = vseen fl f s ∧ (durable fl f s → durable fl f' s)).
  { intros s Hin HP. pose proof (vol_addressable _ _ Hi s Hin) as Ha. unfold durable.
    destruct Hin as [Hin|[Hin|Hin]].
    - rewrite !vseen_fat by done. by apply Hbs.
    - rewrite !vseen_bitmap by done. by apply Hs.
    - rewrite !vseen_data by done. by apply Hfs. }
  split; [exact Hi'|]. split.
  - split; try done.
    + destruct Ho as [Ha Hc]. split; [done|]. intros s Hsa Hn. apply Hc; [done|].
      intros Hd. apply Hn. by right; left.
    + intros s Hin HP. by apply (Hkeep s Hin HP).
    + intros s Hin HP. by apply (Hkeep s Hin HP).
  - intros s Hd. by rewrite vseen_bitmap by done.
Qed.
End Lemmas.

(** ** The operations of the caches, on the volume *)
Section DataOps.
Context {cfg : Config} {crates : Crates} {bd : BlockDevice}.
Context {Hcfg : ConfigOk cfg} {Hbd : DeviceOk cfg bd}.
Implicit Types (f : FileSystem) (s : Z).

Lemma data_fetch fl f s :
  vol_inv fl f → data_region f s →
  ∃ f', zoom ldata (fetch s) f = (f', Ok (vseen fl f s)) ∧ vol_inv fl f' ∧ vol_same fl f f'.
Proof.
  intros Hi Hs.
  destruct (region_fetch (data_region f) (data_blocks f) (device f) s (vol_data _ _ Hi))
    as (c' & d' & Hf & Hown & Hc); [apply (vol_addressable _ _ Hi); by right; right|done|].
  destruct (data_step fl _ f c' d' Hi Hown Hc) as (Hi' & Hst & _).
  eexists. split; [|by split]. rewrite vseen_data by done. by apply zoom_eq.
Qed.

Lemma data_update fl f s g b :
  vol_inv fl f → data_region f s → g (vseen fl f s) = Ok b → block_ok b →
  ∃ f', zoom ldata (update s g) f = (f', Ok ()) ∧ vol_inv fl f' ∧
    vol_step fl (λ s', s' = s) f f' ∧ vseen fl f' s = b.
Proof.
  intros Hi Hs Hg Hb. rewrite vseen_data in Hg by done.
  destruct (region_update (data_region f) (data_blocks f) (device f) s g b (vol_data _ _ Hi))
    as (c' & d' & Hf & Hown & Hc & Hseen);
    [apply (vol_addressable _ _ Hi); by right; right|done..|].
  destruct (data_step fl _ f c' d' Hi Hown Hc) as (Hi' & Hst & Hv).
  eexists. split; [by apply zoom_eq|]. split_and!; [done|done|]. by rewrite Hv.
Qed.

Lemma data_write fl f s b :
  vol_inv fl f → data_region f s → block_ok b →
  ∃ f', zoom ldata (SlotCache.write s b) f = (f', Ok ()) ∧ vol_inv fl f' ∧
    vol_step fl (λ s', s' = s) f f' ∧ vseen fl f' s = b ∧ durable fl f' s.
Proof.
  intros Hi Hs Hb.
  destruct (region_write (data_region f) (data_blocks f) (device f) s b (vol_data _ _ Hi))
    as (c' & d' & Hf & Hown & Hc & Hseen & Hcn);
    [apply (vol_addressable _ _ Hi); by right; right|done..|].
  destruct (data_step fl _ f c' d' Hi Hown Hc) as (Hi' & Hst & Hv).
  eexists. split; [by apply zoom_eq|]. assert (Hvs : vseen fl (put ldata (c', d') f) s = b) by by rewrite Hv.
  split_and!; [done|done|done|]. unfold durable. by rewrite Hvs.
Qed.
End DataOps.

(** ** The FAT and the bitmap on the volume *)
Section Tables.
Context {cfg : Config} {crates : Crates} {bd : BlockDevice}.
Context {Hcfg : ConfigOk cfg} {Hcr : CratesOk crates} {Hbd : DeviceOk cfg bd}.
Implicit Types (f : FileSystem) (s : Z) (t : FileDirty).

(** A cluster of the heap. *)
Definition cluster_ok f (id : Z) : Prop := 2 ≤ id < 2 + FileSystemDetails.cluster_count (fs f).
#[export] Instance cluster_ok_dec f id : Decision (cluster_ok f id).
Proof. unfold cluster_ok. apply _. Defined.

(** The first sector of a cluster. *)
Definition cluster_sector f (id : Z) : Z :=
  cluster_heap_offset (fs f) + (id - 2) * sectors_per_cluster (fs f).
Lemma get_heap_sector_ok fl f id :
  geometry_ok fl (fs f) (bitmap (allocator f)) → cluster_ok f id →
  get_heap_sector_id (fs f) id = Ok (cluster_sector f id).
Proof.
  intros [Hgf Hgc Hgn Hgh _ _ _] Hx. unfold cluster_ok, CLUSTER_LEN, cluster_sector in *.
  unfold get_heap_sector_id. rewrite (proj2 (Z.ltb_ge _ _)) by lia.
  rewrite sub_ok by lia. cbn [mbind outcome_bind].
  rewrite mul_ok by nia. cbn [mbind outcome_bind]. apply add_ok. nia.
Qed.
Lemma cluster_sector_heap fl f id k :
  geometry_ok fl (fs f) (bitmap (allocator f)) → cluster_ok f id →
  0 ≤ k < sectors_per_cluster (fs f) → heap_region f (cluster_sector f id + k).
Proof.
  intros [Hgf Hgc Hgn Hgh _ _ _] Hx Hk. unfold cluster_ok, cluster_sector, heap_region in *. nia.
Qed.
Lemma cluster_sector_unique f id k id' k' :
  0 ≤ k < sectors_per_cluster (fs f) → 0 ≤ k' < sectors_per_cluster (fs f) →
  cluster_sector f id' + k' = cluster_sector f id + k → id' = id ∧ k' = k.
Proof.
  intros Hk Hk' Heq. unfold cluster_sector in *. assert (id' = id) as -> by nia. lia.
Qed.

(** The FAT entry of a cluster and its bit in the bitmap. *)
Definition fat_sector f (id : Z) : Z := fat_offset (fs f) + id / per_sector.
Definition fat_entry (fl : Z) f (id : Z) : Z :=
  from_le_bytes (take 4 (drop (Z.to_nat (4 * (id mod per_sector))) (vseen fl f (fat_sector f id)))).
Definition is_allocated (fl : Z) f (id : Z) : bool :=
  bit_of (vseen fl f (bitmap_sector (allocator f) id)) ((id - 2) mod BPS).

Lemma fat_sector_region fl f id :
  vol_inv fl f → cluster_ok f id → fat_region fl f (fat_sector f id).
Proof.
  intros Hi Hid. destruct (vol_geometry _ _ Hi). unfold cluster_ok, fat_region, fat_sector in *.
  destruct per_sector_size. destruct (offset_range id); [lia|].
  assert (id / per_sector < fl); [|lia]. apply Z.div_lt_upper_bound; lia.
Qed.
Lemma bitmap_sector_region fl f id :
  vol_inv fl f → cluster_ok f id → bitmap_region f (bitmap_sector (allocator f) id).
Proof.
  intros Hi Hid. destruct (vol_geometry _ _ Hi). unfold cluster_ok, bitmap_region, bitmap_sector in *.
  pose proof BPS_range. assert (0 ≤ (id - 2) / BPS) by (apply Z.div_pos; lia).
  assert ((id - 2) / BPS < Slim.num_sectors (bitmap (allocator f))); [|lia].
  apply Z.div_lt_upper_bound; lia.
Qed.

Lemma fat_entry_eq fl f id :
  vol_inv fl f → cluster_ok f id →
  fat_entry fl f id = entry (fat_offset (fs f)) (fat f) (device f) id.
Proof.
  intros Hi Hid. unfold fat_entry. rewrite vseen_fat by by apply fat_sector_region. done.
Qed.

(** The FAT only depends on its sectors. *)
Lemma fat_entry_step fl P f f' id :
  vol_inv fl f → vol_step fl P f f' → cluster_ok f id → ¬ P (fat_sector f id) →
  fat_entry fl f' id = fat_entry fl f id.
Proof.
  intros Hi Hst Hid HP. unfold fat_entry, fat_sector. rewrite (step_fs _ _ _ _ Hst).
  rewrite (step_seen _ _ _ _ Hst); [done| |done]. left. by apply fat_sector_region.
Qed.
Lemma is_allocated_step fl P f f' id :
  vol_inv fl f → vol_step fl P f f' → cluster_ok f id → ¬ P (bitmap_sector (allocator f) id) →
  is_allocated fl f' id = is_allocated fl f id.
Proof.
  intros Hi Hst Hid HP. unfold is_allocated, bitmap_sector in *. rewrite (step_bitmap _ _ _ _ Hst).
  rewrite (step_seen _ _ _ _ Hst); [done| |done]. right; left. by eapply bitmap_sector_region.
Qed.

Lemma vol_fat_inv fl f :
  vol_inv fl f →
  fat_inv (Hbd:=region_device (fat_region fl f) (device f)) (fat_offset (fs f)) (fat f) (device f).
Proof. intros Hi. split; [apply Hi|]. apply owns_enter, Hi. Qed.

Lemma vol_has_entry fl f id :
  vol_inv fl f → cluster_ok f id →
  has_entry (Hbd:=region_device (fat_region fl f) (device f)) (fat_offset (fs f)) (device f) id.
Proof.
  intros Hi Hid. pose proof (fat_sector_region fl f id Hi Hid) as Hr.
  pose proof (vol_addressable _ _ Hi _ (or_introl Hr)) as Ha.
  pose proof (in_volume_range fl f _ (vol_geometry _ _ Hi) (or_introl Hr)).
  destruct (vol_geometry _ _ Hi). unfold cluster_ok, CLUSTER_LEN, fat_sector in *.
  split_and!; [lia..|]. split_and!; [exact Ha|exact Hr|apply outside_refl].
Qed.

Lemma fat_next fl f id :
  vol_inv fl f → cluster_ok f id →
  ∃ f', zoom lfatdev (next_cluster_in_fat_chain id) f = (f', Ok (successor (fat_entry fl f id))) ∧
    vol_inv fl f' ∧ vol_same fl f f'.
Proof.
  intros Hi Hid. pose proof (fat_sector_region fl f id Hi Hid) as Hr.
  destruct (next_ok (Hbd:=region_device (fat_region fl f) (device f)) (fat_offset (fs f)) (fat f)
    (device f) id (vol_fat_inv fl f Hi) (vol_has_entry fl f id Hi Hid))
    as ([s0' c'] & d' & Hn & [Hs0 Hinv'] & Hfr). cbn in Hs0, Hinv', Hfr.
  destruct (fat_step fl (λ _, False) f c' d' Hi) as (Hi' & Hst & _).
  { by eapply owns_leave. }
  { eapply frame_leave; [|exact Hr|exact Hfr]. apply (vol_addressable _ _ Hi). by left. }
  eexists. split; [|split; [exact Hi'|exact Hst]].
  rewrite fat_entry_eq by done. apply zoom_eq. rewrite (vol_start _ _ Hi). by rewrite <-Hs0.
Qed.

Lemma fat_set fl f t id v :
  vol_inv fl f → dirty_ok t → cluster_ok f id → 0 ≤ v < 2 ^ 32 →
  ∃ f', zoom (with_touched lfatdev) (Fat.set id v) (t, f) =
      ((insert (TouchedSector_new Touched.Fat (fat_sector f id)) t, f'), Ok ()) ∧
    vol_inv fl f' ∧ vol_step fl (λ s, s = fat_sector f id) f f' ∧
    (∀ id', cluster_ok f id' →
       fat_entry fl f' id' = if decide (id' = id) then v else fat_entry fl f id').
Proof.
  intros Hi Ht Hid Hv. pose proof (fat_sector_region fl f id Hi Hid) as Hr.
  destruct (set_ok (Hbd:=region_device (fat_region fl f) (device f)) (fat_offset (fs f)) (fat f)
    (device f) t id v (vol_fat_inv fl f Hi) (vol_has_entry fl f id Hi Hid) Hv Ht)
    as (t' & [s0' c'] & d' & Hn & [Hs0 Hinv'] & -> & Hfr & He). cbn in Hs0, Hinv', Hfr.
  destruct (fat_step fl (λ s, s = fat_sector f id) f c' d' Hi) as (Hi' & Hst & _).
  { by eapply owns_leave. }
  { eapply frame_leave; [|exact Hr|exact Hfr]. apply (vol_addressable _ _ Hi). by left. }
  eexists. split; [|split_and!; [exact Hi'|exact Hst|]].
  - etransitivity; [apply zoom_eq; exact Hn|]. cbn. by rewrite (vol_start _ _ Hi), <-Hs0.
  - intros id' Hid'. rewrite !fat_entry_eq; [|done..].
    exact (He id' (vol_has_entry fl f id' Hi Hid')).
Qed.
End Tables.

Section Bitmap.
Context {cfg : Config} {crates : Crates} {bd : BlockDevice}.
Context {Hcfg : ConfigOk cfg} {Hcr : CratesOk crates} {Hbd : DeviceOk cfg bd}.
Implicit Types (f : FileSystem) (s : Z) (t : FileDirty).

Lemma vol_alloc_inv fl f :
  vol_inv fl f →
  alloc_inv (Hbd:=region_device (bitmap_region f) (device f)) (allocator f) (device f).
Proof.
  intros Hi. destruct (vol_geometry _ _ Hi). pose proof BPS_range. unfold CLUSTER_LEN in *. split.
  - apply owns_enter, Hi.
  - lia.
  - lia.
  - lia.
  - intros s Hs. split_and!; [|done|apply outside_refl]. apply (vol_addressable _ _ Hi). by right; left.
  - apply Hi.
Qed.

Lemma vol_limit fl f : vol_inv fl f → limit (allocator f) = 2 + FileSystemDetails.cluster_count (fs f).
Proof. intros Hi. destruct (vol_geometry _ _ Hi). unfold limit. lia. Qed.

Lemma is_allocated_eq fl f id :
  vol_inv fl f → cluster_ok f id → is_allocated fl f id = allocated (allocator f) (device f) id.
Proof.
  intros Hi Hid. unfold is_allocated. rewrite vseen_bitmap; [done..|]. by eapply bitmap_sector_region.
Qed.

(** What the allocator leaves behind is a step of the volume. *)
Lemma bitmap_leave fl f al' d' (P : Z → Prop) :
  vol_inv fl f →
  alloc_inv (Hbd:=region_device (bitmap_region f) (device f)) al' d' →
  bitmap al' = bitmap (allocator f) →
  frame (Hbd:=region_device (bitmap_region f) (device f)) P (acache (allocator f)) (device f)
    (acache al') d' →
  let f' := put lallocdev (al', d') f in
  vol_inv fl f' ∧ vol_step fl P f f'.
Proof.
  intros Hi Hai Hb Hfr f'. destruct (vol_geometry _ _ Hi) as [_ _ _ _ _ Hgb _].
  set (s := Slim.first_sector (bitmap (allocator f))).
  assert (Hs : bitmap_region f s) by (unfold bitmap_region; lia).
  destruct al' as [b c rover]. cbn in Hb. subst b.
  destruct (bitmap_step fl P f c d' rover Hi) as (Hi' & Hst & _).
  - eapply owns_leave, Hai.
  - apply (alloc_rover _ _ Hai).
  - eapply frame_leave; [|exact Hs|exact Hfr]. apply (vol_addressable _ _ Hi). by right; left.
  - by split.
Qed.

End Bitmap.

(** An action two lenses down, with a known result. *)
Ltac zoom_in H :=
  etransitivity; [apply zoom_eq; etransitivity; [apply zoom_eq; exact H|reflexivity]|reflexivity].

(** ** Flushing *)
Section Flushing.
Context {cfg : Config} {crates : Crates} {bd : BlockDevice}.
Context {Hcfg : ConfigOk cfg} {Hcr : CratesOk crates} {Hbd : DeviceOk cfg bd}.
Implicit Types (f : FileSystem) (s : Z) (t : FileDirty) (x : TouchedSector).

(** The sector of an entry of the dirty list lies where its kind says. *)
Definition item_ok (fl : Z) f x : Prop :=
  match kind x with
  | Data | Dir => data_region f (Touched.sector x)
  | Touched.Fat => fat_region fl f (Touched.sector x)
  | Bitmap => bitmap_region f (Touched.sector x)
  | None_ => False
  end.
Definition touched_ok (fl : Z) f t : Prop := dirty_ok t ∧ Forall (item_ok fl f) (sectors t).

Lemma item_in_volume fl f x : item_ok fl f x → in_volume fl f (Touched.sector x).
Proof. unfold item_ok, in_volume. destruct (kind x); tauto. Qed.
Lemma item_ok_step fl P f f' x : vol_step fl P f f' → item_ok fl f' x ↔ item_ok fl f x.
Proof.
  intros [Hfs Hb _ _ _ _ _].
  unfold item_ok, data_region, fat_region, bitmap_region, heap_region. by rewrite Hfs, Hb.
Qed.

Lemma durable_step fl f f' s :
  vol_same fl f f' → in_volume fl f s → content (device f') s = content (device f) s →
  durable fl f s → durable fl f' s.
Proof. intros Hst Hs Hc. unfold durable. rewrite Hc, (step_seen _ _ _ _ Hst); auto. Qed.

(** One entry of the dirty list: its sector is written, no other one. *)
Lemma flush_touched_ok fl f x :
  vol_inv fl f → item_ok fl f x →
  ∃ f', flush_touched x f = (f', Ok ()) ∧ vol_inv fl f' ∧ vol_same fl f f' ∧
    durable fl f' (Touched.sector x) ∧
    (∀ s, addressable (device f) s → s ≠ Touched.sector x →
       content (device f') s = content (device f) s).
Proof.
  intros Hi Hx. pose proof (item_in_volume _ _ _ Hx) as Hin.
  pose proof (vol_addressable _ _ Hi _ Hin) as Ha.
  pose proof (in_volume_range _ _ _ (vol_geometry _ _ Hi) Hin) as Hr.
  assert (Hs0 : Touched.sector x ≠ 0) by lia.
  assert (Hdata : data_region f (Touched.sector x) →
    ∃ f', zoom ldata (SlotCache.flush_sector (Touched.sector x)) f = (f', Ok ()) ∧ vol_inv fl f' ∧
      vol_same fl f f' ∧ durable fl f' (Touched.sector x) ∧
      (∀ s, addressable (device f) s → s ≠ Touched.sector x →
         content (device f') s = content (device f) s)).
  { intros Hd. destruct (region_flush_sector (data_region f) (data_blocks f) (device f)
      (Touched.sector x) (vol_data _ _ Hi)) as (c' & d' & Hf & Hown & Hc & Hcont & Ho); [done..|].
    destruct (data_step fl _ f c' d' Hi Hown Hc) as (Hi' & Hst & Hv).
    eexists. split; [by apply zoom_eq|]. split_and!; [done|done| |done].
    unfold durable. rewrite (step_seen _ _ _ _ Hst) by tauto. rewrite vseen_data by done. exact Hcont. }
  unfold item_ok, flush_touched in *. destruct (kind x); [by apply Hdata| | |by apply Hdata|done].
  - destruct (region_flush_sector (fat_region fl f) (fcache (fat f)) (device f)
      (Touched.sector x) (vol_fat _ _ Hi)) as (c' & d' & Hf & Hown & Hc & Hcont & Ho); [done..|].
    destruct (fat_step fl _ f c' d' Hi Hown Hc) as (Hi' & Hst & Hv).
    eexists. split; [apply zoom_eq, zoom_eq; exact Hf|]. split_and!; [done|done| |done].
    unfold durable. rewrite (step_seen _ _ _ _ Hst) by tauto. rewrite vseen_fat by done. exact Hcont.
  - destruct (region_flush_sector (bitmap_region f) (acache (allocator f)) (device f)
      (Touched.sector x) (vol_bitmap _ _ Hi)) as (c' & d' & Hf & Hown & Hc & Hcont & Ho); [done..|].
    destruct (bitmap_step fl _ f c' d' _ Hi Hown (vol_rover _ _ Hi) Hc) as (Hi' & Hst & Hv).
    eexists. split; [apply zoom_eq, zoom_eq; exact Hf|]. split_and!; [done|done| |done].
    unfold durable. rewrite (step_seen _ _ _ _ Hst) by tauto. rewrite vseen_bitmap by done. exact Hcont.
Qed.

Lemma flush_items_ok fl f l :
  vol_inv fl f → Forall (item_ok fl f) l →
  ∃ f', for_each l flush_touched f = (f', Ok ()) ∧ vol_inv fl f' ∧ vol_same fl f f' ∧
    (∀ s, s ∈ Touched.sector <$> l → durable fl f' s) ∧
    (∀ s, addressable (device f) s → s ∉ Touched.sector <$> l →
       content (device f') s = content (device f) s) ∧
    (∀ s, in_volume fl f s → durable fl f s → durable fl f' s).
Proof.
  revert f. induction l as [|x l IH]; intros f Hi Hl.
  { exists f. split_and!; [done|done|apply vol_step_refl|by intros s ?%elem_of_nil|done|done]. }
  inversion Hl as [|? ? Hx Hl']; subst.
  destruct (flush_touched_ok fl f x Hi Hx) as (f1 & Hf1 & Hi1 & Hst1 & Hd1 & Ho1).
  assert (Hkeep1 : ∀ s, in_volume fl f s → durable fl f s → durable fl f1 s).
  { intros s Hs Hd. destruct (decide (s = Touched.sector x)) as [->|Hne]; [done|].
    apply (durable_step fl f); [done..| |done]. apply Ho1; [|done]. by apply (vol_addressable _ _ Hi). }
  destruct (IH f1 Hi1) as (f' & Hf & Hi' & Hst & Hd & Ho & Hkeep).
  { eapply Forall_impl; [exact Hl'|]. intros y. by eapply item_ok_step. }
  assert (Hin : ∀ s, in_volume fl f1 s ↔ in_volume fl f s) by (intros; by eapply in_volume_step).
  exists f'. cbn [for_each]. rewrite (bind_Ok _ _ _ _ _ Hf1).
  split_and!; [done|done|by eapply vol_step_trans| | |].
  - intros s [->|Hs]%elem_of_cons; [|auto]. apply Hkeep; [|done]. apply Hin. by apply item_in_volume.
  - intros s Ha [Hne Hni]%not_elem_of_cons. rewrite Ho; [by apply Ho1| |done].
    by apply (step_outside _ _ _ _ Hst1).
  - intros s Hs Hds. apply Hkeep; [by apply Hin|auto].
Qed.

(** [FileSystem::flush] makes the whole volume durable. *)
Lemma vol_flush_ok fl f :
  vol_inv fl f →
  ∃ f', flush f = (f', Ok ()) ∧ vol_inv fl f' ∧ vol_same fl f f' ∧
    (∀ s, in_volume fl f s → durable fl f' s).
Proof.
  intros Hi. pose proof (vol_geometry _ _ Hi) as Hg. pose proof Hg as [? _ _ _ _ ? _].
  destruct (region_flush (fat_region fl f) (fcache (fat f)) (device f) (fat_offset (fs f))
    (vol_fat _ _ Hi)) as (c1 & d1 & Hf1 & Hown1 & Hc1 & Hd1).
  { apply (vol_addressable _ _ Hi). left. unfold fat_region. lia. }
  { unfold fat_region. lia. }
  destruct (fat_step fl _ f c1 d1 Hi Hown1 Hc1) as (Hi1 & Hst1 & Hv1).
  set (f1 := put lfatdev _ f) in *.
  destruct (region_flush (bitmap_region f1) (acache (allocator f1)) (device f1)
    (Slim.first_sector (bitmap (allocator f1))) (vol_bitmap _ _ Hi1)) as (c2 & d2 & Hf2 & Hown2 & Hc2 & Hd2).
  { apply (vol_addressable _ _ Hi1). right; left. unfold bitmap_region. cbn. lia. }
  { unfold bitmap_region. cbn. lia. }
  destruct (bitmap_step fl _ f1 c2 d2 _ Hi1 Hown2 (vol_rover _ _ Hi1) Hc2) as (Hi2 & Hst2 & Hv2).
  set (f2 := put lallocdev _ f1) in *.
  assert (∃ s, data_region f2 s) as [s3 Hs3].
  { unfold data_region, heap_region, bitmap_region. cbn.
    destruct (decide (Slim.first_sector (bitmap (allocator f)) = cluster_heap_offset (fs f))).
    - exists (Slim.first_sector (bitmap (allocator f)) + Slim.num_sectors (bitmap (allocator f))). lia.
    - exists (cluster_heap_offset (fs f)). lia. }
  destruct (region_flush (data_region f2) (data_blocks f2) (device f2) s3
    (vol_data _ _ Hi2)) as (c3 & d3 & Hf3 & Hown3 & Hc3 & Hd3).
  { apply (vol_addressable _ _ Hi2). by right; right. } { done. }
  destruct (data_step fl _ f2 c3 d3 Hi2 Hown3 Hc3) as (Hi3 & Hst3 & Hv3).
  set (f3 := put ldata _ f2) in *.
  assert (Hst : vol_same fl f f3) by (eapply vol_step_trans; [done|]; by eapply vol_step_trans).
  exists f3. split_and!; [|done|done|].
  - unfold flush. rewrite (bind_Ok _ _ _ f1 ()) by zoom_in Hf1.
    rewrite (bind_Ok _ _ _ f2 ()) by zoom_in Hf2. by apply zoom_eq.
  - intros s Hs. pose proof (vol_addressable _ _ Hi s Hs) as Ha.
    destruct Hc2 as [[Ha2 Ho2] _], Hc3 as [[Ha3 Ho3] _], Hc1 as [[Ha1 _] _].
    unfold durable. rewrite (step_seen _ _ _ _ Hst) by tauto.
    change (device f3) with d3. change (device f2) with d2 in *. change (device f1) with d1 in *.
    destruct (regions_disjoint fl f s Hg) as (Hdf & Hdb & Hdd).
    destruct Hs as [Hs|[Hs|Hs]].
    + rewrite vseen_fat by done. destruct (Hdf Hs).
      rewrite Ho3, Ho2; [by apply Hd1|by apply Ha1|done|by apply Ha2, Ha1|done].
    + rewrite Ho3; [|by apply Ha2, Ha1|by destruct (Hdb Hs)].
      rewrite Hd2 by (done || by apply Ha1). rewrite <-(vseen_bitmap fl f1) by done.
      rewrite (step_seen _ _ _ _ Hst1); [done|by right; left|tauto].
    + rewrite Hd3; [|by apply Ha2, Ha1|done]. rewrite <-(vseen_data fl f2) by done.
      rewrite (step_seen _ _ _ _ Hst2), (step_seen _ _ _ _ Hst1); [done|by right; right|tauto|by right; right|tauto].
Qed.
End Flushing.

(** * Theorems *)
Section Theorems.
Context {cfg : Config} {crates : Crates} {bd : BlockDevice}.
Context {Hcfg : ConfigOk cfg} {Hcr : CratesOk crates} {Hbd : DeviceOk cfg bd}.
Implicit Types (f : FileSystem) (s : Z) (t : FileDirty) (x : TouchedSector).

Lemma touched_ok_sort fl f t : touched_ok fl f t → Forall (item_ok fl f) (sectors (sort t)).
Proof. intros [_ Ht]. by rewrite (proj1 (sort_spec t)). Qed.

(** The sectors an operation changed reach the device in the order data,
    bitmap, FAT, directory: whatever prefix of the sorted list has been
    written, its sectors are on the device as readers see them, all other
    sectors of the device are still as they were, nothing that comes earlier in
    this order is left to write, and readers notice nothing. *)
Theorem touched_prefix_durable fl f t l1 l2 :
  vol_inv fl f → touched_ok fl f t → sectors (sort t) = l1 ++ l2 →
  (∀ x y, x ∈ l1 → y ∈ l2 →
     (kind x = Bitmap → kind y ≠ Data) ∧
     (kind x = Touched.Fat → kind y ≠ Data ∧ kind y ≠ Bitmap) ∧
     (kind x = Dir → kind y = Dir ∨ kind y = None_)) ∧
  ∃ f', for_each l1 flush_touched f = (f', Ok ()) ∧ vol_inv fl f' ∧ vol_same fl f f' ∧
    (∀ s, s ∈ Touched.sector <$> l1 → durable fl f' s) ∧
    (∀ s, addressable (device f) s → s ∉ Touched.sector <$> l1 →
       content (device f') s = content (device f) s).
Proof.
  intros Hi Ht Hl. split.
  - intros x y Hx Hy. destruct (sort_spec t) as [_ Hs]. rewrite Hl in Hs.
    assert (Hk : key_le x y) by by eapply StronglySorted_app_1_elem_of.
    assert (Hr : rank (kind x) ≤ rank (kind y)) by (unfold key_le in *; lia).
    revert Hr. by destruct (kind x), (kind y); cbn; auto.
  - pose proof (touched_ok_sort fl f t Ht) as Hall. rewrite Hl in Hall.
    apply Forall_app in Hall as [H1 _].
    destruct (flush_items_ok fl f l1 Hi H1) as (f' & ? & ? & ? & ? & ? & _). eauto 10.
Qed.

Lemma for_each_flush_touched l f f' t :
  for_each l flush_touched f = (f', Ok ()) →
  for_each l (λ item, zoom lsnd (flush_touched item)) (t, f) = ((t, f'), Ok ()).
Proof.
  revert f. induction l as [|x l IH]; intros f; cbn [for_each]; [by intros [= <-]|].
  unfold mbind, M_bind, zoom at 1. cbn [view lsnd snd].
  destruct (flush_touched x f) as [f2 []]; try done. apply IH.
Qed.

Lemma FileDirty_flush_ok fl f t :
  vol_inv fl f → touched_ok fl f t →
  ∃ f', FileDirty_flush (t, f) = ((FileDirty_new, f'), Ok ()) ∧ vol_inv fl f' ∧ vol_same fl f f' ∧
    (∀ s, in_volume fl f s → records t s → durable fl f' s).
Proof.
  intros Hi Ht. unfold FileDirty_flush.
  rewrite (bind_Ok (gets fst) _ _ (t, f) t) by done. destruct (overflowed t) eqn:Ho.
  - destruct (vol_flush_ok fl f Hi) as (f' & Hf & Hi' & Hst & Hd).
    exists f'. rewrite (bind_Ok _ _ _ (t, f') ()) by (by eapply zoom_to). split_and!; try done.
    intros s Hs _. by apply Hd.
  - destruct (flush_items_ok fl f (sectors (sort t)) Hi (touched_ok_sort fl f t Ht))
      as (f' & Hf & Hi' & Hst & Hd & _).
    exists f'. rewrite (bind_Ok _ _ _ (sort t, f') ()); [|by apply for_each_flush_touched].
    split_and!; try done. intros s Hs [Hov|Hr]; [congruence|]. apply Hd.
    by rewrite (proj1 (sort_spec t)).
Qed.

(** When an operation's [FileDirty::flush] is done, every sector of the
    volume the operation recorded is on the device as readers see it, whether
    or not the list overflowed; readers notice nothing, nothing outside the
    volume is written, and the list is empty again. *)
Theorem touched_flush_durable fl f t :
  vol_inv fl f → touched_ok fl f t →
  ∃ f', FileDirty_flush (t, f) = ((FileDirty_new, f'), Ok ()) ∧ vol_inv fl f' ∧ vol_same fl f f' ∧
    (∀ s, in_volume fl f s → records t s → durable fl f' s).
Proof. apply FileDirty_flush_ok. Qed.

Lemma unmount_ok fl f :
  vol_inv fl f →
  ∃ f' d, unmount f = (f', Ok d) ∧
    (∀ s, in_volume fl f s → content d s = vseen fl f s) ∧ outside (in_volume fl f) (device f) d.
Proof.
  intros Hi. destruct (vol_flush_ok fl f Hi) as (f' & Hf & Hi' & Hst & Hd).
  exists f', (device f'). split_and!.
  - unfold unmount. rewrite (bind_Ok _ _ _ f' (inr ())); [done|]. unfold try_. by rewrite Hf.
  - intros s Hs. rewrite (Hd s Hs). apply Hst; [done|tauto].
  - apply Hst.
Qed.

(** unmounting hands back a device that holds the volume as its readers
    saw it, and is otherwise the device as it was. *)
Theorem unmount_persists fl f :
  vol_inv fl f →
  ∃ f' d, unmount f = (f', Ok d) ∧
    (∀ s, in_volume fl f s → content d s = vseen fl f s) ∧ outside (in_volume fl f) (device f) d.
Proof. apply unmount_ok. Qed.

(** C38 - clusters of the heap occupy disjoint runs of sectors of the heap: the
    first sector of a cluster is computed without overflow, all its sectors lie
    in the heap, and a sector of the heap belongs to exactly one cluster; ids
    below 2 are refused. *)
Theorem heap_sectors_partition fl f id k :
  vol_inv fl f → 0 ≤ id < 2 ^ 32 → 0 ≤ k < sectors_per_cluster (fs f) →
  (id < 2 → get_heap_sector_id (fs f) id = Err (InvalidClusterId id)) ∧
  (cluster_ok f id →
   ∃ s, get_heap_sector_id (fs f) id = Ok s ∧ heap_region f (s + k) ∧
     (∀ id' s' k', cluster_ok f id' → get_heap_sector_id (fs f) id' = Ok s' →
        0 ≤ k' < sectors_per_cluster (fs f) → s' + k' = s + k → id' = id ∧ k' = k)) ∧
  (∀ s, heap_region f s → ∃ id s0 k, cluster_ok f id ∧ get_heap_sector_id (fs f) id = Ok s0 ∧
     0 ≤ k < sectors_per_cluster (fs f) ∧ s = s0 + k).
Proof.
  intros Hi Hid Hk. pose proof (vol_geometry _ _ Hi) as Hg. split_and!.
  - intros Hlt. unfold get_heap_sector_id. by rewrite (proj2 (Z.ltb_lt _ _)).
  - intros Hc. exists (cluster_sector f id).
    split_and!; [by eapply get_heap_sector_ok|by eapply cluster_sector_heap|].
    intros id' s' k' Hc' Hg' Hk' Heq. rewrite (get_heap_sector_ok fl) in Hg' by done.
    injection Hg' as <-. by apply (cluster_sector_unique f).
  - intros s Hs. pose proof Hg as [Hgf Hgc Hgn Hgh _ _ _].
    unfold heap_region in *. set (o := s - cluster_heap_offset (fs f)).
    pose proof (Z.div_mod o (sectors_per_cluster (fs f)) ltac:(lia)).
    pose proof (Z.mod_pos_bound o (sectors_per_cluster (fs f)) ltac:(lia)).
    assert (0 ≤ o / sectors_per_cluster (fs f)) by (apply Z.div_pos; lia).
    assert (Hc : cluster_ok f (2 + o / sectors_per_cluster (fs f))) by (unfold cluster_ok; nia).
    exists (2 + o / sectors_per_cluster (fs f)), (cluster_sector f (2 + o / sectors_per_cluster (fs f))), (o mod sectors_per_cluster (fs f)).
    split_and!; [exact Hc|by apply (get_heap_sector_ok fl); [apply Hi|]|lia|lia|].
    unfold cluster_sector. lia.
Qed.
End Theorems.

(** * A small volume *)
Section Sample.
#[local] Existing Instance debug_build.
#[local] Existing Instance dummy_device.
#[local] Existing Instance reference_crates.
#[local] Existing Instance reference_crates_ok.
#[local] Existing Instance debug_build_ok.
#[local] Instance sample_device_ok : DeviceOk debug_build dummy_device := blank_ok.

(** Sector 0, a FAT of one sector, a heap of eight one-sector clusters whose
    first one holds the bitmap. *)
Definition volume_on (d : DummyBlockDevice) : FileSystem := {|
  device := (d : dev);
  is_mounted := true;
  fs := {| cluster_heap_offset := 2; fat_offset := 1; sectors_per_cluster := 1;
           cluster_length := 512; FileSystemDetails.cluster_count := 8;
           FileSystemDetails.first_cluster_of_root_dir := 3 |};
  upcase_table := UpcaseTable_default;
  allocator := {| bitmap := {| Slim.first_sector := 2; Slim.num_sectors := 1; Slim.cluster_count := 8 |};
                  acache := SlotCache_new; next_search_cluster := 2 |};
  fat := {| start_of_fat_sector := Some 1; fcache := SlotCache_new |};
  data_blocks := SlotCache_new; time_provider := None; clock := 0 |}.

Lemma volume_on_inv d :
  (∀ s, 0 ≤ s < 10 → dummy_addressable d s) → vol_inv 1 (volume_on d).
Proof.
  intros Hd. split; try done; try (apply owns_new, debug_build_ok).
  intros s Hs. apply Hd. unfold in_volume, data_region, fat_region, bitmap_region, heap_region in Hs. cbn in Hs. lia.
Qed.

Definition sample_volume : FileSystem := volume_on (blank 10).
Lemma sample_vol_inv : vol_inv 1 sample_volume.
Proof. apply volume_on_inv. intros s. apply (blank_addressable 10). Qed.

(** a dirty list with a sector of every kind *)
Definition sample_dirty : FileDirty :=
  insert (TouchedSector_new Dir 3) (insert (TouchedSector_new Touched.Fat 1)
    (insert (TouchedSector_new Bitmap 2) (insert (TouchedSector_new Data 4) FileDirty_new))).
Lemma sample_touched_ok : touched_ok 1 sample_volume sample_dirty.
Proof.
  split; [by repeat apply insert_ok; apply FileDirty_new_ok|].
  assert (Hs : sectors sample_dirty = [TouchedSector_new Data 4; TouchedSector_new Bitmap 2;
    TouchedSector_new Touched.Fat 1; TouchedSector_new Dir 3]) by reflexivity.
  rewrite Hs. repeat (apply Forall_cons_2; [|]); try apply Forall_nil_2;
    unfold item_ok, data_region, fat_region, bitmap_region, heap_region; cbn; lia.
Qed.

Lemma touched_prefix_durable_witness :
  ∃ f', for_each [TouchedSector_new Data 4; TouchedSector_new Bitmap 2] flush_touched sample_volume
    = (f', Ok ()).
Proof.
  destruct (touched_prefix_durable 1 sample_volume sample_dirty
    [TouchedSector_new Data 4; TouchedSector_new Bitmap 2]
    [TouchedSector_new Touched.Fat 1; TouchedSector_new Dir 3]
    sample_vol_inv sample_touched_ok) as [_ (f' & Hf & _)]; [vm_compute; reflexivity|].
  exists f'. exact Hf.
Defined.

Lemma touched_flush_durable_witness :
  ∃ f', FileDirty_flush (sample_dirty, sample_volume) = ((FileDirty_new, f'), Ok ()) ∧
    durable 1 f' 3.
Proof.
  destruct (touched_flush_durable 1 sample_volume sample_dirty sample_vol_inv sample_touched_ok)
    as (f' & Hf & _ & _ & Hd).
  exists f'. split; [exact Hf|]. apply Hd.
  - right; right. unfold data_region, heap_region, bitmap_region. cbn. lia.
  - right. apply (bool_decide_unpack _). vm_compute. exact I.
Defined.

Lemma unmount_persists_witness : ∃ f' d, unmount sample_volume = (f', Ok d).
Proof.
  destruct (unmount_persists 1 sample_volume sample_vol_inv) as (f' & d & Hu & _).
  exists f', d. exact Hu.
Defined.

Lemma heap_sectors_partition_witness :
  ∃ s, get_heap_sector_id (fs sample_volume) 5 = Ok s ∧ heap_region sample_volume (s + 0).
Proof.
  destruct (heap_sectors_partition 1 sample_volume 5 0 sample_vol_inv) as (_ & H & _);
    [lia|cbn; lia|].
  destruct H as (s & Hs & Hh & _); [unfold cluster_ok; cbn; lia|]. exists s. split; [exact Hs|exact Hh].
Defined.
End Sample.
