(* ===== verification/FlushOrder.v ===== *)
(** * The order in which a flush writes: [Touched::flush] of src/file.rs

    What [FileDirty_flush] writes, and when, over a device that remembers its
    writes ([DeviceLog]; [logged] makes one of any device).  Nothing else of
    the device is assumed beyond its contract, so the order holds for every
    device: the log is the history of its [dev_write] calls. *)

From stdpp Require Import sorting.
From S2P Require Import Prelude Text Crates Errors Utils BootSector Device SlotCache Touched Fat Allocation Regions Volume VolumeInv.
Import FileSystemDetails (cluster_length, sectors_per_cluster, cluster_heap_offset, fat_offset).

(** * Specification *)

(** A device that remembers the writes it was given, oldest first. *)
Class DeviceLog (bd : BlockDevice) := {
  writes : dev → list (Z * list Z);
  writes_read s buf d : writes (fst (fst (dev_read s buf d))) = writes d;
  writes_write s b d : writes (fst (dev_write s b d)) = writes d ++ [(s, b)];
}.

(** Any device with a log beside it. *)
Definition logged (bd : BlockDevice) : BlockDevice := {|
  dev := dev * list (Z * list Z);
  dev_error := dev_error;
  dev_read s buf d := let '((d', buf'), r) := dev_read s buf (fst d) in (((d', snd d), buf'), r);
  dev_write s b d := let '(d', r) := dev_write s b (fst d) in ((d', snd d ++ [(s, b)]), r);
|}.
#[export] Instance logged_log bd : DeviceLog (logged bd).
Proof.
  refine {| writes := (snd : @dev (logged bd) → _) |}.
  - intros s buf [d ws]. cbn. by destruct (dev_read s buf d) as [[]].
  - intros s b [d ws]. cbn. by destruct (dev_write s b d).
Defined.
#[program] Definition logged_ok {cfg bd} (Hbd : DeviceOk cfg bd) : DeviceOk cfg (logged bd) := {|
  content d := content (fst d);
  addressable d := addressable (fst d) |}.
Next Obligation. intros cfg bd Hbd [d ws] s. apply content_bytes. Qed.
Next Obligation.
  intros cfg bd Hbd [d ws] s buf Ha Hl. cbn in *. destruct (dev_read_ok d s buf Ha Hl) as (d' & -> & ? & ?).
  by exists (d', ws).
Qed.
Next Obligation.
  intros cfg bd Hbd [d ws] s b Ha Hl Hb. cbn in *. destruct (dev_write_ok d s b Ha Hl Hb) as (d' & -> & ? & ? & ?).
  by exists (d', ws ++ [(s, b)]).
Qed.

(** A sector of the second kind may be written after one of the first: data
    first, then bitmap, then FAT, directory last. *)
Definition in_order (k k' : TouchedKind) : Prop :=
  match k' with
  | Data => k = Data
  | Bitmap => k = Data ∨ k = Bitmap
  | Touched.Fat => k = Data ∨ k = Bitmap ∨ k = Touched.Fat
  | Dir | None_ => True
  end.

(** * Lemmas *)
Section Caches.
Context {cfg : Config} {bd : BlockDevice} {Hcfg : ConfigOk cfg} {Hbd : DeviceOk cfg bd} {Hlog : DeviceLog bd}.
Implicit Types (c : SlotCache) (d : dev) (s : Z).

(** Every write is to a sector of [R], of the block [look] of that sector. *)
Definition shows (R : Z → Prop) (look : Z → list Z) (ws : list (Z * list Z)) : Prop :=
  ∀ s b, (s, b) ∈ ws → R s ∧ b = look s.

Lemma Slot_flush_log c d i sl c' d' :
  cache_inv c d → cache c !! i = Some sl → Slot_flush i (c, d) = ((c', d'), Ok ()) →
  if is_dirty sl then writes d' = writes d ++ [(sector_id sl, seen c d (sector_id sl))]
  else (c', d') = (c, d).
Proof.
  intros Hinv Hi. unfold Slot_flush. rewrite (bind_Ok _ _ _ _ _ (get_slot_ok c d i sl Hi)).
  pose proof (inv_slots _ _ Hinv i sl Hi) as [_ Hs].
  destruct (is_dirty sl) eqn:Hd; [|by intros [= -> ->]].
  destruct (is_valid sl) eqn:Hv; [|by destruct Hs].
  rewrite (sector_hit c d i sl) by done.
  pose proof (writes_write (sector_id sl) (block sl) d) as Hw.
  unfold mbind, M_bind, zoom, io_write, put_slot. cbn [view put lsnd fst snd].
  destruct (dev_write (sector_id sl) (block sl) d) as [d1 []]; cbn in *; try done.
  by intros [= <- <-].
Qed.

Lemma flush_loop_log k n c d c' d' :
  cache_inv c d → (k + n = SLOTS)%nat →
  for_each (seq k n) Slot_flush (c, d) = ((c', d'), Ok ()) →
  ∃ ws, writes d' = writes d ++ ws ∧
    shows (λ s, ∃ i sl, cache c !! i = Some sl ∧ is_valid sl = true ∧ sector_id sl = s) (seen c d) ws.
Proof.
  revert k c d. induction n as [|n IH]; intros k c d Hinv Hkn; cbn [seq for_each].
  { intros [= <- <-]. exists []. rewrite app_nil_r. split; [done|]. by intros s b ?%elem_of_nil. }
  destruct (lookup_lt_is_Some_2 (cache c) k) as [sl Hsl]; [rewrite (inv_length _ _ Hinv); lia|].
  destruct (Slot_flush_ok c d k sl Hinv Hsl) as (d1 & Hf & Hinv1 & [_ Hs1] & _).
  rewrite (bind_Ok _ _ _ _ _ Hf). intros Hr.
  destruct (IH (S k) _ _ Hinv1 ltac:(lia) Hr) as (ws & Hws & Hsh).
  pose proof (Slot_flush_log c d k sl _ _ Hinv Hsl Hf) as Hl.
  assert (Hrest : shows (λ s, ∃ i sl, cache c !! i = Some sl ∧ is_valid sl = true ∧ sector_id sl = s) (seen c d) ws).
  { intros s b Hin. destruct (Hsh s b Hin) as [(i & si & Hi & Hv & <-) ->]. cbn in Hi.
    assert (Hi0 : ∃ j sj, cache c !! j = Some sj ∧ is_valid sj = true ∧ sector_id sj = sector_id si).
    { apply list_lookup_insert_Some in Hi as [(-> & <- & _)|[_ Hi]]; eauto. }
    split; [exact Hi0|]. destruct Hi0 as (j & sj & Hj & Hvj & Heq).
    apply Hs1; [|tauto]. destruct (inv_slots _ _ Hinv j sj Hj) as [_ Hsj]. rewrite Hvj in Hsj.
    rewrite <-Heq. apply Hsj. }
  destruct (is_dirty sl) eqn:Hd.
  - exists ((sector_id sl, seen c d (sector_id sl)) :: ws). split; [by rewrite Hws, Hl, <-app_assoc|].
    intros s b [[= -> ->]|Hin]%elem_of_cons; [|by apply Hrest]. split; [|done].
    exists k, sl. split_and!; [done| |done]. destruct (inv_slots _ _ Hinv k sl Hsl) as [_ Hv].
    destruct (is_valid sl); [done|]. destruct Hv. congruence.
  - injection Hl as _ ->. by exists ws.
Qed.

Lemma flush_sector_loop_log s k n c d c' d' :
  cache_inv c d → (k + n = SLOTS)%nat →
  flush_sector_loop (seq k n) s (c, d) = ((c', d'), Ok ()) →
  (c', d') = (c, d) ∨ writes d' = writes d ++ [(s, seen c d s)].
Proof.
  intros Hinv. revert k. induction n as [|n IH]; intros k Hkn; cbn [seq flush_sector_loop].
  { intros [= <- <-]. by left. }
  destruct (lookup_lt_is_Some_2 (cache c) k) as [sl Hsl]; [rewrite (inv_length _ _ Hinv); lia|].
  rewrite (bind_Ok _ _ _ _ _ (get_slot_ok c d k sl Hsl)).
  destruct (Z.eqb_spec (sector_id sl) s) as [<-|Hne]; [|apply IH; lia].
  intros Hf. pose proof (Slot_flush_log c d k sl _ _ Hinv Hsl Hf) as Hl.
  destruct (is_dirty sl); auto.
Qed.

Lemma flush_sector_log c d s c' d' :
  cache_inv c d → SlotCache.flush_sector s (c, d) = ((c', d'), Ok ()) →
  (c', d') = (c, d) ∨ writes d' = writes d ++ [(s, seen c d s)].
Proof.
  intros Hinv. unfold SlotCache.flush_sector. cbn [fst]. rewrite (inv_length _ _ Hinv).
  apply flush_sector_loop_log; [done|lia].
Qed.

(** Flushing a cache that owns a region writes sectors of the region, as they are seen. *)
Lemma flush_log R c d c' d' :
  owns R c d → SlotCache.flush (c, d) = ((c', d'), Ok ()) →
  ∃ ws, writes d' = writes d ++ ws ∧ shows R (seen c d) ws.
Proof.
  intros [Hinv Hl]. unfold SlotCache.flush. cbn [fst]. rewrite (inv_length _ _ Hinv). intros Hf.
  destruct (flush_loop_log 0 SLOTS c d c' d' Hinv ltac:(lia) Hf) as (ws & Hws & Hsh).
  exists ws. split; [done|]. intros s b Hin. destruct (Hsh s b Hin) as [(i & sl & Hi & Hv & <-) ->].
  split; [by eapply Hl|done].
Qed.
End Caches.

Section Volume.
Context {cfg : Config} {crates : Crates} {bd : BlockDevice}.
Context {Hcfg : ConfigOk cfg} {Hcr : CratesOk crates} {Hbd : DeviceOk cfg bd} {Hlog : DeviceLog bd}.
Implicit Types (f : FileSystem) (s : Z) (t : FileDirty) (x : TouchedSector).

(** One entry of the dirty list: nothing, or one write of the sector as readers see it. *)
Lemma flush_touched_log fl f x f' :
  vol_inv fl f → item_ok fl f x → flush_touched x f = (f', Ok ()) →
  f' = f ∨ writes (device f') = writes (device f) ++ [(Touched.sector x, vseen fl f (Touched.sector x))].
Proof.
  intros Hi Hx. unfold item_ok, flush_touched in *.
  assert (Hdata : data_region f (Touched.sector x) →
    zoom ldata (SlotCache.flush_sector (Touched.sector x)) f = (f', Ok ()) →
    f' = f ∨ writes (device f') = writes (device f) ++ [(Touched.sector x, vseen fl f (Touched.sector x))]).
  { intros Hd. rewrite vseen_data by done. unfold zoom. cbn [view ldata].
    destruct (SlotCache.flush_sector _ _) as [[c1 d1] o] eqn:Hf. intros [= <- ->].
    destruct (flush_sector_log _ _ _ _ _ (own_inv _ _ _ (vol_data _ _ Hi)) Hf) as [[= -> ->]|?];
      [left; by destruct f|by right]. }
  destruct (kind x); [by apply Hdata| | |by apply Hdata|done].
  - rewrite vseen_fat by done. unfold Fat.flush_sector, zoom. cbn [view lfatdev lcache].
    cbn. destruct (SlotCache.flush_sector _ _) as [[c1 d1] o] eqn:Hf. intros [= <- ->].
    destruct (flush_sector_log _ _ _ _ _ (own_inv _ _ _ (vol_fat _ _ Hi)) Hf) as [[= -> ->]|?];
      [left; by destruct f as [??? ? ? []]|by right].
  - rewrite vseen_bitmap by done. unfold Allocation.flush_sector, zoom. cbn [view lallocdev lacache].
    cbn. destruct (SlotCache.flush_sector _ _) as [[c1 d1] o] eqn:Hf. intros [= <- ->].
    destruct (flush_sector_log _ _ _ _ _ (own_inv _ _ _ (vol_bitmap _ _ Hi)) Hf) as [[= -> ->]|?];
      [left; by destruct f as [??? ? []]|by right].
Qed.

(** A sector with the block its readers see. *)
Definition shown (fl : Z) f x : Z * list Z := (Touched.sector x, vseen fl f (Touched.sector x)).

(** The entries of a list are written in the order of the list; an entry that
    is not was on the device before. *)
Lemma flush_items_log fl f l f' :
  vol_inv fl f → Forall (item_ok fl f) l → for_each l flush_touched f = (f', Ok ()) →
  ∃ items, items `sublist_of` l ∧ writes (device f') = writes (device f) ++ (shown fl f <$> items) ∧
    (∀ y, y ∈ l → Touched.sector y ∉ Touched.sector <$> items → durable fl f (Touched.sector y)).
Proof.
  revert f. induction l as [|x l IH]; intros f Hi Hl; cbn [for_each].
  { intros [= <-]. exists []. rewrite app_nil_r. split_and!; [done|done|]. by intros y ?%elem_of_nil. }
  inversion Hl as [|? ? Hx Hl']; subst.
  destruct (flush_touched_ok fl f x Hi Hx) as (f1 & Hf1 & Hi1 & Hst1 & Hd1 & Ho1).
  rewrite (bind_Ok _ _ _ _ _ Hf1). intros Hr.
  destruct (IH f1 Hi1) as (items & Hsub & Hw & Hrest); [|done|].
  { eapply Forall_impl; [exact Hl'|]. intros y. by eapply item_ok_step. }
  assert (Hsh : shown fl f1 <$> items = shown fl f <$> items).
  { apply list_fmap_ext. intros i y Hy. unfold shown. f_equal. apply (step_seen _ _ _ _ Hst1); [|tauto].
    apply item_in_volume. eapply Forall_forall; [exact Hl'|].
    apply (elem_of_sublist items); [by eapply list_elem_of_lookup_2|done]. }
  assert (Hback : ∀ y, y ∈ l → Touched.sector y ≠ Touched.sector x ∨ f1 = f →
    Touched.sector y ∉ Touched.sector <$> items → durable fl f (Touched.sector y)).
  { intros y Hy Hc Hni. pose proof (Hrest y Hy Hni) as Hd. destruct Hc as [Hne| ->]; [|done].
    rewrite Forall_forall in Hl'. pose proof (item_in_volume _ _ _ (Hl' y Hy)) as Hv.
    unfold durable in *. rewrite <-(step_seen _ _ _ _ Hst1), <-Hd by tauto.
    symmetry. apply Ho1; [by apply (vol_addressable _ _ Hi)|done]. }
  destruct (flush_touched_log fl f x f1 Hi Hx Hf1) as [->|Hl1].
  - exists items. split_and!; [by apply sublist_cons|done|].
    intros y [->|Hy]%elem_of_cons Hni; [exact Hd1|auto].
  - exists (x :: items). split_and!; [by apply sublist_skip|by rewrite Hw, Hl1, Hsh, <-app_assoc|].
    intros y Hy. rewrite fmap_cons, not_elem_of_cons. intros [Hne Hni].
    apply elem_of_cons in Hy as [->|Hy]; [done|auto].
Qed.

(** The three caches of [FileSystem::flush]. *)
Lemma flush_fat_log fl f :
  vol_inv fl f →
  ∃ f' ws, zoom lfatdev Fat.flush f = (f', Ok ()) ∧ vol_inv fl f' ∧ vol_same fl f f' ∧
    writes (device f') = writes (device f) ++ ws ∧ shows (fat_region fl f) (vseen fl f) ws.
Proof.
  intros Hi. pose proof (vol_geometry _ _ Hi) as [? _ _ _ _ _ _].
  destruct (region_flush (fat_region fl f) (fcache (fat f)) (device f) (fat_offset (fs f))
    (vol_fat _ _ Hi)) as (c1 & d1 & Hf & Hown & Hc & _).
  { apply (vol_addressable _ _ Hi). left. unfold fat_region. lia. }
  { unfold fat_region. lia. }
  destruct (fat_step fl _ f c1 d1 Hi Hown Hc) as (Hi1 & Hst1 & _).
  destruct (flush_log _ _ _ _ _ (vol_fat _ _ Hi) Hf) as (ws & Hw & Hsh).
  eexists _, ws. split_and!; [by zoom_in Hf|done|done|done|].
  intros s b Hin. destruct (Hsh s b Hin) as [Hs ->]. by rewrite vseen_fat.
Qed.

Lemma flush_bitmap_log fl f :
  vol_inv fl f →
  ∃ f' ws, zoom lallocdev Allocation.flush f = (f', Ok ()) ∧ vol_inv fl f' ∧ vol_same fl f f' ∧
    writes (device f') = writes (device f) ++ ws ∧ shows (bitmap_region f) (vseen fl f) ws.
Proof.
  intros Hi. pose proof (vol_geometry _ _ Hi) as [_ _ _ _ _ ? _].
  destruct (region_flush (bitmap_region f) (acache (allocator f)) (device f)
    (Slim.first_sector (bitmap (allocator f))) (vol_bitmap _ _ Hi)) as (c1 & d1 & Hf & Hown & Hc & _).
  { apply (vol_addressable _ _ Hi). right; left. unfold bitmap_region. lia. }
  { unfold bitmap_region. lia. }
  destruct (bitmap_step fl _ f c1 d1 _ Hi Hown (vol_rover _ _ Hi) Hc) as (Hi1 & Hst1 & _).
  destruct (flush_log _ _ _ _ _ (vol_bitmap _ _ Hi) Hf) as (ws & Hw & Hsh).
  eexists _, ws. split_and!; [by zoom_in Hf|done|done|done|].
  intros s b Hin. destruct (Hsh s b Hin) as [Hs ->]. by rewrite vseen_bitmap.
Qed.

Lemma flush_data_log fl f :
  vol_inv fl f →
  ∃ f' ws, zoom ldata SlotCache.flush f = (f', Ok ()) ∧ vol_inv fl f' ∧ vol_same fl f f' ∧
    writes (device f') = writes (device f) ++ ws ∧ shows (data_region f) (vseen fl f) ws.
Proof.
  intros Hi. pose proof (vol_geometry _ _ Hi) as Hg.
  assert (∃ s, data_region f s) as [s Hs].
  { destruct Hg. unfold data_region, heap_region, bitmap_region.
    destruct (decide (Slim.first_sector (bitmap (allocator f)) = cluster_heap_offset (fs f))).
    - exists (Slim.first_sector (bitmap (allocator f)) + Slim.num_sectors (bitmap (allocator f))). lia.
    - exists (cluster_heap_offset (fs f)). lia. }
  destruct (region_flush (data_region f) (data_blocks f) (device f) s (vol_data _ _ Hi))
    as (c1 & d1 & Hf & Hown & Hc & _); [|done|].
  { apply (vol_addressable _ _ Hi). by right; right. }
  destruct (data_step fl _ f c1 d1 Hi Hown Hc) as (Hi1 & Hst1 & _).
  destruct (flush_log _ _ _ _ _ (vol_data _ _ Hi) Hf) as (ws & Hw & Hsh).
  eexists _, ws. split_and!; [by apply zoom_eq|done|done|done|].
  intros s' b Hin. destruct (Hsh s' b Hin) as [Hs' ->]. by rewrite vseen_data.
Qed.

(** [shows] of an earlier state of the same volume. *)
Lemma shows_step fl (R R' : Z → Prop) f f' ws :
  vol_same fl f f' → (∀ s, R' s → R s ∧ in_volume fl f s) →
  shows R' (vseen fl f') ws → shows R (vseen fl f) ws.
Proof.
  intros Hst HR Hsh s b Hin. destruct (Hsh s b Hin) as [Hs ->]. destruct (HR s Hs).
  split; [done|]. apply (step_seen _ _ _ _ Hst); tauto.
Qed.

Lemma vol_flush_log fl f :
  vol_inv fl f →
  ∃ f' w1 w2 w3, Volume.flush f = (f', Ok ()) ∧
    writes (device f') = writes (device f) ++ w1 ++ w2 ++ w3 ∧
    shows (fat_region fl f) (vseen fl f) w1 ∧ shows (bitmap_region f) (vseen fl f) w2 ∧
    shows (data_region f) (vseen fl f) w3.
Proof.
  intros Hi. destruct (flush_fat_log fl f Hi) as (f1 & w1 & Hf1 & Hi1 & Hst1 & Hw1 & Hs1).
  destruct (flush_bitmap_log fl f1 Hi1) as (f2 & w2 & Hf2 & Hi2 & Hst2 & Hw2 & Hs2).
  destruct (flush_data_log fl f2 Hi2) as (f3 & w3 & Hf3 & Hi3 & Hst3 & Hw3 & Hs3).
  exists f3, w1, w2, w3. split_and!.
  - unfold Volume.flush. by rewrite (bind_Ok _ _ _ _ _ Hf1), (bind_Ok _ _ _ _ _ Hf2).
  - by rewrite Hw3, Hw2, Hw1, <-!app_assoc.
  - exact Hs1.
  - eapply shows_step; [exact Hst1| |exact Hs2]. intros s. unfold in_volume, bitmap_region.
    rewrite (step_bitmap _ _ _ _ Hst1). tauto.
  - pose proof (vol_step_trans _ _ _ _ _ Hst1 Hst2) as Hst.
    eapply shows_step; [exact Hst| |exact Hs3]. intros s.
    unfold in_volume, data_region, heap_region, bitmap_region.
    rewrite (step_bitmap _ _ _ _ Hst), (step_fs _ _ _ _ Hst). tauto.
Qed.

Lemma key_le_in_order x y : key_le x y → kind x ≠ None_ → in_order (kind x) (kind y).
Proof. unfold key_le. destruct (kind x), (kind y); cbn; intros; auto; (lia || done). Qed.

(** The entries of a sorted list are in order. *)
Lemma sorted_in_order t items l1 l2 x y :
  items `sublist_of` sectors (sort t) → Forall (λ x, kind x ≠ None_) (sectors t) →
  items = l1 ++ l2 → x ∈ l1 → y ∈ l2 → in_order (kind x) (kind y).
Proof.
  intros Hsub Hk -> Hx Hy. destruct (sort_spec t) as [Hp Hs]. apply key_le_in_order.
  - assert (Hsi : StronglySorted key_le (l1 ++ l2)).
    { clear -Hsub Hs. revert Hs. induction Hsub as [|z k1 k2 Hsub IH|z k1 k2 Hsub IH]; intros Hs.
      - done.
      - apply StronglySorted_cons in Hs as [Hz Hs]. apply StronglySorted_cons. split; [|auto].
        eapply Forall_forall. intros y Hy. rewrite Forall_forall in Hz. apply Hz. by eapply elem_of_sublist.
      - apply StronglySorted_cons in Hs as [_ Hs]. auto. }
    by eapply StronglySorted_app_1_elem_of.
  - apply (proj1 (Forall_forall _ _) Hk). rewrite <-Hp. apply (elem_of_sublist (l1 ++ l2)); [|done].
    apply elem_of_app. by left.
Qed.

(** The run without overflow: the sorted list, entry by entry. *)
Lemma FileDirty_flush_items fl f t f' :
  vol_inv fl f → touched_ok fl f t → overflowed t = false →
  FileDirty_flush (t, f) = ((FileDirty_new, f'), Ok ()) →
  for_each (sectors (sort t)) flush_touched f = (f', Ok ()).
Proof.
  intros Hi Ht Ho. unfold FileDirty_flush. rewrite (bind_Ok (gets fst) _ _ (t, f) t) by done. rewrite Ho.
  destruct (flush_items_ok fl f (sectors (sort t)) Hi (touched_ok_sort fl f t Ht)) as (f1 & Hf & _).
  rewrite (bind_Ok _ _ _ (sort t, f1) ()); [by intros [= <-]|]. by apply for_each_flush_touched.
Qed.
End Volume.

(** * Theorems *)
Section Theorems.
Context {cfg : Config} {crates : Crates} {bd : BlockDevice}.
Context {Hcfg : ConfigOk cfg} {Hcr : CratesOk crates} {Hbd : DeviceOk cfg bd} {Hlog : DeviceLog bd}.
Implicit Types (f : FileSystem) (s : Z) (t : FileDirty) (x : TouchedSector).

(** C32 - [FileDirty::flush] over a device that remembers its writes: it ends
    with an empty list and the volume as its readers saw it, every sector the
    operation recorded is on the device, and every block written is what
    readers of its sector see.  If the list did not overflow, only recorded
    sectors are written, each at most once, in the order data, bitmap, FAT,
    directory (at every cut of the sequence of writes, a sector before it may
    precede the ones behind it), and a recorded sector that is not written was
    on the device before.  If it overflowed, all three caches are flushed: FAT
    sectors first, then the bitmap, then data and directories together. *)
Theorem touched_flush_order fl f t :
  vol_inv fl f → touched_ok fl f t →
  ∃ f' ws, FileDirty_flush (t, f) = ((FileDirty_new, f'), Ok ()) ∧ vol_inv fl f' ∧ vol_same fl f f' ∧
    writes (device f') = writes (device f) ++ ws ∧
    (∀ s, in_volume fl f s → records t s → durable fl f' s) ∧
    (overflowed t = false →
       ∃ items, ws = shown fl f <$> items ∧ items ⊆+ sectors t ∧
         (∀ l1 l2 x y, items = l1 ++ l2 → x ∈ l1 → y ∈ l2 → in_order (kind x) (kind y)) ∧
         (∀ y, y ∈ sectors t → Touched.sector y ∉ Touched.sector <$> items →
            durable fl f (Touched.sector y))) ∧
    (overflowed t = true →
       ∃ w1 w2 w3, ws = w1 ++ w2 ++ w3 ∧ shows (fat_region fl f) (vseen fl f) w1 ∧
         shows (bitmap_region f) (vseen fl f) w2 ∧ shows (data_region f) (vseen fl f) w3).
Proof.
  intros Hi Ht. destruct (FileDirty_flush_ok fl f t Hi Ht) as (f' & Hf & Hi' & Hst & Hd).
  exists f'. destruct (overflowed t) eqn:Ho.
  - destruct (vol_flush_log fl f Hi) as (f1 & w1 & w2 & w3 & Hf1 & Hw & H1 & H2 & H3).
    assert (f1 = f') as ->.
    { revert Hf. unfold FileDirty_flush. rewrite (bind_Ok (gets fst) _ _ (t, f) t) by done. rewrite Ho.
      rewrite (bind_Ok _ _ _ (t, f1) ()) by (by eapply zoom_to). by intros [= <-]. }
    exists (w1 ++ w2 ++ w3). split_and!; try done. intros _. by exists w1, w2, w3.
  - pose proof (FileDirty_flush_items fl f t f' Hi Ht Ho Hf) as Hr.
    destruct (flush_items_log fl f _ f' Hi (touched_ok_sort fl f t Ht) Hr) as (items & Hsub & Hw & Hrest).
    pose proof (proj1 (sort_spec t)) as Hp.
    exists (shown fl f <$> items). split_and!; try done. intros _. exists items. split_and!; [done| | |].
    + rewrite <-Hp. by apply sublist_submseteq.
    + intros l1 l2 x y. apply (sorted_in_order t); [done|]. destruct Ht as [_ Ht].
      eapply Forall_impl; [exact Ht|]. intros z. unfold item_ok. by destruct (kind z).
    + intros y Hy. apply Hrest. by rewrite Hp.
Qed.
End Theorems.

(** * A small volume *)
Section Sample.
#[local] Existing Instance debug_build.
#[local] Existing Instance debug_build_ok.
#[local] Existing Instance dummy_device.
#[local] Existing Instance reference_crates.
#[local] Existing Instance reference_crates_ok.
#[local] Instance logged_dummy : BlockDevice := logged dummy_device.
#[local] Instance logged_dummy_ok : DeviceOk debug_build logged_dummy := logged_ok blank_ok.

(** The volume of VolumeInv.v, over a device with a log. *)
Definition logged_volume : FileSystem := {|
  device := (blank 10, []) : @dev logged_dummy;
  is_mounted := true; fs := fs sample_volume;
  upcase_table := UpcaseTable_default; allocator := allocator sample_volume;
  fat := fat sample_volume; data_blocks := SlotCache_new; time_provider := None; clock := 0 |}.
Lemma logged_volume_inv : vol_inv 1 logged_volume.
Proof.
  split; try done; try (apply owns_new, debug_build_ok).
  intros s Hs. apply (blank_addressable 10).
  unfold in_volume, data_region, fat_region, bitmap_region, heap_region in Hs. cbn in Hs. lia.
Qed.

(** A directory sector, a FAT entry and a data sector are changed, in this order. *)
Definition mark (b : list Z) : outcome err (list Z) := Ok (<[0%nat := 7]> b).
Definition changed_dir : FileSystem := fst (zoom ldata (update 3 mark) logged_volume).
Definition changed_fat : FileDirty * FileSystem :=
  fst (zoom (with_touched lfatdev) (Fat.set 5 6)
    (insert (TouchedSector_new Dir 3) FileDirty_new, changed_dir)).
Definition changed_volume : FileSystem := fst (zoom ldata (update 4 mark) (snd changed_fat)).
Definition changed_list : FileDirty := insert (TouchedSector_new Data 4) (fst changed_fat).

Lemma mark_ok b : block_ok b → mark b = Ok (<[0%nat := 7]> b) ∧ block_ok (<[0%nat := 7]> b).
Proof.
  intros [Hl Hb]. split; [done|]. split; [by rewrite <-Hl; unfold len; rewrite length_insert|].
  apply Forall_insert; [done|]. by unfold byte_ok.
Qed.
Lemma changed_ok : vol_inv 1 changed_volume ∧ touched_ok 1 changed_volume changed_list.
Proof.
  assert (Hd3 : data_region logged_volume 3) by (apply (bool_decide_unpack _); vm_compute; exact I).
  assert (Hd4 : data_region logged_volume 4) by (apply (bool_decide_unpack _); vm_compute; exact I).
  pose proof logged_volume_inv as Hi0.
  destruct (mark_ok (vseen 1 logged_volume 3)) as [Hm Hb].
  { apply vseen_ok; [done|]. by right; right. }
  destruct (data_update 1 logged_volume 3 mark _ Hi0 Hd3 Hm Hb) as (f1 & Hf1 & Hi1 & Hst1 & _).
  assert (He1 : changed_dir = f1) by (unfold changed_dir; by rewrite Hf1).
  destruct (fat_set 1 f1 (insert (TouchedSector_new Dir 3) FileDirty_new) 5 6 Hi1) as (f2 & Hf2 & Hi2 & Hst2 & _).
  { apply insert_ok, FileDirty_new_ok. } { unfold cluster_ok. rewrite (step_fs _ _ _ _ Hst1). cbn. lia. } { lia. }
  assert (He2 : changed_fat = (insert (TouchedSector_new Touched.Fat (fat_sector f1 5))
     (insert (TouchedSector_new Dir 3) FileDirty_new), f2)) by (unfold changed_fat; by rewrite He1, Hf2).
  assert (Hreg2 : fs f2 = fs logged_volume ∧ bitmap (allocator f2) = bitmap (allocator logged_volume)).
  { by rewrite (step_fs _ _ _ _ Hst2), (step_bitmap _ _ _ _ Hst2), (step_fs _ _ _ _ Hst1), (step_bitmap _ _ _ _ Hst1). }
  assert (Hd4' : data_region f2 4).
  { destruct Hreg2 as [Ha Hb']. unfold data_region, heap_region, bitmap_region in *. by rewrite Ha, Hb'. }
  destruct (mark_ok (vseen 1 f2 4)) as [Hm2 Hb2]. { apply vseen_ok; [done|]. by right; right. }
  destruct (data_update 1 f2 4 mark _ Hi2 Hd4' Hm2 Hb2) as (f3 & Hf3 & Hi3 & Hst3 & _).
  assert (He3 : changed_volume = f3) by (unfold changed_volume; rewrite He2; cbn [snd]; by rewrite Hf3).
  rewrite He3. split; [done|]. unfold changed_list. rewrite He2. cbn [fst].
  assert (Hs : fat_sector f1 5 = 1) by (unfold fat_sector; by rewrite (step_fs _ _ _ _ Hst1)).
  rewrite Hs. split; [by repeat apply insert_ok; apply FileDirty_new_ok|].
  assert (Hl : sectors (insert (TouchedSector_new Data 4) (insert (TouchedSector_new Touched.Fat 1)
    (insert (TouchedSector_new Dir 3) FileDirty_new))) =
    [TouchedSector_new Dir 3; TouchedSector_new Touched.Fat 1; TouchedSector_new Data 4]) by reflexivity.
  rewrite Hl. apply (Forall_impl (item_ok 1 logged_volume)).
  - repeat (apply Forall_cons_2; [|]); try apply Forall_nil_2; [exact Hd3| |exact Hd4].
    unfold item_ok, fat_region; cbn; lia.
  - intros x. destruct Hreg2 as [Ha Hb'].
    unfold item_ok, data_region, fat_region, heap_region, bitmap_region.
    by rewrite (step_fs _ _ _ _ Hst3), (step_bitmap _ _ _ _ Hst3), Ha, Hb'.
Qed.

(** What the device was given: the data sector, the FAT sector, the directory sector. *)
Example changed_volume_writes :
  (writes (device (snd (fst (FileDirty_flush (changed_list, changed_volume)))))).*1 = [4; 1; 3].
Proof. vm_compute. reflexivity. Qed.

Lemma touched_flush_order_witness :
  ∃ f' items, FileDirty_flush (changed_list, changed_volume) = ((FileDirty_new, f'), Ok ()) ∧
    writes (device f') = writes (device changed_volume) ++ (shown 1 changed_volume <$> items) ∧
    items ⊆+ sectors changed_list.
Proof.
  destruct (touched_flush_order 1 changed_volume changed_list (proj1 changed_ok) (proj2 changed_ok))
    as (f' & ws & Hf & _ & _ & Hw & _ & Hitems & _).
  destruct (Hitems ltac:(vm_compute; reflexivity)) as (items & -> & Hsub & _).
  exists f', items. split; [exact Hf|]. split; [exact Hw|exact Hsub].
Defined.
End Sample.
