(* ===== verification/Mount.v ===== *)
(** * Mounting establishes the invariant of the volume

    [FileSystem::mount] of src/file_system.rs on a well-formed device: what the
    boot sector and the root directory say ([described]) is what the mounted
    file system works with, and readers of the mounted volume see the device.
    Together with [unmount_persists] of VolumeInv.v: what was written before
    unmounting is there after mounting. *)

From S2P Require Import Prelude Text Crates Errors Utils BootSector Device SlotCache Touched Fat Allocation Regions DirectoryEntry Volume VolumeInv.
Import FileSystemDetails (cluster_length, sectors_per_cluster, cluster_heap_offset, fat_offset).

(** * Specification *)
Section Spec.
Context {cfg : Config} {crates : Crates} {bd : BlockDevice} {Hbd : DeviceOk cfg bd}.

(** The geometry a boot sector describes. *)
Definition details_of (b : BootSector) : FileSystemDetails.t := {|
  cluster_heap_offset := BootSector.cluster_heap_offset b;
  fat_offset := BootSector.fat_offset b;
  sectors_per_cluster := BootSector.sectors_per_cluster b;
  cluster_length := SIZE * BootSector.sectors_per_cluster b;
  FileSystemDetails.cluster_count := BootSector.cluster_count b;
  FileSystemDetails.first_cluster_of_root_dir := BootSector.first_cluster_of_root_dir b |}.
(** The first sector of a cluster. *)
Definition sector_of (b : BootSector) (id : Z) : Z :=
  BootSector.cluster_heap_offset b + (id - 2) * BootSector.sectors_per_cluster b.
Definition in_heap (b : BootSector) (id : Z) : Prop := 2 ≤ id < 2 + BootSector.cluster_count b.
(** The bitmap its directory entry describes. *)
Definition bitmap_of (b : BootSector) (e : AllocationBitmapDirEntry.t) : Slim.t := {|
  Slim.first_sector := sector_of b (AllocationBitmapDirEntry.first_cluster e);
  Slim.num_sectors := (AllocationBitmapDirEntry.data_length e + SIZE - 1) / SIZE;
  Slim.cluster_count := BootSector.cluster_count b |}.

(** Sectors [c], of which those in [a] can be accessed, that hold a well-formed
    volume: the boot sector parses to [b], the first sector of the root
    directory has the entries of the bitmap, the label and the up-case table,
    and the geometry they describe is sound. *)
Record described (fl : Z) (c : Z → list Z) (a : Z → Prop) (b : BootSector) (bitmap : AllocationBitmapDirEntry.t)
    (label : list Z) (upcase : UpcaseTableDirEntry.t) : Prop := {
  de_boot : try_from (c 0) = Ok b;
  de_sector : bytes_per_sector b = SIZE;
  de_root : in_heap b (BootSector.first_cluster_of_root_dir b);
  de_entries : scan_root (as_chunks 32 (c (sector_of b (BootSector.first_cluster_of_root_dir b))))
      {| allocation_bitmap_dir_entry := None; volume_label := None; upcase_table_dir_entry := None |} =
    Ok {| allocation_bitmap_dir_entry := Some bitmap; volume_label := Some label;
          upcase_table_dir_entry := Some upcase |};
  de_upcase : in_heap b (UpcaseTableDirEntry.first_cluster upcase);
  de_bitmap : in_heap b (AllocationBitmapDirEntry.first_cluster bitmap);
  de_geometry : geometry_ok fl (details_of b) (bitmap_of b bitmap);
  de_addressable s : s = 0 ∨ fat_offset (details_of b) ≤ s < fat_offset (details_of b) + fl ∨
    (cluster_heap_offset (details_of b) ≤ s < cluster_heap_offset (details_of b) +
      sectors_per_cluster (details_of b) * FileSystemDetails.cluster_count (details_of b)) → a s;
}.

(** The sectors of the device as readers of a mounted volume see them. *)
#[local] Instance in_volume_dec fl f s : Decision (in_volume fl f s).
Proof. unfold in_volume. apply _. Defined.
Definition volume_view (fl : Z) (f : FileSystem) (s : Z) : list Z :=
  if decide (in_volume fl f s) then vseen fl f s else content (device f) s.
End Spec.

(** * Lemmas *)
Section Lemmas.
Context {cfg : Config} {crates : Crates} {bd : BlockDevice}.
Context {Hcfg : ConfigOk cfg} {Hcr : CratesOk crates} {Hbd : DeviceOk cfg bd}.
Implicit Types (d : dev) (s : Z) (b : BootSector).

(** Two devices with the same contents. *)
Definition same_device d d' : Prop :=
  (∀ s, content d' s = content d s) ∧ (∀ s, addressable d' s ↔ addressable d s).

Lemma same_device_trans d0 d1 d2 : same_device d0 d1 → same_device d1 d2 → same_device d0 d2.
Proof. intros [Hc Ha] [Hc' Ha']. split; intros s; [by rewrite Hc', Hc|by rewrite Ha', Ha]. Qed.

Lemma io_read_ok d s :
  addressable d s → ∃ d', io_read s d = (d', Ok (content d s)) ∧ same_device d d'.
Proof.
  intros Ha. pose proof SIZE_range. destruct (dev_read_ok d s (zeros SIZE) Ha) as (d' & Hr & Hc & Had);
    [apply zeros_len; lia|].
  exists d'. unfold io_read. by rewrite Hr.
Qed.

Lemma described_ext fl c c' (a a' : Z → Prop) b bm l u :
  c' 0 = c 0 →
  c' (sector_of b (BootSector.first_cluster_of_root_dir b)) =
    c (sector_of b (BootSector.first_cluster_of_root_dir b)) →
  (∀ s, a s → a' s) → described fl c a b bm l u → described fl c' a' b bm l u.
Proof. intros H0 Hr Ha []. split; try done; [by rewrite H0|by rewrite Hr|auto]. Qed.

(** The first sector of a cluster, computed as the code does. *)
Lemma sector_of_ok fl b bm id :
  geometry_ok fl (details_of b) (bitmap_of b bm) → in_heap b id →
  get_heap_sector_id (details_of b) id = Ok (sector_of b id) ∧
  cluster_heap_offset (details_of b) ≤ sector_of b id <
    cluster_heap_offset (details_of b) +
      sectors_per_cluster (details_of b) * FileSystemDetails.cluster_count (details_of b).
Proof.
  intros [Hgf Hgc Hgn Hgh _ _ _] Hid. unfold in_heap, sector_of in *. cbn in *.
  unfold get_heap_sector_id. cbn. rewrite (proj2 (Z.ltb_ge _ _)) by lia.
  rewrite sub_ok by (unfold CLUSTER_LEN in *; lia). cbn [mbind outcome_bind].
  rewrite mul_ok by nia. cbn [mbind outcome_bind]. rewrite add_ok by nia. split; [done|nia].
Qed.

(** What mounting reads from the device. *)
Lemma read_metadata_ok fl d b bm l u :
  described fl (content d) (addressable d) b bm l u →
  ∃ d' table, read_file_system_metadata d =
    (d', Ok {| details := details_of b; md_upcase_table := table;
               alloc_bitmap := {| AllocationBitmap.first_cluster := AllocationBitmapDirEntry.first_cluster bm;
                                  AllocationBitmap.num_sectors := Slim.num_sectors (bitmap_of b bm) |} |}) ∧
    same_device d d' ∧
    table = load_mapping UpcaseTable_default (content d (sector_of b (UpcaseTableDirEntry.first_cluster u))).
Proof.
  intros Hd. pose proof SIZE_range. pose proof (de_geometry _ _ _ _ _ _ _ Hd) as Hg.
  destruct (sector_of_ok fl b bm _ Hg (de_root _ _ _ _ _ _ _ Hd)) as [Hroot Hr].
  destruct (sector_of_ok fl b bm _ Hg (de_upcase _ _ _ _ _ _ _ Hd)) as [Hup Hu].
  destruct (io_read_ok d 0) as (d1 & Hr1 & Hs1); [by apply (de_addressable _ _ _ _ _ _ _ Hd); left|].
  destruct (io_read_ok d1 (sector_of b (BootSector.first_cluster_of_root_dir b))) as (d2 & Hr2 & Hs2);
    [apply Hs1, (de_addressable _ _ _ _ _ _ _ Hd); tauto|].
  pose proof (same_device_trans _ _ _ Hs1 Hs2) as Hs12.
  destruct (io_read_ok d2 (sector_of b (UpcaseTableDirEntry.first_cluster u))) as (d3 & Hr3 & Hs3);
    [apply Hs12, (de_addressable _ _ _ _ _ _ _ Hd); tauto|].
  pose proof Hg as [_ [Hspc [_ Hcl2]] _ _ _ [_ [Hn1 _]] [_ Hn]]. cbn in Hspc, Hcl2.
  assert (0 ≤ SIZE * BootSector.sectors_per_cluster b) by (apply Z.mul_nonneg_nonneg; lia).
  assert (Hbm : AllocationBitmap_new (E:=err) (AllocationBitmapDirEntry.first_cluster bm)
      (AllocationBitmapDirEntry.data_length bm) =
    Ok {| AllocationBitmap.first_cluster := AllocationBitmapDirEntry.first_cluster bm;
          AllocationBitmap.num_sectors := Slim.num_sectors (bitmap_of b bm) |}).
  { unfold AllocationBitmap_new. rewrite (cast_id u64 SIZE) by lia.
    rewrite div_ceil_ok by lia. cbn [mbind outcome_bind].
    cbn in Hn, Hn1. rewrite cast_id; [done|]. pose proof BPS_range. nia. }
  eexists d3, _. split; [|split; [by eapply same_device_trans|reflexivity]].
  unfold read_file_system_metadata.
  rewrite (bind_Ok _ _ d d1 b).
  2: { unfold read_boot_sector. rewrite (bind_Ok _ _ _ _ _ Hr1). by rewrite (de_boot _ _ _ _ _ _ _ Hd). }
  unfold FileSystemDetails.new. rewrite (de_sector _ _ _ _ _ _ _ Hd), mul_ok by lia.
  cbn [mbind outcome_bind]. rewrite bind_lift_Ok. fold (details_of b).
  change (FileSystemDetails.first_cluster_of_root_dir _) with (BootSector.first_cluster_of_root_dir b).
  rewrite Hroot, bind_lift_Ok, (bind_Ok _ _ _ _ _ Hr2), (proj1 Hs1), (de_entries _ _ _ _ _ _ _ Hd), bind_lift_Ok.
  cbn [upcase_table_dir_entry volume_label allocation_bitmap_dir_entry]. rewrite bool_decide_false by done.
  rewrite (bind_Ok _ _ d2 d3 (load_mapping UpcaseTable_default
    (content d (sector_of b (UpcaseTableDirEntry.first_cluster u))))).
  2: { unfold load. rewrite Hup, bind_lift_Ok, (bind_Ok _ _ _ _ _ Hr3). by rewrite (proj1 Hs12). }
  by rewrite Hbm, bind_lift_Ok.
Qed.
End Lemmas.

(** * Theorems *)
Section Theorems.
Context {cfg : Config} {crates : Crates} {bd : BlockDevice}.
Context {Hcfg : ConfigOk cfg} {Hcr : CratesOk crates} {Hbd : DeviceOk cfg bd}.
Implicit Types (d : dev) (s : Z) (b : BootSector) (f : FileSystem).

Lemma mount_ok fl d b bm l u :
  described fl (content d) (addressable d) b bm l u →
  ∃ f', mount (FileSystem_new d) = (f', Ok ()) ∧ vol_inv fl f' ∧
    fs f' = details_of b ∧ bitmap (allocator f') = bitmap_of b bm ∧ same_device d (device f') ∧
    upcase_table f' =
      load_mapping UpcaseTable_default (content d (sector_of b (UpcaseTableDirEntry.first_cluster u))) ∧
    (∀ s, vseen fl f' s = content d s ∧ durable fl f' s).
Proof.
  intros Hd. destruct (read_metadata_ok fl d b bm l u Hd) as (d' & table & Hr & Hs & Ht).
  pose proof (de_geometry _ _ _ _ _ _ _ Hd) as Hg.
  destruct (sector_of_ok fl b bm _ Hg (de_bitmap _ _ _ _ _ _ _ Hd)) as [Hbm _].
  eexists. split.
  { unfold mount. rewrite (bind_Ok (gets _) _ _ (FileSystem_new d) false) by done. cbv iota.
    rewrite (bind_Ok _ _ _ _ _ (zoom_eq ldev _ (FileSystem_new d) _ _ Hr)).
    erewrite (bind_Ok (modify _)) by reflexivity. cbn [details alloc_bitmap AllocationBitmap.first_cluster].
    rewrite Hbm, bind_lift_Ok. reflexivity. }
  assert (Hfresh : ∀ s, seen SlotCache_new d' s = content d s).
  { intros s. rewrite <-(proj1 Hs s). apply seen_new. }
  split_and!; try done.
  - split; try done; try (apply owns_new, Hcfg).
    intros s Hin. apply Hs, (de_addressable _ _ _ _ _ _ _ Hd). right.
    unfold in_volume, fat_region, bitmap_region, data_region, heap_region in Hin. cbn in Hin.
    destruct Hg as [_ _ _ _ _ Hb _]. cbn in Hb |- *. lia.
  - intros s. unfold durable, vseen. cbn. rewrite !Hfresh, (proj1 Hs s). by repeat case_decide.
Qed.

(** C23 - mounting a device that holds a well-formed volume succeeds: the
    geometry, the bitmap and the up-case table are those its boot sector and
    root directory describe, the invariant of the volume holds, nothing was
    written, and readers see every sector as it is on the device. *)
Theorem mount_establishes_invariant fl d b bm l u :
  described fl (content d) (addressable d) b bm l u →
  ∃ f', mount (FileSystem_new d) = (f', Ok ()) ∧ vol_inv fl f' ∧
    fs f' = details_of b ∧ bitmap (allocator f') = bitmap_of b bm ∧ same_device d (device f') ∧
    upcase_table f' =
      load_mapping UpcaseTable_default (content d (sector_of b (UpcaseTableDirEntry.first_cluster u))) ∧
    (∀ s, vseen fl f' s = content d s ∧ durable fl f' s).
Proof. apply mount_ok. Qed.

(** C22 - nothing is lost between sessions: unmounting and mounting the device
    again gives a volume of which every sector reads as before, whatever was
    still in the caches. *)
Theorem remount_shows_volume fl f b bm l u :
  vol_inv fl f → fs f = details_of b → bitmap (allocator f) = bitmap_of b bm →
  described fl (volume_view fl f) (addressable (device f)) b bm l u →
  ∃ f1 d f', unmount f = (f1, Ok d) ∧ mount (FileSystem_new d) = (f', Ok ()) ∧ vol_inv fl f' ∧
    fs f' = fs f ∧ bitmap (allocator f') = bitmap (allocator f) ∧
    (∀ s, in_volume fl f s → vseen fl f' s = vseen fl f s).
Proof.
  intros Hi Hfs Hb Hd. destruct (unmount_ok fl f Hi) as (f1 & d & Hu & Hc & Hout).
  assert (Hview : ∀ s, addressable (device f) s → content d s = volume_view fl f s).
  { intros s Ha. unfold volume_view. destruct (decide _) as [Hin|Hin]; [auto|]. by apply Hout. }
  destruct (sector_of_ok fl b bm _ (de_geometry _ _ _ _ _ _ _ Hd) (de_root _ _ _ _ _ _ _ Hd)) as [_ Hr].
  destruct (mount_ok fl d b bm l u) as (f' & Hm & Hi' & Hfs' & Hb' & _ & _ & Hs).
  { eapply described_ext; [..|exact Hd].
    - apply Hview, (de_addressable _ _ _ _ _ _ _ Hd). by left.
    - apply Hview, (de_addressable _ _ _ _ _ _ _ Hd). by right; right.
    - intros s. apply Hout. }
  exists f1, d, f'. split_and!; [done|done|done|by rewrite Hfs', Hfs|by rewrite Hb', Hb|].
  intros s Hin. rewrite (proj1 (Hs s)). auto.
Qed.
End Theorems.

(** * A small formatted device *)
Section Sample.
#[local] Existing Instance debug_build.
#[local] Existing Instance dummy_device.
#[local] Existing Instance reference_crates.
#[local] Existing Instance reference_crates_ok.
#[local] Existing Instance debug_build_ok.
#[local] Instance sample_mount_device_ok : DeviceOk debug_build dummy_device := blank_ok.

(** The boot sector: FAT in sector 1, from sector 2 on eight clusters of one
    sector; the root directory in cluster 3. *)
Definition small_boot_sector : list Z :=
  splice (splice SAMPLE_BOOT_SECTOR 80 (concat (to_le_bytes 4 <$> [1; 1; 2; 8; 3]))) 109 [0].
(** The root directory: bitmap in cluster 2, up-case table in cluster 4, the
    label "A". *)
Definition small_root_dir : list Z :=
  [0x81; 0] ++ zeros 18 ++ to_le_bytes 4 2 ++ to_le_bytes 8 1 ++
  [0x82; 0] ++ zeros 18 ++ to_le_bytes 4 4 ++ to_le_bytes 8 512 ++
  [0x83; 1; 65; 0] ++ zeros 28 ++ zeros 416.
Definition small_device : @dev dummy_device := {|
  blocks := <[0%nat := small_boot_sector]> (<[3%nat := small_root_dir]> (blocks (blank 10)));
  write_count := 0 |}.

Definition small_boot : BootSector := {|
  partition_offset := 2048; volume_length := 15800320; BootSector.fat_offset := 1;
  fat_length := 1; BootSector.cluster_heap_offset := 2; BootSector.cluster_count := 8;
  BootSector.first_cluster_of_root_dir := 3; volume_serial_number := 0xEEDDB9EB;
  file_system_revision := 0x0100; volume_flags := VolumeDirty;
  bytes_per_sector := 512; BootSector.sectors_per_cluster := 1; number_of_fats := 1;
  drive_select := 0x80; percent_in_use := 0 |}.
Definition small_bitmap : AllocationBitmapDirEntry.t := {|
  AllocationBitmapDirEntry.bitmap_flags := 0; AllocationBitmapDirEntry.first_cluster := 2;
  AllocationBitmapDirEntry.data_length := 1 |}.
Definition small_upcase : UpcaseTableDirEntry.t := {|
  UpcaseTableDirEntry.table_checksum := 0; UpcaseTableDirEntry.first_cluster := 4;
  UpcaseTableDirEntry.data_length := 512 |}.

Lemma small_described :
  described 1 (content small_device) (addressable small_device) small_boot small_bitmap [65] small_upcase.
Proof.
  split; try done. intros s Hs. split; [cbn in Hs |- *; unfold len; cbn; lia|].
  apply (bool_decide_unpack _). vm_compute. exact I.
Qed.

Lemma mount_establishes_invariant_witness :
  ∃ f', mount (FileSystem_new small_device) = (f', Ok ()) ∧ vol_inv 1 f' ∧
    cluster_length (fs f') = 512.
Proof.
  destruct (mount_establishes_invariant 1 small_device small_boot small_bitmap [65] small_upcase
    small_described) as (f' & Hm & Hi & Hfs & _).
  exists f'. split; [exact Hm|]. split; [exact Hi|]. rewrite Hfs. reflexivity.
Defined.

(** Mount, unmount and mount again. *)
Lemma remount_shows_volume_witness :
  ∃ f f1 d f', mount (FileSystem_new small_device) = (f, Ok ()) ∧
    unmount f = (f1, Ok d) ∧ mount (FileSystem_new d) = (f', Ok ()) ∧ vol_inv 1 f' ∧
    vseen 1 f' 4 = vseen 1 f 4.
Proof.
  destruct (mount_ok 1 small_device small_boot small_bitmap [65] small_upcase small_described)
    as (f & Hm & Hi & Hfs & Hb & [Hc Ha] & _ & Hs).
  assert (Hv : ∀ s, volume_view 1 f s = content small_device s).
  { intros s. unfold volume_view. destruct (decide _); [apply Hs|apply Hc]. }
  destruct (remount_shows_volume 1 f small_boot small_bitmap [65] small_upcase Hi Hfs Hb)
    as (f1 & d & f' & Hu & Hm' & Hi' & _ & _ & Heq).
  { eapply described_ext; [apply Hv|apply Hv|intros s; apply Ha|exact small_described]. }
  exists f, f1, d, f'. split; [exact Hm|]. split; [exact Hu|]. split; [exact Hm'|]. split; [exact Hi'|].
  apply Heq. right; right. unfold data_region, heap_region, bitmap_region. rewrite Hfs, Hb.
  apply (bool_decide_unpack _). vm_compute. exact I.
Defined.
End Sample.
