(* ===== verification/VolumeAlloc.v ===== *)
(** * Changing the tables of a mounted volume

    What [Fat::set], [Allocator::mark_allocated] and [Allocator::allocate] do to
    a volume, together with the operation's list of touched sectors.  The list
    is complete ([tracked]) when every sector that is not on the device as
    readers see it is recorded; every operation keeps it so ([vol_tracks]). *)

From S2P Require Import Prelude Text Crates Errors Utils BootSector Device SlotCache Touched Fat Allocation AllocationSearch Regions Volume VolumeInv.
Import FileSystemDetails (cluster_length, sectors_per_cluster, cluster_heap_offset, fat_offset).

(** * Specification *)
Section Spec.
Context {cfg : Config} {crates : Crates} {bd : BlockDevice} {Hbd : DeviceOk cfg bd}.
Implicit Types (f : FileSystem) (s : Z) (t : FileDirty).

(** The list of touched sectors is complete. *)
Definition tracked (fl : Z) t f : Prop := ∀ s, in_volume fl f s → durable fl f s ∨ records t s.

(** The list grew by sectors of the volume, and has every sector that is no
    longer on the device. *)
Definition vol_tracks (fl : Z) t f t' f' : Prop :=
  dirty_ok t' ∧ extends (item_ok fl f) t t' ∧
  (∀ s, in_volume fl f s → durable fl f s → durable fl f' s ∨ records t' s).

(** A change of the volume through an operation's list: only sectors in [P]
    look different afterwards. *)
Record vol_op (fl : Z) (P : Z → Prop) t f t' f' : Prop := {
  op_inv : vol_inv fl f';
  op_step : vol_step fl P f f';
  op_tracks : vol_tracks fl t f t' f';
}.
End Spec.

(** * Lemmas *)
Section Lemmas.
Context {cfg : Config} {crates : Crates} {bd : BlockDevice}.
Context {Hcfg : ConfigOk cfg} {Hcr : CratesOk crates} {Hbd : DeviceOk cfg bd}.
Implicit Types (f : FileSystem) (s : Z) (t : FileDirty) (P : Z → Prop).

Lemma vol_tracks_trans fl P t0 f0 t1 f1 t2 f2 :
  vol_step fl P f0 f1 → vol_tracks fl t0 f0 t1 f1 → vol_tracks fl t1 f1 t2 f2 →
  vol_tracks fl t0 f0 t2 f2.
Proof.
  intros Hst (_ & He & Hs) (Ht & He' & Hs'). split; [done|split].
  - eapply extends_trans; [exact He|]. eapply extends_weaken; [|exact He'].
    intros x. apply (item_ok_step fl P f0 f1 x Hst).
  - intros s Hin Hd. destruct (Hs s Hin Hd) as [?|?]; [|right; by apply He'].
    apply Hs'; [|done]. by apply (in_volume_step fl P f0 f1 s Hst).
Qed.

Lemma vol_op_refl fl P t f : vol_inv fl f → dirty_ok t → vol_op fl P t f t f.
Proof.
  intros Hi Ht. split; [done|apply vol_step_refl|]. split; [done|split]; [apply extends_refl|auto].
Qed.
Lemma vol_op_trans fl P t0 f0 t1 f1 t2 f2 :
  vol_op fl P t0 f0 t1 f1 → vol_op fl P t1 f1 t2 f2 → vol_op fl P t0 f0 t2 f2.
Proof.
  intros [Hi Hs Ht] [Hi' Hs' Ht']. split; [done|by eapply vol_step_trans|].
  by eapply vol_tracks_trans.
Qed.
Lemma vol_op_weaken fl P (Q : Z → Prop) t f t' f' :
  (∀ s, P s → Q s) → vol_op fl P t f t' f' → vol_op fl Q t f t' f'.
Proof. intros HPQ []. split; [done|by eapply vol_step_weaken|done]. Qed.

(** A step that changes nothing readers see needs no entry in the list. *)
Lemma vol_op_same fl P t f f' :
  vol_inv fl f' → vol_same fl f f' → dirty_ok t → vol_op fl P t f t f'.
Proof.
  intros Hi Hst Ht. split; [done|by apply vol_same_step|].
  split; [done|split]; [apply extends_refl|]. intros s Hin Hd. left. apply (step_durable _ _ _ _ Hst); [done|tauto|done].
Qed.

(** A step that changes one sector, which is then recorded. *)
Lemma vol_op_one fl t f f' x :
  vol_inv fl f' → vol_step fl (λ s, s = Touched.sector x) f f' → dirty_ok t → item_ok fl f x →
  vol_op fl (λ s, s = Touched.sector x) t f (insert x t) f'.
Proof.
  intros Hi Hst Ht Hx. split; [done..|]. split; [auto with exfat|split; [auto with exfat|]].
  intros s Hin Hd. destruct (decide (s = Touched.sector x)) as [->|Hne].
  - right. auto with exfat.
  - left. by apply (step_durable _ _ _ _ Hst).
Qed.

(** The list stays complete and within the volume. *)
Lemma vol_op_tracked fl P t f t' f' :
  vol_op fl P t f t' f' → tracked fl t f → tracked fl t' f'.
Proof.
  intros [_ Hst (_ & He & Hs)] Htr s Hin%(in_volume_step _ _ _ _ _ Hst).
  destruct (Htr s Hin) as [?|?]; [auto|right; by apply He].
Qed.
Lemma vol_op_touched fl P t f t' f' :
  vol_op fl P t f t' f' → touched_ok fl f t → touched_ok fl f' t'.
Proof.
  intros [_ Hst (Ht & (_ & He & _) & _)] [_ Hl]. split; [done|].
  rewrite Forall_forall in Hl |- *. intros x [?|?]%He; apply (item_ok_step fl P f f' x Hst); auto.
Qed.

(** ** The FAT *)
Lemma vol_fat_set fl f t id v :
  vol_inv fl f → dirty_ok t → cluster_ok f id → 0 ≤ v < 2 ^ 32 →
  ∃ t' f', zoom (with_touched lfatdev) (Fat.set id v) (t, f) = ((t', f'), Ok ()) ∧
    vol_op fl (λ s, s = fat_sector f id) t f t' f' ∧
    (∀ id', cluster_ok f id' →
       fat_entry fl f' id' = if decide (id' = id) then v else fat_entry fl f id').
Proof.
  intros Hi Ht Hid Hv. destruct (fat_set fl f t id v Hi Ht Hid Hv) as (f' & Hf & Hi' & Hst & He).
  eexists _, f'. split_and!; [exact Hf| |exact He].
  apply (vol_op_one fl t f f' (TouchedSector_new Touched.Fat (fat_sector f id))); [done..|].
  by apply fat_sector_region.
Qed.

(** ** The bitmap *)

(** What the allocator reports of its own cache holds of the volume. *)
Lemma vol_bitmap_op fl f t t' al' d' :
  vol_inv fl f → dirty_ok t' →
  alloc_inv (Hbd:=region_device (bitmap_region f) (device f)) al' d' →
  bitmap al' = bitmap (allocator f) →
  frame (Hbd:=region_device (bitmap_region f) (device f)) (bitmap_sectors (allocator f))
    (acache (allocator f)) (device f) (acache al') d' →
  tracks (Hbd:=region_device (bitmap_region f) (device f)) t (allocator f) (device f) t' al' d' →
  vol_op fl (bitmap_region f) t f t' (put lallocdev (al', d') f).
Proof.
  intros Hi Ht' Hai Hb Hfr [He Htr]. destruct (bitmap_leave fl f al' d' _ Hi Hai Hb Hfr) as [Hi' Hst].
  split; [done..|]. split; [done|split].
  - eapply extends_weaken; [|exact He]. intros x [Hk Hx]. unfold item_ok. by rewrite Hk.
  - intros s Hin Hd. destruct (decide (bitmap_region f s)) as [Hbs|Hbs].
    + unfold durable in *. rewrite vseen_bitmap in Hd by done.
      rewrite vseen_bitmap by (done || by unfold bitmap_region in *; cbn; rewrite Hb).
      apply Htr; [|done]. split_and!; [by apply (vol_addressable _ _ Hi)|done|apply outside_refl].
    + left. by apply (step_durable _ _ _ _ Hst).
Qed.

Lemma vol_mark_allocated fl f t run v :
  vol_inv fl f → dirty_ok t → run_ok (allocator f) run →
  ∃ t' f', zoom (with_touched lallocdev) (mark_allocated run v) (t, f) = ((t', f'), Ok ()) ∧
    vol_op fl (bitmap_region f) t f t' f' ∧
    (∀ k, cluster_ok f k →
       is_allocated fl f' k = if decide (in_run run k) then v else is_allocated fl f k).
Proof.
  intros Hi Ht Hrun.
  destruct (mark_allocated_ok (Hbd:=region_device (bitmap_region f) (device f)) (allocator f)
    (device f) t run v (vol_alloc_inv fl f Hi) Ht Hrun)
    as (t' & al' & d' & Hm & Hai & (Hb & _ & Hfr) & Ht' & Htr & _ & Hal).
  pose proof (vol_bitmap_op fl f t t' al' d' Hi Ht' Hai Hb Hfr Htr) as Hop.
  exists t', (put lallocdev (al', d') f).
  split; [etransitivity; [apply zoom_eq; exact Hm|done]|]. split; [exact Hop|].
  intros k Hk. pose proof Hk as Hk'. unfold cluster_ok in Hk. rewrite <-(vol_limit fl f Hi) in Hk.
  rewrite !is_allocated_eq; [exact (Hal k Hk)|done..|apply Hop|done].
Qed.

(** Allocating hands out free clusters, marks exactly them, and touches the
    bitmap only; it fails only when no cluster is free. *)
Lemma vol_allocate fl f t chain count :
  vol_inv fl f → dirty_ok t → 0 < count → 2 ≤ search_start (allocator f) chain < 2 ^ 32 →
  ∃ t' f' o, zoom (with_touched lallocdev) (allocate chain count) (t, f) = ((t', f'), o) ∧
    vol_op fl (bitmap_region f) t f t' f' ∧
    match o with
    | Ok run =>
        (∀ k, in_run run k → cluster_ok f k ∧ is_allocated fl f k = false) ∧
        0 < cluster_count run ≤ count ∧
        (∀ k, cluster_ok f k →
           is_allocated fl f' k = if decide (in_run run k) then true else is_allocated fl f k)
    | Err DiskFull =>
        t' = t ∧ ∀ k, cluster_ok f k → is_allocated fl f k = true ∧ is_allocated fl f' k = true
    | _ => False
    end.
Proof.
  intros Hi Ht Hc Hst.
  destruct (allocate_ok (Hbd:=region_device (bitmap_region f) (device f)) (allocator f)
    (device f) t chain count (vol_alloc_inv fl f Hi) Ht Hc Hst)
    as (t' & al' & d' & o & Ha & Hai & Ht' & Hb & Hfr & Htr & Ho).
  pose proof (vol_bitmap_op fl f t t' al' d' Hi Ht' Hai Hb Hfr Htr) as Hop.
  exists t', (put lallocdev (al', d') f), o.
  split; [etransitivity; [apply zoom_eq; exact Ha|done]|]. split; [exact Hop|].
  assert (Hcl : ∀ k, cluster_ok f k ↔ 2 ≤ k < limit (allocator f))
    by (intros k; unfold cluster_ok; by rewrite (vol_limit fl f Hi)).
  assert (Heq : ∀ k, cluster_ok f k →
    is_allocated fl f k = allocated (allocator f) (device f) k ∧
    is_allocated fl (put lallocdev (al', d') f) k = allocated al' d' k).
  { intros k Hk. rewrite !is_allocated_eq; [done|apply Hop|done..]. }
  destruct o as [run|[]| |]; try done.
  - destruct Ho as ((H1 & H2 & H3) & Hle & Hfree & Hal). split_and!; [|lia|done|].
    + intros k Hk. assert (cluster_ok f k) by (apply Hcl; unfold in_run in Hk; lia).
      split; [done|]. destruct (Heq k) as [-> _]; [done|]. by apply Hfree.
    + intros k Hk. destruct (Heq k Hk) as [-> ->]. apply Hal. by apply Hcl.
  - destruct Ho as [-> Ho]. split; [done|]. intros k Hk. destruct (Heq k Hk) as [-> ->].
    apply Ho. by apply Hcl.
Qed.
End Lemmas.
