(* ===== verification/Directory.v ===== *)
(** * Walking, searching and writing directories

    [DirectoryEntryChain] and [DirSetWriter] of src/directory_entry.rs and the
    name filters, path lookup and listing of src/directory.rs.  A directory is
    a chain of clusters of 32-byte entries; a file is a set of consecutive
    entries (file, stream extension, names). *)

From S2P Require Import Prelude Text Crates Errors Utils Timestamp BootSector Device SlotCache Touched Fat Allocation DirectoryEntry Volume.
Open Scope string_scope.
Open Scope list_scope.
Open Scope Z_scope.
Import FileSystemDetails (cluster_heap_offset, sectors_per_cluster, first_cluster_of_root_dir).

Definition MAX_NAME_LEN : Z := 765.

Module Location.
Record t := { sector_id : Z; dir_entry_offset : Z }.
End Location.

(** [FileDetails] of src/file.rs *)
Module FileDetails.
Record t := {
  first_cluster : Z;
  data_length : Z;
  valid_data_length : Z;
  attributes : Z;
  location : Location.t;
  flags : Z;
  secondary_count : Z;
  created : EncodedTimestamp;
  modified : EncodedTimestamp;
  accessed : EncodedTimestamp;
}.
End FileDetails.

Module Chain.
(** [DirectoryEntryChain] *)
Record t := {
  cluster_id : Z;
  fs : FileSystemDetails.t;
  cluster_offset : Z;
  dir_entry_offset : Z;
  buf : list Z;
  fetch_required : bool;
  cursor : Z;
  num_entries : option Z;
}.
End Chain.

(** The trait [DirectoryEntryFilter], a record of its methods. *)
Record DirectoryEntryFilter := {
  hash : Z → Z → bool;
  file_name_length : Z → bool;
  file_name : list Z → Z → UpcaseTable → bool;
}.
Definition AllPassFilter : DirectoryEntryFilter := {|
  hash _ _ := true; file_name_length _ := true; file_name _ _ _ := true |}.

Module DirSetWriter.
Record t := { start : Location.t; current : Location.t; checksum : Z }.
Definition new (location : Location.t) : t :=
  {| start := location; current := location; checksum := 0 |}.
End DirSetWriter.

Section Ops.
Context {cfg : Config} {crates : Crates} {bd : BlockDevice} {fu : Fuel}.
Abbreviation FSM := (M FileSystem err) (only parsing).
Abbreviation CM := (M (Chain.t * FileSystem) err) (only parsing).
Abbreviation BM := (M (option (list Z) * (Chain.t * FileSystem)) err) (only parsing).

(** ** The filter for one name *)

(** the comparison loop of [ExactNameFilter::file_name] *)
Fixpoint names_match (table : UpcaseTable) (ls rs : list Z) : bool :=
  match ls, rs with
  | l :: ls, r :: rs =>
      if upcase table l =? upcase table r then names_match table ls rs else false
  | _, _ => true
  end.
(** [ExactNameFilter::new] and its methods *)
Definition ExactNameFilter (name : str) (table : UpcaseTable) (attributes : option Z)
    : outcome string DirectoryEntryFilter :=
  r ← encode_utf16_upcase_and_hash name table;
  let '(file_name_hash, file_name_count) := r in
  Ok {| hash h a :=
          match attributes with
          | Some wanted => (file_name_hash =? h) && contains a wanted
          | None => file_name_hash =? h
          end;
        file_name_length length := file_name_count =? length;
        file_name part ordinal t := names_match t (drop (Z.to_nat ordinal) (encode_utf16 name)) part |}.

(** ** The chain of entries *)
Definition dir_entries_per_block : Z := SIZE / RAW_ENTRY_LEN.

Definition chain_new_from_file_details (d : FileDetails.t) (f : FileSystemDetails.t)
    : outcome err Chain.t :=
  from_start ← sub u32 (Location.sector_id (FileDetails.location d)) (cluster_heap_offset f);
  q ← udiv from_start (sectors_per_cluster f);
  cluster_id ← add u32 2 q;
  cluster_offset ← urem from_start (sectors_per_cluster f);
  num_entries ← add usize (FileDetails.secondary_count d) 1;
  Ok {| Chain.cluster_id := cluster_id; Chain.fs := f; Chain.cluster_offset := cluster_offset;
        Chain.dir_entry_offset := Location.dir_entry_offset (FileDetails.location d);
        Chain.buf := zeros SIZE; Chain.fetch_required := true; Chain.cursor := 0;
        Chain.num_entries := Some num_entries |}.

Definition chain_new (cluster_id : Z) (f : FileSystemDetails.t) : Chain.t :=
  {| Chain.cluster_id := cluster_id; Chain.fs := f; Chain.cluster_offset := 0;
     Chain.dir_entry_offset := 0; Chain.buf := zeros SIZE; Chain.fetch_required := true;
     Chain.cursor := 0; Chain.num_entries := None |}.

Definition chain_sector_id (c : Chain.t) : outcome err Z :=
  sector_id ← get_heap_sector_id (Chain.fs c) (Chain.cluster_id c);
  add u32 sector_id (cast u32 (Chain.cluster_offset c)).

(** [c.cluster_id, c.cluster_offset, .. = ..] *)
Definition chain_at (cluster_id cluster_offset dir_entry_offset : Z) (fetch_required : bool)
    (c : Chain.t) : Chain.t :=
  {| Chain.cluster_id := cluster_id; Chain.fs := Chain.fs c; Chain.cluster_offset := cluster_offset;
     Chain.dir_entry_offset := dir_entry_offset; Chain.buf := Chain.buf c;
     Chain.fetch_required := fetch_required; Chain.cursor := Chain.cursor c;
     Chain.num_entries := Chain.num_entries c |}.
Definition put_chain (c : Chain.t) : CM () := modify (λ s, (c, snd s)).
Definition get_chain : CM Chain.t := gets fst.

(** The steps of [next]: past the end of the sector, past the end of the
    cluster (false: there is no next cluster), the fetch and the entry. *)
Definition next_sector : CM () :=
  c ← get_chain;
  if dir_entries_per_block <=? Chain.dir_entry_offset c then
    o ← lift (add usize (Chain.cluster_offset c) 1);
    put_chain (chain_at (Chain.cluster_id c) o 0 true c)
  else mret ().
Definition next_cluster : CM bool :=
  c ← get_chain;
  if cast usize (sectors_per_cluster (Chain.fs c)) <=? Chain.cluster_offset c then
    cluster_id ← zoom lsnd (zoom lfatdev (next_cluster_in_fat_chain (Chain.cluster_id c)));
    match cluster_id with
    | Some id => put_chain (chain_at id 0 0 true c) ;; mret true
    | None => mret false
    end
  else mret true.
Definition fetch_sector : CM () :=
  c ← get_chain;
  if Chain.fetch_required c then
    sector_id ← lift (chain_sector_id c);
    slot ← zoom lsnd (zoom ldata (fetch sector_id));
    put_chain {| Chain.cluster_id := Chain.cluster_id c; Chain.fs := Chain.fs c;
      Chain.cluster_offset := Chain.cluster_offset c;
      Chain.dir_entry_offset := Chain.dir_entry_offset c; Chain.buf := slot;
      Chain.fetch_required := false; Chain.cursor := Chain.cursor c;
      Chain.num_entries := Chain.num_entries c |}
  else mret ().
Definition take_entry : CM (RawDirEntry * Location.t) :=
  c ← get_chain;
  entry ← lift (index (as_chunks 32 (Chain.buf c)) (Chain.dir_entry_offset c));
  sector_id ← lift (chain_sector_id c);
  o ← lift (add usize (Chain.dir_entry_offset c) 1);
  n ← lift (add usize (Chain.cursor c) 1);
  put_chain {| Chain.cluster_id := Chain.cluster_id c; Chain.fs := Chain.fs c;
    Chain.cluster_offset := Chain.cluster_offset c; Chain.dir_entry_offset := o;
    Chain.buf := Chain.buf c; Chain.fetch_required := Chain.fetch_required c;
    Chain.cursor := n; Chain.num_entries := Chain.num_entries c |} ;;
  mret (entry, {| Location.sector_id := sector_id;
                  Location.dir_entry_offset := Chain.dir_entry_offset c |}).

Definition next : CM (option (RawDirEntry * Location.t)) :=
  c ← get_chain;
  if bool_decide (Chain.num_entries c = Some (Chain.cursor c)) then mret None
  else
    next_sector ;;
    more ← next_cluster;
    if more : bool then fetch_sector ;; e ← take_entry; mret (Some e) else mret None.

(** [next_file_dir_entry]: the [while let] loop on fuel *)
Fixpoint next_file_dir_entry_loop (n : nat) : CM (option (FileDirEntry.t * Location.t)) :=
  match n with
  | O => lift OutOfFuel
  | S n =>
      o ← next;
      match o with
      | None => mret None
      | Some (entry, location) =>
          b ← lift (index entry 0);
          match EntryType.from b with
          | EntryType.EndOfDirectory =>
              if is_end_of_directory entry then mret None else next_file_dir_entry_loop n
          | EntryType.FileAndDirectory =>
              file_entry ← lift (FileDirEntry_from entry);
              mret (Some (file_entry, location))
          | _ => next_file_dir_entry_loop n
          end
      end
  end.
Definition next_file_dir_entry : CM (option (FileDirEntry.t * Location.t)) :=
  next_file_dir_entry_loop fuel.

(** How reading the name entries of a set can end. *)
Inductive name_result :=
  | NameOk (name_units : list Z)  (* the whole name passed the filter *)
  | NameRejected                  (* [continue 'outer] *)
  | NameMissing.                  (* [return Ok(None)] *)

(** the ['inner] loop; [keep]: is there a buffer to decode the name into *)
Fixpoint read_name_loop (n : nat) (filter : DirectoryEntryFilter) (keep : bool)
    (name_length cursor : Z) (name_units : list Z) : CM name_result :=
  match n with
  | O => lift OutOfFuel
  | S n =>
      o ← next;
      match o with
      | None => mret NameMissing
      | Some (entry, _) =>
          e ← lift (try_into FileNameDirEntry_from entry EntryType.Filename);
          match e with
          | None => mret NameMissing
          | Some e =>
              rest ← lift (sub usize name_length cursor);
              let l := Z.min rest (len (FileNameDirEntry.file_name e)) in
              part ← lift (slice (FileNameDirEntry.file_name e) 0 l);
              table ← gets (upcase_table ∘ snd);
              if negb (file_name filter part cursor table) then mret NameRejected
              else
                next_cursor ← lift (add usize cursor l);
                name_units ← (if keep then lift (copy_into name_units cursor next_cursor part)
                              else mret name_units);
                if next_cursor =? name_length then mret (NameOk name_units)
                else read_name_loop n filter keep name_length next_cursor name_units
          end
      end
  end.
(** a name has at most 255 units, 15 per entry *)
Definition NAME_ROUNDS : nat := 18.

(** [next_file_entry]; the first component of the state is [name_buf] *)
Fixpoint next_file_entry_loop (n : nat) (filter : DirectoryEntryFilter)
    : BM (option (FileDetails.t * Z)) :=
  match n with
  | O => lift OutOfFuel
  | S n =>
      o ← zoom lsnd next_file_dir_entry;
      match o with
      | None => mret None
      | Some (file_dir_entry, location) =>
          o ← zoom lsnd next;
          match o with
          | None => mret None
          | Some (raw, _) =>
              s ← lift (try_into StreamExtensionDirEntry_from raw EntryType.StreamExtension);
              match s with
              | None => mret None
              | Some stream_entry =>
                  let name_length := StreamExtensionDirEntry.name_length stream_entry in
                  if negb (hash filter (StreamExtensionDirEntry.name_hash stream_entry)
                             (FileDirEntry.file_attributes file_dir_entry))
                  then next_file_entry_loop n filter
                  else if negb (file_name_length filter name_length)
                  then next_file_entry_loop n filter
                  else
                    keep ← gets (λ s, bool_decide (is_Some (fst s)));
                    r ← zoom lsnd (read_name_loop NAME_ROUNDS filter keep name_length 0
                                     (replicate 255 0));
                    match r with
                    | NameMissing => mret None
                    | NameRejected => next_file_entry_loop n filter
                    | NameOk name_units =>
                        let details := {|
                          FileDetails.attributes := FileDirEntry.file_attributes file_dir_entry;
                          FileDetails.data_length := StreamExtensionDirEntry.data_length stream_entry;
                          FileDetails.valid_data_length :=
                            StreamExtensionDirEntry.valid_data_length stream_entry;
                          FileDetails.first_cluster :=
                            StreamExtensionDirEntry.first_cluster stream_entry;
                          FileDetails.location := location;
                          FileDetails.flags :=
                            StreamExtensionDirEntry.general_secondary_flags stream_entry;
                          FileDetails.secondary_count := FileDirEntry.secondary_count file_dir_entry;
                          FileDetails.accessed := FileDirEntry.accessed file_dir_entry;
                          FileDetails.created := FileDirEntry.created file_dir_entry;
                          FileDetails.modified := FileDirEntry.modified file_dir_entry |} in
                        b ← gets fst;
                        match b with
                        | None => mret (Some (details, 0))
                        | Some buf =>
                            units ← lift (slice name_units 0 name_length);
                            let '(buf, r) := decode_utf16_to_utf8 units buf in
                            modify (λ s, (Some buf, snd s)) ;;
                            n ← lift r;
                            mret (Some (details, n))
                        end
                    end
              end
          end
      end
  end.
Definition next_file_entry (filter : DirectoryEntryFilter) : BM (option (FileDetails.t * Z)) :=
  next_file_entry_loop fuel filter.

(** [entries.next_file_entry(fs, &filter, None)] on a fresh chain *)
Definition find_in_directory (cluster_id : Z) (filter : DirectoryEntryFilter)
    : FSM (option FileDetails.t) :=
  f ← gets Volume.fs;
  r ← with_local (None, chain_new cluster_id f)
        (λ '((b, c), s), let '((b', (c', s')), o) := next_file_entry filter (b, (c, s)) in
                         (((b', c'), s'), o));
  mret (fst <$> snd r).

(** ** Path lookup *)
Fixpoint leaf_loop (parts : list str) (cluster_id : Z) (file_attributes : option Z)
    : FSM (option FileDetails.t) :=
  match parts with
  | [] => mret None
  | part :: parts =>
      let is_last := match parts with [] => true | _ => false end in
      table ← gets upcase_table;
      filter ← lift (map_err_o InvalidFileName
        (ExactNameFilter part table (if is_last then file_attributes else Some Directory)));
      file_details ← find_in_directory cluster_id filter;
      match file_details with
      | None => mret None
      | Some d =>
          if is_last then mret (Some d)
          else if contains (FileDetails.attributes d) Directory
          then leaf_loop parts (FileDetails.first_cluster d) file_attributes
          else mret None
      end
  end.
Definition get_leaf_file_entry (path : str) (file_attributes : option Z)
    : FSM (option FileDetails.t) :=
  f ← gets Volume.fs;
  leaf_loop (path_to_iter path) (first_cluster_of_root_dir f) file_attributes.

Definition is_root_directory (path : str) : bool :=
  match path_to_iter path with [] => true | _ => false end.

(** ** Listing *)
Definition directory_list (path : str) : FSM Chain.t :=
  f ← gets Volume.fs;
  cluster_id ←
    (if is_root_directory path then mret (first_cluster_of_root_dir f)
     else
       o ← get_leaf_file_entry path (Some Directory);
       match o with
       | Some d =>
           if contains (FileDetails.attributes d) Directory
           then mret (FileDetails.first_cluster d) else throw DirectoryNotFound
       | None => throw DirectoryNotFound
       end);
  f ← gets Volume.fs;
  mret (chain_new cluster_id f).

(** [DirectoryIterator::next_entry]: the metadata and the name *)
Definition next_entry : BM (option (FileDetails.t * str)) :=
  entry ← next_file_entry AllPassFilter;
  match entry with
  | None => mret None
  | Some (details, utf8_name_len) =>
      b ← gets fst;
      bytes ← lift (slice (default [] b) 0 utf8_name_len);
      match from_utf8 bytes with
      | Some name => mret (Some (details, name))
      | None => throw Utf8Error
      end
  end.

(** ** Writing a directory set; the state is the writer, the caller's dirty
    list and the file system *)
Abbreviation WM := (M (DirSetWriter.t * (FileDirty * FileSystem)) err) (only parsing).

(** [next_dir_entry_location] *)
Definition next_dir_entry_location (w : DirSetWriter.t) : outcome err DirSetWriter.t :=
  let cur := DirSetWriter.current w in
  o ← add usize (Location.dir_entry_offset cur) 1;
  if o =? SIZE / RAW_ENTRY_LEN then
    s ← add u32 (Location.sector_id cur) 1;
    Ok {| DirSetWriter.start := DirSetWriter.start w;
          DirSetWriter.current := {| Location.sector_id := s; Location.dir_entry_offset := 0 |};
          DirSetWriter.checksum := DirSetWriter.checksum w |}
  else
    Ok {| DirSetWriter.start := DirSetWriter.start w;
          DirSetWriter.current := {| Location.sector_id := Location.sector_id cur;
                                     Location.dir_entry_offset := o |};
          DirSetWriter.checksum := DirSetWriter.checksum w |}.
Definition add_no_write (dir_entry : RawDirEntry) (is_file_dir : bool) : WM () :=
  w ← gets fst;
  w ← lift (next_dir_entry_location w);
  modify (λ s, ({| DirSetWriter.start := DirSetWriter.start w;
                   DirSetWriter.current := DirSetWriter.current w;
                   DirSetWriter.checksum :=
                     calc_checksum dir_entry is_file_dir (DirSetWriter.checksum w) |}, snd s)).

(** [slot.as_mut_slice()[offset..offset + 32].copy_from_slice(entry)] *)
Definition put_entry (offset : Z) (entry : RawDirEntry) (b : list Z) : outcome err (list Z) :=
  last ← add usize offset RAW_ENTRY_LEN;
  copy_into b offset last entry.

Definition add_entry (dir_entry : RawDirEntry) (is_file_dir : bool) : WM () :=
  w ← gets fst;
  let cur := DirSetWriter.current w in
  offset ← lift (mul usize (Location.dir_entry_offset cur) RAW_ENTRY_LEN);
  zoom lsnd (zoom lsnd (zoom ldata
    (update (Location.sector_id cur) (put_entry offset dir_entry)))) ;;
  zoom lsnd (touch Dir (Location.sector_id cur)) ;;
  add_no_write dir_entry is_file_dir.

(** [finish]: the file entry again, with the checksum in place *)
Definition finish (file_dir : RawDirEntry) : WM () :=
  w ← gets fst;
  let start := DirSetWriter.start w in
  offset ← lift (mul usize (Location.dir_entry_offset start) RAW_ENTRY_LEN);
  zoom lsnd (zoom lsnd (zoom ldata
    (update (Location.sector_id start) (λ b,
       b ← put_entry offset file_dir b;
       copy_into b (offset + 2) (offset + 4) (to_le_bytes 2 (DirSetWriter.checksum w)))))) ;;
  zoom lsnd (touch Dir (Location.sector_id start)).
End Ops.
