(* ===== verification/FileSystem.v ===== *)
(** * src/file_system.rs: the operations on files and directories

    Creating, finding, truncating, renaming and deleting entries.  (The state,
    mounting and flushing are in Volume.v; the operations that open a [File]
    are in Api.v.)  Operations that take [&mut impl Touched] have the caller's
    dirty list as the first component of their state. *)

From S2P Require Import Prelude Text Crates Errors Utils Timestamp BootSector Device SlotCache Touched Fat Allocation DirectoryEntry Volume Directory.
Open Scope string_scope.
Open Scope list_scope.
Open Scope Z_scope.
Import FileSystemDetails (cluster_length, cluster_heap_offset, sectors_per_cluster,
  first_cluster_of_root_dir).

Section Ops.
Context {cfg : Config} {crates : Crates} {bd : BlockDevice} {fu : Fuel}.
Abbreviation FSM := (M FileSystem err) (only parsing).
Abbreviation TM := (M (FileDirty * FileSystem) err) (only parsing).

(** a walk of a directory with a local [DirectoryEntryChain], a local
    [DirSetWriter], a dirty list and the file system *)
Abbreviation EM := (M (Chain.t * (DirSetWriter.t * (FileDirty * FileSystem))) err) (only parsing).
Definition lchain : lens (Chain.t * (DirSetWriter.t * (FileDirty * FileSystem)))
                         (Chain.t * FileSystem) :=
  Lens (λ s, (fst s, snd (snd (snd s))))
       (λ t s, (fst t, (fst (snd s), (fst (snd (snd s)), snd t)))).

(** ** Clusters of a file *)

(** the [for _ in 0..num_clusters] loop along the FAT *)
Fixpoint follow_fat (n : nat) (cluster_id : Z) : FSM Z :=
  match n with
  | O => mret cluster_id
  | S n =>
      o ← zoom lfatdev (next_cluster_in_fat_chain cluster_id);
      match o with
      | Some x => follow_fat n x
      | None => throw EndOfFatChain
      end
  end.

Definition get_cluster_id_at (cursor : Z) (d : FileDetails.t) : FSM Z :=
  if cursor =? 0 then mret (FileDetails.first_cluster d)
  else
    f ← gets fs;
    q ← lift (udiv (cursor - 1) (cluster_length f));
    let num_clusters := cast u32 q in
    if contains (FileDetails.flags d) NoFatChain
    then lift (add u32 (FileDetails.first_cluster d) num_clusters)
    else follow_fat (Z.to_nat num_clusters) (FileDetails.first_cluster d).

Definition get_stored_chain (d : FileDetails.t) : FSM StoredChain :=
  f ← gets fs;
  let no_fat_chain := contains (FileDetails.flags d) NoFatChain in
  q ← lift (div_ceil (FileDetails.data_length d) (cluster_length f));
  let cluster_count := cast u32 q in
  if (FileDetails.first_cluster d =? NO_CLUSTER_ID) || (cluster_count =? 0) then mret Empty
  else if no_fat_chain then mret (Contiguous (FileDetails.first_cluster d) cluster_count)
  else
    last ← get_cluster_id_at (FileDetails.data_length d) d;
    mret (FatChain (FileDetails.first_cluster d) last cluster_count).

(** ** Finding *)
Definition find_file_inner (path : str) (file_attributes : option Z) : FSM FileDetails.t :=
  o ← get_leaf_file_entry path file_attributes;
  match o with
  | Some d => mret d
  | None => throw FileNotFound
  end.
Definition find_file_or_directory (path : str) (file_attributes : option Z) : FSM FileDetails.t :=
  find_file_inner path file_attributes.

(** the scan of [find_empty_dir_entry_set]: [counter] unused entries in a
    row, the first at [start] *)
Fixpoint find_empty_loop (n : nat) (set_len counter : Z) (start : option Location.t)
    : M (Chain.t * FileSystem) err (option Location.t) :=
  match n with
  | O => lift OutOfFuel
  | S n =>
      o ← next;
      match o with
      | None => mret start
      | Some (entry, location) =>
          b ← lift (index entry 0);
          match EntryType.from b with
          | EntryType.EndOfDirectory | EntryType.Unused _ =>
              let start := match start with None => Some location | s => s end in
              counter ← lift (add usize counter 1);
              if counter =? set_len then mret start else find_empty_loop n set_len counter start
          | _ => find_empty_loop n set_len 0 None
          end
      end
  end.
Definition find_empty_dir_entry_set (cluster_id set_len : Z) : FSM Location.t :=
  f ← gets fs;
  r ← with_local (chain_new cluster_id f) (find_empty_loop fuel set_len 0 None);
  match snd r with
  | Some location => mret location
  | None => throw DirectoryFull
  end.

Fixpoint no_children_loop (n : nat) : M (Chain.t * FileSystem) err () :=
  match n with
  | O => lift OutOfFuel
  | S n =>
      o ← next;
      match o with
      | None => mret ()
      | Some (entry, _) =>
          b ← lift (index entry 0);
          match EntryType.from b with
          | EntryType.EndOfDirectory =>
              if is_end_of_directory entry then mret () else no_children_loop n
          | EntryType.Unused _ => no_children_loop n
          | _ => throw DirectoryNotEmpty
          end
      end
  end.
Definition confirm_has_no_children (d : FileDetails.t) : FSM () :=
  if contains (FileDetails.attributes d) Directory then
    f ← gets fs;
    with_local (chain_new (FileDetails.first_cluster d) f) (no_children_loop fuel) ;;
    mret ()
  else mret ().

(** ** Writing entries *)

(** the name entries of [create_file_dir_entry_at] *)
Fixpoint write_names (n : nat) (iter : list Z) : M (DirSetWriter.t * (FileDirty * FileSystem)) err () :=
  match n with
  | O => lift OutOfFuel
  | S n =>
      let '(iter, chunk) := next_chunk 15 iter in
      match chunk with
      | None => mret ()
      | Some (file_name, _) =>
          add_entry (FileNameDirEntry.serialize
            {| FileNameDirEntry.general_secondary_flags := 0;
               FileNameDirEntry.file_name := file_name |}) false ;;
          write_names n iter
      end
  end.

(** the entries and the details it makes *)
Definition created_file_entry (timestamp : EncodedTimestamp) (secondary_count file_attributes : Z) : FileDirEntry.t := {|
  FileDirEntry.secondary_count := secondary_count;
  FileDirEntry.set_checksum := 0;
  FileDirEntry.file_attributes := file_attributes;
  FileDirEntry.create_timestamp := packed timestamp;
  FileDirEntry.last_modified_timestamp := packed timestamp;
  FileDirEntry.last_accessed_timestamp := packed timestamp;
  FileDirEntry.create_10ms_increment := increment_10ms timestamp;
  FileDirEntry.last_modified_10ms_increment := increment_10ms timestamp;
  FileDirEntry.create_utc_offset := utc_offset timestamp;
  FileDirEntry.last_modified_utc_offset := utc_offset timestamp;
  FileDirEntry.last_accessed_utc_offset := utc_offset timestamp |}.
Definition created_stream_entry (file_name_char_count name_hash first_cluster stream_ext_flags valid_data_length
    data_length : Z) : StreamExtensionDirEntry.t := {|
  StreamExtensionDirEntry.general_secondary_flags := stream_ext_flags;
  StreamExtensionDirEntry.name_length := cast u8 file_name_char_count;
  StreamExtensionDirEntry.name_hash := name_hash;
  StreamExtensionDirEntry.valid_data_length := valid_data_length;
  StreamExtensionDirEntry.first_cluster := first_cluster;
  StreamExtensionDirEntry.data_length := data_length |}.
Definition created_details (timestamp : EncodedTimestamp) (location : Location.t)
    (secondary_count first_cluster file_attributes stream_ext_flags valid_data_length data_length : Z) : FileDetails.t := {|
  FileDetails.attributes := file_attributes;
  FileDetails.data_length := data_length;
  FileDetails.valid_data_length := valid_data_length;
  FileDetails.first_cluster := first_cluster;
  FileDetails.flags := stream_ext_flags;
  FileDetails.location := location;
  FileDetails.secondary_count := secondary_count;
  FileDetails.accessed := timestamp;
  FileDetails.modified := timestamp;
  FileDetails.created := timestamp |}.

Definition create_file_dir_entry_at (name : str) (directory_cluster_id first_cluster
    file_attributes stream_ext_flags valid_data_length data_length : Z) : TM FileDetails.t :=
  table ← gets (upcase_table ∘ snd);
  r ← lift (map_err_o InvalidFileName (encode_utf16_upcase_and_hash name table));
  let '(name_hash, file_name_char_count) := r in
  set_len ← lift (calc_dir_entry_set_len file_name_char_count);
  location ← zoom lsnd (find_empty_dir_entry_set directory_cluster_id set_len);
  secondary_count ← lift (sub u8 (cast u8 set_len) 1);
  timestamp ← zoom lsnd get_current_timestamp;
  let file := created_file_entry timestamp secondary_count file_attributes in
  let file_dir := FileDirEntry.serialize file in
  let stream_ext := created_stream_entry file_name_char_count name_hash first_cluster stream_ext_flags
                      valid_data_length data_length in
  let units := encode_utf16 name in
  with_local (DirSetWriter.new location)
    (add_entry file_dir true ;;
     add_entry (StreamExtensionDirEntry.serialize stream_ext) false ;;
     write_names (S (length units)) units ;;
     finish file_dir) ;;
  mret (created_details timestamp location secondary_count first_cluster file_attributes stream_ext_flags
          valid_data_length data_length).

(** [for sector_id in first_sector..first_sector + sectors_per_cluster] *)
Definition zero_cluster (cluster_id : Z) : TM () :=
  f ← gets (fs ∘ snd);
  first_sector ← lift (get_heap_sector_id f cluster_id);
  last ← lift (add u32 first_sector (sectors_per_cluster f));
  for_each (seqZ first_sector (last - first_sector)) (λ sector_id,
    zoom lsnd (zoom ldata (update sector_id (λ b, Ok (replicate (length b) 0)))) ;;
    touch Dir sector_id).

(** the [_] case of [get_or_create_directory]'s match: a missing directory *)
Definition create_directory_in (parent : Z) (dir_name : str) : TM Z :=
  run ← zoom lsnd (zoom lallocdev (find_free_clusters None 1 LongestRun));
  zoom (with_touched lallocdev) (mark_allocated run true) ;;
  zero_cluster (first_cluster run) ;;
  f ← gets (fs ∘ snd);
  create_file_dir_entry_at dir_name parent (first_cluster run) Directory
    (flag_union AllocationPossible NoFatChain) (cluster_length f) (cluster_length f) ;;
  mret (first_cluster run).

Fixpoint get_or_create_loop (names : list str) (cluster_id : Z) : TM Z :=
  match names with
  | [] => mret cluster_id
  | dir_name :: names =>
      table ← gets (upcase_table ∘ snd);
      filter ← lift (map_err_o InvalidFileName (ExactNameFilter dir_name table (Some Directory)));
      file_details ← zoom lsnd (find_in_directory cluster_id filter);
      match file_details with
      | Some d => get_or_create_loop names (FileDetails.first_cluster d)
      | None =>
          cluster_id ← create_directory_in cluster_id dir_name;
          get_or_create_loop names cluster_id
      end
  end.
Definition get_or_create_directory (path : str) : TM Z :=
  f ← gets (fs ∘ snd);
  get_or_create_loop (path_to_iter path) (first_cluster_of_root_dir f).

Definition create_file (path : str) : FSM FileDetails.t :=
  let '(dir_path, file_or_dir_name) := split_path path in
  r ← with_local FileDirty_new
    (directory_cluster_id ← get_or_create_directory dir_path;
     d ← create_file_dir_entry_at file_or_dir_name directory_cluster_id NO_CLUSTER_ID Archive
           (flag_union AllocationPossible NoFatChain) 0 0;
     FileDirty_flush ;;
     mret d);
  mret (snd r).

(** [mark_directory_entry_set_unused]: clear the in-use bit of each entry *)
Definition clear_in_use (at_byte : Z) (b : list Z) : outcome err (list Z) :=
  x ← index b at_byte;
  set_index b at_byte (Z.land x 0x7F).
Fixpoint mark_unused_loop (n : nat) (sector_id offset : Z) : TM () :=
  match n with
  | O => mret ()
  | S n =>
      r ← lift (if offset =? SIZE / RAW_ENTRY_LEN
                then s ← add u32 sector_id 1; Ok (s, 0) else Ok (sector_id, offset));
      let '(sector_id, offset) := r in
      at_byte ← lift (mul usize offset RAW_ENTRY_LEN);
      zoom lsnd (zoom ldata (update sector_id (clear_in_use at_byte))) ;;
      touch Dir sector_id ;;
      offset ← lift (add usize offset 1);
      mark_unused_loop n sector_id offset
  end.
Definition mark_directory_entry_set_unused (location : Location.t) (num_entries : Z) : TM () :=
  mark_unused_loop (Z.to_nat num_entries) (Location.sector_id location)
    (Location.dir_entry_offset location).

(** ** Truncating *)

(** a set has at most 256 entries *)
Definition ENTRY_ROUNDS : nat := 257.

(** the [while let] loop of [truncate_file]; returns [file_dir] *)
Fixpoint truncate_loop (n : nat) (d : FileDetails.t) (count : Z) (file_dir : option RawDirEntry)
    : EM (option RawDirEntry) :=
  match n with
  | O => lift OutOfFuel
  | S n =>
      o ← zoom lchain next;
      match o with
      | None => mret file_dir
      | Some (dir_entry, _) =>
          file_dir ←
            (if count =? 0 then
               zoom lsnd (add_no_write dir_entry true) ;;
               mret (Some dir_entry)
             else if count =? 1 then
               stream_ext ← lift (StreamExtensionDirEntry_from dir_entry);
               zoom lsnd (add_entry (StreamExtensionDirEntry.serialize {|
                 StreamExtensionDirEntry.general_secondary_flags :=
                   StreamExtensionDirEntry.general_secondary_flags stream_ext;
                 StreamExtensionDirEntry.name_length := StreamExtensionDirEntry.name_length stream_ext;
                 StreamExtensionDirEntry.name_hash := StreamExtensionDirEntry.name_hash stream_ext;
                 StreamExtensionDirEntry.valid_data_length := FileDetails.valid_data_length d;
                 StreamExtensionDirEntry.first_cluster := FileDetails.first_cluster d;
                 StreamExtensionDirEntry.data_length := FileDetails.data_length d |}) false) ;;
               mret file_dir
             else
               zoom lsnd (add_no_write dir_entry false) ;;
               mret file_dir);
          truncate_loop n d (count + 1) file_dir
      end
  end.

(** [truncate_file]: the updated [file_details] *)
Definition truncate_file (d : FileDetails.t) (length : Z) : FSM FileDetails.t :=
  if 0 <? length then panic (* unimplemented! *)
  else
    stored_chain ← get_stored_chain d;
    let d' := {|
      FileDetails.attributes := FileDetails.attributes d;
      FileDetails.data_length := length;
      FileDetails.valid_data_length := Z.min (FileDetails.valid_data_length d) length;
      FileDetails.first_cluster := NO_CLUSTER_ID;
      FileDetails.flags := FileDetails.flags d;
      FileDetails.location := FileDetails.location d;
      FileDetails.secondary_count := FileDetails.secondary_count d;
      FileDetails.accessed := FileDetails.accessed d;
      FileDetails.modified := FileDetails.modified d;
      FileDetails.created := FileDetails.created d |} in
    with_local FileDirty_new
      (f ← gets (fs ∘ snd);
       chain ← lift (chain_new_from_file_details d' f);
       with_local (DirSetWriter.new (FileDetails.location d'))
         (r ← with_local chain (truncate_loop ENTRY_ROUNDS d' 0 None);
          match snd r with
          | Some file_dir => finish file_dir
          | None => mret ()
          end) ;;
       zoom (with_touched lfree) (free stored_chain) ;;
       FileDirty_flush) ;;
    mret d'.

(** ** Deleting *)
Definition delete_inner (d : FileDetails.t) : FSM () :=
  confirm_has_no_children d ;;
  with_local FileDirty_new
    (chain ← zoom lsnd (get_stored_chain d);
     zoom (with_touched lfree) (free chain) ;;
     num_entries ← lift (add usize (FileDetails.secondary_count d) 1);
     mark_directory_entry_set_unused (FileDetails.location d) num_entries ;;
     FileDirty_flush) ;;
  mret ().

(** ** The public operations that do not open a file *)
Definition exists_ (path : str) : FSM bool :=
  mount ;;
  r ← try_ (find_file_or_directory path None);
  match r with
  | inr _ => mret true
  | inl FileNotFound => mret false
  | inl DirectoryNotFound => mret false
  | inl e => throw e
  end.

Definition read_dir (path : str) : FSM Chain.t := mount ;; directory_list path.

Definition remove_file (path : str) : FSM () :=
  mount ;;
  d ← find_file_inner path (Some Archive);
  delete_inner d.

Definition remove_dir (path : str) : FSM () :=
  mount ;;
  d ← find_file_inner path (Some Directory);
  delete_inner d.

Definition create_directory (path : str) : FSM () :=
  mount ;;
  with_local FileDirty_new
    (get_or_create_directory path ;;
     FileDirty_flush) ;;
  mret ().

Definition rename (from_path to_path : str) : FSM () :=
  mount ;;
  d ← find_file_inner from_path None;
  r ← try_ (find_file_inner to_path None);
  match r with
  | inr _ => throw AlreadyExists
  | inl _ =>
      let '(dir_path, file_or_dir_name) := split_path to_path in
      with_local FileDirty_new
        (directory_cluster_id ← get_or_create_directory dir_path;
         create_file_dir_entry_at file_or_dir_name directory_cluster_id
           (FileDetails.first_cluster d) (FileDetails.attributes d) (FileDetails.flags d)
           (FileDetails.valid_data_length d) (FileDetails.data_length d) ;;
         num_entries ← lift (add usize (FileDetails.secondary_count d) 1);
         mark_directory_entry_set_unused (FileDetails.location d) num_entries ;;
         FileDirty_flush) ;;
      mret ()
  end.
End Ops.
