(* ===== verification/File.v ===== *)
(** * src/file.rs: open files

    A [File] caches the place of its cursor (cluster and bytes left in it), its
    cluster chain and its dirty sectors.  Its operations run on the file and
    the file system; [read] also has the caller's buffer as the first component
    of its state. *)

From S2P Require Import Prelude Text Crates Errors Utils Timestamp BootSector Device SlotCache Touched Fat Allocation DirectoryEntry Volume Directory FileSystem.
Open Scope string_scope.
Open Scope list_scope.
Open Scope Z_scope.
Import FileSystemDetails (cluster_length).

Module OpenOptions.
Record t := { read : bool; write : bool; append : bool; truncate : bool; create : bool;
              create_new : bool }.
Definition new : t := {| read := false; write := false; append := false; truncate := false;
                         create := false; create_new := false |}.
Definition set_read (b : bool) (o : t) : t := {| read := b; write := write o; append := append o;
  truncate := truncate o; create := create o; create_new := create_new o |}.
Definition set_write (b : bool) (o : t) : t := {| read := read o; write := b; append := append o;
  truncate := truncate o; create := create o; create_new := create_new o |}.
Definition set_append (b : bool) (o : t) : t := {| read := read o; write := write o; append := b;
  truncate := truncate o; create := create o; create_new := create_new o |}.
Definition set_truncate (b : bool) (o : t) : t := {| read := read o; write := write o;
  append := append o; truncate := b; create := create o; create_new := create_new o |}.
Definition set_create (b : bool) (o : t) : t := {| read := read o; write := write o;
  append := append o; truncate := truncate o; create := b; create_new := create_new o |}.
Definition set_create_new (b : bool) (o : t) : t := {| read := read o; write := write o;
  append := append o; truncate := truncate o; create := create o; create_new := b |}.
End OpenOptions.

(** [Metadata] *)
Section Metadata.
Context {cfg : Config} {crates : Crates} {E : Type}.
Record Metadata := { details_of : FileDetails.t }.
Definition metadata_len (m : Metadata) : Z := FileDetails.data_length (details_of m).
Definition is_empty (m : Metadata) : bool := FileDetails.data_length (details_of m) =? 0.
Definition is_dir (m : Metadata) : bool := contains (FileDetails.attributes (details_of m)) Directory.
Definition is_file (m : Metadata) : bool := contains (FileDetails.attributes (details_of m)) Archive.
Definition created (m : Metadata) : outcome E Timestamp := decode (FileDetails.created (details_of m)).
Definition accessed (m : Metadata) : outcome E Timestamp := decode (FileDetails.accessed (details_of m)).
Definition modified (m : Metadata) : outcome E Timestamp := decode (FileDetails.modified (details_of m)).
End Metadata.

Record File := {
  details : FileDetails.t;
  current_cluster : Z;
  remaining_bytes_in_cluster : Z;
  cursor : Z;
  open_options : OpenOptions.t;
  chain : StoredChain;
  touched : FileDirty;
}.

(** ** Assigning to single fields *)
Definition set_position (current remaining cur : Z) (f : File) : File :=
  {| details := details f; current_cluster := current; remaining_bytes_in_cluster := remaining;
     cursor := cur; open_options := open_options f; chain := chain f; touched := touched f |}.
Definition set_details (d : FileDetails.t) (f : File) : File :=
  {| details := d; current_cluster := current_cluster f;
     remaining_bytes_in_cluster := remaining_bytes_in_cluster f; cursor := cursor f;
     open_options := open_options f; chain := chain f; touched := touched f |}.
Definition set_chain (c : StoredChain) (f : File) : File :=
  {| details := details f; current_cluster := current_cluster f;
     remaining_bytes_in_cluster := remaining_bytes_in_cluster f; cursor := cursor f;
     open_options := open_options f; chain := c; touched := touched f |}.
Definition set_touched (t : FileDirty) (f : File) : File :=
  {| details := details f; current_cluster := current_cluster f;
     remaining_bytes_in_cluster := remaining_bytes_in_cluster f; cursor := cursor f;
     open_options := open_options f; chain := chain f; touched := t |}.
Definition with_lengths (valid_data_length data_length : Z) (d : FileDetails.t) : FileDetails.t :=
  {| FileDetails.first_cluster := FileDetails.first_cluster d; FileDetails.data_length := data_length;
     FileDetails.valid_data_length := valid_data_length;
     FileDetails.attributes := FileDetails.attributes d;
     FileDetails.location := FileDetails.location d; FileDetails.flags := FileDetails.flags d;
     FileDetails.secondary_count := FileDetails.secondary_count d;
     FileDetails.created := FileDetails.created d; FileDetails.modified := FileDetails.modified d;
     FileDetails.accessed := FileDetails.accessed d |}.
Definition with_flags (flags : Z) (d : FileDetails.t) : FileDetails.t :=
  {| FileDetails.first_cluster := FileDetails.first_cluster d;
     FileDetails.data_length := FileDetails.data_length d;
     FileDetails.valid_data_length := FileDetails.valid_data_length d;
     FileDetails.attributes := FileDetails.attributes d;
     FileDetails.location := FileDetails.location d; FileDetails.flags := flags;
     FileDetails.secondary_count := FileDetails.secondary_count d;
     FileDetails.created := FileDetails.created d; FileDetails.modified := FileDetails.modified d;
     FileDetails.accessed := FileDetails.accessed d |}.

(** [buf[start..]] of a buffer *)
Definition lslice {A S} (start : nat) : lens (list A * S) (list A * S) :=
  Lens (λ s, (drop start (fst s), snd s)) (λ t s, (take start (fst s) ++ fst t, snd t)).

Section Ops.
Context {cfg : Config} {crates : Crates} {bd : BlockDevice} {fu : Fuel}.
Abbreviation FM := (M (File * FileSystem) err) (only parsing).
Abbreviation BM := (M (list Z * (File * FileSystem)) err) (only parsing).

(** what a callee borrows with [&mut self.touched] *)
Definition ltouched : lens (File * FileSystem) (FileDirty * FileSystem) :=
  Lens (λ s, (touched (fst s), snd s)) (λ t s, (set_touched (fst t) (fst s), snd t)).
Definition get_file : FM File := gets fst.
Definition modify_file (g : File → File) : FM () := modify (λ s, (g (fst s), snd s)).
Definition get_fs : FM FileSystemDetails.t := gets (fs ∘ snd).

(** [File::new] *)
Definition File_new (d : FileDetails.t) (cluster_id cluster_length : Z) (o : OpenOptions.t)
    (c : StoredChain) : outcome err File :=
  let cursor := if OpenOptions.append o then FileDetails.valid_data_length d else 0 in
  remaining ← (match c with
               | Empty => Ok 0
               | _ => r ← urem cursor cluster_length; sub u32 cluster_length (cast u32 r)
               end);
  Ok {| details := d; current_cluster := cluster_id; remaining_bytes_in_cluster := remaining;
        cursor := cursor; open_options := o; chain := c; touched := FileDirty_new |}.

Definition metadata (f : File) : Metadata := {| details_of := details f |}.

(** ** Flushing *)
Definition chain_first (c : StoredChain) : Z :=
  match c with
  | Empty => NO_CLUSTER_ID
  | Contiguous first _ => first
  | FatChain first _ _ => first
  end.

(** the fields [flush] assigns in the file entry and in the stream extension *)
Definition stamp_file_entry (timestamp : EncodedTimestamp) (e : FileDirEntry.t) : FileDirEntry.t := {|
  FileDirEntry.secondary_count := FileDirEntry.secondary_count e;
  FileDirEntry.set_checksum := FileDirEntry.set_checksum e;
  FileDirEntry.file_attributes := FileDirEntry.file_attributes e;
  FileDirEntry.create_timestamp := FileDirEntry.create_timestamp e;
  FileDirEntry.last_modified_timestamp := packed timestamp;
  FileDirEntry.last_accessed_timestamp := packed timestamp;
  FileDirEntry.create_10ms_increment := FileDirEntry.create_10ms_increment e;
  FileDirEntry.last_modified_10ms_increment := increment_10ms timestamp;
  FileDirEntry.create_utc_offset := FileDirEntry.create_utc_offset e;
  FileDirEntry.last_modified_utc_offset := utc_offset timestamp;
  FileDirEntry.last_accessed_utc_offset := utc_offset timestamp |}.
Definition store_details (d : FileDetails.t) (c : StoredChain) (e : StreamExtensionDirEntry.t)
    : StreamExtensionDirEntry.t := {|
  StreamExtensionDirEntry.general_secondary_flags := FileDetails.flags d;
  StreamExtensionDirEntry.name_length := StreamExtensionDirEntry.name_length e;
  StreamExtensionDirEntry.name_hash := StreamExtensionDirEntry.name_hash e;
  StreamExtensionDirEntry.valid_data_length := FileDetails.valid_data_length d;
  StreamExtensionDirEntry.first_cluster := chain_first c;
  StreamExtensionDirEntry.data_length := FileDetails.data_length d |}.

(** the [while let] loop of [flush] over the entries of the file's set *)
Fixpoint flush_loop (n : nat) (d : FileDetails.t) (c : StoredChain) (counter : Z)
    (file_dir : option RawDirEntry)
    : M (Chain.t * (DirSetWriter.t * (FileDirty * FileSystem))) err (option RawDirEntry) :=
  match n with
  | O => lift OutOfFuel
  | S n =>
      o ← zoom lchain next;
      match o with
      | None => mret file_dir
      | Some (dir_entry, _) =>
          file_dir ←
            (if counter =? 0 then
               e ← lift (FileDirEntry_from dir_entry);
               timestamp ← zoom lsnd (zoom lsnd (zoom lsnd get_current_timestamp));
               let raw := FileDirEntry.serialize (stamp_file_entry timestamp e) in
               zoom lsnd (add_entry raw true) ;;
               mret (Some raw)
             else if counter =? 1 then
               e ← lift (StreamExtensionDirEntry_from dir_entry);
               zoom lsnd (add_entry (StreamExtensionDirEntry.serialize (store_details d c e)) false) ;;
               mret file_dir
             else
               zoom lsnd (add_no_write dir_entry false) ;;
               mret file_dir);
          flush_loop n d c (counter + 1) file_dir
      end
  end.

Definition flush : FM () :=
  self ← get_file;
  (if is_dir_entry_dirty (touched self) then
     f ← get_fs;
     entries ← lift (chain_new_from_file_details (details self) f);
     zoom ltouched
       (with_local (DirSetWriter.new (FileDetails.location (details self)))
          (r ← with_local entries (flush_loop ENTRY_ROUNDS (details self) (chain self) 0 None);
           match snd r with
           | Some file_dir => finish file_dir
           | None => mret ()
           end)) ;;
     mret ()
   else mret ()) ;;
  zoom ltouched FileDirty_flush.

(** ** The cursor *)
Definition eof (f : File) : bool := FileDetails.data_length (details f) <=? cursor f.

Definition get_cluster_offset (f : File) (d : FileSystemDetails.t) : outcome err Z :=
  r ← urem (cursor f) (cluster_length d);
  Ok (cast u32 r).

Definition move_file_cursor (num_bytes : Z) : FM () :=
  self ← get_file;
  c ← lift (add u64 (cursor self) num_bytes);
  modify_file (set_position (current_cluster self) (remaining_bytes_in_cluster self) c) ;;
  r ← lift (sub u32 (remaining_bytes_in_cluster self) (cast u32 num_bytes));
  modify_file (set_position (current_cluster self) r c).

(** [next_cursor_id]: the cluster after the current one *)
Definition next_cursor_id : FM Z :=
  self ← get_file;
  match chain self with
  | Empty => throw EndOfFatChain
  | Contiguous first n =>
      id ← lift (add u32 (current_cluster self) 1);
      last ← lift (add u32 first n);
      if (first <=? id) && (id <? last) then mret id else throw EndOfFatChain
  | FatChain _ _ _ =>
      o ← zoom lsnd (zoom lfatdev (next_cluster_in_fat_chain (current_cluster self)));
      match o with
      | Some id => mret id
      | None => throw EndOfFatChain
      end
  end.

Definition next_cluster_if_required : FM () :=
  self ← get_file;
  if remaining_bytes_in_cluster self =? 0 then
    id ← next_cursor_id;
    f ← get_fs;
    modify_file (λ s, set_position id (cluster_length f) (cursor s) s)
  else mret ().

Definition get_current_sector_id : FM Z :=
  self ← get_file;
  f ← get_fs;
  cluster_offset_bytes ← lift (urem (cursor self) (cluster_length f));
  start_sector_id ← lift (get_heap_sector_id f (current_cluster self));
  q ← lift (udiv (cast u32 cluster_offset_bytes) (cast u32 SIZE));
  lift (add u32 start_sector_id q).

(** ** Reading *)

(** one round of the [loop] of [read]: the number of bytes read so far *)
Definition read_step (bytes_read : Z) : BM Z :=
  n ← gets (len ∘ fst);
  self ← zoom lsnd get_file;
  let file_remainder := saturating_sub (FileDetails.data_length (details self)) (cursor self) in
  let valid_remainder := saturating_sub (FileDetails.valid_data_length (details self)) (cursor self) in
  zoom lsnd next_cluster_if_required ;;
  self ← zoom lsnd get_file;
  f ← zoom lsnd get_fs;
  cluster_offset ← lift (get_cluster_offset self f);
  start_sector_id ← lift (get_heap_sector_id f (current_cluster self));
  q ← lift (udiv cluster_offset (cast u32 SIZE));
  sector_id ← lift (add u32 start_sector_id q);
  let sector_offset := cluster_offset mod SIZE in
  let remainder_in_sector := SIZE - sector_offset in
  left ← lift (sub usize n bytes_read);
  let chunk_bytes := cast usize (Z.min (Z.min remainder_in_sector file_remainder) left) in
  chunk_bytes ←
    (if 0 <? valid_remainder then
       let chunk_bytes := Z.min chunk_bytes (cast usize valid_remainder) in
       slot ← zoom lsnd (zoom lsnd (zoom ldata (fetch sector_id)));
       bytes ← lift (slice slot sector_offset (sector_offset + chunk_bytes));
       buf ← gets fst;
       buf ← lift (copy_into buf bytes_read (bytes_read + chunk_bytes) bytes);
       modify (λ s, (buf, snd s)) ;;
       mret chunk_bytes
     else
       buf ← gets fst;
       buf ← lift (copy_into buf bytes_read (bytes_read + chunk_bytes) (zeros chunk_bytes));
       modify (λ s, (buf, snd s)) ;;
       mret chunk_bytes);
  zoom lsnd (move_file_cursor chunk_bytes) ;;
  lift (add usize bytes_read chunk_bytes).

Fixpoint read_loop (n : nat) (bytes_read : Z) : BM Z :=
  match n with
  | O => lift OutOfFuel
  | S n =>
      bytes_read ← read_step bytes_read;
      l ← gets (len ∘ fst);
      self ← zoom lsnd get_file;
      if (bytes_read =? l) || eof self then mret bytes_read else read_loop n bytes_read
  end.

Definition read : BM (option Z) :=
  zoom lsnd (zoom lsnd mount) ;;
  self ← zoom lsnd get_file;
  if negb (OpenOptions.read (open_options self)) then throw ReadNotEnabled
  else if eof self then mret None
  else
    l ← gets (length ∘ fst);
    if (l =? 0)%nat then mret (Some 0)
    else n ← read_loop l 0; mret (Some n).

(** [read_to_end_inner]: fills the buffer as far as the file goes *)
Fixpoint fill_loop (n : nat) (filled : Z) : BM Z :=
  match n with
  | O => lift OutOfFuel
  | S n =>
      l ← gets (len ∘ fst);
      if filled <? l then
        o ← zoom (lslice (Z.to_nat filled)) read;
        match o with
        | Some k => if 0 <? k then fill_loop n (filled + k) else mret filled
        | None => mret filled
        end
      else mret filled
  end.
Definition read_to_end_inner : BM Z :=
  self ← zoom lsnd get_file;
  if negb (OpenOptions.read (open_options self)) then throw ReadNotEnabled
  else
    l ← gets (length ∘ fst);
    fill_loop (S l) 0.

Definition read_to_end : BM Z :=
  zoom lsnd (zoom lsnd mount) ;;
  self ← zoom lsnd get_file;
  let l := cast usize (saturating_sub (FileDetails.data_length (details self)) (cursor self)) in
  start ← gets (length ∘ fst);
  lift (add (E:=err) usize (Z.of_nat start) l) ;;
  modify (λ s, (fst s ++ zeros l, snd s)) ;;
  filled ← zoom (lslice start) read_to_end_inner;
  modify (λ s, (take (start + Z.to_nat filled) (fst s), snd s)) ;;
  mret filled.

Definition read_to_string : FM str :=
  zoom lsnd mount ;;
  self ← get_file;
  let l := cast usize (saturating_sub (FileDetails.valid_data_length (details self)) (cursor self)) in
  r ← with_local (zeros l) read_to_end_inner;
  let '(buf, filled) := r in
  bytes ← lift (slice buf 0 filled);
  match from_utf8 bytes with
  | Some s => mret s
  | None => throw Utf8Error
  end.

(** ** Growing *)
Definition should_convert_to_fat_chain (f : File) (run : AllocatedRun) : outcome err bool :=
  match chain f with
  | Empty => Ok false
  | Contiguous first n =>
      if contains (FileDetails.flags (details f)) NoFatChain
      then s ← add u32 first n; Ok (negb (s =? first_cluster run))
      else Ok false
  | FatChain _ _ _ => Ok false
  end.

(** [fs.fat.set(&mut fs.dev, &mut self.touched, from, to)] *)
Definition set_fat (from to : Z) : FM () := zoom ltouched (zoom (with_touched lfatdev) (Fat.set from to)).

(** [self.touched.is_dir_entry_dirty = true] *)
Definition mark_dir_entry_dirty : FM () :=
  modify_file (λ s, set_touched (set_dir_entry_dirty true (touched s)) s).

Definition convert_file_to_fat_chain_if_required : FM () :=
  self ← get_file;
  if contains (FileDetails.flags (details self)) NoFatChain then
    modify_file (set_details (with_flags
      (set_flag (FileDetails.flags (details self)) NoFatChain false) (details self))) ;;
    mark_dir_entry_dirty ;;
    match chain self with
    | Contiguous first n =>
        s ← lift (add u32 first n);
        tail ← lift (sub u32 s 1);
        for_each (seqZ first (tail - first)) (λ cluster_id, set_fat cluster_id (cluster_id + 1))
    | _ => mret ()
    end
  else mret ().

(** the [for next_cluster in ..] loop of [update_chain] *)
Fixpoint link_clusters (prev_cluster : option Z) (clusters : list Z) : FM () :=
  match clusters with
  | [] => mret ()
  | next_cluster :: clusters =>
      match prev_cluster with
      | Some prev => set_fat prev next_cluster
      | None => mret ()
      end ;;
      link_clusters (Some next_cluster) clusters
  end.

Definition update_chain (run : AllocatedRun) : FM () :=
  self ← get_file;
  convert ← lift (should_convert_to_fat_chain self run);
  (if convert : bool then convert_file_to_fat_chain_if_required else mret ()) ;;
  self ← get_file;
  let has_fat_chain := negb (contains (FileDetails.flags (details self)) NoFatChain) in
  (if has_fat_chain then
     prev_cluster ← (match chain self with
                     | Empty => mret None
                     | Contiguous first n =>
                         s ← lift (add u32 first n);
                         p ← lift (sub u32 s 1);
                         mret (Some p)
                     | FatChain _ last _ => mret (Some last)
                     end);
     past ← lift (add u32 (first_cluster run) (cluster_count run));
     link_clusters prev_cluster (seqZ (first_cluster run) (past - first_cluster run)) ;;
     last ← lift (sub u32 past 1);
     set_fat last END_OF_CHAIN
   else mret ()) ;;
  match chain self with
  | Empty =>
      f ← get_fs;
      modify_file (set_chain (Contiguous (first_cluster run) (cluster_count run))) ;;
      modify_file (λ s, set_position (first_cluster run) (cluster_length f) (cursor s) s)
  | Contiguous first n =>
      if has_fat_chain then
        past ← lift (add u32 (first_cluster run) (cluster_count run));
        last ← lift (sub u32 past 1);
        n ← lift (add u32 n (cluster_count run));
        modify_file (set_chain (FatChain first last n))
      else
        n ← lift (add u32 n (cluster_count run));
        modify_file (set_chain (Contiguous first n))
  | FatChain first _ n =>
      past ← lift (add u32 (first_cluster run) (cluster_count run));
      last ← lift (sub u32 past 1);
      n ← lift (add u32 n (cluster_count run));
      modify_file (set_chain (FatChain first last n))
  end.

Fixpoint allocate_loop (n : nat) (cluster_count : Z) : FM () :=
  match n with
  | O => lift OutOfFuel
  | S n =>
      self ← get_file;
      run ← zoom ltouched (zoom (with_touched lallocdev) (allocate (chain self) cluster_count));
      update_chain run ;;
      cluster_count ← lift (sub u32 cluster_count (Allocation.cluster_count run));
      if cluster_count =? 0 then mret () else allocate_loop n cluster_count
  end.
Definition allocate_clusters_for (num_bytes : Z) : FM () :=
  f ← get_fs;
  q ← lift (div_ceil num_bytes (cast usize (cluster_length f)));
  let cluster_count := cast u32 q in
  allocate_loop (S (Z.to_nat cluster_count)) cluster_count.

(** ** Writing *)
Definition update_data_length (num_bytes : Z) : FM () :=
  self ← get_file;
  e ← lift (add u64 (cursor self) num_bytes);
  let valid_data_length := Z.max e (FileDetails.valid_data_length (details self)) in
  modify_file (set_details (with_lengths valid_data_length
    (Z.max valid_data_length (FileDetails.data_length (details self))) (details self))) ;;
  mark_dir_entry_dirty.

Definition write_partial_sector (buf : list Z) : FM Z :=
  if len buf =? 0 then mret 0
  else
    self ← get_file;
    start_index ← lift (urem (cursor self) (cast u64 SIZE));
    e ← lift (add usize start_index (len buf));
    let end_index := Z.min SIZE e in
    sector_id ← get_current_sector_id;
    if (0 <? start_index) || (end_index <? SIZE) then
      let l := end_index - start_index in
      zoom lsnd (zoom ldata (update sector_id (λ b,
        src ← slice buf 0 l;
        copy_into b start_index end_index src))) ;;
      zoom ltouched (touch Data sector_id) ;;
      move_file_cursor l ;;
      mret l
    else mret 0.

(** one full block of [write] *)
Definition write_block (block : list Z) : FM () :=
  next_cluster_if_required ;;
  sector_id ← get_current_sector_id;
  zoom lsnd (zoom ldata (SlotCache.write sector_id block)) ;;
  move_file_cursor (len block).

(** the part of [write] behind the growing: a partial first sector, whole
    sectors, a partial last one *)
Definition write_sectors (buf : list Z) : FM () :=
  next_cluster_if_required ;;
  l ← write_partial_sector buf;
  if l <? len buf then
    let rest := drop (Z.to_nat l) buf in
    let blocks := as_chunks (Z.to_nat SIZE) rest in
    let remainder := drop (length blocks * Z.to_nat SIZE) rest in
    for_each blocks write_block ;;
    write_partial_sector remainder ;;
    mret ()
  else mret ().

Definition write (buf : list Z) : FM () :=
  if len buf =? 0 then mret ()
  else
    zoom lsnd mount ;;
    self ← get_file;
    if negb (OpenOptions.write (open_options self)) then throw WriteNotEnabled
    else
      f ← get_fs;
      q ← lift (div_ceil (FileDetails.data_length (details self)) (cluster_length f));
      capacity ← lift (mul u64 q (cluster_length f));
      end_of_write ← lift (add u64 (cursor self) (len buf));
      (if capacity <? end_of_write
       then allocate_clusters_for (cast usize (end_of_write - capacity))
       else mret ()) ;;
      update_data_length (len buf) ;;
      write_sectors buf.

(** ** Seeking *)
Definition update_remaining_bytes_in_cluster : FM () :=
  self ← get_file;
  f ← get_fs;
  r ← lift (urem (cursor self) (cluster_length f));
  r ← lift (sub u32 (cluster_length f) (cast u32 r));
  modify_file (set_position (current_cluster self) r (cursor self)).

Definition set_current_cluster (id : Z) : FM () :=
  modify_file (λ s, set_position id (remaining_bytes_in_cluster s) (cursor s) s).

Definition seek (pos : Z) : FM () :=
  zoom lsnd mount ;;
  self ← get_file;
  if FileDetails.valid_data_length (details self) <? pos then throw SeekOutOfRange
  else
    modify_file (λ s, set_position (current_cluster s) (remaining_bytes_in_cluster s) pos s) ;;
    f ← get_fs;
    q ← lift (udiv pos (cluster_length f));
    let num_clusters := cast u32 q in
    match chain self with
    | Empty =>
        modify_file (set_position (FileDetails.first_cluster (details self)) 0 pos)
    | Contiguous first _ =>
        id ← lift (add u32 first num_clusters);
        set_current_cluster id ;;
        update_remaining_bytes_in_cluster
    | FatChain first _ _ =>
        id ← zoom lsnd (follow_fat (Z.to_nat num_clusters) first);
        set_current_cluster id ;;
        update_remaining_bytes_in_cluster
    end.

(** ** Copying *)
Definition num_clusters (f : File) (d : FileSystemDetails.t) : outcome err Z :=
  q ← div_ceil (FileDetails.data_length (details f)) (cluster_length d);
  Ok (cast u32 q).

(** the [while let] loop of [copy_to]; the buffer keeps its bytes *)
Fixpoint copy_loop (n : nat) (sector_id : Z) : BM () :=
  match n with
  | O => lift OutOfFuel
  | S n =>
      o ← read;
      match o with
      | None => mret ()
      | Some _ =>
          buf ← gets fst;
          zoom lsnd (zoom lsnd (zoom ldata (SlotCache.write sector_id buf))) ;;
          sector_id ← lift (add u32 sector_id 1);
          copy_loop n sector_id
      end
  end.

Definition copy_to (to_path : str) : FM () :=
  let '(dir_path, file_or_dir_name) := split_path to_path in
  self ← get_file;
  f ← get_fs;
  n ← lift (num_clusters self f);
  run ← zoom lsnd (zoom lallocdev (find_free_clusters None n LongestRun));
  if negb (cluster_count run =? n) then throw DiskFull
  else
    directory_cluster_id ← zoom ltouched (get_or_create_directory dir_path);
    zoom ltouched (create_file_dir_entry_at file_or_dir_name directory_cluster_id
      (first_cluster run) (FileDetails.attributes (details self))
      (flag_union AllocationPossible NoFatChain)
      (FileDetails.valid_data_length (details self)) (FileDetails.data_length (details self))) ;;
    zoom ltouched (zoom (with_touched lallocdev) (mark_allocated run true)) ;;
    f ← get_fs;
    sector_id ← lift (get_heap_sector_id f (first_cluster run));
    let rounds := Z.to_nat (FileDetails.data_length (details self) / SIZE + 2) in
    with_local (zeros SIZE) (copy_loop rounds sector_id) ;;
    mret ().
End Ops.
