(* ===== verification/FileRead.v ===== *)
(** * Reading a file returns its bytes

    The abstract state of a file is the list of its clusters and, through the
    volume, the list of its bytes ([file_data]).  [file_inv] says that an open
    file agrees with it: its chain is the cluster list, its cursor and the
    cached position in the chain fit together.  Reading keeps the invariant
    and returns the next bytes of the list, whatever clusters and sectors they
    are spread over, except where the width of [usize] is too small for the
    bytes that are left ([stuck]). *)

From S2P Require Import Prelude Text Crates Errors Utils Timestamp BootSector Device SlotCache Touched Fat Allocation Regions Volume VolumeInv DirectoryEntry Directory FileSystem File.
Import FileSystemDetails (cluster_length, sectors_per_cluster, cluster_heap_offset, fat_offset).

(** * Specification *)
Section Spec.
Context {cfg : Config} {bd : BlockDevice} {Hbd : DeviceOk cfg bd}.
Implicit Types (f : FileSystem) (file : File) (cl : list Z).

(** The FAT links every cluster of the list to the next one. *)
Definition linked (fl : Z) f cl : Prop :=
  ∀ i a b, cl !! i = Some a → cl !! S i = Some b → successor (fat_entry fl f a) = Some b.

(** The cluster list a stored chain stands for. *)
Definition chain_clusters (fl : Z) f (c : StoredChain) cl : Prop :=
  match c with
  | Empty => cl = []
  | Contiguous first n => cl = seqZ first n ∧ 0 < n
  | FatChain first l n => head cl = Some first ∧ last cl = Some l ∧ len cl = n ∧ linked fl f cl
  end.

(** A cluster that may hold file data. *)
Definition data_cluster f (id : Z) : Prop :=
  cluster_ok f id ∧ ∀ k, 0 ≤ k < sectors_per_cluster (fs f) → data_region f (cluster_sector f id + k).

(** The sector and the byte of position [p] of a file. *)
Definition file_sector f cl (p : Z) : Z :=
  cluster_sector f (cl !!! Z.to_nat (p / cluster_length (fs f))) + p mod cluster_length (fs f) / SIZE.
Definition file_byte (fl : Z) f cl (p : Z) : Z :=
  vseen fl f (file_sector f cl p) !!! Z.to_nat (p mod SIZE).

(** What the file holds: its valid bytes, then zeros up to its length. *)
Definition file_data (fl : Z) f (d : FileDetails.t) cl : list Z :=
  (λ p, if p <? FileDetails.valid_data_length d then file_byte fl f cl p else 0)
    <$> seqZ 0 (FileDetails.data_length d).

(** The cached position: the cluster of the cursor, or the one before when the
    cursor is at its end. *)
Definition position_ok f file cl : Prop :=
  ∃ i : nat, cl !! i = Some (current_cluster file) ∧
    Z.of_nat i * cluster_length (fs f) ≤ cursor file ∧
    remaining_bytes_in_cluster file = (Z.of_nat i + 1) * cluster_length (fs f) - cursor file ∧
    0 ≤ remaining_bytes_in_cluster file.

Record file_inv (fl : Z) f file cl : Prop := {
  file_vol : vol_inv fl f;
  file_chain : chain_clusters fl f (chain file) cl;
  file_clusters : Forall (data_cluster f) cl;
  file_nodup : NoDup cl;
  file_lengths : 0 ≤ FileDetails.valid_data_length (details file) ≤
      FileDetails.data_length (details file) ∧
    FileDetails.data_length (details file) ≤ len cl * cluster_length (fs f);
  file_cursor : 0 ≤ cursor file ≤ FileDetails.data_length (details file);
  file_position : cl ≠ [] → position_ok f file cl;
}.

(** The operation moved the cursor of the file and nothing else of it. *)
Definition cursor_moved file file' : Prop :=
  details file' = details file ∧ open_options file' = open_options file ∧
  chain file' = chain file ∧ touched file' = touched file.
End Spec.

(** * Lemmas *)

(** Positions in the same sector are in the same cluster. *)
Lemma sector_in_cluster S n p :
  0 < S → 0 < n → (p mod (S * n)) / S = (p / S) mod n ∧ p / (S * n) = p / S / n.
Proof.
  intros HS Hn. rewrite Z.rem_mul_r, Z.div_div by lia. split; [|done].
  rewrite Z.mul_comm, Z.div_add by lia. rewrite Z.div_small; [lia|]. by apply Z.mod_pos_bound.
Qed.
Lemma same_sector S n c j :
  0 < S → 0 < n → 0 ≤ j → c mod S + j < S →
  (c + j) / (S * n) = c / (S * n) ∧ ((c + j) mod (S * n)) / S = (c mod (S * n)) / S ∧
  (c + j) mod S = c mod S + j.
Proof.
  intros HS Hn Hj Hlt. pose proof (Z.div_mod c S ltac:(lia)). pose proof (Z.mod_pos_bound c S HS).
  assert (Hq : (c + j) / S = c / S) by (symmetry; apply Z.div_unique with (c mod S + j); lia).
  destruct (sector_in_cluster S n (c + j)) as [-> ->]; [done..|].
  destruct (sector_in_cluster S n c) as [-> ->]; [done..|]. rewrite Hq. split_and!; [done..|].
  symmetry. apply Z.mod_unique with (c / S); lia.
Qed.

Section Lemmas.
Context {cfg : Config} {crates : Crates} {bd : BlockDevice} {fu : Fuel}.
Context {Hcfg : ConfigOk cfg} {Hcr : CratesOk crates} {Hbd : DeviceOk cfg bd}.
Implicit Types (f : FileSystem) (file : File) (cl : list Z).

Lemma cursor_moved_trans a b c : cursor_moved a b → cursor_moved b c → cursor_moved a c.
Proof. unfold cursor_moved. intros (? & ? & ? & ?) (? & ? & ? & ?). split_and!; congruence. Qed.

(** ** What a step of the volume keeps *)
Lemma data_cluster_step fl P f f' id : vol_step fl P f f' → data_cluster f' id ↔ data_cluster f id.
Proof.
  intros [Hfs Hb _ _ _]. unfold data_cluster, cluster_ok, cluster_sector, data_region, heap_region,
    bitmap_region. by rewrite Hfs, Hb.
Qed.
Lemma file_sector_step fl P f f' cl p : vol_step fl P f f' → file_sector f' cl p = file_sector f cl p.
Proof. intros Hst. unfold file_sector, cluster_sector. by rewrite (step_fs _ _ _ _ Hst). Qed.
Lemma linked_step fl f f' cl :
  vol_inv fl f → vol_same fl f f' → Forall (data_cluster f) cl → linked fl f cl → linked fl f' cl.
Proof.
  intros Hi Hst Hcl Hl i a b Ha Hb. rewrite (fat_entry_step fl (λ _, False) f) by
    (done || tauto || by apply (Forall_lookup_1 _ _ _ _ Hcl Ha)). eauto.
Qed.
Lemma chain_clusters_step fl f f' c cl :
  vol_inv fl f → vol_same fl f f' → Forall (data_cluster f) cl →
  chain_clusters fl f c cl → chain_clusters fl f' c cl.
Proof.
  intros Hi Hst Hcl. destruct c; cbn; [done|done|].
  intros (? & ? & ? & ?). split_and!; try done. by eapply linked_step.
Qed.

(** ** Positions *)
Lemma cluster_length_pos fl f :
  vol_inv fl f → 0 < SIZE ≤ cluster_length (fs f) ∧ cluster_length (fs f) < 2 ^ 32 ∧
    cluster_length (fs f) = SIZE * sectors_per_cluster (fs f).
Proof. intros Hi. destruct (vol_geometry _ _ Hi). pose proof SIZE_range. nia. Qed.

Lemma length_clusters fl f file cl :
  file_inv fl f file cl → len cl ≤ FileSystemDetails.cluster_count (fs f).
Proof.
  intros Hi. pose proof (vol_geometry _ _ (file_vol _ _ _ _ Hi)) as [_ _ Hn _ _ _ _].
  assert (cl ⊆+ seqZ 2 (FileSystemDetails.cluster_count (fs f))) as Hsub.
  { apply NoDup_submseteq; [apply Hi|]. intros id Hid. apply elem_of_seqZ.
    pose proof (file_clusters _ _ _ _ Hi) as Hcl. rewrite Forall_forall in Hcl.
    destruct (Hcl id Hid) as [Hok _]. unfold cluster_ok in Hok. lia. }
  apply submseteq_length in Hsub. rewrite length_seqZ in Hsub. unfold len. lia.
Qed.

Lemma file_length_bound fl f file cl :
  file_inv fl f file cl → FileDetails.data_length (details file) < 2 ^ 63.
Proof.
  intros Hi. pose proof (length_clusters _ _ _ _ Hi). pose proof (file_lengths _ _ _ _ Hi).
  pose proof (vol_geometry _ _ (file_vol _ _ _ _ Hi)) as [Hf [Hc1 [Hc _]] [Hn _] Hh _ _ _].
  pose proof SIZE_range. pose proof (len_nonneg cl). rewrite Hc in *.
  set (spc := sectors_per_cluster (fs f)) in *. set (n := FileSystemDetails.cluster_count (fs f)) in *.
  assert (len cl * (SIZE * spc) ≤ n * (SIZE * spc)) by (apply Z.mul_le_mono_nonneg_r; lia).
  assert (SIZE * (spc * n) ≤ 65536 * 2 ^ 32) by (apply Z.mul_le_mono_nonneg; lia).
  lia.
Qed.

(** The cluster of a cursor inside the allocated space. *)
Lemma cluster_at fl f file cl p :
  file_inv fl f file cl → 0 ≤ p < len cl * cluster_length (fs f) →
  ∃ id, cl !! Z.to_nat (p / cluster_length (fs f)) = Some id ∧ data_cluster f id ∧
    cl !!! Z.to_nat (p / cluster_length (fs f)) = id.
Proof.
  intros Hi Hp. destruct (cluster_length_pos fl f (file_vol _ _ _ _ Hi)) as (? & ? & _).
  assert (0 ≤ p / cluster_length (fs f)) by (apply Z.div_pos; lia).
  assert (p / cluster_length (fs f) < len cl) by (apply Z.div_lt_upper_bound; lia).
  destruct (lookup_lt_is_Some_2 cl (Z.to_nat (p / cluster_length (fs f)))) as [id Hid];
    [unfold len in *; lia|].
  exists id. split_and!; [done| |by apply list_lookup_total_correct].
  by apply (Forall_lookup_1 _ _ _ _ (file_clusters _ _ _ _ Hi) Hid).
Qed.

Lemma file_sector_region fl f file cl p :
  file_inv fl f file cl → 0 ≤ p < len cl * cluster_length (fs f) →
  data_region f (file_sector f cl p).
Proof.
  intros Hi Hp. destruct (cluster_at fl f file cl p Hi Hp) as (id & _ & [_ Hd] & Heq).
  destruct (cluster_length_pos fl f (file_vol _ _ _ _ Hi)) as (? & ? & Hcl).
  unfold file_sector. rewrite Heq. apply Hd.
  pose proof (Z.mod_pos_bound p (cluster_length (fs f)) ltac:(lia)).
  split; [apply Z.div_pos; lia|]. apply Z.div_lt_upper_bound; lia.
Qed.

Lemma next_cursor_ok fl f file cl (i : nat) id :
  file_inv fl f file cl → cl !! i = Some (current_cluster file) → cl !! S i = Some id →
  ∃ f', next_cursor_id (file, f) = ((file, f'), Ok id) ∧ vol_inv fl f' ∧ vol_same fl f f'.
Proof.
  intros Hi Hcur Hnext. pose proof (file_vol _ _ _ _ Hi) as Hv.
  pose proof (Forall_lookup_1 _ _ _ _ (file_clusters _ _ _ _ Hi) Hcur) as [Hok _].
  pose proof (Forall_lookup_1 _ _ _ _ (file_clusters _ _ _ _ Hi) Hnext) as [Hok' _].
  pose proof (vol_geometry _ _ Hv) as [_ _ [_ [Hn _]] _ _ _ _].
  unfold next_cursor_id, get_file. rewrite (bind_Ok (gets fst) _ _ (file, f) file) by done.
  pose proof (file_chain _ _ _ _ Hi) as Hch. unfold chain_clusters in Hch.
  unfold cluster_ok, CLUSTER_LEN in *. destruct (chain file) as [|first n|first l n].
  - by subst.
  - destruct Hch as [-> Hn0]. apply lookup_seqZ in Hcur as [Hc Hi1], Hnext as [Hc' Hi2].
    exists f. assert (Hlast : cluster_ok f (first + n - 1)).
    { apply (Forall_lookup_1 _ _ (Z.to_nat (n - 1)) _ (file_clusters _ _ _ _ Hi)).
      apply lookup_seqZ. lia. }
    unfold cluster_ok in Hlast.
    rewrite !add_ok, !bind_lift_Ok by lia.
    rewrite (proj2 (Z.leb_le _ _)), (proj2 (Z.ltb_lt _ _)) by lia.
    split_and!; [|done|apply vol_step_refl]. cbn. unfold mret, M_ret. do 2 f_equal. lia.
  - destruct Hch as (_ & _ & _ & Hl). specialize (Hl i _ _ Hcur Hnext).
    destruct (fat_next fl f (current_cluster file) Hv) as (f' & Hf & Hv' & Hst); [done|].
    exists f'. split_and!; [|done|done].
    erewrite bind_Ok; [|eapply zoom_to; [exact Hf|reflexivity]]. cbn [fst snd put lsnd].
    by rewrite Hl.
Qed.

Lemma next_cluster_ok fl f file cl :
  file_inv fl f file cl → cursor file < len cl * cluster_length (fs f) →
  ∃ file' f', next_cluster_if_required (file, f) = ((file', f'), Ok ()) ∧
    vol_inv fl f' ∧ vol_same fl f f' ∧ cursor_moved file file' ∧ cursor file' = cursor file ∧
    cl !! Z.to_nat (cursor file / cluster_length (fs f)) = Some (current_cluster file') ∧
    remaining_bytes_in_cluster file' =
      cluster_length (fs f) - cursor file mod cluster_length (fs f).
Proof.
  intros Hi Hc. pose proof (file_vol _ _ _ _ Hi) as Hv.
  destruct (cluster_length_pos fl f Hv) as (? & ? & _). set (CL := cluster_length (fs f)) in *.
  pose proof (file_cursor _ _ _ _ Hi). pose proof (len_nonneg cl).
  destruct (file_position _ _ _ _ Hi) as (i & Hcur & Hlo & Hrem & Hrem0).
  { intros ->. unfold len in Hc. cbn [length] in Hc. lia. } fold CL in Hlo, Hrem.
  unfold next_cluster_if_required, get_file. rewrite (bind_Ok (gets fst) _ _ (file, f) file) by done.
  destruct (Z.eqb_spec (remaining_bytes_in_cluster file) 0) as [Hz|Hnz].
  - assert (Hcur' : cursor file = (Z.of_nat i + 1) * CL) by lia.
    assert (Hdiv : cursor file / CL = Z.of_nat i + 1) by (rewrite Hcur'; apply Z.div_mul; lia).
    assert (Hmod : cursor file mod CL = 0) by (rewrite Hcur'; apply Z.mod_mul; lia).
    assert (Z.of_nat i + 1 < len cl) by (apply (Z.mul_lt_mono_pos_r CL); lia).
    destruct (lookup_lt_is_Some_2 cl (S i)) as [id Hid]; [unfold len in *; lia|].
    destruct (next_cursor_ok fl f file cl i id Hi Hcur Hid) as (f' & Hn & Hv' & Hst).
    rewrite (bind_Ok _ _ _ _ _ Hn). unfold get_fs, modify_file, modify.
    rewrite (bind_Ok (gets _) _ _ (file, f') (fs f)) by (unfold gets; cbn; by rewrite (step_fs _ _ _ _ Hst)).
    cbn [fst snd]. eexists _, f'. split; [reflexivity|]. cbn.
    rewrite Hdiv, Hmod. replace (Z.to_nat (Z.of_nat i + 1)) with (S i) by lia.
    split_and!; try done. lia.
  - exists file, f. assert (Hdiv : cursor file / CL = Z.of_nat i).
    { symmetry. apply Z.div_unique with (cursor file - CL * Z.of_nat i); lia. }
    split_and!; [done|done|apply vol_step_refl|done|done| |].
    + by rewrite Hdiv, Nat2Z.id.
    + rewrite Z.mod_eq, Hdiv by lia. lia.
Qed.

(** ** Bytes *)
Lemma file_data_step fl f f' file cl :
  file_inv fl f file cl → vol_same fl f f' →
  file_data fl f' (details file) cl = file_data fl f (details file) cl.
Proof.
  intros Hi Hst. apply list_fmap_ext. intros i p Hp. apply lookup_seqZ in Hp as [-> Hp].
  pose proof (file_lengths _ _ _ _ Hi). destruct (Z.ltb_spec (0 + Z.of_nat i)
    (FileDetails.valid_data_length (details file))); [|done].
  unfold file_byte. rewrite (file_sector_step fl _ _ _ _ _ Hst).
  rewrite (step_seen _ _ _ _ Hst); [done| |tauto]. right; right.
  eapply file_sector_region; [done|]. lia.
Qed.

Lemma file_data_chunk fl f file cl c k :
  file_inv fl f file cl → 0 ≤ c → 0 < k → c mod SIZE + k ≤ SIZE →
  c + k ≤ FileDetails.data_length (details file) →
  take (Z.to_nat k) (drop (Z.to_nat c) (file_data fl f (details file) cl)) =
    if c <? FileDetails.valid_data_length (details file)
    then (λ p, if p <? FileDetails.valid_data_length (details file)
               then file_byte fl f cl p else 0) <$> seqZ c k
    else zeros k.
Proof.
  intros Hi Hc Hk Hs Hl. unfold file_data. rewrite <-fmap_drop, <-fmap_take.
  assert (Hseq : take (Z.to_nat k) (drop (Z.to_nat c)
    (seqZ 0 (FileDetails.data_length (details file)))) = seqZ c k).
  { replace (FileDetails.data_length (details file))
      with (c + (k + (FileDetails.data_length (details file) - (c + k)))) by lia.
    rewrite !seqZ_app by lia. rewrite drop_app_length' by (rewrite length_seqZ; lia).
    rewrite take_app_length' by (rewrite length_seqZ; lia). done. }
  rewrite Hseq. destruct (Z.ltb_spec c (FileDetails.valid_data_length (details file))); [done|].
  unfold zeros. rewrite <-(length_seqZ c k). apply list_eq. intros i.
  rewrite list_lookup_fmap. destruct (seqZ c k !! i) as [p|] eqn:Hp; cbn.
  - pose proof (lookup_lt_Some _ _ _ Hp). rewrite lookup_replicate_2 by done.
    apply lookup_seqZ in Hp as [-> ?]. by rewrite (proj2 (Z.ltb_ge _ _)) by lia.
  - symmetry. apply lookup_replicate_None. by apply lookup_ge_None.
Qed.

Lemma file_bytes_chunk fl f file cl c k :
  file_inv fl f file cl → 0 ≤ c → 0 < k → c mod SIZE + k ≤ SIZE →
  c + k ≤ FileDetails.valid_data_length (details file) →
  (λ p, if p <? FileDetails.valid_data_length (details file)
        then file_byte fl f cl p else 0) <$> seqZ c k =
  take (Z.to_nat k) (drop (Z.to_nat (c mod SIZE)) (vseen fl f (file_sector f cl c))).
Proof.
  intros Hi Hc Hk Hs Hl. pose proof (file_vol _ _ _ _ Hi) as Hv.
  destruct (cluster_length_pos fl f Hv) as (? & ? & Hcl).
  pose proof (file_lengths _ _ _ _ Hi). assert (0 ≤ c mod SIZE < SIZE) by (apply Z.mod_pos_bound; lia).
  destruct (vseen_ok fl f (file_sector f cl c) Hv) as [Hlen _].
  { right; right. eapply file_sector_region; [done|lia]. }
  apply list_eq. intros i. rewrite list_lookup_fmap. destruct (decide (Z.of_nat i < k)) as [Hik|Hik].
  - rewrite (proj2 (lookup_seqZ c k i (c + Z.of_nat i))) by lia. cbn [fmap option_fmap option_map].
    rewrite (proj2 (Z.ltb_lt _ _)) by lia. rewrite lookup_take_lt, lookup_drop by lia.
    destruct (same_sector SIZE (sectors_per_cluster (fs f)) c (Z.of_nat i)) as (Hq1 & Hq2 & Hq3); [nia..|].
    unfold file_byte, file_sector. rewrite Hcl, Hq1, Hq2, Hq3.
    replace (Z.to_nat (c mod SIZE + Z.of_nat i)) with (Z.to_nat (c mod SIZE) + i)%nat by lia.
    symmetry. apply list_lookup_lookup_total_lt. rewrite <-Hcl.
    change (cluster_sector f _ + _) with (file_sector f cl c). unfold len in Hlen. lia.
  - rewrite lookup_take_ge by lia. rewrite (proj2 (lookup_ge_None _ _)); [done|].
    rewrite length_seqZ. lia.
Qed.
End Lemmas.

(** ** One round of the loop *)
Section ReadStep.
Context {cfg : Config} {crates : Crates} {bd : BlockDevice} {fu : Fuel}.
Context {Hcfg : ConfigOk cfg} {Hcr : CratesOk crates} {Hbd : DeviceOk cfg bd}.
Implicit Types (f : FileSystem) (file : File) (cl buf : list Z).

(** The invariant only reads the position through the cursor. *)
Lemma file_inv_moved fl f f' file file' cl c :
  file_inv fl f file cl → vol_inv fl f' → vol_same fl f f' → cursor_moved file file' →
  cursor file' = c → 0 ≤ c ≤ FileDetails.data_length (details file) →
  position_ok f file' cl → file_inv fl f' file' cl.
Proof.
  intros Hi Hv Hst (Hd & _ & Hch & _) Hcur Hc Hp. pose proof (file_vol _ _ _ _ Hi) as Hv0. split.
  - done.
  - rewrite Hch. by eapply chain_clusters_step; [..|apply Hi]; [done|done|apply Hi].
  - eapply Forall_impl; [apply Hi|]. intros id. by eapply data_cluster_step.
  - apply Hi.
  - rewrite Hd, (step_fs _ _ _ _ Hst). apply Hi.
  - by rewrite Hd, Hcur.
  - intros _. unfold position_ok in *. by rewrite (step_fs _ _ _ _ Hst).
Qed.

(** Moving the cursor within its cluster. *)
Lemma move_file_cursor_ok f file k :
  0 ≤ k < 2 ^ 32 → 0 ≤ cursor file + k < 2 ^ 64 →
  0 ≤ remaining_bytes_in_cluster file - k < 2 ^ 32 →
  move_file_cursor k (file, f) =
    ((set_position (current_cluster file) (remaining_bytes_in_cluster file - k) (cursor file + k) file,
      f), Ok ()).
Proof.
  intros Hk Hc Hr. unfold move_file_cursor, get_file, modify_file, modify.
  rewrite (bind_Ok (gets fst) _ _ (file, f) file) by done.
  rewrite add_ok, bind_lift_Ok by lia. erewrite bind_Ok; [|reflexivity].
  rewrite cast_id, sub_ok, bind_lift_Ok by lia. done.
Qed.

Lemma get_cluster_offset_ok fl f file :
  vol_inv fl f → get_cluster_offset file (fs f) = Ok (cursor file mod cluster_length (fs f)).
Proof.
  intros Hv. destruct (cluster_length_pos fl f Hv) as (? & ? & _).
  unfold get_cluster_offset. rewrite urem_ok by lia. cbn [mbind outcome_bind].
  pose proof (Z.mod_pos_bound (cursor file) (cluster_length (fs f)) ltac:(lia)).
  by rewrite cast_id by lia.
Qed.

(** The bytes a round copies. *)
Definition round_bytes (fl : Z) f file cl (k : Z) : list Z :=
  take (Z.to_nat k) (drop (Z.to_nat (cursor file)) (file_data fl f (details file) cl)).

(** The sector of the cursor, computed from the cached cluster. *)
Lemma cursor_sector_ok fl f file cl p :
  file_inv fl f file cl → 0 ≤ p < len cl * cluster_length (fs f) →
  get_heap_sector_id (fs f) (cl !!! Z.to_nat (p / cluster_length (fs f))) =
    Ok (cluster_sector f (cl !!! Z.to_nat (p / cluster_length (fs f)))) ∧
  udiv (E:=err) (p mod cluster_length (fs f)) (cast u32 SIZE) =
    Ok (p mod cluster_length (fs f) / SIZE) ∧
  add (E:=err) u32 (cluster_sector f (cl !!! Z.to_nat (p / cluster_length (fs f))))
    (p mod cluster_length (fs f) / SIZE) = Ok (file_sector f cl p).
Proof.
  intros Hi Hp. destruct (cluster_at fl f file cl p Hi Hp) as (id & _ & [Hok _] & Heq).
  pose proof (file_vol _ _ _ _ Hi) as Hv. pose proof SIZE_range.
  pose proof (file_sector_region fl f file cl p Hi Hp) as Hr.
  pose proof (in_volume_range fl f _ (vol_geometry _ _ Hv) (or_intror (or_intror Hr))).
  rewrite Heq. split_and!.
  - eapply get_heap_sector_ok; [apply Hv|done].
  - rewrite cast_id by lia. apply udiv_ok. lia.
  - rewrite add_ok; unfold file_sector in *; rewrite Heq in *; [done|lia].
Qed.

(** What the two branches of a round write into the buffer. *)
Lemma read_chunk_ok fl f file cl buf br k :
  file_inv fl f file cl → 0 ≤ br → 0 < k → br + k ≤ len buf →
  cursor file mod SIZE + k ≤ SIZE → cursor file + k ≤ FileDetails.data_length (details file) →
  let valid_remainder := saturating_sub (FileDetails.valid_data_length (details file)) (cursor file) in
  (0 < valid_remainder → k ≤ valid_remainder) →
  let sector_offset := cursor file mod SIZE in
  ∃ f', (if 0 <? valid_remainder then
           slot ← zoom lsnd (zoom lsnd (zoom ldata (fetch (file_sector f cl (cursor file)))));
           bytes ← lift (slice slot sector_offset (sector_offset + k));
           buf ← gets fst;
           buf ← lift (copy_into buf br (br + k) bytes);
           modify (λ s, (buf, snd s)) ;;
           mret k
         else
           buf ← gets fst;
           buf ← lift (copy_into buf br (br + k) (zeros k));
           modify (λ s, (buf, snd s)) ;;
           mret k : M (list Z * (File * FileSystem)) err Z) (buf, (file, f)) =
      ((splice buf br (round_bytes fl f file cl k), (file, f')), Ok k) ∧
    vol_inv fl f' ∧ vol_same fl f f'.
Proof.
  intros Hi Hbr Hk Hbuf Hs Hl vr Hvr so. pose proof (file_vol _ _ _ _ Hi) as Hv.
  pose proof (file_cursor _ _ _ _ Hi). pose proof (file_lengths _ _ _ _ Hi).
  unfold round_bytes. rewrite (file_data_chunk fl f file cl _ k Hi) by lia.
  assert (Hcond : (0 <? vr) = (cursor file <? FileDetails.valid_data_length (details file))).
  { unfold vr, saturating_sub. lia. }
  rewrite Hcond. destruct (Z.ltb_spec (cursor file) (FileDetails.valid_data_length (details file))).
  - rewrite (file_bytes_chunk fl f file cl) by (done || (unfold vr, saturating_sub in Hvr; lia)).
    assert (Hreg : data_region f (file_sector f cl (cursor file))).
    { eapply file_sector_region; [done|]. unfold vr, saturating_sub in Hvr. lia. }
    destruct (data_fetch fl f _ Hv Hreg) as (f' & Hf & Hv' & Hst).
    exists f'. split; [|by split].
    erewrite bind_Ok; [|eapply zoom_to; [eapply zoom_to; [exact Hf|reflexivity]|reflexivity]].
    destruct (vseen_ok fl f _ Hv (or_intror (or_intror Hreg))) as [Hlen _].
    assert (0 ≤ so < SIZE) by (apply Z.mod_pos_bound; pose proof SIZE_range; lia).
    rewrite slice_ok, bind_lift_Ok by (unfold so in *; lia). cbn [put lsnd fst snd].
    erewrite bind_Ok; [|reflexivity]. cbn [fst].
    replace (so + k - so) with k by lia.
    rewrite copy_into_ok, bind_lift_Ok; [done|lia..|].
    rewrite len_take, len_drop. unfold so in *. lia.
  - exists f. split; [|split; [done|apply vol_step_refl]].
    erewrite bind_Ok; [|reflexivity]. cbn [fst].
    rewrite copy_into_ok, bind_lift_Ok; [done|lia..|]. rewrite zeros_len; lia.
Qed.

(** Position [p] of a file, at which [valid_remainder as usize] is zero although
    valid bytes are left: a positive multiple of [2 ^ usize] of them. *)
Definition stuck file (p : Z) : Prop :=
  p < FileDetails.valid_data_length (details file) ∧
  (FileDetails.valid_data_length (details file) - p) mod 2 ^ usize = 0.
#[export] Instance stuck_dec file p : Decision (stuck file p).
Proof. unfold stuck. apply _. Defined.

Lemma usize_big : 2 ^ 32 ≤ 2 ^ usize.
Proof using Hcfg. destruct usize_cases as [-> | ->]; lia. Qed.
Lemma stuck_after m v d : 0 < m → 0 ≤ d → (v - d) mod m = 0 → v mod m ≤ d.
Proof.
  intros Hm Hd Hz. apply Z.mod_divide in Hz as [q Hq]; [|lia].
  replace v with (d + q * m) by lia. rewrite Z.mod_add by lia. by apply Z.mod_le.
Qed.

Lemma read_step_ok fl f file cl buf br :
  file_inv fl f file cl → cursor file < FileDetails.data_length (details file) →
  0 ≤ br < len buf → len buf < 2 ^ usize → (stuck file (cursor file) → False) →
  ∃ k file' f', read_step br (buf, (file, f)) =
      ((splice buf br (round_bytes fl f file cl k), (file', f')), Ok (br + k)) ∧
    0 < k ∧ br + k ≤ len buf ∧ cursor file + k ≤ FileDetails.data_length (details file) ∧
    (∀ p, cursor file ≤ p → stuck file p → cursor file + k ≤ p) ∧
    file_inv fl f' file' cl ∧ vol_same fl f f' ∧ cursor_moved file file' ∧
    cursor file' = cursor file + k.
Proof.
  intros Hi Hc Hbr Hbuf Hns. pose proof (file_vol _ _ _ _ Hi) as Hv.
  pose proof (file_cursor _ _ _ _ Hi) as Hcur. pose proof (file_lengths _ _ _ _ Hi) as [Hlv Hla].
  pose proof (file_length_bound _ _ _ _ Hi).
  destruct (cluster_length_pos fl f Hv) as (? & ? & Hcl).
  assert (Hin : 0 ≤ cursor file < len cl * cluster_length (fs f)) by lia.
  destruct (next_cluster_ok fl f file cl Hi) as (file1 & f1 & Hn & Hv1 & Hst1 & Hm1 & Hc1 & Hcl1 & Hr1);
    [lia|].
  set (CL := cluster_length (fs f)) in *.
  assert (0 ≤ cursor file mod CL < CL) as Hmod by (apply Z.mod_pos_bound; lia).
  assert (0 ≤ cursor file mod SIZE < SIZE) as Hso by (apply Z.mod_pos_bound; lia).
  assert (Hi1 : file_inv fl f1 file1 cl).
  { eapply (file_inv_moved fl f f1 file file1); [done..|].
    exists (Z.to_nat (cursor file / CL)). assert (0 ≤ cursor file / CL) by (apply Z.div_pos; lia).
    pose proof (Z.div_mod (cursor file) CL ltac:(lia)). fold CL.
    rewrite Z2Nat.id, Hc1, Hr1 by lia. split_and!; [done|lia|lia|lia]. }
  pose proof Hm1 as (Hd1 & _). pose proof (step_fs _ _ _ _ Hst1) as Hfs1.
  destruct (cursor_sector_ok fl f1 file1 cl (cursor file) Hi1) as (Hg & Hq & Ha);
    [rewrite Hfs1; fold CL; lia|]. rewrite !Hfs1 in Hg, Hq, Ha. fold CL in Hg, Hq, Ha.
  rewrite (list_lookup_total_correct _ _ _ Hcl1) in Hg, Ha.
  (* the length of the round *)
  assert (Hcms : cursor file mod CL mod SIZE = cursor file mod SIZE).
  { rewrite Hcl, Z.rem_mul_r, Z.mul_comm, Z.mod_add, Z.mod_mod by (nia || lia). done. }
  set (vr := saturating_sub (FileDetails.valid_data_length (details file)) (cursor file)).
  set (c0 := Z.min (Z.min (SIZE - cursor file mod SIZE)
    (saturating_sub (FileDetails.data_length (details file)) (cursor file))) (len buf - br)).
  set (k := if 0 <? vr then Z.min c0 (cast usize vr) else c0).
  assert (Hvr : vr = Z.max 0 (FileDetails.valid_data_length (details file) - cursor file)) by done.
  pose proof usize_big as Hu. assert (0 < 2 ^ usize) as Hu2 by (destruct usize_cases as [-> | ->]; lia).
  assert (0 ≤ usize) as Hu0 by (destruct usize_cases as [-> | ->]; lia).
  pose proof (cast_range usize vr Hu0) as Hcr0.
  pose proof (Z.mod_le vr (2 ^ usize) ltac:(lia) Hu2) as Hcv. fold (cast usize vr) in Hcv.
  assert (Hck : 0 < vr → cast usize vr ≠ 0).
  { intros Hpos Hz. apply Hns. unfold stuck. split; [lia|].
    by replace (FileDetails.valid_data_length (details file) - cursor file) with vr by lia. }
  assert (Hk : 0 < k ∧ k ≤ c0 ∧ (0 < vr → k ≤ cast usize vr)).
  { unfold k, c0, saturating_sub. destruct (Z.ltb_spec 0 vr); lia. }
  assert (Hk0 : k ≤ SIZE - cursor file mod SIZE ∧ k ≤ len buf - br ∧
    cursor file + k ≤ FileDetails.data_length (details file))
    by (unfold c0, saturating_sub in Hk; lia).
  destruct (read_chunk_ok fl f1 file1 cl buf br k Hi1) as (f2 & Hchunk & Hv2 & Hst2);
    [lia|lia|lia|rewrite Hc1; lia|rewrite Hc1, Hd1; lia|rewrite Hc1, Hd1; fold vr; lia|].
  rewrite Hc1, Hd1 in Hchunk. fold vr in Hchunk.
  assert (Hend : cursor file mod CL + k ≤ CL).
  { assert (HS0 : SIZE ≠ 0) by lia.
    pose proof (Z.div_mod (cursor file mod CL) SIZE HS0) as Hdm. rewrite Hcms in Hdm.
    assert (cursor file mod CL / SIZE < sectors_per_cluster (fs f)) by (apply Z.div_lt_upper_bound; lia).
    assert (SIZE * (cursor file mod CL / SIZE + 1) ≤ SIZE * sectors_per_cluster (fs f))
      by (apply Z.mul_le_mono_nonneg_l; lia). lia. }
  pose proof (move_file_cursor_ok f2 file1 k) as Hmove. rewrite Hc1, Hr1 in Hmove.
  specialize (Hmove ltac:(lia) ltac:(lia) ltac:(lia)).
  set (file2 := set_position _ _ _ file1) in Hmove. exists k, file2, f2.
  assert (Hm2 : cursor_moved file file2) by done.
  split; [|split_and!; [lia..| | | |done|done]].
  - unfold read_step. rewrite (bind_Ok (gets _) _ _ (buf, (file, f)) (len buf)) by done.
    rewrite (bind_Ok (zoom lsnd get_file) _ _ (buf, (file, f)) file) by done. cbv zeta.
    rewrite (bind_Ok _ _ _ (buf, (file1, f1)) ()) by (by eapply zoom_to).
    rewrite (bind_Ok (zoom lsnd get_file) _ _ (buf, (file1, f1)) file1) by done.
    rewrite (bind_Ok (zoom lsnd get_fs) _ _ (buf, (file1, f1)) (fs f)) by (by rewrite <-Hfs1).
    unfold get_cluster_offset at 1. rewrite Hc1. fold CL.
    rewrite urem_ok by lia. cbn [mbind outcome_bind]. rewrite (cast_id u32 (cursor file mod CL)) by lia.
    rewrite bind_lift_Ok, Hg, bind_lift_Ok, Hq, bind_lift_Ok, Ha, bind_lift_Ok.
    rewrite Hcms, sub_ok, bind_lift_Ok by lia. fold vr. fold c0.
    rewrite (cast_id usize c0) by (unfold c0, saturating_sub; lia).
    rewrite (bind_Ok _ _ _ (splice buf br (round_bytes fl f1 file1 cl k), (file1, f2)) k).
    2: { rewrite <-Hchunk. unfold k. by destruct (0 <? vr). }
    rewrite (bind_Ok _ _ _ (splice buf br (round_bytes fl f1 file1 cl k), (file2, f2)) ())
      by (by eapply zoom_to).
    rewrite add_ok by lia. unfold lift. do 3 f_equal. unfold round_bytes.
    by rewrite Hd1, Hc1, (file_data_step fl f).
  - intros p Hp [Hpv Hpm]. destruct (Z.ltb_spec 0 vr); [|lia].
    pose proof (stuck_after (2 ^ usize) vr (p - cursor file)) as Hle. fold (cast usize vr) in Hle.
    cut (cast usize vr ≤ p - cursor file); [lia|]. apply Hle; [lia|lia|].
    replace (vr - (p - cursor file)) with (FileDetails.valid_data_length (details file) - p) by lia. done.
  - eapply (file_inv_moved fl f f2 file file2 cl (cursor file + k)); try done; [by eapply vol_step_trans|lia|].
    exists (Z.to_nat (cursor file / CL)). assert (0 ≤ cursor file / CL) by (apply Z.div_pos; lia).
    pose proof (Z.div_mod (cursor file) CL ltac:(lia)). fold CL. rewrite Z2Nat.id by lia.
    cbn. split_and!; [done|lia|lia|lia].
  - by eapply vol_step_trans.
Qed.
End ReadStep.

(** ** The loop *)
Section ReadLoop.
Context {cfg : Config} {crates : Crates} {bd : BlockDevice} {fu : Fuel}.
Context {Hcfg : ConfigOk cfg} {Hcr : CratesOk crates} {Hbd : DeviceOk cfg bd}.
Implicit Types (f : FileSystem) (file : File) (cl buf : list Z).

Lemma length_round_bytes fl f file cl k :
  0 ≤ k → 0 ≤ cursor file → cursor file + k ≤ FileDetails.data_length (details file) →
  length (round_bytes fl f file cl k) = Z.to_nat k.
Proof.
  intros. unfold round_bytes, file_data. rewrite length_take, length_drop, length_fmap, length_seqZ. lia.
Qed.

Lemma splice_splice buf br (x y : list Z) :
  0 ≤ br → br + len x + len y ≤ len buf →
  splice (splice buf br x) (br + len x) y = splice buf br (x ++ y).
Proof.
  intros Hbr Hl. unfold len in *.
  set (p := take (Z.to_nat br) buf ++ x).
  assert (Hp : length p = Z.to_nat (br + Z.of_nat (length x))).
  { unfold p. rewrite length_app, length_take. lia. }
  assert (Hs : splice buf br x = p ++ drop (Z.to_nat br + length x) buf)
    by (unfold splice, p; by rewrite <-app_assoc).
  rewrite Hs. unfold splice at 1. rewrite take_app_length', drop_app_ge by lia.
  unfold splice, p. rewrite drop_drop, !length_app, <-!app_assoc. do 4 f_equal.
  rewrite length_take. lia.
Qed.

(** The whole transfer of one call: as much as the buffer and the file allow. *)
Definition transfer file buf (br : Z) : Z :=
  Z.min (len buf - br) (FileDetails.data_length (details file) - cursor file).

(** The call comes to a position where [valid_remainder as usize] is zero
    before it has read all it should. *)
Definition read_stalls file buf (br : Z) : Prop :=
  ∃ p, cursor file ≤ p < cursor file + transfer file buf br ∧ stuck file p.
Lemma no_stall fl f file cl buf br :
  file_inv fl f file cl → 0 ≤ br → usize_bits = 64 ∨ FileDetails.data_length (details file) < 2 ^ usize →
  ¬ read_stalls file buf br.
Proof.
  intros Hi Hbr Hu (p & Hp & Hv & Hm). pose proof (file_cursor _ _ _ _ Hi). pose proof (file_lengths _ _ _ _ Hi).
  pose proof (file_length_bound _ _ _ _ Hi).
  assert (FileDetails.data_length (details file) < 2 ^ usize) by (destruct Hu as [->|]; [lia|done]).
  rewrite Z.mod_small in Hm by lia. lia.
Qed.

Lemma read_loop_ok fl n f file cl buf br :
  file_inv fl f file cl → cursor file < FileDetails.data_length (details file) →
  0 ≤ br < len buf → len buf < 2 ^ usize → ¬ read_stalls file buf br →
  len buf - br ≤ Z.of_nat n →
  ∃ file' f', read_loop n br (buf, (file, f)) =
      ((splice buf br (round_bytes fl f file cl (transfer file buf br)), (file', f')),
       Ok (br + transfer file buf br)) ∧
    file_inv fl f' file' cl ∧ vol_same fl f f' ∧ cursor_moved file file' ∧
    cursor file' = cursor file + transfer file buf br.
Proof.
  revert f file buf br. induction n as [|n IH]; intros f file buf br Hi Hc Hbr Hbuf Hns Hn; [lia|].
  pose proof (file_cursor _ _ _ _ Hi) as Hcur.
  assert (Hnk : ∀ p, cursor file ≤ p < cursor file + transfer file buf br → stuck file p → False).
  { intros p Hp Hs. apply Hns. by exists p. }
  destruct (read_step_ok fl f file cl buf br Hi Hc Hbr Hbuf)
    as (k & file1 & f1 & Hr & Hk & Hkb & Hkd & _ & Hi1 & Hst1 & Hm1 & Hc1).
  { apply Hnk. unfold transfer. lia. } pose proof Hm1 as (Hd1 & _).
  set (buf1 := splice buf br (round_bytes fl f file cl k)) in *.
  assert (Hlk : len (round_bytes fl f file cl k) = k)
    by (unfold len; rewrite length_round_bytes by lia; lia).
  assert (Hl1 : len buf1 = len buf).
  { unfold buf1, len in *. rewrite length_splice; unfold len; lia. }
  cbn [read_loop]. rewrite (bind_Ok _ _ _ _ _ Hr).
  rewrite (bind_Ok (gets _) _ _ (buf1, (file1, f1)) (len buf1)) by done.
  rewrite (bind_Ok (zoom lsnd get_file) _ _ (buf1, (file1, f1)) file1) by done.
  unfold eof. rewrite Hl1, Hd1, Hc1. unfold transfer.
  destruct (Z.eqb_spec (br + k) (len buf)) as [Heq|Hne]; cbn [orb].
  { exists file1, f1. rewrite Z.min_l by lia. replace (len buf - br) with k by lia.
    split_and!; [done|done..|lia]. }
  destruct (Z.leb_spec (FileDetails.data_length (details file)) (cursor file + k)).
  { exists file1, f1. rewrite Z.min_r by lia.
    replace (FileDetails.data_length (details file) - cursor file) with k by lia.
    split_and!; [done|done..|lia]. }
  destruct (IH f1 file1 buf1 (br + k) Hi1) as (file' & f' & Hl & Hi' & Hst' & Hm' & Hc');
    [rewrite Hd1, Hc1; lia|lia|by rewrite Hl1| |lia|].
  { intros (p & Hp & Hs). unfold stuck in Hs. unfold transfer in Hp. rewrite Hl1, ?Hd1, Hc1 in *.
    apply (Hnk p); [unfold transfer; lia|done]. }
  unfold transfer in Hl, Hc'. rewrite Hl1, Hd1, Hc1 in Hl, Hc'.
  set (k' := Z.min (len buf - (br + k))
    (FileDetails.data_length (details file) - (cursor file + k))) in *.
  assert (Hk' : 0 ≤ k' ∧ Z.min (len buf - br)
    (FileDetails.data_length (details file) - cursor file) = k + k') by lia.
  destruct Hk' as [Hk' ->]. exists file', f'.
  split_and!; [|done|by eapply vol_step_trans|by eapply cursor_moved_trans|lia].
  assert (Hb1 : round_bytes fl f1 file1 cl k' =
    take (Z.to_nat k') (drop (Z.to_nat (cursor file + k)) (file_data fl f (details file) cl))).
  { unfold round_bytes. by rewrite Hd1, Hc1, (file_data_step fl f). }
  assert (len (round_bytes fl f1 file1 cl k') = k')
    by (unfold len; rewrite length_round_bytes; rewrite ?Hc1, ?Hd1; lia).
  assert (Hb : splice buf1 (br + k) (round_bytes fl f1 file1 cl k') =
    splice buf br (round_bytes fl f file cl (k + k'))).
  { unfold buf1. rewrite <-Hlk at 2. rewrite splice_splice by lia. f_equal. rewrite Hb1.
    unfold round_bytes. rewrite (Z2Nat.inj_add (cursor file)), <-drop_drop by lia.
    rewrite take_take_drop. f_equal. lia. }
  by rewrite Hl, Hb, Z.add_assoc.
Qed.

(** At a stuck position a round reads nothing and moves nothing. *)
Lemma read_step_stuck fl f file cl buf br :
  file_inv fl f file cl → 0 ≤ br < len buf → len buf < 2 ^ usize → stuck file (cursor file) →
  ∃ file' f', read_step br (buf, (file, f)) = ((buf, (file', f')), Ok br) ∧
    file_inv fl f' file' cl ∧ vol_same fl f f' ∧ cursor_moved file file' ∧ cursor file' = cursor file.
Proof.
  intros Hi Hbr Hbuf [Hcv Hcm]. pose proof (file_vol _ _ _ _ Hi) as Hv.
  pose proof (file_cursor _ _ _ _ Hi) as Hcur. pose proof (file_lengths _ _ _ _ Hi) as [Hlv Hla].
  pose proof (file_length_bound _ _ _ _ Hi).
  destruct (cluster_length_pos fl f Hv) as (? & ? & Hcl).
  destruct (next_cluster_ok fl f file cl Hi) as (file1 & f1 & Hn & Hv1 & Hst1 & Hm1 & Hc1 & Hcl1 & Hr1);
    [lia|].
  set (CL := cluster_length (fs f)) in *.
  assert (0 ≤ cursor file mod CL < CL) as Hmod by (apply Z.mod_pos_bound; lia).
  assert (0 ≤ cursor file mod SIZE < SIZE) as Hso by (apply Z.mod_pos_bound; lia).
  assert (Hcms : cursor file mod CL mod SIZE = cursor file mod SIZE).
  { rewrite Hcl, Z.rem_mul_r, Z.mul_comm, Z.mod_add, Z.mod_mod by (nia || lia). done. }
  assert (Hp1 : position_ok f file1 cl).
  { exists (Z.to_nat (cursor file / CL)). assert (0 ≤ cursor file / CL) by (apply Z.div_pos; lia).
    pose proof (Z.div_mod (cursor file) CL ltac:(lia)). fold CL.
    rewrite Z2Nat.id, Hc1, Hr1 by lia. split_and!; [done|lia|lia|lia]. }
  assert (Hi1 : file_inv fl f1 file1 cl) by by apply (file_inv_moved fl f f1 file file1 cl (cursor file)).
  pose proof Hm1 as (Hd1 & _). pose proof (step_fs _ _ _ _ Hst1) as Hfs1.
  destruct (cursor_sector_ok fl f1 file1 cl (cursor file) Hi1) as (Hg & Hq & Ha);
    [rewrite Hfs1; fold CL; lia|]. rewrite !Hfs1 in Hg, Hq, Ha. fold CL in Hg, Hq, Ha.
  rewrite (list_lookup_total_correct _ _ _ Hcl1) in Hg, Ha.
  assert (Hreg : data_region f1 (file_sector f1 cl (cursor file))).
  { eapply file_sector_region; [exact Hi1|]. rewrite Hfs1. fold CL. lia. }
  destruct (data_fetch fl f1 _ Hv1 Hreg) as (f2 & Hf & Hv2 & Hst2).
  destruct (vseen_ok fl f1 _ Hv1 (or_intror (or_intror Hreg))) as [Hlen _].
  assert (Hst : vol_same fl f f2) by by eapply vol_step_trans.
  exists file1, f2. split; [|split_and!; [|done|done|done]].
  - unfold read_step. rewrite (bind_Ok (gets _) _ _ (buf, (file, f)) (len buf)) by done.
    rewrite (bind_Ok (zoom lsnd get_file) _ _ (buf, (file, f)) file) by done. cbv zeta.
    rewrite (bind_Ok _ _ _ (buf, (file1, f1)) ()) by (by eapply zoom_to).
    rewrite (bind_Ok (zoom lsnd get_file) _ _ (buf, (file1, f1)) file1) by done.
    rewrite (bind_Ok (zoom lsnd get_fs) _ _ (buf, (file1, f1)) (fs f)) by (by rewrite <-Hfs1).
    unfold get_cluster_offset at 1. rewrite Hc1. fold CL.
    rewrite urem_ok by lia. cbn [mbind outcome_bind]. rewrite (cast_id u32 (cursor file mod CL)) by lia.
    rewrite bind_lift_Ok, Hg, bind_lift_Ok, Hq, bind_lift_Ok, Ha, bind_lift_Ok.
    rewrite Hcms, sub_ok, bind_lift_Ok by lia.
    unfold saturating_sub. rewrite !Z.max_r by lia.
    change (cast usize (FileDetails.valid_data_length (details file) - cursor file)) with
      ((FileDetails.valid_data_length (details file) - cursor file) mod 2 ^ usize).
    rewrite Hcm, (proj2 (Z.ltb_lt _ _)) by lia.
    assert (0 < 2 ^ usize) as Hu by (destruct usize_cases as [-> | ->]; lia).
    rewrite Z.min_r by apply Z.mod_pos_bound, Hu.
    rewrite (bind_Ok _ _ _ (buf, (file1, f2)) 0).
    2: { erewrite bind_Ok; [|eapply zoom_to; [eapply zoom_to; [exact Hf|reflexivity]|reflexivity]].
         rewrite slice_ok, bind_lift_Ok by lia. cbn [put lsnd fst snd].
         erewrite bind_Ok; [|reflexivity]. cbn [fst].
         assert (Hz : take (Z.to_nat (cursor file mod SIZE + 0 - cursor file mod SIZE))
           (drop (Z.to_nat (cursor file mod SIZE)) (vseen fl f1 (file_sector f1 cl (cursor file)))) = []).
         { by replace (cursor file mod SIZE + 0 - cursor file mod SIZE) with 0 by lia. }
         rewrite Hz, copy_into_ok, bind_lift_Ok by (change (len (@nil Z)) with 0; lia).
         unfold splice. cbn [app length]. by rewrite Nat.add_0_r, take_drop. }
    rewrite (bind_Ok _ _ _ (buf, (file1, f2)) ()).
    2: { eapply zoom_to; [apply move_file_cursor_ok; lia|]. rewrite Z.sub_0_r, Z.add_0_r. by destruct file1. }
    by rewrite add_ok, Z.add_0_r by lia.
  - apply (file_inv_moved fl f f2 file file1 cl (cursor file)); done.
Qed.

(** A call that stalls goes round for ever: no number of rounds is enough. *)
Lemma read_loop_stalls fl n f file cl buf br :
  file_inv fl f file cl → 0 ≤ br < len buf → len buf < 2 ^ usize → read_stalls file buf br →
  snd (read_loop n br (buf, (file, f))) = OutOfFuel.
Proof.
  revert f file buf br. induction n as [|n IH]; intros f file buf br Hi Hbr Hbuf Hs; [done|].
  pose proof (file_cursor _ _ _ _ Hi) as Hcur. destruct Hs as (p & Hp & Hs).
  assert (Hnext : ∃ k buf1 file1 f1, read_step br (buf, (file, f)) = ((buf1, (file1, f1)), Ok (br + k)) ∧
    0 ≤ k ∧ cursor file + k ≤ p ∧ len buf1 = len buf ∧ file_inv fl f1 file1 cl ∧
    cursor_moved file file1 ∧ cursor file1 = cursor file + k).
  { destruct (decide (stuck file (cursor file))) as [Hst|Hst].
    - destruct (read_step_stuck fl f file cl buf br Hi Hbr Hbuf Hst) as (file1 & f1 & Hr & Hi1 & _ & Hm1 & Hc1).
      exists 0, buf, file1, f1. rewrite !Z.add_0_r. split_and!; try done. lia.
    - assert (Hlt : cursor file < FileDetails.data_length (details file)) by (unfold transfer in Hp; lia).
      destruct (read_step_ok fl f file cl buf br Hi Hlt Hbr Hbuf Hst)
        as (k & file1 & f1 & Hr & Hk & Hkb & Hkd & Hkp & Hi1 & _ & Hm1 & Hc1).
      eexists k, _, file1, f1. split; [exact Hr|]. split; [lia|]. split; [by apply Hkp; [lia|]|].
      assert (len (round_bytes fl f file cl k) = k)
        by (unfold len; rewrite length_round_bytes by lia; lia).
      split_and!; try done. unfold len in *. rewrite length_splice; unfold len; lia. }
  destruct Hnext as (k & buf1 & file1 & f1 & Hr & Hk & Hkp & Hl & Hi1 & Hm1 & Hc1).
  pose proof Hm1 as (Hd1 & _). unfold transfer in Hp.
  cbn [read_loop]. rewrite (bind_Ok _ _ _ _ _ Hr).
  rewrite (bind_Ok (gets _) _ _ (buf1, (file1, f1)) (len buf1)) by done.
  rewrite (bind_Ok (zoom lsnd get_file) _ _ (buf1, (file1, f1)) file1) by done.
  unfold eof. rewrite Hl, Hd1, Hc1.
  rewrite (proj2 (Z.eqb_neq _ _)), (proj2 (Z.leb_gt _ _)) by lia. cbn [orb].
  apply (IH f1 file1 buf1 (br + k) Hi1); [lia|by rewrite Hl|].
  exists p. unfold stuck, transfer. rewrite Hl, Hd1, Hc1. split; [lia|exact Hs].
Qed.
End ReadLoop.

(** * Theorems *)
Section Theorems.
Context {cfg : Config} {crates : Crates} {bd : BlockDevice} {fu : Fuel}.
Context {Hcfg : ConfigOk cfg} {Hcr : CratesOk crates} {Hbd : DeviceOk cfg bd}.
Implicit Types (f : FileSystem) (file : File) (cl buf : list Z).

(** What [File::read] does to the buffer, the file and its result. *)
Definition read_result fl f file cl buf (buf' : list Z) file' (o : outcome err (option Z)) : Prop :=
  if negb (OpenOptions.read (open_options file)) then
    o = Err ReadNotEnabled ∧ buf' = buf ∧ file' = file
  else if eof file then o = Ok None ∧ buf' = buf ∧ file' = file
  else
    let k := transfer file buf 0 in
    o = Ok (Some k) ∧ cursor_moved file file' ∧ cursor file' = cursor file + k ∧
    buf' = take (Z.to_nat k) (drop (Z.to_nat (cursor file)) (file_data fl f (details file) cl)) ++
           drop (Z.to_nat k) buf.

Lemma mounted_ok fl f : vol_inv fl f → mount f = (f, Ok ()).
Proof.
  intros Hv. unfold mount. rewrite (bind_Ok (gets _) _ _ f (is_mounted f)) by done.
  by rewrite (vol_mounted _ _ Hv).
Qed.

Lemma read_no_stall_ok fl f file cl buf :
  file_inv fl f file cl → len buf < 2 ^ usize →
  ¬ read_stalls file buf 0 →
  ∃ buf' file' f' o, read (buf, (file, f)) = ((buf', (file', f')), o) ∧
    read_result fl f file cl buf buf' file' o ∧ file_inv fl f' file' cl ∧ vol_same fl f f'.
Proof.
  intros Hi Hbuf Hns. pose proof (file_vol _ _ _ _ Hi) as Hv. unfold read, read_result.
  rewrite (bind_Ok _ _ _ (buf, (file, f)) ())
    by (eapply zoom_to; [eapply zoom_to; [by eapply mounted_ok|]|]; done).
  rewrite (bind_Ok (zoom lsnd get_file) _ _ (buf, (file, f)) file) by done.
  destruct (negb (OpenOptions.read (open_options file))).
  { by exists buf, file, f, (Err ReadNotEnabled). }
  destruct (eof file) eqn:He.
  { by exists buf, file, f, (Ok None). }
  unfold eof in He. pose proof (file_cursor _ _ _ _ Hi).
  rewrite (bind_Ok (gets _) _ _ (buf, (file, f)) (length buf)) by done.
  destruct (Nat.eqb_spec (length buf) 0) as [Hz|Hnz].
  - exists buf, file, f, (Ok (Some 0)). unfold transfer, len. rewrite Hz, Z.min_l by lia.
    split_and!; try done. lia.
  - destruct (read_loop_ok fl (length buf) f file cl buf 0 Hi) as (file' & f' & Hl & Hi' & Hst & Hm & Hc);
      [lia|unfold len; lia|done|done|unfold len; lia|].
    rewrite (bind_Ok _ _ _ _ _ Hl).
    eexists _, file', f', _. split; [reflexivity|]. split; [|by split].
    split; [done|]. split; [done|]. split; [done|].
    unfold splice. cbn [Z.to_nat take app Nat.add].
    fold (round_bytes fl f file cl (transfer file buf 0)).
    by rewrite length_round_bytes by (unfold transfer, len; lia).
Qed.

Lemma read_stalls_ok fl f file cl buf :
  file_inv fl f file cl → len buf < 2 ^ usize → read_stalls file buf 0 →
  OpenOptions.read (open_options file) = true →
  snd (read (buf, (file, f))) = OutOfFuel ∧ ∀ n, snd (read_loop n 0 (buf, (file, f))) = OutOfFuel.
Proof.
  intros Hi Hbuf Hs Ho. pose proof (file_vol _ _ _ _ Hi) as Hv. pose proof Hs as (p & Hp & _). unfold transfer in Hp.
  assert (Hl : ∀ n, snd (read_loop n 0 (buf, (file, f))) = OutOfFuel).
  { intros n. apply (read_loop_stalls fl n f file cl buf 0 Hi); [lia|done|done]. }
  split; [|done]. unfold read.
  rewrite (bind_Ok _ _ _ (buf, (file, f)) ())
    by (eapply zoom_to; [eapply zoom_to; [by eapply mounted_ok|]|]; done).
  rewrite (bind_Ok (zoom lsnd get_file) _ _ (buf, (file, f)) file) by done.
  rewrite Ho. unfold eof. cbn [negb]. rewrite (proj2 (Z.leb_gt _ _)) by lia.
  rewrite (bind_Ok (gets _) _ _ (buf, (file, f)) (length buf)) by done.
  destruct (Nat.eqb_spec (length buf) 0) as [Hz|Hnz]; [unfold len in Hp; lia|].
  specialize (Hl (length buf)). unfold mbind, M_bind.
  destruct (read_loop (length buf) 0 (buf, (file, f))) as [s' []]; cbn in *; by simplify_eq.
Qed.

Lemma read_ok fl f file cl buf :
  file_inv fl f file cl → len buf < 2 ^ usize →
  FileDetails.data_length (details file) < 2 ^ usize →
  ∃ buf' file' f' o, read (buf, (file, f)) = ((buf', (file', f')), o) ∧
    read_result fl f file cl buf buf' file' o ∧ file_inv fl f' file' cl ∧ vol_same fl f f'.
Proof. intros Hi Hbuf Hdl. apply read_no_stall_ok; [done|done|]. apply (no_stall fl f file cl); auto. lia. Qed.

(** [read_to_end_inner] on a buffer no longer than what is left of the file. *)
Lemma read_to_end_inner_ok fl f file cl buf :
  file_inv fl f file cl → len buf < 2 ^ usize →
  FileDetails.data_length (details file) < 2 ^ usize →
  OpenOptions.read (open_options file) = true →
  cursor file + len buf ≤ FileDetails.data_length (details file) →
  ∃ file' f', read_to_end_inner (buf, (file, f)) =
      ((round_bytes fl f file cl (len buf), (file', f')), Ok (len buf)) ∧
    file_inv fl f' file' cl ∧ vol_same fl f f' ∧ cursor_moved file file' ∧
    cursor file' = cursor file + len buf.
Proof.
  intros Hi Hbuf Hdl Hopt Hl. pose proof (len_nonneg buf).
  unfold read_to_end_inner.
  rewrite (bind_Ok (zoom lsnd get_file) _ _ (buf, (file, f)) file) by done. rewrite Hopt. cbn [negb].
  rewrite (bind_Ok (gets _) _ _ (buf, (file, f)) (length buf)) by done. cbn [fill_loop].
  rewrite (bind_Ok (gets _) _ _ (buf, (file, f)) (len buf)) by done.
  destruct (Z.ltb_spec 0 (len buf)) as [Hpos|Hz].
  - destruct (read_ok fl f file cl buf Hi Hbuf Hdl) as (buf' & file' & f' & o & Hr & Hres & Hi' & Hst).
    unfold read_result, eof in Hres. rewrite Hopt in Hres. cbn [negb] in Hres.
    rewrite (proj2 (Z.leb_gt _ _)) in Hres by lia. destruct Hres as (-> & Hm & Hc & Hb).
    unfold transfer in *. rewrite Z.sub_0_r, Z.min_l in * by lia.
    fold (round_bytes fl f file cl (len buf)) in Hb.
    assert (Hd : drop (Z.to_nat (len buf)) buf = []) by (apply drop_ge; unfold len; lia).
    rewrite Hd, app_nil_r in Hb. subst buf'.
    exists file', f'. split; [|by split_and!].
    rewrite (bind_Ok _ _ _ (round_bytes fl f file cl (len buf), (file', f')) (Some (len buf)))
      by (by eapply zoom_to).
    rewrite (proj2 (Z.ltb_lt _ _)) by lia.
    pose proof (file_cursor _ _ _ _ Hi). destruct buf as [|x buf]; [by unfold len in Hpos; cbn in Hpos; lia|].
    cbn [length fill_loop].
    rewrite (bind_Ok (gets _) _ _ (round_bytes fl f file cl (len (x :: buf)), (file', f')) (len (x :: buf))).
    2: { unfold gets. cbn [fst compose]. do 2 f_equal. unfold len at 1.
         rewrite length_round_bytes; lia. }
    rewrite Z.add_0_l, Z.ltb_irrefl. done.
  - assert (buf = []) as -> by (apply nil_length_inv; unfold len in *; lia).
    exists file, f. change (len (@nil Z)) with 0. rewrite Z.add_0_r.
    split_and!; try done.
Qed.

(** C1 - reading a file returns its bytes: in every state that satisfies the
    invariant, [File::read] ends and copies into the front of the buffer exactly
    the next bytes of the file (the bytes of its clusters in chain order, zeros
    behind the valid length), as many as the buffer and the length of the file
    allow, however they are spread over sectors and clusters; it moves the
    cursor by that number, keeps the invariant and changes nothing else; at the
    end of the file it answers [None], without read access it refuses.  This
    holds unless the call stalls, that is unless it comes, before it is through,
    to a position with a positive multiple of [2 ^ usize] valid bytes left; then
    it never ends, whatever the number of rounds ([valid_remainder as usize] is
    zero, so every further round reads nothing).  No call stalls on a 64-bit
    build, nor on a file shorter than [2 ^ usize]. *)
Theorem read_returns_file_bytes fl f file cl buf :
  file_inv fl f file cl → len buf < 2 ^ usize →
  (¬ read_stalls file buf 0 →
   ∃ buf' file' f' o, read (buf, (file, f)) = ((buf', (file', f')), o) ∧
     read_result fl f file cl buf buf' file' o ∧ file_inv fl f' file' cl ∧ vol_same fl f f') ∧
  (read_stalls file buf 0 → OpenOptions.read (open_options file) = true →
   snd (read (buf, (file, f))) = OutOfFuel ∧
   ∀ n, snd (read_loop n 0 (buf, (file, f))) = OutOfFuel) ∧
  (usize_bits = 64 ∨ FileDetails.data_length (details file) < 2 ^ usize → ¬ read_stalls file buf 0).
Proof.
  intros Hi Hbuf. split_and!.
  - by apply read_no_stall_ok.
  - intros Hs Ho. by apply (read_stalls_ok fl f file cl).
  - by apply (no_stall fl f file cl).
Qed.

Lemma read_to_end_ok fl f file cl buf :
  file_inv fl f file cl → OpenOptions.read (open_options file) = true →
  FileDetails.data_length (details file) < 2 ^ usize →
  len buf + FileDetails.data_length (details file) < 2 ^ usize →
  let data := file_data fl f (details file) cl in
  ∃ file' f', read_to_end (buf, (file, f)) =
     ((buf ++ drop (Z.to_nat (cursor file)) data, (file', f')),
      Ok (FileDetails.data_length (details file) - cursor file)) ∧
   file_inv fl f' file' cl ∧ vol_same fl f f' ∧ cursor_moved file file' ∧
   cursor file' = FileDetails.data_length (details file).
Proof.
  intros Hi Hopt Hdl Hbuf data. pose proof (file_vol _ _ _ _ Hi) as Hv.
  pose proof (file_cursor _ _ _ _ Hi) as Hcur. pose proof (file_lengths _ _ _ _ Hi) as [Hlen _].
  pose proof (len_nonneg buf).
  assert (Hdata : length data = Z.to_nat (FileDetails.data_length (details file)))
    by (unfold data, file_data; by rewrite length_fmap, length_seqZ).
  set (l := FileDetails.data_length (details file) - cursor file) in *.
  destruct (read_to_end_inner_ok fl f file cl (zeros l) Hi) as (file' & f' & Hr & Hi' & Hst & Hmv & Hc);
    [rewrite zeros_len; lia|done|done|rewrite zeros_len; lia|].
  rewrite zeros_len in Hr, Hc by lia. exists file', f'. split; [|split; [done|split; [done|split; [done|lia]]]].
  unfold read_to_end. rewrite (bind_Ok _ _ _ (buf, (file, f)) ())
    by (eapply zoom_to; [eapply zoom_to; [by eapply mounted_ok|]|]; done).
  rewrite (bind_Ok (zoom lsnd get_file) _ _ (buf, (file, f)) file) by done. cbv zeta.
  unfold saturating_sub. rewrite Z.max_r, cast_id by lia. fold l.
  rewrite (bind_Ok (gets _) _ _ (buf, (file, f)) (length buf)) by done.
  rewrite add_ok, bind_lift_Ok by (unfold len in *; lia).
  rewrite (bind_Ok (modify _) _ _ (buf ++ zeros l, (file, f)) ()) by done.
  rewrite (bind_Ok _ _ _ (buf ++ round_bytes fl f file cl l, (file', f')) l).
  2: { eapply zoom_to; [cbn [view lslice fst snd]; rewrite drop_app_length; exact Hr|].
       cbn [put lslice fst snd]. by rewrite take_app_length. }
  assert (Hrb : round_bytes fl f file cl l = drop (Z.to_nat (cursor file)) data).
  { unfold round_bytes. apply take_ge. fold data. rewrite length_drop. lia. }
  rewrite (bind_Ok (modify _) _ _ (buf ++ drop (Z.to_nat (cursor file)) data, (file', f')) ()); [done|].
  unfold modify. cbn [fst snd]. rewrite Hrb, take_ge; [done|]. rewrite length_app, length_drop. lia.
Qed.

Lemma read_to_string_ok fl f file cl :
  file_inv fl f file cl → OpenOptions.read (open_options file) = true →
  FileDetails.data_length (details file) < 2 ^ usize →
  let data := file_data fl f (details file) cl in
  let text := drop (Z.to_nat (cursor file))
    (take (Z.to_nat (FileDetails.valid_data_length (details file))) data) in
  ∃ file' f', read_to_string (file, f) =
     ((file', f'), match from_utf8 text with Some s => Ok s | None => Err Utf8Error end) ∧
   file_inv fl f' file' cl ∧ vol_same fl f f' ∧ cursor_moved file file' ∧
   cursor file' = Z.max (cursor file) (FileDetails.valid_data_length (details file)).
Proof.
  intros Hi Hopt Hdl data text. pose proof (file_vol _ _ _ _ Hi) as Hv.
  pose proof (file_cursor _ _ _ _ Hi) as Hcur. pose proof (file_lengths _ _ _ _ Hi) as [Hlen _].
  assert (Hdata : length data = Z.to_nat (FileDetails.data_length (details file)))
    by (unfold data, file_data; by rewrite length_fmap, length_seqZ).
  set (l := saturating_sub (FileDetails.valid_data_length (details file)) (cursor file)).
  assert (Hl : 0 ≤ l ∧ cursor file + l ≤ FileDetails.data_length (details file))
    by (unfold l, saturating_sub; lia).
  destruct (read_to_end_inner_ok fl f file cl (zeros l) Hi) as (file' & f' & Hr & Hi' & Hst & Hmv & Hc);
    [rewrite zeros_len; lia|done|done|rewrite zeros_len; lia|].
  rewrite zeros_len in Hr, Hc by lia. exists file', f'.
  split; [|split; [done|split; [done|split; [done|unfold l, saturating_sub in Hc; lia]]]].
  unfold read_to_string. rewrite (bind_Ok _ _ _ (file, f) ())
    by (eapply zoom_to; [by eapply mounted_ok|]; done).
  rewrite (bind_Ok get_file _ _ (file, f) file) by done. cbv zeta. fold l.
  rewrite cast_id by lia.
  rewrite (bind_Ok _ _ _ (file', f') (round_bytes fl f file cl l, l))
    by (etransitivity; [eapply with_local_eq; exact Hr|done]).
  cbv iota beta. rewrite slice_ok, bind_lift_Ok.
  2: lia. 2: unfold len; rewrite length_round_bytes; lia.
  assert (Ht : take (Z.to_nat (l - 0)) (drop (Z.to_nat 0) (round_bytes fl f file cl l)) = text).
  { rewrite Z.sub_0_r. cbn [Z.to_nat]. rewrite drop_0, take_ge by (rewrite length_round_bytes; lia).
    unfold text, round_bytes. fold data. rewrite skipn_firstn_comm. f_equal.
    unfold l, saturating_sub. lia. }
  rewrite Ht. by destruct (from_utf8 text).
Qed.

(** [read_to_end] appends to the vector exactly the rest of the file, from
    the cursor to its length, and reports how much that was; [read_to_string]
    returns the text of the valid bytes from the cursor on, or [Utf8Error] when
    they are not UTF-8.  Both leave the cursor behind what they read. *)
Theorem read_to_end_returns_rest fl f file cl buf :
  file_inv fl f file cl → OpenOptions.read (open_options file) = true →
  FileDetails.data_length (details file) < 2 ^ usize →
  len buf + FileDetails.data_length (details file) < 2 ^ usize →
  let data := file_data fl f (details file) cl in
  let text := drop (Z.to_nat (cursor file))
    (take (Z.to_nat (FileDetails.valid_data_length (details file))) data) in
  (∃ file' f', read_to_end (buf, (file, f)) =
      ((buf ++ drop (Z.to_nat (cursor file)) data, (file', f')),
       Ok (FileDetails.data_length (details file) - cursor file)) ∧
    file_inv fl f' file' cl ∧ vol_same fl f f' ∧ cursor_moved file file' ∧
    cursor file' = FileDetails.data_length (details file)) ∧
  (∃ file' f', read_to_string (file, f) =
      ((file', f'), match from_utf8 text with Some s => Ok s | None => Err Utf8Error end) ∧
    file_inv fl f' file' cl ∧ vol_same fl f f' ∧ cursor_moved file file' ∧
    cursor file' = Z.max (cursor file) (FileDetails.valid_data_length (details file))).
Proof.
  intros Hi Hopt Hdl Hbuf data text. split; [by apply read_to_end_ok|by apply read_to_string_ok].
Qed.
End Theorems.

(** * A concrete file *)
Section Sample.
#[local] Existing Instance debug_build.
#[local] Existing Instance dummy_device.
#[local] Existing Instance reference_crates.
#[local] Existing Instance reference_crates_ok.
#[local] Existing Instance debug_build_ok.
#[local] Instance sample_read_device_ok : DeviceOk debug_build dummy_device := blank_ok.
#[local] Instance sample_read_fuel : Fuel := 10%nat.

(** A volume whose FAT links cluster 5 to cluster 7, and whose bitmap has
    these, itself and the root directory. *)
Definition fragmented_device : DummyBlockDevice := {|
  blocks := <[1%nat := splice (zeros 512) 20 (to_le_bytes 4 7 ++ [0; 0; 0; 0] ++ to_le_bytes 4 END_OF_CHAIN)]>
    (<[2%nat := 43 :: zeros 511]> (<[5%nat := replicate 512 0xAA]> (<[7%nat := replicate 512 0xBB]> (blocks (blank 10)))));
  write_count := 0 |}.
Definition fragmented_volume : FileSystem := volume_on fragmented_device.

(** An open file on these clusters: 700 bytes, 600 of them valid. *)
Definition fragmented_file : File := {|
  details := {| FileDetails.first_cluster := 5; FileDetails.data_length := 700;
    FileDetails.valid_data_length := 600; FileDetails.attributes := Archive;
    FileDetails.location := {| Location.sector_id := 3; Location.dir_entry_offset := 0 |};
    FileDetails.flags := AllocationPossible; FileDetails.secondary_count := 2;
    FileDetails.created := EncodedTimestamp_default; FileDetails.modified := EncodedTimestamp_default;
    FileDetails.accessed := EncodedTimestamp_default |};
  current_cluster := 5; remaining_bytes_in_cluster := 512; cursor := 0;
  open_options := OpenOptions.set_read true OpenOptions.new;
  chain := FatChain 5 7 2; touched := FileDirty_new |}.

Lemma fragmented_addressable s : 0 ≤ s < 10 → dummy_addressable fragmented_device s.
Proof.
  intros Hs. split; [exact Hs|]. apply (bool_decide_unpack _). vm_compute. exact I.
Qed.

Lemma fragmented_file_inv : file_inv 1 fragmented_volume fragmented_file [5; 7].
Proof.
  split.
  - apply volume_on_inv, fragmented_addressable.
  - split_and!; [done..|]. intros [|[|i]] a b; cbn; [|done..].
    intros [= <-] [= <-]. vm_compute. reflexivity.
  - unfold data_cluster, cluster_ok, cluster_sector, data_region, heap_region, bitmap_region. cbn.
    repeat (apply Forall_cons_2; [split; [lia|intros k Hk; lia]|]). apply Forall_nil_2.
  - apply (bool_decide_unpack _). vm_compute. exact I.
  - cbn. unfold len. cbn. lia.
  - cbn. lia.
  - intros _. exists 0%nat. cbn. split_and!; [done|lia..].
Qed.

Lemma read_returns_file_bytes_witness :
  ∃ buf' file' f', read (zeros 650, (fragmented_file, fragmented_volume)) =
      ((buf', (file', f')), Ok (Some 650)) ∧
    file_inv 1 f' file' [5; 7] ∧
    buf' = replicate 512 0xAA ++ replicate 88 0xBB ++ zeros 50.
Proof.
  destruct (read_returns_file_bytes 1 fragmented_volume fragmented_file [5; 7] (zeros 650)
    fragmented_file_inv) as (H & _ & Hn); [vm_compute; reflexivity|].
  destruct H as (buf' & file' & f' & o & Hr & Hres & Hi & _); [apply Hn; right; vm_compute; reflexivity|].
  destruct Hres as (-> & _ & _ & Hb). exists buf', file', f'.
  split; [exact Hr|]. split; [exact Hi|]. rewrite Hb. vm_compute. reflexivity.
Defined.

Lemma read_to_end_returns_rest_witness :
  ∃ file' f', read_to_end ([1; 2], (fragmented_file, fragmented_volume)) =
    (([1; 2] ++ replicate 512 0xAA ++ replicate 88 0xBB ++ zeros 100, (file', f')), Ok 700).
Proof.
  destruct (read_to_end_returns_rest 1 fragmented_volume fragmented_file [5; 7] [1; 2]
    fragmented_file_inv) as [(file' & f' & Hr & _) _]; [reflexivity|vm_compute; reflexivity..|].
  exists file', f'. etransitivity; [exact Hr|]. vm_compute. reflexivity.
Defined.
End Sample.

(** * A file of 4 GiB on a 32-bit build *)
Section Stall.
#[local] Existing Instance debug_build.
#[local] Existing Instance reference_crates.
#[local] Existing Instance reference_crates_ok.
#[local] Existing Instance debug_build_ok.
#[local] Instance big_fuel : Fuel := 10%nat.

(** A device with as many sectors as one wants. *)
#[local] Instance flat_device : BlockDevice := {|
  dev := Z → list Z; dev_error := Empty_set;
  dev_read s _ d := ((d, d s), Ok ());
  dev_write s b d := ((λ s', if s' =? s then b else d s'), Ok ()) |}.
#[local, program] Instance flat_device_ok : DeviceOk debug_build flat_device := {|
  content d := d; addressable d s := block_ok (d s) |}.
Next Obligation. done. Qed.
Next Obligation. intros d s buf Ha Hl. by exists d. Qed.
Next Obligation.
  intros d s b Ha Hl Hb. eexists. split; [reflexivity|]. cbv beta. split_and!.
  - by rewrite Z.eqb_refl.
  - intros s' _ Hne. by rewrite (proj2 (Z.eqb_neq _ _)).
  - intros s'. destruct (Z.eqb_spec s' s) as [->|]; [|done]. by split; intros.
Qed.

(** Four clusters of 2 GiB; the file has the last two. *)
Definition big_volume : FileSystem := {|
  device := (λ _, zeros 512) : dev;
  is_mounted := true;
  fs := {| cluster_heap_offset := 2; fat_offset := 1; sectors_per_cluster := 2 ^ 22;
           cluster_length := 2 ^ 31; FileSystemDetails.cluster_count := 4;
           FileSystemDetails.first_cluster_of_root_dir := 3 |};
  upcase_table := UpcaseTable_default;
  allocator := {| bitmap := {| Slim.first_sector := 2; Slim.num_sectors := 1; Slim.cluster_count := 4 |};
                  acache := SlotCache_new; next_search_cluster := 2 |};
  fat := {| start_of_fat_sector := Some 1; fcache := SlotCache_new |};
  data_blocks := SlotCache_new; time_provider := None; clock := 0 |}.
Definition big_file : File := {|
  details := {| FileDetails.first_cluster := 4; FileDetails.data_length := 2 ^ 32;
    FileDetails.valid_data_length := 2 ^ 32; FileDetails.attributes := Archive;
    FileDetails.location := {| Location.sector_id := 2 + 2 ^ 22; Location.dir_entry_offset := 0 |};
    FileDetails.flags := AllocationPossible; FileDetails.secondary_count := 2;
    FileDetails.created := EncodedTimestamp_default; FileDetails.modified := EncodedTimestamp_default;
    FileDetails.accessed := EncodedTimestamp_default |};
  current_cluster := 4; remaining_bytes_in_cluster := 2 ^ 31; cursor := 0;
  open_options := OpenOptions.set_read true OpenOptions.new;
  chain := Contiguous 4 2; touched := FileDirty_new |}.

Lemma big_volume_inv : vol_inv 1 big_volume.
Proof.
  split.
  - reflexivity.
  - reflexivity.
  - apply owns_new, debug_build_ok.
  - apply owns_new, debug_build_ok.
  - apply owns_new, debug_build_ok.
  - split; cbn; unfold CLUSTER_LEN, per_sector, BPS; cbn; try lia. vm_compute. discriminate.
  - intros s _. split; [reflexivity|]. apply Forall_replicate. unfold byte_ok. lia.
  - cbn. lia.
Qed.
Lemma big_file_inv : file_inv 1 big_volume big_file [4; 5].
Proof.
  split.
  - exact big_volume_inv.
  - split; [reflexivity|lia].
  - unfold data_cluster, cluster_ok, cluster_sector, data_region, heap_region, bitmap_region. cbn.
    repeat (apply Forall_cons_2; [split; [lia|intros k Hk; lia]|]). apply Forall_nil_2.
  - apply (bool_decide_unpack _). vm_compute. exact I.
  - cbn. unfold len. cbn. lia.
  - cbn. lia.
  - intros _. exists 0%nat. cbn. split_and!; [done|lia..].
Qed.

(** Reading any byte of it never ends. *)
Example big_file_read_stalls x :
  ∀ n, snd (read_loop n 0 ([x], (big_file, big_volume))) = OutOfFuel.
Proof.
  apply (read_stalls_ok 1 big_volume big_file [4; 5] [x] big_file_inv); [vm_compute; reflexivity| |reflexivity].
  exists 0. split; [split; [done|vm_compute; reflexivity]|]. split; vm_compute; reflexivity.
Qed.
End Stall.
