(* ===== verification/DirSets.v ===== *)
(** * Directory entry sets on a volume

    A cluster of a directory is an array of 32-byte entries ([dir_entry]).
    [DirectoryEntryChain::next] reads them one after the other and
    [DirSetWriter] writes them one after the other, keeping the checksum of
    the set; the two walk the same entries as long as the set lies in one
    cluster.  [DirSetWriter] goes from sector to sector and does not follow
    the FAT; its source says that a set is assumed not to cross the end of a
    cluster. *)

From S2P Require Import Prelude Text Crates Errors Utils Timestamp BootSector Device SlotCache Touched Fat Allocation AllocationSearch Regions DirectoryEntry Volume VolumeInv VolumeAlloc Directory FileSystem File FileRead.
Import FileSystemDetails (cluster_length, sectors_per_cluster, cluster_heap_offset, fat_offset).

(** * Specification *)
Section Spec.
Context {cfg : Config} {crates : Crates} {bd : BlockDevice} {Hbd : DeviceOk cfg bd}.
Implicit Types (f : FileSystem) (s k : Z).

(** The entries per sector. *)
Definition EPS : Z := SIZE / 32.

(** Entry [k] of the sectors from [s] on, and its place. *)
Definition entry_in (b : list Z) (j : Z) : list Z := take 32 (drop (Z.to_nat (32 * j)) b).
Definition dir_entry (fl : Z) f s k : list Z := entry_in (vseen fl f (s + k / EPS)) (k mod EPS).
Definition entry_location s k : Location.t :=
  {| Location.sector_id := s + k / EPS; Location.dir_entry_offset := k mod EPS |}.

(** The sectors that hold the entries [k] to [k + n - 1]. *)
Definition entry_sectors s k n (x : Z) : Prop := ∃ j, k ≤ j < k + n ∧ x = s + j / EPS.

(** A [DirectoryEntryChain] in front of entry [k] of cluster [id]: its buffer,
    if it has one, agrees with the volume from this entry on (it may lag behind
    what was written to the entries before). *)
Record chain_at_entry (fl : Z) f id k (c : Chain.t) : Prop := {
  at_cluster : Chain.cluster_id c = id;
  at_fs : Chain.fs c = fs f;
  at_offsets : 0 ≤ Chain.cluster_offset c < sectors_per_cluster (fs f) ∧ 0 ≤ Chain.dir_entry_offset c ≤ EPS ∧
    k = EPS * Chain.cluster_offset c + Chain.dir_entry_offset c;
  at_buffer : Chain.fetch_required c = false → len (Chain.buf c) = SIZE ∧
    ∀ j, Chain.dir_entry_offset c ≤ j < EPS →
      entry_in (Chain.buf c) j = dir_entry fl f (cluster_sector f id) (EPS * Chain.cluster_offset c + j);
}.

(** A [DirSetWriter] that began at entry [k0] and is at entry [k]. *)
Definition writer_at s (k0 k checksum : Z) : DirSetWriter.t :=
  {| DirSetWriter.start := entry_location s k0; DirSetWriter.current := entry_location s k;
     DirSetWriter.checksum := checksum |}.

(** The entries [k] to [k + n - 1] may have changed, no other entry has. *)
Definition entries_kept (fl : Z) f s k n f' : Prop :=
  ∀ j, 0 ≤ j → ¬ (k ≤ j < k + n) → data_region f (s + j / EPS) → dir_entry fl f' s j = dir_entry fl f s j.
End Spec.

(** * Lemmas *)
Section Lemmas.
Context {cfg : Config} {crates : Crates} {bd : BlockDevice} {fu : Fuel}.
Context {Hcfg : ConfigOk cfg} {Hcr : CratesOk crates} {Hbd : DeviceOk cfg bd}.
Implicit Types (f : FileSystem) (s k : Z) (b : list Z).

Lemma EPS_range : 1 ≤ EPS ≤ 2048 ∧ SIZE = 32 * EPS.
Proof.
  pose proof SIZE_range. pose proof SIZE_entries as Hm. unfold EPS.
  pose proof (Z.div_mod SIZE 32 ltac:(lia)). split; [|lia]. lia.
Qed.
Lemma EPS_mod k : 0 ≤ k mod EPS < EPS.
Proof. apply Z.mod_pos_bound. pose proof EPS_range. lia. Qed.
Lemma EPS_div k : k = EPS * (k / EPS) + k mod EPS.
Proof. apply Z.div_mod. pose proof EPS_range. lia. Qed.
Lemma EPS_unique q r : 0 ≤ r < EPS → (EPS * q + r) / EPS = q ∧ (EPS * q + r) mod EPS = r.
Proof.
  intros Hr. split; symmetry; [by apply Z.div_unique with r; [left|]|by apply Z.mod_unique with q; [left|]].
Qed.

(** ** Entries of a sector *)
Lemma length_entry_in b j : len b = SIZE → 0 ≤ j < EPS → length (entry_in b j) = 32%nat.
Proof.
  intros Hb Hj. pose proof EPS_range. unfold entry_in, len in *. rewrite length_take, length_drop. lia.
Qed.
Lemma entry_in_bytes b j : Forall byte_ok b → Forall byte_ok (entry_in b j).
Proof. intros Hb. by apply Forall_take, Forall_drop. Qed.
Lemma raw_entry b j : block_ok b → 0 ≤ j < EPS → raw_ok (entry_in b j).
Proof. intros [Hl Hb] Hj. split; [by apply length_entry_in|by apply entry_in_bytes]. Qed.

Lemma lookup_entry_in b j (i : nat) :
  (i < 32)%nat → 0 ≤ j → entry_in b j !! i = b !! (Z.to_nat (32 * j) + i)%nat.
Proof. intros Hi Hj. unfold entry_in. by rewrite lookup_take_lt, lookup_drop by lia. Qed.

Lemma entry_in_splice_same b j e :
  len b = SIZE → 0 ≤ j < EPS → length e = 32%nat → entry_in (splice b (32 * j) e) j = e.
Proof.
  intros Hb Hj He. pose proof EPS_range. unfold entry_in, splice, len in *.
  rewrite drop_app_length' by (rewrite length_take; lia). by rewrite take_app_length' by lia.
Qed.
Lemma entry_in_splice_other b j j' a e :
  len b = SIZE → 0 ≤ j < EPS → 0 ≤ j' < EPS → j ≠ j' → 32 * j ≤ a → a + len e ≤ 32 * j + 32 →
  entry_in (splice b a e) j' = entry_in b j'.
Proof.
  intros Hb Hj Hj' Hne Ha He. pose proof EPS_range. apply list_eq. intros i.
  destruct (decide (i < 32)%nat) as [Hi|Hi].
  - rewrite !lookup_entry_in by lia. unfold len in *. apply lookup_splice_out; unfold len; lia.
  - by rewrite !lookup_ge_None_2 by (unfold entry_in; rewrite length_take; lia).
Qed.

Lemma chunk_of_entry b j : len b = SIZE → 0 ≤ j < EPS → as_chunks 32 b !! Z.to_nat j = Some (entry_in b j).
Proof.
  intros Hb Hj. pose proof EPS_range. rewrite as_chunks_lookup by (unfold len in *; lia).
  unfold entry_in. do 3 f_equal. lia.
Qed.
Lemma index_entry {E} b j : len b = SIZE → 0 ≤ j < EPS → index (E:=E) (as_chunks 32 b) j = Ok (entry_in b j).
Proof. intros Hb Hj. apply index_ok; [lia|by apply chunk_of_entry]. Qed.

(** ** Changing an entry *)
Lemma update_entry_at_ok fl f t s k a src (g : list Z → outcome err (list Z)) :
  vol_inv fl f → dirty_ok t → data_region f (s + k / EPS) →
  32 * (k mod EPS) ≤ a → a + len src ≤ 32 * (k mod EPS) + 32 → Forall byte_ok src →
  g (vseen fl f (s + k / EPS)) = Ok (splice (vseen fl f (s + k / EPS)) a src) →
  ∃ f', zoom ldata (update (s + k / EPS) g) f = (f', Ok ()) ∧
    vol_op fl (λ x, x = s + k / EPS) t f (insert (TouchedSector_new Dir (s + k / EPS)) t) f' ∧
    vseen fl f' (s + k / EPS) = splice (vseen fl f (s + k / EPS)) a src ∧
    entries_kept fl f s k 1 f'.
Proof.
  intros Hv Ht Hd Ha Hsrc Hb Hg. pose proof EPS_range. pose proof (EPS_mod k).
  destruct (vseen_ok fl f _ Hv (or_intror (or_intror Hd))) as [Hl Hbs]. pose proof (len_nonneg src).
  destruct (data_update fl f (s + k / EPS) g (splice (vseen fl f (s + k / EPS)) a src) Hv Hd)
    as (f' & Hu & Hv' & Hst & Hs).
  { exact Hg. }
  { split; [|by apply Forall_app_2; [apply Forall_take|apply Forall_app_2; [|apply Forall_drop]]].
    unfold len in *. rewrite length_splice; unfold len; lia. }
  exists f'. split_and!; [done|exact (vol_op_one fl t f f' (TouchedSector_new Dir (s + k / EPS)) Hv' Hst Ht Hd)|done|].
  intros j Hj Hne Hdj. unfold dir_entry. pose proof (EPS_mod j).
  destruct (decide (j / EPS = k / EPS)) as [Heq|Hneq].
  - rewrite Heq, Hs. apply (entry_in_splice_other _ (k mod EPS)); try done.
    intros Hm. assert (j = k); [|lia]. rewrite (EPS_div j), (EPS_div k). by rewrite Heq, Hm.
  - rewrite (step_seen _ _ _ _ Hst); [done|by right; right|lia].
Qed.

Lemma update_entry_ok fl f t s k a src (g : list Z → outcome err (list Z)) :
  vol_inv fl f → dirty_ok t → data_region f (s + k / EPS) →
  32 * (k mod EPS) ≤ a → a + len src ≤ 32 * (k mod EPS) + 32 → Forall byte_ok src →
  (∀ b, block_ok b → g b = Ok (splice b a src)) →
  ∃ f', zoom ldata (update (s + k / EPS) g) f = (f', Ok ()) ∧
    vol_op fl (λ x, x = s + k / EPS) t f (insert (TouchedSector_new Dir (s + k / EPS)) t) f' ∧
    vseen fl f' (s + k / EPS) = splice (vseen fl f (s + k / EPS)) a src ∧
    entries_kept fl f s k 1 f'.
Proof.
  intros Hv Ht Hd Ha Hsrc Hb Hg. apply update_entry_at_ok; try done. apply Hg.
  apply (vseen_ok fl f _ Hv). by right; right.
Qed.

Lemma put_entry_ok j e b :
  block_ok b → 0 ≤ j < EPS → length e = 32%nat → put_entry (32 * j) e b = Ok (splice b (32 * j) e).
Proof.
  intros [Hl _] Hj He. pose proof EPS_range. pose proof SIZE_range. unfold put_entry, RAW_ENTRY_LEN.
  rewrite add_ok by (destruct usize_cases as [-> | ->]; lia). cbn [mbind outcome_bind].
  apply copy_into_ok; unfold len in *; lia.
Qed.

(** ** The writer *)
Lemma next_location_ok s k0 k c :
  0 ≤ s → 0 ≤ k → s + k / EPS + 1 < 2 ^ 32 →
  next_dir_entry_location (writer_at s k0 k c) = Ok (writer_at s k0 (k + 1) c).
Proof.
  intros Hs Hk Hlt. pose proof EPS_range as [HE HS]. pose proof SIZE_range. pose proof (EPS_mod k). pose proof (EPS_div k).
  assert (0 ≤ k / EPS) by (apply Z.div_pos; lia).
  unfold next_dir_entry_location. cbn -[Z.div Z.modulo].
  rewrite (add_ok usize) by (destruct usize_cases as [-> | ->]; lia). cbn [mbind outcome_bind].
  change (SIZE / RAW_ENTRY_LEN) with EPS. unfold writer_at, entry_location.
  destruct (Z.eqb_spec (k mod EPS + 1) EPS) as [He|He].
  - rewrite add_ok by lia. cbn [mbind outcome_bind].
    destruct (EPS_unique (k / EPS + 1) 0) as [Hq Hr]; [lia|].
    replace (EPS * (k / EPS + 1) + 0) with (k + 1) in Hq, Hr by lia. rewrite Hq, Hr. do 3 f_equal. lia.
  - destruct (EPS_unique (k / EPS) (k mod EPS + 1)) as [Hq Hr]; [lia|].
    replace (EPS * (k / EPS) + (k mod EPS + 1)) with (k + 1) in Hq, Hr by lia. by rewrite Hq, Hr.
Qed.

Lemma add_no_write_ok (e : RawDirEntry) (is_file : bool) s k0 k c (t : FileDirty) f :
  0 ≤ s → 0 ≤ k → s + k / EPS + 1 < 2 ^ 32 →
  add_no_write e is_file (writer_at s k0 k c, (t, f)) =
    ((writer_at s k0 (k + 1) (calc_checksum e is_file c), (t, f)), Ok ()).
Proof.
  intros Hs Hk Hlt. unfold add_no_write.
  rewrite (bind_Ok (gets fst) _ _ (writer_at s k0 k c, (t, f)) (writer_at s k0 k c)) by done.
  by rewrite next_location_ok, bind_lift_Ok by done.
Qed.

Lemma data_sector_range fl f s k :
  vol_inv fl f → data_region f (s + k / EPS) → s + k / EPS + 1 < 2 ^ 32.
Proof.
  intros Hv [Hh _]. pose proof (geo_heap _ _ _ (vol_geometry _ _ Hv)). unfold heap_region in Hh. lia.
Qed.

Lemma entry_offset_ok k :
  mul (E:=err) usize (k mod EPS) RAW_ENTRY_LEN = Ok (32 * (k mod EPS)).
Proof.
  pose proof (EPS_mod k). pose proof EPS_range as [HE HS]. unfold RAW_ENTRY_LEN.
  rewrite mul_ok by (destruct usize_cases as [-> | ->]; lia). f_equal. lia.
Qed.

(** [add_entry] writes one entry, records its sector and goes on. *)
Lemma add_entry_ok fl f t s k0 k c (e : RawDirEntry) (is_file : bool) :
  vol_inv fl f → dirty_ok t → 0 ≤ s → 0 ≤ k → data_region f (s + k / EPS) → raw_ok e →
  ∃ f' t', add_entry e is_file (writer_at s k0 k c, (t, f)) =
      ((writer_at s k0 (k + 1) (calc_checksum e is_file c), (t', f')), Ok ()) ∧
    vol_op fl (λ x, x = s + k / EPS) t f t' f' ∧
    dir_entry fl f' s k = e ∧ entries_kept fl f s k 1 f'.
Proof.
  intros Hv Ht Hs Hk Hd [He Hb]. pose proof (EPS_mod k).
  destruct (update_entry_ok fl f t s k (32 * (k mod EPS)) e (put_entry (32 * (k mod EPS)) e) Hv Ht Hd)
    as (f' & Hu & Hop & Hseen & Hkept); [lia|unfold len; lia|done|intros x Hx; by apply put_entry_ok|].
  exists f', (insert (TouchedSector_new Dir (s + k / EPS)) t). split; [|split_and!; [done| |done]].
  - unfold add_entry. rewrite (bind_Ok (gets fst) _ _ (writer_at s k0 k c, (t, f)) (writer_at s k0 k c)) by done.
    cbn [writer_at DirSetWriter.current entry_location Location.dir_entry_offset Location.sector_id].
    rewrite entry_offset_ok, bind_lift_Ok.
    rewrite (bind_Ok _ _ _ (writer_at s k0 k c, (t, f')) ())
      by (eapply zoom_to; [eapply zoom_to; [exact Hu|]|]; done).
    rewrite (bind_Ok _ _ _ (writer_at s k0 k c, (insert (TouchedSector_new Dir (s + k / EPS)) t, f')) ()) by done.
    apply add_no_write_ok; [done|done|by apply (data_sector_range fl f)].
  - unfold dir_entry. rewrite Hseen. apply entry_in_splice_same; [|done|done].
    apply (vseen_ok fl f _ Hv). by right; right.
Qed.

(** ** The chain *)
Lemma chain_sector_ok fl f id o c :
  vol_inv fl f → data_cluster f id → Chain.cluster_id c = id → Chain.fs c = fs f →
  Chain.cluster_offset c = o → 0 ≤ o < sectors_per_cluster (fs f) →
  chain_sector_id c = Ok (cluster_sector f id + o).
Proof.
  intros Hv [Hid Hd] Hc Hfs Hco Ho. unfold chain_sector_id. rewrite Hc, Hfs, Hco.
  rewrite (get_heap_sector_ok fl f id (vol_geometry _ _ Hv) Hid). cbn [mbind outcome_bind].
  pose proof (Hd o Ho) as Hr.
  pose proof (in_volume_range fl f _ (vol_geometry _ _ Hv) (or_intror (or_intror Hr))).
  pose proof (cluster_sector_heap fl f id 0 (vol_geometry _ _ Hv) Hid ltac:(lia)) as [Hh _].
  pose proof (geo_fat _ _ _ (vol_geometry _ _ Hv)). by rewrite cast_id, add_ok by lia.
Qed.

(** [next] up to the fetch: it steps over the end of the sector. *)
Lemma next_sector_ok fl f id k c :
  vol_inv fl f → chain_at_entry fl f id k c → k < EPS * sectors_per_cluster (fs f) →
  ∃ c', next_sector (c, f) = ((c', f), Ok ()) ∧ chain_at_entry fl f id k c' ∧
    Chain.dir_entry_offset c' < EPS ∧
    Chain.cursor c' = Chain.cursor c ∧ Chain.num_entries c' = Chain.num_entries c.
Proof.
  intros Hv [Hc Hf [Ho [He Hk]] Hb] Hlt. pose proof EPS_range as [? ?].
  destruct (cluster_length_pos fl f Hv) as (? & ? & Hcl). pose proof SIZE_range.
  unfold next_sector, get_chain. rewrite (bind_Ok (gets fst) _ _ (c, f) c) by done.
  change dir_entries_per_block with EPS. destruct (Z.leb_spec EPS (Chain.dir_entry_offset c)) as [Hle|Hgt].
  - assert (Hnext : Chain.cluster_offset c + 1 < sectors_per_cluster (fs f)) by nia.
    rewrite add_ok, bind_lift_Ok by (split; [lia|]; destruct usize_cases as [-> | ->]; nia).
    eexists. split; [reflexivity|]. split; [|cbn; split_and!; [lia|done|done]].
    split; cbn; [done|done|split_and!; lia|done].
  - exists c. split; [done|]. split; [|done]. by split.
Qed.

Lemma fetch_sector_ok fl f id k c :
  vol_inv fl f → data_cluster f id → chain_at_entry fl f id k c →
  ∃ c' f', fetch_sector (c, f) = ((c', f'), Ok ()) ∧ vol_inv fl f' ∧ vol_same fl f f' ∧
    chain_at_entry fl f' id k c' ∧ Chain.fetch_required c' = false ∧
    Chain.dir_entry_offset c' = Chain.dir_entry_offset c ∧ Chain.cluster_offset c' = Chain.cluster_offset c ∧
    Chain.cursor c' = Chain.cursor c ∧ Chain.num_entries c' = Chain.num_entries c.
Proof.
  intros Hv Hid Hat. pose proof EPS_range as [? ?]. pose proof Hat as [Hc Hf [Ho [He Hk]] Hb].
  unfold fetch_sector, get_chain. rewrite (bind_Ok (gets fst) _ _ (c, f) c) by done.
  destruct (Chain.fetch_required c) eqn:Hfetch.
  2: { exists c, f. by split_and!. }
  rewrite (chain_sector_ok fl f id (Chain.cluster_offset c) c Hv Hid Hc Hf eq_refl Ho), bind_lift_Ok.
  pose proof (proj2 Hid _ Ho) as Hd. destruct (data_fetch fl f _ Hv Hd) as (f' & Hr & Hv' & Hst).
  rewrite (bind_Ok _ _ _ (c, f') (vseen fl f (cluster_sector f id + Chain.cluster_offset c)))
    by (by eapply zoom_to; [exact Hr|]).
  eexists _, f'. split; [reflexivity|].
  split_and!; try done. pose proof (step_fs _ _ _ _ Hst) as Hfs.
  split; cbn; [done|by rewrite Hfs|by rewrite Hfs|]. intros _.
  split; [by apply (vseen_ok fl f _ Hv); right; right|]. intros j Hj.
  unfold dir_entry. destruct (EPS_unique (Chain.cluster_offset c) j) as [-> ->]; [lia|].
  replace (cluster_sector f' id) with (cluster_sector f id) by (unfold cluster_sector; by rewrite Hfs).
  rewrite (step_seen _ _ _ _ Hst); [done|by right; right|tauto].
Qed.

Lemma take_entry_ok fl f id k c :
  vol_inv fl f → data_cluster f id → chain_at_entry fl f id k c → Chain.fetch_required c = false →
  Chain.dir_entry_offset c < EPS → 0 ≤ Chain.cursor c < 2 ^ 31 →
  ∃ c', take_entry (c, f) =
      ((c', f), Ok (dir_entry fl f (cluster_sector f id) k, entry_location (cluster_sector f id) k)) ∧
    chain_at_entry fl f id (k + 1) c' ∧
    Chain.cursor c' = Chain.cursor c + 1 ∧ Chain.num_entries c' = Chain.num_entries c.
Proof.
  intros Hv Hid [Hc Hf [Ho [He Hk]] Hb] Hfetch Hlt Hcur. pose proof EPS_range as [? ?].
  destruct (Hb Hfetch) as [Hl Hj]. unfold take_entry, get_chain.
  rewrite (bind_Ok (gets fst) _ _ (c, f) c) by done. rewrite index_entry, bind_lift_Ok by (done || lia).
  rewrite (chain_sector_ok fl f id (Chain.cluster_offset c) c Hv Hid Hc Hf eq_refl Ho), bind_lift_Ok.
  rewrite !add_ok, !bind_lift_Ok by (destruct usize_cases as [-> | ->]; lia).
  destruct (EPS_unique (Chain.cluster_offset c) (Chain.dir_entry_offset c)) as [Hq Hm]; [lia|].
  eexists. split; [|split; [|split; [|]]].
  - unfold put_chain, modify. erewrite bind_Ok by reflexivity. unfold mret, M_ret.
    rewrite Hj by lia. unfold entry_location. by rewrite Hk, Hq, Hm.
  - split; cbn; [done|done|split_and!; lia|]. intros _. split; [done|]. intros j Hjr. apply Hj. lia.
  - done.
  - done.
Qed.

(** What was not changed from entry [k] on, the chain may have in its buffer. *)
Lemma chain_at_entry_kept fl f f' id k c :
  chain_at_entry fl f id k c → fs f' = fs f →
  (∀ j, k ≤ j < EPS * sectors_per_cluster (fs f) →
     dir_entry fl f' (cluster_sector f id) j = dir_entry fl f (cluster_sector f id) j) →
  chain_at_entry fl f' id k c.
Proof.
  intros [Hc Hf [Ho [He ->]] Hb] Hfs Hk. pose proof EPS_range.
  assert (Hcs : cluster_sector f' id = cluster_sector f id) by (unfold cluster_sector; by rewrite Hfs).
  split; [done|by rewrite Hfs|by rewrite Hfs|]. intros Hfetch. destruct (Hb Hfetch) as [Hl Hj].
  split; [done|]. intros j Hjr. rewrite Hj, Hcs, Hk by nia. done.
Qed.

(** The fetch and the entry. *)
Lemma fetch_take_ok fl f id k c :
  vol_inv fl f → data_cluster f id → chain_at_entry fl f id k c → Chain.dir_entry_offset c < EPS →
  0 ≤ Chain.cursor c < 2 ^ 31 →
  ∃ c' f', (fetch_sector ;; e ← take_entry; mret (Some e)) (c, f) =
      ((c', f'), Ok (Some (dir_entry fl f (cluster_sector f id) k, entry_location (cluster_sector f id) k))) ∧
    vol_inv fl f' ∧ vol_same fl f f' ∧ chain_at_entry fl f' id (k + 1) c' ∧
    Chain.cursor c' = Chain.cursor c + 1 ∧ Chain.num_entries c' = Chain.num_entries c.
Proof.
  intros Hv Hid Hat Hlt Hcur.
  destruct (fetch_sector_ok fl f id k c Hv Hid Hat)
    as (c2 & f2 & Hr2 & Hv2 & Hst & Hat2 & Hfetch & Hde & Hco & Hcur2 & Hnum2).
  rewrite (bind_Ok _ _ _ _ _ Hr2). pose proof (step_fs _ _ _ _ Hst) as Hfs.
  destruct (take_entry_ok fl f2 id k c2 Hv2) as (c3 & Hr3 & Hat3 & Hcur3 & Hnum3);
    [by apply (data_cluster_step fl (λ _, False) f f2)|done|done|lia|lia|].
  rewrite (bind_Ok _ _ _ _ _ Hr3). exists c3, f2.
  replace (cluster_sector f2 id) with (cluster_sector f id) by (unfold cluster_sector; by rewrite Hfs).
  assert (He : dir_entry fl f2 (cluster_sector f id) k = dir_entry fl f (cluster_sector f id) k).
  { unfold dir_entry. rewrite (step_seen _ _ _ _ Hst); [done| |tauto]. right; right. apply (proj2 Hid).
    pose proof Hat as [_ _ [Ho [Hoe ->]] _]. pose proof EPS_range.
    split; [apply Z.div_pos; nia|apply Z.div_lt_upper_bound; [lia|nia]]. }
  rewrite He. split_and!; [done|done|done|done|lia|by rewrite Hnum3, Hnum2].
Qed.

Lemma next_entry_ok fl f id k c :
  vol_inv fl f → data_cluster f id → chain_at_entry fl f id k c →
  Chain.num_entries c ≠ Some (Chain.cursor c) → 0 ≤ Chain.cursor c < 2 ^ 31 →
  k < EPS * sectors_per_cluster (fs f) →
  ∃ c' f', next (c, f) = ((c', f'), Ok (Some (dir_entry fl f (cluster_sector f id) k,
        entry_location (cluster_sector f id) k))) ∧
    vol_inv fl f' ∧ vol_same fl f f' ∧ chain_at_entry fl f' id (k + 1) c' ∧
    Chain.cursor c' = Chain.cursor c + 1 ∧ Chain.num_entries c' = Chain.num_entries c.
Proof.
  intros Hv Hid Hat Hn Hcur Hk. unfold next, get_chain. rewrite (bind_Ok (gets fst) _ _ (c, f) c) by done.
  rewrite bool_decide_false by done.
  destruct (next_sector_ok fl f id k c Hv Hat Hk) as (c1 & Hr1 & Hat1 & Hlt & Hcur1 & Hnum1).
  rewrite (bind_Ok _ _ _ _ _ Hr1). pose proof Hat1 as [Hc1 Hf1 [Ho1 _] _].
  destruct (cluster_length_pos fl f Hv) as (? & ? & Hcl). pose proof SIZE_range.
  rewrite (bind_Ok next_cluster _ _ (c1, f) true).
  2: { unfold next_cluster, get_chain. rewrite (bind_Ok (gets fst) _ _ (c1, f) c1) by done.
       rewrite Hf1, cast_id by (destruct usize_cases as [-> | ->]; nia). by rewrite (proj2 (Z.leb_gt _ _)) by lia. }
  rewrite <-Hcur1, <-Hnum1. apply fetch_take_ok; done || lia.
Qed.

(** At the end of the set. *)
Lemma next_end f c : Chain.num_entries c = Some (Chain.cursor c) → next (c, f) = ((c, f), Ok None).
Proof.
  intros Hn. unfold next, get_chain. rewrite (bind_Ok (gets fst) _ _ (c, f) c) by done.
  by rewrite bool_decide_true.
Qed.
End Lemmas.
