(* ===== verification/FileFlush.v ===== *)
(** * Flushing an open file

    [File::flush] of src/file.rs rewrites the directory entries of the file -
    its times, its lengths, its first cluster, the checksum of the set - and
    then writes the sectors on its list of touched sectors.  The entries are
    read through [DirectoryEntryChain::next] and written through
    [DirSetWriter]; DirSets.v has both. *)

From S2P Require Import Prelude Text Crates Errors Utils Timestamp BootSector Device SlotCache Touched Fat Allocation AllocationSearch Regions DirectoryEntry Volume VolumeInv VolumeAlloc Directory FileSystem File FileRead DirSets.
Import FileSystemDetails (cluster_length, sectors_per_cluster, cluster_heap_offset, fat_offset).

(** * Specification *)
Section Spec.
Context {cfg : Config} {crates : Crates} {bd : BlockDevice} {Hbd : DeviceOk cfg bd}.
Implicit Types (f : FileSystem) (s k n : Z) (d : FileDetails.t).

(** The user's clock gives valid times. *)
Definition clock_ok f : Prop :=
  match time_provider f with
  | Some g => ∀ i, timestamp_typed (g i) ∧ Timestamp.is_valid (g i) = true
  | None => True
  end.

(** The entries [k] to [k + n - 1]. *)
Definition set_entries (fl : Z) f s k n : list RawDirEntry := dir_entry fl f s <$> seqZ k n.

(** The sectors of the file entry and of the stream extension. *)
Definition head_sectors s k (x : Z) : Prop := x = s + k / EPS ∨ x = s + (k + 1) / EPS.

(** The file's entries are the [secondary_count + 1] ones from entry [k] of
    cluster [id] on, and its details fit their fields. *)
Record entry_set_at f d (c : StoredChain) id k : Prop := {
  set_cluster : data_cluster f id;
  set_location : FileDetails.location d = entry_location (cluster_sector f id) k;
  set_count : 1 ≤ FileDetails.secondary_count d ≤ 255;
  set_fits : 0 ≤ k ∧ k + (FileDetails.secondary_count d + 1) ≤ EPS * sectors_per_cluster (fs f);
  set_flags : byte_ok (FileDetails.flags d) ∧
    Z.land (FileDetails.flags d) GeneralSecondaryFlags_all = FileDetails.flags d;
  set_lengths : 0 ≤ FileDetails.valid_data_length d < 2 ^ 64 ∧ 0 ≤ FileDetails.data_length d < 2 ^ 64;
  set_first : 0 ≤ chain_first c < 2 ^ 32;
}.

(** Entry [k] of cluster [id] was written, and nothing else changed. *)
Record entry_written (fl : Z) f t id k (e : RawDirEntry) f' t' : Prop := {
  written_op : vol_op fl (λ x, x = cluster_sector f id + k / EPS) t f t' f';
  written_entry : dir_entry fl f' (cluster_sector f id) k = e;
  written_kept : entries_kept fl f (cluster_sector f id) k 1 f';
}.

(** A raw file entry with the checksum of its set. *)
Definition with_checksum (raw : RawDirEntry) (c : Z) : RawDirEntry := splice raw 2 (to_le_bytes 2 c).

(** The set that [flush] stores: the file entry with its new times, the stream
    extension with the lengths and the first cluster of the open file, the
    names as they were; and in the file entry the checksum of these. *)
Definition new_file_entry (ts : EncodedTimestamp) (e : FileDirEntry.t) : RawDirEntry :=
  FileDirEntry.serialize (stamp_file_entry ts e).
Definition new_stream_entry d (c : StoredChain) (e : StreamExtensionDirEntry.t) : RawDirEntry :=
  StreamExtensionDirEntry.serialize (store_details d c e).
Definition stored_set (file stream : RawDirEntry) (names : list RawDirEntry) : list RawDirEntry :=
  with_checksum file (spec_checksum (file ++ concat (stream :: names))) :: stream :: names.

(** The set holds its own checksum. *)
Definition checksum_ok (set : list RawDirEntry) : Prop :=
  from_le_bytes (take 2 (drop 2 (concat set))) = spec_checksum (concat set).
End Spec.

(** * Lemmas *)
Section Lemmas.
Context {cfg : Config} {crates : Crates} {bd : BlockDevice} {fu : Fuel}.
Context {Hcfg : ConfigOk cfg} {Hcr : CratesOk crates} {Hbd : DeviceOk cfg bd}.
Implicit Types (f : FileSystem) (s k n : Z) (t : FileDirty).

(** ** What steps keep of entries *)
Lemma entries_kept_weaken fl f s k n k' n' f' :
  k' ≤ k → k + n ≤ k' + n' → entries_kept fl f s k n f' → entries_kept fl f s k' n' f'.
Proof. intros Hk Hn H j Hj Hout. apply H; lia. Qed.
Lemma entries_kept_same fl f s k n f' : vol_same fl f f' → entries_kept fl f s k n f'.
Proof.
  intros Hst j Hj _ Hd. unfold dir_entry. rewrite (step_seen _ _ _ _ Hst); [done|by right; right|tauto].
Qed.
Lemma data_region_step fl P f f' s : vol_step fl P f f' → data_region f' s ↔ data_region f s.
Proof.
  intros [Hfs Hb _ _ _ _ _]. unfold data_region, heap_region, bitmap_region. by rewrite Hfs, Hb.
Qed.
Lemma entries_kept_trans fl P f0 f1 f2 s k n :
  vol_step fl P f0 f1 → entries_kept fl f0 s k n f1 → entries_kept fl f1 s k n f2 → entries_kept fl f0 s k n f2.
Proof.
  intros Hst H1 H2 j Hj Hout Hd. rewrite H2, H1; [done..|]. by apply (data_region_step fl P f0 f1).
Qed.

(** ** The checksum *)
Lemma splice_within (b e src : list Z) a i :
  0 ≤ a → a + len e ≤ len b → 0 ≤ i → i + len src ≤ len e →
  splice (splice b a e) (a + i) src = splice b a (splice e i src).
Proof.
  intros Ha He Hi Hs. pose proof (len_nonneg src).
  assert (Hl1 : length (splice e i src) = length e) by (apply length_splice; lia).
  assert (Hl2 : length (splice b a e) = length b) by (apply length_splice; lia).
  apply list_eq. intros j. destruct (decide (a + i ≤ Z.of_nat j < a + i + len src)) as [Hin|Hout].
  - rewrite lookup_splice_in by (unfold len in *; lia).
    rewrite (lookup_splice_in b) by (unfold len in *; lia).
    rewrite lookup_splice_in by (unfold len in *; lia). f_equal. lia.
  - rewrite lookup_splice_out by (unfold len in *; lia).
    destruct (decide (a ≤ Z.of_nat j < a + len e)).
    + rewrite !lookup_splice_in by (unfold len in *; lia).
      rewrite lookup_splice_out by (unfold len in *; lia). done.
    + rewrite !lookup_splice_out by (unfold len in *; lia). done.
Qed.

Lemma finish_ok fl f t s k0 k c (e : RawDirEntry) :
  vol_inv fl f → dirty_ok t → data_region f (s + k0 / EPS) → raw_ok e →
  ∃ f' t', finish e (writer_at s k0 k c, (t, f)) = ((writer_at s k0 k c, (t', f')), Ok ()) ∧
    vol_op fl (λ x, x = s + k0 / EPS) t f t' f' ∧
    dir_entry fl f' s k0 = with_checksum e c ∧ entries_kept fl f s k0 1 f'.
Proof.
  intros Hv Ht Hd [He Hb]. pose proof (EPS_mod k0). pose proof EPS_range as [? HS]. pose proof SIZE_range.
  assert (Hwl : length (with_checksum e c) = 32%nat).
  { unfold with_checksum. rewrite length_splice; unfold len; rewrite ?length_to_le_bytes; lia. }
  assert (Hwb : Forall byte_ok (with_checksum e c)).
  { apply Forall_app_2; [by apply Forall_take|]. apply Forall_app_2; [apply to_le_bytes_ok|by apply Forall_drop]. }
  set (o := 32 * (k0 mod EPS)).
  destruct (update_entry_ok fl f t s k0 o (with_checksum e c)
      (λ b, b ← put_entry o e b; copy_into b (o + 2) (o + 4) (to_le_bytes 2 c)) Hv Ht Hd)
    as (f' & Hu & Hop & Hseen & Hkept); [unfold o; lia|unfold len, o in *; lia|done| |].
  { intros b Hblk. pose proof Hblk as [Hl _]. unfold o. rewrite put_entry_ok by done. cbn [mbind outcome_bind].
    rewrite copy_into_ok.
    - f_equal. apply splice_within; unfold len in *; rewrite ?length_to_le_bytes; lia.
    - lia.
    - unfold len in *. rewrite length_splice; unfold len; lia.
    - unfold len. rewrite length_to_le_bytes. lia. }
  exists f', (insert (TouchedSector_new Dir (s + k0 / EPS)) t). split; [|split_and!; [done| |done]].
  - unfold finish. rewrite (bind_Ok (gets fst) _ _ (writer_at s k0 k c, (t, f)) (writer_at s k0 k c)) by done.
    cbn [writer_at DirSetWriter.start entry_location Location.dir_entry_offset Location.sector_id DirSetWriter.checksum].
    rewrite entry_offset_ok, bind_lift_Ok. fold o.
    by rewrite (bind_Ok _ _ _ (writer_at s k0 k c, (t, f')) ())
      by (eapply zoom_to; [eapply zoom_to; [exact Hu|]|]; done).
  - unfold dir_entry. rewrite Hseen. apply entry_in_splice_same; [|done|done].
    apply (vseen_ok fl f _ Hv). by right; right.
Qed.

Lemma spec_checksum_range set : 0 ≤ spec_checksum set < 2 ^ 16.
Proof.
  unfold spec_checksum. generalize (take 2 set ++ drop 4 set). intros l. induction l as [|b l IH] using rev_ind.
  - cbn. lia.
  - rewrite fold_left_app. cbn [fold_left]. unfold wrapping_add. apply Z.mod_pos_bound. reflexivity.
Qed.

Lemma stored_set_checksum_ok (file stream : RawDirEntry) (names : list RawDirEntry) :
  raw_ok file → checksum_ok (stored_set file stream names).
Proof.
  intros [Hl _]. unfold checksum_ok, stored_set. pose proof (spec_checksum_range (file ++ concat (stream :: names))) as Hc.
  set (c := spec_checksum (file ++ concat (stream :: names))) in *.
  assert (Hb : length (to_le_bytes 2 c) = 2%nat) by apply length_to_le_bytes.
  rewrite concat_cons. unfold with_checksum.
  do 4 (destruct file as [|? file]; [done|]).
  destruct (to_le_bytes 2 c) as [|x [|y []]] eqn:Hxy; [done..| |done].
  set (rest := concat (stream :: names)) in *. clearbody rest.
  rewrite (splice_app [_; _] (_ :: _ :: file) [x; y] : splice (_ :: _ :: _ :: _ :: file) 2 [x; y] = _).
  change (from_le_bytes [x; y] = spec_checksum (z :: z0 :: x :: y :: file ++ rest)).
  rewrite <-Hxy, (from_to_le_bytes_small 2) by exact Hc. reflexivity.
Qed.

(** ** The timestamp *)
Lemma get_current_timestamp_ok fl f :
  vol_inv fl f → clock_ok f →
  ∃ ts f', get_current_timestamp f = (f', Ok ts) ∧ encoded_typed ts ∧ vol_inv fl f' ∧ vol_same fl f f'.
Proof.
  intros Hv Hc. unfold get_current_timestamp, clock_ok in *. destruct (time_provider f) as [g|] eqn:Hg.
  - destruct (Hc (clock f)) as [Ht Hvd].
    destruct (encode_total (E:=err) (g (clock f)) Ht) as (_ & _ & Henc).
    destruct Henc as (ts & -> & Hts); [by left|].
    eexists ts, _. split; [reflexivity|]. split; [done|]. split; [destruct Hv; split; assumption|].
    by split; [..|cbn; by rewrite Hg| | |].
  - exists EncodedTimestamp_default, f. split_and!; done.
Qed.
End Lemmas.

(** * The loop over the entries *)
Section Loop.
Context {cfg : Config} {crates : Crates} {bd : BlockDevice} {fu : Fuel}.
Context {Hcfg : ConfigOk cfg} {Hcr : CratesOk crates} {Hbd : DeviceOk cfg bd}.
Implicit Types (f : FileSystem) (s k n : Z) (t : FileDirty) (d : FileDetails.t) (w : DirSetWriter.t).

Lemma cluster_entry_region f id k :
  data_cluster f id → 0 ≤ k < EPS * sectors_per_cluster (fs f) → data_region f (cluster_sector f id + k / EPS).
Proof.
  intros [_ Hd] Hk. pose proof EPS_range. apply Hd.
  split; [apply Z.div_pos; lia|apply Z.div_lt_upper_bound; lia].
Qed.
Lemma cluster_sector_pos fl f id : vol_inv fl f → cluster_ok f id → 0 ≤ cluster_sector f id.
Proof.
  intros Hv Hid. pose proof (geo_fat _ _ _ (vol_geometry _ _ Hv)). pose proof (geo_cluster _ _ _ (vol_geometry _ _ Hv)).
  pose proof (cluster_sector_heap fl f id 0 (vol_geometry _ _ Hv) Hid ltac:(lia)) as [? _]. lia.
Qed.

Lemma dir_entry_raw fl f id k :
  vol_inv fl f → data_cluster f id → 0 ≤ k < EPS * sectors_per_cluster (fs f) →
  raw_ok (dir_entry fl f (cluster_sector f id) k).
Proof.
  intros Hv Hid Hk. apply raw_entry; [|apply EPS_mod]. apply (vseen_ok fl f _ Hv).
  right; right. by apply cluster_entry_region.
Qed.

(** One read of the loop. *)
Lemma lchain_next c w t f c' f' o :
  next (c, f) = ((c', f'), o) → zoom lchain next (c, (w, (t, f))) = ((c', (w, (t, f'))), o).
Proof. intros H. by eapply zoom_to. Qed.

(** Entries that are kept. *)
Lemma set_entries_kept fl f f' id k n k' n' :
  entries_kept fl f (cluster_sector f id) k n f' → data_cluster f id → 0 ≤ k' →
  k' + n' ≤ EPS * sectors_per_cluster (fs f) → (n ≤ 0 ∨ k + n ≤ k' ∨ k' + n' ≤ k) →
  set_entries fl f' (cluster_sector f id) k' n' = set_entries fl f (cluster_sector f id) k' n'.
Proof.
  intros Hkept Hid Hk Hcap Hout. apply list_fmap_ext. intros i x [-> Hi]%lookup_seqZ.
  apply Hkept; [lia|lia|]. apply cluster_entry_region; [done|lia].
Qed.

Lemma set_entries_cons fl f s k n :
  0 < n → set_entries fl f s k n = dir_entry fl f s k :: set_entries fl f s (k + 1) (n - 1).
Proof. intros Hn. unfold set_entries. rewrite (seqZ_cons k) by lia. by rewrite fmap_cons, Z.sub_1_r, <-Z.add_1_r. Qed.

(** The names are read and counted in the checksum. *)
Lemma flush_names_ok fl d ch id fd s k0 (n : nat) :
  ∀ rounds f t c k ck i,
  vol_inv fl f → data_cluster f id → s = cluster_sector f id → chain_at_entry fl f id k c →
  Chain.cursor c = i → Chain.num_entries c = Some (i + Z.of_nat n) → 2 ≤ i → i + Z.of_nat n < 2 ^ 31 →
  (n < rounds)%nat → 0 ≤ k → k + Z.of_nat n ≤ EPS * sectors_per_cluster (fs f) →
  ∃ c' f', flush_loop rounds d ch i fd (c, (writer_at s k0 k ck, (t, f))) =
      ((c', (writer_at s k0 (k + Z.of_nat n)
         (fold_left (λ x raw, calc_checksum raw false x) (set_entries fl f s k (Z.of_nat n)) ck), (t, f'))), Ok fd) ∧
    vol_inv fl f' ∧ vol_same fl f f'.
Proof.
  induction n as [|n IH]; intros rounds f t c k ck i Hv Hid -> Hat Hcur Hnum Hi Hmax Hr Hk Hcap;
    (destruct rounds as [|rounds]; [lia|]); cbn [flush_loop].
  - rewrite Z.add_0_r in Hnum |- *. exists c, f.
    rewrite (bind_Ok _ _ _ _ _ (lchain_next c _ t f c f _ (next_end f c ltac:(by rewrite Hnum, Hcur)))).
    split; [done|]. by split.
  - destruct (next_entry_ok fl f id k c Hv Hid Hat) as (c1 & f1 & Hn & Hv1 & Hst & Hat1 & Hcur1 & Hnum1);
      [rewrite Hnum, Hcur; intros [=]; lia|lia|lia|].
    rewrite (bind_Ok _ _ _ _ _ (lchain_next c _ t f c1 f1 _ Hn)).
    rewrite (proj2 (Z.eqb_neq i 0)), (proj2 (Z.eqb_neq i 1)) by lia. cbv iota.
    pose proof (cluster_entry_region f id k Hid ltac:(lia)) as Hd.
    pose proof (cluster_sector_pos fl f id Hv (proj1 Hid)) as Hs0.
    set (e := dir_entry fl f (cluster_sector f id) k) in *.
    assert (Hw : zoom lsnd (add_no_write e false) (c1, (writer_at (cluster_sector f id) k0 k ck, (t, f1))) =
      ((c1, (writer_at (cluster_sector f id) k0 (k + 1) (calc_checksum e false ck), (t, f1))), Ok ())).
    { eapply zoom_to; [apply add_no_write_ok; [done|done|by apply (data_sector_range fl f)]|done]. }
    rewrite bind_assoc, (bind_Ok _ _ _ _ _ Hw).
    pose proof (step_fs _ _ _ _ Hst) as Hfs.
    destruct (IH rounds f1 t c1 (k + 1) (calc_checksum e false ck) (i + 1) Hv1)
      as (c2 & f2 & Hrun & Hv2 & Hst2);
      [by apply (data_cluster_step fl (λ _, False) f f1)|unfold cluster_sector; by rewrite Hfs|done|lia| |lia|lia|lia|lia| |].
    { rewrite Hnum1, Hnum. f_equal. lia. }
    { rewrite Hfs. lia. }
    exists c2, f2. erewrite bind_Ok by reflexivity. rewrite Hrun.
    split; [|split; [done|by apply (vol_step_trans fl _ f f1 f2)]].
    rewrite (set_entries_cons fl f _ k (Z.of_nat (S n))) by lia. cbn [fold_left]. fold e.
    replace (k + Z.of_nat (S n)) with (k + 1 + Z.of_nat n) by lia.
    replace (Z.of_nat (S n) - 1) with (Z.of_nat n) by lia.
    by rewrite (set_entries_kept fl f f1 id 0 0 (k + 1) (Z.of_nat n) (entries_kept_same fl f _ 0 0 f1 Hst)) by (done || lia).
Qed.
(** Writing the entry the chain has just passed. *)
Lemma add_passed_ok fl f t id k0 k ck c (e : RawDirEntry) b :
  vol_inv fl f → dirty_ok t → data_cluster f id → 0 ≤ k < EPS * sectors_per_cluster (fs f) → raw_ok e →
  chain_at_entry fl f id (k + 1) c →
  let s := cluster_sector f id in
  ∃ f' t', zoom lsnd (add_entry e b) (c, (writer_at s k0 k ck, (t, f))) =
      ((c, (writer_at s k0 (k + 1) (calc_checksum e b ck), (t', f'))), Ok ()) ∧
    entry_written fl f t id k e f' t' ∧ chain_at_entry fl f' id (k + 1) c.
Proof.
  intros Hv Ht Hid Hk He Hat s. pose proof (cluster_entry_region f id k Hid Hk) as Hd.
  destruct (add_entry_ok fl f t s k0 k ck e b Hv Ht) as (f' & t' & Hadd & Hop & Hent & Hkept);
    [exact (cluster_sector_pos fl f id Hv (proj1 Hid))|lia|done|done|].
  pose proof (step_fs _ _ _ _ (op_step _ _ _ _ _ _ Hop)) as Hfs.
  exists f', t'. split; [by eapply zoom_to|]. split; [done|].
  apply (chain_at_entry_kept fl f f' id _ c Hat Hfs). intros j Hj.
  apply Hkept; [lia|lia|by apply cluster_entry_region; [|lia]].
Qed.

(** Reading is no change. *)
Lemma entry_written_after fl f f1 t id k e f' t' :
  vol_same fl f f1 → vol_inv fl f1 → dirty_ok t →
  entry_written fl f1 t id k e f' t' → entry_written fl f t id k e f' t'.
Proof.
  intros Hst Hv Ht [Hop He Hk]. pose proof (step_fs _ _ _ _ Hst) as Hfs.
  assert (Hcs : cluster_sector f1 id = cluster_sector f id) by (unfold cluster_sector; by rewrite Hfs).
  rewrite Hcs in Hop, He, Hk. split; [|done|].
  - apply (vol_op_trans _ _ _ _ t f1); [by apply vol_op_same|done].
  - apply (entries_kept_trans fl _ f f1 f' _ _ _ Hst); [by apply entries_kept_same|done].
Qed.

(** The chain of the file's set. *)
Lemma entry_set_chain fl f d c id k :
  vol_inv fl f → entry_set_at f d c id k →
  ∃ ch, chain_new_from_file_details d (fs f) = Ok ch ∧ chain_at_entry fl f id k ch ∧
    Chain.cursor ch = 0 ∧ Chain.num_entries ch = Some (FileDetails.secondary_count d + 1).
Proof.
  intros Hv [Hid Hloc Hcnt [Hk Hfit] _ _ _]. pose proof EPS_range as [? HS]. pose proof (EPS_mod k).
  pose proof (EPS_div k). pose proof SIZE_range.
  destruct (cluster_length_pos fl f Hv) as (? & ? & Hcl). set (spc := sectors_per_cluster (fs f)) in *.
  assert (Hq : 0 ≤ k / EPS < spc) by (split; [apply Z.div_pos; lia|apply Z.div_lt_upper_bound; lia]).
  destruct (vol_geometry _ _ Hv) as [Hfat _ [_ [Hmax _]] Hheap _ _ _]. destruct Hid as [Hid _].
  unfold cluster_ok, CLUSTER_LEN in *.
  clear HS Hcl.
  unfold chain_new_from_file_details. rewrite Hloc. cbn [entry_location Location.sector_id Location.dir_entry_offset].
  fold spc in Hheap |- *. unfold cluster_sector in *. fold spc.
  assert (0 ≤ (id - 2) * spc) by (apply Z.mul_nonneg_nonneg; lia).
  assert ((id - 2) * spc + spc ≤ spc * FileSystemDetails.cluster_count (fs f))
    by (rewrite <-(Z.mul_succ_l (id - 2) spc), Z.mul_comm; apply Z.mul_le_mono_nonneg_l; lia).
  rewrite sub_ok by lia. cbn [mbind outcome_bind].
  replace (cluster_heap_offset (fs f) + (id - 2) * spc + k / EPS - cluster_heap_offset (fs f))
    with ((id - 2) * spc + k / EPS) by lia.
  rewrite udiv_ok by lia. cbn [mbind outcome_bind].
  rewrite <-(Z.div_unique ((id - 2) * spc + k / EPS) spc (id - 2) (k / EPS)) by lia.
  rewrite (add_ok u32) by lia. cbn [mbind outcome_bind].
  rewrite urem_ok by lia. cbn [mbind outcome_bind]. rewrite <-(Z.mod_unique ((id - 2) * spc + k / EPS) spc (id - 2) (k / EPS)) by lia.
  rewrite add_ok by (destruct usize_cases as [-> | ->]; lia). cbn [mbind outcome_bind].
  eexists. split; [reflexivity|]. split; [|done]. split; cbn; [lia|done|split_and!; lia|done].
Qed.
(** What looks the same, the chain may have in its buffer. *)
Lemma chain_at_entry_same fl f f' id k c :
  vol_same fl f f' → data_cluster f id → chain_at_entry fl f id k c → chain_at_entry fl f' id k c.
Proof.
  intros Hst Hid Hat. pose proof Hat as [_ _ [Ho [Hoe Hk]] _]. pose proof EPS_range.
  apply (chain_at_entry_kept fl f f' id k c Hat (step_fs _ _ _ _ Hst)). intros j Hj.
  apply (entries_kept_same fl f _ 0 0 f' Hst); [lia|lia|]. apply cluster_entry_region; [done|]. nia.
Qed.

(** ** The two entries [flush] rewrites *)
Lemma stamp_raw_ok (ts : EncodedTimestamp) (e : FileDirEntry.t) :
  encoded_typed ts → file_entry_typed e → raw_ok (FileDirEntry.serialize (stamp_file_entry ts e)).
Proof.
  intros Hts He. apply FileDirEntry_serialize_ok.
  unfold encoded_typed, file_entry_typed, byte_ok in *. cbn [stamp_file_entry FileDirEntry.secondary_count
    FileDirEntry.set_checksum FileDirEntry.file_attributes FileDirEntry.create_timestamp
    FileDirEntry.last_modified_timestamp FileDirEntry.last_accessed_timestamp
    FileDirEntry.create_10ms_increment FileDirEntry.last_modified_10ms_increment
    FileDirEntry.create_utc_offset FileDirEntry.last_modified_utc_offset
    FileDirEntry.last_accessed_utc_offset]. lia.
Qed.
Lemma store_typed f d ch id k (raw : RawDirEntry) e :
  entry_set_at f d ch id k → raw_ok raw → StreamExtensionDirEntry_from (E:=err) raw = Ok e →
  stream_entry_typed (store_details d ch e).
Proof.
  intros [_ _ _ _ Hf Hl Hc] Hraw He.
  destruct (stream_entry_parses (E:=err) raw Hraw) as (e' & He' & (_ & ? & ? & _)).
  rewrite He in He'. injection He' as <-. split; [exact Hf|]. cbn. tauto.
Qed.

Lemma flush_file_entry_ok (rounds : nat) fl f t d ch id k c ck fd :
  vol_inv fl f → dirty_ok t → clock_ok f → data_cluster f id → 0 ≤ k < EPS * sectors_per_cluster (fs f) →
  chain_at_entry fl f id k c → Chain.cursor c = 0 → Chain.num_entries c ≠ Some 0 →
  let s := cluster_sector f id in
  ∃ ts e c' f' t', FileDirEntry_from (E:=err) (dir_entry fl f s k) = Ok e ∧ encoded_typed ts ∧
    let raw := FileDirEntry.serialize (stamp_file_entry ts e) in raw_ok raw ∧
    flush_loop (S rounds) d ch 0 fd (c, (writer_at s k k ck, (t, f))) =
      flush_loop rounds d ch 1 (Some raw) (c', (writer_at s k (k + 1) (calc_checksum raw true ck), (t', f'))) ∧
    entry_written fl f t id k raw f' t' ∧ chain_at_entry fl f' id (k + 1) c' ∧
    Chain.cursor c' = 1 ∧ Chain.num_entries c' = Chain.num_entries c.
Proof.
  intros Hv Ht Hc Hid Hk Hat Hcur Hnum s.
  destruct (next_entry_ok fl f id k c Hv Hid Hat) as (c1 & f1 & Hn & Hv1 & Hst & Hat1 & Hcur1 & Hnum1);
    [by rewrite Hcur|lia|lia|]. pose proof (step_fs _ _ _ _ Hst) as Hfs. fold s in Hn.
  destruct (file_entry_rewrite (E:=err) (dir_entry fl f s k) (dir_entry_raw fl f id k Hv Hid Hk))
    as (e & He & Hte & _).
  destruct (get_current_timestamp_ok fl f1 Hv1) as (ts & f2 & Hts & Htt & Hv2 & Hst2); [unfold clock_ok; by rewrite (step_clock _ _ _ _ Hst)|].
  pose proof (vol_step_trans fl _ f f1 f2 Hst Hst2) as Hst12. pose proof (step_fs _ _ _ _ Hst2) as Hfs2.
  pose proof (stamp_raw_ok ts e Htt Hte) as Hraw. set (raw := FileDirEntry.serialize (stamp_file_entry ts e)) in *.
  destruct (add_passed_ok fl f2 t id k k ck c1 raw true Hv2 Ht) as (f3 & t3 & Hadd & Hwr & Hat3);
    [by apply (data_cluster_step fl (λ _, False) f f2)|by rewrite Hfs2, Hfs|done| |].
  { apply (chain_at_entry_same fl f1 f2 id _ c1 Hst2); [by apply (data_cluster_step fl (λ _, False) f f1)|done]. }
  replace (cluster_sector f2 id) with s in Hadd by (unfold s, cluster_sector; by rewrite Hfs2, Hfs).
  exists ts, e, c1, f3, t3. split; [done|]. split; [done|]. intros _raw. split; [done|]. split; [|split_and!].
  - cbn [flush_loop]. rewrite (bind_Ok _ _ _ _ _ (lchain_next c _ t f c1 f1 _ Hn)). cbv iota beta.
    change (0 =? 0) with true. cbv iota.
    rewrite bind_assoc, He, bind_lift_Ok, bind_assoc.
    rewrite (bind_Ok _ _ _ (c1, (writer_at s k k ck, (t, f2))) ts)
      by (eapply zoom_to; [eapply zoom_to; [eapply zoom_to; [exact Hts|]|]|]; done).
    cbv zeta. by rewrite bind_assoc, (bind_Ok _ _ _ _ _ Hadd).
  - by apply (entry_written_after fl f f2).
  - done.
  - lia.
  - done.
Qed.
Lemma entry_set_step fl P f f' d c id k :
  vol_step fl P f f' → entry_set_at f d c id k → entry_set_at f' d c id k.
Proof.
  intros Hst [Hid Hloc Hcnt Hfit Hfl Hl Hc]. pose proof (step_fs _ _ _ _ Hst) as Hfs.
  split; [by apply (data_cluster_step fl P f f')| |done| |done..].
  - rewrite Hloc. unfold cluster_sector. by rewrite Hfs.
  - by rewrite Hfs.
Qed.

Lemma flush_stream_entry_ok (rounds : nat) fl f t d ch id k0 k c ck fd :
  vol_inv fl f → dirty_ok t → entry_set_at f d ch id k0 → 0 ≤ k < EPS * sectors_per_cluster (fs f) →
  chain_at_entry fl f id k c → Chain.cursor c = 1 → Chain.num_entries c ≠ Some 1 →
  let s := cluster_sector f id in
  ∃ e c' f' t', StreamExtensionDirEntry_from (E:=err) (dir_entry fl f s k) = Ok e ∧
    let raw := StreamExtensionDirEntry.serialize (store_details d ch e) in raw_ok raw ∧
    flush_loop (S rounds) d ch 1 fd (c, (writer_at s k0 k ck, (t, f))) =
      flush_loop rounds d ch 2 fd (c', (writer_at s k0 (k + 1) (calc_checksum raw false ck), (t', f'))) ∧
    entry_written fl f t id k raw f' t' ∧ chain_at_entry fl f' id (k + 1) c' ∧
    Chain.cursor c' = 2 ∧ Chain.num_entries c' = Chain.num_entries c.
Proof.
  intros Hv Ht Hset Hk Hat Hcur Hnum s. pose proof (set_cluster _ _ _ _ _ Hset) as Hid.
  destruct (next_entry_ok fl f id k c Hv Hid Hat) as (c1 & f1 & Hn & Hv1 & Hst & Hat1 & Hcur1 & Hnum1);
    [by rewrite Hcur|lia|lia|]. pose proof (step_fs _ _ _ _ Hst) as Hfs. fold s in Hn.
  pose proof (dir_entry_raw fl f id k Hv Hid Hk) as Hold.
  destruct (stream_entry_parses (E:=err) (dir_entry fl f s k) Hold) as (e & He & Hte).
  assert (Hraw : raw_ok (StreamExtensionDirEntry.serialize (store_details d ch e))).
  { by eapply StreamExtensionDirEntry_serialize_ok, store_typed. }
  destruct (add_passed_ok fl f1 t id k0 k ck c1 (StreamExtensionDirEntry.serialize (store_details d ch e)) false Hv1 Ht)
    as (f2 & t2 & Hadd & Hwr & Hat2);
    [by apply (data_cluster_step fl (λ _, False) f f1)|by rewrite Hfs|done|done|].
  replace (cluster_sector f1 id) with s in Hadd by (unfold s, cluster_sector; by rewrite Hfs).
  exists e, c1, f2, t2. split; [done|]. intros _raw. split; [done|]. split; [|split_and!].
  - cbn [flush_loop]. rewrite (bind_Ok _ _ _ _ _ (lchain_next c _ t f c1 f1 _ Hn)). cbv iota beta.
    change (1 =? 0) with false. change (1 =? 1) with true. cbv iota.
    rewrite bind_assoc, He, bind_lift_Ok. by rewrite bind_assoc, (bind_Ok _ _ _ _ _ Hadd).
  - by apply (entry_written_after fl f f1).
  - done.
  - lia.
  - done.
Qed.

(** Both of them. *)
Record head_written fl f t d ch id k ts e0 e1 f' t' : Prop := {
  head_file_parsed : FileDirEntry_from (E:=err) (dir_entry fl f (cluster_sector f id) k) = Ok e0;
  head_stream_parsed : StreamExtensionDirEntry_from (E:=err) (dir_entry fl f (cluster_sector f id) (k + 1)) = Ok e1;
  head_time : encoded_typed ts;
  head_raw : raw_ok (new_file_entry ts e0);
  head_op : vol_op fl (head_sectors (cluster_sector f id) k) t f t' f';
  head_kept : entries_kept fl f (cluster_sector f id) k 2 f';
  head_file : dir_entry fl f' (cluster_sector f id) k = new_file_entry ts e0;
  head_stream : dir_entry fl f' (cluster_sector f id) (k + 1) = new_stream_entry d ch e1;
}.

Lemma flush_head_ok (rounds : nat) fl f t d ch id k c :
  vol_inv fl f → dirty_ok t → clock_ok f → entry_set_at f d ch id k →
  chain_at_entry fl f id k c → Chain.cursor c = 0 →
  Chain.num_entries c = Some (FileDetails.secondary_count d + 1) →
  let s := cluster_sector f id in
  ∃ ts e0 e1 c' f' t', head_written fl f t d ch id k ts e0 e1 f' t' ∧
    flush_loop (S (S rounds)) d ch 0 None (c, (writer_at s k k 0, (t, f))) =
      flush_loop rounds d ch 2 (Some (new_file_entry ts e0)) (c', (writer_at s k (k + 2)
        (calc_checksum (new_stream_entry d ch e1) false (calc_checksum (new_file_entry ts e0) true 0)), (t', f'))) ∧
    chain_at_entry fl f' id (k + 2) c' ∧ Chain.cursor c' = 2 ∧ Chain.num_entries c' = Chain.num_entries c.
Proof.
  intros Hv Ht Hc Hset Hat Hcur Hnum s. destruct (set_count _ _ _ _ _ Hset) as [Hm1 Hm2].
  destruct (set_fits _ _ _ _ _ Hset) as [Hk Hfit]. pose proof (set_cluster _ _ _ _ _ Hset) as Hid.
  destruct (flush_file_entry_ok (S rounds) fl f t d ch id k c 0 None Hv Ht Hc Hid)
    as (ts & e0 & c1 & f1 & t1 & He0 & Hts & Hraw & Hrun1 & [Hop1 Hent1 Hkept1] & Hat1 & Hcur1 & Hnum1);
    [lia|done|done|rewrite Hnum; intros [=]; lia|].
  pose proof (op_step _ _ _ _ _ _ Hop1) as Hst1. pose proof (step_fs _ _ _ _ Hst1) as Hfs1.
  assert (Hcs1 : cluster_sector f1 id = s) by (unfold s, cluster_sector; by rewrite Hfs1).
  pose proof (proj1 (op_tracks _ _ _ _ _ _ Hop1)) as Ht1. pose proof (op_inv _ _ _ _ _ _ Hop1) as Hv1.
  pose proof (entry_set_step fl _ f f1 d ch id k Hst1 Hset) as Hset1.
  fold s in Hrun1, Hent1, Hkept1, Hop1, He0. fold (new_file_entry ts e0) in Hrun1, Hent1, Hraw.
  destruct (flush_stream_entry_ok rounds fl f1 t1 d ch id k (k + 1) c1 (calc_checksum (new_file_entry ts e0) true 0)
      (Some (new_file_entry ts e0)) Hv1 Ht1 Hset1)
    as (e1 & c2 & f2 & t2 & He1 & Hraw1 & Hrun2 & [Hop2 Hent2 Hkept2] & Hat2 & Hcur2 & Hnum2);
    [rewrite Hfs1; lia|done|done|rewrite Hnum1, Hnum; intros [=]; lia|].
  rewrite Hcs1 in He1, Hrun2, Hop2, Hent2, Hkept2. fold (new_stream_entry d ch e1) in Hrun2, Hent2, Hraw1.
  assert (Hd : ∀ j, 0 ≤ j < EPS * sectors_per_cluster (fs f) → data_region f (s + j / EPS))
    by (intros j Hj; by apply cluster_entry_region).
  rewrite Hkept1 in He1 by (lia || (apply Hd; lia)). replace (k + 1 + 1) with (k + 2) in * by lia.
  exists ts, e0, e1, c2, f2, t2. split; [|split_and!; [by rewrite Hrun1|done|done|congruence]].
  split; [done..| | | |done].
  - eapply vol_op_trans; [eapply vol_op_weaken; [|exact Hop1]|eapply vol_op_weaken; [|exact Hop2]];
      [by left|by right].
  - apply (entries_kept_trans fl _ f f1 f2 _ _ _ Hst1); [eapply (entries_kept_weaken fl f s k 1)|
      eapply (entries_kept_weaken fl f1 s (k + 1) 1)]; done || lia.
  - fold s. rewrite Hkept2; [done|lia|lia|]. apply (data_region_step fl _ f f1 _ Hst1). apply Hd. lia.
Qed.
Lemma ENTRY_ROUNDS_eq : ENTRY_ROUNDS = S (S 255).
Proof. reflexivity. Qed.

Lemma fold_left_cons {A B} (g : A → B → A) x l a : fold_left g (x :: l) a = fold_left g l (g a x).
Proof. reflexivity. Qed.

Lemma head_written_same fl f t d ch id k ts e0 e1 f' t' f'' :
  data_cluster f id → 0 ≤ k → k + 2 ≤ EPS * sectors_per_cluster (fs f) → vol_inv fl f'' → vol_same fl f' f'' →
  head_written fl f t d ch id k ts e0 e1 f' t' → head_written fl f t d ch id k ts e0 e1 f'' t'.
Proof.
  intros Hid Hk Hfit Hv Hst [Hp0 Hp1 Hts Hraw Hop Hkept Hf Hs].
  pose proof (op_step _ _ _ _ _ _ Hop) as Hst1.
  assert (Hsame : ∀ j, k ≤ j < k + 2 →
    dir_entry fl f'' (cluster_sector f id) j = dir_entry fl f' (cluster_sector f id) j).
  { intros j Hj. apply (entries_kept_same fl f' _ 0 0 f'' Hst); [lia|lia|].
    apply (data_region_step fl _ f f' _ Hst1). by apply cluster_entry_region; [|lia]. }
  split; [done..| | | |].
  - eapply vol_op_trans; [exact Hop|]. apply vol_op_same; [done|done|apply (op_tracks _ _ _ _ _ _ Hop)].
  - apply (entries_kept_trans fl _ f f' f'' _ _ _ Hst1 Hkept). by apply entries_kept_same.
  - rewrite Hsame; [done|lia].
  - rewrite Hsame; [done|lia].
Qed.

Lemma flush_set_ok fl f t d ch id k c :
  vol_inv fl f → dirty_ok t → clock_ok f → entry_set_at f d ch id k →
  chain_at_entry fl f id k c → Chain.cursor c = 0 →
  Chain.num_entries c = Some (FileDetails.secondary_count d + 1) →
  let s := cluster_sector f id in
  ∃ ts e0 e1 f' t' c' k', head_written fl f t d ch id k ts e0 e1 f' t' ∧
    flush_loop ENTRY_ROUNDS d ch 0 None (c, (writer_at s k k 0, (t, f))) =
      ((c', (writer_at s k k' (spec_checksum (new_file_entry ts e0 ++ concat (new_stream_entry d ch e1 ::
         set_entries fl f s (k + 2) (FileDetails.secondary_count d - 1)))), (t', f'))), Ok (Some (new_file_entry ts e0))).
Proof.
  intros Hv Ht Hc Hset Hat Hcur Hnum s. destruct (set_count _ _ _ _ _ Hset) as [Hm1 Hm2].
  destruct (set_fits _ _ _ _ _ Hset) as [Hk Hfit]. pose proof (set_cluster _ _ _ _ _ Hset) as Hid.
  destruct (flush_head_ok 255 fl f t d ch id k c Hv Ht Hc Hset Hat Hcur Hnum)
    as (ts & e0 & e1 & c1 & f1 & t1 & Hw & Hrun & Hat1 & Hcur1 & Hnum1). fold s in Hrun.
  pose proof (op_step _ _ _ _ _ _ (head_op _ _ _ _ _ _ _ _ _ _ _ _ Hw)) as Hst1.
  pose proof (op_inv _ _ _ _ _ _ (head_op _ _ _ _ _ _ _ _ _ _ _ _ Hw)) as Hv1.
  pose proof (step_fs _ _ _ _ Hst1) as Hfs1.
  assert (Hcs1 : s = cluster_sector f1 id) by (unfold s, cluster_sector; by rewrite Hfs1).
  destruct (flush_names_ok fl d ch id (Some (new_file_entry ts e0)) s k (Z.to_nat (FileDetails.secondary_count d - 1))
      255 f1 t1 c1 (k + 2) (calc_checksum (new_stream_entry d ch e1) false (calc_checksum (new_file_entry ts e0) true 0)) 2
      Hv1 (proj2 (data_cluster_step fl _ f f1 id Hst1) Hid) Hcs1 Hat1 Hcur1)
    as (c2 & f2 & Hrun2 & Hv2 & Hst2);
    [rewrite Hnum1, Hnum; f_equal; lia|lia|lia|lia|lia|rewrite Hfs1; lia|].
  exists ts, e0, e1, f2, t1, c2, (k + 2 + Z.of_nat (Z.to_nat (FileDetails.secondary_count d - 1))).
  split; [by apply (head_written_same fl f t d ch id k ts e0 e1 f1 t1 f2); [|lia..| | |]|].
  rewrite ENTRY_ROUNDS_eq, Hrun, Hrun2, Z2Nat.id by lia.
  unfold s. rewrite (set_entries_kept fl f f1 id k 2 (k + 2) (FileDetails.secondary_count d - 1)
    (head_kept _ _ _ _ _ _ _ _ _ _ _ _ Hw) Hid) by lia.
  rewrite <-set_checksum_ok by (destruct (head_raw _ _ _ _ _ _ _ _ _ _ _ _ Hw) as [-> _]; lia).
  by rewrite fold_left_cons.
Qed.
(** ** The whole of it *)
Lemma flush_entries_ok fl f file id k :
  vol_inv fl f → dirty_ok (touched file) → clock_ok f → entry_set_at f (details file) (chain file) id k →
  is_dir_entry_dirty (touched file) = true →
  let s := cluster_sector f id in let d := details file in
  ∃ ts e0 e1 f1 t1 f2 t2, head_written fl f (touched file) d (chain file) id k ts e0 e1 f1 t1 ∧
    File.flush (file, f) = zoom ltouched FileDirty_flush (set_touched t2 file, f2) ∧
    vol_op fl (λ x, x = s + k / EPS) t1 f1 t2 f2 ∧ entries_kept fl f1 s k 1 f2 ∧
    dir_entry fl f2 s k = with_checksum (new_file_entry ts e0) (spec_checksum (new_file_entry ts e0 ++
      concat (new_stream_entry d (chain file) e1 :: set_entries fl f s (k + 2) (FileDetails.secondary_count d - 1)))).
Proof.
  intros Hv Ht Hc Hset Hdirty s d. pose proof (set_cluster _ _ _ _ _ Hset) as Hid.
  destruct (entry_set_chain fl f d (chain file) id k Hv Hset) as (c & Hch & Hat & Hcur & Hnum).
  destruct (flush_set_ok fl f (touched file) d (chain file) id k c Hv Ht Hc Hset Hat Hcur Hnum)
    as (ts & e0 & e1 & f1 & t1 & c' & k' & Hw & Hrun). fold s in Hrun.
  pose proof (head_op _ _ _ _ _ _ _ _ _ _ _ _ Hw) as Hop. pose proof (op_step _ _ _ _ _ _ Hop) as Hst.
  set (ck := spec_checksum _) in Hrun.
  destruct (finish_ok fl f1 t1 s k k' ck (new_file_entry ts e0) (op_inv _ _ _ _ _ _ Hop)
      (proj1 (op_tracks _ _ _ _ _ _ Hop))) as (f2 & t2 & Hfin & Hop2 & Hent & Hkept);
    [|apply Hw|].
  { apply (data_region_step fl _ f f1 _ Hst). apply cluster_entry_region; [done|].
    pose proof (set_fits _ _ _ _ _ Hset). pose proof (set_count _ _ _ _ _ Hset). lia. }
  exists ts, e0, e1, f1, t1, f2, t2. split; [done|]. split; [|done].
  unfold flush. rewrite (bind_Ok get_file _ _ (file, f) file) by done. rewrite Hdirty.
  rewrite bind_assoc, (bind_Ok get_fs _ _ (file, f) (fs f)) by done.
  fold d. rewrite bind_assoc, Hch, bind_lift_Ok, bind_assoc.
  rewrite (bind_Ok _ _ _ (set_touched t2 file, f2) (writer_at s k k' ck, ())); [done|].
  apply (zoom_to ltouched _ _ (t2, f2)); [|reflexivity]. cbn [view ltouched fst snd].
  apply (with_local_eq _ _ _ _ _ (Ok ())).
  replace (DirSetWriter.new (FileDetails.location d)) with (writer_at s k k 0)
    by (unfold d; rewrite (set_location _ _ _ _ _ Hset); reflexivity).
  rewrite (bind_Ok _ _ _ _ _ (with_local_eq c _ _ _ _ _ Hrun)). exact Hfin.
Qed.

(** ** The set before the sectors are written *)
Lemma flush_stored_ok fl f file id k :
  vol_inv fl f → dirty_ok (touched file) → clock_ok f → entry_set_at f (details file) (chain file) id k →
  is_dir_entry_dirty (touched file) = true →
  let s := cluster_sector f id in let n := FileDetails.secondary_count (details file) in
  ∃ ts e0 e1 f' t', File.flush (file, f) = zoom ltouched FileDirty_flush (set_touched t' file, f') ∧
    encoded_typed ts ∧ FileDirEntry_from (E:=err) (dir_entry fl f s k) = Ok e0 ∧
    StreamExtensionDirEntry_from (E:=err) (dir_entry fl f s (k + 1)) = Ok e1 ∧ raw_ok (new_file_entry ts e0) ∧
    set_entries fl f' s k (n + 1) = stored_set (new_file_entry ts e0)
      (new_stream_entry (details file) (chain file) e1) (set_entries fl f s (k + 2) (n - 1)) ∧
    entries_kept fl f s k 2 f' ∧ vol_op fl (head_sectors s k) (touched file) f t' f'.
Proof.
  intros Hv Ht Hc Hset Hdirty s n. pose proof Hset as [Hid _ Hm [Hk Hfit] _ _ _].
  destruct (flush_entries_ok fl f file id k Hv Ht Hc Hset Hdirty)
    as (ts & e0 & e1 & f1 & t1 & f2 & t2 & [Hp0 Hp1 Hts Hraw Hop1 Hk1 Hf1 Hs1] & Hrun & Hop2 & Hk2 & Hf2).
  fold s in Hop1, Hk1, Hf1, Hs1, Hf2. pose proof (op_step _ _ _ _ _ _ Hop1) as Hst1.
  assert (Hkept : entries_kept fl f s k 2 f2).
  { eapply entries_kept_trans; [exact Hst1|exact Hk1|].
    eapply entries_kept_weaken; [| |exact Hk2]; lia. }
  assert (Hs2 : dir_entry fl f2 s (k + 1) = new_stream_entry (details file) (chain file) e1).
  { rewrite Hk2; [done|lia|lia|]. apply (data_region_step fl _ f f1 _ Hst1). apply cluster_entry_region; [done|lia]. }
  assert (Hn : set_entries fl f2 s (k + 2) (n - 1) = set_entries fl f s (k + 2) (n - 1))
    by (apply (set_entries_kept fl f f2 id k 2); done || lia).
  exists ts, e0, e1, f2, t2. split_and!; try done.
  - rewrite (set_entries_cons fl f2 s k), (set_entries_cons fl f2 s (k + 1)), Hs2, Hf2 by lia.
    replace (k + 1 + 1) with (k + 2) by lia. replace (n + 1 - 1 - 1) with (n - 1) by lia. by rewrite Hn.
  - eapply vol_op_trans; [exact Hop1|]. eapply vol_op_weaken; [|exact Hop2]. by left.
Qed.
End Loop.

(** * Theorems *)
Section Theorems.
Context {cfg : Config} {crates : Crates} {bd : BlockDevice} {fu : Fuel}.
Context {Hcfg : ConfigOk cfg} {Hcr : CratesOk crates} {Hbd : DeviceOk cfg bd}.

(** [File::flush] of a file whose directory entry is dirty always
    succeeds and leaves a correct entry set: the file entry has the user's
    time, the stream extension the lengths and the first cluster of the open
    file (and a reader of the directory gets them back from it), the names are
    as they were, and the set holds its own checksum.  No other entry of the
    directory and no other sector changes, the list of touched sectors is
    empty again, and when it was complete every sector of the volume is on the
    device. *)
Theorem flush_stores_entry fl (f : FileSystem) (file : File) id k :
  vol_inv fl f → touched_ok fl f (touched file) → clock_ok f →
  entry_set_at f (details file) (chain file) id k → is_dir_entry_dirty (touched file) = true →
  let s := cluster_sector f id in let n := FileDetails.secondary_count (details file) in
  ∃ ts e0 e1 f', File.flush (file, f) = ((set_touched FileDirty_new file, f'), Ok ()) ∧
    encoded_typed ts ∧ FileDirEntry_from (E:=err) (dir_entry fl f s k) = Ok e0 ∧
    StreamExtensionDirEntry_from (E:=err) (dir_entry fl f s (k + 1)) = Ok e1 ∧
    set_entries fl f' s k (n + 1) = stored_set (new_file_entry ts e0)
      (new_stream_entry (details file) (chain file) e1) (set_entries fl f s (k + 2) (n - 1)) ∧
    StreamExtensionDirEntry_from (E:=err) (dir_entry fl f' s (k + 1)) =
      Ok (store_details (details file) (chain file) e1) ∧
    checksum_ok (set_entries fl f' s k (n + 1)) ∧ entries_kept fl f s k 2 f' ∧
    vol_inv fl f' ∧ vol_step fl (head_sectors s k) f f' ∧
    (tracked fl (touched file) f → ∀ x, in_volume fl f x → durable fl f' x).
Proof.
  intros Hv Htok Hc Hset Hdirty s n. pose proof Hset as [Hid _ Hm [Hk Hfit] _ _ _].
  destruct (flush_stored_ok fl f file id k Hv (proj1 Htok) Hc Hset Hdirty)
    as (ts & e0 & e1 & f2 & t2 & Hrun & Hts & Hp0 & Hp1 & Hraw & Hent2 & Hk2 & Hop).
  fold s n in Hent2, Hk2, Hop, Hp0, Hp1.
  pose proof (op_step _ _ _ _ _ _ Hop) as Hst2. pose proof (step_fs _ _ _ _ Hst2) as Hfs.
  destruct (FileDirty_flush_ok fl f2 t2 (op_inv _ _ _ _ _ _ Hop) (vol_op_touched _ _ _ _ _ _ Hop Htok))
    as (f3 & Hfl & Hv3 & Hst3 & Hdur).
  assert (Hent : set_entries fl f3 s k (n + 1) = stored_set (new_file_entry ts e0)
      (new_stream_entry (details file) (chain file) e1) (set_entries fl f s (k + 2) (n - 1))).
  { rewrite <-Hent2. replace s with (cluster_sector f2 id) by (unfold s, cluster_sector; by rewrite Hfs).
    apply (set_entries_kept fl f2 f3 id 0 0); [by apply entries_kept_same| |lia|rewrite Hfs; unfold n; lia|lia].
    by apply (data_cluster_step fl _ f f2 id Hst2). }
  exists ts, e0, e1, f3. split; [rewrite Hrun; by eapply zoom_to|]. split_and!; try done.
  - pose proof Hent as Hs3. rewrite (set_entries_cons fl f3 s k), (set_entries_cons fl f3 s (k + 1)) in Hs3 by lia.
    injection Hs3 as _ -> _. apply stream_entry_roundtrip. eapply (store_typed f); [done| |exact Hp1].
    apply dir_entry_raw; [done..|lia].
  - rewrite Hent. by apply stored_set_checksum_ok.
  - eapply entries_kept_trans; [exact Hst2|exact Hk2|by apply entries_kept_same].
  - eapply vol_step_trans; [exact Hst2|by apply vol_same_step].
  - intros Htr x Hx. pose proof (proj2 (in_volume_step fl _ f f2 x Hst2) Hx) as Hx2.
    destruct (vol_op_tracked _ _ _ _ _ _ Hop Htr x Hx2) as [Hdx|Hrx]; [|by apply Hdur].
    by apply (step_durable _ _ _ _ Hst3); [done|tauto|].
Qed.
End Theorems.

(** * A concrete directory *)
Section Sample.
#[local] Existing Instance debug_build.
#[local] Existing Instance dummy_device.
#[local] Existing Instance reference_crates.
#[local] Existing Instance reference_crates_ok.
#[local] Existing Instance debug_build_ok.
#[local] Instance sample_flush_device_ok : DeviceOk debug_build dummy_device := blank_ok.
#[local] Instance sample_flush_fuel : Fuel := 10%nat.

(** The root directory in cluster 3 has a file entry, a stream extension and a
    name; the user's clock always says the same. *)
Definition dir_device : DummyBlockDevice := {|
  blocks := <[3%nat := splice (zeros 512) 0 (FileDirEntry.serialize sample_file_entry ++
    StreamExtensionDirEntry.serialize sample_stream_entry ++ FileNameDirEntry.serialize sample_name_entry)]>
    (blocks fragmented_device);
  write_count := 0 |}.
Definition dir_volume : FileSystem :=
  let v := volume_on dir_device in
  {| device := device v; is_mounted := is_mounted v; fs := fs v; upcase_table := upcase_table v;
     allocator := allocator v; fat := fat v; data_blocks := data_blocks v;
     time_provider := Some (λ _, Timestamp.sample); clock := 0 |}.
(** The open file, which a write has just made longer. *)
Definition dirty_file : File := set_touched (set_dir_entry_dirty true FileDirty_new) fragmented_file.

Lemma dir_volume_inv : vol_inv 1 dir_volume.
Proof.
  assert (Hd : ∀ s, 0 ≤ s < 10 → dummy_addressable dir_device s).
  { intros s Hs. split; [exact Hs|]. apply (bool_decide_unpack _). vm_compute. exact I. }
  pose proof (volume_on_inv dir_device Hd) as []. by split.
Qed.
Lemma dirty_file_set : entry_set_at dir_volume (details dirty_file) (chain dirty_file) 3 0.
Proof.
  assert (He : EPS = 16) by (vm_compute; reflexivity).
  split; [|vm_compute; reflexivity|cbn; lia|rewrite He; cbn; lia| |cbn; lia|cbn; lia].
  - split; [unfold cluster_ok; cbn; lia|]. intros k Hk.
    unfold cluster_sector, data_region, heap_region, bitmap_region. cbn in *. lia.
  - split; [split; vm_compute; congruence|reflexivity].
Qed.

Lemma flush_stores_entry_witness :
  ∃ f', File.flush (dirty_file, dir_volume) = ((set_touched FileDirty_new dirty_file, f'), Ok ()) ∧
    checksum_ok (set_entries 1 f' 3 0 3) ∧
    dir_entry 1 f' 3 1 = [0xC0; 1; 0; 5; 0xEF; 0xBE; 0; 0; 88; 2; 0; 0; 0; 0; 0; 0; 0; 0; 0; 0; 5; 0; 0; 0; 0xBC; 2; 0; 0; 0; 0; 0; 0] ∧
    dir_entry 1 f' 3 2 = FileNameDirEntry.serialize sample_name_entry ∧
    content (device f') 3 = vseen 1 f' 3.
Proof.
  destruct (flush_stores_entry 1 dir_volume dirty_file 3 0 dir_volume_inv)
    as (ts & e0 & e1 & f' & Hr & _ & _ & He1 & Hset & _ & Hck & _ & _ & _ & Hdur);
    [split; [apply FileDirty_new_ok|apply Forall_nil_2]| |exact dirty_file_set|reflexivity|].
  { intros i. split; [unfold timestamp_typed; cbn; lia|reflexivity]. }
  change (cluster_sector dir_volume 3) with 3 in *.
  exists f'. split; [exact Hr|]. split; [exact Hck|].
  assert (He1' : e1 = sample_stream_entry) by (vm_compute in He1; injection He1 as <-; reflexivity).
  unfold stored_set in Hset. injection Hset as _ Hs1 Hs2.
  split; [etransitivity; [exact Hs1|]; rewrite He1'; vm_compute; reflexivity|].
  split; [etransitivity; [exact Hs2|]; vm_compute; reflexivity|].
  apply Hdur; [|right; right; apply (proj2 (set_cluster _ _ _ _ _ dirty_file_set) 0); cbn; lia].
  intros x _. left. unfold durable, vseen. do 2 (destruct (decide _); [symmetry; apply seen_new|]). symmetry. apply seen_new.
Defined.

End Sample.
