(* ===== verification/DirWalk.v ===== *)
(** * Walking a directory

    A directory is the cluster chain its entries are stored in ([directory]);
    its entries, numbered through all clusters, are [dir_at].  A
    [DirectoryEntryChain] made by [DirectoryEntryChain::new] reads them in this
    order and ends behind the last one. *)

From S2P Require Import Prelude Text Crates Errors Utils Timestamp BootSector Device SlotCache Touched Fat Allocation AllocationSearch Regions DirectoryEntry Volume VolumeInv VolumeAlloc Directory FileSystem File FileRead DirSets.
Import FileSystemDetails (cluster_length, sectors_per_cluster, cluster_heap_offset, fat_offset).

(** * Specification *)
Section Spec.
Context {cfg : Config} {crates : Crates} {bd : BlockDevice} {Hbd : DeviceOk cfg bd}.
Implicit Types (f : FileSystem) (cl : list Z) (p : Z).

(** Entries per cluster, and of the whole directory. *)
Definition EPC f : Z := EPS * sectors_per_cluster (fs f).
Definition dir_len f cl : Z := len cl * EPC f.

(** Entry [p] of the directory and its place. *)
Definition dir_cluster f cl p : Z := cl !!! Z.to_nat (p / EPC f).
Definition dir_at (fl : Z) f cl p : RawDirEntry :=
  dir_entry fl f (cluster_sector f (dir_cluster f cl p)) (p mod EPC f).
Definition place f cl p : Location.t := entry_location (cluster_sector f (dir_cluster f cl p)) (p mod EPC f).
Definition dir_list (fl : Z) f cl p n : list RawDirEntry := dir_at fl f cl <$> seqZ p n.

(** The clusters of a directory, linked in the FAT and at most 256 MB (the
    limit of exFAT). *)
Record directory (fl : Z) f cl : Prop := {
  dir_data : Forall (data_cluster f) cl;
  dir_linked : linked fl f cl;
  dir_last l : last cl = Some l → successor (fat_entry fl f l) = None;
  dir_small : dir_len f cl ≤ 2 ^ 23;
}.

(** The chain has read the first [p] entries. *)
Definition walk_at (fl : Z) f cl p (c : Chain.t) : Prop :=
  ∃ (i : nat) id k, cl !! i = Some id ∧ p = Z.of_nat i * EPC f + k ∧ chain_at_entry fl f id k c ∧
    Chain.num_entries c = None ∧ Chain.cursor c = p.
End Spec.

(** * Lemmas *)
Section Lemmas.
Context {cfg : Config} {crates : Crates} {bd : BlockDevice} {fu : Fuel}.
Context {Hcfg : ConfigOk cfg} {Hcr : CratesOk crates} {Hbd : DeviceOk cfg bd}.
Implicit Types (f : FileSystem) (cl : list Z) (p k : Z).

Lemma EPC_pos fl f : vol_inv fl f → 1 ≤ EPC f.
Proof.
  intros Hv. pose proof (geo_cluster _ _ _ (vol_geometry _ _ Hv)). pose proof EPS_range. unfold EPC. nia.
Qed.

(** ** What looks the same, walks the same *)
Lemma EPC_step fl P f f' : vol_step fl P f f' → EPC f' = EPC f.
Proof. intros Hst. unfold EPC. by rewrite (step_fs _ _ _ _ Hst). Qed.
Lemma place_step fl P f f' cl p : vol_step fl P f f' → place f' cl p = place f cl p.
Proof. intros Hst. unfold place, dir_cluster, cluster_sector, EPC. by rewrite (step_fs _ _ _ _ Hst). Qed.

Lemma dir_cluster_ok fl f cl p :
  vol_inv fl f → Forall (data_cluster f) cl → 0 ≤ p < dir_len f cl →
  cl !! Z.to_nat (p / EPC f) = Some (dir_cluster f cl p) ∧ data_cluster f (dir_cluster f cl p) ∧
  0 ≤ p mod EPC f < EPC f.
Proof.
  intros Hv Hcl Hp. pose proof (EPC_pos fl f Hv). unfold dir_len in Hp.
  assert (Hq : 0 ≤ p / EPC f < len cl) by (split; [apply Z.div_pos; lia|apply Z.div_lt_upper_bound; lia]).
  destruct (lookup_lt_is_Some_2 cl (Z.to_nat (p / EPC f))) as [id Hid]; [unfold len in Hq; lia|].
  unfold dir_cluster. rewrite (list_lookup_total_correct _ _ _ Hid).
  split; [done|]. split; [by eapply Forall_lookup_1|apply Z.mod_pos_bound; lia].
Qed.
Lemma dir_position fl f cl (i : nat) id k :
  vol_inv fl f → cl !! i = Some id → 0 ≤ k < EPC f →
  dir_cluster f cl (Z.of_nat i * EPC f + k) = id ∧ (Z.of_nat i * EPC f + k) mod EPC f = k.
Proof.
  intros Hv Hi Hk. unfold dir_cluster.
  rewrite <-(Z.div_unique (Z.of_nat i * EPC f + k) (EPC f) (Z.of_nat i) k) by lia.
  rewrite <-(Z.mod_unique (Z.of_nat i * EPC f + k) (EPC f) (Z.of_nat i) k) by lia.
  rewrite Nat2Z.id. split; [by apply list_lookup_total_correct|done].
Qed.

Lemma dir_at_region fl f cl p :
  vol_inv fl f → Forall (data_cluster f) cl → 0 ≤ p < dir_len f cl →
  data_region f (cluster_sector f (dir_cluster f cl p) + p mod EPC f / EPS).
Proof.
  intros Hv Hcl Hp. destruct (dir_cluster_ok fl f cl p Hv Hcl Hp) as (_ & [_ Hd] & Hm).
  pose proof EPS_range. apply Hd. unfold EPC in Hm |- *.
  split; [apply Z.div_pos; lia|apply Z.div_lt_upper_bound; lia].
Qed.
Lemma dir_at_same fl f f' cl p :
  vol_inv fl f → Forall (data_cluster f) cl → vol_same fl f f' → 0 ≤ p < dir_len f cl →
  dir_at fl f' cl p = dir_at fl f cl p.
Proof.
  intros Hv Hcl Hst Hp. pose proof (dir_at_region fl f cl p Hv Hcl Hp) as Hr.
  unfold dir_at, dir_entry, dir_cluster, cluster_sector, EPC in *. rewrite (step_fs _ _ _ _ Hst).
  f_equal. rewrite (step_seen _ _ _ _ Hst); [done|by right; right|tauto].
Qed.
Lemma directory_same fl f f' cl : vol_inv fl f → vol_same fl f f' → directory fl f cl → directory fl f' cl.
Proof.
  intros Hv Hst [Hd Hl He Hs]. split.
  - eapply Forall_impl; [exact Hd|]. intros id. by apply (data_cluster_step fl (λ _, False) f f').
  - intros i a b Ha Hb. pose proof (Forall_lookup_1 _ _ _ _ Hd Ha) as [Hok _].
    rewrite (fat_entry_step fl (λ _, False) f f' a); [by apply (Hl i a b)|done|done|done|tauto].
  - intros l Hla. pose proof Hla as Hin. rewrite last_lookup in Hin.
    pose proof (Forall_lookup_1 _ _ _ _ Hd Hin) as [Hok _].
    rewrite (fat_entry_step fl (λ _, False) f f' l); [by apply He|done|done|done|tauto].
  - unfold dir_len. by rewrite (EPC_step fl _ f f' Hst).
Qed.

(** ** One step *)
Lemma walk_start fl f cl : cl ≠ [] → vol_inv fl f → walk_at fl f cl 0 (chain_new (hd 0 cl) (fs f)).
Proof.
  intros Hcl Hv. destruct cl as [|id cl]; [done|]. exists 0%nat, id, 0. split; [done|]. split; [lia|].
  split; [|done]. pose proof (geo_cluster _ _ _ (vol_geometry _ _ Hv)). pose proof EPS_range.
  split; cbn; [done|done|lia|done].
Qed.

(** At the end of a cluster: the FAT says where to go on. *)
Lemma cross_cluster_ok fl f id c :
  vol_inv fl f → data_cluster f id → chain_at_entry fl f id (EPC f) c →
  ∃ c' f', (next_sector ;; next_cluster) (c, f) =
      ((c', f'), Ok (match successor (fat_entry fl f id) with Some _ => true | None => false end)) ∧
    vol_inv fl f' ∧ vol_same fl f f' ∧
    ∀ id', successor (fat_entry fl f id) = Some id' →
      chain_at_entry fl f' id' 0 c' ∧ Chain.dir_entry_offset c' < EPS ∧
      Chain.cursor c' = Chain.cursor c ∧ Chain.num_entries c' = Chain.num_entries c.
Proof.
  intros Hv [Hid Hd] [Hc Hf [Ho [He Hk]] Hb]. pose proof EPS_range as [? ?]. unfold EPC in Hk.
  destruct (cluster_length_pos fl f Hv) as (? & ? & Hcl). pose proof SIZE_range.
  assert (Hspc : sectors_per_cluster (fs f) < 2 ^ 32) by nia. clear Hcl.
  assert (Hoe : Chain.cluster_offset c = sectors_per_cluster (fs f) - 1 ∧ Chain.dir_entry_offset c = EPS) by nia.
  destruct Hoe as [Hoe Hde]. destruct (fat_next fl f id Hv Hid) as (f' & Hn & Hv' & Hst).
  pose proof (step_fs _ _ _ _ Hst) as Hfs. set (c1 := chain_at id (sectors_per_cluster (fs f)) 0 true c).
  rewrite (bind_Ok next_sector _ _ (c1, f) ()).
  2: { unfold next_sector, get_chain. rewrite (bind_Ok (gets fst) _ _ (c, f) c) by done.
       change dir_entries_per_block with EPS. rewrite (proj2 (Z.leb_le _ _)) by lia.
       rewrite add_ok, bind_lift_Ok by (destruct usize_cases as [-> | ->]; lia).
       unfold c1. rewrite Hoe, Hc, Z.sub_add. done. }
  unfold next_cluster, get_chain. rewrite (bind_Ok (gets fst) _ _ (c1, f) c1) by done.
  cbn [c1 chain_at Chain.fs Chain.cluster_offset Chain.cluster_id]. rewrite Hf.
  rewrite cast_id by (destruct usize_cases as [-> | ->]; lia). rewrite Z.leb_refl.
  rewrite (bind_Ok _ _ _ (c1, f') (successor (fat_entry fl f id))) by (by eapply zoom_to).
  destruct (successor (fat_entry fl f id)) as [id'|] eqn:Hs.
  - exists (chain_at id' 0 0 true c1), f'. split; [done|]. split; [done|]. split; [done|].
    intros ? [= <-]. split; [|cbn; split_and!; [lia|done|done]].
    split; cbn; [done|by rewrite Hfs|rewrite Hfs; split_and!; lia|done].
  - exists c1, f'. by split_and!.
Qed.

Lemma walk_bounds fl f cl p c :
  vol_inv fl f → directory fl f cl → walk_at fl f cl p c →
  0 ≤ p ≤ dir_len f cl ∧ 0 ≤ Chain.cursor c < 2 ^ 31 ∧ Chain.num_entries c = None.
Proof.
  intros Hv [_ _ _ Hs] (i & id & k & Hi & Hp & [_ _ [Ho [He Hk]] _] & Hn & Hc).
  apply lookup_lt_Some in Hi. pose proof EPS_range. unfold dir_len, len in *.
  assert (Hkb : 0 ≤ k ≤ EPC f) by (unfold EPC; nia).
  assert ((Z.of_nat i + 1) * EPC f ≤ Z.of_nat (length cl) * EPC f) by (apply Z.mul_le_mono_nonneg_r; lia).
  assert (0 ≤ Z.of_nat i * EPC f) by (apply Z.mul_nonneg_nonneg; lia).
  rewrite Hc. split_and!; [lia..|done].
Qed.

(** [next] returns the entries of the directory one after the other. *)
Lemma next_walk_ok fl f cl p c :
  vol_inv fl f → directory fl f cl → walk_at fl f cl p c → p < dir_len f cl →
  ∃ c' f', next (c, f) = ((c', f'), Ok (Some (dir_at fl f cl p, place f cl p))) ∧
    vol_inv fl f' ∧ vol_same fl f f' ∧ directory fl f' cl ∧ walk_at fl f' cl (p + 1) c'.
Proof.
  intros Hv Hdir Hw Hlt. destruct (walk_bounds fl f cl p c Hv Hdir Hw) as (Hp0 & Hcur & Hnum).
  destruct Hw as (i & id & k & Hi & Hp & Hat & _ & Hc). pose proof Hat as [_ _ [Ho [He Hk]] _].
  pose proof (Forall_lookup_1 _ _ _ _ (dir_data _ _ _ Hdir) Hi) as Hid.
  pose proof EPS_range. assert (Hkb : 0 ≤ k ≤ EPC f) by (unfold EPC; nia).
  destruct (decide (k < EPC f)) as [Hin|Hout].
  - destruct (next_entry_ok fl f id k c Hv Hid Hat) as (c' & f' & Hn & Hv' & Hst & Hat' & Hcur' & Hnum');
      [by rewrite Hnum|done|exact Hin|].
    exists c', f'. unfold dir_at, place.
    destruct (dir_position fl f cl i id k Hv Hi) as [Hdc Hdm]; [lia|]. rewrite <-Hp in Hdc, Hdm. rewrite Hdc, Hdm.
    split_and!; [done..|by apply (directory_same fl f f')|].
    exists i, id, (k + 1). rewrite (EPC_step fl _ f f' Hst). split_and!; [done|lia|done|congruence|lia].
  - assert (k = EPC f) as -> by lia. destruct (lookup_lt_is_Some_2 cl (S i)) as [id' Hi'].
    { unfold dir_len, len in Hlt. nia. }
    destruct (cross_cluster_ok fl f id c Hv Hid Hat) as (c1 & f1 & Hx & Hv1 & Hst1 & Hnext).
    destruct (Hnext id') as (Hat1 & Hlt1 & Hcur1 & Hnum1); [by apply (dir_linked _ _ _ Hdir i)|].
    rewrite (dir_linked _ _ _ Hdir i id id' Hi Hi') in Hx. pose proof (directory_same fl f f1 cl Hv Hst1 Hdir) as Hdir1.
    pose proof (Forall_lookup_1 _ _ _ _ (dir_data _ _ _ Hdir1) Hi') as Hid1.
    destruct (fetch_take_ok fl f1 id' 0 c1 Hv1 Hid1 Hat1 Hlt1) as (c2 & f2 & Hn & Hv2 & Hst2 & Hat2 & Hcur2 & Hnum2); [lia|].
    pose proof (EPC_pos fl f Hv). destruct (dir_position fl f cl (S i) id' 0 Hv Hi') as [Hdc Hdm]; [lia|].
    replace (Z.of_nat (S i) * EPC f + 0) with p in Hdc, Hdm by lia.
    exists c2, f2. pose proof (vol_step_trans fl _ f f1 f2 Hst1 Hst2) as Hst.
    split; [|split_and!; [done|done|by apply (directory_same fl f f2)|]].
    + unfold next, get_chain. rewrite (bind_Ok (gets fst) _ _ (c, f) c) by done.
      rewrite bool_decide_false by (by rewrite Hnum). rewrite <-bind_assoc, (bind_Ok _ _ _ _ _ Hx), Hn.
      rewrite <-(dir_at_same fl f f1 cl p Hv (dir_data _ _ _ Hdir) Hst1) by lia.
      rewrite <-(place_step fl _ f f1 cl p Hst1). unfold dir_at, place.
      replace (dir_cluster f1 cl p) with id' by (unfold dir_cluster; rewrite (EPC_step fl _ f f1 Hst1); done).
      by rewrite (EPC_step fl _ f f1 Hst1), Hdm.
    + exists (S i), id', 1. rewrite (EPC_step fl _ f f2 Hst). split_and!; [done|lia|done|congruence|lia].
Qed.

(** At the end of the directory there is no next entry. *)
Lemma next_walk_end fl f cl p c :
  vol_inv fl f → directory fl f cl → walk_at fl f cl p c → p = dir_len f cl →
  ∃ c' f', next (c, f) = ((c', f'), Ok None) ∧ vol_inv fl f' ∧ vol_same fl f f'.
Proof.
  intros Hv Hdir Hw ->. destruct (walk_bounds fl f cl _ c Hv Hdir Hw) as (Hp0 & Hcur & Hnum).
  destruct Hw as (i & id & k & Hi & Hp & Hat & _ & Hc). pose proof Hat as [_ _ [Ho [He Hk]] _].
  pose proof (Forall_lookup_1 _ _ _ _ (dir_data _ _ _ Hdir) Hi) as Hid.
  pose proof EPS_range. pose proof (EPC_pos fl f Hv). pose proof (lookup_lt_Some _ _ _ Hi).
  assert (Hkb : 0 ≤ k ≤ EPC f) by (unfold EPC; nia). unfold dir_len, len in Hp.
  assert (Hlast : (S i = length cl)%nat ∧ k = EPC f) by nia. destruct Hlast as [Hlast ->].
  destruct (cross_cluster_ok fl f id c Hv Hid Hat) as (c1 & f1 & Hx & Hv1 & Hst1 & _).
  rewrite (dir_last _ _ _ Hdir id) in Hx by (rewrite last_lookup, <-Hlast; done).
  exists c1, f1. split; [|done]. unfold next, get_chain. rewrite (bind_Ok (gets fst) _ _ (c, f) c) by done.
  rewrite bool_decide_false by (by rewrite Hnum). by rewrite <-bind_assoc, (bind_Ok _ _ _ _ _ Hx).
Qed.
End Lemmas.
