(* ===== verification/DirFree.v ===== *)
(** * Room in a directory

    [find_empty_dir_entry_set] of src/file_system.rs looks for a run of unused
    entries.  It finds the first one that is long enough; when there is none it
    still answers with the run at the end of the directory, however short. *)

From S2P Require Import Prelude Text Crates Errors Utils Timestamp BootSector Device SlotCache Touched Fat Allocation AllocationSearch Regions DirectoryEntry Volume VolumeInv VolumeAlloc Directory FileSystem File FileRead DirSets DirWalk.
Import FileSystemDetails (cluster_length, sectors_per_cluster, cluster_heap_offset, fat_offset).

(** * Specification *)
Section Spec.
Context {cfg : Config} {crates : Crates} {bd : BlockDevice} {Hbd : DeviceOk cfg bd}.
Implicit Types (f : FileSystem) (cl : list Z) (p n : Z).

(** The in-use bit of an entry is clear. *)
Definition is_free (e : RawDirEntry) : bool := e !!! 0%nat <? 128.

(** The [n] entries from [p] on are free. *)
Definition free_from (fl : Z) f cl p n : Prop :=
  0 ≤ p ∧ p + n ≤ dir_len f cl ∧ ∀ j, p ≤ j < p + n → is_free (dir_at fl f cl j) = true.
(** [p] is where a run of free entries begins. *)
Definition run_start (fl : Z) f cl p : Prop := p = 0 ∨ is_free (dir_at fl f cl (p - 1)) = false.

(** The answers of [find_empty_dir_entry_set]. *)
Definition find_empty_spec (fl : Z) f cl n (o : outcome err Location.t) : Prop :=
  (∃ p, free_from fl f cl p n ∧ run_start fl f cl p ∧ (∀ q, q < p → ¬ free_from fl f cl q n) ∧
     o = Ok (place f cl p)) ∨
  (∀ q, ¬ free_from fl f cl q n) ∧
    ((∃ p, p < dir_len f cl ∧ free_from fl f cl p (dir_len f cl - p) ∧ run_start fl f cl p ∧
       o = Ok (place f cl p)) ∨
     is_free (dir_at fl f cl (dir_len f cl - 1)) = false ∧ o = Err DirectoryFull).

(** What the scan knows at entry [p]. *)
Record scanned (fl : Z) f cl n p (counter : Z) (start : option Location.t) : Prop := {
  scan_range : 0 ≤ counter < n ∧ counter ≤ p;
  scan_run j : p - counter ≤ j < p → is_free (dir_at fl f cl j) = true;
  scan_before : run_start fl f cl (p - counter);
  scan_none q : q + n ≤ p → ¬ free_from fl f cl q n;
  scan_start : start = if counter =? 0 then None else Some (place f cl (p - counter));
}.
End Spec.

(** * Lemmas *)
Section Lemmas.
Context {cfg : Config} {crates : Crates} {bd : BlockDevice} {fu : Fuel}.
Context {Hcfg : ConfigOk cfg} {Hcr : CratesOk crates} {Hbd : DeviceOk cfg bd}.
Implicit Types (f : FileSystem) (cl : list Z) (p n : Z).

Lemma is_free_type e :
  raw_ok e → is_free e = match EntryType.from (e !!! 0%nat) with
                         | EntryType.EndOfDirectory | EntryType.Unused _ => true | _ => false end.
Proof.
  intros [Hl Hb]. assert (Hb0 : byte_ok (e !!! 0%nat)).
  { eapply Forall_lookup_1; [exact Hb|]. apply list_lookup_lookup_total_lt. lia. }
  destruct (entry_type_roundtrip _ Hb0) as (_ & H0 & Hu). unfold is_free.
  destruct (EntryType.from (e !!! 0%nat)) eqn:He;
    try (apply Z.ltb_ge; destruct (Z.leb_spec 128 (e !!! 0%nat)); [lia|];
      destruct (decide (e !!! 0%nat = 0)) as [Hz|Hnz]; [apply H0 in Hz; congruence|];
      destruct (proj2 Hu) as [y Hy]; [unfold byte_ok in Hb0; lia|congruence]).
  - apply Z.ltb_lt. rewrite (proj1 H0 eq_refl). lia.
  - apply Z.ltb_lt. enough (0 < e !!! 0%nat < 128) by lia. apply Hu. eauto.
Qed.

Lemma raw_index {E} e : raw_ok e → index (E:=E) e 0 = Ok (e !!! 0%nat).
Proof. intros [Hl _]. apply index_ok; [lia|]. apply list_lookup_lookup_total_lt. lia. Qed.

Lemma dir_at_raw fl f cl p :
  vol_inv fl f → Forall (data_cluster f) cl → 0 ≤ p < dir_len f cl → raw_ok (dir_at fl f cl p).
Proof.
  intros Hv Hcl Hp. apply raw_entry; [|apply EPS_mod]. apply (vseen_ok fl f _ Hv). right; right.
  by apply (dir_at_region fl).
Qed.

(** ** The scan *)
Lemma scanned_used fl f cl n p counter start :
  0 ≤ p → is_free (dir_at fl f cl p) = false → scanned fl f cl n p counter start → scanned fl f cl n (p + 1) 0 None.
Proof.
  intros Hp0 Hp [[Hr Hcp] _ _ Hn _]. split; [lia|lia| | |done].
  - right. by replace (p + 1 - 0 - 1) with p by lia.
  - intros q Hq (Hq0 & Hqn & Hf). destruct (decide (q + n ≤ p)) as [Hle|Hgt].
    + by apply (Hn q Hle).
    + rewrite Hf in Hp by lia. done.
Qed.
Lemma scanned_free fl f cl n p counter start :
  is_free (dir_at fl f cl p) = true → scanned fl f cl n p counter start → counter + 1 < n →
  scanned fl f cl n (p + 1) (counter + 1)
    (match start with None => Some (place f cl p) | s => s end).
Proof.
  intros Hp [[Hr Hcp] Hrun Hb Hn ->] Hlt. replace (p + 1 - (counter + 1)) with (p - counter) in * by lia.
  split; [lia| | | |].
  - intros j Hj. destruct (decide (j = p)) as [->|]; [done|]. apply Hrun. lia.
  - by replace (p + 1 - (counter + 1)) with (p - counter) by lia.
  - intros q Hq (Hq0 & Hqn & Hf). destruct (decide (q + n ≤ p)) as [Hle|Hgt]; [by apply (Hn q Hle)|].
    destruct Hb as [Hb|Hb]; [lia|]. rewrite Hf in Hb by lia. done.
  - rewrite (proj2 (Z.eqb_neq (counter + 1) 0)) by lia.
    replace (p + 1 - (counter + 1)) with (p - counter) by lia.
    destruct (Z.eqb_spec counter 0) as [->|]; [by rewrite Z.sub_0_r|done].
Qed.
Lemma scanned_first fl f cl n p counter start q :
  scanned fl f cl n p counter start → q < p - counter → ¬ free_from fl f cl q n.
Proof.
  intros [[Hr Hcp] Hrun Hb Hn _] Hq (Hq0 & Hqn & Hf).
  destruct (decide (q + n ≤ p)) as [Hle|Hgt]; [by apply (Hn q Hle)|].
  destruct Hb as [Hb|Hb]; [lia|]. rewrite Hf in Hb by lia. done.
Qed.
Lemma scanned_same fl f f' cl n p counter start :
  vol_inv fl f → Forall (data_cluster f) cl → vol_same fl f f' → 0 ≤ p ≤ dir_len f cl →
  scanned fl f cl n p counter start → scanned fl f' cl n p counter start.
Proof.
  intros Hv Hcl Hst Hp [[Hr Hcp] Hrun Hb Hn ->]. pose proof (EPC_step fl _ f f' Hst) as HE.
  assert (Hat : ∀ j, 0 ≤ j < dir_len f cl → dir_at fl f' cl j = dir_at fl f cl j)
    by (intros j; by apply dir_at_same).
  split; [lia| | | |by rewrite (place_step fl _ f f' _ _ Hst)].
  - intros j Hj. rewrite Hat by lia. by apply Hrun.
  - destruct Hb as [Hb|Hb]; [by left|]. destruct (decide (p - counter = 0)) as [|]; [by left|].
    right. by rewrite Hat by lia.
  - intros q Hq (Hq0 & Hqn & Hf). apply (Hn q Hq). unfold dir_len in *. rewrite HE in Hqn.
    split_and!; [done|done|]. intros j Hj. rewrite <-Hat by lia. by apply Hf.
Qed.
Lemma find_empty_spec_same fl f f' cl n o :
  vol_inv fl f → directory fl f cl → 1 ≤ dir_len f cl → 0 ≤ n → vol_same fl f f' →
  find_empty_spec fl f' cl n o → find_empty_spec fl f cl n o.
Proof.
  intros Hv Hdir Hpos Hnn Hst Hs.
  assert (Hat : ∀ j, 0 ≤ j < dir_len f cl → dir_at fl f' cl j = dir_at fl f cl j)
    by (intros j; apply dir_at_same; [done|apply Hdir|done]).
  assert (Hlen : dir_len f' cl = dir_len f cl) by (unfold dir_len; by rewrite (EPC_step fl _ f f' Hst)).
  assert (Hfree : ∀ q m, free_from fl f' cl q m ↔ free_from fl f cl q m).
  { intros q m. unfold free_from. rewrite Hlen. split; intros (? & ? & Hj); split_and!; try done; intros j Hjr;
      [rewrite <-Hat by lia|rewrite Hat by lia]; by apply Hj. }
  assert (Hrs : ∀ q, 0 ≤ q ≤ dir_len f cl → run_start fl f' cl q → run_start fl f cl q).
  { intros q Hq [?|Hr]; [by left|]. destruct (decide (q = 0)) as [|]; [by left|]. right. by rewrite <-Hat by lia. }
  destruct Hs as [(p & Hf & Hr & Hn & ->)|[Hn Hs]].
  - left. pose proof (proj1 (Hfree p n) Hf) as Hfp. destruct (Hfp) as (? & ? & _).
    exists p. split_and!; [done| | |by rewrite (place_step fl _ f f' _ _ Hst)].
    + apply Hrs; [lia|done].
    + intros q Hq. rewrite <-Hfree. by apply Hn.
  - right. split; [intros q; rewrite <-Hfree; apply Hn|]. rewrite Hlen in Hs.
    destruct Hs as [(p & Hp & Hf & Hr & ->)|[Hl ->]].
    + left. exists p. rewrite <-Hfree. destruct Hf as (? & Hf).
      split_and!; [done|by split|apply Hrs; [lia|done]|by rewrite (place_step fl _ f f' _ _ Hst)].
    + right. split; [|done]. by rewrite <-Hat by lia.
Qed.

Lemma find_empty_loop_ok fl cl n (rounds : nat) :
  ∀ f p c counter start, vol_inv fl f → directory fl f cl → walk_at fl f cl p c → 1 ≤ n < 2 ^ 31 →
  scanned fl f cl n p counter start → dir_len f cl - p < Z.of_nat rounds →
  ∃ c' f' r, find_empty_loop rounds n counter start (c, f) = ((c', f'), Ok r) ∧ vol_inv fl f' ∧ vol_same fl f f' ∧
    find_empty_spec fl f cl n (match r with Some l => Ok l | None => Err DirectoryFull end).
Proof.
  induction rounds as [|rounds IH]; intros f p c counter start Hv Hdir Hw Hn Hsc Hr;
    pose proof (walk_bounds fl f cl p c Hv Hdir Hw) as (Hp & _); [lia|]. cbn [find_empty_loop].
  assert (Hpos : 1 ≤ dir_len f cl).
  { destruct Hw as (i & id & k & Hi%lookup_lt_Some & _). pose proof (EPC_pos fl f Hv). unfold dir_len, len. nia. }
  pose proof (dir_data _ _ _ Hdir) as Hcl. pose proof Hsc as [[Hc0 Hcp] Hrun Hb Hnone Hstart].
  destruct (decide (p = dir_len f cl)) as [Hend|Hin].
  { destruct (next_walk_end fl f cl p c Hv Hdir Hw Hend) as (c' & f' & Hnx & Hv' & Hst).
    rewrite (bind_Ok _ _ _ _ _ Hnx). exists c', f', start. split; [done|]. split_and!; [done..|].
    right. split.
    { intros q Hq. pose proof Hq as (_ & Hqn & _). apply (Hnone q); [lia|done]. }
    subst start. destruct (Z.eqb_spec counter 0) as [->|Hc].
    - right. split; [|done]. destruct Hb as [Hb|Hb]; [exfalso; lia|]. by rewrite <-Hend, <-(Z.sub_0_r p).
    - left. exists (p - counter). split; [lia|]. split; [|done]. split_and!; [lia|lia|]. intros j Hj. apply Hrun. lia. }
  destruct (next_walk_ok fl f cl p c Hv Hdir Hw) as (c' & f' & Hnx & Hv' & Hst & Hdir' & Hw'); [lia|].
  rewrite (bind_Ok _ _ _ _ _ Hnx). pose proof (dir_at_raw fl f cl p Hv Hcl ltac:(lia)) as Hraw.
  rewrite (raw_index _ Hraw), bind_lift_Ok. pose proof (is_free_type _ Hraw) as Hfree.
  assert (Hlen : dir_len f' cl = dir_len f cl) by (unfold dir_len; by rewrite (EPC_step fl _ f f' Hst)).
  assert (Hnext : ∀ counter' start', scanned fl f cl n (p + 1) counter' start' →
    ∃ c2 f2 r, find_empty_loop rounds n counter' start' (c', f') = ((c2, f2), Ok r) ∧ vol_inv fl f2 ∧ vol_same fl f f2 ∧
      find_empty_spec fl f cl n (match r with Some l => Ok l | None => Err DirectoryFull end)).
  { intros counter' start' Hsc'.
    destruct (IH f' (p + 1) c' counter' start' Hv' Hdir' Hw' Hn) as (c2 & f2 & r & Hl & Hv2 & Hst2 & Hs);
      [apply (scanned_same fl f f'); done || lia|lia|].
    exists c2, f2, r. split_and!; [done|done|by eapply vol_step_trans|].
    apply (find_empty_spec_same fl f f'); done || lia. }
  assert (Hgo : is_free (dir_at fl f cl p) = true → ∃ c2 f2 r,
    (counter' ← lift (add usize counter 1);
     if counter' =? n then mret (match start with None => Some (place f cl p) | s => s end)
     else find_empty_loop rounds n counter' (match start with None => Some (place f cl p) | s => s end))
      (c', f') = ((c2, f2), Ok r) ∧ vol_inv fl f2 ∧ vol_same fl f f2 ∧
      find_empty_spec fl f cl n (match r with Some l => Ok l | None => Err DirectoryFull end)).
  { intros Hft. rewrite add_ok, bind_lift_Ok by (destruct usize_cases as [-> | ->]; lia).
    destruct (Z.eqb_spec (counter + 1) n) as [Heq|Hne].
    - exists c', f', (match start with None => Some (place f cl p) | s => s end).
      split; [done|]. split; [done|]. split; [done|]. left. exists (p - counter).
      split; [split_and!; [lia|lia|]|split_and!; [done| |]].
      + intros j Hj. destruct (decide (j = p)) as [->|]; [done|]. apply Hrun. lia.
      + intros q Hq. by apply (scanned_first fl f cl n p counter start).
      + rewrite Hstart. destruct (Z.eqb_spec counter 0) as [->|]; [by rewrite Z.sub_0_r|done].
    - apply Hnext, (scanned_free fl f cl n p counter start); done || lia. }
  destruct (EntryType.from (dir_at fl f cl p !!! 0%nat)); try (apply Hgo; exact Hfree);
    apply Hnext, (scanned_used fl f cl n p counter start); done || lia.
Qed.
End Lemmas.

(** * Theorems *)
Section Theorems.
Context {cfg : Config} {crates : Crates} {bd : BlockDevice} {fu : Fuel}.
Context {Hcfg : ConfigOk cfg} {Hcr : CratesOk crates} {Hbd : DeviceOk cfg bd}.

Lemma find_empty_ok fl (f : FileSystem) cl n :
  vol_inv fl f → directory fl f cl → cl ≠ [] → 1 ≤ n < 2 ^ 31 → dir_len f cl < Z.of_nat fuel →
  ∃ f' o, find_empty_dir_entry_set (hd 0 cl) n f = (f', o) ∧ find_empty_spec fl f cl n o ∧
    vol_inv fl f' ∧ vol_same fl f f'.
Proof.
  intros Hv Hdir Hne Hn Hfuel.
  destruct (find_empty_loop_ok fl cl n fuel f 0 (chain_new (hd 0 cl) (fs f)) 0 None Hv Hdir
      (walk_start fl f cl Hne Hv) Hn) as (c' & f' & r & Hl & Hv' & Hst & Hs).
  { split; [lia|lia|by left| |done]. intros q Hq (? & _). lia. }
  { lia. }
  exists f', (match r with Some l => Ok l | None => Err DirectoryFull end). split; [|done].
  unfold find_empty_dir_entry_set. rewrite (bind_Ok (gets fs) _ _ f (fs f)) by done.
  rewrite (bind_Ok _ _ _ _ _ (with_local_eq _ _ _ _ _ _ Hl)). by destruct r.
Qed.

(** C25 - looking for room in a directory: the place of the first run of [n]
    unused entries, through all clusters of the directory; when there is none,
    the beginning of the shorter run the directory ends with, if it ends with
    one, and only otherwise [DirectoryFull].  Nothing is changed. *)
Theorem find_empty_correct fl (f : FileSystem) cl n :
  vol_inv fl f → directory fl f cl → cl ≠ [] → 1 ≤ n < 2 ^ 31 → dir_len f cl < Z.of_nat fuel →
  ∃ f' o, find_empty_dir_entry_set (hd 0 cl) n f = (f', o) ∧ find_empty_spec fl f cl n o ∧
    vol_inv fl f' ∧ vol_same fl f f'.
Proof. apply find_empty_ok. Qed.
End Theorems.

(** * A concrete directory *)
Section Sample.
#[local] Existing Instance debug_build.
#[local] Existing Instance dummy_device.
#[local] Existing Instance reference_crates.
#[local] Existing Instance reference_crates_ok.
#[local] Existing Instance debug_build_ok.
#[local] Instance sample_free_device_ok : DeviceOk debug_build dummy_device := blank_ok.
#[local] Instance sample_free_fuel : Fuel := 40%nat.

(** The entries of a file of this name, which is stored from cluster [first] on. *)
Definition sample_entries (name : str) (first : Z) : list RawDirEntry :=
  let us := encode_utf16 name in
  [FileDirEntry.serialize {|
     FileDirEntry.secondary_count := 1 + (len us + 14) / 15; FileDirEntry.set_checksum := 0;
     FileDirEntry.file_attributes := 0x20; FileDirEntry.create_timestamp := 0x5A210000;
     FileDirEntry.last_modified_timestamp := 0x5A210001; FileDirEntry.last_accessed_timestamp := 0x5A210002;
     FileDirEntry.create_10ms_increment := 3; FileDirEntry.last_modified_10ms_increment := 4;
     FileDirEntry.create_utc_offset := 0x80; FileDirEntry.last_modified_utc_offset := 0x84;
     FileDirEntry.last_accessed_utc_offset := 0xFC |};
   StreamExtensionDirEntry.serialize {|
     StreamExtensionDirEntry.general_secondary_flags := 1;
     StreamExtensionDirEntry.name_length := len us;
     StreamExtensionDirEntry.name_hash := spec_name_hash UpcaseTable_default us 0;
     StreamExtensionDirEntry.valid_data_length := 600;
     StreamExtensionDirEntry.first_cluster := first;
     StreamExtensionDirEntry.data_length := 700 |}] ++
  ((λ c, FileNameDirEntry.serialize {| FileNameDirEntry.general_secondary_flags := 0;
                                       FileNameDirEntry.file_name := fst c |})
     <$> all_chunks 20 15 us).

(** A directory in the clusters 3 and 7: removed entries, a file in the
    clusters 6 and 8, and a file in the clusters 5 and 9 with the entries of its
    name in the second cluster of the directory. *)
Definition sample_dir_device : DummyBlockDevice :=
  let bytes := concat (replicate 10 (0x05 :: zeros 31) ++ sample_entries (of_string "crab.txt") 6 ++
    [0x05 :: zeros 31] ++ sample_entries (of_string "Ferris is a Crab.txt") 5) in
  {| blocks := <[1%nat := splice (zeros 512) 12 (to_le_bytes 4 7 ++ zeros 4 ++ to_le_bytes 4 9 ++ to_le_bytes 4 8 ++
                    to_le_bytes 4 END_OF_CHAIN ++ to_le_bytes 4 END_OF_CHAIN ++ to_le_bytes 4 END_OF_CHAIN)]>
       (<[2%nat := 0xFB :: zeros 511]> (<[3%nat := take 512 bytes]> (<[7%nat := drop 512 bytes ++ zeros 448]> (blocks (blank 10)))));
     write_count := 0 |}.
Definition sample_dir_volume : FileSystem := volume_on sample_dir_device.
Lemma sample_dir_inv : vol_inv 1 sample_dir_volume.
Proof.
  apply volume_on_inv. intros s Hs. split; [exact Hs|]. apply (bool_decide_unpack _). vm_compute. exact I.
Qed.
Lemma sample_directory : directory 1 sample_dir_volume [3; 7].
Proof.
  split.
  - unfold data_cluster, cluster_ok, cluster_sector, data_region, heap_region, bitmap_region. cbn.
    repeat (apply Forall_cons_2; [split; [lia|intros k Hk; lia]|]). apply Forall_nil_2.
  - intros [|[|i]] a b; cbn; [|done..]. intros [= <-] [= <-]. vm_compute. reflexivity.
  - intros l [= <-]. vm_compute. reflexivity.
  - vm_compute. congruence.
Qed.

(** A run of 15 entries is not there; the answer is the run of 14 at the end. *)
Lemma find_empty_correct_witness :
  ∃ f', find_empty_dir_entry_set 3 15 sample_dir_volume =
      (f', Ok {| Location.sector_id := 7; Location.dir_entry_offset := 2 |}) ∧
    dir_len sample_dir_volume [3; 7] = 32 ∧ ∀ q, ¬ free_from 1 sample_dir_volume [3; 7] q 15.
Proof.
  assert (Hlen : dir_len sample_dir_volume [3; 7] = 32) by (vm_compute; reflexivity).
  destruct (find_empty_correct 1 sample_dir_volume [3; 7] 15 sample_dir_inv sample_directory) as (f' & o & Hr & Ho & _);
    [done|lia|rewrite Hlen; reflexivity|].
  pose proof (eq_refl : snd (find_empty_dir_entry_set 3 15 sample_dir_volume) =
    Ok {| Location.sector_id := 7; Location.dir_entry_offset := 2 |}) as H1.
  cbn [hd] in Hr. rewrite Hr in H1. cbn [snd] in H1. subst o. exists f'. split; [exact Hr|]. split; [exact Hlen|].
  intros q (Hq & Hq15 & Hf). rewrite Hlen in Hq15.
  assert (Hcase : q ≤ 14 ∨ q = 15 ∨ q = 16 ∨ q = 17) by lia. destruct Hcase as [Hle|[->|[->| ->]]].
  - specialize (Hf 14 ltac:(lia)). vm_compute in Hf. discriminate Hf.
  - specialize (Hf 15 ltac:(lia)). vm_compute in Hf. discriminate Hf.
  - specialize (Hf 16 ltac:(lia)). vm_compute in Hf. discriminate Hf.
  - specialize (Hf 17 ltac:(lia)). vm_compute in Hf. discriminate Hf.
Defined.
End Sample.
