(* ===== verification/DirLookup.v ===== *)
(** * Finding a name in a directory

    What a directory holds is a list of entry sets ([dir_sets]): file entry,
    stream extension and the name entries.  [DirectoryEntryChain::next_file_entry]
    finds the first set that passes its filter ([first_passing]); with the
    filter of a name, the first one whose name differs at most in case. *)

From S2P Require Import Prelude Text Crates Errors Utils Timestamp BootSector Device SlotCache Touched Fat Allocation AllocationSearch Regions DirectoryEntry Volume VolumeInv VolumeAlloc Directory FileSystem File FileRead DirSets DirWalk DirFree.
Import FileSystemDetails (cluster_length, sectors_per_cluster, cluster_heap_offset, fat_offset).

(** * Specification *)
Section Spec.
Context {cfg : Config} {crates : Crates} {bd : BlockDevice} {Hbd : DeviceOk cfg bd}.
Implicit Types (f : FileSystem) (cl : list Z) (p : Z).

(** ** Entry sets *)
Definition entry_type (e : RawDirEntry) : EntryType.t := EntryType.from (e !!! 0%nat).
(** The entry behind which nothing is in use. *)
Definition is_end (e : RawDirEntry) : bool :=
  bool_decide (entry_type e = EntryType.EndOfDirectory) && is_end_of_directory e.

Definition parsed {A} (o : outcome err A) : option A := match o with Ok a => Some a | _ => None end.
(** The 15 units of a name entry. *)
Definition units_of (e : RawDirEntry) : list Z :=
  match FileNameDirEntry_from (E:=err) e with Ok n => FileNameDirEntry.file_name n | _ => [] end.
Definition is_name (e : RawDirEntry) : bool := bool_decide (entry_type e = EntryType.Filename).

(** The entries a name of [n] units needs. *)
Definition name_count (n : Z) : nat := Z.to_nat ((n + 14) / 15).

Record dir_set := {
  set_pos : Z;
  set_file : FileDirEntry.t;
  set_stream : StreamExtensionDirEntry.t;
  set_names : list (list Z);
}.
Definition set_name_length (s : dir_set) : Z := StreamExtensionDirEntry.name_length (set_stream s).
Definition set_units (s : dir_set) : list Z := take (Z.to_nat (set_name_length s)) (concat (set_names s)).

(** The set that begins with file entry [e] at [p]. *)
Definition parse_set (p : Z) (e : RawDirEntry) (es : list RawDirEntry) : option dir_set :=
  file ← parsed (FileDirEntry_from e);
  st ← head es;
  stream ← (if decide (entry_type st = EntryType.StreamExtension)
            then parsed (StreamExtensionDirEntry_from st) else None);
  let n := StreamExtensionDirEntry.name_length stream in
  let names := take (name_count n) (drop 1 es) in
  if (0 <? n) && forallb is_name names && bool_decide (length names = name_count n)
  then Some {| set_pos := p; set_file := file; set_stream := stream; set_names := units_of <$> names |}
  else None.

(** The sets of the entries from [p] on; [None] when they are not in order. *)
Fixpoint dir_sets (es : list RawDirEntry) (p : Z) : option (list dir_set) :=
  match es with
  | [] => Some []
  | e :: es =>
      if is_end e then Some []
      else if decide (entry_type e = EntryType.FileAndDirectory) then
        s ← parse_set p e es; l ← dir_sets es (p + 1); Some (s :: l)
      else dir_sets es (p + 1)
  end.

(** ** Filters *)

(** The filter sees a name 15 units at a time. *)
Fixpoint check_names (filter : DirectoryEntryFilter) (table : UpcaseTable) (n cursor : Z) (names : list (list Z)) : bool :=
  match names with
  | [] => true
  | part :: names =>
      file_name filter (take (Z.to_nat (n - cursor)) part) cursor table &&
      check_names filter table n (cursor + len part) names
  end.
Definition passes (filter : DirectoryEntryFilter) (table : UpcaseTable) (s : dir_set) : bool :=
  hash filter (StreamExtensionDirEntry.name_hash (set_stream s)) (FileDirEntry.file_attributes (set_file s)) &&
  file_name_length filter (set_name_length s) && check_names filter table (set_name_length s) 0 (set_names s).

(** ** Names *)

(** The name of the set differs from [name] at most in case. *)
Definition same_name (table : UpcaseTable) (name : str) (s : dir_set) : bool :=
  bool_decide (upcase table <$> set_units s = upcase table <$> encode_utf16 name).
Definition has_attributes (wanted : option Z) (s : dir_set) : bool :=
  match wanted with Some a => contains (FileDirEntry.file_attributes (set_file s)) a | None => true end.
(** The stream extension has the hash of the name. *)
Definition hash_stored (table : UpcaseTable) (s : dir_set) : Prop :=
  StreamExtensionDirEntry.name_hash (set_stream s) = spec_name_hash table (set_units s) 0.
(** As many name entries as the length asks for. *)
Definition set_ok (s : dir_set) : Prop :=
  Forall (λ u, length u = 15%nat) (set_names s) ∧ length (set_names s) = name_count (set_name_length s) ∧
  0 < set_name_length s.

(** The first set that passes, and those behind it. *)
Fixpoint first_passing (filter : DirectoryEntryFilter) (table : UpcaseTable) (l : list dir_set)
    : option (dir_set * list dir_set) :=
  match l with
  | [] => None
  | s :: l => if passes filter table s then Some (s, l) else first_passing filter table l
  end.

(** The details of a set, for a set that begins at [place]. *)
Definition details_of (place : Z → Location.t) (s : dir_set) : FileDetails.t := {|
  FileDetails.first_cluster := StreamExtensionDirEntry.first_cluster (set_stream s);
  FileDetails.data_length := StreamExtensionDirEntry.data_length (set_stream s);
  FileDetails.valid_data_length := StreamExtensionDirEntry.valid_data_length (set_stream s);
  FileDetails.attributes := FileDirEntry.file_attributes (set_file s);
  FileDetails.location := place (set_pos s);
  FileDetails.flags := StreamExtensionDirEntry.general_secondary_flags (set_stream s);
  FileDetails.secondary_count := FileDirEntry.secondary_count (set_file s);
  FileDetails.created := FileDirEntry.created (set_file s);
  FileDetails.modified := FileDirEntry.modified (set_file s);
  FileDetails.accessed := FileDirEntry.accessed (set_file s) |}.

(** What [next_file_entry] answers for a set, and what it leaves in the name
    buffer it was given. *)
Definition found (place : Z → Location.t) (b : option (list Z)) (s : dir_set)
    : option (list Z) * outcome err (option (FileDetails.t * Z)) :=
  match b with
  | None => (None, Ok (Some (details_of place s, 0)))
  | Some buf =>
      let '(buf, r) := decode_utf16_to_utf8 (set_units s) buf in
      (Some buf, n ← r; Ok (Some (details_of place s, n)))
  end.

(** A chain that walks the directory, which looks as it did in [f0]. *)
Record reading (fl : Z) f0 cl (es : list RawDirEntry) p f (c : Chain.t) : Prop := {
  rd_inv : vol_inv fl f;
  rd_same : vol_same fl f0 f;
  rd_dir : directory fl f cl;
  rd_walk : walk_at fl f cl p c;
  rd_entries : es = dir_list fl f cl 0 (dir_len f cl);
}.
End Spec.

(** * Lemmas *)
Section Lemmas.
Context {cfg : Config} {crates : Crates} {bd : BlockDevice} {fu : Fuel}.
Context {Hcfg : ConfigOk cfg} {Hcr : CratesOk crates} {Hbd : DeviceOk cfg bd}.
Implicit Types (f : FileSystem) (cl : list Z) (p : Z).

Lemma dir_list_same fl f f' cl p n :
  vol_inv fl f → Forall (data_cluster f) cl → vol_same fl f f' → 0 ≤ p → p + n ≤ dir_len f cl →
  dir_list fl f' cl p n = dir_list fl f cl p n.
Proof.
  intros Hv Hcl Hst Hp Hn. apply list_fmap_ext. intros i x [-> Hi]%lookup_seqZ.
  apply dir_at_same; done || lia.
Qed.

Lemma reading_bounds fl f0 cl es p f c : reading fl f0 cl es p f c → 0 ≤ p ≤ len es ∧ len es = dir_len f cl.
Proof.
  intros [Hv _ Hdir Hw ->]. destruct (walk_bounds fl f cl p c Hv Hdir Hw) as (Hp & _).
  unfold len, dir_list. rewrite length_fmap, length_seqZ. lia.
Qed.
Lemma reading_entry fl f0 cl es p f c :
  reading fl f0 cl es p f c → p < len es → es !! Z.to_nat p = Some (dir_at fl f cl p) ∧ raw_ok (dir_at fl f cl p).
Proof.
  intros Hrd Hlt. pose proof (reading_bounds _ _ _ _ _ _ _ Hrd) as [Hp Hl]. destruct Hrd as [Hv _ Hdir Hw ->].
  split; [|apply dir_at_raw; [done|apply Hdir|lia]]. unfold dir_list.
  rewrite list_lookup_fmap, (proj2 (lookup_seqZ 0 (dir_len f cl) (Z.to_nat p) p)) by lia. done.
Qed.
Lemma reading_raw fl f0 cl es p f c (i : nat) e : reading fl f0 cl es p f c → es !! i = Some e → raw_ok e.
Proof.
  intros [Hv _ Hdir _ ->] (x & -> & [-> Hi]%lookup_seqZ)%list_lookup_fmap_Some_1.
  apply dir_at_raw; [done|apply Hdir|lia].
Qed.
Lemma reading_start fl f cl :
  vol_inv fl f → directory fl f cl → cl ≠ [] →
  reading fl f cl (dir_list fl f cl 0 (dir_len f cl)) 0 f (chain_new (hd 0 cl) (fs f)).
Proof. intros Hv Hdir Hne. split; [done|done|done|by apply walk_start|done]. Qed.

(** ** One entry *)
Lemma next_reading fl f0 cl es p f c e :
  reading fl f0 cl es p f c → es !! Z.to_nat p = Some e →
  ∃ c' f', next (c, f) = ((c', f'), Ok (Some (e, place f0 cl p))) ∧ reading fl f0 cl es (p + 1) f' c' ∧ raw_ok e.
Proof.
  intros Hrd He. pose proof (reading_bounds _ _ _ _ _ _ _ Hrd) as [Hp Hl]. pose proof (lookup_lt_Some _ _ _ He) as Hlt.
  destruct (reading_entry _ _ _ _ _ _ _ Hrd) as [He' Hraw]; [unfold len; lia|]. rewrite He in He'. injection He' as ->.
  destruct Hrd as [Hv Hst Hdir Hw Hes].
  destruct (next_walk_ok fl f cl p c Hv Hdir Hw) as (c' & f' & Hn & Hv' & Hst' & Hdir' & Hw'); [unfold len in *; lia|].
  exists c', f'. split; [by rewrite <-(place_step fl _ f0 f cl p Hst)|]. split; [|done].
  assert (Hlen : dir_len f' cl = dir_len f cl) by (unfold dir_len; by rewrite (EPC_step fl _ f f' Hst')).
  split; [done|by eapply vol_step_trans|done|done|].
  rewrite Hes, Hlen. symmetry. apply dir_list_same; [done|apply Hdir|done|lia|lia].
Qed.
Lemma next_reading_end fl f0 cl es p f c :
  reading fl f0 cl es p f c → es !! Z.to_nat p = None →
  ∃ c' f', next (c, f) = ((c', f'), Ok None) ∧ vol_inv fl f' ∧ vol_same fl f0 f'.
Proof.
  intros Hrd He. pose proof (reading_bounds _ _ _ _ _ _ _ Hrd) as [Hp Hl]. apply lookup_ge_None in He.
  destruct Hrd as [Hv Hst Hdir Hw Hes].
  destruct (next_walk_end fl f cl p c Hv Hdir Hw) as (c' & f' & Hn & Hv' & Hst'); [unfold len in *; lia|].
  exists c', f'. split; [done|]. split; [done|]. by eapply vol_step_trans.
Qed.

(** ** The name of a set *)
Lemma name_entry_parses {E} (raw : RawDirEntry) :
  raw_ok raw → ∃ n, FileNameDirEntry_from (E:=E) raw = Ok n ∧ length (FileNameDirEntry.file_name n) = 15%nat.
Proof.
  intros Hraw. destruct (raw_ok_explicit raw Hraw) as (b0 & b1 & b2 & b3 & b4 & b5 & b6 & b7 & b8 &
    b9 & b10 & b11 & b12 & b13 & b14 & b15 & b16 & b17 & b18 & b19 & b20 & b21 & b22 & b23 & b24 &
    b25 & b26 & b27 & b28 & b29 & b30 & b31 & ->).
  eexists. split; reflexivity.
Qed.
Lemma units_of_ok e :
  raw_ok e → ∃ n, FileNameDirEntry_from (E:=err) e = Ok n ∧ FileNameDirEntry.file_name n = units_of e ∧
    length (units_of e) = 15%nat.
Proof.
  intros He. destruct (name_entry_parses (E:=err) e He) as (n & Hn & Hl). exists n. unfold units_of. by rewrite Hn.
Qed.
Lemma try_into_ok {A} (from : RawDirEntry → outcome err A) e t :
  raw_ok e → try_into from e t = if decide (entry_type e = t) then Some <$> from e else Ok None.
Proof. intros He. unfold try_into. by rewrite (raw_index e He). Qed.

Lemma splice_twice (b x y : list Z) o :
  0 ≤ o → o + len x + len y ≤ len b → splice (splice b o x) (o + len x) y = splice b o (x ++ y).
Proof.
  intros Ho Hl. pose proof (len_nonneg x). pose proof (len_nonneg y).
  assert (Hb : length (splice b o x) = length b) by (apply length_splice; lia).
  assert (Hxy : len (x ++ y) = len x + len y) by apply len_app.
  apply list_eq. intros j. destruct (decide (o + len x ≤ Z.of_nat j < o + len x + len y)) as [Hy|Hy].
  - rewrite lookup_splice_in by (unfold len in *; lia). rewrite lookup_splice_in by (unfold len in *; lia).
    rewrite lookup_app_r by (unfold len in *; lia). f_equal. unfold len in *. lia.
  - rewrite lookup_splice_out by (unfold len in *; lia). destruct (decide (o ≤ Z.of_nat j < o + len x)) as [Hx|Hx].
    + rewrite !lookup_splice_in by (unfold len in *; lia). by rewrite lookup_app_l by (unfold len in *; lia).
    + by rewrite !lookup_splice_out by (unfold len in *; lia).
Qed.

Lemma name_count_step n : 15 < n → name_count n = S (name_count (n - 15)).
Proof.
  intros Hn. unfold name_count. replace (n + 14) with ((n - 15 + 14) + 1 * 15) by lia.
  rewrite Z.div_add by lia. pose proof (Z.div_pos (n - 15 + 14) 15). lia.
Qed.
Lemma name_count_last n : 0 < n ≤ 15 → name_count n = 1%nat.
Proof. intros Hn. unfold name_count. assert ((n + 14) / 15 = 1) as -> by dlia. done. Qed.

(** One round reads one name entry. *)
Definition name_part (n cursor : Z) e : list Z := take (Z.to_nat (n - cursor)) (units_of e).
Definition keep_units (keep : bool) (units : list Z) (cursor : Z) (part : list Z) : list Z :=
  if keep then splice units cursor part else units.

Lemma read_name_step fl f0 cl es filter keep n (rounds : nat) cursor p f c units e :
  reading fl f0 cl es p f c → es !! Z.to_nat p = Some e → is_name e = true →
  0 ≤ cursor < n → n ≤ 255 → length units = 255%nat →
  let part := name_part n cursor e in let units1 := keep_units keep units cursor part in
  ∃ c1 f1, read_name_loop (S rounds) filter keep n cursor units (c, f) =
      (if file_name filter part cursor (upcase_table f0)
       then if cursor + len part =? n then mret (NameOk units1)
            else read_name_loop rounds filter keep n (cursor + len part) units1
       else mret NameRejected) (c1, f1) ∧
    reading fl f0 cl es (p + 1) f1 c1 ∧ length (units_of e) = 15%nat ∧ length units1 = 255%nat ∧
    len part = Z.min (n - cursor) 15.
Proof.
  intros Hrd He Hname Hcur Hn Hu part units1. apply bool_decide_eq_true in Hname.
  destruct (next_reading fl f0 cl es p f c e Hrd He) as (c1 & f1 & Hnx & Hrd1 & Hraw).
  destruct (units_of_ok e Hraw) as (nm & Hnm & Hfn & Hl15).
  pose proof (f_equal Z.of_nat Hl15 : len (units_of e) = 15) as Hl.
  assert (Hpart : len part = Z.min (n - cursor) 15)
    by (unfold part, name_part, len in *; rewrite length_take; lia).
  assert (Hu1 : length units1 = 255%nat).
  { unfold units1, keep_units. destruct keep; [|done]. rewrite length_splice; unfold len in *; lia. }
  exists c1, f1. split; [|done].
  cbn [read_name_loop]. rewrite (bind_Ok _ _ _ _ _ Hnx). cbv iota beta.
  rewrite (try_into_ok _ _ _ Hraw), decide_True by done. rewrite Hnm. cbn [fmap outcome_fmap]. rewrite bind_lift_Ok.
  rewrite sub_ok, bind_lift_Ok by (destruct usize_cases as [-> | ->]; lia). cbv zeta.
  rewrite Hfn, Hl, slice_ok, bind_lift_Ok by lia. cbn [Z.to_nat drop]. rewrite drop_0.
  replace (take (Z.to_nat ((n - cursor) `min` 15 - 0)) (units_of e)) with part
    by (unfold part, name_part; destruct (decide (n - cursor ≤ 15)); [f_equal; lia|rewrite !take_ge by lia; done]).
  rewrite (bind_Ok _ _ _ (c1, f1) (upcase_table f0))
    by (unfold gets; cbn [compose fst snd]; by rewrite (step_table _ _ _ _ (rd_same _ _ _ _ _ _ _ Hrd1))).
  destruct (file_name filter part cursor (upcase_table f0)); cbn [negb]; [|done].
  rewrite <-Hpart, add_ok, bind_lift_Ok by (destruct usize_cases as [-> | ->]; lia).
  rewrite (bind_Ok _ _ _ (c1, f1) units1); [by destruct (_ =? n)|].
  unfold units1, keep_units. destruct keep; [|done]. by rewrite copy_into_ok by (unfold len in *; lia).
Qed.

Lemma read_name_ok fl f0 cl es filter keep n (rounds : nat) :
  ∀ ns cursor p f c units, reading fl f0 cl es p f c →
  (∀ i e, ns !! i = Some e → es !! (Z.to_nat p + i)%nat = Some e) → forallb is_name ns = true →
  0 ≤ cursor < n → n ≤ 255 → length ns = name_count (n - cursor) → length units = 255%nat → (length ns < rounds)%nat →
  ∃ c' f' q r, read_name_loop rounds filter keep n cursor units (c, f) = ((c', f'), Ok r) ∧
    reading fl f0 cl es q f' c' ∧ p ≤ q ≤ p + len ns ∧
    if check_names filter (upcase_table f0) n cursor (units_of <$> ns)
    then q = p + len ns ∧
      r = NameOk (keep_units keep units cursor (take (Z.to_nat (n - cursor)) (concat (units_of <$> ns))))
    else r = NameRejected.
Proof.
  induction rounds as [|rounds IH]; intros ns cursor p f c units Hrd Hns Hnames Hcur Hn Hcount Hu Hr; [lia|].
  pose proof (reading_bounds _ _ _ _ _ _ _ Hrd) as [Hp _]. destruct ns as [|e ns].
  { cbn in Hcount. destruct (decide (n - cursor ≤ 15)); [rewrite name_count_last in Hcount by lia|
      rewrite name_count_step in Hcount by lia]; done. }
  cbn [forallb] in Hnames. apply andb_true_iff in Hnames as [Hname Hnames].
  pose proof (Hns 0%nat e eq_refl) as He. rewrite Nat.add_0_r in He.
  destruct (read_name_step fl f0 cl es filter keep n rounds cursor p f c units e Hrd He Hname Hcur Hn Hu)
    as (c1 & f1 & Hstep & Hrd1 & Hl15 & Hu1 & Hpart).
  rewrite Hstep. cbn [fmap list_fmap check_names]. fold (name_part n cursor e).
  destruct (file_name filter (name_part n cursor e) cursor (upcase_table f0)); cbn [andb].
  2: { exists c1, f1, (p + 1), NameRejected. split_and!; [done|done|lia|unfold len; cbn; lia|done]. }
  replace (len (units_of e)) with 15 by (unfold len; by rewrite Hl15). rewrite Hpart in *.
  destruct (Z.eqb_spec (cursor + (n - cursor) `min` 15) n) as [Hend|Hmore].
  - rewrite name_count_last in Hcount by lia. destruct ns as [|? ns]; [|done].
    eexists c1, f1, (p + 1), _. split; [done|]. split; [done|]. split; [unfold len; cbn; lia|].
    cbn [fmap list_fmap concat check_names]. split; [unfold len; cbn; lia|]. by rewrite app_nil_r.
  - assert (Hgt : 15 < n - cursor) by lia. rewrite Z.min_r in * by lia.
    rewrite name_count_step in Hcount by lia. cbn [length] in Hcount, Hr.
    set (units1 := keep_units keep units cursor (name_part n cursor e)) in *.
    assert (Htail : ∀ i x, ns !! i = Some x → es !! (Z.to_nat (p + 1) + i)%nat = Some x).
    { intros i x Hx. rewrite <-(Hns (S i) x Hx). f_equal. lia. }
    destruct (IH ns (cursor + 15) (p + 1) f1 c1 units1 Hrd1 Htail Hnames) as (c2 & f2 & q & r & Hrun & Hrd2 & Hq & Hres);
      [lia|done|by replace (n - (cursor + 15)) with (n - cursor - 15) by lia; lia|done|lia|].
    exists c2, f2, q, r. split; [done|]. split; [done|]. split; [unfold len in *; cbn [length]; lia|].
    destruct (check_names _ _ _ (cursor + 15) _); [|done]. destruct Hres as [-> ->].
    split; [unfold len; cbn [length]; lia|]. f_equal. unfold keep_units. destruct keep; [|done].
    assert (Hpu : name_part n cursor e = units_of e) by (unfold name_part; rewrite take_ge by lia; done).
    rewrite Hpu in *. cbn [concat]. rewrite take_app, Hl15, (take_ge (units_of e)) by lia.
    rewrite <-splice_twice.
    + unfold units1, keep_units. rewrite Hpu. replace (len (units_of e)) with 15 by done. f_equal. f_equal. lia.
    + lia.
    + unfold len. rewrite length_take, Hl15. lia.
Qed.

(** ** The next file entry *)
Lemma dir_sets_drop (es : list RawDirEntry) p e :
  es !! Z.to_nat p = Some e → 0 ≤ p →
  dir_sets (drop (Z.to_nat p) es) p =
    if is_end e then Some []
    else if decide (entry_type e = EntryType.FileAndDirectory) then
      s ← parse_set p e (drop (Z.to_nat (p + 1)) es); l ← dir_sets (drop (Z.to_nat (p + 1)) es) (p + 1); Some (s :: l)
    else dir_sets (drop (Z.to_nat (p + 1)) es) (p + 1).
Proof.
  intros He Hp. rewrite (drop_S es e) by done. cbn [dir_sets]. by replace (S (Z.to_nat p)) with (Z.to_nat (p + 1)) by lia.
Qed.

(** The file entry at [q], if there is one, from where the sets go on. *)
Definition next_file_spec fl f0 cl es p (c' : Chain.t) f' (o : option (FileDirEntry.t * Location.t)) : Prop :=
  match o with
  | None => dir_sets (drop (Z.to_nat p) es) p = Some [] ∧ vol_inv fl f' ∧ vol_same fl f0 f'
  | Some (file, loc) => ∃ q e, p ≤ q ∧ es !! Z.to_nat q = Some e ∧ raw_ok e ∧ FileDirEntry_from (E:=err) e = Ok file ∧
      loc = place f0 cl q ∧ reading fl f0 cl es (q + 1) f' c' ∧
      dir_sets (drop (Z.to_nat p) es) p =
        s ← parse_set q e (drop (Z.to_nat (q + 1)) es); l ← dir_sets (drop (Z.to_nat (q + 1)) es) (q + 1); Some (s :: l)
  end.

Lemma next_file_dir_entry_loop_ok fl f0 cl es (rounds : nat) :
  ∀ p f c, reading fl f0 cl es p f c → len es - p < Z.of_nat rounds →
  ∃ c' f' o, next_file_dir_entry_loop rounds (c, f) = ((c', f'), Ok o) ∧
    next_file_spec fl f0 cl es p c' f' o.
Proof.
  induction rounds as [|rounds IH]; intros p f c Hrd Hr; pose proof (reading_bounds _ _ _ _ _ _ _ Hrd) as [Hp _]; [lia|].
  cbn [next_file_dir_entry_loop]. destruct (es !! Z.to_nat p) as [e|] eqn:He.
  2: { destruct (next_reading_end fl f0 cl es p f c Hrd He) as (c1 & f1 & Hn & Hv1 & Hst1).
       exists c1, f1, None. rewrite (bind_Ok _ _ _ _ _ Hn). split; [done|]. split; [|done].
       by rewrite drop_ge by (by apply lookup_ge_None). }
  destruct (next_reading fl f0 cl es p f c e Hrd He) as (c1 & f1 & Hn & Hrd1 & Hraw).
  rewrite (bind_Ok _ _ _ _ _ Hn). cbv iota beta. rewrite (raw_index e Hraw), bind_lift_Ok. fold (entry_type e).
  pose proof (dir_sets_drop es p e He ltac:(lia)) as Hsets.
  assert (Hskip : is_end e = false → entry_type e ≠ EntryType.FileAndDirectory →
    dir_sets (drop (Z.to_nat p) es) p = dir_sets (drop (Z.to_nat (p + 1)) es) (p + 1))
    by (intros Hend Hty; by rewrite Hsets, Hend, decide_False).
  assert (Hgo : is_end e = false → entry_type e ≠ EntryType.FileAndDirectory → ∃ c' f' o,
    next_file_dir_entry_loop rounds (c1, f1) = ((c', f'), Ok o) ∧
    next_file_spec fl f0 cl es p c' f' o).
  { intros Hend Hty. unfold next_file_spec. rewrite (Hskip Hend Hty). destruct (IH (p + 1) f1 c1 Hrd1) as (c2 & f2 & o & Hl & Ho); [lia|].
    exists c2, f2, o. split; [done|]. destruct o as [[file loc]|]; [|done].
    destruct Ho as (q & e' & Hq & Hrest). exists q, e'. split; [lia|done]. }
  unfold is_end in Hgo, Hsets. destruct (entry_type e) eqn:Hty; try (by apply Hgo).
  - rewrite bool_decide_true in Hgo, Hsets by done. cbn [andb] in Hgo, Hsets.
    destruct (is_end_of_directory e) eqn:Heod; [|by apply Hgo].
    exists c1, f1, None. split; [done|]. split; [done|]. split; [apply (rd_inv _ _ _ _ _ _ _ Hrd1)|apply (rd_same _ _ _ _ _ _ _ Hrd1)].
  - destruct (file_entry_rewrite (E:=err) e Hraw) as (file & Hfile & _).
    rewrite Hfile, bind_lift_Ok. exists c1, f1, (Some (file, place f0 cl p)). split; [done|].
    by exists p, e.
Qed.

(** ** Sets and their entries *)
Lemma parse_set_Some p e es s :
  parse_set p e es = Some s →
  ∃ st ns, parsed (FileDirEntry_from e) = Some (set_file s) ∧ es !! 0%nat = Some st ∧
    entry_type st = EntryType.StreamExtension ∧ parsed (StreamExtensionDirEntry_from st) = Some (set_stream s) ∧
    0 < set_name_length s ∧ ns = take (name_count (set_name_length s)) (drop 1 es) ∧
    forallb is_name ns = true ∧ length ns = name_count (set_name_length s) ∧
    set_names s = units_of <$> ns ∧ set_pos s = p.
Proof.
  unfold parse_set. intros (file & Hfile & Hs)%bind_Some. apply bind_Some in Hs as (st & Hst & Hs).
  apply bind_Some in Hs as (stream & Hstream & Hs). destruct (decide _) as [Hty|]; [|done].
  destruct ((0 <? _) && _ && _) eqn:Hc; [|done]. injection Hs as <-.
  apply andb_true_iff in Hc as [[Hn Hall]%andb_true_iff Hl%bool_decide_eq_true].
  exists st. eexists. unfold set_name_length. cbn [set_file set_stream set_names set_pos].
  split; [done|]. split; [by destruct es as [|? ?]; [|injection Hst as <-]|]. split_and!; try done. lia.
Qed.
Lemma dir_sets_skip (es : list RawDirEntry) (n : nat) : ∀ p, 0 ≤ p →
  (∀ j, (j < n)%nat → ∃ e, es !! (Z.to_nat p + j)%nat = Some e ∧ is_name e = true) →
  dir_sets (drop (Z.to_nat p) es) p = dir_sets (drop (Z.to_nat (p + Z.of_nat n)) es) (p + Z.of_nat n).
Proof.
  induction n as [|n IH]; intros p Hp Hn; [by rewrite Z.add_0_r|].
  destruct (Hn 0%nat) as (e & He & Hname); [lia|]. rewrite Nat.add_0_r in He.
  apply bool_decide_eq_true in Hname. rewrite (dir_sets_drop es p e He Hp). unfold is_end. rewrite Hname.
  rewrite bool_decide_false, decide_False by done. replace (p + Z.of_nat (S n)) with (p + 1 + Z.of_nat n) by lia.
  apply IH; [lia|].
  intros j Hj. destruct (Hn (S j)) as (x & Hx & Hnx); [lia|]. exists x. split; [|done]. rewrite <-Hx. f_equal. lia.
Qed.
Lemma dir_sets_stream (es : list RawDirEntry) p st :
  0 ≤ p → es !! Z.to_nat p = Some st → entry_type st = EntryType.StreamExtension →
  dir_sets (drop (Z.to_nat p) es) p = dir_sets (drop (Z.to_nat (p + 1)) es) (p + 1).
Proof.
  intros Hp He Hty. rewrite (dir_sets_drop es p st He Hp). unfold is_end. rewrite Hty.
  rewrite bool_decide_false by done. by rewrite decide_False by done.
Qed.

Lemma dir_sets_names (es ns : list RawDirEntry) p q :
  0 ≤ p → (∀ i e, ns !! i = Some e → es !! (Z.to_nat p + i)%nat = Some e) → forallb is_name ns = true →
  p ≤ q ≤ p + len ns → dir_sets (drop (Z.to_nat p) es) p = dir_sets (drop (Z.to_nat q) es) q.
Proof.
  intros Hp Hsub Hall Hq. rewrite (dir_sets_skip es (Z.to_nat (q - p)) p Hp).
  - by replace (p + Z.of_nat (Z.to_nat (q - p))) with q by lia.
  - intros i Hi. destruct (lookup_lt_is_Some_2 ns i) as [x Hx]; [unfold len in Hq; lia|]. exists x.
    split; [by apply Hsub|]. rewrite forallb_forall in Hall. apply Hall, list_elem_of_In. by eapply list_elem_of_lookup_2.
Qed.

(** The units that [next_file_entry] hands to the decoder. *)
Lemma kept_units_ok s (ns : list RawDirEntry) :
  set_names s = units_of <$> ns → Forall (λ e, length (units_of e) = 15%nat) ns → 0 < set_name_length s ≤ 255 →
  length ns = name_count (set_name_length s) →
  slice (E:=err) (keep_units true (replicate 255 0) 0 (take (Z.to_nat (set_name_length s)) (concat (units_of <$> ns))))
    0 (set_name_length s) = Ok (set_units s).
Proof.
  intros Hs Hl Hn Hc. unfold set_units. rewrite Hs.
  assert (Hlen : Z.of_nat (length (concat (units_of <$> ns))) = 15 * Z.of_nat (length ns)).
  { clear -Hl. induction Hl as [|e ns He _ IH]; [done|]. cbn [fmap list_fmap concat length].
    rewrite length_app, He. lia. }
  assert (set_name_length s ≤ 15 * Z.of_nat (length ns)) by (rewrite Hc; unfold name_count; dlia).
  set (us := take (Z.to_nat (set_name_length s)) (concat (units_of <$> ns))).
  assert (Hus : length us = Z.to_nat (set_name_length s)) by (unfold us; rewrite length_take; lia).
  rewrite slice_ok.
  - f_equal. rewrite drop_0, Z.sub_0_r. unfold keep_units, splice.
    change (Z.to_nat 0) with 0%nat. rewrite take_0, app_nil_l. by apply take_app_length'.
  - lia.
  - unfold keep_units, len. rewrite length_splice; unfold len; rewrite ?length_replicate. all: lia.
Qed.

(** ** One set *)
Lemma next_file_entry_round fl f0 cl es filter (rounds : nat) b p f c l :
  reading fl f0 cl es p f c → dir_sets (drop (Z.to_nat p) es) p = Some l → len es < Z.of_nat fuel →
  (∃ c' f', l = [] ∧ next_file_entry_loop (S rounds) filter (b, (c, f)) = ((b, (c', f')), Ok None) ∧
     vol_inv fl f' ∧ vol_same fl f0 f') ∨
  (∃ s l' q c' f', l = s :: l' ∧ p < q ∧ reading fl f0 cl es q f' c' ∧ dir_sets (drop (Z.to_nat q) es) q = Some l' ∧
     next_file_entry_loop (S rounds) filter (b, (c, f)) =
       if passes filter (upcase_table f0) s
       then let '(b', o) := found (place f0 cl) b s in ((b', (c', f')), o)
       else next_file_entry_loop rounds filter (b, (c', f'))).
Proof.
  intros Hrd Hl Hfuel. pose proof (reading_bounds _ _ _ _ _ _ _ Hrd) as [Hp _].
  destruct (next_file_dir_entry_loop_ok fl f0 cl es fuel p f c Hrd) as (c1 & f1 & o & Hnext & Ho); [lia|].
  assert (Hrun : next_file_entry_loop (S rounds) filter (b, (c, f)) =
    ltac:(let t := eval cbn [next_file_entry_loop] in (next_file_entry_loop (S rounds) filter) in
          lazymatch t with (_ ≫= ?k) => exact (k o (b, (c1, f1))) end)).
  { cbn [next_file_entry_loop]. by rewrite (bind_Ok _ _ _ (b, (c1, f1)) o) by (by eapply zoom_to). }
  rewrite Hrun. clear Hrun. cbv beta. destruct o as [[file loc]|]; unfold next_file_spec in Ho.
  2: { left. destruct Ho as (Hs & Hv1 & Hst1). rewrite Hl in Hs. injection Hs as ->. by exists c1, f1. }
  right. destruct Ho as (q & e & Hq & He & Hraw & Hfile & -> & Hrd1 & Hs). rewrite Hl in Hs.
  symmetry in Hs. apply bind_Some in Hs as (s & Hparse & Hs). apply bind_Some in Hs as (l' & Hl' & [= <-]).
  destruct (parse_set_Some q e _ s Hparse)
    as (st & ns & Hf & Hst & Hty & Hstream & Hpos & Hns & Hall & Hcount & Hnames & Hsp).
  rewrite lookup_drop, Nat.add_0_r in Hst. rewrite Hfile in Hf. injection Hf as ->.
  destruct (next_reading fl f0 cl es (q + 1) f1 c1 st Hrd1 Hst) as (c2 & f2 & Hn2 & Hrd2 & Hraw2).
  cbn iota beta. rewrite (bind_Ok _ _ _ (b, (c2, f2)) (Some (st, place f0 cl (q + 1)))) by (by eapply zoom_to).
  destruct (stream_entry_parses (E:=err) st Hraw2) as (se & Hse & (_ & Hb & _)).
  rewrite Hse in Hstream. injection Hstream as ->. fold (set_name_length s) in Hb. unfold byte_ok in Hb.
  rewrite (try_into_ok _ _ _ Hraw2), decide_True by done. rewrite Hse. cbn [fmap outcome_fmap]. rewrite bind_lift_Ok.
  fold (set_name_length s). replace (q + 1 + 1) with (q + 2) in * by lia.
  pose proof (reading_bounds _ _ _ _ _ _ _ Hrd1) as [Hq1 _].
  rewrite (dir_sets_stream es (q + 1) st) in Hl' by (done || lia). replace (q + 1 + 1) with (q + 2) in Hl' by lia.
  assert (Hsub : ∀ i e, ns !! i = Some e → es !! (Z.to_nat (q + 2) + i)%nat = Some e).
  { intros i x Hx. rewrite Hns in Hx. apply lookup_take_Some in Hx as [Hx _]. rewrite drop_drop, lookup_drop in Hx.
    rewrite <-Hx. f_equal. lia. }
  pose proof (len_nonneg ns). assert (Hreject : ∀ q3 c3 f3, q + 2 ≤ q3 ≤ q + 2 + len ns → reading fl f0 cl es q3 f3 c3 →
    passes filter (upcase_table f0) s = false → ∃ s0 l0 q0 c' f', s :: l' = s0 :: l0 ∧ p < q0 ∧
      reading fl f0 cl es q0 f' c' ∧ dir_sets (drop (Z.to_nat q0) es) q0 = Some l0 ∧
      next_file_entry_loop rounds filter (b, (c3, f3)) = if passes filter (upcase_table f0) s0
        then let '(b', o) := found (place f0 cl) b s0 in ((b', (c', f')), o)
        else next_file_entry_loop rounds filter (b, (c', f'))).
  { intros q3 c3 f3 Hq3 Hrd3 Hno. exists s, l', q3, c3, f3. rewrite Hno. split_and!; [done|lia|done| |done].
    by rewrite <-(dir_sets_names es ns (q + 2) q3) by (done || lia). }
  destruct (hash filter (StreamExtensionDirEntry.name_hash (set_stream s)) (FileDirEntry.file_attributes (set_file s)))
    eqn:Hh; cbn [negb]; [|apply (Hreject (q + 2)); [lia|done|unfold passes; by rewrite Hh]].
  destruct (file_name_length filter (set_name_length s)) eqn:Hfl; cbn [negb];
    [|apply (Hreject (q + 2)); [lia|done|unfold passes; by rewrite Hh, Hfl]].
  rewrite (bind_Ok (gets _) _ _ (b, (c2, f2)) (bool_decide (is_Some b))) by done.
  assert (Hcnt : (name_count (set_name_length s) ≤ 17)%nat) by (unfold name_count; dlia).
  destruct (read_name_ok fl f0 cl es filter (bool_decide (is_Some b)) (set_name_length s) NAME_ROUNDS ns 0 (q + 2) f2 c2
      (replicate 255 0) Hrd2 Hsub Hall) as (c3 & f3 & q3 & r & Hread & Hrd3 & Hq3 & Hres);
    [lia|lia|by rewrite Z.sub_0_r|done|unfold NAME_ROUNDS; lia|]. rewrite Z.sub_0_r, <-Hnames in Hres.
  rewrite (bind_Ok _ _ _ (b, (c3, f3)) r) by (by eapply zoom_to).
  destruct (check_names filter (upcase_table f0) (set_name_length s) 0 (set_names s)) eqn:Hck.
  2: { subst r. apply (Hreject q3); [done|done|]. unfold passes. by rewrite Hh, Hfl, Hck. }
  destruct Hres as [-> ->]. exists s, l', (q + 2 + len ns), c3, f3.
  split_and!; [done|lia|done|by rewrite <-(dir_sets_names es ns (q + 2)) by (done || lia)|].
  unfold passes. rewrite Hh, Hfl, Hck. cbn [andb].
  rewrite (bind_Ok (gets fst) _ _ (b, (c3, f3)) b) by done.
  unfold found, details_of. rewrite Hsp. destruct b as [buf|]; [|done].
  rewrite (bool_decide_true (is_Some (Some buf))) by done. rewrite Hnames, kept_units_ok, bind_lift_Ok; [|done| |lia|done].
  - destruct (decode_utf16_to_utf8 (set_units s) buf) as [buf' o].
    rewrite (bind_Ok (modify _) _ _ (Some buf', (c3, f3)) ()) by done. by destruct o.
  - apply Forall_lookup_2. intros i x Hx. destruct (units_of_ok x) as (_ & _ & _ & ?); [|done].
    by apply (reading_raw fl f0 cl es _ _ _ _ _ Hrd3 (Hsub i x Hx)).
Qed.

(** ** All sets *)
Lemma next_file_entry_ok fl f0 cl es filter (rounds : nat) :
  ∀ b p f c l, reading fl f0 cl es p f c → dir_sets (drop (Z.to_nat p) es) p = Some l →
  len es < Z.of_nat fuel → len es - p < Z.of_nat rounds →
  ∃ b' c' f' o, next_file_entry_loop rounds filter (b, (c, f)) = ((b', (c', f')), o) ∧
    vol_inv fl f' ∧ vol_same fl f0 f' ∧
    match first_passing filter (upcase_table f0) l with
    | None => b' = b ∧ o = Ok None
    | Some (s, rest) => (b', o) = found (place f0 cl) b s ∧
        ∃ q, reading fl f0 cl es q f' c' ∧ dir_sets (drop (Z.to_nat q) es) q = Some rest
    end.
Proof.
  induction rounds as [|rounds IH]; intros b p f c l Hrd Hl Hfuel Hr; pose proof (reading_bounds _ _ _ _ _ _ _ Hrd) as [Hp _]; [lia|].
  destruct (next_file_entry_round fl f0 cl es filter rounds b p f c l Hrd Hl Hfuel)
    as [(c1 & f1 & -> & Hrun & Hv1 & Hst1)|(s & l' & q & c1 & f1 & -> & Hq & Hrd1 & Hl1 & Hrun)].
  - exists b, c1, f1, (Ok None). by split_and!.
  - rewrite Hrun. cbn [first_passing]. destruct (passes filter (upcase_table f0) s).
    + destruct (found (place f0 cl) b s) as [b' o] eqn:Hf. exists b', c1, f1, o.
      split; [done|]. split; [apply Hrd1|]. split; [apply Hrd1|]. split; [done|]. by exists q.
    + apply (IH b q f1 c1 l' Hrd1 Hl1 Hfuel). lia.
Qed.

Lemma find_in_directory_ok fl f cl filter l :
  vol_inv fl f → directory fl f cl → cl ≠ [] → dir_len f cl < Z.of_nat fuel →
  dir_sets (dir_list fl f cl 0 (dir_len f cl)) 0 = Some l →
  ∃ f', find_in_directory (hd 0 cl) filter f =
      (f', Ok (details_of (place f cl) ∘ fst <$> first_passing filter (upcase_table f) l)) ∧
    vol_inv fl f' ∧ vol_same fl f f'.
Proof.
  intros Hv Hdir Hne Hfuel Hl. pose proof (reading_start fl f cl Hv Hdir Hne) as Hrd.
  pose proof (reading_bounds _ _ _ _ _ _ _ Hrd) as [_ Hlen].
  destruct (next_file_entry_ok fl f cl _ filter fuel None 0 f _ l Hrd) as (b' & c' & f' & o & Hrun & Hv' & Hst & Ho);
    [by rewrite drop_0|lia|lia|].
  exists f'. split; [|done]. unfold find_in_directory. rewrite (bind_Ok (gets Volume.fs) _ _ f (fs f)) by done.
  set (body := λ '((b, c), s), _).
  assert (Hbody : body (None, chain_new (hd 0 cl) (fs f), f) = ((b', c', f'), o)).
  { unfold body, next_file_entry. by rewrite Hrun. }
  destruct (first_passing filter (upcase_table f) l) as [[s rest]|].
  - destruct Ho as [[= -> ->] _]. by rewrite (bind_Ok _ _ _ _ _ (with_local_eq _ _ _ _ _ _ Hbody)).
  - destruct Ho as [-> ->]. by rewrite (bind_Ok _ _ _ _ _ (with_local_eq _ _ _ _ _ _ Hbody)).
Qed.

(** ** The filter of a name *)
Lemma dir_sets_ok (es : list RawDirEntry) : ∀ p l, Forall raw_ok es → dir_sets es p = Some l → Forall set_ok l.
Proof.
  induction es as [|e es IH]; intros p l Hraw Hl; cbn [dir_sets] in Hl; [by injection Hl as <-|].
  apply Forall_cons in Hraw as [He Hraw]. destruct (is_end e); [by injection Hl as <-|].
  destruct (decide _); [|by apply (IH (p + 1))].
  apply bind_Some in Hl as (s & Hs & Hl). apply bind_Some in Hl as (l' & Hl' & [= <-]).
  constructor; [|by apply (IH (p + 1))].
  destruct (parse_set_Some p e es s Hs) as (st & ns & _ & _ & _ & _ & Hpos & Hns & _ & Hcount & Hnames & _).
  split_and!; [|by rewrite Hnames, length_fmap|done]. rewrite Hnames. apply Forall_fmap, Forall_forall. intros x Hx.
  destruct (units_of_ok x) as (_ & _ & _ & Hu); [|exact Hu]. rewrite Forall_forall in Hraw. apply Hraw.
  rewrite Hns in Hx. apply elem_of_take in Hx as (i & Hx & _). rewrite lookup_drop in Hx. by eapply list_elem_of_lookup_2.
Qed.

Lemma names_match_spec table (ls rs : list Z) :
  (length rs ≤ length ls)%nat →
  names_match table ls rs = bool_decide (upcase table <$> rs = upcase table <$> take (length rs) ls).
Proof.
  revert ls. induction rs as [|r rs IH]; intros [|l ls] Hl; cbn [names_match length take]; [done..|cbn in Hl; lia|].
  rewrite !fmap_cons. cbn in Hl. destruct (Z.eqb_spec (upcase table l) (upcase table r)) as [He|He].
  - rewrite IH by lia. apply bool_decide_ext. rewrite He. split; [by intros ->|by intros [=]].
  - symmetry. apply bool_decide_eq_false. intros [=]. congruence.
Qed.

Lemma split_units (g : Z → Z) (part rest d : list Z) (m : nat) :
  length part = 15%nat → length d = m →
  g <$> take m (part ++ rest) = g <$> d ↔
  g <$> take m part = g <$> take (length (take m part)) d ∧ g <$> take (m - 15) rest = g <$> drop 15 d.
Proof.
  intros Hp Hd. assert (Htk : take (length (take m part)) d = take 15 d).
  { rewrite length_take, Hp. destruct (decide (m ≤ 15)%nat); [by rewrite !take_ge by lia|f_equal; lia]. }
  rewrite Htk, take_app, Hp, fmap_app. rewrite <-(take_drop 15 d) at 1. rewrite fmap_app. split.
  - apply app_inj_1. rewrite !length_fmap, !length_take. lia.
  - by intros [-> ->].
Qed.

Lemma check_exact table h (attributes : option Z) (count : Z) (us : list Z) :
  ∀ names cursor, Forall (λ u, length u = 15%nat) names → 0 ≤ cursor → len us - cursor ≤ 15 * len names →
  check_names {| hash := h; file_name_length length := count =? length;
      file_name part ordinal t := names_match t (drop (Z.to_nat ordinal) us) part |} table (len us) cursor names =
    bool_decide (upcase table <$> take (Z.to_nat (len us - cursor)) (concat names) =
                 upcase table <$> drop (Z.to_nat cursor) us).
Proof.
  induction names as [|part names IH]; intros cursor Hl Hc Hn; cbn [check_names file_name concat].
  - symmetry. apply bool_decide_eq_true. rewrite take_nil, drop_ge by (unfold len in *; cbn in Hn; lia). done.
  - apply Forall_cons in Hl as [Hp Hl]. unfold len in Hn. cbn [length] in Hn.
    rewrite IH by (done || unfold len; lia). rewrite names_match_spec
      by (rewrite length_take, length_drop; unfold len; lia).
    set (d := drop (Z.to_nat cursor) us). set (m := Z.to_nat (len us - cursor)).
    assert (Hd : length d = m) by (unfold d, m, len; rewrite length_drop; lia).
    replace (drop (Z.to_nat (cursor + len part)) us) with (drop 15 d)
      by (unfold d, len; rewrite drop_drop; f_equal; lia).
    replace (Z.to_nat (len us - (cursor + len part))) with (m - 15)%nat by (unfold m, len; lia).
    rewrite <-bool_decide_and. apply bool_decide_ext. symmetry. by apply split_units.
Qed.

Lemma encode_hash_Ok table (name : str) h n :
  table_ok table → Forall scalar name → len (encode_utf16 name) < 2 ^ usize_bits →
  encode_utf16_upcase_and_hash name table = Ok (h, n) →
  h = spec_name_hash table (encode_utf16 name) 0 ∧ n = len (encode_utf16 name) ∧ 0 < n.
Proof.
  intros Ht Hs Hl. unfold encode_utf16_upcase_and_hash. destruct (decide _); [done|].
  destruct (hash_loop_spec table (encode_utf16 name) 0 0 Ht (encode_utf16_u16 name Hs)) as [->|[_ ->]]; [lia..| |done].
  destruct (existsb _ _); [done|]. cbn [mbind outcome_bind snd]. destruct (Z.eqb_spec (0 + len (encode_utf16 name)) 0); [done|].
  intros [= <- <-]. pose proof (len_nonneg (encode_utf16 name)). split_and!; [done|lia|lia].
Qed.
Lemma spec_name_hash_upcase table (us : list Z) : ∀ vs h,
  upcase table <$> us = upcase table <$> vs → spec_name_hash table us h = spec_name_hash table vs h.
Proof.
  induction us as [|u us IH]; intros [|v vs] h Heq; try done. rewrite !fmap_cons in Heq. injection Heq as Hu Hus.
  unfold spec_name_hash in *. cbn [fold_left]. rewrite Hu. by apply IH.
Qed.
Lemma length_set_units s : set_ok s → len (set_units s) = set_name_length s.
Proof.
  intros (Hl & Hc & Hn). unfold set_units, len. rewrite length_take.
  assert (length (concat (set_names s)) = 15 * length (set_names s))%nat as ->.
  { clear -Hl. induction Hl as [|u l Hu _ IH]; [done|]. cbn [concat length]. rewrite length_app, Hu. lia. }
  rewrite Hc. unfold name_count. dlia.
Qed.

Lemma exact_passes table (name : str) attributes filter s :
  table_ok table → Forall scalar name → len (encode_utf16 name) < 2 ^ usize_bits →
  ExactNameFilter name table attributes = Ok filter → set_ok s → hash_stored table s →
  passes filter table s = same_name table name s && has_attributes attributes s.
Proof.
  intros Ht Hs Hl Hf Hok Hh. unfold ExactNameFilter in Hf.
  destruct (encode_utf16_upcase_and_hash name table) as [[h n]| | |] eqn:He; try done. injection Hf as <-.
  destruct (encode_hash_Ok table name h n Ht Hs Hl He) as (-> & -> & Hn).
  pose proof (length_set_units s Hok) as Hu. destruct Hok as (H15 & Hc & Hpos).
  unfold passes. cbn [hash file_name_length]. unfold same_name.
  destruct (Z.eqb_spec (len (encode_utf16 name)) (set_name_length s)) as [Heq|Hne].
  - assert (Hcov : len (encode_utf16 name) - 0 ≤ 15 * len (set_names s))
      by (rewrite Heq; unfold len; rewrite Hc; unfold name_count; dlia).
    rewrite <-Heq, (check_exact table _ attributes _ _ _ 0 H15 ltac:(reflexivity) Hcov).
    rewrite Z.sub_0_r, drop_0, Heq. fold (set_units s).
    destruct (bool_decide_reflect (upcase table <$> set_units s = upcase table <$> encode_utf16 name)) as [Hup|Hup];
      [|by rewrite !andb_false_r].
    rewrite Hh, (spec_name_hash_upcase table _ _ 0 Hup), Z.eqb_refl, !andb_true_r. by destruct attributes.
  - rewrite andb_false_r. cbn [andb]. rewrite bool_decide_false; [done|]. intros Hup%(f_equal length).
    rewrite !length_fmap in Hup. unfold len in *. lia.
Qed.
Lemma first_passing_find filter table (P : dir_set → bool) l :
  Forall (λ s, passes filter table s = P s) l → fst <$> first_passing filter table l = List.find P l.
Proof.
  induction 1 as [|s l Hs _ IH]; [done|]. cbn [first_passing List.find]. rewrite Hs. by destruct (P s).
Qed.

Lemma find_name_ok fl f cl (name : str) attributes filter l :
  vol_inv fl f → directory fl f cl → cl ≠ [] → dir_len f cl < Z.of_nat fuel → table_ok (upcase_table f) →
  Forall scalar name → len (encode_utf16 name) < 2 ^ usize_bits →
  ExactNameFilter name (upcase_table f) attributes = Ok filter →
  dir_sets (dir_list fl f cl 0 (dir_len f cl)) 0 = Some l → Forall (hash_stored (upcase_table f)) l →
  ∃ f', find_in_directory (hd 0 cl) filter f =
      (f', Ok (details_of (place f cl) <$>
        List.find (λ s, same_name (upcase_table f) name s && has_attributes attributes s) l)) ∧
    vol_inv fl f' ∧ vol_same fl f f'.
Proof.
  intros Hv Hdir Hne Hfuel Ht Hs Hlen Hf Hl Hh.
  destruct (find_in_directory_ok fl f cl filter l Hv Hdir Hne Hfuel Hl) as (f' & Hr & Hv' & Hst).
  exists f'. split; [|done]. rewrite Hr. do 2 f_equal. rewrite option_fmap_compose. f_equal.
  apply first_passing_find. assert (Hok : Forall set_ok l).
  { eapply dir_sets_ok; [|exact Hl]. apply Forall_fmap, Forall_forall. intros p Hp%elem_of_seqZ.
    apply dir_at_raw; [done|apply Hdir|lia]. }
  apply Forall_forall. intros s Hin. rewrite Forall_forall in Hok, Hh. by apply exact_passes; auto.
Qed.
End Lemmas.

(** * Theorems *)
Section Theorems.
Context {cfg : Config} {crates : Crates} {bd : BlockDevice} {fu : Fuel}.
Context {Hcfg : ConfigOk cfg} {Hcr : CratesOk crates} {Hbd : DeviceOk cfg bd}.

(** C18 - looking a name up in a directory finds the first entry set whose name
    is equal to it up to case and which has the wanted attributes, wherever its
    entries lie in the clusters of the directory, and answers with the details
    the set holds and its place; [None] if there is no such set.  The hash, the
    length and the comparison in pieces of 15 units never reject a set that the
    whole names would accept.  Nothing is changed. *)
Theorem lookup_finds_name fl (f : FileSystem) cl (name : str) attributes filter l :
  vol_inv fl f → directory fl f cl → cl ≠ [] → dir_len f cl < Z.of_nat fuel → table_ok (upcase_table f) →
  Forall scalar name → len (encode_utf16 name) < 2 ^ usize_bits →
  ExactNameFilter name (upcase_table f) attributes = Ok filter →
  dir_sets (dir_list fl f cl 0 (dir_len f cl)) 0 = Some l → Forall (hash_stored (upcase_table f)) l →
  ∃ f', find_in_directory (hd 0 cl) filter f =
      (f', Ok (details_of (place f cl) <$>
        List.find (λ s, same_name (upcase_table f) name s && has_attributes attributes s) l)) ∧
    vol_inv fl f' ∧ vol_same fl f f'.
Proof. apply find_name_ok. Qed.
End Theorems.

(** * A lookup *)
Section Sample.
#[local] Existing Instance debug_build.
#[local] Existing Instance dummy_device.
#[local] Existing Instance reference_crates.
#[local] Existing Instance reference_crates_ok.
#[local] Existing Instance debug_build_ok.
#[local] Instance sample_lookup_device_ok : DeviceOk debug_build dummy_device := blank_ok.
#[local] Instance sample_lookup_fuel : Fuel := 40%nat.

Lemma lookup_finds_name_witness :
  ∃ filter f' d, ExactNameFilter (of_string "FERRIS IS A crab.TXT") UpcaseTable_default (Some Archive) = Ok filter ∧
    find_in_directory 3 filter sample_dir_volume = (f', Ok (Some d)) ∧
    FileDetails.location d = {| Location.sector_id := 3; Location.dir_entry_offset := 14 |} ∧
    FileDetails.first_cluster d = 5 ∧ FileDetails.data_length d = 700.
Proof.
  destruct (ExactNameFilter (of_string "FERRIS IS A crab.TXT") UpcaseTable_default (Some Archive)) as [filter| | |] eqn:Hf;
    [|vm_compute in Hf; discriminate Hf..].
  assert (Hlen : dir_len sample_dir_volume [3; 7] = 32) by (vm_compute; reflexivity).
  destruct (dir_sets (dir_list 1 sample_dir_volume [3; 7] 0 (dir_len sample_dir_volume [3; 7])) 0) as [l|] eqn:Hl;
    [|vm_compute in Hl; discriminate Hl].
  destruct (lookup_finds_name 1 sample_dir_volume [3; 7] (of_string "FERRIS IS A crab.TXT") (Some Archive) filter l
      sample_dir_inv sample_directory) as (f' & Hr & _);
    [done|rewrite Hlen; reflexivity|apply default_table_ok|apply (bool_decide_unpack _); vm_compute; exact I|
     vm_compute; reflexivity|exact Hf|exact Hl| |].
  - vm_compute in Hl. injection Hl as <-. repeat constructor.
  - eexists filter, f', _. split; [reflexivity|]. split.
    + etransitivity; [exact Hr|]. vm_compute in Hl. injection Hl as <-. vm_compute. reflexivity.
    + vm_compute. split_and!; reflexivity.
Defined.
End Sample.
