(* ===== verification/PathLookup.v ===== *)
(** * Finding a path

    The directories of a volume form a tree.  [resolves] says what a path
    stands for in it, one directory after the other; [get_leaf_file_entry] of
    src/directory.rs, and with it [exists] and [find_file_inner] of
    src/file_system.rs, answer accordingly. *)

From S2P Require Import Prelude Text Crates Errors Utils Timestamp BootSector Device SlotCache Touched Fat Allocation AllocationSearch Regions DirectoryEntry Volume VolumeInv VolumeAlloc Directory FileSystem File FileRead DirSets DirWalk DirFree DirLookup.
Import FileSystemDetails (first_cluster_of_root_dir).

(** * Specification *)
Section Spec.
Context {cfg : Config} {crates : Crates} {bd : BlockDevice} {fu : Fuel} {Hbd : DeviceOk cfg bd}.
Implicit Types (f : FileSystem) (cl : list Z) (name : str).

(** A directory that can be searched: its sets are in order and their stream
    extensions have the hashes of the names. *)
Record searchable (fl : Z) f cl (l : list dir_set) : Prop := {
  sb_dir : directory fl f cl;
  sb_some : cl ≠ [];
  sb_fuel : dir_len f cl < Z.of_nat fuel;
  sb_sets : dir_sets (dir_list fl f cl 0 (dir_len f cl)) 0 = Some l;
  sb_hash : Forall (hash_stored (upcase_table f)) l;
}.

(** A name the crate accepts. *)
Definition name_ok (table : UpcaseTable) name : Prop :=
  Forall scalar name ∧ len (encode_utf16 name) < 2 ^ usize_bits ∧
  ∃ r, encode_utf16_upcase_and_hash name table = Ok r.

(** The entry of this name in the directory. *)
Definition in_directory f cl (l : list dir_set) name (attributes : option Z) : option FileDetails.t :=
  details_of (place f cl) <$>
    List.find (λ s, same_name (upcase_table f) name s && has_attributes attributes s) l.

(** What a list of names stands for, from the directory at cluster [id] on:
    directories all but the last, which has the wanted attributes. *)
Inductive resolves (fl : Z) f (attributes : option Z) : list str → Z → option FileDetails.t → Prop :=
  | resolves_nothing id : resolves fl f attributes [] id None
  | resolves_leaf name cl l :
      searchable fl f cl l → name_ok (upcase_table f) name →
      resolves fl f attributes [name] (hd 0 cl) (in_directory f cl l name attributes)
  | resolves_missing name name' names cl l :
      searchable fl f cl l → name_ok (upcase_table f) name → in_directory f cl l name (Some Directory) = None →
      resolves fl f attributes (name :: name' :: names) (hd 0 cl) None
  | resolves_below name name' names cl l d o :
      searchable fl f cl l → name_ok (upcase_table f) name → in_directory f cl l name (Some Directory) = Some d →
      resolves fl f attributes (name' :: names) (FileDetails.first_cluster d) o →
      resolves fl f attributes (name :: name' :: names) (hd 0 cl) o.
End Spec.

(** * Lemmas *)
Section Lemmas.
Context {cfg : Config} {crates : Crates} {bd : BlockDevice} {fu : Fuel}.
Context {Hcfg : ConfigOk cfg} {Hcr : CratesOk crates} {Hbd : DeviceOk cfg bd}.
Implicit Types (f : FileSystem) (cl : list Z) (name : str).

Lemma searchable_same fl f f' cl l :
  vol_inv fl f → vol_same fl f f' → searchable fl f cl l → searchable fl f' cl l.
Proof.
  intros Hv Hst [Hd Hne Hfu Hl Hh].
  assert (Hlen : dir_len f' cl = dir_len f cl) by (unfold dir_len; by rewrite (EPC_step fl _ f f' Hst)).
  pose proof (EPC_pos fl f Hv). split; [by apply (directory_same fl f f')|done|by rewrite Hlen| |].
  - rewrite Hlen, (dir_list_same fl f f'); [done|done|apply Hd|done|lia|lia].
  - by rewrite (step_table _ _ _ _ Hst).
Qed.
Lemma in_directory_same fl f f' cl l name attributes :
  vol_same fl f f' → in_directory f' cl l name attributes = in_directory f cl l name attributes.
Proof.
  intros Hst. unfold in_directory. rewrite (step_table _ _ _ _ Hst). apply option_fmap_ext.
  intros s. unfold details_of. by rewrite (place_step fl _ f f' _ _ Hst).
Qed.
Lemma resolves_same fl f f' attributes names id o :
  vol_inv fl f → vol_same fl f f' → resolves fl f attributes names id o → resolves fl f' attributes names id o.
Proof.
  intros Hv Hst. pose proof (searchable_same fl f f') as Hs. pose proof (in_directory_same fl f f') as Hin.
  induction 1 as [id|name cl l Hsb Hn|name name' names cl l Hsb Hn Hd|name name' names cl l d o Hsb Hn Hd _ IH].
  - constructor.
  - rewrite <-(Hin cl l name attributes Hst). constructor; [by apply Hs|by rewrite (step_table _ _ _ _ Hst)].
  - apply resolves_missing with l; [by apply Hs|by rewrite (step_table _ _ _ _ Hst)|by rewrite Hin].
  - apply resolves_below with l d; [by apply Hs|by rewrite (step_table _ _ _ _ Hst)|by rewrite Hin|done].
Qed.

(** One directory. *)
Lemma search_ok fl f cl l name attributes :
  vol_inv fl f → table_ok (upcase_table f) → searchable fl f cl l → name_ok (upcase_table f) name →
  ∃ filter f', ExactNameFilter name (upcase_table f) attributes = Ok filter ∧
    find_in_directory (hd 0 cl) filter f = (f', Ok (in_directory f cl l name attributes)) ∧
    vol_inv fl f' ∧ vol_same fl f f'.
Proof.
  intros Hv Ht [Hd Hne Hfu Hl Hh] (Hs & Hlen & [h n] & He).
  destruct (ExactNameFilter name (upcase_table f) attributes) as [filter| | |] eqn:Hf;
    try (unfold ExactNameFilter in Hf; rewrite He in Hf; discriminate).
  destruct (find_name_ok fl f cl name attributes filter l Hv Hd Hne Hfu Ht Hs Hlen Hf Hl Hh) as (f' & Hr & Hv' & Hst).
  by exists filter, f'.
Qed.

Lemma in_directory_attributes f cl l name a d :
  in_directory f cl l name (Some a) = Some d → contains (FileDetails.attributes d) a = true.
Proof.
  unfold in_directory. intros (s & Hf & ->)%fmap_Some. by apply find_some in Hf as [_ [_ Hc]%andb_true_iff].
Qed.

Lemma leaf_loop_cons fl f cl l name names attributes :
  vol_inv fl f → table_ok (upcase_table f) → searchable fl f cl l → name_ok (upcase_table f) name →
  let is_last := match names with [] => true | _ => false end in
  let o := in_directory f cl l name (if is_last then attributes else Some Directory) in
  ∃ f', leaf_loop (name :: names) (hd 0 cl) attributes f =
      (match o with
       | None => mret None
       | Some d => if is_last then mret (Some d)
                   else if contains (FileDetails.attributes d) Directory
                        then leaf_loop names (FileDetails.first_cluster d) attributes else mret None
       end) f' ∧ vol_inv fl f' ∧ vol_same fl f f'.
Proof.
  intros Hv Ht Hs Hn is_last o.
  destruct (search_ok fl f cl l name (if is_last then attributes else Some Directory) Hv Ht Hs Hn)
    as (filter & f' & Hf & Hr & Hv' & Hst).
  exists f'. split; [|done]. cbn [leaf_loop]. rewrite (bind_Ok (gets upcase_table) _ _ f (upcase_table f)) by done.
  fold is_last. rewrite Hf. cbn [map_err_o]. by rewrite bind_lift_Ok, (bind_Ok _ _ _ _ _ Hr).
Qed.

Lemma leaf_loop_ok fl f attributes names id o :
  vol_inv fl f → table_ok (upcase_table f) → resolves fl f attributes names id o →
  ∀ f1, vol_inv fl f1 → vol_same fl f f1 →
  ∃ f', leaf_loop names id attributes f1 = (f', Ok o) ∧ vol_inv fl f' ∧ vol_same fl f f'.
Proof.
  intros Hv Ht Hres.
  assert (Hone : ∀ f1 name ns cl l, vol_inv fl f1 → vol_same fl f f1 → searchable fl f cl l →
    name_ok (upcase_table f) name →
    let is_last := match ns with [] => true | _ => false end in
    ∃ f', leaf_loop (name :: ns) (hd 0 cl) attributes f1 =
        (match in_directory f cl l name (if is_last then attributes else Some Directory) with
         | None => mret None
         | Some d => if is_last then mret (Some d)
                     else if contains (FileDetails.attributes d) Directory
                          then leaf_loop ns (FileDetails.first_cluster d) attributes else mret None
         end) f' ∧ vol_inv fl f' ∧ vol_same fl f f').
  { intros f1 name ns cl l Hv1 Hst1 Hs Hn is_last. pose proof (step_table _ _ _ _ Hst1) as Htab.
    destruct (leaf_loop_cons fl f1 cl l name ns attributes Hv1) as (f' & Hr & Hv' & Hst');
      [by rewrite Htab|by apply (searchable_same fl f f1)|by rewrite Htab|].
    rewrite (in_directory_same fl f f1) in Hr by done. exists f'. split; [done|]. split; [done|].
    by eapply vol_step_trans. }
  induction Hres as [id|name cl l Hsb Hn|name name' names cl l Hsb Hn Hd|name name' names cl l d o Hsb Hn Hd _ IH];
    intros f1 Hv1 Hst1; [by exists f1|..];
    edestruct (Hone f1 name) as (f2 & Hr & Hv2 & Hst2); try done; rewrite Hr; cbv iota; try rewrite Hd.
  - exists f2. by destruct (in_directory f cl l name attributes).
  - by exists f2.
  - rewrite (in_directory_attributes _ _ _ _ _ _ Hd). by apply IH.
Qed.
End Lemmas.

(** * Theorems *)
Section Theorems.
Context {cfg : Config} {crates : Crates} {bd : BlockDevice} {fu : Fuel}.
Context {Hcfg : ConfigOk cfg} {Hcr : CratesOk crates} {Hbd : DeviceOk cfg bd}.

Lemma find_path_ok fl (f : FileSystem) attributes (path : str) o :
  vol_inv fl f → table_ok (upcase_table f) →
  resolves fl f attributes (path_to_iter path) (first_cluster_of_root_dir (fs f)) o →
  ∃ f', vol_inv fl f' ∧ vol_same fl f f' ∧
    get_leaf_file_entry path attributes f = (f', Ok o) ∧
    find_file_inner path attributes f = (f', match o with Some d => Ok d | None => Err FileNotFound end).
Proof.
  intros Hv Ht Hres. destruct (leaf_loop_ok fl f attributes _ _ o Hv Ht Hres f Hv) as (f' & Hr & Hv' & Hst);
    [apply vol_step_refl|].
  assert (Hleaf : get_leaf_file_entry path attributes f = (f', Ok o)).
  { unfold get_leaf_file_entry. by rewrite (bind_Ok (gets Volume.fs) _ _ f (fs f)) by done. }
  exists f'. split_and!; [done..|]. unfold find_file_inner. rewrite (bind_Ok _ _ _ _ _ Hleaf). by destruct o.
Qed.

(** C17 - finding a path: [get_leaf_file_entry] answers with what the path
    stands for in the tree of directories, [find_file_inner] turns nothing into
    [FileNotFound], and [exists] says whether there is something.  None of them
    changes anything, and all of them terminate. *)
Theorem path_lookup_correct fl (f : FileSystem) attributes (path : str) o :
  vol_inv fl f → table_ok (upcase_table f) →
  resolves fl f attributes (path_to_iter path) (first_cluster_of_root_dir (fs f)) o →
  ∃ f', vol_inv fl f' ∧ vol_same fl f f' ∧
    get_leaf_file_entry path attributes f = (f', Ok o) ∧
    find_file_inner path attributes f = (f', match o with Some d => Ok d | None => Err FileNotFound end) ∧
    (attributes = None → exists_ path f = (f', Ok (bool_decide (is_Some o)))).
Proof.
  intros Hv Ht Hres. destruct (find_path_ok fl f attributes path o Hv Ht Hres) as (f' & Hv' & Hst & Hleaf & Hfind).
  exists f'. split_and!; [done..|]. intros ->. unfold exists_.
  rewrite (bind_Ok _ _ _ _ _ (mounted_ok fl f Hv)). unfold mbind, M_bind, try_, find_file_or_directory.
  rewrite Hfind. by destruct o.
Qed.
End Theorems.

(** * A path *)
Section Sample.
#[local] Existing Instance debug_build.
#[local] Existing Instance dummy_device.
#[local] Existing Instance reference_crates.
#[local] Existing Instance reference_crates_ok.
#[local] Existing Instance debug_build_ok.
#[local] Instance sample_path_device_ok : DeviceOk debug_build dummy_device := blank_ok.
#[local] Instance sample_path_fuel : Fuel := 40%nat.

Lemma sample_searchable : ∃ l, searchable 1 sample_dir_volume [3; 7] l ∧
  option_map FileDetails.first_cluster
    (in_directory sample_dir_volume [3; 7] l (of_string "ferris IS a CRAB.txt") None) = Some 5.
Proof.
  assert (Hlen : dir_len sample_dir_volume [3; 7] = 32) by (vm_compute; reflexivity).
  destruct (dir_sets (dir_list 1 sample_dir_volume [3; 7] 0 (dir_len sample_dir_volume [3; 7])) 0) as [l|] eqn:Hl;
    [|vm_compute in Hl; discriminate Hl].
  exists l. split; [split|].
  - exact sample_directory.
  - done.
  - rewrite Hlen. reflexivity.
  - exact Hl.
  - vm_compute in Hl. injection Hl as <-. repeat constructor.
  - vm_compute in Hl. injection Hl as <-. vm_compute. reflexivity.
Qed.

Lemma path_lookup_correct_witness :
  ∃ f' d, exists_ (of_string "/ferris IS a CRAB.txt") sample_dir_volume = (f', Ok true) ∧
    find_file_inner (of_string "/ferris IS a CRAB.txt") None sample_dir_volume = (f', Ok d) ∧ FileDetails.first_cluster d = 5.
Proof.
  destruct sample_searchable as (l & Hs & Hd).
  destruct (in_directory sample_dir_volume [3; 7] l (of_string "ferris IS a CRAB.txt") None) as [d|] eqn:Hin;
    [|discriminate Hd].
  destruct (path_lookup_correct 1 sample_dir_volume None (of_string "/ferris IS a CRAB.txt") (Some d) sample_dir_inv)
    as (f' & _ & _ & _ & Hfind & Hex).
  - apply default_table_ok.
  - change (path_to_iter _) with [of_string "ferris IS a CRAB.txt"].
    change (first_cluster_of_root_dir _) with (hd 0 [3; 7]). rewrite <-Hin. constructor; [exact Hs|].
    split; [apply (bool_decide_unpack _); vm_compute; exact I|]. split; [vm_compute; reflexivity|].
    eexists. vm_compute. reflexivity.
  - exists f', d. split; [exact (Hex eq_refl)|]. split; [exact Hfind|]. by injection Hd.
Defined.
End Sample.
