(* ===== verification/DirCreate.v ===== *)
(** * Creating a directory entry

    [create_file_dir_entry_at] of src/file_system.rs finds room for the entry
    set of a new name and writes it there. *)

From S2P Require Import Prelude Text Crates Errors Utils Timestamp BootSector Device SlotCache Touched Fat Allocation AllocationSearch Regions DirectoryEntry Volume VolumeInv VolumeAlloc Directory FileSystem File FileRead DirSets FileFlush DirWalk DirFree DirLookup.
Import FileSystemDetails (cluster_length, sectors_per_cluster, cluster_heap_offset, fat_offset).

(** * Specification *)
Section Spec.
Context {cfg : Config} {crates : Crates} {bd : BlockDevice} {Hbd : DeviceOk cfg bd}.
Implicit Types (f : FileSystem) (id k : Z) (t : FileDirty) (name : str).

(** The entries from [k] on of cluster [id] were written, and nothing else
    changed. *)
Record run_written (fl : Z) f t id k (es : list RawDirEntry) f' t' : Prop := {
  run_op : vol_op fl (entry_sectors (cluster_sector f id) k (len es)) t f t' f';
  run_entries : set_entries fl f' (cluster_sector f id) k (len es) = es;
  run_kept : entries_kept fl f (cluster_sector f id) k (len es) f';
}.

(** The name entries of a name. *)
Definition name_entry (file_name : list Z) : RawDirEntry :=
  FileNameDirEntry.serialize {| FileNameDirEntry.general_secondary_flags := 0; FileNameDirEntry.file_name := file_name |}.
Definition name_chunks name : list (list Z) :=
  let us := encode_utf16 name in fst <$> all_chunks (S (length us)) 15 us.
Definition created_names name : list RawDirEntry := name_entry <$> name_chunks name.

(** A file entry with its checksum field set. *)
Definition checksummed (c : Z) (e : FileDirEntry.t) : FileDirEntry.t := {|
  FileDirEntry.secondary_count := FileDirEntry.secondary_count e;
  FileDirEntry.set_checksum := c;
  FileDirEntry.file_attributes := FileDirEntry.file_attributes e;
  FileDirEntry.create_timestamp := FileDirEntry.create_timestamp e;
  FileDirEntry.last_modified_timestamp := FileDirEntry.last_modified_timestamp e;
  FileDirEntry.last_accessed_timestamp := FileDirEntry.last_accessed_timestamp e;
  FileDirEntry.create_10ms_increment := FileDirEntry.create_10ms_increment e;
  FileDirEntry.last_modified_10ms_increment := FileDirEntry.last_modified_10ms_increment e;
  FileDirEntry.create_utc_offset := FileDirEntry.create_utc_offset e;
  FileDirEntry.last_modified_utc_offset := FileDirEntry.last_modified_utc_offset e;
  FileDirEntry.last_accessed_utc_offset := FileDirEntry.last_accessed_utc_offset e |}.

(** The set of entries of a new name: the first one with the checksum. *)
Definition created_set (file : FileDirEntry.t) (stream : StreamExtensionDirEntry.t) name : list RawDirEntry :=
  let others := StreamExtensionDirEntry.serialize stream :: created_names name in
  FileDirEntry.serialize (checksummed (spec_checksum (FileDirEntry.serialize file ++ concat others)) file) :: others.

(** A legal name of at most 255 units, with its hash. *)
Record legal_name (table : UpcaseTable) name (h : Z) : Prop := {
  legal_table : table_ok table;
  legal_scalar : Forall scalar name;
  legal_length : len (encode_utf16 name) ≤ 255;
  legal_hash : encode_utf16_upcase_and_hash name table = Ok (h, len (encode_utf16 name));
}.
(** The attributes, flags, first cluster and lengths of a new entry fit. *)
Record new_entry_ok (first file_attributes flags valid_length length : Z) : Prop := {
  new_attributes : 0 ≤ file_attributes < 2 ^ 16 ∧ Z.land file_attributes FileAttributes_all = file_attributes;
  new_flags : byte_ok flags ∧ Z.land flags GeneralSecondaryFlags_all = flags;
  new_first : 0 ≤ first < 2 ^ 32;
  new_lengths : 0 ≤ valid_length < 2 ^ 64 ∧ 0 ≤ length < 2 ^ 64;
}.

(** The set takes the entries of the first room for it, in one cluster (the
    writer does not go on to another one). *)
Definition set_count name : Z := 2 + Z.of_nat (name_count (len (encode_utf16 name))).
Record first_room (fl : Z) f cl n p : Prop := {
  room_free : free_from fl f cl p n;
  room_first q : q < p → ¬ free_from fl f cl q n;
  room_cluster : p mod EPC f + n ≤ EPC f;
}.
(** The entries that are written for a name. *)
Definition new_set ts name h first file_attributes flags valid_length length : list RawDirEntry :=
  created_set (created_file_entry ts (set_count name - 1) file_attributes)
    (created_stream_entry (len (encode_utf16 name)) h first flags valid_length length) name.
End Spec.

(** * Lemmas *)
Section Lemmas.
Context {cfg : Config} {crates : Crates} {bd : BlockDevice} {fu : Fuel}.
Context {Hcfg : ConfigOk cfg} {Hcr : CratesOk crates} {Hbd : DeviceOk cfg bd}.
Implicit Types (f : FileSystem) (id k : Z) (t : FileDirty) (name : str).

(** ** Writing a run of entries *)
Lemma entry_sectors_sub s k n k' n' x :
  k' ≤ k → k + n ≤ k' + n' → entry_sectors s k n x → entry_sectors s k' n' x.
Proof. intros Hk Hn (j & Hj & ->). exists j. split; [lia|done]. Qed.

Lemma run_written_nil fl f t id k : vol_inv fl f → dirty_ok t → run_written fl f t id k [] f t.
Proof. intros Hv Ht. split; [by apply vol_op_refl|done|]. by intros j. Qed.

Lemma run_written_cons fl f t id k e es f1 t1 f2 t2 :
  vol_op fl (λ x, x = cluster_sector f id + k / EPS) t f t1 f1 → dir_entry fl f1 (cluster_sector f id) k = e →
  entries_kept fl f (cluster_sector f id) k 1 f1 → data_cluster f id → 0 ≤ k → k + 1 + len es ≤ EPC f →
  run_written fl f1 t1 id (k + 1) es f2 t2 → run_written fl f t id k (e :: es) f2 t2.
Proof.
  intros Hop He Hk Hid Hk0 Hcap [Hop2 He2 Hk2]. pose proof (op_step _ _ _ _ _ _ Hop) as Hst.
  pose proof (step_fs _ _ _ _ Hst) as Hfs. pose proof (len_nonneg es).
  assert (Hcs : cluster_sector f1 id = cluster_sector f id) by (unfold cluster_sector; by rewrite Hfs).
  rewrite Hcs in Hop2, He2, Hk2.
  assert (Hlen : len (e :: es) = 1 + len es) by (unfold len; cbn; lia). split; rewrite Hlen.
  - eapply vol_op_trans; [eapply vol_op_weaken; [|exact Hop]|eapply vol_op_weaken; [|exact Hop2]].
    + intros x ->. exists k. split; [lia|done].
    + intros x. apply entry_sectors_sub; lia.
  - rewrite set_entries_cons by lia. replace (1 + len es - 1) with (len es) by lia. rewrite He2. f_equal.
    rewrite Hk2; [done|lia|lia|]. apply (data_region_step fl _ f f1 _ Hst). apply cluster_entry_region; [done|].
    unfold EPC in Hcap. lia.
  - eapply entries_kept_trans; [exact Hst|eapply entries_kept_weaken; [| |exact Hk]; lia|].
    eapply entries_kept_weaken; [| |exact Hk2]; lia.
Qed.

Lemma run_written_after fl f f1 t id k es f' t' :
  vol_same fl f f1 → vol_inv fl f1 → dirty_ok t → run_written fl f1 t id k es f' t' → run_written fl f t id k es f' t'.
Proof.
  intros Hst Hv Ht [Hop He Hk]. pose proof (step_fs _ _ _ _ Hst) as Hfs.
  assert (Hcs : cluster_sector f1 id = cluster_sector f id) by (unfold cluster_sector; by rewrite Hfs).
  rewrite Hcs in Hop, He, Hk. split; [|done|].
  - apply (vol_op_trans _ _ _ _ t f1); [by apply vol_op_same|done].
  - apply (entries_kept_trans fl _ f f1 f' _ _ _ Hst); [by apply entries_kept_same|done].
Qed.

Lemma add_entries_ok fl id k0 (es : list RawDirEntry) : ∀ f t k ck,
  vol_inv fl f → dirty_ok t → data_cluster f id → Forall raw_ok es → 0 ≤ k → k + len es ≤ EPC f →
  let s := cluster_sector f id in
  ∃ f' t', for_each es (λ e, add_entry e false) (writer_at s k0 k ck, (t, f)) =
      ((writer_at s k0 (k + len es) (fold_left (λ c raw, calc_checksum raw false c) es ck), (t', f')), Ok ()) ∧
    run_written fl f t id k es f' t'.
Proof.
  induction es as [|e es IH]; intros f t k ck Hv Ht Hid Hes Hk Hcap s.
  - exists f, t. change (len []) with 0. rewrite Z.add_0_r. split; [done|by apply run_written_nil].
  - apply Forall_cons in Hes as [He Hes].
    assert (Hlen : len (e :: es) = 1 + len es) by (unfold len; cbn; lia). rewrite Hlen in *. pose proof (len_nonneg es).
    destruct (add_entry_ok fl f t s k0 k ck e false Hv Ht) as (f1 & t1 & Hadd & Hop & Hent & Hkept);
      [exact (cluster_sector_pos fl f id Hv (proj1 Hid))|done|apply cluster_entry_region; [done|unfold EPC in Hcap; lia]|done|].
    pose proof (op_step _ _ _ _ _ _ Hop) as Hst.
    destruct (IH f1 t1 (k + 1) (calc_checksum e false ck)) as (f2 & t2 & Hrun & Hw);
      [apply Hop|apply (op_tracks _ _ _ _ _ _ Hop)|by apply (data_cluster_step fl _ f f1 id Hst)|done|lia|
       rewrite (EPC_step fl _ f f1 Hst); lia|].
    exists f2, t2. split; [|by apply (run_written_cons fl f t id k e es f1 t1); [..|lia|]].
    cbn [for_each]. rewrite (bind_Ok _ _ _ _ _ Hadd).
    replace (cluster_sector f1 id) with s in Hrun by (unfold s, cluster_sector; by rewrite (step_fs _ _ _ _ Hst)).
    rewrite Hrun, fold_left_cons. by replace (k + (1 + len es)) with (k + 1 + len es) by lia.
Qed.

(** ** Writing a set *)
Lemma write_set_ok fl f t id k (file : RawDirEntry) (others : list RawDirEntry) :
  vol_inv fl f → dirty_ok t → data_cluster f id → raw_ok file → Forall raw_ok others → 0 ≤ k →
  k + (1 + len others) ≤ EPC f →
  let s := cluster_sector f id in let c := spec_checksum (file ++ concat others) in
  ∃ w f' t', (add_entry file true ;; for_each others (λ e, add_entry e false) ;; finish file) (writer_at s k k 0, (t, f)) =
      ((w, (t', f')), Ok ()) ∧
    run_written fl f t id k (with_checksum file c :: others) f' t'.
Proof.
  intros Hv Ht Hid Hf Ho Hk Hcap s c. pose proof (len_nonneg others).
  assert (Hreg : data_region f (s + k / EPS)) by (apply cluster_entry_region; [done|unfold EPC in Hcap; lia]).
  destruct (add_entry_ok fl f t s k k 0 file true Hv Ht) as (f1 & t1 & Hadd & Hop & Hent & Hkept);
    [exact (cluster_sector_pos fl f id Hv (proj1 Hid))|done|done|done|].
  pose proof (op_step _ _ _ _ _ _ Hop) as Hst. pose proof (step_fs _ _ _ _ Hst) as Hfs.
  assert (Hid1 : data_cluster f1 id) by (by apply (data_cluster_step fl _ f f1 id Hst)).
  assert (Hcs : cluster_sector f1 id = s) by (unfold s, cluster_sector; by rewrite Hfs).
  destruct (add_entries_ok fl id k others f1 t1 (k + 1) (calc_checksum file true 0)) as (f2 & t2 & Hrun & Hw);
    [apply Hop|apply (op_tracks _ _ _ _ _ _ Hop)|done|done|lia|rewrite (EPC_step fl _ f f1 Hst); lia|].
  rewrite set_checksum_ok in Hrun by (destruct Hf as [-> _]; lia). fold c in Hrun. rewrite Hcs in Hrun.
  pose proof (run_written_cons fl f t id k file others f1 t1 f2 t2 Hop Hent Hkept Hid Hk ltac:(lia) Hw) as [Hop2 He2 Hk2].
  pose proof (op_step _ _ _ _ _ _ Hop2) as Hst2. fold s in Hop2, He2, Hk2.
  destruct (finish_ok fl f2 t2 s k (k + 1 + len others) c file (op_inv _ _ _ _ _ _ Hop2)
      (proj1 (op_tracks _ _ _ _ _ _ Hop2))) as (f3 & t3 & Hfin & Hop3 & Hent3 & Hkept3);
    [by apply (data_region_step fl _ f f2 _ Hst2)|done|].
  exists (writer_at s k (k + 1 + len others) c), f3, t3. split.
  { by rewrite (bind_Ok _ _ _ _ _ Hadd), (bind_Ok _ _ _ _ _ Hrun). }
  assert (Hlen : len (file :: others) = 1 + len others) by (unfold len; cbn; lia). rewrite Hlen in *.
  assert (Hlen' : len (with_checksum file c :: others) = 1 + len others) by (unfold len; cbn; lia).
  split; rewrite Hlen'; fold s.
  - eapply vol_op_trans; [exact Hop2|]. eapply vol_op_weaken; [|exact Hop3]. intros x ->. exists k. split; [lia|done].
  - rewrite set_entries_cons in He2 |- * by lia. injection He2 as _ He2. rewrite Hent3. f_equal.
    rewrite <-He2 at 2. replace s with (cluster_sector f2 id) by (unfold s, cluster_sector; by rewrite (step_fs _ _ _ _ Hst2)).
    apply (set_entries_kept fl f2 f3 id k 1); [|by apply (data_cluster_step fl _ f f2 id Hst2)|lia| |lia].
    + by replace (cluster_sector f2 id) with s by (unfold s, cluster_sector; by rewrite (step_fs _ _ _ _ Hst2)).
    + rewrite (step_fs _ _ _ _ Hst2). unfold EPC in Hcap. lia.
  - eapply entries_kept_trans; [exact Hst2|exact Hk2|]. eapply entries_kept_weaken; [| |exact Hkept3]; lia.
Qed.

(** ** The name entries *)
Lemma write_names_eq (n : nat) : ∀ us st, (length us < n)%nat →
  write_names n us st = for_each (name_entry ∘ fst <$> all_chunks n 15 us) (λ e, add_entry e false) st.
Proof.
  induction n as [|n IH]; intros us st Hn; [lia|]. cbn [write_names all_chunks].
  destruct us as [|u us]; [by rewrite next_chunk_nil|]. rewrite next_chunk_Some by (done || lia).
  cbn [fmap list_fmap for_each]. apply bind_ext. intros _ st'. apply IH. rewrite length_drop. cbn in *. lia.
Qed.
Lemma all_chunks_concat (n : nat) : ∀ us, (length us < n)%nat →
  take (length us) (concat (fst <$> all_chunks n 15 us)) = us.
Proof.
  induction n as [|n IH]; intros us Hn; [lia|]. cbn [all_chunks].
  destruct us as [|u us]; [done|]. rewrite next_chunk_Some by (done || lia). set (v := u :: us) in *.
  cbn [fmap list_fmap concat fst]. rewrite take_app, length_app, length_take, length_replicate.
  destruct (decide (length v ≤ 15)%nat).
  - rewrite (take_ge v) by lia. rewrite take_app_length.
    replace (length v - (15 `min` length v + (15 - length v)))%nat with 0%nat by lia. by rewrite take_0, app_nil_r.
  - replace (15 - length v)%nat with 0%nat by lia. cbn [replicate]. rewrite app_nil_r.
    rewrite (take_ge (take 15 v)) by (rewrite length_take; lia).
    replace (length v - (15 `min` length v + 0))%nat with (length (drop 15 v)) by (rewrite length_drop; lia).
    rewrite IH by (rewrite length_drop; cbn [v length] in *; lia). apply take_drop.
Qed.
Lemma all_chunks_units (P : Z → Prop) (n : nat) : ∀ us, P 0 → Forall P us →
  Forall (λ c, Forall P (fst c)) (all_chunks n 15 us).
Proof.
  induction n as [|n IH]; intros us H0 Hus; cbn [all_chunks]; [constructor|].
  destruct us as [|u us]; [rewrite next_chunk_nil; constructor|]. rewrite next_chunk_Some by (done || lia).
  constructor; [|apply IH; [done|by apply Forall_drop]]. cbn [fst].
  apply Forall_app_2; [by apply Forall_take|by apply Forall_replicate].
Qed.

Lemma name_chunks_ok name :
  Forall scalar name →
  Forall (λ u, length u = 15%nat ∧ Forall (λ x, 0 ≤ x < 2 ^ 16) u) (name_chunks name) ∧
  length (name_chunks name) = name_count (len (encode_utf16 name)) ∧
  take (Z.to_nat (len (encode_utf16 name))) (concat (name_chunks name)) = encode_utf16 name.
Proof.
  intros Hs. destruct (chunks_roundtrip name 15 ltac:(lia)) as (_ & Hl & Hlen). cbv zeta in Hl, Hlen. unfold name_chunks.
  split_and!.
  - apply Forall_fmap. pose proof (all_chunks_units (λ x, 0 ≤ x < 2 ^ 16) (S (length (encode_utf16 name)))
      (encode_utf16 name) (conj (Z.le_refl 0) eq_refl) (encode_utf16_u16 name Hs)) as Hu.
    rewrite Forall_forall in Hl, Hu |- *. intros c Hc. split; [by apply Hl|by apply Hu].
  - rewrite length_fmap. unfold name_count. unfold len at 1 in Hlen. rewrite <-(Nat2Z.id (length _)), Hlen.
    f_equal. f_equal. lia.
  - unfold len. rewrite Nat2Z.id. apply all_chunks_concat. lia.
Qed.

Lemma name_entry_raw (u : list Z) :
  length u = 15%nat ∧ Forall (λ x, 0 ≤ x < 2 ^ 16) u →
  raw_ok (name_entry u) ∧ entry_type (name_entry u) = EntryType.Filename ∧ units_of (name_entry u) = u.
Proof.
  intros [Hl Hu]. split_and!.
  - apply FileNameDirEntry_serialize_ok. by split_and!.
  - reflexivity.
  - unfold units_of, name_entry. rewrite name_entry_roundtrip; [done|]. split_and!; try done.
Qed.

(** ** The entries of a new name *)
Lemma with_checksum_serialize e c :
  with_checksum (FileDirEntry.serialize e) c = FileDirEntry.serialize (checksummed c e).
Proof. unfold with_checksum. rewrite !FileDirEntry_serialize_bytes. reflexivity. Qed.

Lemma created_names_raw name : Forall scalar name → Forall raw_ok (created_names name).
Proof.
  intros Hs. apply Forall_fmap. eapply Forall_impl; [apply (name_chunks_ok name Hs)|].
  intros u Hu. by apply name_entry_raw.
Qed.
Lemma created_file_typed ts n file_attributes c :
  encoded_typed ts → 0 ≤ n < 256 → 0 ≤ c < 2 ^ 16 →
  0 ≤ file_attributes < 2 ^ 16 ∧ Z.land file_attributes FileAttributes_all = file_attributes →
  file_entry_typed (checksummed c (created_file_entry ts n file_attributes)).
Proof.
  intros Hts Hn Hc Ha. unfold encoded_typed, file_entry_typed, byte_ok in *.
  cbn [checksummed created_file_entry FileDirEntry.secondary_count
    FileDirEntry.set_checksum FileDirEntry.file_attributes FileDirEntry.create_timestamp
    FileDirEntry.last_modified_timestamp FileDirEntry.last_accessed_timestamp
    FileDirEntry.create_10ms_increment FileDirEntry.last_modified_10ms_increment
    FileDirEntry.create_utc_offset FileDirEntry.last_modified_utc_offset
    FileDirEntry.last_accessed_utc_offset]. lia.
Qed.
Lemma name_hash_range table (us : list Z) h : 0 ≤ h < 2 ^ 16 → 0 ≤ spec_name_hash table us h < 2 ^ 16.
Proof.
  revert h. induction us as [|u us IH]; intros h Hh; [done|]. unfold spec_name_hash. cbn [fold_left].
  apply IH, spec_hash_byte_range.
Qed.
Lemma legal_facts table name h :
  legal_name table name h → h = spec_name_hash table (encode_utf16 name) 0 ∧ 0 < len (encode_utf16 name) ∧ 0 ≤ h < 2 ^ 16.
Proof.
  intros [Ht Hs Hl Hh]. destruct (encode_hash_Ok table name h (len (encode_utf16 name)) Ht Hs) with (2 := Hh) as (-> & _ & Hpos);
    [destruct usize_cases as [-> | ->]; lia|]. split; [done|]. split; [done|]. by apply name_hash_range.
Qed.
Lemma created_stream_typed table name h first flags valid_length length file_attributes :
  legal_name table name h → new_entry_ok first file_attributes flags valid_length length →
  stream_entry_typed (created_stream_entry (len (encode_utf16 name)) h first flags valid_length length).
Proof.
  intros Hn [_ Hf Hc [Hv Hl]]. destruct (legal_facts _ _ _ Hn) as (_ & Hpos & Hh). pose proof (legal_length _ _ _ Hn).
  split; [done|]. cbn. unfold cast, byte_ok. rewrite Z.mod_small by lia. lia.
Qed.

Lemma set_len_ok (n : Z) : 0 ≤ n ≤ 255 → calc_dir_entry_set_len (E:=err) n = Ok (2 + Z.of_nat (name_count n)).
Proof.
  intros Hn. unfold calc_dir_entry_set_len, name_count. rewrite cast_id by lia. rewrite div_ceil_ok by lia.
  cbn [mbind outcome_bind]. rewrite Z2Nat.id by dlia.
  assert (0 ≤ (n + 14) / 15 ≤ 17) by dlia. replace (n + 15 - 1) with (n + 14) by lia.
  rewrite cast_id by (destruct usize_cases as [-> | ->]; lia).
  apply add_ok. destruct usize_cases as [-> | ->]; lia.
Qed.

Lemma name_count_range n : 0 ≤ n ≤ 255 → 0 ≤ Z.of_nat (name_count n) ≤ 17.
Proof. intros Hn. unfold name_count. dlia. Qed.

(** ** The set of a new name *)
Lemma created_parts table name h first file_attributes flags valid_length length ts c :
  legal_name table name h → new_entry_ok first file_attributes flags valid_length length → encoded_typed ts →
  0 ≤ c < 2 ^ 16 →
  let file := checksummed c (created_file_entry ts (set_count name - 1) file_attributes) in
  let stream := created_stream_entry (len (encode_utf16 name)) h first flags valid_length length in
  file_entry_typed file ∧ stream_entry_typed stream ∧ raw_ok (FileDirEntry.serialize file) ∧
  raw_ok (StreamExtensionDirEntry.serialize stream) ∧ Forall raw_ok (created_names name) ∧
  len (created_names name) = set_count name - 2.
Proof.
  intros Hn He Hts Hc file stream. pose proof (legal_length _ _ _ Hn) as Hl. pose proof (legal_scalar _ _ _ Hn) as Hs.
  pose proof (len_nonneg (encode_utf16 name)). pose proof (name_count_range _ (conj H Hl)) as Hr.
  assert (Hf : file_entry_typed file) by (apply created_file_typed; [done|unfold set_count; lia|done|apply He]).
  assert (Hst : stream_entry_typed stream) by (by eapply (created_stream_typed table)).
  split_and!; [done|done|by apply FileDirEntry_serialize_ok|by apply StreamExtensionDirEntry_serialize_ok|
    by apply created_names_raw|].
  unfold created_names, len at 1. rewrite length_fmap. destruct (name_chunks_ok name Hs) as (_ & -> & _).
  unfold set_count. lia.
Qed.

(** The actions of [create_file_dir_entry_at] are those of [write_set_ok]. *)
Lemma created_actions name (file stream : RawDirEntry) st :
  (add_entry file true ;; add_entry stream false ;;
   write_names (S (length (encode_utf16 name))) (encode_utf16 name) ;; finish file) st =
  (add_entry file true ;; for_each (stream :: created_names name) (λ e, add_entry e false) ;; finish file) st.
Proof.
  apply bind_ext. intros _ s1. cbn [for_each]. rewrite bind_assoc. apply bind_ext. intros _ s2.
  unfold mbind, M_bind. rewrite write_names_eq by lia. unfold created_names, name_chunks.
  by rewrite <-list_fmap_compose.
Qed.

Lemma create_ok fl f t cl p name h first file_attributes flags valid_length length :
  vol_inv fl f → dirty_ok t → clock_ok f → directory fl f cl → cl ≠ [] → dir_len f cl < Z.of_nat fuel →
  legal_name (upcase_table f) name h → new_entry_ok first file_attributes flags valid_length length →
  first_room fl f cl (set_count name) p →
  ∃ ts f' t', create_file_dir_entry_at name (hd 0 cl) first file_attributes flags valid_length length (t, f) =
      ((t', f'), Ok (created_details ts (place f cl p) (set_count name - 1) first file_attributes flags valid_length length)) ∧
    encoded_typed ts ∧
    run_written fl f t (dir_cluster f cl p) (p mod EPC f)
      (new_set ts name h first file_attributes flags valid_length length) f' t'.
Proof.
  intros Hv Ht Hc Hdir Hne Hfuel Hn He [Hfree Hfirst Hcl].
  pose proof (legal_length _ _ _ Hn) as Hlen. pose proof (len_nonneg (encode_utf16 name)) as Hpos.
  pose proof (name_count_range _ (conj Hpos Hlen)) as Hcount.
  destruct (find_empty_ok fl f cl (set_count name) Hv Hdir Hne) as (f1 & o & Hr & Ho & Hv1 & Hst1);
    [unfold set_count; lia|done|].
  assert (o = Ok (place f cl p)) as ->.
  { destruct Ho as [(q & Hq & _ & Hq1 & ->)|[Hno _]]; [|by apply Hno in Hfree]. do 2 f_equal.
    destruct (Z.lt_trichotomy p q) as [Hlt|[->|Hlt]]; [by apply Hq1 in Hfree|done|by apply Hfirst in Hq]. }
  destruct (get_current_timestamp_ok fl f1 Hv1) as (ts & f2 & Hts & Htt & Hv2 & Hst2);
    [unfold clock_ok; by rewrite (step_clock _ _ _ _ Hst1)|].
  pose proof (vol_step_trans fl _ f f1 f2 Hst1 Hst2) as Hst. pose proof (step_fs _ _ _ _ Hst) as Hfs.
  destruct Hfree as (Hp0 & Hpn & Hpfree).
  destruct (dir_cluster_ok fl f cl p Hv (dir_data _ _ _ Hdir)) as (_ & Hid & Hm); [unfold set_count in *; lia|].
  set (id := dir_cluster f cl p) in *. set (k := p mod EPC f) in *.
  set (file := created_file_entry ts (set_count name - 1) file_attributes).
  set (stream := created_stream_entry (len (encode_utf16 name)) h first flags valid_length length).
  destruct (created_parts _ _ _ _ _ _ _ _ ts 0 Hn He Htt ltac:(done)) as (_ & _ & Hfr & Hsr & Hnr & Hnl).
  fold stream in Hsr. change (checksummed 0 _) with file in Hfr.
  destruct (write_set_ok fl f2 t id k (FileDirEntry.serialize file)
      (StreamExtensionDirEntry.serialize stream :: created_names name) Hv2 Ht) as (w & f3 & t3 & Hw & Hrw);
    [by apply (data_cluster_step fl (λ _, False) f f2)|done|by constructor|lia| |].
  { rewrite (EPC_step fl _ f f2 Hst). unfold len in Hnl |- *. cbn [Datatypes.length]. lia. }
  exists ts, f3, t3. split; [|split; [done|]].
  - unfold create_file_dir_entry_at.
    rewrite (bind_Ok (gets (upcase_table ∘ snd)) _ _ (t, f) (upcase_table f)) by done.
    rewrite (legal_hash _ _ _ Hn). cbn [map_err_o]. rewrite bind_lift_Ok. cbv iota beta.
    rewrite set_len_ok, bind_lift_Ok by lia. fold (set_count name).
    rewrite (bind_Ok _ _ _ (t, f1) (place f cl p)) by (eapply zoom_to; [exact Hr|done]).
    rewrite cast_id, sub_ok, bind_lift_Ok by (unfold set_count; lia).
    rewrite (bind_Ok _ _ _ (t, f2) ts) by (eapply zoom_to; [exact Hts|done]).
    cbv zeta. fold file stream.
    rewrite (bind_Ok _ _ _ (t3, f3) (w, ())); [done|]. apply (with_local_eq _ _ _ w _ (Ok ())).
    rewrite created_actions, <-Hw. do 2 f_equal. unfold writer_at, DirSetWriter.new, place, cluster_sector.
    by rewrite Hfs.
  - apply (run_written_after fl f f2); [done..|]. unfold new_set, created_set. cbv zeta. fold file stream.
    by rewrite <-with_checksum_serialize.
Qed.
End Lemmas.
