(* ===== verification/DirInsert.v ===== *)
(** * What a new entry set does to its directory

    [create_file_dir_entry_at] of src/file_system.rs puts an entry set where
    there was room.  In the list of the directory's sets this inserts one set,
    so the directory, seen as a map from names to details, gets one name and
    keeps the others. *)

From S2P Require Import Prelude Text Crates Errors Utils Timestamp BootSector Device SlotCache Touched Fat Allocation AllocationSearch Regions DirectoryEntry Volume VolumeInv VolumeAlloc Directory FileSystem File FileRead DirSets FileFlush DirWalk DirFree DirLookup PathLookup DirCreate.
Import FileSystemDetails (cluster_length, sectors_per_cluster, cluster_heap_offset, fat_offset).

(** * Specification *)
Section Spec.
Context {cfg : Config} {crates : Crates} {bd : BlockDevice} {fu : Fuel} {Hbd : DeviceOk cfg bd}.
Implicit Types (es : list RawDirEntry).

(** Behind the end of the directory there are only end marks, as the format
    asks for. *)
Definition ends_ok es : Prop := ∀ pre e post, es = pre ++ e :: post → is_end e = true → Forall (λ x, is_end x = true) post.
(** What identifies the set of a directory: its name, up to case. *)
Definition folded (table : UpcaseTable) (s : dir_set) : list Z := upcase table <$> set_units s.
(** A directory in order. *)
Record in_order (fl : Z) (f : FileSystem) (cl : list Z) (l : list dir_set) : Prop := {
  io_search : searchable fl f cl l;
  io_ends : ends_ok (dir_list fl f cl 0 (dir_len f cl));
  io_unique : NoDup (folded (upcase_table f) <$> l);
}.

(** Names that differ at most in case. *)
Definition eq_name (table : UpcaseTable) (name name' : str) : bool :=
  bool_decide (upcase table <$> encode_utf16 name = upcase table <$> encode_utf16 name').

(** A directory as a map from names to details, with one more name in it. *)
Definition with_name (table : UpcaseTable) (name : str) (d : FileDetails.t)
    (m : str → option Z → option FileDetails.t) (name' : str) (attributes : option Z) : option FileDetails.t :=
  if eq_name table name name' then
    if match attributes with Some a => contains (FileDetails.attributes d) a | None => true end then Some d else None
  else m name' attributes.

(** Details as the entries keep them: there is no field for the 10 ms part of
    the access time. *)
Definition stored (d : FileDetails.t) : FileDetails.t := {|
  FileDetails.attributes := FileDetails.attributes d;
  FileDetails.data_length := FileDetails.data_length d;
  FileDetails.valid_data_length := FileDetails.valid_data_length d;
  FileDetails.first_cluster := FileDetails.first_cluster d;
  FileDetails.flags := FileDetails.flags d;
  FileDetails.location := FileDetails.location d;
  FileDetails.secondary_count := FileDetails.secondary_count d;
  FileDetails.accessed := {| packed := packed (FileDetails.accessed d); increment_10ms := 0;
                             utc_offset := utc_offset (FileDetails.accessed d) |};
  FileDetails.modified := FileDetails.modified d;
  FileDetails.created := FileDetails.created d |}.

(** An entry that is neither a file entry nor the end of the directory. *)
Definition between e : Prop := is_end e = false ∧ entry_type e ≠ EntryType.FileAndDirectory.
End Spec.

(** * Lists of entries *)
Section Lists.
Context {cfg : Config} {crates : Crates} {bd : BlockDevice} {fu : Fuel}.
Context {Hcfg : ConfigOk cfg} {Hcr : CratesOk crates} {Hbd : DeviceOk cfg bd}.
Implicit Types (es pre mid post new : list RawDirEntry) (p : Z).

Lemma ends_ok_tail pre post : ends_ok (pre ++ post) → ends_ok post.
Proof. intros H a e b -> He. apply (H (pre ++ a) e b); [by rewrite <-app_assoc|done]. Qed.
Lemma ends_ok_replace pre mid new post :
  Forall (λ x, is_end x = false) pre → Forall (λ x, is_end x = false) new → ends_ok (pre ++ mid ++ post) →
  ends_ok (pre ++ new ++ post).
Proof.
  intros Hp Hn H a e b Hab He. rewrite app_assoc in Hab.
  assert (Hpn : Forall (λ x, is_end x = false) (pre ++ new)) by (by apply Forall_app).
  apply app_eq_inv in Hab as [(k & Ha & Hb)|(k & Ha & Hb)].
  - destruct k as [|x k].
    + cbn in Hb. apply (H (pre ++ mid) e b); [|done]. by rewrite <-app_assoc, Hb.
    + injection Hb as <- _. rewrite Ha in Hpn. apply Forall_app in Hpn as [_ [Hx _]%Forall_cons]. congruence.
  - apply (H (pre ++ mid ++ k) e b); [|done]. by rewrite Hb, !app_assoc.
Qed.

Lemma dir_sets_between xs es : ∀ p, Forall between xs → dir_sets (xs ++ es) p = dir_sets es (p + len xs).
Proof.
  induction xs as [|x xs IH]; intros p Hx; [by rewrite Z.add_0_r|].
  apply Forall_cons in Hx as [[He Hf] Hx]. cbn [app dir_sets]. rewrite He, decide_False, IH by done.
  f_equal. unfold len. cbn [length]. lia.
Qed.
Lemma dir_sets_ends es p : Forall (λ x, is_end x = true) es → dir_sets es p = Some [].
Proof. destruct 1 as [|x es Hx _]; [done|]. cbn [dir_sets]. by rewrite Hx. Qed.

Lemma free_between e : raw_ok e → is_free e = true → is_end e = false → between e.
Proof.
  intros He Hf Hend. split; [done|]. intros Hty. rewrite (is_free_type e He) in Hf. unfold entry_type in Hty.
  by rewrite Hty in Hf.
Qed.
Lemma end_free e : raw_ok e → is_end e = true → is_free e = true.
Proof.
  intros He [Hty%bool_decide_eq_true _]%andb_true_iff. rewrite (is_free_type e He). unfold entry_type in Hty.
  by rewrite Hty.
Qed.
(** Unused entries are passed over. *)
Lemma dir_sets_free mid post : ∀ p, Forall raw_ok mid → Forall (λ x, is_free x = true) mid → ends_ok (mid ++ post) →
  dir_sets (mid ++ post) p = dir_sets post (p + len mid).
Proof.
  induction mid as [|e mid IH]; intros p Hr Hf Hends; [by rewrite Z.add_0_r|].
  apply Forall_cons in Hr as [He Hr]. apply Forall_cons in Hf as [Hfe Hf].
  destruct (is_end e) eqn:Hend.
  - pose proof (Hends [] e (mid ++ post) eq_refl Hend) as Hall. apply Forall_app in Hall as [_ Hpost].
    rewrite (dir_sets_ends post) by done. cbn [app dir_sets]. by rewrite Hend.
  - destruct (free_between e He Hfe Hend) as [_ Hty]. cbn [app dir_sets]. rewrite Hend, decide_False, IH; [|done|done| |done].
    + f_equal. unfold len. cbn [length]. lia.
    + by apply (ends_ok_tail [e]).
Qed.

Lemma free_is_used e : raw_ok e → is_free e = true → is_name e = false ∧ entry_type e ≠ EntryType.StreamExtension.
Proof.
  intros He Hf. rewrite (is_free_type e He) in Hf. unfold is_name, entry_type.
  destruct (EntryType.from (e !!! 0%nat)); try discriminate Hf; by rewrite bool_decide_false.
Qed.
(** A set ends before the next entry that can not be part of one. *)
Lemma parse_set_before pre e0 p e rest rest' s :
  is_name e0 = false → entry_type e0 ≠ EntryType.StreamExtension → parse_set p e (pre ++ e0 :: rest) = Some s →
  parse_set p e (pre ++ rest') = Some s.
Proof.
  intros Hname Hstream Hs.
  destruct (parse_set_Some _ _ _ _ Hs) as (st & ns & _ & Hst & Hty & _ & _ & -> & Hall & Hlen & _).
  destruct pre as [|st' pre]; [by injection Hst as <-|]. injection Hst as ->.
  cbn [app drop] in Hall, Hlen. rewrite drop_0 in Hall, Hlen. set (m := name_count (set_name_length s)) in *.
  assert (Hm : (m ≤ length pre)%nat).
  { destruct (decide (m ≤ length pre)%nat) as [|Hgt]; [done|]. rewrite forallb_forall in Hall.
    rewrite (Hall e0) in Hname; [done|]. apply list_elem_of_In, (list_elem_of_lookup_2 _ (length pre)).
    rewrite lookup_take_lt by lia.
    by rewrite lookup_app_r, Nat.sub_diag by lia. }
  rewrite <-Hs. unfold parse_set. apply option_bind_ext_fun. intros file. cbn [app head mbind option_bind].
  destruct (decide _) as [_|]; [|done]. destruct (parsed (StreamExtensionDirEntry_from st)) as [stream|] eqn:Hpst; [|done].
  cbn [mbind option_bind drop]. cbv zeta.
  assert (Hn : StreamExtensionDirEntry.name_length stream = set_name_length s).
  { revert Hs. unfold parse_set. cbn [app head mbind option_bind]. destruct (parsed (FileDirEntry_from e)); [|done].
    cbn [mbind option_bind]. rewrite decide_True, Hpst by done. cbn [mbind option_bind].
    destruct (_ && _ && _); [|done]. by intros [= <-]. }
  rewrite Hn. fold m. rewrite !drop_0. by rewrite !take_app_le by lia.
Qed.

(** One set goes in where there was room, the others stay. *)
Lemma dir_sets_insert mid post new n s (pre : list RawDirEntry) : ∀ p l,
  Forall (λ x, is_end x = false) pre → Forall raw_ok mid → Forall (λ x, is_free x = true) mid → mid ≠ [] →
  ends_ok (pre ++ mid ++ post) → len new = n → len mid = n →
  dir_sets (new ++ post) (p + len pre) = (l ← dir_sets post (p + len pre + n); Some (s :: l)) →
  dir_sets (pre ++ mid ++ post) p = Some l →
  ∃ l1 l2, l = l1 ++ l2 ∧ dir_sets (pre ++ new ++ post) p = Some (l1 ++ s :: l2).
Proof.
  induction pre as [|e pre IH]; intros p l Hp Hr Hf Hne Hends Hn Hm Hnew Hl.
  - cbn [app] in *. change (len []) with 0 in Hnew. rewrite Z.add_0_r in Hnew.
    rewrite (dir_sets_free mid post p Hr Hf Hends), Hm in Hl. exists [], l. rewrite Hnew, Hl. done.
  - apply Forall_cons in Hp as [He Hp]. cbn [app dir_sets] in Hl |- *. rewrite He in Hl |- *.
    replace (p + len (e :: pre)) with (p + 1 + len pre) in Hnew by (unfold len; cbn [length]; lia).
    pose proof (ends_ok_tail [e] _ Hends) as Hends1.
    destruct (decide (entry_type e = EntryType.FileAndDirectory)) as [Hty|Hty].
    + apply bind_Some in Hl as (s0 & Hs0 & Hl). apply bind_Some in Hl as (l0 & Hl0 & [= <-]).
      destruct (IH (p + 1) l0 Hp Hr Hf Hne Hends1 Hn Hm Hnew Hl0) as (l1 & l2 & -> & Hl').
      exists (s0 :: l1), l2. split; [done|]. destruct mid as [|e0 mid]; [done|].
      apply Forall_cons in Hr as [He0 _]. apply Forall_cons in Hf as [Hf0 _].
      destruct (free_is_used e0 He0 Hf0) as [Hname Hstream].
      rewrite (parse_set_before pre e0 p e (mid ++ post) (new ++ post) s0 Hname Hstream Hs0).
      cbn [mbind option_bind]. by rewrite Hl'.
    + by apply (IH (p + 1) l).
Qed.
End Lists.

(** * The set of a new name *)
Section NewSet.
Context {cfg : Config} {crates : Crates} {bd : BlockDevice} {fu : Fuel}.
Context {Hcfg : ConfigOk cfg} {Hcr : CratesOk crates} {Hbd : DeviceOk cfg bd}.
Implicit Types (name : str) (p : Z).

Definition created_dir_set ts c p name h first file_attributes flags valid_length data_length : dir_set := {|
  set_pos := p;
  set_file := checksummed c (created_file_entry ts (set_count name - 1) file_attributes);
  set_stream := created_stream_entry (len (encode_utf16 name)) h first flags valid_length data_length;
  set_names := name_chunks name |}.

Lemma created_names_units name :
  Forall scalar name → forallb is_name (created_names name) = true ∧ units_of <$> created_names name = name_chunks name.
Proof.
  intros Hs. destruct (name_chunks_ok name Hs) as (Hc & _ & _). unfold created_names. rewrite Forall_forall in Hc. split.
  - apply forallb_forall. intros x (u & -> & Hu)%list_elem_of_In%list_elem_of_fmap.
    destruct (name_entry_raw u (Hc u Hu)) as (_ & Hty & _). by apply bool_decide_eq_true.
  - rewrite <-list_fmap_compose. rewrite <-(list_fmap_id (name_chunks name)) at 2. apply list_fmap_ext.
    intros i u Hu. apply (name_entry_raw u), Hc. by eapply list_elem_of_lookup_2.
Qed.

(** The file entry of the set is followed by entries that belong to it. *)
Lemma created_between name (stream : StreamExtensionDirEntry.t) :
  Forall scalar name → Forall between (StreamExtensionDirEntry.serialize stream :: created_names name).
Proof.
  intros Hs. destruct (created_names_units name Hs) as [Hnames _]. rewrite forallb_forall in Hnames.
  assert (Hsty : entry_type (StreamExtensionDirEntry.serialize stream) = EntryType.StreamExtension) by reflexivity.
  constructor; [split; unfold is_end; by rewrite Hsty|]. apply Forall_forall. intros x Hx%list_elem_of_In.
  specialize (Hnames x Hx). apply bool_decide_eq_true in Hnames. split; unfold is_end; by rewrite Hnames.
Qed.
Lemma created_parse table ts c p name h first file_attributes flags valid_length data_length rest :
  legal_name table name h → new_entry_ok first file_attributes flags valid_length data_length → encoded_typed ts →
  0 ≤ c < 2 ^ 16 →
  let s := created_dir_set ts c p name h first file_attributes flags valid_length data_length in
  parse_set p (FileDirEntry.serialize (set_file s))
    ((StreamExtensionDirEntry.serialize (set_stream s) :: created_names name) ++ rest) = Some s ∧
  set_units s = encode_utf16 name ∧ hash_stored table s.
Proof.
  intros Hn He Hts Hc s. destruct (created_parts _ _ _ _ _ _ _ _ ts c Hn He Hts Hc) as (Hft & Hst & _).
  pose proof (legal_scalar _ _ _ Hn) as Hs. pose proof (legal_length _ _ _ Hn) as Hl.
  destruct (legal_facts _ _ _ Hn) as (Hh & Hpos & _). destruct (created_names_units name Hs) as [Hnames Hunits].
  destruct (name_chunks_ok name Hs) as (_ & Hcount & Htake).
  assert (Hlen : StreamExtensionDirEntry.name_length (set_stream s) = len (encode_utf16 name)) by (apply cast_id; lia).
  assert (Hus : set_units s = encode_utf16 name).
  { unfold set_units, set_name_length. rewrite Hlen. exact Htake. }
  split; [|split; [done|unfold hash_stored; rewrite Hus; exact Hh]].
  unfold parse_set. rewrite file_entry_roundtrip by done. cbn [parsed mbind option_bind app head].
  rewrite decide_True by reflexivity. rewrite stream_entry_roundtrip by done. cbn [parsed mbind option_bind].
  rewrite Hlen. cbn [drop]. rewrite drop_0, take_app_length' by (unfold created_names; by rewrite length_fmap).
  rewrite (proj2 (Z.ltb_lt _ _)), Hnames, bool_decide_true by (done || unfold created_names; by rewrite length_fmap).
  cbn [andb]. by rewrite Hunits.
Qed.

(** The directory reads the new set back. *)
Lemma new_set_parses table ts p name h first file_attributes flags valid_length data_length post :
  legal_name table name h → new_entry_ok first file_attributes flags valid_length data_length → encoded_typed ts →
  ∃ c, let new := new_set ts name h first file_attributes flags valid_length data_length in
  let s := created_dir_set ts c p name h first file_attributes flags valid_length data_length in
  len new = set_count name ∧ Forall raw_ok new ∧ Forall (λ x, is_end x = false) new ∧
  dir_sets (new ++ post) p = (l ← dir_sets post (p + set_count name); Some (s :: l)) ∧
  set_units s = encode_utf16 name ∧ hash_stored table s.
Proof.
  intros Hn He Hts. unfold new_set, created_set. cbv zeta.
  set (file := created_file_entry _ _ _). set (stream := created_stream_entry _ _ _ _ _ _).
  set (names := created_names name). set (rest := StreamExtensionDirEntry.serialize stream :: names).
  set (c := spec_checksum _). exists c. assert (Hc : 0 ≤ c < 2 ^ 16) by apply spec_checksum_range.
  destruct (created_parts _ _ _ _ _ _ _ _ ts c Hn He Hts Hc) as (_ & _ & Hfr & Hsr & Hnr & Hnl).
  destruct (created_parse table ts c p name h first file_attributes flags valid_length data_length post Hn He Hts Hc)
    as (Hset & Hus & Hh). change (parse_set p (FileDirEntry.serialize (checksummed c file)) (rest ++ post) = Some (created_dir_set
    ts c p name h first file_attributes flags valid_length data_length)) in Hset.
  pose proof (created_between name stream (legal_scalar _ _ _ Hn)) as Hbet. fold names rest in Hbet.
  assert (Hends : is_end (FileDirEntry.serialize (checksummed c file)) = false) by reflexivity.
  assert (Hl : len rest = set_count name - 1) by (unfold len, rest in *; cbn [Datatypes.length]; fold names in Hnl; lia).
  split_and!; [..|done|done].
  - unfold len in *. cbn [Datatypes.length]. lia.
  - constructor; [done|]. by constructor.
  - constructor; [done|]. eapply Forall_impl; [exact Hbet|]. by intros x [? _].
  - cbn [app dir_sets]. rewrite Hends, decide_True by reflexivity. rewrite Hset. cbn [mbind option_bind].
    rewrite dir_sets_between by done. by replace (p + 1 + len rest) with (p + set_count name) by lia.
Qed.
End NewSet.

(** * The entries afterwards *)
Section Volume.
Context {cfg : Config} {crates : Crates} {bd : BlockDevice} {fu : Fuel}.
Context {Hcfg : ConfigOk cfg} {Hcr : CratesOk crates} {Hbd : DeviceOk cfg bd}.
Implicit Types (f : FileSystem) (t : FileDirty) (cl : list Z) (name : str) (p : Z).

(** No cluster comes twice in a directory. *)
Lemma directory_NoDup fl f cl : directory fl f cl → NoDup cl.
Proof.
  intros Hdir. apply NoDup_alt. assert (Hlt : ∀ i j x, (i < j)%nat → cl !! i = Some x → cl !! j = Some x → False).
  { intros i j x Hij Hi Hj.
    assert (Hd : ∀ d y, cl !! (j + d)%nat = Some y → cl !! (i + d)%nat = Some y).
    { induction d as [|d IH]; intros y Hy; [rewrite Nat.add_0_r in *; congruence|].
      destruct (lookup_lt_is_Some_2 cl (j + d)) as [a Ha]; [apply lookup_lt_Some in Hy; lia|].
      destruct (lookup_lt_is_Some_2 cl (i + S d)) as [b Hb]; [apply lookup_lt_Some in Hy; lia|].
      rewrite Nat.add_succ_r in Hy, Hb |- *. pose proof (dir_linked _ _ _ Hdir _ _ _ Ha Hy) as Hs.
      rewrite (dir_linked _ _ _ Hdir _ _ _ (IH a Ha) Hb) in Hs. congruence. }
    apply lookup_lt_Some in Hj. destruct (lookup_lt_is_Some_2 cl (pred (length cl))) as [l Hl]; [lia|].
    assert (Hlast : last cl = Some l) by (by rewrite last_lookup).
    specialize (Hd (pred (length cl) - j)%nat l). replace (j + _)%nat with (pred (length cl)) in Hd by lia.
    destruct (lookup_lt_is_Some_2 cl (S (i + (pred (length cl) - j)))) as [b Hb]; [lia|].
    pose proof (dir_linked _ _ _ Hdir _ _ _ (Hd Hl) Hb) as Hs. by rewrite (dir_last _ _ _ Hdir l Hlast) in Hs. }
  intros i j x Hi Hj. destruct (Nat.lt_trichotomy i j) as [H|[H|H]]; [|done|]; exfalso; eauto.
Qed.

Lemma run_sectors_data f id k n x :
  data_cluster f id → 0 ≤ k → k + n ≤ EPC f → entry_sectors (cluster_sector f id) k n x → data_region f x.
Proof. intros Hid Hk Hn (j & Hj & ->). apply cluster_entry_region; [done|unfold EPC in Hn; lia]. Qed.

Lemma directory_written fl f f' cl (P : Z → Prop) :
  vol_inv fl f → vol_step fl P f f' → (∀ x, P x → data_region f x) → directory fl f cl → directory fl f' cl.
Proof.
  intros Hv Hst HP [Hd Hl He Hs].
  assert (Hfat : ∀ id, data_cluster f id → fat_entry fl f' id = fat_entry fl f id).
  { intros id [Hid _]. apply (fat_entry_step fl P f f'); [done|done|done|]. intros Hx%HP.
    pose proof (regions_disjoint fl f (fat_sector f id) (vol_geometry _ _ Hv)) as (Hdis & _).
    apply Hdis; [by apply fat_sector_region; [apply Hv|]|done]. }
  split.
  - eapply Forall_impl; [exact Hd|]. intros id. by apply (data_cluster_step fl P f f').
  - intros i a b Ha Hb. rewrite Hfat by (by eapply Forall_lookup_1). by apply (Hl i a b).
  - intros l Hla. rewrite Hfat; [by apply He|]. rewrite last_lookup in Hla. by eapply Forall_lookup_1.
  - unfold dir_len. by rewrite (EPC_step fl _ f f' Hst).
Qed.

(** Entry by entry. *)
Lemma run_written_at fl f t cl p es f' t' j :
  vol_inv fl f → directory fl f cl → 0 ≤ p → p mod EPC f + len es ≤ EPC f → p + len es ≤ dir_len f cl →
  run_written fl f t (dir_cluster f cl p) (p mod EPC f) es f' t' → 0 ≤ j < dir_len f cl →
  if decide (p ≤ j < p + len es) then es !! Z.to_nat (j - p) = Some (dir_at fl f' cl j)
  else dir_at fl f' cl j = dir_at fl f cl j.
Proof.
  intros Hv Hdir Hp Hcap Hlen [Hop Hes Hkept] Hj.
  pose proof (op_step _ _ _ _ _ _ Hop) as Hst. pose proof (EPC_pos fl f Hv) as HE.
  pose proof (dir_at_region fl f cl j Hv (dir_data _ _ _ Hdir) Hj) as Hreg.
  destruct (dir_cluster_ok fl f cl j Hv (dir_data _ _ _ Hdir) Hj) as (Hjc & _ & Hjm).
  assert (Hat : dir_at fl f' cl j = dir_entry fl f' (cluster_sector f (dir_cluster f cl j)) (j mod EPC f)).
  { unfold dir_at, dir_cluster, cluster_sector. by rewrite (EPC_step fl _ f f' Hst), (step_fs _ _ _ _ Hst). }
  assert (Hnz : EPC f ≠ 0) by lia. pose proof (Z.div_mod p (EPC f) Hnz) as Hpd. pose proof (Z.div_mod j (EPC f) Hnz) as Hjd.
  destruct (decide (j / EPC f = p / EPC f)) as [Hq|Hq].
  - assert (Hjk : j mod EPC f = p mod EPC f + (j - p)) by (rewrite Hq in Hjd; lia).
    assert (Hdc : dir_cluster f cl j = dir_cluster f cl p) by (unfold dir_cluster; by rewrite Hq).
    rewrite Hdc in Hreg, Hat. rewrite Hat, Hjk. destruct (decide _) as [Hin|Hout].
    + rewrite <-Hes at 1. unfold set_entries. rewrite list_lookup_fmap, lookup_seqZ_lt by lia. cbn. do 2 f_equal. lia.
    + unfold dir_at. rewrite Hdc, Hjk. apply Hkept; [lia|lia|by rewrite <-Hjk].
  - destruct (decide _) as [Hin|Hout].
    { exfalso. apply Hq. symmetry. apply (Z.div_unique_pos _ _ _ (p mod EPC f + (j - p))); [|lia].
      pose proof (Z.mod_pos_bound p (EPC f)). lia. }
    rewrite Hat. unfold dir_at, dir_entry. f_equal. pose proof (len_nonneg es).
    rewrite (step_seen _ _ _ _ Hst); [done|by right; right|].
    intros (i & Hi & Heq). destruct (decide (len es = 0)) as [|Hne]; [lia|].
    destruct (dir_cluster_ok fl f cl p Hv (dir_data _ _ _ Hdir)) as (Hpc & _ & Hpm); [lia|].
    destruct (cluster_sector_unique f (dir_cluster f cl p) (i / EPS) (dir_cluster f cl j) (j mod EPC f / EPS)) as [Hid _];
      [| |done|].
    1, 2: unfold EPC in *; pose proof EPS_range; split; [apply Z.div_pos; lia|apply Z.div_lt_upper_bound; lia].
    rewrite Hid in Hjc. pose proof (proj1 (NoDup_alt _) (directory_NoDup fl f cl Hdir) _ _ _ Hjc Hpc).
    assert (0 ≤ j / EPC f ∧ 0 ≤ p / EPC f) by (split; apply Z.div_pos; lia). lia.
Qed.

(** The list of the entries. *)
Lemma run_written_list fl f t cl p es f' t' :
  vol_inv fl f → directory fl f cl → 0 ≤ p → p mod EPC f + len es ≤ EPC f → p + len es ≤ dir_len f cl →
  run_written fl f t (dir_cluster f cl p) (p mod EPC f) es f' t' →
  let N := dir_len f cl in let n := len es in
  dir_list fl f cl 0 N = dir_list fl f cl 0 p ++ dir_list fl f cl p n ++ dir_list fl f cl (p + n) (N - p - n) ∧
  dir_list fl f' cl 0 N = dir_list fl f cl 0 p ++ es ++ dir_list fl f cl (p + n) (N - p - n).
Proof.
  intros Hv Hdir Hp Hcap Hlen Hw N n. pose proof (len_nonneg es).
  assert (Hsplit : ∀ g, dir_list fl g cl 0 N =
    dir_list fl g cl 0 p ++ dir_list fl g cl p n ++ dir_list fl g cl (p + n) (N - p - n)).
  { intros g. unfold dir_list. rewrite <-!fmap_app. f_equal.
    replace N with (p + (n + (N - p - n))) at 1 by lia. unfold n, N in *. rewrite !seqZ_app by lia.
    by rewrite Z.add_0_l. }
  split; [apply Hsplit|]. rewrite Hsplit.
  pose proof (λ j, run_written_at fl f t cl p es f' t' j Hv Hdir Hp Hcap Hlen Hw) as Hat. fold n N in Hat.
  assert (Hout : ∀ a m, 0 ≤ a → a + m ≤ N → (a + m ≤ p ∨ p + n ≤ a) → dir_list fl f' cl a m = dir_list fl f cl a m).
  { intros a m Ha Hm Hor. apply list_fmap_ext. intros i x [-> Hi]%lookup_seqZ.
    specialize (Hat (a + Z.of_nat i) ltac:(lia)). rewrite decide_False in Hat by lia. exact Hat. }
  rewrite (Hout 0 p), (Hout (p + n) (N - p - n)) by (unfold n, N in *; lia). f_equal. f_equal.
  apply list_eq. intros i. destruct (decide (Z.of_nat i < n)) as [Hi|Hi].
  - specialize (Hat (p + Z.of_nat i) ltac:(unfold n, N in *; lia)). rewrite decide_True in Hat by lia.
    replace (Z.to_nat (p + Z.of_nat i - p)) with i in Hat by lia. rewrite Hat. unfold dir_list.
    by rewrite list_lookup_fmap, lookup_seqZ_lt by lia.
  - rewrite !lookup_ge_None_2; [done|unfold n, len in Hi; lia|unfold dir_list; rewrite length_fmap, length_seqZ; lia].
Qed.
End Volume.

(** * The directory as a map *)
Section Map.
Context {cfg : Config} {crates : Crates} {bd : BlockDevice} {fu : Fuel}.
Context {Hcfg : ConfigOk cfg} {Hcr : CratesOk crates} {Hbd : DeviceOk cfg bd}.
Implicit Types (f : FileSystem) (t : FileDirty) (cl : list Z) (name : str) (p : Z).

Lemma find_insert {A} (P : A → bool) l1 s l2 :
  List.find P (l1 ++ s :: l2) = (if P s then match List.find P l1 with Some x => Some x | None => Some s end
                                 else List.find P (l1 ++ l2)).
Proof.
  induction l1 as [|x l1 IH]; cbn [app List.find]; [by destruct (P s)|]. destruct (P x); [by destruct (P s)|exact IH].
Qed.

Lemma details_created ts c p name h first file_attributes flags valid_length data_length (g : Z → Location.t) :
  details_of g (created_dir_set ts c p name h first file_attributes flags valid_length data_length) =
  stored (created_details ts (g p) (set_count name - 1) first file_attributes flags valid_length data_length).
Proof. destruct ts. reflexivity. Qed.

(** No end of the directory before the first room. *)
Lemma before_room fl f cl n p :
  vol_inv fl f → directory fl f cl → ends_ok (dir_list fl f cl 0 (dir_len f cl)) → 0 ≤ n → first_room fl f cl n p →
  Forall (λ x, is_end x = false) (dir_list fl f cl 0 p).
Proof.
  intros Hv Hdir Hends Hn [(Hp & Hpn & _) Hfirst _]. apply Forall_fmap, Forall_forall. intros q Hq%elem_of_seqZ. cbn.
  destruct (is_end (dir_at fl f cl q)) eqn:Hend; [exfalso|done].
  assert (Hat : ∀ j, 0 ≤ j < dir_len f cl → dir_list fl f cl 0 (dir_len f cl) !! Z.to_nat j = Some (dir_at fl f cl j)).
  { intros j Hj. unfold dir_list. rewrite list_lookup_fmap, lookup_seqZ_lt by lia. cbn. by rewrite Z2Nat.id by lia. }
  pose proof (Hat q ltac:(lia)) as Hqa. apply list_elem_of_split_length in Hqa as (pre & post & Heq & Hpre).
  pose proof (Hends pre _ post Heq Hend) as Hpost.
  apply (Hfirst q); [lia|]. unfold free_from. split_and!; [lia|lia|]. intros j Hj.
  apply end_free; [apply (dir_at_raw fl f cl j Hv (dir_data _ _ _ Hdir)); lia|].
  destruct (decide (j = q)) as [->|Hne]; [done|]. pose proof (Hat j ltac:(lia)) as Hja. rewrite Heq in Hja.
  rewrite lookup_app_r in Hja by lia. replace (Z.to_nat j - length pre)%nat with (S (Z.to_nat (j - q) - 1)) in Hja by lia.
  by apply (Forall_lookup_1 _ _ _ _ Hpost Hja).
Qed.
End Map.

(** * Theorems *)
Section Theorems.
Context {cfg : Config} {crates : Crates} {bd : BlockDevice} {fu : Fuel}.
Context {Hcfg : ConfigOk cfg} {Hcr : CratesOk crates} {Hbd : DeviceOk cfg bd}.
Implicit Types (f : FileSystem) (t : FileDirty) (cl : list Z) (name : str) (p : Z).

Lemma folded_none table name l :
  List.find (same_name table name) l = None → upcase table <$> encode_utf16 name ∉ folded table <$> l.
Proof.
  intros Hnone (x & Heq & Hx)%list_elem_of_fmap. apply list_elem_of_In in Hx. pose proof (find_none _ _ Hnone x Hx) as Hn.
  unfold same_name in Hn. rewrite bool_decide_true in Hn; [done|]. by symmetry.
Qed.
Lemma unique_insert table name l1 s l2 :
  set_units s = encode_utf16 name → List.find (same_name table name) (l1 ++ l2) = None →
  NoDup (folded table <$> l1 ++ l2) → NoDup (folded table <$> l1 ++ s :: l2).
Proof.
  intros Hus Hnone%folded_none Hnd. rewrite fmap_app in *. rewrite fmap_cons. unfold folded at 2. rewrite Hus.
  rewrite <-Permutation_middle. by apply NoDup_cons.
Qed.

(** In the list of the sets, one set goes in. *)
Lemma insert_set_ok fl f t cl l p ts name h first file_attributes flags valid_length data_length f' t' :
  vol_inv fl f → in_order fl f cl l → legal_name (upcase_table f) name h →
  new_entry_ok first file_attributes flags valid_length data_length → encoded_typed ts →
  first_room fl f cl (set_count name) p → List.find (same_name (upcase_table f) name) l = None →
  run_written fl f t (dir_cluster f cl p) (p mod EPC f)
    (new_set ts name h first file_attributes flags valid_length data_length) f' t' →
  ∃ c l1 l2, let s := created_dir_set ts c p name h first file_attributes flags valid_length data_length in
    l = l1 ++ l2 ∧ in_order fl f' cl (l1 ++ s :: l2) ∧ set_units s = encode_utf16 name.
Proof.
  intros Hv [[Hdir Hne Hfuel Hl Hh] Hends Huniq] Hn He Hts Hroom Hnone Hw. pose proof Hroom as [(Hp & Hpn & Hfree) _ Hcl].
  assert (Hc2 : 2 ≤ set_count name) by (unfold set_count; lia).
  destruct (new_set_parses (upcase_table f) ts p name h first file_attributes flags valid_length data_length
    (dir_list fl f cl (p + set_count name) (dir_len f cl - p - set_count name)) Hn He Hts)
    as (c & Hnew & Hraw & Hnoend & Hsets & Hunits & Hstored).
  set (new := new_set _ _ _ _ _ _ _ _) in *. set (s := created_dir_set _ _ _ _ _ _ _ _ _ _) in *.
  destruct (run_written_list fl f t cl p new f' t' Hv Hdir Hp) as [Hes Hes']; [lia|lia|done|]. rewrite Hnew in Hes, Hes'.
  pose proof (op_step _ _ _ _ _ _ (run_op _ _ _ _ _ _ _ _ Hw)) as Hst.
  assert (Hlen : dir_len f' cl = dir_len f cl) by (unfold dir_len; by rewrite (EPC_step fl _ f f' Hst)).
  assert (Hc0 : 0 ≤ set_count name) by lia. pose proof (before_room fl f cl _ p Hv Hdir Hends Hc0 Hroom) as Hpre.
  assert (Hlens : ∀ a n, 0 ≤ n → len (dir_list fl f cl a n) = n)
    by (intros a n Hn0; unfold dir_list, len; rewrite length_fmap, length_seqZ; lia).
  destruct (dir_cluster_ok fl f cl p Hv (dir_data _ _ _ Hdir)) as (_ & Hid & Hm); [lia|].
  rewrite Hes in Hl, Hends. destruct (dir_sets_insert (dir_list fl f cl p (set_count name))
    (dir_list fl f cl (p + set_count name) (dir_len f cl - p - set_count name)) new (set_count name) s
    (dir_list fl f cl 0 p) 0 l Hpre) as (l1 & l2 & -> & Hl'); [..|done|].
  - apply Forall_fmap, Forall_forall. intros j Hj%elem_of_seqZ. apply (dir_at_raw fl f cl j Hv (dir_data _ _ _ Hdir)). lia.
  - apply Forall_fmap, Forall_forall. intros j Hj%elem_of_seqZ. apply Hfree. lia.
  - intros Hnil%(f_equal len). rewrite Hlens in Hnil by lia. change (len []) with 0 in Hnil. lia.
  - done.
  - done.
  - by rewrite Hlens by lia.
  - by rewrite Hlens, Z.add_0_l by lia.
  - apply Forall_app in Hh as [Hh1 Hh2]. exists c, l1, l2. split; [done|]. split; [|done]. split.
    + split; [|done|by rewrite Hlen|by rewrite Hlen, Hes'|].
      * eapply directory_written; [exact Hv|exact Hst| |done]. intros x Hx.
        eapply run_sectors_data; [exact Hid|apply Hm| |exact Hx]. lia.
      * rewrite (step_table _ _ _ _ Hst). apply Forall_app. split; [done|by constructor].
    + rewrite Hlen, Hes'. eapply ends_ok_replace; [done|done|exact Hends].
    + rewrite (step_table _ _ _ _ Hst). by apply (unique_insert _ name).
Qed.

(** In the map, one name. *)
Lemma insert_name_ok f f' cl l1 l2 s name d :
  (∀ q, place f' cl q = place f cl q) → upcase_table f' = upcase_table f → set_units s = encode_utf16 name →
  details_of (place f cl) s = d → List.find (same_name (upcase_table f) name) (l1 ++ l2) = None →
  ∀ name' attributes, in_directory f' cl (l1 ++ s :: l2) name' attributes =
    with_name (upcase_table f) name d (in_directory f cl (l1 ++ l2)) name' attributes.
Proof.
  intros Hpl Htab Hus Hd Hnone name' attributes. unfold in_directory, with_name. rewrite Htab, find_insert.
  assert (Hsame : same_name (upcase_table f) name' s = eq_name (upcase_table f) name name')
    by (unfold same_name, eq_name; by rewrite Hus).
  assert (Hattr : has_attributes attributes s = match attributes with Some a => contains (FileDetails.attributes d) a | None => true end)
    by (subst d; destruct attributes; reflexivity).
  assert (Hplace : ∀ x, details_of (place f' cl) x = details_of (place f cl) x)
    by (intros x; unfold details_of; by rewrite Hpl).
  rewrite Hsame. destruct (eq_name (upcase_table f) name name') eqn:Heq; cbn [andb];
    [|apply option_fmap_ext; exact Hplace].
  apply bool_decide_eq_true in Heq.
  assert (Hno : ∀ ll, (∀ x, In x ll → In x (l1 ++ l2)) →
    List.find (λ x, same_name (upcase_table f) name' x && has_attributes attributes x) ll = None).
  { intros ll Hin. destruct (List.find _ ll) as [x|] eqn:Hx; [|done]. apply find_some in Hx as [Hx [Hsn _]%andb_true_iff].
    pose proof (find_none _ _ Hnone x (Hin x Hx)) as Hn. unfold same_name in Hsn, Hn. rewrite Heq in Hn. congruence. }
  rewrite (Hno l1) by (intros x Hx; apply in_or_app; by left). rewrite (Hno (l1 ++ l2)) by done. rewrite Hattr.
  destruct (match attributes with Some a => _ | None => true end); [|done]. cbn. by rewrite Hplace, Hd.
Qed.

(** Creating an entry: the directory, as a map from names to details, gets
    the name, everything else stays. *)
Lemma create_insert_ok fl f t cl l p name h first file_attributes flags valid_length data_length :
  vol_inv fl f → dirty_ok t → clock_ok f → in_order fl f cl l → legal_name (upcase_table f) name h →
  new_entry_ok first file_attributes flags valid_length data_length → first_room fl f cl (set_count name) p →
  List.find (same_name (upcase_table f) name) l = None →
  ∃ ts f' t' l', let d := created_details ts (place f cl p) (set_count name - 1) first file_attributes flags
                            valid_length data_length in
    create_file_dir_entry_at name (hd 0 cl) first file_attributes flags valid_length data_length (t, f) =
      ((t', f'), Ok d) ∧ in_order fl f' cl l' ∧
    (∀ name' attributes, in_directory f' cl l' name' attributes =
      with_name (upcase_table f) name (stored d) (in_directory f cl l) name' attributes) ∧
    vol_op fl (entry_sectors (cluster_sector f (dir_cluster f cl p)) (p mod EPC f) (set_count name)) t f t' f' ∧
    ∃ x l1 l2, l = l1 ++ l2 ∧ l' = l1 ++ x :: l2 ∧ set_units x = encode_utf16 name ∧ set_pos x = p ∧
      set_name_length x = len (encode_utf16 name) ∧ details_of (place f cl) x = stored d.
Proof.
  intros Hv Ht Hc Hio Hn He Hroom Hnone. pose proof Hio as [[Hdir Hne Hfuel _ _] _ _].
  destruct (create_ok fl f t cl p name h first file_attributes flags valid_length data_length Hv Ht Hc Hdir Hne Hfuel
    Hn He Hroom) as (ts & f' & t' & Hrun & Hts & Hw).
  destruct (insert_set_ok fl f t cl l p ts name h first file_attributes flags valid_length data_length f' t'
    Hv Hio Hn He Hts Hroom Hnone Hw) as (c & l1 & l2 & -> & Hio' & Hus).
  exists ts, f', t'. eexists. split; [exact Hrun|]. split; [exact Hio'|].
  pose proof (op_step _ _ _ _ _ _ (run_op _ _ _ _ _ _ _ _ Hw)) as Hst. 
  pose proof (legal_length _ _ _ Hn). pose proof (len_nonneg (encode_utf16 name)). split; [|split].
  3: { eexists _, l1, l2. split_and!; [done|done|exact Hus|done| |apply details_created]. apply (cast_id u8). lia. }
  - apply insert_name_ok; [intros q; apply (place_step fl _ f f' cl q Hst)|apply (step_table _ _ _ _ Hst)|done|
      apply details_created|done].
  - replace (set_count name) with (len (new_set ts name h first file_attributes flags valid_length data_length)) at 1;
      [apply Hw|]. by destruct (new_set_parses (upcase_table f) ts p name h first file_attributes flags valid_length
        data_length [] Hn He Hts) as (? & ? & _).
Qed.

(** C10 - creating an entry, when there is room for it in a cluster of the
    directory and the name is new: the call succeeds, the sets of the directory
    stay in order (with no name twice), and the directory as a map from names (up to case) to details
    is the one before with exactly this name added, mapped to the details that
    the call returned; every other name finds what it found before.  Only
    sectors of the new entries change, and all of them are in the dirty list. *)
Theorem create_adds_name fl f t cl l p name h first file_attributes flags valid_length data_length :
  vol_inv fl f → dirty_ok t → clock_ok f → in_order fl f cl l → legal_name (upcase_table f) name h →
  new_entry_ok first file_attributes flags valid_length data_length → first_room fl f cl (set_count name) p →
  List.find (same_name (upcase_table f) name) l = None →
  ∃ ts f' t' l', let d := created_details ts (place f cl p) (set_count name - 1) first file_attributes flags
                            valid_length data_length in
    create_file_dir_entry_at name (hd 0 cl) first file_attributes flags valid_length data_length (t, f) =
      ((t', f'), Ok d) ∧ in_order fl f' cl l' ∧
    (∀ name' attributes, in_directory f' cl l' name' attributes =
      with_name (upcase_table f) name (stored d) (in_directory f cl l) name' attributes) ∧
    vol_op fl (entry_sectors (cluster_sector f (dir_cluster f cl p)) (p mod EPC f) (set_count name)) t f t' f'.
Proof.
  intros Hv Ht Hc Hio Hn He Hroom Hnone.
  destruct (create_insert_ok fl f t cl l p name h first file_attributes flags valid_length data_length
    Hv Ht Hc Hio Hn He Hroom Hnone) as (ts & f' & t' & l' & Hrun & Hio' & Hmap & Hop & _).
  by exists ts, f', t', l'.
Qed.

(** An entry that was created is found: looking the name up afterwards,
    in any case, answers with the details that creating it returned (the access
    time without its 10 ms part, which entries do not keep). *)
Theorem created_name_is_found fl f t cl l p name h first file_attributes flags valid_length data_length name' :
  vol_inv fl f → dirty_ok t → clock_ok f → in_order fl f cl l → table_ok (upcase_table f) →
  legal_name (upcase_table f) name h → new_entry_ok first file_attributes flags valid_length data_length →
  first_room fl f cl (set_count name) p → List.find (same_name (upcase_table f) name) l = None →
  name_ok (upcase_table f) name' → eq_name (upcase_table f) name name' = true →
  ∃ d t' f' filter f'',
    create_file_dir_entry_at name (hd 0 cl) first file_attributes flags valid_length data_length (t, f) =
      ((t', f'), Ok d) ∧
    ExactNameFilter name' (upcase_table f') None = Ok filter ∧
    find_in_directory (hd 0 cl) filter f' = (f'', Ok (Some (stored d))).
Proof.
  intros Hv Ht Hc Hio Htab Hn He Hroom Hnone Hn' Heq.
  destruct (create_insert_ok fl f t cl l p name h first file_attributes flags valid_length data_length
    Hv Ht Hc Hio Hn He Hroom Hnone) as (ts & f' & t' & l' & Hrun & [Hsb _ _] & Hmap & Hop & _).
  pose proof (step_table _ _ _ _ (op_step _ _ _ _ _ _ Hop)) as Htt.
  destruct (search_ok fl f' cl l' name' None (op_inv _ _ _ _ _ _ Hop)) as (filter & f'' & Hf & Hfind & _);
    [by rewrite Htt|done|by rewrite Htt|].
  eexists _, t', f', filter, f''. split; [exact Hrun|]. split; [done|]. rewrite Hfind, Hmap. unfold with_name.
  by rewrite Heq.
Qed.
End Theorems.

(** * A new file *)
Section Sample.
#[local] Existing Instance debug_build.
#[local] Existing Instance dummy_device.
#[local] Existing Instance reference_crates.
#[local] Existing Instance reference_crates_ok.
#[local] Existing Instance debug_build_ok.
#[local] Instance sample_insert_device_ok : DeviceOk debug_build dummy_device := blank_ok.
#[local] Instance sample_insert_fuel : Fuel := 40%nat.

Fixpoint ends_okb (es : list RawDirEntry) : bool :=
  match es with
  | [] => true
  | e :: es => if is_end e then forallb is_end es else ends_okb es
  end.
Lemma ends_okb_ok es : ends_okb es = true → ends_ok es.
Proof.
  induction es as [|x es IH]; intros Hb pre e post Heq He; [by destruct pre|]. cbn in Hb.
  destruct pre as [|y pre]; injection Heq as -> ->.
  - rewrite He in Hb. apply Forall_forall. intros z Hz. rewrite forallb_forall in Hb. by apply Hb, list_elem_of_In.
  - destruct (is_end y); [|by apply (IH Hb pre e post)]. rewrite forallb_app in Hb.
    apply andb_true_iff in Hb as [_ Hb]. cbn in Hb. apply andb_true_iff in Hb as [_ Hb].
    apply Forall_forall. intros z Hz. rewrite forallb_forall in Hb. by apply Hb, list_elem_of_In.
Qed.

Definition sample_sets : list dir_set := default [] (dir_sets (dir_list 1 sample_dir_volume [3; 7] 0 32) 0).
Lemma sample_in_order : in_order 1 sample_dir_volume [3; 7] sample_sets.
Proof.
  assert (Hlen : dir_len sample_dir_volume [3; 7] = 32) by (vm_compute; reflexivity).
  split; [split| |].
  - exact sample_directory.
  - done.
  - rewrite Hlen. reflexivity.
  - rewrite Hlen. unfold sample_sets. destruct (dir_sets _ _) as [l|] eqn:Hl; [reflexivity|]. vm_compute in Hl. discriminate Hl.
  - unfold sample_sets. destruct (dir_sets _ _) as [l|] eqn:Hl; vm_compute in Hl; [|discriminate Hl].
    injection Hl as <-. repeat constructor.
  - rewrite Hlen. apply ends_okb_ok. vm_compute. reflexivity.
  - apply (bool_decide_unpack _). vm_compute. exact I.
Qed.
Definition sample_new_name : str := of_string "New file.txt".
Lemma sample_legal : legal_name UpcaseTable_default sample_new_name
  (spec_name_hash UpcaseTable_default (encode_utf16 sample_new_name) 0).
Proof.
  split; [apply default_table_ok|apply (bool_decide_unpack _); vm_compute; exact I|vm_compute; congruence|vm_compute; reflexivity].
Qed.
Lemma sample_room : first_room 1 sample_dir_volume [3; 7] (set_count sample_new_name) 0.
Proof.
  assert (Hlen : dir_len sample_dir_volume [3; 7] = 32) by (vm_compute; reflexivity).
  assert (Hn : set_count sample_new_name = 3) by (vm_compute; reflexivity). rewrite Hn. split.
  - unfold free_from. rewrite Hlen. split_and!; [lia|lia|]. intros j Hj.
    assert (Hcase : j = 0 ∨ j = 1 ∨ j = 2) by lia. destruct Hcase as [->|[->| ->]]; vm_compute; reflexivity.
  - intros q Hq (Hq0 & _). lia.
  - vm_compute. congruence.
Qed.
Lemma sample_entry_ok : new_entry_ok 0 0x20 3 0 0.
Proof. split; unfold byte_ok; split_and?; lia || reflexivity. Qed.

(** The file and the one that was there are both found, in any case. *)
Lemma create_adds_name_witness :
  ∃ d t' f' l', create_file_dir_entry_at sample_new_name 3 0 0x20 3 0 0 (FileDirty_new, sample_dir_volume) = ((t', f'), Ok d) ∧
    FileDetails.location d = {| Location.sector_id := 3; Location.dir_entry_offset := 0 |} ∧
    in_directory f' [3; 7] l' (of_string "NEW FILE.TXT") (Some Archive) = Some (stored d) ∧
    FileDetails.first_cluster <$> in_directory f' [3; 7] l' (of_string "ferris is A CRAB.TXT") None = Some 5 ∧
    in_directory f' [3; 7] l' (of_string "other.txt") None = None.
Proof.
  destruct (create_adds_name 1 sample_dir_volume FileDirty_new [3; 7] sample_sets 0 sample_new_name
    (spec_name_hash UpcaseTable_default (encode_utf16 sample_new_name) 0) 0 0x20 3 0 0 sample_dir_inv)
    as (ts & f' & t' & l' & Hrun & _ & Hmap & _);
    [split; repeat constructor|exact I|exact sample_in_order|exact sample_legal|exact sample_entry_ok|exact sample_room|
     vm_compute; reflexivity|].
  eexists _, t', f', l'. split; [exact Hrun|]. split; [vm_compute; reflexivity|]. rewrite !Hmap. clear.
  split_and!; vm_compute; reflexivity.
Defined.

Lemma created_name_is_found_witness :
  ∃ d t' f' filter f'', create_file_dir_entry_at sample_new_name 3 0 0x20 3 0 0 (FileDirty_new, sample_dir_volume) =
      ((t', f'), Ok d) ∧
    ExactNameFilter (of_string "NEW FILE.TXT") (upcase_table f') None = Ok filter ∧
    find_in_directory 3 filter f' = (f'', Ok (Some (stored d))).
Proof.
  apply (created_name_is_found 1 sample_dir_volume FileDirty_new [3; 7] sample_sets 0 sample_new_name
    (spec_name_hash UpcaseTable_default (encode_utf16 sample_new_name) 0) 0 0x20 3 0 0 (of_string "NEW FILE.TXT") sample_dir_inv);
    [split; repeat constructor|exact I|exact sample_in_order|apply default_table_ok|exact sample_legal|exact sample_entry_ok|
     exact sample_room|vm_compute; reflexivity| |vm_compute; reflexivity].
  split; [apply (bool_decide_unpack _); vm_compute; exact I|]. split; [vm_compute; reflexivity|].
  eexists. vm_compute. reflexivity.
Defined.
End Sample.
