(* ===== verification/FileGrow.v ===== *)
(** * Growing a file: its clusters, its chain and the FAT agree

    [update_chain] and [allocate_clusters_for] of src/file.rs.  A file's
    clusters are recorded twice: in the open file ([chain]) and on the volume,
    either as one contiguous run (the [NoFatChain] flag) or as a chain in the
    FAT ([stored_ok]).  [grow_inv] says that both agree, and that the bitmap
    marks the file's clusters as taken.  Growing keeps it: a contiguous file
    stays contiguous as long as the new run is adjacent, and otherwise the
    chain is written to the FAT from its first cluster to its end marker. *)

From S2P Require Import Prelude Text Crates Errors Utils Timestamp BootSector Device SlotCache Touched Fat Allocation AllocationSearch Regions Volume VolumeInv VolumeAlloc DirectoryEntry Directory FileSystem File FileRead.
Import FileSystemDetails (cluster_length, sectors_per_cluster, cluster_heap_offset, fat_offset).

(** * Specification *)
Section Spec.
Context {cfg : Config} {crates : Crates} {bd : BlockDevice} {Hbd : DeviceOk cfg bd}.
Implicit Types (f : FileSystem) (file : File) (cl : list Z).

Definition no_fat_chain (d : FileDetails.t) : bool := contains (FileDetails.flags d) NoFatChain.

(** The clusters as the volume records them: a run, or a chain of the FAT with
    an end marker. *)
Definition stored_ok (fl : Z) f (d : FileDetails.t) cl : Prop :=
  if no_fat_chain d then ∀ first, head cl = Some first → cl = seqZ first (len cl)
  else linked fl f cl ∧ ∀ l, last cl = Some l → successor (fat_entry fl f l) = None.

Record grow_inv (fl : Z) f file cl : Prop := {
  grow_file : file_inv fl f file cl;
  grow_stored : stored_ok fl f (details file) cl;
  grow_chain : no_fat_chain (details file) = true →
    match chain file with FatChain _ _ _ => False | _ => True end;
  grow_allocated : Forall (λ id, is_allocated fl f id = true) cl;
  grow_free id : cluster_ok f id → is_allocated fl f id = false → data_cluster f id;
  grow_touched : touched_ok fl f (touched file);
}.

(** The clusters of a run. *)
Definition run_clusters (run : AllocatedRun) : list Z := seqZ (first_cluster run) (cluster_count run).

(** The flags fit their field. *)
Definition flags_ok (d : FileDetails.t) : Prop :=
  byte_ok (FileDetails.flags d) ∧ Z.land (FileDetails.flags d) GeneralSecondaryFlags_all = FileDetails.flags d.

(** Of the open file only the chain, its position and its list change. *)
Definition same_file file file' : Prop :=
  FileDetails.data_length (details file') = FileDetails.data_length (details file) ∧
  FileDetails.valid_data_length (details file') = FileDetails.valid_data_length (details file) ∧
  FileDetails.first_cluster (details file') = FileDetails.first_cluster (details file) ∧
  FileDetails.location (details file') = FileDetails.location (details file) ∧
  open_options file' = open_options file ∧ cursor file' = cursor file ∧
  FileDetails.secondary_count (details file') = FileDetails.secondary_count (details file) ∧
  (flags_ok (details file) → flags_ok (details file')).

(** The FAT entries of clusters that are not in the list are as they were. *)
Definition fat_same (fl : Z) (ids : list Z) f f' : Prop :=
  ∀ id, cluster_ok f id → id ∉ ids → fat_entry fl f' id = fat_entry fl f id.

(** The sectors growing a file may change. *)
Definition table_region (fl : Z) f (s : Z) : Prop := fat_region fl f s ∨ bitmap_region f s.

(** The file has grown by the clusters [nl], which were free: nothing else of
    the file and of the volume is different. *)
Record grown_by (fl : Z) f file cl nl f' file' : Prop := {
  grown_inv : grow_inv fl f' file' (cl ++ nl);
  grown_file : same_file file file';
  grown_op : vol_op fl (table_region fl f) (touched file) f (touched file') f';
  grown_fat : fat_same fl (cl ++ nl) f f';
  grown_free k : k ∈ nl → cluster_ok f k ∧ is_allocated fl f k = false;
  grown_alloc k : cluster_ok f k → k ∉ nl → is_allocated fl f' k = is_allocated fl f k;
}.

(** Pairs of neighbours. *)
Definition links cl : list (Z * Z) := zip cl (tail cl).
End Spec.

(** * Lemmas *)
Section Lemmas.
Context {cfg : Config} {crates : Crates} {bd : BlockDevice} {fu : Fuel}.
Context {Hcfg : ConfigOk cfg} {Hcr : CratesOk crates} {Hbd : DeviceOk cfg bd}.
Implicit Types (f : FileSystem) (file : File) (cl : list Z) (t : FileDirty).

Lemma set_touched_id file : set_touched (touched file) file = file.
Proof. by destruct file. Qed.

Lemma set_fat_ok fl f file t id v :
  vol_inv fl f → dirty_ok t → cluster_ok f id → 0 ≤ v < 2 ^ 32 →
  ∃ t' f', set_fat id v (set_touched t file, f) = ((set_touched t' file, f'), Ok ()) ∧
    vol_op fl (fat_region fl f) t f t' f' ∧
    (∀ id', cluster_ok f id' →
       fat_entry fl f' id' = if decide (id' = id) then v else fat_entry fl f id').
Proof.
  intros Hi Ht Hid Hv. destruct (vol_fat_set fl f t id v Hi Ht Hid Hv) as (t' & f' & Hs & Hop & He).
  exists t', f'. split_and!; [|eapply vol_op_weaken; [|exact Hop]; intros ? ->|done].
  - unfold set_fat. by eapply zoom_to.
  - by apply fat_sector_region.
Qed.

(** A sequence of assignments to different entries of the FAT. *)
Lemma set_fats_ok fl f file t (l : list (Z * Z)) :
  vol_inv fl f → dirty_ok t → Forall (cluster_ok f) l.*1 → NoDup l.*1 →
  Forall (λ v, 0 ≤ v < 2 ^ 32) l.*2 →
  ∃ t' f', for_each l (λ p, set_fat p.1 p.2) (set_touched t file, f) =
      ((set_touched t' file, f'), Ok ()) ∧
    vol_op fl (fat_region fl f) t f t' f' ∧ fat_same fl l.*1 f f' ∧
    (∀ p, p ∈ l → fat_entry fl f' p.1 = p.2).
Proof.
  revert f t. induction l as [|[a b] l IH]; intros f t Hi Ht Hok Hnd Hv.
  { exists t, f. split_and!; [done|by apply vol_op_refl|by intros ?|by intros p ?%elem_of_nil]. }
  cbn [fmap list_fmap fst snd] in *. inversion Hok as [|? ? Ha Hok']; subst.
  inversion Hv as [|? ? Hb Hv']; subst. apply NoDup_cons in Hnd as [Hni Hnd].
  destruct (set_fat_ok fl f file t a b Hi Ht Ha Hb) as (t1 & f1 & Hs & Hop & He).
  pose proof (step_fs _ _ _ _ (op_step _ _ _ _ _ _ Hop)) as Hfs.
  assert (Hcl : ∀ id, cluster_ok f1 id ↔ cluster_ok f id) by (intros; unfold cluster_ok; by rewrite Hfs).
  assert (Hreg : ∀ s, fat_region fl f1 s ↔ fat_region fl f s) by (intros; unfold fat_region; by rewrite Hfs).
  destruct (IH f1 t1) as (t' & f' & Hr & Hop' & Hsame & Hset);
    [apply Hop|apply Hop|by eapply Forall_impl; [exact Hok'|]; intros ?; apply Hcl|done|done|].
  exists t', f'. cbn [for_each]. rewrite (bind_Ok _ _ _ _ _ Hs). split_and!.
  - exact Hr.
  - eapply vol_op_trans; [exact Hop|]. eapply vol_op_weaken; [|exact Hop']. intros s. apply Hreg.
  - intros id Hid [Hne Hnin]%not_elem_of_cons. rewrite Hsame by (done || by apply Hcl).
    rewrite He by done. by rewrite decide_False.
  - intros p [->|Hp]%elem_of_cons; [cbn [fst snd]|by apply Hset].
    rewrite Hsame, He by (done || by apply Hcl). by rewrite decide_True.
Qed.

(** ** Lists of neighbours *)
Lemma links_cons a b cl : links (a :: b :: cl) = (a, b) :: links (b :: cl).
Proof. done. Qed.
Lemma linked_links fl f cl :
  linked fl f cl ↔ ∀ p, p ∈ links cl → successor (fat_entry fl f p.1) = Some p.2.
Proof.
  split.
  - intros Hl [a b] (i & a' & b' & [= <- <-] & Ha & Hb)%elem_of_lookup_zip_with.
    rewrite lookup_tail in Hb. by apply (Hl i).
  - intros Hl i a b Ha Hb. apply (Hl (a, b)). apply elem_of_lookup_zip_with.
    exists i, a, b. by rewrite lookup_tail.
Qed.
Lemma links_app_singleton cl x y : links (cl ++ [x; y]) = links (cl ++ [x]) ++ [(x, y)].
Proof.
  induction cl as [|a cl IH]; [done|]. destruct cl as [|b cl]; [done|].
  cbn [app] in *. rewrite !links_cons, IH. done.
Qed.
Lemma links_fst cl x : (links (cl ++ [x])).*1 = cl.
Proof.
  induction cl as [|a cl IH]; [done|]. destruct cl as [|b cl]; [done|].
  cbn [app] in *. rewrite links_cons, fmap_cons. by rewrite IH.
Qed.
Lemma links_snd a cl : (links (a :: cl)).*2 = cl.
Proof.
  revert a. induction cl as [|b cl IH]; intros a; [done|]. rewrite links_cons, fmap_cons. by rewrite IH.
Qed.
(** Two lists joined at [x]. *)
Lemma links_join cl x l : links (cl ++ [x] ++ l) = links (cl ++ [x]) ++ links (x :: l).
Proof.
  induction cl as [|a cl IH]; [done|]. destruct cl as [|b cl]; [done|].
  cbn [app] in *. rewrite !links_cons. cbn [app]. by rewrite IH.
Qed.

(** The loops of [update_chain] assign the links of a list. *)
Lemma link_clusters_links p l (s : File * FileSystem) :
  link_clusters (Some p) l s = for_each (links (p :: l)) (λ p, set_fat p.1 p.2) s.
Proof.
  revert p s. induction l as [|x l IH]; intros p s; [done|]. rewrite links_cons.
  cbn [link_clusters for_each fst snd]. apply bind_ext. intros [] s'. apply IH.
Qed.
Lemma run_links first n (s : File * FileSystem) :
  0 < n →
  for_each (seqZ first (n - 1)) (λ id, set_fat id (id + 1)) s =
    for_each (links (seqZ first n)) (λ p, set_fat p.1 p.2) s.
Proof.
  intros Hn. remember (Z.to_nat (n - 1)) as k eqn:Hk. revert first n Hn Hk s.
  induction k as [|k IH]; intros first n Hn Hk s.
  - assert (n = 1) as -> by lia. done.
  - rewrite (seqZ_cons first (n - 1)), (seqZ_cons first n) by lia.
    rewrite (seqZ_cons (Z.succ first) (Z.pred n)) by lia. rewrite links_cons.
    cbn [for_each fst snd]. apply bind_ext. intros [] s'.
    rewrite <-seqZ_cons by lia. by rewrite <-IH by lia.
Qed.

(** The last element of a list, as a list. *)
Definition last_list cl : list Z := match last cl with Some x => [x] | None => [] end.
Lemma last_list_snoc cl x : last_list (cl ++ [x]) = [x].
Proof. unfold last_list. by rewrite last_snoc. Qed.
Lemma links_app cl l : links (cl ++ l) = links cl ++ links (last_list cl ++ l).
Proof.
  destruct cl as [|x cl _] using rev_ind; [done|]. rewrite last_list_snoc, <-app_assoc.
  apply links_join.
Qed.
Lemma link_clusters_last cl x l (s : File * FileSystem) :
  link_clusters (last cl) (x :: l) s =
    for_each (links (last_list cl ++ x :: l)) (λ p, set_fat p.1 p.2) s.
Proof.
  unfold last_list. destruct (last cl) as [p|]; [apply link_clusters_links|].
  cbn [link_clusters app]. apply link_clusters_links.
Qed.
Lemma last_list_elem x cl : x ∈ last_list cl → x ∈ cl.
Proof.
  unfold last_list. destruct (last cl) as [y|] eqn:Hy; [|by intros ?%elem_of_nil].
  intros ->%list_elem_of_singleton. rewrite last_lookup in Hy. by eapply list_elem_of_lookup_2.
Qed.
Lemma run_snoc first n : 0 < n → seqZ first n = seqZ first (n - 1) ++ [first + n - 1].
Proof.
  intros Hn. replace n with ((n - 1) + 1) at 1 by lia. rewrite seqZ_app by lia.
  replace (seqZ (first + (n - 1)) 1) with [first + (n - 1)] by done. do 2 f_equal. lia.
Qed.

Lemma cluster_ok_value fl f id :
  vol_inv fl f → cluster_ok f id → 0 ≤ id < 2 ^ 32 ∧ successor id = Some id.
Proof.
  intros Hi Hid. destruct (vol_geometry _ _ Hi) as [_ _ [_ [Hc _]] _ _ _ _].
  unfold cluster_ok, CLUSTER_LEN in *. split; [lia|]. unfold successor.
  by rewrite (proj2 (Z.leb_le _ _)), (proj2 (Z.leb_le _ _)) by lia.
Qed.
Lemma vol_op_cluster_ok fl P t f t' f' id :
  vol_op fl P t f t' f' → cluster_ok f' id ↔ cluster_ok f id.
Proof. intros Hop. unfold cluster_ok. by rewrite (step_fs _ _ _ _ (op_step _ _ _ _ _ _ Hop)). Qed.

(** Writing a run into the FAT behind the chain [cl]. *)
Lemma link_run_ok fl f file t cl first n :
  vol_inv fl f → dirty_ok t → 0 < n → linked fl f cl →
  Forall (cluster_ok f) (cl ++ seqZ first n) → NoDup (cl ++ seqZ first n) →
  ∃ t1 f1 t' f',
    link_clusters (last cl) (seqZ first n) (set_touched t file, f) = ((set_touched t1 file, f1), Ok ()) ∧
    set_fat (first + n - 1) END_OF_CHAIN (set_touched t1 file, f1) = ((set_touched t' file, f'), Ok ()) ∧
    vol_op fl (fat_region fl f) t f t' f' ∧ fat_same fl (cl ++ seqZ first n) f f' ∧
    linked fl f' (cl ++ seqZ first n) ∧ successor (fat_entry fl f' (first + n - 1)) = None.
Proof.
  intros Hi Ht Hn Hl Hok Hnd. set (z := first + n - 1) in *. set (L := links (last_list cl ++ seqZ first n)).
  assert (Hfst : L.*1 = last_list cl ++ seqZ first (n - 1)).
  { unfold L. rewrite (run_snoc first n Hn), app_assoc. apply links_fst. }
  rewrite Forall_forall in Hok.
  assert (Hin : ∀ x, x ∈ last_list cl ++ seqZ first (n - 1) → x ∈ cl ++ seqZ first n ∧ x ≠ z).
  { intros x Hx. rewrite (run_snoc first n Hn), app_assoc in Hnd |- *. fold z in Hnd |- *.
    assert (x ∈ cl ++ seqZ first (n - 1)).
    { apply elem_of_app in Hx as [?%last_list_elem|?]; apply elem_of_app; auto. }
    split; [apply elem_of_app; by left|]. intros ->.
    apply NoDup_app in Hnd as (_ & Hd & _). eapply Hd; [done|by apply list_elem_of_singleton]. }
  assert (Hz : z ∈ cl ++ seqZ first n) by (apply elem_of_app; right; apply elem_of_seqZ; lia).
  assert (Hval : ∀ p, p ∈ L → cluster_ok f p.2).
  { intros [a b] Hp. apply Hok. apply elem_of_app.
    apply elem_of_lookup_zip_with in Hp as (i & a' & b' & [= <- <-] & _ & Hb).
    apply list_elem_of_lookup_2 in Hb. unfold last_list in Hb. destruct (last cl); cbn in Hb; [by right|].
    right. destruct (seqZ first n); [by apply elem_of_nil in Hb|]. by right. }
  destruct (set_fats_ok fl f file t L Hi Ht) as (t1 & f1 & Hrun & Hop1 & Hs1 & Hv1).
  { rewrite Hfst. apply Forall_forall. intros x [? _]%Hin. auto. }
  { rewrite Hfst. eapply sublist_NoDup; [exact Hnd|]. apply sublist_app.
    - destruct cl as [|x cl' _] using rev_ind; [done|]. rewrite last_list_snoc.
      by apply sublist_inserts_l.
    - rewrite (run_snoc first n Hn). by apply sublist_inserts_r. }
  { apply Forall_forall. intros v (p & -> & Hp)%list_elem_of_fmap.
    by apply (cluster_ok_value fl f), Hval. }
  pose proof (op_inv _ _ _ _ _ _ Hop1) as Hi1.
  destruct (set_fat_ok fl f1 file t1 z END_OF_CHAIN Hi1) as (t' & f' & Hset & Hop2 & He2);
    [apply Hop1|by apply (vol_op_cluster_ok fl _ _ _ _ _ _ Hop1), Hok|done|].
  assert (Hkeep : ∀ id, cluster_ok f id → id ≠ z → fat_entry fl f' id = fat_entry fl f1 id).
  { intros id Hid Hne. rewrite He2 by (by apply (vol_op_cluster_ok fl _ _ _ _ _ _ Hop1)).
    by rewrite decide_False. }
  exists t1, f1, t', f'. split_and!; [|exact Hset| | | |].
  - rewrite <-Hrun. unfold L. destruct (seqZ first n) eqn:Hq; [|apply link_clusters_last].
    apply (f_equal length) in Hq. rewrite length_seqZ in Hq. cbn in Hq. lia.
  - eapply vol_op_trans; [exact Hop1|]. eapply vol_op_weaken; [|exact Hop2].
    intros s. unfold fat_region. by rewrite (step_fs _ _ _ _ (op_step _ _ _ _ _ _ Hop1)).
  - intros id Hid Hni. rewrite Hkeep by (done || by intros ->). apply Hs1; [done|].
    rewrite Hfst. intros Hx. by apply Hin in Hx as [? _].
  - apply linked_links. intros p Hp. rewrite links_app in Hp. fold L in Hp.
    apply elem_of_app in Hp as [Hp|Hp].
    + assert (Hpc : p.1 ∈ cl ∧ p.1 ∉ last_list cl).
      { destruct cl as [|x cl' _] using rev_ind; [by apply elem_of_nil in Hp|]. rewrite last_list_snoc.
        assert (p.1 ∈ cl') as Hc by (rewrite <-(links_fst cl' x); by apply list_elem_of_fmap_2).
        split; [apply elem_of_app; by left|]. intros Heq%list_elem_of_singleton.
        apply NoDup_app in Hnd as (Hnd & _). apply NoDup_app in Hnd as (_ & Hd & _).
        apply (Hd _ Hc). by apply list_elem_of_singleton. }
      destruct Hpc as [Hpc Hpl]. assert (cluster_ok f p.1) by (apply Hok, elem_of_app; by left).
      assert (p.1 ∉ seqZ first n) by (apply NoDup_app in Hnd as (_ & Hd & _); by apply Hd).
      rewrite Hkeep; [|done|].
      2: { intros Heq. apply elem_of_app in Hz as [Hz|Hz]; [|congruence].
           apply NoDup_app in Hnd as (_ & Hd & _). apply (Hd z Hz). apply elem_of_seqZ. lia. }
      rewrite Hs1; [by apply (proj1 (linked_links fl f cl) Hl)|done|]. rewrite Hfst.
      intros [?|Hx]%elem_of_app; [done|]. apply H0. apply elem_of_seqZ in Hx. apply elem_of_seqZ. lia.
    + assert (Hp1 : p.1 ∈ L.*1) by by apply list_elem_of_fmap_2. rewrite Hfst in Hp1.
      apply Hin in Hp1 as [Hp1 Hne]. rewrite Hkeep by (auto). rewrite Hv1 by done.
      by apply (cluster_ok_value fl f), Hval.
  - rewrite He2 by (apply (vol_op_cluster_ok fl _ _ _ _ _ _ Hop1), Hok; done). by rewrite decide_True.
Qed.
End Lemmas.

(** ** [update_chain] *)
Section UpdateChain.
Context {cfg : Config} {crates : Crates} {bd : BlockDevice} {fu : Fuel}.
Context {Hcfg : ConfigOk cfg} {Hcr : CratesOk crates} {Hbd : DeviceOk cfg bd}.
Implicit Types (f : FileSystem) (file : File) (cl : list Z) (t : FileDirty).

Lemma vol_op_dir_entry fl P t f : vol_inv fl f → dirty_ok t → vol_op fl P t f (set_dir_entry_dirty true t) f.
Proof.
  intros Hi Ht. split; [done|apply vol_step_refl|]. split; [exact Ht|split; [by split_and!; auto|auto]].
Qed.

Lemma flag_cleared d :
  no_fat_chain (with_flags (set_flag (FileDetails.flags d) NoFatChain false) d) = false.
Proof.
  unfold no_fat_chain. rewrite contains_spec, set_flag_spec. cbn [FileDetails.flags with_flags].
  apply Z.eqb_neq. intros H. apply (f_equal (λ z, Z.testbit z 1)) in H.
  rewrite Z.land_spec, Z.ldiff_spec in H. unfold NoFatChain in H.
  change (Z.testbit 2 1) with true in H. by rewrite andb_false_r in H.
Qed.

Lemma flags_ok_cleared d :
  flags_ok d → flags_ok (with_flags (set_flag (FileDetails.flags d) NoFatChain false) d).
Proof.
  unfold flags_ok, byte_ok. cbn [FileDetails.flags with_flags]. rewrite set_flag_spec. intros [_ Hl].
  change GeneralSecondaryFlags_all with (Z.ones 2) in Hl. rewrite Z.land_ones in Hl by lia.
  pose proof (Z.mod_pos_bound (FileDetails.flags d) (2 ^ 2) ltac:(lia)). rewrite Hl in *.
  assert (FileDetails.flags d = 0 ∨ FileDetails.flags d = 1 ∨ FileDetails.flags d = 2 ∨ FileDetails.flags d = 3) as Hc by lia.
  destruct Hc as [->|[->|[->| ->]]]; by split_and!.
Qed.

(** The first part: a contiguous file whose new run is not adjacent becomes a
    chain of the FAT. *)
Lemma convert_ok fl f file cl run :
  file_inv fl f file cl → dirty_ok (touched file) → stored_ok fl f (details file) cl →
  (no_fat_chain (details file) = true →
   match chain file with FatChain _ _ _ => False | _ => True end) →
  ∃ t d f',
    (convert ← lift (should_convert_to_fat_chain file run);
     if convert : bool then convert_file_to_fat_chain_if_required else mret ()) (file, f) =
      ((set_touched t (set_details d file), f'), Ok ()) ∧
    vol_op fl (fat_region fl f) (touched file) f t f' ∧ fat_same fl cl f f' ∧
    (d = details file ∨ d = with_flags (set_flag (FileDetails.flags (details file)) NoFatChain false) (details file)) ∧
    if no_fat_chain d
    then cl = [] ∨ ∃ first n, chain file = Contiguous first n ∧ first + n = first_cluster run
    else linked fl f' cl.
Proof.
  intros Hi Ht Hst Hc. pose proof (file_vol _ _ _ _ Hi) as Hv.
  assert (Hkeep : ∃ t d f', (mret () : M (File * FileSystem) err ()) (file, f) = ((set_touched t (set_details d file), f'), Ok ()) ∧
    vol_op fl (fat_region fl f) (touched file) f t f' ∧ fat_same fl cl f f' ∧ d = details file ∧ f' = f).
  { exists (touched file), (details file), f. split_and!; [by destruct file|by apply vol_op_refl|done..]. }
  unfold stored_ok in Hst. pose proof (file_chain _ _ _ _ Hi) as Hch.
  unfold should_convert_to_fat_chain. fold (no_fat_chain (details file)) in *.
  destruct (chain file) as [|first n|first l n] eqn:Hchain; cbn [chain_clusters] in Hch.
  - rewrite bind_lift_Ok. destruct Hkeep as (t & d & f' & -> & Hop & Hs & -> & ->).
    exists t, (details file), f. split_and!; [done..|by left|]. destruct (no_fat_chain _); [by left|apply Hst].
  - destruct Hch as [-> Hn]. destruct (no_fat_chain (details file)) eqn:Hnf.
    2: { rewrite bind_lift_Ok. destruct Hkeep as (t & d & f' & -> & Hop & Hs & -> & ->).
         exists t, (details file), f. split_and!; [done..|by left|]. rewrite Hnf. apply Hst. }
    assert (Hok : ∀ id, first ≤ id < first + n → cluster_ok f id).
    { intros id Hid. pose proof (file_clusters _ _ _ _ Hi) as Hcl. rewrite Forall_forall in Hcl.
      apply Hcl, elem_of_seqZ. lia. }
    pose proof (cluster_ok_value fl f (first + n - 1) Hv (Hok (first + n - 1) ltac:(lia))) as [Hb _].
    pose proof (cluster_ok_value fl f first Hv (Hok first ltac:(lia))) as [Hb' _].
    destruct (vol_geometry _ _ Hv) as [_ _ [_ [Hcc _]] _ _ _ _].
    pose proof (Hok (first + n - 1) ltac:(lia)) as Hlast. unfold cluster_ok, CLUSTER_LEN in *.
    rewrite add_ok by lia. cbn [mbind outcome_bind]. rewrite bind_lift_Ok.
    destruct (Z.eqb_spec (first + n) (first_cluster run)) as [He|Hne]; cbn [negb].
    { destruct Hkeep as (t & d & f' & -> & Hop & Hs & -> & ->).
      exists t, (details file), f. split_and!; [done..|by left|]. rewrite Hnf. right. eauto. }
    set (d := with_flags (set_flag (FileDetails.flags (details file)) NoFatChain false) (details file)).
    set (t0 := set_dir_entry_dirty true (touched file)).
    pose proof (vol_op_dir_entry fl (fat_region fl f) (touched file) f Hv Ht) as Hop0. fold t0 in Hop0.
    destruct (set_fats_ok fl f (set_details d file) t0 (links (seqZ first n)) Hv)
      as (t & f' & Hrun & Hop & Hs & Hset).
    { exact Ht. }
    { rewrite (run_snoc first n Hn), links_fst. apply Forall_forall. intros x Hx%elem_of_seqZ.
      apply Hok. lia. }
    { rewrite (run_snoc first n Hn), links_fst. apply NoDup_seqZ. }
    { rewrite (seqZ_cons first n) by lia. rewrite links_snd. apply Forall_forall.
      intros x Hx%elem_of_seqZ. lia. }
    exists t, d, f'. split_and!.
    + unfold convert_file_to_fat_chain_if_required, get_file.
      rewrite (bind_Ok (gets fst) _ _ (file, f) file) by done.
      fold (no_fat_chain (details file)). rewrite Hnf. fold d.
      rewrite (bind_Ok (modify_file _) _ _ (set_details d file, f) ()) by done.
      rewrite (bind_Ok mark_dir_entry_dirty _ _ (set_touched t0 (set_details d file), f) ()) by done.
      rewrite Hchain. rewrite add_ok, bind_lift_Ok, sub_ok, bind_lift_Ok by lia.
      replace (first + n - 1 - first) with (n - 1) by lia. rewrite run_links by done. exact Hrun.
    + eapply vol_op_trans; [exact Hop0|exact Hop].
    + intros id Hid Hni. apply Hs; [done|]. rewrite (run_snoc first n Hn) in Hni |- *.
      rewrite links_fst. intros Hx. apply Hni, elem_of_app. by left.
    + by right.
    + unfold d. rewrite flag_cleared. apply linked_links. intros p Hp. rewrite Hset by done.
      assert (p.2 ∈ (links (seqZ first n)).*2) as Hp2 by by apply list_elem_of_fmap_2.
      rewrite (seqZ_cons first n), links_snd in Hp2 by lia. apply elem_of_seqZ in Hp2.
      apply (cluster_ok_value fl f); [done|]. apply Hok. lia.
  - rewrite bind_lift_Ok. destruct Hkeep as (t & d & f' & -> & Hop & Hs & -> & ->).
    exists t, (details file), f. split_and!; [done..|by left|].
    destruct (no_fat_chain (details file)) eqn:Hnf; [by destruct Hc|apply Hst].
Qed.

Lemma clusters_bound f cl :
  0 ≤ FileSystemDetails.cluster_count (fs f) → Forall (cluster_ok f) cl → NoDup cl →
  len cl ≤ FileSystemDetails.cluster_count (fs f).
Proof.
  intros Hn Hok Hnd. rewrite Forall_forall in Hok.
  assert (cl ⊆+ seqZ 2 (FileSystemDetails.cluster_count (fs f))) as Hsub.
  { apply NoDup_submseteq; [done|]. intros id Hid. apply elem_of_seqZ.
    specialize (Hok id Hid). unfold cluster_ok in Hok. lia. }
  apply submseteq_length in Hsub. rewrite length_seqZ in Hsub. unfold len. lia.
Qed.

(** The chain and the file after a run has been added. *)
Definition next_chain (c : StoredChain) (has_fat_chain : bool) (run : AllocatedRun) : StoredChain :=
  let last := first_cluster run + cluster_count run - 1 in
  match c with
  | Empty => Contiguous (first_cluster run) (cluster_count run)
  | Contiguous first n =>
      if has_fat_chain then FatChain first last (n + cluster_count run)
      else Contiguous first (n + cluster_count run)
  | FatChain first _ n => FatChain first last (n + cluster_count run)
  end.
Definition grown f (has_fat_chain : bool) (run : AllocatedRun) file : File :=
  let file' := set_chain (next_chain (chain file) has_fat_chain run) file in
  match chain file with
  | Empty => set_position (first_cluster run) (cluster_length (fs f)) (cursor file) file'
  | _ => file'
  end.

Lemma last_seqZ first n : 0 < n → last (seqZ first n) = Some (first + n - 1).
Proof. intros Hn. rewrite (run_snoc first n Hn). apply last_snoc. Qed.

(** What [update_chain] takes for the cluster before the new run. *)
Lemma prev_cluster_ok fl f c cl (s : File * FileSystem) :
  vol_inv fl f → chain_clusters fl f c cl → Forall (cluster_ok f) cl →
  (match c with
   | Empty => mret None
   | Contiguous first n =>
       s ← lift (add u32 first n);
       p ← lift (sub u32 s 1);
       mret (Some p)
   | FatChain _ last _ => mret (Some last)
   end : M (File * FileSystem) err (option Z)) s = (s, Ok (last cl)).
Proof.
  intros Hv Hch Hok. destruct c as [|first n|first l n]; cbn [chain_clusters] in Hch.
  - by subst.
  - destruct Hch as [-> Hn]. rewrite Forall_forall in Hok.
    pose proof (Hok first ltac:(apply elem_of_seqZ; lia)) as H1.
    pose proof (Hok (first + n - 1) ltac:(apply elem_of_seqZ; lia)) as H2.
    destruct (vol_geometry _ _ Hv) as [_ _ [_ [Hcc _]] _ _ _ _]. unfold cluster_ok, CLUSTER_LEN in *.
    rewrite add_ok, bind_lift_Ok, sub_ok, bind_lift_Ok by lia. by rewrite last_seqZ.
  - destruct Hch as (_ & -> & _). done.
Qed.

(** The last part: the chain in the open file. *)
Lemma store_chain_ok fl f0 f file cl run (has_fat_chain : bool) :
  vol_inv fl f → chain_clusters fl f0 (chain file) cl → 0 < cluster_count run →
  Forall (cluster_ok f) (cl ++ run_clusters run) → NoDup (cl ++ run_clusters run) →
  (match chain file with
   | Empty =>
       f ← get_fs;
       modify_file (set_chain (Contiguous (first_cluster run) (cluster_count run))) ;;
       modify_file (λ s, set_position (first_cluster run) (cluster_length f) (cursor s) s)
   | Contiguous first n =>
       if has_fat_chain then
         past ← lift (add u32 (first_cluster run) (cluster_count run));
         last ← lift (sub u32 past 1);
         n ← lift (add u32 n (cluster_count run));
         modify_file (set_chain (FatChain first last n))
       else
         n ← lift (add u32 n (cluster_count run));
         modify_file (set_chain (Contiguous first n))
   | FatChain first _ n =>
       past ← lift (add u32 (first_cluster run) (cluster_count run));
       last ← lift (sub u32 past 1);
       n ← lift (add u32 n (cluster_count run));
       modify_file (set_chain (FatChain first last n))
   end : M (File * FileSystem) err ()) (file, f) = ((grown f has_fat_chain run file, f), Ok ()).
Proof.
  intros Hv Hch Hc Hok Hnd. pose proof (clusters_bound f _ ltac:(destruct (vol_geometry _ _ Hv); lia) Hok Hnd) as Hb.
  rewrite len_app in Hb. assert (Hlr : len (run_clusters run) = cluster_count run)
    by (unfold len, run_clusters; rewrite length_seqZ; lia).
  rewrite Forall_forall in Hok. unfold run_clusters in Hok.
  pose proof (Hok (first_cluster run) ltac:(apply elem_of_app; right; apply elem_of_seqZ; lia)) as H1.
  pose proof (Hok (first_cluster run + cluster_count run - 1)
    ltac:(apply elem_of_app; right; apply elem_of_seqZ; lia)) as H2.
  destruct (vol_geometry _ _ Hv) as [_ _ [_ [Hcc _]] _ _ _ _]. unfold cluster_ok, CLUSTER_LEN in *.
  pose proof (len_nonneg cl). unfold grown, next_chain.
  destruct (chain file) as [|first n|first l n]; cbn [chain_clusters] in Hch.
  - done.
  - destruct Hch as [-> Hn]. assert (len (seqZ first n) = n) by (unfold len; rewrite length_seqZ; lia).
    destruct has_fat_chain.
    + by rewrite !add_ok, bind_lift_Ok, sub_ok, !bind_lift_Ok by lia.
    + by rewrite add_ok, bind_lift_Ok by lia.
  - destruct Hch as (_ & _ & Hl & _).
    by rewrite !add_ok, bind_lift_Ok, sub_ok, !bind_lift_Ok by lia.
Qed.

(** The extended chain stands for the extended list. *)
Lemma next_chain_ok fl f f' c cl run (has_fat_chain : bool) :
  chain_clusters fl f c cl → 0 < cluster_count run →
  (if has_fat_chain then linked fl f' (cl ++ run_clusters run)
   else cl = [] ∨ ∃ first n, c = Contiguous first n ∧ first + n = first_cluster run) →
  chain_clusters fl f' (next_chain c has_fat_chain run) (cl ++ run_clusters run).
Proof.
  intros Hch Hc Hl. unfold run_clusters, next_chain.
  assert (Hlast : last (cl ++ seqZ (first_cluster run) (cluster_count run)) =
    Some (first_cluster run + cluster_count run - 1)).
  { rewrite (run_snoc _ _ Hc), app_assoc. apply last_snoc. }
  assert (Hlen : len (cl ++ seqZ (first_cluster run) (cluster_count run)) = len cl + cluster_count run)
    by (rewrite len_app; unfold len at 2; rewrite length_seqZ; lia).
  destruct c as [|first n|first l n]; cbn [chain_clusters] in *.
  - by subst.
  - destruct Hch as [-> Hn]. assert (len (seqZ first n) = n) by (unfold len; rewrite length_seqZ; lia).
    destruct has_fat_chain; cbn [chain_clusters].
    + split_and!; [|done|lia|done]. by rewrite seqZ_cons by lia.
    + destruct Hl as [Hl|(first' & n' & [= <- <-] & Hadj)].
      * apply (f_equal length) in Hl. rewrite length_seqZ in Hl. cbn in Hl. lia.
      * rewrite <-Hadj, seqZ_app by lia. split; [done|lia].
  - destruct Hch as (Hh & Hla & Hle & _). destruct has_fat_chain.
    + split_and!; [|done|lia|done]. destruct cl; [done|exact Hh].
    + destruct Hl as [->|(? & ? & ? & _)]; [done|congruence].
Qed.

(** Where the FAT changes, nothing readers of other sectors see does. *)
Lemma data_clusters_ok f cl : Forall (data_cluster f) cl → Forall (cluster_ok f) cl.
Proof. intros H. eapply Forall_impl; [exact H|]. by intros id []. Qed.
Lemma data_cluster_op fl P t f t' f' id :
  vol_op fl P t f t' f' → data_cluster f' id ↔ data_cluster f id.
Proof. intros Hop. eapply data_cluster_step, Hop. Qed.

(** [update_chain]: the FAT part. *)
Lemma update_fat_ok fl f file t d cl run :
  vol_inv fl f → dirty_ok t →
  (∀ s : File * FileSystem,
    (match chain file with
     | Empty => mret None
     | Contiguous first n =>
         s ← lift (add u32 first n);
         p ← lift (sub u32 s 1);
         mret (Some p)
     | FatChain _ last _ => mret (Some last)
     end : M (File * FileSystem) err (option Z)) s = (s, Ok (last cl))) →
  0 < cluster_count run →
  (no_fat_chain d = false → linked fl f cl) →
  Forall (cluster_ok f) (cl ++ run_clusters run) → NoDup (cl ++ run_clusters run) →
  ∃ t' f',
    (if negb (no_fat_chain d) then
       prev_cluster ← (match chain file with
                       | Empty => mret None
                       | Contiguous first n =>
                           s ← lift (add u32 first n);
                           p ← lift (sub u32 s 1);
                           mret (Some p)
                       | FatChain _ last _ => mret (Some last)
                       end);
       past ← lift (add u32 (first_cluster run) (cluster_count run));
       link_clusters prev_cluster (seqZ (first_cluster run) (past - first_cluster run)) ;;
       last ← lift (sub u32 past 1);
       set_fat last END_OF_CHAIN
     else mret () : M (File * FileSystem) err ()) (set_touched t (set_details d file), f) =
      ((set_touched t' (set_details d file), f'), Ok ()) ∧
    vol_op fl (fat_region fl f) t f t' f' ∧ fat_same fl (cl ++ run_clusters run) f f' ∧
    if no_fat_chain d then f' = f
    else linked fl f' (cl ++ run_clusters run) ∧
         successor (fat_entry fl f' (first_cluster run + cluster_count run - 1)) = None.
Proof.
  intros Hv Ht Hprev Hc Hl Hok Hnd. destruct (no_fat_chain d) eqn:Hnf; cbn [negb].
  { exists t, f. split_and!; [done|by apply vol_op_refl|done|done]. }
  specialize (Hl eq_refl). pose proof Hok as Hok0. rewrite Forall_forall in Hok0.
  unfold run_clusters in *.
  pose proof (Hok0 (first_cluster run) ltac:(apply elem_of_app; right; apply elem_of_seqZ; lia)) as H1.
  pose proof (Hok0 (first_cluster run + cluster_count run - 1)
    ltac:(apply elem_of_app; right; apply elem_of_seqZ; lia)) as H2.
  destruct (vol_geometry _ _ Hv) as [_ _ [_ [Hcc _]] _ _ _ _]. unfold cluster_ok, CLUSTER_LEN in H1, H2, Hcc.
  destruct (link_run_ok fl f (set_details d file) t cl (first_cluster run) (cluster_count run) Hv Ht Hc Hl Hok Hnd)
    as (t1 & f1 & t' & f' & Hlink & Hset & Hop & Hsame & Hl' & Hend).
  exists t', f'. split_and!; [|exact Hop|exact Hsame|done|done].
  rewrite (bind_Ok _ _ _ _ _ (Hprev _)). rewrite add_ok, bind_lift_Ok by lia.
  replace (first_cluster run + cluster_count run - first_cluster run) with (cluster_count run) by lia.
  rewrite (bind_Ok _ _ _ _ _ Hlink). rewrite sub_ok, bind_lift_Ok by lia. exact Hset.
Qed.

(** The file invariant with more clusters. *)
Lemma file_inv_grown fl f f' file file' cl nl :
  file_inv fl f file cl → vol_inv fl f' → fs f' = fs f → bitmap (allocator f') = bitmap (allocator f) →
  same_file file file' → chain_clusters fl f' (chain file') (cl ++ nl) →
  Forall (data_cluster f) nl → NoDup (cl ++ nl) →
  (cl ≠ [] → current_cluster file' = current_cluster file ∧
     remaining_bytes_in_cluster file' = remaining_bytes_in_cluster file) →
  (cl = [] → head nl = Some (current_cluster file') ∧
     remaining_bytes_in_cluster file' = cluster_length (fs f)) →
  file_inv fl f' file' (cl ++ nl).
Proof.
  intros Hi Hv Hfs Hbm (Hdl & Hvl & _ & _ & _ & Hcur & _) Hch Hnl Hnd Hne He.
  pose proof (file_vol _ _ _ _ Hi) as Hv0. destruct (cluster_length_pos fl f Hv0) as (? & ? & _).
  pose proof (file_lengths _ _ _ _ Hi) as [? Hcap]. pose proof (file_cursor _ _ _ _ Hi) as Hc.
  pose proof (len_nonneg nl). pose proof (len_nonneg cl).
  split.
  - done.
  - done.
  - assert (Hd : ∀ id, data_cluster f' id ↔ data_cluster f id).
    { intros id. unfold data_cluster, cluster_ok, cluster_sector, data_region, heap_region, bitmap_region.
      by rewrite Hfs, Hbm. }
    apply Forall_app. split; (eapply Forall_impl; [|intros id Hid; apply Hd; exact Hid]); [apply Hi|done].
  - done.
  - rewrite Hdl, Hvl, Hfs, len_app. split; [lia|]. rewrite Z.mul_add_distr_r.
    assert (0 ≤ len nl * cluster_length (fs f)) by (apply Z.mul_nonneg_nonneg; lia). lia.
  - by rewrite Hdl, Hcur.
  - intros _. unfold position_ok. rewrite Hfs, Hcur. destruct cl as [|x cl].
    + destruct (He eq_refl) as [Hh Hr]. exists 0%nat. rewrite Hr. cbn [app].
      assert (cursor file = 0) as -> by (change (len (@nil Z)) with 0 in Hcap; lia).
      split_and!; [by destruct nl|lia..].
    + destruct (Hne ltac:(done)) as [-> ->].
      destruct (file_position _ _ _ _ Hi ltac:(done)) as (i & Hi1 & ? & ? & ?).
      exists i. split_and!; [|done..]. by apply lookup_app_l_Some.
Qed.

(** [update_chain] appends the run to the file's clusters, in the open file
    and on the volume. *)
Lemma update_chain_ok fl f file cl run :
  file_inv fl f file cl → dirty_ok (touched file) → stored_ok fl f (details file) cl →
  (no_fat_chain (details file) = true →
   match chain file with FatChain _ _ _ => False | _ => True end) →
  0 < cluster_count run → Forall (data_cluster f) (run_clusters run) →
  NoDup (cl ++ run_clusters run) →
  ∃ file' f', update_chain run (file, f) = ((file', f'), Ok ()) ∧
    vol_op fl (fat_region fl f) (touched file) f (touched file') f' ∧
    same_file file file' ∧ fat_same fl (cl ++ run_clusters run) f f' ∧
    file_inv fl f' file' (cl ++ run_clusters run) ∧
    stored_ok fl f' (details file') (cl ++ run_clusters run) ∧
    (no_fat_chain (details file') = true →
     match chain file' with FatChain _ _ _ => False | _ => True end).
Proof.
  intros Hi Ht Hst Hnc Hc Hdata Hnd.
  assert (Hok : Forall (cluster_ok f) (cl ++ run_clusters run)).
  { apply Forall_app. split; [apply data_clusters_ok, Hi|by apply data_clusters_ok]. }
  pose proof (proj1 (Forall_app _ _ _) Hok) as [Hokc _]. pose proof (file_vol _ _ _ _ Hi) as Hv.
  destruct (convert_ok fl f file cl run Hi Ht Hst Hnc) as (t1 & d & f1 & Hconv & Hop1 & Hs1 & Hd & Hl1).
  pose proof (op_inv _ _ _ _ _ _ Hop1) as Hv1.
  assert (Hfs1 : fs f1 = fs f) by apply (step_fs _ _ _ _ (op_step _ _ _ _ _ _ Hop1)).
  assert (Hok1 : Forall (cluster_ok f1) (cl ++ run_clusters run)).
  { eapply Forall_impl; [exact Hok|]. intros id. by apply (vol_op_cluster_ok _ _ _ _ _ _ _ Hop1). }
  destruct (update_fat_ok fl f1 file t1 d cl run Hv1) as (t2 & f2 & Hfat & Hop2 & Hs2 & Hl2);
    [apply Hop1| |done| |done|done|].
  { intros s. exact (prev_cluster_ok fl f (chain file) cl s Hv (file_chain _ _ _ _ Hi) Hokc). }
  { intros Hnf. by rewrite Hnf in Hl1. }
  pose proof (op_inv _ _ _ _ _ _ Hop2) as Hv2. pose proof (op_step _ _ _ _ _ _ Hop2) as Hst2.
  set (file2 := set_touched t2 (set_details d file)). set (hf := negb (no_fat_chain d)).
  assert (Hop : vol_op fl (fat_region fl f) (touched file) f t2 f2).
  { eapply vol_op_trans; [exact Hop1|]. eapply vol_op_weaken; [|exact Hop2].
    intros s. unfold fat_region. by rewrite Hfs1. }
  assert (Hfs2 : fs f2 = fs f) by apply (step_fs _ _ _ _ (op_step _ _ _ _ _ _ Hop)).
  assert (Hfile' : same_file file (grown f2 hf run file2) ∧ details (grown f2 hf run file2) = d ∧
    touched (grown f2 hf run file2) = t2).
  { unfold grown, same_file. change (chain file2) with (chain file).
    assert (∀ A (p : FileDetails.t → A), (∀ x, p (with_flags x (details file)) = p (details file)) →
      p d = p (details file)) as Hp by (intros A p Hp; destruct Hd as [Hd|Hd]; rewrite Hd; auto).
    assert (flags_ok (details file) → flags_ok d) as Hfl
      by (destruct Hd as [Hd|Hd]; rewrite Hd; [done|apply flags_ok_cleared]).
    destruct (chain file); cbn; (split; [split_and!; try done; by apply Hp|done]). }
  destruct Hfile' as (Hsf & Hdet & Htou).
  exists (grown f2 hf run file2), f2. rewrite Hdet, Htou. split_and!; [|exact Hop|exact Hsf| | | |].
  - unfold update_chain, get_file. rewrite (bind_Ok (gets fst) _ _ (file, f) file) by done.
    rewrite <-bind_assoc. rewrite (bind_Ok _ _ _ _ _ Hconv).
    rewrite (bind_Ok (gets fst) _ _ (set_touched t1 (set_details d file), f1)
      (set_touched t1 (set_details d file))) by done. cbv zeta.
    fold (no_fat_chain (details (set_touched t1 (set_details d file)))).
    change (details (set_touched t1 (set_details d file))) with d.
    change (chain (set_touched t1 (set_details d file))) with (chain file).
    rewrite (bind_Ok _ _ _ _ _ Hfat). fold file2 hf.
    apply (store_chain_ok fl f f2 file2 cl run hf Hv2 (file_chain _ _ _ _ Hi) Hc); [|done].
    eapply Forall_impl; [exact Hok|]. intros id. by apply (vol_op_cluster_ok _ _ _ _ _ _ _ Hop).
  - intros id Hid Hni. rewrite Hs2; [|by apply (vol_op_cluster_ok _ _ _ _ _ _ _ Hop1)|done].
    apply Hs1; [done|]. intros Hx. apply Hni, elem_of_app. by left.
  - eapply (file_inv_grown fl f f2 file); [done|done|exact Hfs2|apply Hop|exact Hsf| |done|done| |].
    + assert (chain (grown f2 hf run file2) = next_chain (chain file) hf run) as ->
        by (unfold grown; change (chain file2) with (chain file); by destruct (chain file)).
      apply (next_chain_ok fl f); [apply Hi|done|]. unfold hf.
      destruct (no_fat_chain d); [exact Hl1|apply Hl2].
    + intros Hne. unfold grown. change (chain file2) with (chain file).
      pose proof (file_chain _ _ _ _ Hi) as Hch. by destruct (chain file).
    + intros ->. unfold grown. change (chain file2) with (chain file).
      pose proof (file_chain _ _ _ _ Hi) as Hch. destruct (chain file); cbn in *.
      * unfold run_clusters. rewrite seqZ_cons by lia. by rewrite Hfs2.
      * destruct Hch as [Hch Hn]. by rewrite seqZ_cons in Hch by lia.
      * by destruct Hch as [Hch _].
  - unfold stored_ok. destruct (no_fat_chain d).
    + destruct Hl1 as [->|(first & n & Hch & Hadj)].
      * intros first. unfold run_clusters. cbn [app]. rewrite seqZ_cons by lia. intros [= <-].
        rewrite <-seqZ_cons by lia. unfold len. rewrite length_seqZ. f_equal. lia.
      * pose proof (file_chain _ _ _ _ Hi) as Hcl. rewrite Hch in Hcl. destruct Hcl as [-> Hn].
        unfold run_clusters. rewrite <-Hadj, <-seqZ_app by lia. intros first'.
        rewrite seqZ_cons by lia. intros [= <-]. rewrite <-seqZ_cons by lia.
        unfold len. rewrite length_seqZ. f_equal. lia.
    + destruct Hl2 as [Hl2 Hend]. split; [done|]. unfold run_clusters.
      rewrite (run_snoc _ _ Hc), app_assoc, last_snoc. by intros l [= <-].
  - intros Hnf. unfold grown. change (chain file2) with (chain file). unfold hf. rewrite Hnf.
    rewrite Hnf in Hl1. pose proof (file_chain _ _ _ _ Hi) as Hch.
    destruct (chain file); cbn; [done|done|].
    destruct Hl1 as [->|(? & ? & ? & _)]; [by destruct Hch|done].
Qed.
End UpdateChain.

(** ** Allocating clusters for a file *)
Section Allocating.
Context {cfg : Config} {crates : Crates} {bd : BlockDevice} {fu : Fuel}.
Context {Hcfg : ConfigOk cfg} {Hcr : CratesOk crates} {Hbd : DeviceOk cfg bd}.
Implicit Types (f : FileSystem) (file : File) (cl nl : list Z) (t : FileDirty).

Lemma same_file_refl file : same_file file file.
Proof. by split_and!. Qed.
Lemma same_file_trans a b c : same_file a b → same_file b c → same_file a c.
Proof. unfold same_file. intros (? & ? & ? & ? & ? & ? & ? & ?) (? & ? & ? & ? & ? & ? & ? & ?). split_and!; first [congruence|auto]. Qed.

Lemma fat_entry_bitmap_op fl t f t' f' id :
  vol_inv fl f → vol_op fl (bitmap_region f) t f t' f' → cluster_ok f id →
  fat_entry fl f' id = fat_entry fl f id.
Proof.
  intros Hi Hop Hid. apply (fat_entry_step fl _ f f' id Hi (op_step _ _ _ _ _ _ Hop) Hid).
  pose proof (fat_sector_region fl f id Hi Hid) as Hr.
  by destruct (regions_disjoint fl f (fat_sector f id) (vol_geometry _ _ Hi)) as ([? _] & _); [done|].
Qed.
Lemma is_allocated_fat_op fl t f t' f' id :
  vol_inv fl f → vol_op fl (fat_region fl f) t f t' f' → cluster_ok f id →
  is_allocated fl f' id = is_allocated fl f id.
Proof.
  intros Hi Hop Hid. apply (is_allocated_step fl _ f f' id Hi (op_step _ _ _ _ _ _ Hop) Hid).
  pose proof (bitmap_sector_region fl f id Hi Hid) as Hr.
  by destruct (regions_disjoint fl f (bitmap_sector (allocator f) id) (vol_geometry _ _ Hi))
    as (_ & [? _] & _); [done|].
Qed.

(** The invariants of a file only depend on its FAT entries. *)
Lemma file_inv_tables fl P f f' file cl :
  file_inv fl f file cl → vol_inv fl f' → vol_step fl P f f' →
  (∀ id, cluster_ok f id → fat_entry fl f' id = fat_entry fl f id) → file_inv fl f' file cl.
Proof.
  intros Hi Hv Hst He. pose proof (step_fs _ _ _ _ Hst) as Hfs. split.
  - done.
  - pose proof (file_chain _ _ _ _ Hi) as Hch. destruct (chain file); cbn in *; [done..|].
    destruct Hch as (? & ? & ? & Hl). split_and!; [done..|]. intros i a b Ha Hb. rewrite He; [eauto|].
    by apply (Forall_lookup_1 _ _ _ _ (file_clusters _ _ _ _ Hi) Ha).
  - eapply Forall_impl; [apply Hi|]. intros id. by apply (data_cluster_step fl P).
  - apply Hi.
  - rewrite Hfs. apply Hi.
  - apply Hi.
  - unfold position_ok. rewrite Hfs. apply Hi.
Qed.
Lemma file_inv_touched fl f file cl t : file_inv fl f file cl → file_inv fl f (set_touched t file) cl.
Proof. intros []. by split. Qed.
Lemma stored_ok_tables fl f f' d cl :
  stored_ok fl f d cl → Forall (cluster_ok f) cl →
  (∀ id, cluster_ok f id → fat_entry fl f' id = fat_entry fl f id) → stored_ok fl f' d cl.
Proof.
  unfold stored_ok. intros Hst Hok He. destruct (no_fat_chain d); [done|]. destruct Hst as [Hl Hend]. split.
  - intros i a b Ha Hb. rewrite He; [eauto|]. by apply (Forall_lookup_1 _ _ _ _ Hok Ha).
  - intros l Hlast. rewrite He; [eauto|]. rewrite last_lookup in Hlast.
    by apply (Forall_lookup_1 _ _ _ _ Hok Hlast).
Qed.

Lemma search_start_ok fl f file cl :
  file_inv fl f file cl → 2 ≤ search_start (allocator f) (chain file) < 2 ^ 32.
Proof.
  intros Hi. pose proof (file_vol _ _ _ _ Hi) as Hv. pose proof (vol_rover _ _ Hv).
  pose proof (data_clusters_ok f cl (file_clusters _ _ _ _ Hi)) as Hok. rewrite Forall_forall in Hok.
  destruct (vol_geometry _ _ Hv) as [_ _ [_ [Hcc _]] _ _ _ _]. unfold cluster_ok, CLUSTER_LEN in *.
  pose proof (file_chain _ _ _ _ Hi) as Hch. destruct (chain file) as [|first n|first l n]; cbn in *.
  - done.
  - destruct Hch as [-> Hn]. specialize (Hok (first + n - 1) ltac:(apply elem_of_seqZ; lia)). lia.
  - destruct Hch as (_ & Hl & _). rewrite last_lookup in Hl. apply list_elem_of_lookup_2 in Hl.
    specialize (Hok l Hl). lia.
Qed.

(** One round of the loop: a run is allocated, then appended to the file. *)
Lemma allocate_round_ok fl f file cl count :
  grow_inv fl f file cl → 0 < count →
  let alloc := zoom ltouched (zoom (with_touched lallocdev) (allocate (chain file) count)) in
  (∃ run file1 f1 file' f', alloc (file, f) = ((file1, f1), Ok run) ∧
    update_chain run (file1, f1) = ((file', f'), Ok ()) ∧
    0 < cluster_count run ≤ count ∧ grown_by fl f file cl (run_clusters run) f' file') ∨
  (∃ f', alloc (file, f) = ((file, f'), Err DiskFull) ∧ grown_by fl f file cl [] f' file ∧
    ∀ k, cluster_ok f k → is_allocated fl f k = true).
Proof.
  intros [Hi Hst Hnc Hal Hfree Htou] Hc alloc. pose proof (file_vol _ _ _ _ Hi) as Hv.
  destruct (vol_allocate fl f (touched file) (chain file) count Hv (proj1 Htou) Hc
    (search_start_ok fl f file cl Hi)) as (t1 & f1 & o & Ha & Hop1 & Ho).
  pose proof (op_inv _ _ _ _ _ _ Hop1) as Hv1. pose proof (op_step _ _ _ _ _ _ Hop1) as Hst1.
  pose proof (data_clusters_ok _ _ (file_clusters _ _ _ _ Hi)) as Hokc.
  assert (He1 : ∀ id, cluster_ok f id → fat_entry fl f1 id = fat_entry fl f id)
    by (intros id; by apply (fat_entry_bitmap_op fl (touched file) f t1 f1)).
  assert (Hok1 : ∀ id, cluster_ok f1 id ↔ cluster_ok f id)
    by (intros; by eapply vol_op_cluster_ok).
  pose proof (file_inv_tables fl _ f f1 file cl Hi Hv1 Hst1 He1) as Hi1.
  pose proof (stored_ok_tables fl f f1 _ cl Hst Hokc He1) as Hs1.
  rewrite Forall_forall in Hal, Hokc.
  destruct o as [run|[]| |]; try done.
  2: { right. destruct Ho as [-> Hfull]. exists f1. split; [|split]; [| |intros; by apply Hfull].
    { eapply zoom_to; [exact Ha|]. cbn. by rewrite set_touched_id. }
    split; rewrite ?app_nil_r.
    - split; [done..| | |by eapply vol_op_touched].
      + apply Forall_forall. intros id Hid. apply Hfull. auto.
      + intros id Hid%Hok1 Hna. destruct (Hfull id Hid). congruence.
    - apply same_file_refl.
    - eapply vol_op_weaken; [|exact Hop1]. intros s. by right.
    - intros id Hid _. auto.
    - by intros k ?%elem_of_nil.
    - intros k Hk _. destruct (Hfull k Hk). congruence. }
  left. destruct Ho as (Hrun & Hcount & Hmark). exists run, (set_touched t1 file), f1.
  assert (Hin : ∀ k, k ∈ run_clusters run ↔ in_run run k)
    by (intros k; unfold run_clusters, in_run; rewrite elem_of_seqZ; lia).
  assert (Hdc : ∀ id, data_cluster f1 id ↔ data_cluster f id) by (intros; by eapply data_cluster_op).
  assert (Hnd : NoDup (cl ++ run_clusters run)).
  { apply NoDup_app. split_and!; [apply Hi| |apply NoDup_seqZ]. intros k Hk Hk'%Hin%Hrun.
    specialize (Hal k Hk). destruct Hk'. congruence. }
  destruct (update_chain_ok fl f1 (set_touched t1 file) cl run)
    as (file' & f' & Hup & Hop2 & Hsf & Hfs2 & Hi2 & Hs2 & Hnc2);
    [by eapply file_inv_touched|apply Hop1|done|done|lia| |done|].
  { apply Forall_forall. intros k Hk%Hin%Hrun. apply Hdc, Hfree; apply Hk. }
  exists file', f'. pose proof (op_inv _ _ _ _ _ _ Hop2) as Hv2.
  assert (Hal2 : ∀ k, cluster_ok f k →
    is_allocated fl f' k = if decide (in_run run k) then true else is_allocated fl f k).
  { intros k Hk. rewrite <-Hmark by done. apply (is_allocated_fat_op fl t1 f1 (touched file') f' k); [done..|].
    by apply Hok1. }
  assert (Hop : vol_op fl (table_region fl f) (touched file) f (touched file') f').
  { eapply vol_op_trans; [eapply vol_op_weaken; [|exact Hop1]; intros s; by right|].
    eapply vol_op_weaken; [|exact Hop2]. intros s Hs. left. unfold fat_region in *.
    by rewrite <-(step_fs _ _ _ _ Hst1). }
  split; [by eapply zoom_to|]. split; [exact Hup|]. split; [lia|]. split.
  - split; [done..| | |by eapply vol_op_touched].
    + apply Forall_forall. intros k [Hk|Hk]%elem_of_app.
      * rewrite Hal2 by auto. case_decide; auto.
      * apply Hin in Hk. rewrite Hal2 by apply Hrun, Hk. by rewrite decide_True.
    + intros id Hid Hna. assert (Hid' : cluster_ok f id) by by apply (vol_op_cluster_ok _ _ _ _ _ _ _ Hop).
      rewrite Hal2 in Hna by done. case_decide; [done|]. apply (data_cluster_op _ _ _ _ _ _ _ Hop). auto.
  - exact Hsf.
  - exact Hop.
  - intros id Hid Hni. rewrite Hfs2 by (done || by apply Hok1). auto.
  - intros k Hk%Hin. by apply Hrun.
  - intros k Hk Hni. rewrite Hal2 by done. rewrite decide_False; [done|]. by rewrite <-Hin.
Qed.

Lemma grown_by_trans fl f0 file0 cl nl1 f1 file1 nl2 f2 file2 :
  grown_by fl f0 file0 cl nl1 f1 file1 → grown_by fl f1 file1 (cl ++ nl1) nl2 f2 file2 →
  grown_by fl f0 file0 cl (nl1 ++ nl2) f2 file2.
Proof.
  intros [_ Hsf Hop Hfat Hfree Hal] [Hi Hsf' Hop' Hfat' Hfree' Hal'].
  assert (Hok : ∀ id, cluster_ok f1 id ↔ cluster_ok f0 id) by (intros; by eapply vol_op_cluster_ok).
  pose proof (op_step _ _ _ _ _ _ Hop) as Hst. split.
  - by rewrite app_assoc.
  - by eapply same_file_trans.
  - eapply vol_op_trans; [exact Hop|]. eapply vol_op_weaken; [|exact Hop'].
    unfold table_region, fat_region, bitmap_region. intros s.
    by rewrite (step_fs _ _ _ _ Hst), (step_bitmap _ _ _ _ Hst).
  - intros id Hid. rewrite app_assoc. intros Hni. rewrite Hfat' by (done || by apply Hok).
    apply Hfat; [done|]. intros Hx. apply Hni, elem_of_app. by left.
  - intros k [Hk|Hk]%elem_of_app; [auto|]. destruct (Hfree' k Hk) as [Hc%Hok Hf].
    split; [done|]. destruct (decide (k ∈ nl1)) as [?|Hni]; [by apply Hfree|]. by rewrite <-Hal.
  - intros k Hk [Hn1 Hn2]%not_elem_of_app. rewrite Hal' by (done || by apply Hok). auto.
Qed.

(** The loop hands out as many clusters as asked for, in one or more runs, or
    finds that no cluster is free. *)
Lemma allocate_loop_ok n fl f file cl count :
  grow_inv fl f file cl → 0 < count → (Z.to_nat count < n)%nat → count < 2 ^ 32 →
  ∃ file' f' nl o, allocate_loop n count (file, f) = ((file', f'), o) ∧
    grown_by fl f file cl nl f' file' ∧
    match o with
    | Ok () => len nl = count
    | Err DiskFull => len nl < count ∧ ∀ k, cluster_ok f' k → is_allocated fl f' k = true
    | _ => False
    end.
Proof.
  revert f file cl count. induction n as [|n IH]; intros f file cl count Hg Hc Hn Hmax; [lia|].
  cbn [allocate_loop]. unfold get_file. rewrite (bind_Ok (gets fst) _ _ (file, f) file) by done.
  destruct (allocate_round_ok fl f file cl count Hg Hc)
    as [(run & file1 & f1 & file2 & f2 & Ha & Hup & Hcount & Hg2)|(f1 & Ha & Hg1 & Hfull)].
  - rewrite (bind_Ok _ _ _ _ _ Ha), (bind_Ok _ _ _ _ _ Hup). rewrite sub_ok, bind_lift_Ok by lia.
    assert (Hlr : len (run_clusters run) = cluster_count run)
      by (unfold len, run_clusters; rewrite length_seqZ; lia).
    destruct (Z.eqb_spec (count - cluster_count run) 0) as [He|Hne].
    { exists file2, f2, (run_clusters run), (Ok ()). split_and!; [done|done|lia]. }
    destruct (IH f2 file2 _ (count - cluster_count run) (grown_inv _ _ _ _ _ _ _ Hg2))
      as (file' & f' & nl & o & Hr & Hg' & Ho); [lia..|].
    exists file', f', (run_clusters run ++ nl), o. split; [done|]. split; [by eapply grown_by_trans|].
    rewrite len_app. destruct o as [[]|[]| |]; try done; [lia|]. split; [lia|apply Ho].
  - rewrite (bind_Err _ _ _ _ _ Ha). exists file, f1, [], (Err DiskFull).
    split_and!; [done..|by change (len (@nil Z)) with 0|].
    intros k Hk. assert (cluster_ok f k)
      by (by apply (vol_op_cluster_ok _ _ _ _ _ _ _ (grown_op _ _ _ _ _ _ _ Hg1))).
    rewrite (grown_alloc _ _ _ _ _ _ _ Hg1); [auto|done|by intros ?%elem_of_nil].
Qed.
End Allocating.

(** * Theorems *)
Section Theorems.
Context {cfg : Config} {crates : Crates} {bd : BlockDevice} {fu : Fuel}.
Context {Hcfg : ConfigOk cfg} {Hcr : CratesOk crates} {Hbd : DeviceOk cfg bd}.
Implicit Types (f : FileSystem) (file : File) (cl nl : list Z).

Lemma allocate_clusters_for_ok fl f file cl num_bytes :
  grow_inv fl f file cl → 0 < num_bytes < 2 ^ usize →
  let count := (num_bytes + cluster_length (fs f) - 1) / cluster_length (fs f) in
  count < 2 ^ 32 →
  ∃ file' f' nl o, allocate_clusters_for num_bytes (file, f) = ((file', f'), o) ∧
    grown_by fl f file cl nl f' file' ∧
    match o with
    | Ok () => len nl = count
    | Err DiskFull => len nl < count ∧ ∀ k, cluster_ok f' k → is_allocated fl f' k = true
    | _ => False
    end.
Proof.
  intros Hg Hn count Hmax. pose proof (file_vol _ _ _ _ (grow_file _ _ _ _ Hg)) as Hv.
  destruct (cluster_length_pos fl f Hv) as (? & ? & _).
  assert (0 < count) by (apply Z.div_str_pos; lia).
  unfold allocate_clusters_for, get_fs. rewrite (bind_Ok (gets _) _ _ (file, f) (fs f)) by done.
  rewrite (cast_id usize (cluster_length (fs f))) by (destruct usize_cases as [-> | ->]; lia).
  rewrite div_ceil_ok, bind_lift_Ok by lia. fold count. rewrite (cast_id u32 count) by lia.
  apply allocate_loop_ok; [done|done|lia|done].
Qed.

(** C3 - growing a file keeps what the open file, the FAT and the bitmap say
    about its clusters in agreement: [allocate_clusters_for] adds clusters
    that were free to the end of the file, as many as the bytes need, marks
    exactly them as taken, and leaves the cluster list of the file, its chain
    (a run as long as every piece is adjacent, else a FAT chain with an end
    marker), its data, the FAT entries and bits of all other clusters, and
    everything outside FAT and bitmap as they were; sectors it does not leave
    on the device are recorded.  It fails only when the disk is full, and then
    the file is still consistent. *)
Theorem growing_keeps_chain fl f file cl num_bytes :
  grow_inv fl f file cl → 0 < num_bytes < 2 ^ usize →
  (num_bytes + cluster_length (fs f) - 1) / cluster_length (fs f) < 2 ^ 32 →
  ∃ file' f' nl o, allocate_clusters_for num_bytes (file, f) = ((file', f'), o) ∧
    grown_by fl f file cl nl f' file' ∧
    match o with
    | Ok () => len nl = (num_bytes + cluster_length (fs f) - 1) / cluster_length (fs f)
    | Err DiskFull => ∀ k, cluster_ok f' k → is_allocated fl f' k = true
    | _ => False
    end.
Proof.
  intros Hg Hn Hc. destruct (allocate_clusters_for_ok fl f file cl num_bytes Hg Hn Hc)
    as (file' & f' & nl & o & Hr & Hg' & Ho).
  exists file', f', nl, o. split_and!; [done|done|]. destruct o as [[]|[]| |]; try done. apply Ho.
Qed.
End Theorems.

(** * A concrete file *)
Section Sample.
#[local] Existing Instance debug_build.
#[local] Existing Instance dummy_device.
#[local] Existing Instance reference_crates.
#[local] Existing Instance reference_crates_ok.
#[local] Existing Instance debug_build_ok.
#[local] Instance sample_grow_device_ok : DeviceOk debug_build dummy_device := blank_ok.
#[local] Instance sample_grow_fuel : Fuel := 10%nat.

(** On [fragmented_volume] clusters 4, 6, 8 and 9 are free. *)
Lemma fragmented_grow_inv : grow_inv 1 fragmented_volume fragmented_file [5; 7].
Proof.
  split.
  - apply fragmented_file_inv.
  - split; [apply fragmented_file_inv|]. intros l [= <-]. vm_compute. reflexivity.
  - done.
  - apply (bool_decide_unpack _). vm_compute. exact I.
  - intros id Hid Hna. destruct (decide (id = 2)) as [->|Hne]; [vm_compute in Hna; congruence|].
    split; [done|]. intros k Hk. unfold cluster_ok in Hid.
    unfold cluster_sector, data_region, heap_region, bitmap_region. cbn in *. lia.
  - split; [apply FileDirty_new_ok|]. apply Forall_nil_2.
Qed.

(** 1300 bytes need three clusters: 8 and 9, then 4. *)
Lemma growing_keeps_chain_witness :
  ∃ file' f' nl, allocate_clusters_for 1300 (fragmented_file, fragmented_volume) = ((file', f'), Ok ()) ∧
    grow_inv 1 f' file' ([5; 7] ++ nl) ∧ len nl = 3 ∧ chain file' = FatChain 5 4 5.
Proof.
  destruct (growing_keeps_chain 1 fragmented_volume fragmented_file [5; 7] 1300 fragmented_grow_inv)
    as (file' & f' & nl & o & Hr & Hg & Ho); [vm_compute; split; reflexivity|vm_compute; reflexivity|].
  pose proof (eq_refl : snd (allocate_clusters_for 1300 (fragmented_file, fragmented_volume)) = Ok ()) as H1.
  pose proof (eq_refl : chain (fst (fst (allocate_clusters_for 1300 (fragmented_file, fragmented_volume)))) =
    FatChain 5 4 5) as H2.
  rewrite Hr in H1, H2. cbn [fst snd] in H1, H2. subst o. exists file', f', nl.
  split; [exact Hr|]. split; [exact (grown_inv _ _ _ _ _ _ _ Hg)|]. split; [exact Ho|exact H2].
Defined.
End Sample.
