(* ===== verification/FreeChain.v ===== *)
(** * Freeing the clusters of a file

    [Allocator::free] of src/allocation.rs takes the clusters of a stored chain
    out of the bitmap and, for a chain of the FAT, out of the FAT. *)

From S2P Require Import Prelude Text Crates Errors Utils Timestamp BootSector Device SlotCache Touched Fat Allocation AllocationSearch Regions DirectoryEntry Volume VolumeInv VolumeAlloc Directory FileSystem File FileRead FileGrow.
Import FileSystemDetails (cluster_length, sectors_per_cluster, cluster_heap_offset, fat_offset).

(** * Specification *)
Section Spec.
Context {cfg : Config} {crates : Crates} {bd : BlockDevice} {Hbd : DeviceOk cfg bd}.
Implicit Types (f : FileSystem) (t : FileDirty) (cl : list Z).

(** The clusters [cl] were taken out of the bitmap and those in [zeroed] out of
    the FAT, and nothing else changed. *)
Record freed (fl : Z) (cl zeroed : list Z) t f t' f' : Prop := {
  freed_op : vol_op fl (table_region fl f) t f t' f';
  freed_bits k : cluster_ok f k → is_allocated fl f' k = if decide (k ∈ cl) then false else is_allocated fl f k;
  freed_fat k : cluster_ok f k →
    fat_entry fl f' k = if decide (k ∈ zeroed) then NO_CLUSTER_ID else fat_entry fl f k;
}.

(** The clusters of a chain that have entries in the FAT. *)
Definition chained (c : StoredChain) cl : list Z := match c with FatChain _ _ _ => cl | _ => [] end.

(** [f'] differs from [f] at most in what [free] borrows. *)
Definition only_tables f f' : Prop := put lfree (view lfree f') f = f'.
End Spec.

(** * Lemmas *)
Section Lemmas.
Context {cfg : Config} {crates : Crates} {bd : BlockDevice} {fu : Fuel}.
Context {Hcfg : ConfigOk cfg} {Hcr : CratesOk crates} {Hbd : DeviceOk cfg bd}.
Implicit Types (f : FileSystem) (t : FileDirty) (cl : list Z).
Abbreviation borrowed t f := (view (with_touched lfree) (t, f)).

Lemma only_tables_refl f : only_tables f f.
Proof. by destruct f. Qed.
Lemma only_tables_trans f f1 f2 : only_tables f f1 → only_tables f1 f2 → only_tables f f2.
Proof. unfold only_tables. intros <- <-. reflexivity. Qed.

(** Operations on one of the tables, inside and outside of [free]. *)
Lemma borrow_alloc {A} (m : M (FileDirty * (Allocator * dev)) err A) t f t' f' o :
  zoom (with_touched lallocdev) m (t, f) = ((t', f'), o) →
  zoom lalloc m (borrowed t f) = (borrowed t' f', o) ∧ only_tables f f'.
Proof.
  unfold zoom. cbn. destruct (m (t, (allocator f, device f))) as [[t1 [a1 d1]] o1]. cbn.
  intros [= <- <- <-]. split; reflexivity.
Qed.
Lemma borrow_fat {A} (m : M (FileDirty * (Fat * dev)) err A) t f t' f' o :
  zoom (with_touched lfatdev) m (t, f) = ((t', f'), o) →
  zoom lfat m (borrowed t f) = (borrowed t' f', o) ∧ only_tables f f'.
Proof.
  unfold zoom. cbn. destruct (m (t, (fat f, device f))) as [[t1 [a1 d1]] o1]. cbn.
  intros [= <- <- <-]. split; reflexivity.
Qed.
Lemma borrow_fat_read {A} (m : M (Fat * dev) err A) t f f' o :
  zoom lfatdev m f = (f', o) →
  zoom lfat (zoom lsnd m) (borrowed t f) = (borrowed t f', o) ∧ only_tables f f'.
Proof.
  unfold zoom. cbn. destruct (m (fat f, device f)) as [[a1 d1] o1]. cbn. intros [= <- <-]. split; reflexivity.
Qed.
Lemma free_borrowed c t f t' f' o :
  free c (borrowed t f) = (borrowed t' f', o) → only_tables f f' →
  zoom (with_touched lfree) (free c) (t, f) = ((t', f'), o).
Proof. intros Hf Ho. eapply zoom_to; [exact Hf|]. cbn. f_equal. exact Ho. Qed.

(** ** Steps *)
Lemma decide_bool_decide {A} (P : Prop) `{Decision P} (x y : A) : (if decide P then x else y) = if bool_decide P then x else y.
Proof. by destruct (decide P) as [Hp|Hp]; [rewrite bool_decide_true|rewrite bool_decide_false]. Qed.
Lemma bool_decide_app (k : Z) cl cl' : bool_decide (k ∈ cl ++ cl') = bool_decide (k ∈ cl) || bool_decide (k ∈ cl').
Proof. rewrite <-bool_decide_or. apply bool_decide_ext. apply elem_of_app. Qed.
Lemma freed_refl fl t f : vol_inv fl f → dirty_ok t → freed fl [] [] t f t f.
Proof. intros Hv Ht. split; [by apply vol_op_refl|done..]. Qed.
Lemma freed_trans fl cl cl' z z' t f t1 f1 t2 f2 :
  freed fl cl z t f t1 f1 → freed fl cl' z' t1 f1 t2 f2 → freed fl (cl ++ cl') (z ++ z') t f t2 f2.
Proof.
  intros [Hop Hb Hf] [Hop' Hb' Hf']. pose proof (op_step _ _ _ _ _ _ Hop) as Hst.
  assert (Hc : ∀ k, cluster_ok f k → cluster_ok f1 k) by (intros k; unfold cluster_ok; by rewrite (step_fs _ _ _ _ Hst)).
  split.
  - eapply vol_op_trans; [exact Hop|]. eapply vol_op_weaken; [|exact Hop']. intros s.
    unfold table_region, fat_region, bitmap_region. by rewrite (step_fs _ _ _ _ Hst), (step_bitmap _ _ _ _ Hst).
  - intros k Hk. rewrite Hb', Hb by auto. rewrite !decide_bool_decide, bool_decide_app. by destruct (bool_decide (k ∈ cl)), (bool_decide (k ∈ cl')).
  - intros k Hk. rewrite Hf', Hf by auto. rewrite !decide_bool_decide, bool_decide_app. by destruct (bool_decide (k ∈ z)), (bool_decide (k ∈ z')).
Qed.

Lemma freed_same fl cl z t f f1 t' f' :
  vol_same fl f f1 → vol_inv fl f → vol_inv fl f1 → dirty_ok t → freed fl cl z t f1 t' f' → freed fl cl z t f t' f'.
Proof.
  intros Hst Hv Hv1 Ht Hfr. apply (freed_trans fl [] cl [] z t f t f1 t' f'); [|done].
  split; [by apply vol_op_same| |]; intros k Hk; rewrite decide_False by set_solver;
    [apply (is_allocated_step fl _ _ _ _ Hv Hst Hk)|apply (fat_entry_step fl _ _ _ _ Hv Hst Hk)]; tauto.
Qed.
Lemma freed_bitmap fl f t run :
  vol_inv fl f → dirty_ok t → run_ok (allocator f) run →
  ∃ t' f', zoom (with_touched lallocdev) (mark_allocated run false) (t, f) = ((t', f'), Ok ()) ∧
    freed fl (seqZ (first_cluster run) (cluster_count run)) [] t f t' f'.
Proof.
  intros Hv Ht Hr. destruct (vol_mark_allocated fl f t run false Hv Ht Hr) as (t' & f' & Hm & Hop & Hb).
  exists t', f'. split; [done|]. split.
  - eapply vol_op_weaken; [|exact Hop]. by right.
  - intros k Hk. rewrite Hb by done. unfold in_run.
    destruct (decide (_ ∧ _)), (decide (k ∈ seqZ _ _)) as [Hin|Hin]; rewrite elem_of_seqZ in Hin; done || lia.
  - intros k Hk. rewrite decide_False by set_solver.
    apply (fat_entry_step fl _ f f' k Hv (op_step _ _ _ _ _ _ Hop) Hk).
    destruct (regions_disjoint fl f (fat_sector f k) (vol_geometry _ _ Hv)) as (Hd & _).
    by apply Hd, fat_sector_region.
Qed.
Lemma freed_entry fl f t id :
  vol_inv fl f → dirty_ok t → cluster_ok f id →
  ∃ t' f', zoom (with_touched lfatdev) (Fat.set id NO_CLUSTER_ID) (t, f) = ((t', f'), Ok ()) ∧
    freed fl [] [id] t f t' f'.
Proof.
  intros Hv Ht Hid. destruct (vol_fat_set fl f t id NO_CLUSTER_ID Hv Ht Hid ltac:(by vm_compute)) as (t' & f' & Hm & Hop & He).
  exists t', f'. split; [done|]. split.
  - eapply vol_op_weaken; [|exact Hop]. intros s ->. left. by apply fat_sector_region.
  - intros k Hk. rewrite decide_False by set_solver. apply (is_allocated_fat_op fl t f t' f' k Hv); [|done].
    eapply vol_op_weaken; [|exact Hop]. intros s ->. by apply fat_sector_region.
  - intros k Hk. rewrite He by done. destruct (decide (k = id)), (decide (k ∈ [id])) as [Hin|Hin];
      rewrite list_elem_of_singleton in Hin; done.
Qed.

(** ** The loop over a FAT chain *)
Lemma one_cluster_run fl f id : vol_inv fl f → cluster_ok f id → run_ok (allocator f) {| first_cluster := id; cluster_count := 1 |}.
Proof. intros Hv Hid. unfold run_ok, cluster_ok in *. rewrite (vol_limit fl f Hv). cbn. lia. Qed.
Lemma linked_tail fl f id cl : linked fl f (id :: cl) → linked fl f cl.
Proof. intros Hl i a b Ha Hb. by apply (Hl (S i) a b). Qed.

Lemma free_step_ok fl f t id (rest : option Z → M (FileDirty * (Allocator * (Fat * dev))) err ()) :
  vol_inv fl f → dirty_ok t → cluster_ok f id →
  ∃ t' f', (next ← zoom lfat (zoom lsnd (next_cluster_in_fat_chain id));
      zoom lalloc (mark_allocated {| first_cluster := id; cluster_count := 1 |} false) ;;
      zoom lfat (Fat.set id NO_CLUSTER_ID) ;; rest next) (borrowed t f) =
      rest (successor (fat_entry fl f id)) (borrowed t' f') ∧ only_tables f f' ∧ freed fl [id] [id] t f t' f'.
Proof.
  intros Hv Ht Hid. destruct (fat_next fl f id Hv Hid) as (f1 & Hn & Hv1 & Hst1).
  assert (Hid1 : cluster_ok f1 id) by (unfold cluster_ok; by rewrite (step_fs _ _ _ _ Hst1)).
  destruct (freed_bitmap fl f1 t {| first_cluster := id; cluster_count := 1 |} Hv1 Ht) as (t2 & f2 & Hm & Hfr2);
    [by eapply one_cluster_run|]. pose proof (freed_op _ _ _ _ _ _ _ Hfr2) as Hop2.
  assert (Hid2 : cluster_ok f2 id) by (unfold cluster_ok; by rewrite (step_fs _ _ _ _ (op_step _ _ _ _ _ _ Hop2))).
  destruct (freed_entry fl f2 t2 id (op_inv _ _ _ _ _ _ Hop2) (proj1 (op_tracks _ _ _ _ _ _ Hop2)) Hid2)
    as (t3 & f3 & Hz & Hfr3).
  destruct (borrow_fat_read _ t _ _ _ Hn) as [Hn' Ho1]. destruct (borrow_alloc _ _ _ _ _ _ Hm) as [Hm' Ho2].
  destruct (borrow_fat _ _ _ _ _ _ Hz) as [Hz' Ho3]. exists t3, f3. split; [|split].
  - by rewrite (bind_Ok _ _ _ _ _ Hn'), (bind_Ok _ _ _ _ _ Hm'), (bind_Ok _ _ _ _ _ Hz').
  - eapply only_tables_trans; [exact Ho1|]. by eapply only_tables_trans.
  - apply (freed_same fl _ _ t f f1); [done..|]. exact (freed_trans fl [id] [] [] [id] _ _ _ _ _ _ Hfr2 Hfr3).
Qed.

Lemma free_loop_ok fl cl : ∀ f t id,
  vol_inv fl f → dirty_ok t → Forall (cluster_ok f) (id :: cl) → NoDup (id :: cl) → linked fl f (id :: cl) →
  ∃ t' f', free_loop (length (id :: cl)) id (borrowed t f) = (borrowed t' f', Ok ()) ∧ only_tables f f' ∧
    freed fl (id :: cl) (id :: cl) t f t' f'.
Proof.
  induction cl as [|next cl IH]; intros f t id Hv Ht Hok Hnd Hl; cbn [length free_loop]; pose proof Hok as [Hid Hok']%Forall_cons.
  - destruct (free_step_ok fl f t id (λ o, match o with Some next => free_loop 0 next | None => mret () end) Hv Ht Hid)
      as (t1 & f1 & Hrun & Ho & Hfr).
    exists t1, f1. split; [|done]. etransitivity; [exact Hrun|]. by destruct (successor _).
  - destruct (free_step_ok fl f t id (λ o, match o with Some next => free_loop (S (length cl)) next | None => mret () end)
      Hv Ht Hid) as (t1 & f1 & Hrun & Ho & Hfr).
    rewrite (Hl 0%nat id next eq_refl eq_refl) in Hrun. pose proof Hfr as [Hop Hb Hf].
    pose proof (step_fs _ _ _ _ (op_step _ _ _ _ _ _ Hop)) as Hfs. apply NoDup_cons in Hnd as [Hni Hnd].
    assert (Hc : ∀ k, cluster_ok f k ↔ cluster_ok f1 k) by (intros k; unfold cluster_ok; by rewrite Hfs).
    destruct (IH f1 t1 next (op_inv _ _ _ _ _ _ Hop) (proj1 (op_tracks _ _ _ _ _ _ Hop))) as (t2 & f2 & Hrun2 & Ho2 & Hfr2).
    + eapply Forall_impl; [exact Hok'|]. intros k. by apply Hc.
    + done.
    + intros i a b Ha Hb'. apply linked_tail in Hl. rewrite Hf, decide_False; [by apply (Hl i)| |].
      * intros ->%list_elem_of_singleton. apply Hni. by eapply list_elem_of_lookup_2.
      * rewrite Forall_forall in Hok'. apply Hok'. by eapply list_elem_of_lookup_2.
    + exists t2, f2. split; [etransitivity; [exact Hrun|done]|]. split; [by eapply only_tables_trans|].
      by apply (freed_trans fl [id] (next :: cl) [id] (next :: cl) t f t1 f1).
Qed.

Lemma free_ok fl f t c cl :
  vol_inv fl f → dirty_ok t → Forall (cluster_ok f) cl → NoDup cl → chain_clusters fl f c cl →
  ∃ t' f', zoom (with_touched lfree) (free c) (t, f) = ((t', f'), Ok ()) ∧ freed fl cl (chained c cl) t f t' f'.
Proof.
  intros Hv Ht Hok Hnd Hc. destruct c as [|first n|first l n]; cbn [chain_clusters chained] in *.
  - subst cl. exists t, f. split; [by destruct f|by apply freed_refl].
  - destruct Hc as [-> Hn]. rewrite Forall_forall in Hok.
    destruct (freed_bitmap fl f t {| first_cluster := first; cluster_count := n |} Hv Ht) as (t' & f' & Hm & Hfr).
    { pose proof (Hok first ltac:(apply elem_of_seqZ; lia)). pose proof (Hok (first + n - 1) ltac:(apply elem_of_seqZ; lia)).
      unfold run_ok, cluster_ok in *. rewrite (vol_limit fl f Hv). cbn. lia. }
    exists t', f'. destruct (borrow_alloc _ _ _ _ _ _ Hm) as [Hm' Ho]. split; [|done]. by apply free_borrowed.
  - destruct Hc as (Hh & _ & Hn & Hl). destruct cl as [|id cl]; [done|]. injection Hh as ->.
    destruct (free_loop_ok fl cl f t first Hv Ht Hok Hnd Hl) as (t' & f' & Hrun & Ho & Hfr).
    exists t', f'. split; [|done]. apply free_borrowed; [|done]. cbn [free]. rewrite <-Hn. unfold len.
    rewrite Nat2Z.id. exact Hrun.
Qed.
End Lemmas.

(** * Theorems *)
Section Theorems.
Context {cfg : Config} {crates : Crates} {bd : BlockDevice} {fu : Fuel}.
Context {Hcfg : ConfigOk cfg} {Hcr : CratesOk crates} {Hbd : DeviceOk cfg bd}.

(** C30 - freeing the chain of a file: exactly its clusters become free in the
    bitmap, the entries of a FAT chain become 0, all other bits and FAT entries
    and all data stay, and every sector that changed is in the dirty list.  The
    loop along the FAT ends after the last cluster. *)
Theorem free_releases_chain fl (f : FileSystem) (t : FileDirty) c cl :
  vol_inv fl f → dirty_ok t → Forall (cluster_ok f) cl → NoDup cl → chain_clusters fl f c cl →
  ∃ t' f', zoom (with_touched lfree) (free c) (t, f) = ((t', f'), Ok ()) ∧ freed fl cl (chained c cl) t f t' f'.
Proof. apply free_ok. Qed.
End Theorems.

(** * Freeing a fragmented file *)
Section Sample.
#[local] Existing Instance debug_build.
#[local] Existing Instance dummy_device.
#[local] Existing Instance reference_crates.
#[local] Existing Instance reference_crates_ok.
#[local] Existing Instance debug_build_ok.
#[local] Instance sample_freeing_device_ok : DeviceOk debug_build dummy_device := blank_ok.
#[local] Instance sample_freeing_fuel : Fuel := 10%nat.

Lemma free_releases_chain_witness :
  ∃ t' f', zoom (with_touched lfree) (free (FatChain 5 7 2)) (FileDirty_new, fragmented_volume) = ((t', f'), Ok ()) ∧
    is_allocated 1 f' 5 = false ∧ is_allocated 1 f' 7 = false ∧ is_allocated 1 f' 3 = true ∧
    fat_entry 1 f' 5 = 0 ∧ fat_entry 1 f' 7 = 0.
Proof.
  pose proof fragmented_file_inv as [Hv Hc Hcl _ _ _ _].
  destruct (free_releases_chain 1 fragmented_volume FileDirty_new (FatChain 5 7 2) [5; 7] Hv)
    as (t' & f' & Hr & [_ Hb Hf]); [split; repeat constructor| | |exact Hc|].
  - eapply Forall_impl; [exact Hcl|]. by intros k [? _].
  - apply (bool_decide_unpack _). vm_compute. exact I.
  - assert (Hok : ∀ k, 2 ≤ k < 10 → cluster_ok fragmented_volume k) by (intros k Hk; unfold cluster_ok; cbn; lia).
    exists t', f'. split; [exact Hr|]. rewrite !Hb, !Hf by (apply Hok; lia). split_and!; vm_compute; reflexivity.
Defined.
End Sample.
