(* ===== verification/FileWrite.v ===== *)
(** * Writing a file

    [File::write] of src/file.rs: after growing the file it writes a partial
    first sector, whole sectors, and a partial last one.  [wrote] says what
    writing some bytes at the cursor means for the bytes of the file, for the
    rest of the volume and for the list of touched sectors; it composes, so
    the three parts add up to the buffer.

    The code has one gap, which [write_misses_cluster] singles out: when the
    whole sectors end exactly at the end of a cluster and a partial sector
    follows, the last part does not move on to the next cluster. *)

From S2P Require Import Prelude Text Crates Errors Utils Timestamp BootSector Device SlotCache Touched Fat Allocation AllocationSearch Regions Volume VolumeInv VolumeAlloc DirectoryEntry Directory FileSystem File FileRead FileGrow.
Import FileSystemDetails (cluster_length, sectors_per_cluster, cluster_heap_offset, fat_offset).

(** * Specification *)
Section Spec.
Context {cfg : Config} {crates : Crates} {bd : BlockDevice} {Hbd : DeviceOk cfg bd}.
Implicit Types (f : FileSystem) (file : File) (cl src : list Z).

(** The sectors that hold the [n] bytes at the cursor. *)
Definition cursor_sectors f file cl (n : Z) (s : Z) : Prop :=
  ∃ p, cursor file ≤ p < cursor file + n ∧ s = file_sector f cl p.

(** The bytes [src] were written at the cursor, which is now behind them;
    nothing else of the file and of the volume is different. *)
Record wrote (fl : Z) f file cl src f' file' : Prop := {
  wrote_inv : file_inv fl f' file' cl;
  wrote_cursor : cursor file' = cursor file + len src;
  wrote_file : details file' = details file ∧ open_options file' = open_options file ∧
    chain file' = chain file;
  wrote_op : vol_op fl (cursor_sectors f file cl (len src)) (touched file) f (touched file') f';
  wrote_bytes p : 0 ≤ p < len cl * cluster_length (fs f) →
    file_byte fl f' cl p =
      if decide (cursor file ≤ p < cursor file + len src)
      then src !!! Z.to_nat (p - cursor file) else file_byte fl f cl p;
}.

(** The cached position is the cluster of the cursor itself. *)
Definition located f file cl : Prop :=
  cl !! Z.to_nat (cursor file / cluster_length (fs f)) = Some (current_cluster file) ∧
  remaining_bytes_in_cluster file = cluster_length (fs f) - cursor file mod cluster_length (fs f).

(** At the end of a cluster nothing is left of it: the file is not yet on the
    next one. *)
Definition used_up f file : Prop :=
  cursor file mod cluster_length (fs f) = 0 → remaining_bytes_in_cluster file = 0.

(** The sectors of a list of clusters. *)
Definition cluster_sectors f cl (s : Z) : Prop :=
  ∃ id k, id ∈ cl ∧ 0 ≤ k < sectors_per_cluster (fs f) ∧ s = cluster_sector f id + k.

(** The clusters that are not in the list keep their data, their FAT entry and
    their bit, whoever owns them. *)
Record others_same (fl : Z) cl f f' : Prop := {
  others_fat : fat_same fl cl f f';
  others_alloc id : cluster_ok f id → id ∉ cl → is_allocated fl f' id = is_allocated fl f id;
  others_data id k : data_cluster f id → id ∉ cl → 0 ≤ k < sectors_per_cluster (fs f) →
    vseen fl f' (cluster_sector f id + k) = vseen fl f (cluster_sector f id + k);
}.

(** The gap of [write]. *)
Definition write_misses_cluster f (c n : Z) : Prop :=
  let e := c + n in
  e mod SIZE ≠ 0 ∧ c < e - e mod SIZE ∧ (e - e mod SIZE) mod cluster_length (fs f) = 0.
End Spec.

(** * Lemmas *)
Section Lemmas.
Context {cfg : Config} {crates : Crates} {bd : BlockDevice} {fu : Fuel}.
Context {Hcfg : ConfigOk cfg} {Hcr : CratesOk crates} {Hbd : DeviceOk cfg bd}.
Implicit Types (f : FileSystem) (file : File) (cl src buf : list Z) (t : FileDirty).

(** Different sectors of a file are different sectors of the volume. *)
Lemma file_sector_inj fl f file cl p q :
  file_inv fl f file cl → 0 ≤ p < len cl * cluster_length (fs f) →
  0 ≤ q < len cl * cluster_length (fs f) → file_sector f cl p = file_sector f cl q → p / SIZE = q / SIZE.
Proof.
  intros Hi Hp Hq Heq. destruct (cluster_length_pos fl f (file_vol _ _ _ _ Hi)) as (HS & _ & Hcl).
  destruct (cluster_at fl f file cl p Hi Hp) as (a & Ha & _ & Hat).
  destruct (cluster_at fl f file cl q Hi Hq) as (b & Hb & _ & Hbt).
  unfold file_sector in Heq. rewrite Hat, Hbt in Heq.
  assert (Hn : 0 < sectors_per_cluster (fs f)) by nia.
  assert (Hr : ∀ x, 0 ≤ x mod cluster_length (fs f) / SIZE < sectors_per_cluster (fs f)).
  { intros x. pose proof (Z.mod_pos_bound x (cluster_length (fs f)) ltac:(lia)).
    split; [apply Z.div_pos; lia|apply Z.div_lt_upper_bound; lia]. }
  destruct (cluster_sector_unique f b _ a _ (Hr q) (Hr p) Heq) as [-> Hk].
  assert (Hpq : p / cluster_length (fs f) = q / cluster_length (fs f)).
  { pose proof (NoDup_lookup _ _ _ _ (file_nodup _ _ _ _ Hi) Ha Hb).
    assert (0 ≤ p / cluster_length (fs f)) by (apply Z.div_pos; lia).
    assert (0 ≤ q / cluster_length (fs f)) by (apply Z.div_pos; lia). lia. }
  rewrite Hcl in Hk, Hpq.
  destruct (sector_in_cluster SIZE (sectors_per_cluster (fs f)) p) as [H1 H2]; [lia..|].
  destruct (sector_in_cluster SIZE (sectors_per_cluster (fs f)) q) as [H3 H4]; [lia..|].
  rewrite H1, H3 in Hk. rewrite H2, H4 in Hpq.
  rewrite (Z.div_mod (p / SIZE) (sectors_per_cluster (fs f))), (Z.div_mod (q / SIZE) (sectors_per_cluster (fs f)))
    by lia. by rewrite Hk, Hpq.
Qed.

(** Changing one sector of a file changes the bytes in it. *)
Lemma file_byte_sector fl f f' file cl c b p :
  file_inv fl f file cl → vol_step fl (λ s, s = file_sector f cl c) f f' →
  vseen fl f' (file_sector f cl c) = b →
  0 ≤ c < len cl * cluster_length (fs f) → 0 ≤ p < len cl * cluster_length (fs f) →
  file_byte fl f' cl p = if decide (p / SIZE = c / SIZE) then b !!! Z.to_nat (p mod SIZE)
                         else file_byte fl f cl p.
Proof.
  intros Hi Hst Hb Hc Hp. unfold file_byte. rewrite (file_sector_step fl _ _ _ _ _ Hst).
  destruct (cluster_length_pos fl f (file_vol _ _ _ _ Hi)) as (HS & _ & Hcl).
  assert (Hn : 0 < sectors_per_cluster (fs f)) by nia.
  destruct (decide (p / SIZE = c / SIZE)) as [He|Hne].
  - assert (Hs : file_sector f cl p = file_sector f cl c).
    { unfold file_sector. rewrite Hcl.
      destruct (sector_in_cluster SIZE (sectors_per_cluster (fs f)) p) as [-> ->]; [lia..|].
      destruct (sector_in_cluster SIZE (sectors_per_cluster (fs f)) c) as [-> ->]; [lia..|]. by rewrite He. }
    by rewrite Hs, Hb.
  - rewrite (step_seen _ _ _ _ Hst); [done| |].
    + right; right. by eapply file_sector_region.
    + intros Heq. apply Hne. by apply (file_sector_inj fl f file cl).
Qed.

(** Writing data leaves the tables alone. *)
Lemma fat_entry_data fl f f' P id :
  vol_inv fl f → vol_step fl P f f' → (∀ s, P s → data_region f s) → cluster_ok f id →
  fat_entry fl f' id = fat_entry fl f id.
Proof.
  intros Hv Hst HP Hid. apply (fat_entry_step fl P f f' id Hv Hst Hid). intros Hs%HP.
  pose proof (fat_sector_region fl f id Hv Hid).
  by destruct (regions_disjoint fl f (fat_sector f id) (vol_geometry _ _ Hv)) as (_ & _ & [? _]).
Qed.
Lemma cursor_sectors_data fl f file cl n s :
  file_inv fl f file cl → 0 ≤ n → cursor file + n ≤ len cl * cluster_length (fs f) →
  cursor_sectors f file cl n s → data_region f s.
Proof.
  intros Hi Hn Hc (p & Hp & ->). pose proof (file_cursor _ _ _ _ Hi).
  eapply file_sector_region; [done|lia].
Qed.

(** ** Composing writes *)
Lemma wrote_nil fl f f' file file' cl :
  file_inv fl f file cl → vol_inv fl f' → vol_same fl f f' → cursor_moved file file' →
  cursor file' = cursor file → position_ok f file' cl → dirty_ok (touched file) →
  wrote fl f file cl [] f' file'.
Proof.
  intros Hi Hv Hst (Hd & Ho & Hch & Ht) Hc Hpos Hdt. split.
  - eapply file_inv_moved; [done..|by split_and!|done|apply Hi|done].
  - rewrite Hc. change (len (@nil Z)) with 0. lia.
  - done.
  - rewrite Ht. by apply vol_op_same.
  - intros p Hp. rewrite decide_False by (change (len (@nil Z)) with 0; lia).
    unfold file_byte. rewrite (file_sector_step fl _ _ _ _ _ Hst).
    rewrite (step_seen _ _ _ _ Hst); [done| |tauto]. right; right. by eapply file_sector_region.
Qed.

Lemma wrote_refl fl f file cl :
  file_inv fl f file cl → dirty_ok (touched file) → wrote fl f file cl [] f file.
Proof.
  intros Hi Ht. destruct (decide (cl = [])) as [->|Hcl].
  - split; [done|change (len (@nil Z)) with 0; lia|done|apply vol_op_refl; [apply Hi|done]|].
    intros p Hp. change (len (@nil Z)) with 0 in Hp. lia.
  - apply wrote_nil; [done|apply Hi|apply vol_step_refl|done|done|by apply Hi|done].
Qed.

Lemma wrote_app fl f0 file0 cl s1 f1 file1 s2 f2 file2 :
  file_inv fl f0 file0 cl →
  wrote fl f0 file0 cl s1 f1 file1 → wrote fl f1 file1 cl s2 f2 file2 →
  wrote fl f0 file0 cl (s1 ++ s2) f2 file2.
Proof.
  intros Hi0 [Hi1 Hc1 (Hd1 & Ho1 & Hch1) Hop1 Hb1] [Hi2 Hc2 (Hd2 & Ho2 & Hch2) Hop2 Hb2].
  pose proof (op_step _ _ _ _ _ _ Hop1) as Hst1. pose proof (step_fs _ _ _ _ Hst1) as Hfs1.
  pose proof (len_nonneg s1). pose proof (len_nonneg s2). split.
  - done.
  - rewrite len_app. lia.
  - split_and!; congruence.
  - rewrite len_app. eapply vol_op_trans.
    + eapply vol_op_weaken; [|exact Hop1]. intros s (p & Hp & ->). exists p. split; [lia|done].
    + eapply vol_op_weaken; [|exact Hop2]. intros s (p & Hp & ->). exists p. split; [lia|].
      by apply (file_sector_step fl _ _ _ _ _ Hst1).
  - intros p Hp. rewrite Hb2 by (by rewrite Hfs1). rewrite Hb1, len_app by done.
    assert (Hl1 : len s1 = Z.of_nat (length s1)) by done.
    destruct (decide (cursor file1 ≤ p < cursor file1 + len s2)) as [H2|H2].
    + rewrite decide_True by lia. rewrite lookup_total_app_r by lia. f_equal. lia.
    + destruct (decide (cursor file0 ≤ p < cursor file0 + len s1)) as [H1|H1].
      * rewrite decide_True by lia. rewrite lookup_total_app_l by lia. done.
      * by rewrite decide_False by lia.
Qed.

(** ** Writing within one sector *)
Lemma lookup_total_splice (b src : list Z) (a i : Z) :
  0 ≤ a → a + len src ≤ len b → 0 ≤ i < len b →
  splice b a src !!! Z.to_nat i =
    if decide (a ≤ i < a + len src) then src !!! Z.to_nat (i - a) else b !!! Z.to_nat i.
Proof.
  intros Ha Hl Hi. unfold len in *. rewrite !list_lookup_total_alt. destruct (decide _) as [Hin|Hout].
  - rewrite lookup_splice_in by (unfold len; lia). do 2 f_equal. lia.
  - rewrite lookup_splice_out by (unfold len; lia). done.
Qed.

(** The bytes of a file after [src] was spliced into the sector of position [c]. *)
Lemma file_byte_splice fl f f' file cl c src p :
  file_inv fl f file cl → vol_step fl (λ s, s = file_sector f cl c) f f' →
  vseen fl f' (file_sector f cl c) = splice (vseen fl f (file_sector f cl c)) (c mod SIZE) src →
  0 ≤ c < len cl * cluster_length (fs f) → 0 ≤ p < len cl * cluster_length (fs f) →
  c mod SIZE + len src ≤ SIZE →
  file_byte fl f' cl p =
    if decide (c ≤ p < c + len src) then src !!! Z.to_nat (p - c) else file_byte fl f cl p.
Proof.
  intros Hi Hst Hb Hc Hp Hl. rewrite (file_byte_sector fl f f' file cl c _ p Hi Hst Hb Hc Hp).
  destruct (cluster_length_pos fl f (file_vol _ _ _ _ Hi)) as (HS & _ & Hcl).
  assert (HS0 : SIZE ≠ 0) by lia. assert (HSp : 0 < SIZE) by lia. pose proof (len_nonneg src).
  pose proof (Z.div_mod c SIZE HS0) as Hdc. pose proof (Z.div_mod p SIZE HS0) as Hdp.
  pose proof (Z.mod_pos_bound c SIZE HSp). pose proof (Z.mod_pos_bound p SIZE HSp).
  destruct (decide (p / SIZE = c / SIZE)) as [He|Hne].
  - rewrite He in Hdp. destruct (vseen_ok fl f (file_sector f cl c) (file_vol _ _ _ _ Hi)) as [Hlen _].
    { right; right. by eapply file_sector_region. }
    rewrite lookup_total_splice by lia.
    destruct (decide (c mod SIZE ≤ p mod SIZE < _)); destruct (decide (c ≤ p < _)); try lia.
    + f_equal. lia.
    + unfold file_byte. f_equal. f_equal. unfold file_sector. rewrite Hcl.
      assert (Hn : 0 < sectors_per_cluster (fs f)) by nia.
      destruct (sector_in_cluster SIZE (sectors_per_cluster (fs f)) p) as [-> ->]; [lia..|].
      destruct (sector_in_cluster SIZE (sectors_per_cluster (fs f)) c) as [-> ->]; [lia..|]. by rewrite He.
  - rewrite decide_False; [done|]. intros Hin. apply Hne. symmetry.
    apply Z.div_unique with (p - SIZE * (c / SIZE)); lia.
Qed.

(** Locating the cursor. *)
Lemma located_position fl f file cl :
  vol_inv fl f → 0 ≤ cursor file → located f file cl → position_ok f file cl.
Proof.
  intros Hv Hc [Hcl Hr]. destruct (cluster_length_pos fl f Hv) as (? & ? & _).
  set (CL := cluster_length (fs f)) in *. exists (Z.to_nat (cursor file / CL)).
  assert (HC0 : CL ≠ 0) by lia. pose proof (Z.div_mod (cursor file) CL HC0).
  pose proof (Z.mod_pos_bound (cursor file) CL ltac:(lia)).
  assert (0 ≤ cursor file / CL) by (apply Z.div_pos; lia).
  fold CL. rewrite Z2Nat.id, Hr by lia. split_and!; [done|lia..].
Qed.

(** Bytes that fit the sector of the cursor fit its cluster. *)
Lemma sector_fits_cluster fl f c k :
  vol_inv fl f → 0 ≤ c → c mod SIZE + k ≤ SIZE →
  c mod cluster_length (fs f) + k ≤ cluster_length (fs f).
Proof.
  intros Hv Hc Hk. destruct (cluster_length_pos fl f Hv) as (HS & _ & Hcl).
  set (CL := cluster_length (fs f)) in *. assert (HS0 : SIZE ≠ 0) by lia.
  assert (Hn : 0 < sectors_per_cluster (fs f)) by nia.
  assert (Hcms : c mod CL mod SIZE = c mod SIZE).
  { rewrite Hcl, Z.rem_mul_r, Z.mul_comm, Z.mod_add, Z.mod_mod by lia. done. }
  pose proof (Z.div_mod (c mod CL) SIZE HS0) as Hdm. rewrite Hcms in Hdm.
  pose proof (Z.mod_pos_bound c CL ltac:(lia)).
  assert (c mod CL / SIZE < sectors_per_cluster (fs f)) by (apply Z.div_lt_upper_bound; lia).
  assert (SIZE * (c mod CL / SIZE + 1) ≤ SIZE * sectors_per_cluster (fs f))
    by (apply Z.mul_le_mono_nonneg_l; lia). lia.
Qed.

(** The file behind [k] bytes that were just written. *)
Definition advanced (t : FileDirty) (k : Z) file : File :=
  set_touched t (set_position (current_cluster file) (remaining_bytes_in_cluster file - k)
    (cursor file + k) file).

Lemma advanced_used_up fl f t file k :
  vol_inv fl f →
  remaining_bytes_in_cluster file = cluster_length (fs f) - cursor file mod cluster_length (fs f) →
  0 < k → cursor file mod cluster_length (fs f) + k ≤ cluster_length (fs f) →
  used_up f (advanced t k file).
Proof.
  intros Hv Hr Hk Hfit. destruct (cluster_length_pos fl f Hv) as (? & ? & _).
  unfold used_up. cbn. set (CL := cluster_length (fs f)) in *.
  pose proof (Z.mod_pos_bound (cursor file) CL ltac:(lia)). rewrite <-Z.add_mod_idemp_l by lia.
  intros Hm. destruct (decide (cursor file mod CL + k = CL)); [lia|].
  rewrite Z.mod_small in Hm by lia. lia.
Qed.

Lemma wrote_sector fl f f' t' file cl src :
  file_inv fl f file cl → located f file cl → 0 < len src → cursor file mod SIZE + len src ≤ SIZE →
  cursor file + len src ≤ FileDetails.data_length (details file) →
  let s := file_sector f cl (cursor file) in
  vol_op fl (λ s', s' = s) (touched file) f t' f' →
  vseen fl f' s = splice (vseen fl f s) (cursor file mod SIZE) src →
  wrote fl f file cl src f' (advanced t' (len src) file) ∧ used_up f' (advanced t' (len src) file).
Proof.
  intros Hi Hloc Hk Hsec Hdl s Hop Hs. pose proof (file_vol _ _ _ _ Hi) as Hv.
  pose proof (file_cursor _ _ _ _ Hi). pose proof (file_lengths _ _ _ _ Hi).
  pose proof (op_step _ _ _ _ _ _ Hop) as Hst. pose proof (op_inv _ _ _ _ _ _ Hop) as Hv'.
  pose proof (step_fs _ _ _ _ Hst) as Hfs.
  assert (Hdata : ∀ s', s' = s → data_region f s').
  { intros ? ->. eapply file_sector_region; [done|lia]. }
  split; [|apply (advanced_used_up fl); [done|rewrite Hfs; apply Hloc|done|rewrite Hfs; apply (sector_fits_cluster fl); [done|lia|done]]].
  split; [|done|done| |].
  - assert (Hi' : file_inv fl f' file cl).
    { apply (file_inv_tables fl _ f f' file cl Hi Hv' Hst). intros id. by eapply fat_entry_data. }
    eapply (file_inv_moved fl f' f' (set_touched t' file) (advanced t' (len src) file));
      [by apply file_inv_touched|done|apply vol_step_refl|done|done|cbn; lia|].
    destruct Hloc as [Hcl Hr]. destruct (located_position fl f file cl Hv) as (i & Hcur & Hlo & Hrem & _);
      [lia|done|]. exists i. rewrite Hfs. cbn. split_and!; [done|lia|lia|].
    pose proof (sector_fits_cluster fl f (cursor file) (len src) Hv). lia.
  - eapply vol_op_weaken; [|exact Hop]. intros ? ->. exists (cursor file). split; [lia|done].
  - intros p Hp. apply (file_byte_splice fl f f' file); [done..|lia|done|done].
Qed.
End Lemmas.

(** ** The parts of [write] *)
Section Parts.
Context {cfg : Config} {crates : Crates} {bd : BlockDevice} {fu : Fuel}.
Context {Hcfg : ConfigOk cfg} {Hcr : CratesOk crates} {Hbd : DeviceOk cfg bd}.
Implicit Types (f : FileSystem) (file : File) (cl src buf : list Z) (t : FileDirty).

Lemma located_sector_ok fl f file cl :
  file_inv fl f file cl → located f file cl → cursor file < len cl * cluster_length (fs f) →
  get_current_sector_id (file, f) = ((file, f), Ok (file_sector f cl (cursor file))).
Proof.
  intros Hi [Hcl _] Hc. pose proof (file_cursor _ _ _ _ Hi).
  destruct (cluster_length_pos fl f (file_vol _ _ _ _ Hi)) as (? & ? & _).
  destruct (cursor_sector_ok fl f file cl (cursor file) Hi) as (Hg & Hq & Ha); [lia|].
  rewrite (list_lookup_total_correct _ _ _ Hcl) in Hg, Ha.
  pose proof (Z.mod_pos_bound (cursor file) (cluster_length (fs f)) ltac:(lia)).
  unfold get_current_sector_id, get_file, get_fs.
  rewrite (bind_Ok (gets fst) _ _ (file, f) file) by done.
  rewrite (bind_Ok (gets _) _ _ (file, f) (fs f)) by done.
  rewrite urem_ok, bind_lift_Ok by lia. rewrite Hg, bind_lift_Ok.
  rewrite (cast_id u32 (cursor file mod _)) by lia. by rewrite Hq, bind_lift_Ok, Ha.
Qed.

Lemma splice_bytes (b src : list Z) a :
  Forall byte_ok b → Forall byte_ok src → Forall byte_ok (splice b a src).
Proof.
  intros Hb Hs. unfold splice. apply Forall_app. split; [by apply Forall_take|].
  apply Forall_app. split; [done|by apply Forall_drop].
Qed.

(** How much of [n] bytes a partial write at [c] takes. *)
Definition partial_len (c n : Z) : Z :=
  if (0 <? c mod SIZE) || (Z.min SIZE (c mod SIZE + n) <? SIZE)
  then Z.min SIZE (c mod SIZE + n) - c mod SIZE else 0.

Lemma partial_len_cases c n :
  0 ≤ c → 0 ≤ n →
  let l := partial_len c n in
  0 ≤ l ≤ n ∧ l ≤ SIZE - c mod SIZE ∧ (l < n → (c + l) mod SIZE = 0 ∧ (l = 0 → SIZE ≤ n)).
Proof.
  intros Hc Hn l. pose proof SIZE_range. assert (HSp : 0 < SIZE) by lia.
  pose proof (Z.mod_pos_bound c SIZE HSp). assert (HS0 : SIZE ≠ 0) by lia.
  pose proof (Z.div_mod c SIZE HS0). unfold l, partial_len.
  destruct (Z.ltb_spec 0 (c mod SIZE)); cbn [orb].
  - split; [lia|split; [lia|]]. intros Hl. split; [|lia]. rewrite Z.min_l by lia.
    replace (c + (SIZE - c mod SIZE)) with ((c / SIZE + 1) * SIZE) by lia. by apply Z.mod_mul.
  - destruct (Z.ltb_spec (Z.min SIZE (c mod SIZE + n)) SIZE); [split; lia|].
    split; [lia|split; [lia|]]. rewrite Z.add_0_r. intros. split; lia.
Qed.
Lemma partial_len_aligned c n : c mod SIZE = 0 → 0 ≤ n < SIZE → partial_len c n = n.
Proof.
  intros Hm Hn. unfold partial_len. rewrite Hm, Z.add_0_l, Z.min_r by lia.
  rewrite (proj2 (Z.ltb_lt n SIZE)) by lia. rewrite orb_true_r. lia.
Qed.

(** A partial write up to the move of the cursor: it changes the sector [s] it
    finds for the cursor, and records it. *)
Lemma write_partial_update fl f file s buf :
  vol_inv fl f → dirty_ok (touched file) → 0 ≤ cursor file < 2 ^ 64 → data_region f s →
  get_current_sector_id (file, f) = ((file, f), Ok s) →
  Forall byte_ok buf → SIZE + len buf ≤ 2 ^ usize →
  let k := partial_len (cursor file) (len buf) in
  0 < k →
  ∃ f' t', write_partial_sector buf (file, f) = (move_file_cursor k ;; mret k) (set_touched t' file, f') ∧
    vol_op fl (λ s', s' = s) (touched file) f t' f' ∧
    vseen fl f' s = splice (vseen fl f s) (cursor file mod SIZE) (take (Z.to_nat k) buf).
Proof.
  intros Hv Ht Hc Hdata Hs Hb Hu k Hk. pose proof SIZE_range. assert (HSp : 0 < SIZE) by lia.
  pose proof (Z.mod_pos_bound (cursor file) SIZE HSp) as Hm. pose proof (len_nonneg buf).
  destruct (vseen_ok fl f s Hv (or_intror (or_intror Hdata))) as [Hls Hbs].
  set (e := Z.min SIZE (cursor file mod SIZE + len buf)).
  assert (Hke : (0 <? cursor file mod SIZE) || (e <? SIZE) = true ∧ k = e - cursor file mod SIZE).
  { unfold k, partial_len in *. fold e. fold e in Hk. destruct (_ || _); [done|lia]. }
  destruct Hke as [Hcase Hke]. set (src := take (Z.to_nat k) buf).
  assert (Hlsrc : len src = k) by (unfold src; rewrite len_take; lia).
  destruct (data_update fl f s (λ b, x ← slice buf 0 (e - cursor file mod SIZE);
      copy_into b (cursor file mod SIZE) e x) (splice (vseen fl f s) (cursor file mod SIZE) src) Hv Hdata)
    as (f1 & Hup & Hv1 & Hst1 & Hs1).
  { rewrite slice_ok by lia. cbn [mbind outcome_bind]. rewrite Z.sub_0_r, <-Hke.
    change (drop (Z.to_nat 0) buf) with buf. fold src. apply copy_into_ok; lia. }
  { split; [|apply splice_bytes; [done|by apply Forall_take]].
    unfold len in *. rewrite length_splice; unfold len; lia. }
  exists f1, (insert (TouchedSector_new Data s) (touched file)).
  split; [|split; [|exact Hs1]].
  2: { exact (vol_op_one fl (touched file) f f1 (TouchedSector_new Data s) Hv1 Hst1 Ht Hdata). }
  unfold write_partial_sector. rewrite (proj2 (Z.eqb_neq (len buf) 0)) by lia.
  unfold get_file. rewrite (bind_Ok (gets fst) _ _ (file, f) file) by done.
  rewrite (cast_id u64 SIZE) by lia. rewrite urem_ok, bind_lift_Ok by lia.
  rewrite add_ok, bind_lift_Ok by lia. cbv zeta. rewrite (bind_Ok _ _ _ _ _ Hs). fold e. rewrite Hcase, <-Hke.
  rewrite (bind_Ok _ _ _ (file, f1) ()) by (eapply zoom_to; [rewrite <-Hke in Hup; exact Hup|done]). done.
Qed.

(** A partial write that has nothing to do. *)
Lemma write_partial_none fl f file cl buf :
  file_inv fl f file cl → (buf ≠ [] → located f file cl) → SIZE + len buf ≤ 2 ^ usize →
  cursor file + len buf ≤ FileDetails.data_length (details file) →
  partial_len (cursor file) (len buf) ≤ 0 →
  write_partial_sector buf (file, f) = ((file, f), Ok 0).
Proof.
  intros Hi Hloc Hu Hdl Hk. pose proof (file_cursor _ _ _ _ Hi) as Hcur.
  pose proof (file_lengths _ _ _ _ Hi). pose proof (file_length_bound _ _ _ _ Hi). pose proof SIZE_range.
  assert (HSp : 0 < SIZE) by lia. pose proof (Z.mod_pos_bound (cursor file) SIZE HSp) as Hm.
  unfold write_partial_sector. destruct (Z.eqb_spec (len buf) 0) as [He|Hne]; [done|].
  pose proof (len_nonneg buf). specialize (Hloc ltac:(by intros ->)).
  unfold get_file. rewrite (bind_Ok (gets fst) _ _ (file, f) file) by done.
  rewrite (cast_id u64 SIZE) by lia. rewrite urem_ok, bind_lift_Ok by lia.
  rewrite add_ok, bind_lift_Ok by lia. cbv zeta.
  rewrite (bind_Ok _ _ _ _ _ (located_sector_ok fl f file cl Hi Hloc ltac:(lia))).
  unfold partial_len in Hk. destruct (_ || _); [lia|done].
Qed.

Lemma write_partial_ok fl f file cl buf :
  file_inv fl f file cl → dirty_ok (touched file) → (buf ≠ [] → located f file cl) →
  Forall byte_ok buf → SIZE + len buf ≤ 2 ^ usize →
  cursor file + len buf ≤ FileDetails.data_length (details file) →
  let k := partial_len (cursor file) (len buf) in
  ∃ file' f', write_partial_sector buf (file, f) = ((file', f'), Ok k) ∧
    wrote fl f file cl (take (Z.to_nat k) buf) f' file' ∧ (0 < k → used_up f' file').
Proof.
  intros Hi Ht Hloc Hb Hu Hdl k. pose proof (file_vol _ _ _ _ Hi) as Hv.
  pose proof (file_cursor _ _ _ _ Hi) as Hcur. pose proof (file_lengths _ _ _ _ Hi).
  pose proof (file_length_bound _ _ _ _ Hi). pose proof SIZE_range. pose proof (len_nonneg buf).
  destruct (partial_len_cases (cursor file) (len buf)) as (Hk & Hsec & _); [lia..|]. fold k in Hk, Hsec.
  destruct (decide (k = 0)) as [Hk0|Hk0].
  { exists file, f. rewrite Hk0. change (take (Z.to_nat 0) buf) with (@nil Z).
    split; [by eapply write_partial_none; [..|fold k; lia]|]. split; [|lia].
    by apply wrote_refl. }
  assert (Hne : buf ≠ []) by (intros ->; change (len (@nil Z)) with 0 in Hk; lia). specialize (Hloc Hne).
  assert (Hdata : data_region f (file_sector f cl (cursor file))) by (eapply file_sector_region; [done|lia]).
  destruct (write_partial_update fl f file (file_sector f cl (cursor file)) buf Hv Ht)
    as (f1 & t' & Hr & Hop & Hs); [lia|done|by apply (located_sector_ok fl); [..|lia]|done|done|fold k; lia|].
  fold k in Hr, Hs. pose proof (len_take buf (Z.to_nat k)) as Hlk.
  rewrite Z2Nat.id, Z.min_l in Hlk by lia. set (src := take (Z.to_nat k) buf) in *.
  pose proof (sector_fits_cluster fl f (cursor file) k Hv) as Hfit.
  destruct (cluster_length_pos fl f Hv) as (? & ? & _).
  pose proof (Z.mod_pos_bound (cursor file) (cluster_length (fs f)) ltac:(lia)).
  exists (advanced t' k file), f1. split.
  - rewrite Hr. pose proof (move_file_cursor_ok f1 (set_touched t' file) k) as Hmove.
    destruct Hloc as [_ Hrem]. cbn [cursor remaining_bytes_in_cluster set_touched] in Hmove.
    rewrite (bind_Ok _ _ _ _ _ (Hmove ltac:(lia) ltac:(lia) ltac:(lia))). done.
  - destruct (wrote_sector fl f f1 t' file cl src Hi Hloc) as [Hw Hend]; [lia|lia|lia|done|done|].
    rewrite Hlk in Hw, Hend. split; [exact Hw|done].
Qed.

(** Moving on to the next cluster where the current one is used up. *)
Lemma locate_ok fl f file cl :
  file_inv fl f file cl → dirty_ok (touched file) → cursor file < len cl * cluster_length (fs f) →
  ∃ file' f', next_cluster_if_required (file, f) = ((file', f'), Ok ()) ∧
    wrote fl f file cl [] f' file' ∧ located f' file' cl.
Proof.
  intros Hi Ht Hc. pose proof (file_cursor _ _ _ _ Hi).
  destruct (next_cluster_ok fl f file cl Hi Hc)
    as (file' & f' & Hn & Hv & Hst & Hm & Hc' & Hcl & Hr).
  pose proof (step_fs _ _ _ _ Hst) as Hfs.
  assert (Hloc : located f' file' cl) by (unfold located; by rewrite Hfs, Hc').
  exists file', f'. split; [done|]. split; [|done]. apply wrote_nil; [done..| |done].
  pose proof (located_position fl f' file' cl Hv) as Hpos. unfold position_ok in *. rewrite <-Hfs.
  apply Hpos; [lia|done].
Qed.

(** What a write keeps of the file's bounds. *)
Lemma wrote_bounds fl f file cl src f' file' :
  wrote fl f file cl src f' file' →
  file_inv fl f' file' cl ∧ dirty_ok (touched file') ∧ cursor file' = cursor file + len src ∧
  details file' = details file ∧ fs f' = fs f.
Proof.
  intros [Hi Hc (Hd & _) Hop _]. split_and!; [done|apply Hop|done|done|].
  apply (step_fs _ _ _ _ (op_step _ _ _ _ _ _ Hop)).
Qed.

Lemma write_block_ok fl f file cl block :
  file_inv fl f file cl → dirty_ok (touched file) → block_ok block → cursor file mod SIZE = 0 →
  cursor file + SIZE ≤ FileDetails.data_length (details file) →
  ∃ file' f', write_block block (file, f) = ((file', f'), Ok ()) ∧ wrote fl f file cl block f' file' ∧
    used_up f' file'.
Proof.
  intros Hi Ht Hb Hm Hdl. pose proof SIZE_range. pose proof (file_lengths _ _ _ _ Hi).
  pose proof (file_length_bound _ _ _ _ Hi).
  destruct (locate_ok fl f file cl Hi Ht) as (file1 & f1 & Hn & Hw1 & Hloc); [lia|].
  destruct (wrote_bounds _ _ _ _ _ _ _ Hw1) as (Hi1 & Ht1 & Hc1 & Hd1 & Hfs1).
  change (len (@nil Z)) with 0 in Hc1. rewrite Z.add_0_r in Hc1.
  pose proof (file_vol _ _ _ _ Hi1) as Hv1. pose proof (file_cursor _ _ _ _ Hi1).
  set (s := file_sector f1 cl (cursor file1)). pose proof Hb as [Hlb _].
  assert (Hdata : data_region f1 s)
    by (eapply file_sector_region; [done|]; rewrite Hfs1; lia).
  destruct (data_write fl f1 s block Hv1 Hdata Hb) as (f2 & Hwr & Hv2 & Hst2 & Hs2 & Hdur).
  destruct (cluster_length_pos fl f1 Hv1) as (? & ? & _).
  pose proof (Z.mod_pos_bound (cursor file1) (cluster_length (fs f1)) ltac:(lia)).
  pose proof (sector_fits_cluster fl f1 (cursor file1) (len block) Hv1) as Hfit.
  rewrite Hc1, Hm in Hfit. exists (advanced (touched file1) (len block) file1), f2. split.
  - unfold write_block. rewrite (bind_Ok _ _ _ _ _ Hn).
    rewrite (bind_Ok _ _ _ _ _ (located_sector_ok fl f1 file1 cl Hi1 Hloc ltac:(rewrite Hfs1; lia))).
    rewrite (bind_Ok _ _ _ (file1, f2) ()) by (by eapply zoom_to; [exact Hwr|]).
    destruct Hloc as [_ Hr]. rewrite move_file_cursor_ok by (rewrite ?Hc1, ?Hr in *; lia).
    unfold advanced. by destruct file1.
  - destruct (wrote_sector fl f1 f2 (touched file1) file1 cl block Hi1 Hloc) as [Hw Hend];
      [lia|rewrite Hc1, Hm; lia|rewrite Hc1, Hd1; lia| | |
       split; [by apply (wrote_app fl f file cl [] f1 file1 block)|exact Hend]].
    + split; [done|done|]. split; [done|split; [apply extends_refl|]].
      intros s' Hin Hd. left. destruct (decide (s' = s)) as [->|Hne]; [done|].
      by apply (step_durable _ _ _ _ Hst2).
    + fold s. rewrite Hs2, Hc1, Hm. unfold splice. cbn [Z.to_nat take app].
      rewrite drop_ge, app_nil_r; [done|].
      destruct (vseen_ok fl f1 s Hv1 (or_intror (or_intror Hdata))) as [Hls _].
      unfold len in *. lia.
Qed.

Lemma write_blocks_ok fl f file cl blocks :
  file_inv fl f file cl → dirty_ok (touched file) → Forall block_ok blocks → cursor file mod SIZE = 0 →
  cursor file + len (concat blocks) ≤ FileDetails.data_length (details file) → blocks ≠ [] →
  ∃ file' f', for_each blocks write_block (file, f) = ((file', f'), Ok ()) ∧
    wrote fl f file cl (concat blocks) f' file' ∧ used_up f' file'.
Proof.
  revert f file. induction blocks as [|b blocks IH]; intros f file Hi Ht Hb Hm Hdl Hne; [done|].
  inversion Hb as [|? ? Hb1 Hb2]; subst. pose proof Hb1 as [Hlb _].
  cbn [concat for_each] in *. rewrite len_app in Hdl. pose proof (len_nonneg (concat blocks)).
  destruct (write_block_ok fl f file cl b Hi Ht Hb1 Hm) as (file1 & f1 & Hw & Hwr & Hend); [lia|].
  rewrite (bind_Ok _ _ _ _ _ Hw).
  destruct (wrote_bounds _ _ _ _ _ _ _ Hwr) as (Hi1 & Ht1 & Hc1 & Hd1 & Hfs1).
  destruct blocks as [|b2 blocks].
  - exists file1, f1. split; [done|]. by rewrite app_nil_r.
  - destruct (IH f1 file1) as (file' & f' & Hr & Hwr' & Hend'); [done|done|done| |rewrite Hc1, Hd1; lia|done|].
    { rewrite Hc1, Hlb. rewrite <-(Z.mul_1_l SIZE) at 1. rewrite Z.mod_add by (pose proof SIZE_range; lia). done. }
    exists file', f'. split; [done|]. split; [by eapply wrote_app|done].
Qed.

Lemma len_concat_blocks bs : Forall block_ok bs → len (concat bs) = SIZE * Z.of_nat (length bs).
Proof.
  induction 1 as [|b bs [Hb _] _ IH]; cbn [concat length]; [by change (len (@nil Z)) with 0; lia|].
  rewrite len_app, Hb, IH. lia.
Qed.

(** The whole sectors of what is left, and the rest. *)
Lemma chunks_ok l :
  Forall byte_ok l →
  let blocks := as_chunks (Z.to_nat SIZE) l in
  let remainder := drop (length blocks * Z.to_nat SIZE) l in
  l = concat blocks ++ remainder ∧ Forall block_ok blocks ∧ Forall byte_ok remainder ∧
  len (concat blocks) = SIZE * Z.of_nat (length blocks) ∧ len remainder < SIZE.
Proof.
  intros Hb blocks remainder. pose proof SIZE_range.
  assert (Hn : (0 < Z.to_nat SIZE)%nat) by lia.
  assert (Hlen : length blocks = (length l / Z.to_nat SIZE)%nat) by by apply length_as_chunks.
  pose proof (concat_as_chunks (Z.to_nat SIZE) l Hn) as Hcat. fold blocks remainder in Hcat.
  assert (Hrem : len remainder < SIZE).
  { unfold remainder, len. rewrite length_drop, Hlen.
    pose proof (Nat.div_mod_eq (length l) (Z.to_nat SIZE)).
    pose proof (Nat.mod_upper_bound (length l) (Z.to_nat SIZE) ltac:(lia)). lia. }
  assert (Hbl : Forall block_ok blocks).
  { apply Forall_lookup. intros i b Hi. pose proof (lookup_lt_Some _ _ _ Hi) as Hlt.
    rewrite Hlen in Hlt. pose proof (Nat.div_mod_eq (length l) (Z.to_nat SIZE)).
    assert (Z.to_nat SIZE * S i ≤ length l)%nat by nia.
    unfold blocks in Hi. rewrite as_chunks_lookup in Hi by nia.
    injection Hi as <-. split; [|by apply Forall_take, Forall_drop].
    unfold len. rewrite length_take, length_drop. nia. }
  split_and!; [done|done|by apply Forall_drop| |done].
  by apply len_concat_blocks.
Qed.

(** Inside a cluster the cached position is the cursor's. *)
Lemma position_located fl f file cl :
  vol_inv fl f → position_ok f file cl → cursor file mod cluster_length (fs f) ≠ 0 → located f file cl.
Proof.
  intros Hv (i & Hcl & Hlo & Hr & Hr0) Hm. destruct (cluster_length_pos fl f Hv) as (? & ? & _).
  set (CL := cluster_length (fs f)) in *.
  assert (cursor file ≠ (Z.of_nat i + 1) * CL) by (intros He; apply Hm; rewrite He; apply Z.mod_mul; lia).
  assert (Hd : cursor file / CL = Z.of_nat i).
  { symmetry. apply Z.div_unique with (cursor file - CL * Z.of_nat i); lia. }
  unfold located. fold CL. rewrite Hd, Nat2Z.id. split; [done|]. rewrite Z.mod_eq, Hd by lia. lia.
Qed.

(** What comes before the last partial sector. *)
Lemma write_sectors_split fl f file cl buf :
  file_inv fl f file cl → dirty_ok (touched file) → buf ≠ [] → Forall byte_ok buf →
  SIZE + len buf ≤ 2 ^ usize → cursor file + len buf ≤ FileDetails.data_length (details file) →
  (∃ file' f', write_sectors buf (file, f) = ((file', f'), Ok ()) ∧
     wrote fl f file cl buf f' file' ∧ len buf ≤ SIZE - cursor file mod SIZE) ∨
  (∃ front remainder file' f', buf = front ++ remainder ∧ 0 < len front ∧ len remainder < SIZE ∧
     write_sectors buf (file, f) = (write_partial_sector remainder ;; mret ()) (file', f') ∧
     wrote fl f file cl front f' file' ∧ cursor file' mod SIZE = 0 ∧ used_up f' file').
Proof.
  intros Hi Ht Hne Hb Hu Hdl. pose proof SIZE_range. pose proof (file_lengths _ _ _ _ Hi).
  pose proof (file_cursor _ _ _ _ Hi). pose proof (len_pos buf Hne) as Hpos.
  destruct (locate_ok fl f file cl Hi Ht) as (file1 & f1 & Hn & Hw1 & Hloc); [lia|].
  destruct (wrote_bounds _ _ _ _ _ _ _ Hw1) as (Hi1 & Ht1 & Hc1 & Hd1 & Hfs1).
  change (len (@nil Z)) with 0 in Hc1. rewrite Z.add_0_r in Hc1.
  destruct (write_partial_ok fl f1 file1 cl buf Hi1 Ht1 ltac:(done) Hb Hu) as (file2 & f2 & Hp & Hw2 & Hend2);
    [rewrite Hc1, Hd1; lia|]. rewrite Hc1 in Hp, Hw2, Hend2. set (l := partial_len (cursor file) (len buf)) in *.
  destruct (partial_len_cases (cursor file) (len buf)) as (Hl & Hsec & Hl'); [lia..|]. fold l in Hl, Hsec, Hl'.
  pose proof (wrote_app _ _ _ _ _ _ _ _ _ _ Hi Hw1 Hw2) as Hw12. cbn [app] in Hw12.
  unfold write_sectors. rewrite (bind_Ok _ _ _ _ _ Hn), (bind_Ok _ _ _ _ _ Hp).
  destruct (Z.ltb_spec l (len buf)) as [Hlt|Hge].
  2: { left. exists file2, f2. split; [done|]. rewrite take_ge in Hw12 by (unfold len in *; lia).
       split; [done|lia]. }
  right. destruct (Hl' Hlt) as (Hm & Hl0). set (rest := drop (Z.to_nat l) buf).
  destruct (wrote_bounds _ _ _ _ _ _ _ Hw12) as (Hi2 & Ht2 & Hc2 & Hd2 & Hfs2).
  assert (Hlt2 : len (take (Z.to_nat l) buf) = l) by (rewrite len_take; lia). rewrite Hlt2 in Hc2.
  assert (Hlrest : len rest = len buf - l) by (unfold rest; rewrite len_drop; lia).
  destruct (chunks_ok rest) as (Hcat & Hbl & Hrb & Hlc & Hlr); [by apply Forall_drop|].
  set (blocks := as_chunks (Z.to_nat SIZE) rest) in *.
  set (remainder := drop (length blocks * Z.to_nat SIZE) rest) in *. cbv zeta. fold blocks. fold remainder.
  pose proof (f_equal len Hcat) as Hlcat. rewrite len_app in Hlcat. pose proof (len_nonneg remainder).
  assert (Hbuf : buf = (take (Z.to_nat l) buf ++ concat blocks) ++ remainder).
  { rewrite <-app_assoc, <-Hcat. unfold rest. by rewrite take_drop. }
  destruct (decide (blocks = [])) as [He|Hbne].
  - rewrite He in Hlcat. change (len (concat [])) with 0 in Hlcat.
    assert (Hlp : 0 < l) by (destruct (decide (l = 0)); lia). exists (take (Z.to_nat l) buf ++ concat blocks), remainder, file2, f2.
    rewrite len_app, Hlt2, He, app_nil_r. rewrite He, app_nil_r in Hbuf.
    split_and!; [done|change (len (concat [])) with 0; lia|done|done|done|by rewrite Hc2|by apply Hend2].
  - destruct (write_blocks_ok fl f2 file2 cl blocks Hi2 Ht2 Hbl) as (file3 & f3 & Hr & Hw & Hend3);
      [by rewrite Hc2|rewrite Hc2, Hd2; lia|done|].
    destruct (wrote_bounds _ _ _ _ _ _ _ Hw) as (_ & _ & Hc3 & _).
    exists (take (Z.to_nat l) buf ++ concat blocks), remainder, file3, f3. rewrite len_app, Hlt2.
    assert (length blocks ≠ 0)%nat by (intros Hz%nil_length_inv; done).
    split_and!; [done|nia|done|by rewrite (bind_Ok _ _ _ _ _ Hr)|by eapply wrote_app| |done].
    by rewrite Hc3, Hc2, Hlc, Z.mul_comm, Z.mod_add by lia.
Qed.

Lemma remainder_mod (e c : Z) (remainder : list Z) :
  e = c + len remainder → c mod SIZE = 0 → len remainder < SIZE → e mod SIZE = len remainder.
Proof.
  intros -> Hm Hr. pose proof SIZE_range. pose proof (len_nonneg remainder).
  rewrite <-Z.add_mod_idemp_l, Hm, Z.add_0_l by lia. apply Z.mod_small. lia.
Qed.

(** In front of the remainder the cursor is at the last sector boundary. *)
Lemma remainder_gap f f' file file' cl fl (front remainder : list Z) :
  fs f' = fs f → cursor file' = cursor file + len front → cursor file' mod SIZE = 0 →
  0 < len front → len remainder < SIZE →
  vol_inv fl f →
  write_misses_cluster f (cursor file) (len (front ++ remainder)) ↔
    remainder ≠ [] ∧ cursor file' mod cluster_length (fs f') = 0.
Proof.
  intros Hfs Hc Hm Hf Hr Hv. unfold write_misses_cluster. pose proof SIZE_range.
  pose proof (len_nonneg remainder). rewrite len_app, Hfs.
  rewrite (remainder_mod (cursor file + _) (cursor file') remainder) by lia. replace (cursor file + (len front + len remainder) - len remainder) with (cursor file') by lia.
  split; [intros (? & ? & ?)|intros [Hne ?]]; split_and?; [by intros ->|done| |lia|done].
  pose proof (len_pos remainder Hne). lia.
Qed.

Lemma write_sectors_ok fl f file cl buf :
  file_inv fl f file cl → dirty_ok (touched file) → buf ≠ [] → Forall byte_ok buf →
  SIZE + len buf ≤ 2 ^ usize → cursor file + len buf ≤ FileDetails.data_length (details file) →
  ¬ write_misses_cluster f (cursor file) (len buf) →
  ∃ file' f', write_sectors buf (file, f) = ((file', f'), Ok ()) ∧ wrote fl f file cl buf f' file'.
Proof.
  intros Hi Ht Hne Hb Hu Hdl Hgap. pose proof SIZE_range.
  destruct (write_sectors_split fl f file cl buf) as
    [(file' & f' & Hr & Hw & _)|(front & remainder & file3 & f3 & -> & Hf & Hlr & Hr & Hw & Hm & Hend)];
    [done..|by exists file', f'|].
  destruct (wrote_bounds _ _ _ _ _ _ _ Hw) as (Hi3 & Ht3 & Hc3 & Hd3 & Hfs3).
  apply Forall_app in Hb as [_ Hrb]. rewrite len_app in Hu, Hdl.
  destruct (write_partial_ok fl f3 file3 cl remainder Hi3 Ht3) as (file4 & f4 & Hp4 & Hw4 & _);
    [|done|lia|rewrite Hc3, Hd3; lia|].
  { intros Hrne. apply (position_located fl); [apply Hi3|apply (file_position _ _ _ _ Hi3)|].
    - intros ->. pose proof (file_cursor _ _ _ _ Hi3). pose proof (file_lengths _ _ _ _ Hi3) as [_ Hcap].
      change (len (@nil Z)) with 0 in Hcap. pose proof (file_cursor _ _ _ _ Hi). lia.
    - intros Hcl3. apply Hgap, (remainder_gap f f3 file file3 cl fl); [done..|apply Hi|done]. }
  exists file4, f4. rewrite Hr, (bind_Ok _ _ _ _ _ Hp4). split; [done|].
  rewrite partial_len_aligned in Hw4 by first [done|by split; [apply len_nonneg|]].
  rewrite take_ge in Hw4 by (unfold len; lia). by eapply wrote_app.
Qed.

(** A write that ends in the sector of the cursor reaches no whole sector and
    has no gap. *)
Lemma write_in_sector_ends c n :
  0 ≤ c → 0 < n ≤ SIZE - c mod SIZE → (c + n) mod SIZE ≠ 0 → ¬ c < c + n - (c + n) mod SIZE.
Proof.
  intros Hc Hn Hm Hlt. pose proof SIZE_range. assert (HS0 : SIZE ≠ 0) by lia.
  pose proof (Z.div_mod c SIZE HS0) as Hd. pose proof (Z.div_mod (c + n) SIZE HS0) as Hd2.
  assert (HSp : 0 < SIZE) by lia. pose proof (Z.mod_pos_bound c SIZE HSp).
  pose proof (Z.mod_pos_bound (c + n) SIZE HSp).
  assert ((c + n) / SIZE < c / SIZE + 1); [|nia].
  apply Z.div_lt_upper_bound; [lia|]. assert (n ≠ SIZE - c mod SIZE); [|nia].
  intros ->. apply Hm. replace (c + (SIZE - c mod SIZE)) with ((c / SIZE + 1) * SIZE) by lia. by apply Z.mod_mul.
Qed.
Lemma write_in_sector_no_gap f c n :
  0 ≤ c → 0 < n ≤ SIZE - c mod SIZE → ¬ write_misses_cluster f c n.
Proof. intros Hc Hn (Hm & Hlt & _). by apply (write_in_sector_ends c n). Qed.

(** Behind a used-up cluster the code takes the first sector of this cluster
    for the sector of the cursor. *)
Lemma used_up_sector fl f file cl :
  file_inv fl f file cl → cl ≠ [] → used_up f file → cursor file mod cluster_length (fs f) = 0 →
  let p := cursor file - cluster_length (fs f) in
  0 ≤ p < len cl * cluster_length (fs f) ∧
  get_current_sector_id (file, f) = ((file, f), Ok (file_sector f cl p)).
Proof.
  intros Hi Hcl Hup Hm p. destruct (file_position _ _ _ _ Hi Hcl) as (i & Hcur & Hlo & Hr & _).
  rewrite (Hup Hm) in Hr. destruct (cluster_length_pos fl f (file_vol _ _ _ _ Hi)) as (? & ? & _).
  pose proof (lookup_lt_Some _ _ _ Hcur) as Hlt. set (CL := cluster_length (fs f)) in *.
  assert (Hpi : p = Z.of_nat i * CL) by (unfold p; lia).
  assert (Hp : 0 ≤ p < len cl * CL) by (unfold len; nia). split; [done|].
  destruct (cursor_sector_ok fl f file cl p Hi Hp) as (Hg & Hq & Ha). fold CL in Hg, Hq, Ha.
  assert (Hdiv : p / CL = Z.of_nat i) by (rewrite Hpi; apply Z.div_mul; lia).
  rewrite Hdiv, Nat2Z.id, (list_lookup_total_correct _ _ _ Hcur) in Hg, Ha.
  assert (Hpm : p mod CL = 0) by (rewrite Hpi; apply Z.mod_mul; lia). rewrite Hpm in Hq, Ha.
  unfold get_current_sector_id, get_file, get_fs.
  rewrite (bind_Ok (gets fst) _ _ (file, f) file) by done.
  rewrite (bind_Ok (gets _) _ _ (file, f) (fs f)) by done. fold CL.
  rewrite urem_ok, bind_lift_Ok by lia. rewrite Hg, bind_lift_Ok, Hm.
  rewrite (cast_id u32 0) by lia. by rewrite Hq, bind_lift_Ok, Ha.
Qed.

(** There the move of the cursor underflows. *)
Lemma move_used_up f file k :
  remaining_bytes_in_cluster file = 0 → 0 < k < 2 ^ 32 → 0 ≤ cursor file + k < 2 ^ 64 →
  ∃ file', move_file_cursor k (file, f) = ((file', f), if overflow_checks then Panic else Ok ()).
Proof.
  intros Hr Hk Hc. unfold move_file_cursor, get_file, modify_file, modify.
  rewrite (bind_Ok (gets fst) _ _ (file, f) file) by done.
  rewrite add_ok, bind_lift_Ok by lia. erewrite bind_Ok; [|reflexivity].
  rewrite cast_id, Hr by lia. unfold sub, arith, fits. rewrite (proj2 (Z.leb_gt 0 (0 - k))) by lia.
  destruct overflow_checks; [by eexists|]. by eexists.
Qed.

(** The gap: the last bytes go to the start of the cluster just filled; with
    overflow checks the code then panics. *)
Lemma write_sectors_gap fl f file cl buf :
  file_inv fl f file cl → dirty_ok (touched file) → buf ≠ [] → Forall byte_ok buf →
  SIZE + len buf ≤ 2 ^ usize → cursor file + len buf ≤ FileDetails.data_length (details file) →
  write_misses_cluster f (cursor file) (len buf) →
  let e := cursor file + len buf in
  ∃ file' f', write_sectors buf (file, f) = ((file', f'), if overflow_checks then Panic else Ok ()) ∧
    take (Z.to_nat (e mod SIZE)) (vseen fl f' (file_sector f cl (e - e mod SIZE - cluster_length (fs f)))) =
      drop (Z.to_nat (len buf - e mod SIZE)) buf.
Proof.
  intros Hi Ht Hne Hb Hu Hdl Hgap e. pose proof SIZE_range. pose proof (file_cursor _ _ _ _ Hi).
  pose proof (file_lengths _ _ _ _ Hi). pose proof (file_length_bound _ _ _ _ Hi).
  destruct (write_sectors_split fl f file cl buf) as
    [(file' & f' & _ & _ & Hin)|(front & remainder & file3 & f3 & -> & Hf & Hlr & Hr & Hw & Hm & Hend)]; [done..| |].
  { exfalso. pose proof (len_pos buf Hne). apply (write_in_sector_no_gap f (cursor file) (len buf)); [lia|lia|done]. }
  destruct (wrote_bounds _ _ _ _ _ _ _ Hw) as (Hi3 & Ht3 & Hc3 & Hd3 & Hfs3).
  apply Forall_app in Hb as [_ Hrb]. rewrite len_app in Hu, Hdl. pose proof (file_vol _ _ _ _ Hi3) as Hv3.
  apply (remainder_gap f f3 file file3 cl fl) in Hgap as [Hrne Hcl3]; [|done..|apply Hi].
  pose proof (len_pos remainder Hrne). pose proof (Hend Hcl3) as Hrem.
  assert (Hk : partial_len (cursor file3) (len remainder) = len remainder) by (apply partial_len_aligned; [done|lia]).
  assert (Hcl : cl ≠ []) by (intros ->; change (len (@nil Z)) with 0 in *; lia).
  destruct (used_up_sector fl f3 file3 cl Hi3 Hcl Hend Hcl3) as [Hp Hs].
  pose proof (file_sector_region fl f3 file3 cl _ Hi3 Hp) as Hdata.
  destruct (write_partial_update fl f3 file3 _ remainder Hv3 Ht3 ltac:(lia) Hdata Hs Hrb ltac:(lia) ltac:(lia))
    as (f4 & t' & Hup & _ & Hseen). rewrite Hk, Hm in *.
  destruct (move_used_up f4 (set_touched t' file3) (len remainder)) as (file5 & Hmove); [done|lia|cbn; lia|].
  assert (He : e = cursor file3 + len remainder) by (unfold e; rewrite len_app; lia).
  exists file5, f4. split.
  - rewrite Hr. unfold mbind, M_bind in *. rewrite Hup, Hmove. by destruct overflow_checks.
  - rewrite (remainder_mod e (cursor file3) remainder He Hm Hlr), He.
    assert (Hfse : ∀ p, file_sector f cl p = file_sector f3 cl p)
      by (intros p; unfold file_sector, cluster_sector; by rewrite Hfs3).
    rewrite Hfse, <-Hfs3, Z.add_simpl_r, Hseen, len_app, Z.add_simpl_r. unfold splice.
    rewrite (take_ge remainder) by (unfold len; lia). change (take (Z.to_nat 0) _) with (@nil Z).
    cbn [app]. by rewrite take_app_length', drop_app_length' by (unfold len; lia).
Qed.
End Parts.

(** ** The whole of [write] *)
Section Write.
Context {cfg : Config} {crates : Crates} {bd : BlockDevice} {fu : Fuel}.
Context {Hcfg : ConfigOk cfg} {Hcr : CratesOk crates} {Hbd : DeviceOk cfg bd}.
Implicit Types (f : FileSystem) (file : File) (cl nl src buf : list Z) (t : FileDirty).

Lemma file_data_cluster fl f file cl p :
  file_inv fl f file cl → 0 ≤ p < len cl * cluster_length (fs f) →
  cluster_sectors f cl (file_sector f cl p).
Proof.
  intros Hi Hp. destruct (cluster_at fl f file cl p Hi Hp) as (id & Hid & _ & Heq).
  destruct (cluster_length_pos fl f (file_vol _ _ _ _ Hi)) as (? & ? & Hcl).
  exists id, (p mod cluster_length (fs f) / SIZE). split_and!; [by eapply list_elem_of_lookup_2| | |].
  - pose proof (Z.mod_pos_bound p (cluster_length (fs f)) ltac:(lia)). apply Z.div_pos; lia.
  - pose proof (Z.mod_pos_bound p (cluster_length (fs f)) ltac:(lia)). apply Z.div_lt_upper_bound; lia.
  - unfold file_sector. by rewrite Heq.
Qed.
Lemma cluster_sectors_data f cl s :
  Forall (data_cluster f) cl → cluster_sectors f cl s → data_region f s.
Proof. rewrite Forall_forall. intros H (id & k & Hid & Hk & ->). by apply H. Qed.

(** A step on the sectors of some clusters leaves the tables and the other
    clusters alone. *)
Lemma tables_same_data fl P f f' id :
  vol_inv fl f → vol_step fl P f f' → (∀ s, P s → data_region f s) → cluster_ok f id →
  fat_entry fl f' id = fat_entry fl f id ∧ is_allocated fl f' id = is_allocated fl f id.
Proof.
  intros Hv Hst HP Hid. split; [by eapply fat_entry_data|].
  apply (is_allocated_step fl _ f f' id Hv Hst Hid). intros Hs%HP.
  pose proof (bitmap_sector_region fl f id Hv Hid).
  by destruct (regions_disjoint fl f (bitmap_sector (allocator f) id) (vol_geometry _ _ Hv))
    as (_ & _ & [_ ?]).
Qed.
Lemma others_same_data fl cl f f' :
  vol_inv fl f → vol_step fl (cluster_sectors f cl) f f' → Forall (data_cluster f) cl →
  others_same fl cl f f'.
Proof.
  intros Hv Hst Hcl.
  assert (Ht : ∀ id, cluster_ok f id →
    fat_entry fl f' id = fat_entry fl f id ∧ is_allocated fl f' id = is_allocated fl f id).
  { intros id. apply (tables_same_data fl _ f f' id Hv Hst). intros s. by apply cluster_sectors_data. }
  split.
  - intros id Hid _. by apply Ht.
  - intros id Hid _. by apply Ht.
  - intros id k [_ Hd] Hni Hk. apply (step_seen _ _ _ _ Hst); [by right; right; apply Hd|].
    intros (id' & k' & Hin & Hk' & Heq). destruct (cluster_sector_unique f id' k' id k Hk' Hk Heq).
    congruence.
Qed.
(** Neither does growing a file. *)
Lemma others_same_grown fl f file cl nl f' file' :
  vol_inv fl f → grown_by fl f file cl nl f' file' → others_same fl (cl ++ nl) f f'.
Proof.
  intros Hv Hg. pose proof (op_step _ _ _ _ _ _ (grown_op _ _ _ _ _ _ _ Hg)) as Hst. split.
  - apply Hg.
  - intros id Hid Hni. apply (grown_alloc _ _ _ _ _ _ _ Hg); [done|]. intros Hx. apply Hni, elem_of_app. by right.
  - intros id k [_ Hd] _ Hk. specialize (Hd k Hk). apply (step_seen _ _ _ _ Hst); [by right; right|].
    destruct (regions_disjoint fl f (cluster_sector f id + k) (vol_geometry _ _ Hv)) as (_ & _ & Hdis).
    destruct (Hdis Hd). unfold table_region. tauto.
Qed.
Lemma others_same_trans fl cl f0 f1 f2 :
  fs f1 = fs f0 → bitmap (allocator f1) = bitmap (allocator f0) →
  others_same fl cl f0 f1 → others_same fl cl f1 f2 → others_same fl cl f0 f2.
Proof.
  intros Hfs Hb [H1 H2 H3] [H4 H5 H6].
  assert (Hc : ∀ id, cluster_ok f1 id ↔ cluster_ok f0 id) by (intros; unfold cluster_ok; by rewrite Hfs).
  assert (Hd : ∀ id, data_cluster f1 id ↔ data_cluster f0 id).
  { intros id. unfold data_cluster, cluster_ok, cluster_sector, data_region, heap_region, bitmap_region.
    by rewrite Hfs, Hb. }
  unfold cluster_sector in *. rewrite Hfs in H6. split.
  - intros id Hid Hni. rewrite H4, H1; [done..|by apply Hc|done].
  - intros id Hid Hni. rewrite H5, H2; [done..|by apply Hc|done].
  - intros id k Hid Hni Hk. unfold cluster_sector. rewrite H6, H3; [done..|by apply Hd|done|done].
Qed.

(** [update_data_length] *)
Definition lengthened (n : Z) file : File :=
  let v := Z.max (cursor file + n) (FileDetails.valid_data_length (details file)) in
  let d := set_details (with_lengths v (Z.max v (FileDetails.data_length (details file))) (details file)) file in
  set_touched (set_dir_entry_dirty true (touched file)) d.
Lemma update_data_length_ok f file n :
  0 ≤ cursor file + n < 2 ^ 64 → update_data_length n (file, f) = ((lengthened n file, f), Ok ()).
Proof.
  intros Hn. unfold update_data_length, get_file.
  rewrite (bind_Ok (gets fst) _ _ (file, f) file) by done. by rewrite add_ok, bind_lift_Ok by lia.
Qed.
Lemma file_inv_lengthened fl f file cl n :
  file_inv fl f file cl → 0 ≤ n → cursor file + n ≤ len cl * cluster_length (fs f) →
  file_inv fl f (lengthened n file) cl.
Proof.
  intros [] Hn Hcap. split; cbn; try done; lia.
Qed.

(** ** The bytes of the file *)
Lemma lookup_splice_extend (l src : list Z) (a : Z) (i : nat) :
  0 ≤ a ≤ len l →
  splice l a src !! i =
    if decide (a ≤ Z.of_nat i < a + len src) then src !! (i - Z.to_nat a)%nat else l !! i.
Proof.
  intros Ha. unfold splice, len in *. destruct (decide (Z.of_nat i < a)).
  - rewrite decide_False, lookup_app_l by (rewrite ?length_take; lia). by rewrite lookup_take_lt by lia.
  - rewrite lookup_app_r by (rewrite length_take; lia). rewrite length_take.
    rewrite Nat.min_l by lia. destruct (decide _).
    + by rewrite lookup_app_l by lia.
    + rewrite lookup_app_r, lookup_drop by lia. f_equal. lia.
Qed.
Lemma lookup_file_data fl f d cl (i : nat) :
  file_data fl f d cl !! i =
    if decide (Z.of_nat i < FileDetails.data_length d)
    then Some (if Z.of_nat i <? FileDetails.valid_data_length d then file_byte fl f cl (Z.of_nat i) else 0)
    else None.
Proof.
  unfold file_data. rewrite list_lookup_fmap. destruct (decide _).
  - by rewrite (proj2 (lookup_seqZ 0 _ i (Z.of_nat i))) by lia.
  - by rewrite lookup_seqZ_ge by lia.
Qed.
Lemma len_file_data fl f d cl : 0 ≤ FileDetails.data_length d → len (file_data fl f d cl) = FileDetails.data_length d.
Proof. intros. unfold len, file_data. rewrite length_fmap, length_seqZ. lia. Qed.

Lemma file_data_written fl f f' file file' cl buf :
  file_inv fl f file cl → cursor file ≤ FileDetails.valid_data_length (details file) →
  cursor file + len buf ≤ len cl * cluster_length (fs f) →
  wrote fl f (lengthened (len buf) file) cl buf f' file' →
  file_data fl f' (details file') cl = splice (file_data fl f (details file) cl) (cursor file) buf.
Proof.
  intros Hi Hval Hcap [_ _ (Hd & _) _ Hbytes]. pose proof (file_lengths _ _ _ _ Hi) as [Hl Hl2].
  pose proof (file_cursor _ _ _ _ Hi). pose proof (len_nonneg buf).
  apply list_eq. intros i. rewrite lookup_splice_extend by (rewrite len_file_data; lia).
  rewrite !lookup_file_data, Hd. unfold lengthened. cbn.
  destruct (decide (cursor file ≤ Z.of_nat i < cursor file + len buf)) as [Hin|Hout].
  - rewrite decide_True by lia. rewrite (proj2 (Z.ltb_lt _ _)) by lia. rewrite Hbytes by (cbn; lia).
    cbn. rewrite decide_True by lia. symmetry.
    replace (Z.to_nat (Z.of_nat i - cursor file)) with (i - Z.to_nat (cursor file))%nat by lia.
    apply list_lookup_lookup_total_lt. unfold len in Hin. lia.
  - destruct (decide (Z.of_nat i < FileDetails.data_length (details file))) as [Hlt|Hge].
    2: { rewrite decide_False by lia. done. }
    rewrite decide_True by lia. f_equal.
    destruct (Z.ltb_spec (Z.of_nat i) (FileDetails.valid_data_length (details file))).
    + rewrite (proj2 (Z.ltb_lt _ _)) by lia. rewrite Hbytes by (cbn; lia). cbn. by rewrite decide_False by lia.
    + by rewrite (proj2 (Z.ltb_ge _ _)) by lia.
Qed.

(** Growing a file does not change its bytes. *)
Lemma file_data_grown fl f file cl nl f' file' :
  file_inv fl f file cl → grown_by fl f file cl nl f' file' →
  file_data fl f' (details file') (cl ++ nl) = file_data fl f (details file) cl.
Proof.
  intros Hi Hg. destruct (grown_file _ _ _ _ _ _ _ Hg) as (Hdl & Hvl & _).
  pose proof (op_step _ _ _ _ _ _ (grown_op _ _ _ _ _ _ _ Hg)) as Hst.
  pose proof (file_vol _ _ _ _ Hi) as Hv. destruct (cluster_length_pos fl f Hv) as (? & ? & _).
  apply list_eq. intros i. rewrite !lookup_file_data, Hdl, Hvl. case_decide; [|done]. f_equal.
  destruct (Z.ltb_spec (Z.of_nat i) (FileDetails.valid_data_length (details file))); [|done].
  pose proof (file_lengths _ _ _ _ Hi).
  assert (Hp : 0 ≤ Z.of_nat i < len cl * cluster_length (fs f)) by lia.
  assert (Hs : file_sector f' (cl ++ nl) (Z.of_nat i) = file_sector f cl (Z.of_nat i)).
  { rewrite (file_sector_step fl _ _ _ _ _ Hst). unfold file_sector.
    rewrite lookup_total_app_l; [done|]. destruct (cluster_at fl f file cl _ Hi Hp) as (id & Hid & _).
    by eapply lookup_lt_Some. }
  unfold file_byte. rewrite Hs. pose proof (file_sector_region fl f file cl _ Hi Hp) as Hd.
  rewrite (step_seen _ _ _ _ Hst); [done|by right; right|].
  destruct (regions_disjoint fl f (file_sector f cl (Z.of_nat i)) (vol_geometry _ _ Hv)) as (_ & _ & Hdis).
  destruct (Hdis Hd). unfold table_region. tauto.
Qed.

(** Writing data keeps what [grow_inv] says beyond [file_inv]. *)
Lemma grow_inv_wrote fl f file cl buf f' file' :
  grow_inv fl f file cl → 0 ≤ len buf → cursor file + len buf ≤ len cl * cluster_length (fs f) →
  wrote fl f (lengthened (len buf) file) cl buf f' file' →
  grow_inv fl f' file' cl ∧ others_same fl cl f f' ∧
  vol_op fl (cluster_sectors f cl) (touched file) f (touched file') f'.
Proof.
  intros [Hi Hs Hnc Hal Hfree Htou] Hn Hcap [Hi' _ (Hd & _ & Hch) Hop _].
  pose proof (file_vol _ _ _ _ Hi) as Hv. pose proof (file_cursor _ _ _ _ Hi).
  assert (Hop2 : vol_op fl (cluster_sectors f cl) (touched file) f (touched file') f').
  { eapply vol_op_trans; [apply vol_op_dir_entry; [done|apply Htou]|].
    eapply vol_op_weaken; [|exact Hop]. intros s (p & Hp & ->).
    apply (file_data_cluster fl f file); [done|]. cbn in Hp. lia. }
  assert (Hdata : ∀ s, cluster_sectors f cl s → data_region f s)
    by (intros s; apply cluster_sectors_data, Hi).
  pose proof (op_step _ _ _ _ _ _ Hop2) as Hst.
  assert (Ht : ∀ id, cluster_ok f id →
    fat_entry fl f' id = fat_entry fl f id ∧ is_allocated fl f' id = is_allocated fl f id)
    by (intros id; by apply (tables_same_data fl _ f f' id Hv Hst)).
  pose proof (data_clusters_ok _ _ (file_clusters _ _ _ _ Hi)) as Hok.
  split; [|split; [by apply others_same_data; [..|apply Hi]|exact Hop2]].
  split.
  - done.
  - rewrite Hd. apply (stored_ok_tables fl f); [exact Hs|done|]. intros id Hid. by apply Ht.
  - rewrite Hd, Hch. exact Hnc.
  - rewrite Forall_forall in Hal, Hok |- *. intros id Hid. destruct (Ht id) as [_ ->]; auto.
  - intros id Hid Hna. assert (Hid' : cluster_ok f id) by by apply (vol_op_cluster_ok _ _ _ _ _ _ _ Hop2).
    destruct (Ht id Hid') as [_ He]. rewrite He in Hna.
    apply (data_cluster_op _ _ _ _ _ _ _ Hop2). auto.
  - by apply (vol_op_touched _ _ _ _ _ _ Hop2).
Qed.

(** What [write] leaves behind, whether it succeeds or the disk is full. *)
Record write_post (fl : Z) f file cl nl f' file' : Prop := {
  post_inv : grow_inv fl f' file' (cl ++ nl);
  post_others : others_same fl (cl ++ nl) f f';
  post_free k : k ∈ nl → cluster_ok f k ∧ is_allocated fl f k = false;
  post_op : vol_op fl (λ s, table_region fl f s ∨ cluster_sectors f (cl ++ nl) s)
    (touched file) f (touched file') f';
  post_options : open_options file' = open_options file;
}.

Lemma write_post_grown fl f file cl nl f' file' :
  vol_inv fl f → grown_by fl f file cl nl f' file' → write_post fl f file cl nl f' file'.
Proof.
  intros Hv Hg. split; [apply Hg|by eapply others_same_grown|apply Hg| |apply (grown_file _ _ _ _ _ _ _ Hg)].
  eapply vol_op_weaken; [|apply Hg]. by left.
Qed.
Lemma grown_by_nil fl f file cl : grow_inv fl f file cl → grown_by fl f file cl [] f file.
Proof.
  intros Hg. split; rewrite ?app_nil_r; [done|apply same_file_refl| |by intros ?|by intros k ?%elem_of_nil|done].
  apply vol_op_refl; [apply Hg|apply Hg].
Qed.

(** The capacity of the clusters a file has by its length. *)
Lemma capacity_ok fl f file cl :
  file_inv fl f file cl →
  let q := (FileDetails.data_length (details file) + cluster_length (fs f) - 1) / cluster_length (fs f) in
  0 ≤ q ∧ q * cluster_length (fs f) ≤ len cl * cluster_length (fs f) ∧
  FileDetails.data_length (details file) ≤ q * cluster_length (fs f) ∧
  q * cluster_length (fs f) < FileDetails.data_length (details file) + cluster_length (fs f).
Proof.
  intros Hi q. pose proof (file_lengths _ _ _ _ Hi) as [? Hcap].
  destruct (cluster_length_pos fl f (file_vol _ _ _ _ Hi)) as (? & ? & _).
  set (CL := cluster_length (fs f)) in *. set (dl := FileDetails.data_length (details file)) in *.
  assert (HC0 : CL ≠ 0) by lia. pose proof (Z.div_mod (dl + CL - 1) CL HC0) as Hdm. fold q in Hdm.
  pose proof (Z.mod_pos_bound (dl + CL - 1) CL ltac:(lia)).
  split_and!; [apply Z.div_pos; lia| |lia|lia].
  assert (q < len cl + 1); [|nia]. apply Z.div_lt_upper_bound; lia.
Qed.

(** As many clusters as [n] bytes need. *)
Definition clusters_for f (n : Z) : Z := (n + cluster_length (fs f) - 1) / cluster_length (fs f).
Lemma clusters_for_unique f n q :
  0 < cluster_length (fs f) → n ≤ q * cluster_length (fs f) < n + cluster_length (fs f) → q = clusters_for f n.
Proof.
  intros Hpos Hq. unfold clusters_for.
  apply Z.div_unique with (n + cluster_length (fs f) - 1 - cluster_length (fs f) * q); lia.
Qed.

(** The growing part of [write]: afterwards the clusters hold the write. *)
Lemma write_grow_ok fl f file cl (n : Z) :
  grow_inv fl f file cl → 0 < n < 2 ^ 32 → n < 2 ^ usize →
  let q := (FileDetails.data_length (details file) + cluster_length (fs f) - 1) / cluster_length (fs f) in
  let capacity := q * cluster_length (fs f) in
  ∃ file' f' nl o,
    (if capacity <? cursor file + n
     then allocate_clusters_for (cast usize (cursor file + n - capacity))
     else mret ()) (file, f) = ((file', f'), o) ∧
    grown_by fl f file cl nl f' file' ∧
    match o with
    | Ok () => cursor file + n ≤ len (cl ++ nl) * cluster_length (fs f) ∧
        (len cl = q → len (cl ++ nl) = clusters_for f (Z.max (cursor file + n) (FileDetails.data_length (details file))))
    | Err DiskFull => ∀ k, cluster_ok f' k → is_allocated fl f' k = true
    | _ => False
    end.
Proof.
  intros Hg Hn Hu q capacity. pose proof (grow_file _ _ _ _ Hg) as Hi. pose proof (file_vol _ _ _ _ Hi) as Hv.
  destruct (cluster_length_pos fl f Hv) as (? & ? & _). pose proof SIZE_range.
  destruct (capacity_ok fl f file cl Hi) as (Hq & Hcap & Hdl & Hdl2). fold q capacity in Hcap, Hdl, Hdl2.
  pose proof (file_cursor _ _ _ _ Hi). pose proof (clusters_for_unique f) as Hun. set (CL := cluster_length (fs f)) in *.
  destruct (Z.ltb_spec capacity (cursor file + n)) as [Hlt|Hge].
  2: { exists file, f, [], (Ok ()). rewrite app_nil_r. split_and!; [done|by apply grown_by_nil|lia|].
       intros ->. apply Hun; [lia|]. fold capacity. lia. }
  set (m := cursor file + n - capacity) in *. rewrite (cast_id usize m) by (unfold m; lia).
  assert (Hm : 0 < m ≤ n) by (unfold m; lia).
  assert (Hcount : (m + CL - 1) / CL ≤ m) by (apply Z.div_le_upper_bound; nia).
  destruct (allocate_clusters_for_ok fl f file cl m Hg) as (file' & f' & nl & o & Hr & Hgr & Ho);
    [lia|fold CL; lia|].
  exists file', f', nl, o. split_and!; [exact Hr|exact Hgr|]. destruct o as [[]|[]| |]; try done; [|apply Ho].
  fold CL in Ho. assert (HC0 : CL ≠ 0) by lia.
  rewrite len_app, Ho. pose proof (Z.div_mod (m + CL - 1) CL HC0).
  pose proof (Z.mod_pos_bound (m + CL - 1) CL ltac:(lia)). set (r := (m + CL - 1) / CL) in *.
  rewrite Z.mul_add_distr_r. split; [unfold m in *; lia|]. intros ->. apply Hun; [lia|].
  rewrite Z.mul_add_distr_r. fold capacity. unfold m in *. lia.
Qed.

(** [write] grows the file and then writes the sectors. *)
Lemma write_unfold fl f file cl buf :
  grow_inv fl f file cl → OpenOptions.write (open_options file) = true → buf ≠ [] →
  SIZE + len buf ≤ 2 ^ usize → len buf < 2 ^ 32 →
  ∃ file1 f1 nl o,
    File.write buf (file, f) =
      match o with
      | Ok () => write_sectors buf (lengthened (len buf) file1, f1)
      | _ => ((file1, f1), o)
      end ∧
    grown_by fl f file cl nl f1 file1 ∧
    match o with
    | Ok () => cursor file + len buf ≤ len (cl ++ nl) * cluster_length (fs f) ∧
        (len cl = clusters_for f (FileDetails.data_length (details file)) →
         len (cl ++ nl) = clusters_for f (Z.max (cursor file + len buf) (FileDetails.data_length (details file))))
    | Err DiskFull => ∀ k, cluster_ok f1 k → is_allocated fl f1 k = true
    | _ => False
    end.
Proof.
  intros Hg Hopt Hne Hu H32. pose proof (grow_file _ _ _ _ Hg) as Hi. pose proof (len_pos buf Hne) as Hpos.
  pose proof (file_vol _ _ _ _ Hi) as Hv. pose proof SIZE_range. pose proof (file_length_bound _ _ _ _ Hi).
  destruct (cluster_length_pos fl f Hv) as (? & ? & _). pose proof (file_cursor _ _ _ _ Hi).
  destruct (capacity_ok fl f file cl Hi) as (Hq & Hcap & Hdl & Hdl2).
  destruct (write_grow_ok fl f file cl (len buf) Hg) as (file1 & f1 & nl & o & Hr & Hgr & Ho); [lia|lia|].
  set (q := (FileDetails.data_length (details file) + cluster_length (fs f) - 1) / cluster_length (fs f)) in *.
  destruct (grown_file _ _ _ _ _ _ _ Hgr) as (_ & _ & _ & _ & _ & Hc' & _).
  exists file1, f1, nl, o. split; [|done].
  unfold File.write. rewrite (proj2 (Z.eqb_neq (len buf) 0)) by lia.
  rewrite (bind_Ok _ _ _ (file, f) ()) by (eapply zoom_to; [by eapply mounted_ok|]; done).
  unfold get_file, get_fs. rewrite (bind_Ok (gets fst) _ _ (file, f) file) by done.
  rewrite Hopt. cbn [negb]. rewrite (bind_Ok (gets _) _ _ (file, f) (fs f)) by done.
  rewrite div_ceil_ok, bind_lift_Ok by lia. fold q. rewrite mul_ok, bind_lift_Ok by lia.
  rewrite add_ok, bind_lift_Ok by lia. destruct o as [[]|[]| |]; try done; [|by rewrite (bind_Err _ _ _ _ _ Hr)].
  rewrite (bind_Ok _ _ _ _ _ Hr).
  by rewrite (bind_Ok _ _ _ _ _ (update_data_length_ok f1 file1 (len buf) ltac:(rewrite Hc'; lia))).
Qed.

(** What a write of [n] bytes does to the directory entry of the file. *)
Record written f file cl nl (n : Z) file' : Prop := {
  written_location : FileDetails.location (details file') = FileDetails.location (details file);
  written_count : FileDetails.secondary_count (details file') = FileDetails.secondary_count (details file);
  written_flags : flags_ok (details file) → flags_ok (details file');
  written_dirty : is_dir_entry_dirty (touched file') = true;
  written_length : FileDetails.data_length (details file') =
    Z.max (Z.max (cursor file + n) (FileDetails.valid_data_length (details file))) (FileDetails.data_length (details file));
  written_clusters : len cl = clusters_for f (FileDetails.data_length (details file)) →
    len (cl ++ nl) = clusters_for f (Z.max (cursor file + n) (FileDetails.data_length (details file)));
}.

Lemma file_write_ok fl f file cl buf :
  grow_inv fl f file cl → OpenOptions.write (open_options file) = true → buf ≠ [] →
  Forall byte_ok buf → SIZE + len buf ≤ 2 ^ usize → len buf < 2 ^ 32 →
  cursor file ≤ FileDetails.valid_data_length (details file) →
  ¬ write_misses_cluster f (cursor file) (len buf) →
  ∃ file' f' nl o, File.write buf (file, f) = ((file', f'), o) ∧ write_post fl f file cl nl f' file' ∧
    match o with
    | Ok () =>
        (file_data fl f' (details file') (cl ++ nl) =
          splice (file_data fl f (details file) cl) (cursor file) buf ∧
         cursor file' = cursor file + len buf ∧
         FileDetails.valid_data_length (details file') =
          Z.max (cursor file + len buf) (FileDetails.valid_data_length (details file))) ∧
        written f file cl nl (len buf) file'
    | Err DiskFull =>
        file_data fl f' (details file') (cl ++ nl) = file_data fl f (details file) cl ∧
        cursor file' = cursor file ∧ ∀ k, cluster_ok f' k → is_allocated fl f' k = true
    | _ => False
    end.
Proof.
  intros Hg Hopt Hne Hb Hu H32 Hval Hgap. pose proof (grow_file _ _ _ _ Hg) as Hi.
  pose proof (file_vol _ _ _ _ Hi) as Hv. pose proof (len_nonneg buf) as Hpos.
  destruct (write_unfold fl f file cl buf Hg Hopt Hne Hu H32) as (file1 & f1 & nl & o & Hr & Hgr & Ho).
  destruct (grown_file _ _ _ _ _ _ _ Hgr) as (Hdl' & Hvl' & _ & Hloc' & _ & Hc' & Hsc' & Hfl').
  pose proof (op_step _ _ _ _ _ _ (grown_op _ _ _ _ _ _ _ Hgr)) as Hst1. pose proof (step_fs _ _ _ _ Hst1) as Hfs1.
  pose proof (file_data_grown fl f file cl nl f1 file1 Hi Hgr) as Hdata1.
  pose proof (write_post_grown fl f file cl nl f1 file1 Hv Hgr) as Hpost1.
  rewrite Hr. destruct o as [[]|[]| |]; try done; [|by exists file1, f1, nl, (Err DiskFull)].
  destruct Ho as [Ho Hcount].
  pose proof (grown_inv _ _ _ _ _ _ _ Hgr) as Hg1. pose proof (grow_file _ _ _ _ Hg1) as Hi1.
  assert (Hcap1 : cursor file1 + len buf ≤ len (cl ++ nl) * cluster_length (fs f1)) by (rewrite Hc', Hfs1; lia).
  destruct (write_sectors_ok fl f1 (lengthened (len buf) file1) (cl ++ nl) buf) as (file2 & f2 & Hbody & Hw);
    [by apply file_inv_lengthened; [|lia|]|exact (proj1 (grow_touched _ _ _ _ Hg1))|done|done|done|cbn; lia| |].
  { unfold write_misses_cluster. cbn. by rewrite Hc', Hfs1. }
  destruct (grow_inv_wrote fl f1 file1 (cl ++ nl) buf f2 file2 Hg1) as (Hg2 & Hos2 & Hop2); [lia|done|done|].
  exists file2, f2, nl, (Ok ()). split; [exact Hbody|]. split.
  - destruct Hpost1 as [_ Hos1 Hfree1 Hop1 Hopt1]. destruct (wrote_file _ _ _ _ _ _ _ Hw) as (_ & Hopt2 & _).
    split; [done| |done| |by rewrite Hopt2].
    + eapply others_same_trans; [exact Hfs1|apply Hst1|exact Hos1|exact Hos2].
    + eapply vol_op_trans; [exact Hop1|]. eapply vol_op_weaken; [|exact Hop2]. intros s Hs. right.
      unfold cluster_sectors, cluster_sector in *. by rewrite Hfs1 in Hs.
  - rewrite <-Hdata1, <-Hc'. destruct (wrote_file _ _ _ _ _ _ _ Hw) as (Hdw & _).
    split; [split_and!; [|by rewrite (wrote_cursor _ _ _ _ _ _ _ Hw)|rewrite Hdw; cbn; by rewrite Hvl']|].
    { apply file_data_written; [done|by rewrite Hc', Hvl'|done|exact Hw]. }
    split; rewrite ?Hdw; cbn; [done|done|exact Hfl'| | |exact Hcount].
    + apply (op_tracks _ _ _ _ _ _ (wrote_op _ _ _ _ _ _ _ Hw)). done.
    + by rewrite Hvl', Hdl', Hc'.
Qed.
End Write.

(** * Theorems *)
Section Theorems.
Context {cfg : Config} {crates : Crates} {bd : BlockDevice} {fu : Fuel}.
Context {Hcfg : ConfigOk cfg} {Hcr : CratesOk crates} {Hbd : DeviceOk cfg bd}.
Implicit Types (f : FileSystem) (file : File) (cl nl buf : list Z).

(** C2 - [File::write] stores the bytes it is given.  On a consistent file open
    for writing, with the cursor at or before the valid data length, a buffer of
    less than 4 GiB ([SIZE + len buf] within [usize]), and unless the buffer
    leaves a short tail directly behind a cluster boundary that its whole sectors
    reach ([write_misses_cluster], the gap of [File::write]):
    the write either succeeds - the contents of the file are then the old ones
    with the buffer at the cursor, longer if the buffer reaches beyond the old
    end - or finds the disk full, with the contents unchanged.  Either way the
    file and its clusters are consistent, new clusters were free before, the
    clusters of everything else keep their data, FAT entry and bit, no sector
    outside the tables and the clusters of the file changes, and every sector
    that is not on the device is on the list that [flush] works off. *)
Theorem write_stores_bytes fl f file cl buf :
  grow_inv fl f file cl → OpenOptions.write (open_options file) = true → buf ≠ [] →
  Forall byte_ok buf → SIZE + len buf ≤ 2 ^ usize → len buf < 2 ^ 32 →
  cursor file ≤ FileDetails.valid_data_length (details file) →
  ¬ write_misses_cluster f (cursor file) (len buf) →
  ∃ file' f' nl o, File.write buf (file, f) = ((file', f'), o) ∧ write_post fl f file cl nl f' file' ∧
    (tracked fl (touched file) f → tracked fl (touched file') f') ∧
    match o with
    | Ok () =>
        file_data fl f' (details file') (cl ++ nl) =
          splice (file_data fl f (details file) cl) (cursor file) buf ∧
        cursor file' = cursor file + len buf ∧
        FileDetails.valid_data_length (details file') =
          Z.max (cursor file + len buf) (FileDetails.valid_data_length (details file))
    | Err DiskFull =>
        file_data fl f' (details file') (cl ++ nl) = file_data fl f (details file) cl ∧
        cursor file' = cursor file ∧ ∀ k, cluster_ok f' k → is_allocated fl f' k = true
    | _ => False
    end.
Proof.
  intros Hg Ho Hne Hb Hu H32 Hv Hgap.
  destruct (file_write_ok fl f file cl buf Hg Ho Hne Hb Hu H32 Hv Hgap) as (file' & f' & nl & o & Hr & Hp & Hres).
  exists file', f', nl, o. split; [done|]. split; [done|]. split; [|by destruct o as [[]|[]| |]; try apply Hres].
  apply (vol_op_tracked _ _ _ _ _ _ (post_op _ _ _ _ _ _ _ Hp)).
Qed.

(** C40 - the gap of [File::write]: when the buffer ends a little behind a
    cluster boundary that the whole sectors reach exactly, the code does not
    move to the next cluster before the last part. These bytes overwrite the
    start of the cluster that was just filled; with overflow checks the code
    panics right after that, without them it goes on and returns success. *)
Theorem write_gap_overwrites_cluster fl f file cl buf :
  grow_inv fl f file cl → OpenOptions.write (open_options file) = true → buf ≠ [] →
  Forall byte_ok buf → SIZE + len buf ≤ 2 ^ usize → len buf < 2 ^ 32 →
  write_misses_cluster f (cursor file) (len buf) →
  let e := cursor file + len buf in
  ∃ file' f' cl' o, File.write buf (file, f) = ((file', f'), o) ∧
    match o with
    | Err DiskFull => ∀ k, cluster_ok f' k → is_allocated fl f' k = true
    | _ => o = (if overflow_checks then Panic else Ok ()) ∧
        take (Z.to_nat (e mod SIZE)) (vseen fl f' (file_sector f cl' (e - e mod SIZE - cluster_length (fs f)))) =
          drop (Z.to_nat (len buf - e mod SIZE)) buf ∧
        cl `prefix_of` cl'
    end.
Proof.
  intros Hg Hopt Hne Hb Hu H32 Hgap e. pose proof (len_nonneg buf).
  destruct (write_unfold fl f file cl buf Hg Hopt Hne Hu H32) as (file1 & f1 & nl & o & Hr & Hgr & Ho).
  destruct (grown_file _ _ _ _ _ _ _ Hgr) as (_ & _ & _ & _ & _ & Hc' & _).
  pose proof (step_fs _ _ _ _ (op_step _ _ _ _ _ _ (grown_op _ _ _ _ _ _ _ Hgr))) as Hfs1.
  pose proof (grown_inv _ _ _ _ _ _ _ Hgr) as Hg1. pose proof (grow_file _ _ _ _ Hg1) as Hi1.
  rewrite Hr. destruct o as [[]|[]| |]; try done; [|by exists file1, f1, cl, (Err DiskFull)]. destruct Ho as [Ho _].
  destruct (write_sectors_gap fl f1 (lengthened (len buf) file1) (cl ++ nl) buf) as (file2 & f2 & Hbody & Hov);
    [apply file_inv_lengthened; [done|lia|by rewrite Hc', Hfs1]|exact (proj1 (grow_touched _ _ _ _ Hg1))|
     done|done|done|cbn; lia|unfold write_misses_cluster; cbn; by rewrite Hc', Hfs1|].
  cbn in Hov. rewrite Hc' in Hov. fold e in Hov.
  assert (Hfse : ∀ p, file_sector f1 (cl ++ nl) p = file_sector f (cl ++ nl) p)
    by (intros p; unfold file_sector, cluster_sector; by rewrite Hfs1).
  rewrite Hfse, Hfs1 in Hov. eexists file2, f2, (cl ++ nl), _. split; [exact Hbody|].
  assert (cl `prefix_of` cl ++ nl) by by eexists. by destruct overflow_checks.
Qed.
End Theorems.

(** * A concrete write *)
Section Sample.
#[local] Existing Instance debug_build.
#[local] Existing Instance dummy_device.
#[local] Existing Instance reference_crates.
#[local] Existing Instance reference_crates_ok.
#[local] Existing Instance debug_build_ok.
#[local] Instance sample_write_device_ok : DeviceOk debug_build dummy_device := blank_ok.
#[local] Instance sample_write_fuel : Fuel := 10%nat.

(** The file on clusters 5 and 7, open for writing, at the end of its first
    cluster. *)
Definition writable_file : File :=
  set_position 5 0 512 {| details := details fragmented_file; current_cluster := 5;
    remaining_bytes_in_cluster := 512; cursor := 0;
    open_options := OpenOptions.set_write true OpenOptions.new;
    chain := FatChain 5 7 2; touched := FileDirty_new |}.

Lemma writable_grow_inv : grow_inv 1 fragmented_volume writable_file [5; 7].
Proof.
  destruct fragmented_grow_inv as [[Hv Hc Hcl Ha Hl Hcu Hp] Hs Hnc Hal Hfree Ht].
  split; [split|..]; [exact Hv|exact Hc|exact Hcl|exact Ha|exact Hl| | |exact Hs|exact Hnc|exact Hal|exact Hfree|exact Ht].
  - cbn. unfold len. cbn. lia.
  - intros _. exists 0%nat. cbn. split_and!; [done|lia..].
Qed.

(** Two whole sectors, the second one in a new cluster. *)
Definition sample_write_buf : list Z := replicate 512 0xCC ++ replicate 512 0xDD.

Lemma write_stores_bytes_witness :
  ∃ file' f' nl, File.write sample_write_buf (writable_file, fragmented_volume) = ((file', f'), Ok ()) ∧
    grow_inv 1 f' file' ([5; 7] ++ nl) ∧ chain file' = FatChain 5 8 3 ∧ cursor file' = 1536 ∧
    file_data 1 f' (details file') ([5; 7] ++ nl) = replicate 512 0xAA ++ sample_write_buf.
Proof.
  destruct (write_stores_bytes 1 fragmented_volume writable_file [5; 7] sample_write_buf writable_grow_inv)
    as (file' & f' & nl & o & Hr & Hp & _ & Ho);
    [reflexivity|done|apply (bool_decide_unpack _); vm_compute; exact I|vm_compute; congruence|reflexivity|
     vm_compute; congruence|by intros [[] _]|].
  pose proof (eq_refl : snd (File.write sample_write_buf (writable_file, fragmented_volume)) = Ok ()) as H1.
  pose proof (eq_refl : chain (fst (fst (File.write sample_write_buf (writable_file, fragmented_volume)))) =
    FatChain 5 8 3) as H2.
  rewrite Hr in H1, H2. cbn [fst snd] in H1, H2. subst o. destruct Ho as (Hd & Hc & _).
  exists file', f', nl. split; [exact Hr|]. split; [exact (post_inv _ _ _ _ _ _ _ Hp)|]. split; [exact H2|].
  split; [exact Hc|]. rewrite Hd. vm_compute. reflexivity.
Defined.

(** A whole sector and five bytes, from the end of a cluster on. *)
Definition sample_gap_buf : list Z := replicate 512 0xCC ++ replicate 5 0xDD.

Lemma write_gap_overwrites_cluster_witness :
  ∃ file' f', File.write sample_gap_buf (writable_file, fragmented_volume) = ((file', f'), Panic) ∧
    take 5 (vseen 1 f' (cluster_sector fragmented_volume 7)) = replicate 5 0xDD.
Proof.
  destruct (write_gap_overwrites_cluster 1 fragmented_volume writable_file [5; 7] sample_gap_buf writable_grow_inv)
    as (file' & f' & cl' & o & Hr & Ho);
    [reflexivity|done|apply (bool_decide_unpack _); vm_compute; exact I|vm_compute; congruence|reflexivity|
     vm_compute; split; [congruence|split; reflexivity]|].
  pose proof (eq_refl : snd (File.write sample_gap_buf (writable_file, fragmented_volume)) = Panic) as H1.
  rewrite Hr in H1. cbn [snd] in H1. subst o. destruct Ho as (_ & Ht & (nl & ->)).
  exists file', f'. split; [exact Hr|exact Ht].
Defined.

(** A write behind the valid data, where a read of the zeros in between has
    taken the cursor: the device bytes in between become valid data. *)
Definition behind_valid_file : File := set_position 7 374 650 writable_file.
Example write_behind_valid_data_exposes_stale_bytes :
  let bytes s := take 50 (drop 600 (file_data 1 (snd s) (details (fst s)) [5; 7])) in
  bytes (behind_valid_file, fragmented_volume) = zeros 50 ∧
  bytes (fst (File.write [1] (behind_valid_file, fragmented_volume))) = replicate 50 0xBB.
Proof. split; vm_compute; reflexivity. Qed.
End Sample.
