(* ===== verification/FileSeek.v ===== *)
(** * Seeking in a file

    [File::seek] of src/file.rs sets the cursor and looks up the cluster it is
    in.  Where the cursor is inside the clusters of the file the result is a
    consistent open file.  The position behind a last cluster that is full is
    not in any cluster: there the code names a cluster that is not the file's,
    or fails half-way. *)

From S2P Require Import Prelude Text Crates Errors Utils Timestamp BootSector Device SlotCache Touched Fat Allocation AllocationSearch Regions Volume VolumeInv VolumeAlloc DirectoryEntry Directory FileSystem File FileRead FileGrow FileWrite.
Import FileSystemDetails (cluster_length, sectors_per_cluster, cluster_heap_offset, fat_offset).

(** * Lemmas *)
Section Lemmas.
Context {cfg : Config} {crates : Crates} {bd : BlockDevice} {fu : Fuel}.
Context {Hcfg : ConfigOk cfg} {Hcr : CratesOk crates} {Hbd : DeviceOk cfg bd}.
Implicit Types (f : FileSystem) (file : File) (cl : list Z).

(** A change of the position that readers of the volume do not notice. *)
Lemma grow_inv_same fl f f' file file' cl :
  grow_inv fl f file cl → vol_same fl f f' → cursor_moved file file' →
  file_inv fl f' file' cl → grow_inv fl f' file' cl.
Proof.
  intros [Hi Hs Hnc Hal Hfree [Htd Hti]] Hst (Hd & _ & Hch & Ht) Hi'. pose proof (file_vol _ _ _ _ Hi) as Hv.
  pose proof (data_clusters_ok _ _ (file_clusters _ _ _ _ Hi)) as Hok.
  assert (Ha : ∀ id, cluster_ok f id → is_allocated fl f' id = is_allocated fl f id)
    by (intros; apply (is_allocated_step fl (λ _, False)); tauto).
  assert (Hc : ∀ id, cluster_ok f' id ↔ cluster_ok f id)
    by (intros; unfold cluster_ok; by rewrite (step_fs _ _ _ _ Hst)).
  split; [done|rewrite Hd|rewrite Hd, Hch; exact Hnc| | |].
  - apply (stored_ok_tables fl f); [done|done|]. intros id Hid. apply (fat_entry_step fl (λ _, False)); tauto.
  - rewrite Forall_forall in Hal, Hok |- *. intros id Hid. rewrite Ha; auto.
  - intros id Hid%Hc Hna. rewrite Ha in Hna by done. apply (data_cluster_step fl (λ _, False) f f' id Hst). auto.
  - rewrite Ht. split; [done|]. eapply Forall_impl; [exact Hti|]. intros x. apply (item_ok_step fl (λ _, False) f f' x Hst).
Qed.

(** Following the FAT along linked clusters. *)
Lemma follow_fat_ok fl cl (n : nat) :
  ∀ f i id last, vol_inv fl f → Forall (data_cluster f) cl → linked fl f cl →
  cl !! i = Some id → cl !! (i + n)%nat = Some last →
  ∃ f', follow_fat n id f = (f', Ok last) ∧ vol_inv fl f' ∧ vol_same fl f f'.
Proof.
  induction n as [|n IH]; intros f i id last Hv Hcl Hl Hi Hlast.
  { rewrite Nat.add_0_r in Hlast. exists f. simplify_eq. split_and!; [done|done|apply vol_step_refl]. }
  destruct (lookup_lt_is_Some_2 cl (S i)) as [x Hx]; [apply lookup_lt_Some in Hlast; lia|].
  destruct (fat_next fl f id Hv) as (f1 & Hn & Hv1 & Hst1); [by apply (Forall_lookup_1 _ _ _ _ Hcl Hi)|].
  destruct (IH f1 (S i) x last Hv1) as (f2 & Hr & Hv2 & Hst2).
  { eapply Forall_impl; [exact Hcl|]. intros y. apply (data_cluster_step fl (λ _, False) f f1 y Hst1). }
  { by apply (linked_step fl f f1). }
  { done. }
  { by replace (S i + n)%nat with (i + S n)%nat by lia. }
  exists f2. cbn [follow_fat]. rewrite (bind_Ok _ _ _ _ _ Hn), (Hl i id x Hi Hx).
  split_and!; [done|done|]. by apply (vol_step_trans fl _ f f1 f2).
Qed.

(** Following it from the last cluster on. *)
Lemma follow_fat_end fl f id n :
  vol_inv fl f → cluster_ok f id → successor (fat_entry fl f id) = None →
  ∃ f', follow_fat (S n) id f = (f', Err EndOfFatChain) ∧ vol_inv fl f' ∧ vol_same fl f f'.
Proof.
  intros Hv Hid Hs. destruct (fat_next fl f id Hv Hid) as (f1 & Hn & Hv1 & Hst1).
  exists f1. cbn [follow_fat]. by rewrite (bind_Ok _ _ _ _ _ Hn), Hs.
Qed.
Lemma follow_fat_app m n id f :
  follow_fat (m + n) id f = (x ← follow_fat m id; follow_fat n x) f.
Proof.
  revert id f. induction m as [|m IH]; intros id f; [done|]. cbn [Nat.add follow_fat].
  rewrite bind_assoc. apply bind_ext. intros [x|]; [|done]. intros f'. apply IH.
Qed.
End Lemmas.

(** * The operation *)
Section Seek.
Context {cfg : Config} {crates : Crates} {bd : BlockDevice} {fu : Fuel}.
Context {Hcfg : ConfigOk cfg} {Hcr : CratesOk crates} {Hbd : DeviceOk cfg bd}.
Implicit Types (f : FileSystem) (file : File) (cl : list Z).

Lemma update_remaining_ok fl f file :
  vol_inv fl f → 0 ≤ cursor file →
  update_remaining_bytes_in_cluster (file, f) =
    ((set_position (current_cluster file) (cluster_length (fs f) - cursor file mod cluster_length (fs f))
      (cursor file) file, f), Ok ()).
Proof.
  intros Hv Hc. destruct (cluster_length_pos fl f Hv) as (? & ? & _).
  pose proof (Z.mod_pos_bound (cursor file) (cluster_length (fs f)) ltac:(lia)).
  unfold update_remaining_bytes_in_cluster, get_file, get_fs.
  rewrite (bind_Ok (gets fst) _ _ (file, f) file) by done.
  rewrite (bind_Ok (gets _) _ _ (file, f) (fs f)) by done.
  rewrite urem_ok, bind_lift_Ok by lia. rewrite cast_id, sub_ok, bind_lift_Ok by lia. done.
Qed.

(** [seek] up to the search for the cluster. *)
Definition seek_cluster (c : StoredChain) (n : Z) : M FileSystem err Z :=
  match c with
  | Empty => mret 0
  | Contiguous first _ => lift (add u32 first n)
  | FatChain first _ _ => follow_fat (Z.to_nat n) first
  end.
Lemma seek_search fl f file cl pos :
  file_inv fl f file cl → chain file ≠ Empty →
  0 ≤ pos ≤ FileDetails.valid_data_length (details file) →
  seek pos (file, f) =
    (id ← zoom lsnd (seek_cluster (chain file) (pos / cluster_length (fs f)));
     set_current_cluster id ;; update_remaining_bytes_in_cluster)
    (set_position (current_cluster file) (remaining_bytes_in_cluster file) pos file, f).
Proof.
  intros Hi Hne Hp. pose proof (file_vol _ _ _ _ Hi) as Hv. pose proof (file_lengths _ _ _ _ Hi).
  destruct (cluster_length_pos fl f Hv) as (? & ? & _). pose proof (length_clusters _ _ _ _ Hi).
  pose proof (vol_geometry _ _ Hv) as [_ _ [_ [Hn _]] _ _ _ _]. unfold CLUSTER_LEN in Hn.
  assert (Hq : 0 ≤ pos / cluster_length (fs f) < 2 ^ 32).
  { split; [apply Z.div_pos; lia|]. apply Z.div_lt_upper_bound; [lia|].
    assert (len cl * cluster_length (fs f) < 2 ^ 32 * cluster_length (fs f)) by (apply Z.mul_lt_mono_pos_r; lia). lia. }
  unfold seek. rewrite (bind_Ok _ _ _ (file, f) ()) by (eapply zoom_to; [by eapply mounted_ok|]; done).
  unfold get_file, get_fs. rewrite (bind_Ok (gets fst) _ _ (file, f) file) by done.
  rewrite (proj2 (Z.ltb_ge _ _)) by lia.
  set (file1 := set_position (current_cluster file) (remaining_bytes_in_cluster file) pos file).
  rewrite (bind_Ok _ _ _ (file1, f) ()) by done.
  rewrite (bind_Ok (gets _) _ _ (file1, f) (fs f)) by done. rewrite udiv_ok, bind_lift_Ok by lia.
  rewrite cast_id by done. destruct (chain file) as [|first n|first l n]; [done|reflexivity|reflexivity].
Qed.

(** Inside the clusters of the file. *)
Lemma seek_cluster_ok fl f file cl pos :
  file_inv fl f file cl → 0 ≤ pos < len cl * cluster_length (fs f) →
  ∃ id f', seek_cluster (chain file) (pos / cluster_length (fs f)) f = (f', Ok id) ∧
    cl !! Z.to_nat (pos / cluster_length (fs f)) = Some id ∧ vol_inv fl f' ∧ vol_same fl f f'.
Proof.
  intros Hi Hp. pose proof (file_vol _ _ _ _ Hi) as Hv.
  destruct (cluster_at fl f file cl pos Hi Hp) as (id & Hid & [Hok _] & _). exists id.
  destruct (cluster_length_pos fl f Hv) as (? & ? & _).
  pose proof (vol_geometry _ _ Hv) as [_ _ [_ [Hn _]] _ _ _ _]. unfold cluster_ok, CLUSTER_LEN in *.
  assert (0 ≤ pos / cluster_length (fs f)) by (apply Z.div_pos; lia).
  pose proof (file_chain _ _ _ _ Hi) as Hch. destruct (chain file) as [|first n|first l n]; cbn in Hch |- *.
  - subst. change (len (@nil Z)) with 0 in Hp. lia.
  - destruct Hch as [-> _]. exists f. apply lookup_seqZ in Hid as Hid2. rewrite add_ok by lia.
    split_and!; [|done|done|apply vol_step_refl]. unfold lift. do 2 f_equal. lia.
  - destruct Hch as (Hhd & _ & _ & Hl). rewrite head_lookup in Hhd.
    destruct (follow_fat_ok fl cl (Z.to_nat (pos / cluster_length (fs f))) f 0 first id Hv)
      as (f' & Hr & Hv' & Hst); [apply Hi|done|done|done|]. by exists f'.
Qed.

(** Behind the last cluster. *)
Lemma seek_cluster_end fl f file cl :
  grow_inv fl f file cl → cl ≠ [] →
  ∃ f' o, seek_cluster (chain file) (len cl) f = (f', o) ∧ vol_inv fl f' ∧ vol_same fl f f' ∧
    match chain file with
    | Contiguous first n => o = Ok (first + n) ∧ first + n ∉ cl
    | _ => o = Err EndOfFatChain
    end.
Proof.
  intros [Hi Hs Hnc _ _ _] Hne. pose proof (file_vol _ _ _ _ Hi) as Hv.
  pose proof (vol_geometry _ _ Hv) as [_ _ [_ [Hn _]] _ _ _ _].
  pose proof (file_clusters _ _ _ _ Hi) as Hcl. pose proof (data_clusters_ok _ _ Hcl) as Hok.
  rewrite Forall_forall in Hok. unfold cluster_ok, CLUSTER_LEN in *.
  pose proof (file_chain _ _ _ _ Hi) as Hch. destruct (chain file) as [|first n|first l n] eqn:Hc; cbn in Hch |- *.
  - done.
  - destruct Hch as [-> Hn0]. exists f, (Ok (first + n)).
    assert (Hlen : len (seqZ first n) = n) by (unfold len; rewrite length_seqZ; lia).
    pose proof (Hok (first + n - 1) ltac:(apply elem_of_seqZ; lia)).
    rewrite Hlen, add_ok by lia. split_and!; [done|done|apply vol_step_refl|done|].
    rewrite elem_of_seqZ. lia.
  - destruct Hch as (Hhd & Hlast & _ & Hl). rewrite head_lookup in Hhd.
    unfold stored_ok in Hs. destruct (no_fat_chain (details file)); [by specialize (Hnc eq_refl)|].
    destruct Hs as [_ Hend]. rewrite last_lookup in Hlast.
    replace (Z.to_nat (len cl)) with (pred (length cl) + 1)%nat
      by (pose proof (len_pos cl Hne); unfold len in *; lia).
    destruct (follow_fat_ok fl cl (pred (length cl)) f 0 first l Hv) as (f1 & Hr & Hv1 & Hst1); [done..|].
    rewrite follow_fat_app, (bind_Ok _ _ _ _ _ Hr).
    assert (Hlok : cluster_ok f l) by (apply Hok; by eapply list_elem_of_lookup_2).
    destruct (follow_fat_end fl f1 l 0 Hv1) as (f2 & Hr2 & Hv2 & Hst2).
    { unfold cluster_ok. by rewrite (step_fs _ _ _ _ Hst1). }
    { rewrite (fat_entry_step fl (λ _, False) f f1 l) by tauto. apply Hend. by rewrite last_lookup. }
    exists f2, (Err EndOfFatChain). split_and!; [done|done| |done]. by apply (vol_step_trans fl _ f f1 f2).
Qed.

(** ** The cases of [seek] *)
Lemma seek_refused fl f file pos :
  vol_inv fl f → FileDetails.valid_data_length (details file) < pos →
  seek pos (file, f) = ((file, f), Err SeekOutOfRange).
Proof.
  intros Hv Hp. unfold seek.
  rewrite (bind_Ok _ _ _ (file, f) ()) by (eapply zoom_to; [by eapply mounted_ok|]; done).
  unfold get_file. rewrite (bind_Ok (gets fst) _ _ (file, f) file) by done.
  by rewrite (proj2 (Z.ltb_lt _ _)) by lia.
Qed.

Lemma seek_empty fl f file pos :
  grow_inv fl f file [] → 0 ≤ pos ≤ FileDetails.valid_data_length (details file) →
  ∃ file', seek pos (file, f) = ((file', f), Ok ()) ∧ cursor_moved file file' ∧ cursor file' = pos ∧
    grow_inv fl f file' [].
Proof.
  intros Hg Hp. pose proof (grow_file _ _ _ _ Hg) as Hi. pose proof (file_vol _ _ _ _ Hi) as Hv.
  pose proof (file_lengths _ _ _ _ Hi) as Hl. change (len (@nil Z)) with 0 in Hl.
  destruct (cluster_length_pos fl f Hv) as (? & ? & _).
  assert (Hch : chain file = Empty).
  { pose proof (file_chain _ _ _ _ Hi) as Hc. destruct (chain file) as [|first n|first l n]; cbn in Hc; [done| |].
    - destruct Hc as [Hs Hn]. symmetry in Hs. apply (f_equal length) in Hs. rewrite length_seqZ in Hs. cbn in Hs. lia.
    - by destruct Hc as [? _]. }
  set (file' := set_position (FileDetails.first_cluster (details file)) 0 pos file).
  exists file'. split; [|split; [done|split; [done|]]].
  - unfold seek. rewrite (bind_Ok _ _ _ (file, f) ()) by (eapply zoom_to; [by eapply mounted_ok|]; done).
    unfold get_file, get_fs. rewrite (bind_Ok (gets fst) _ _ (file, f) file) by done.
    rewrite (proj2 (Z.ltb_ge _ _)) by lia.
    set (file1 := set_position (current_cluster file) (remaining_bytes_in_cluster file) pos file).
    rewrite (bind_Ok _ _ _ (file1, f) ()) by done.
    rewrite (bind_Ok (gets _) _ _ (file1, f) (fs f)) by done. rewrite udiv_ok, bind_lift_Ok by lia.
    cbv zeta. by rewrite Hch.
  - apply (grow_inv_same fl f f file); [done|apply vol_step_refl|done|].
    destruct Hi. split; try done. cbn. lia.
Qed.

Lemma seek_inside fl f file cl pos :
  grow_inv fl f file cl → 0 ≤ pos ≤ FileDetails.valid_data_length (details file) →
  pos < len cl * cluster_length (fs f) →
  ∃ file' f', seek pos (file, f) = ((file', f'), Ok ()) ∧ vol_inv fl f' ∧ vol_same fl f f' ∧
    cursor_moved file file' ∧ cursor file' = pos ∧ grow_inv fl f' file' cl.
Proof.
  intros Hg Hp Hin. pose proof (grow_file _ _ _ _ Hg) as Hi. pose proof (file_lengths _ _ _ _ Hi).
  destruct (seek_cluster_ok fl f file cl pos Hi) as (id & f' & Hs & Hid & Hv & Hst); [lia|].
  rewrite (seek_search fl f file cl pos Hi); [| |done].
  2: { intros He. pose proof (file_chain _ _ _ _ Hi) as Hch. rewrite He in Hch. cbn in Hch. by subst. }
  set (file0 := set_position (current_cluster file) (remaining_bytes_in_cluster file) pos file).
  rewrite (bind_Ok _ _ _ (file0, f') id) by (by eapply zoom_to; [exact Hs|]).
  set (file1 := set_position id (remaining_bytes_in_cluster file) pos file).
  rewrite (bind_Ok _ _ _ (file1, f') ()) by done.
  rewrite (update_remaining_ok fl) by (done || cbn; lia). eexists _, f'. split; [reflexivity|].
  split_and!; [done|done|done|done|]. apply (grow_inv_same fl f f' file); [done|done|done|].
  apply (file_inv_moved fl f f' file _ cl pos Hi); [done|done|done|done|lia|].
  pose proof (located_position fl f (set_position id
    (cluster_length (fs f) - pos mod cluster_length (fs f)) pos file) cl (file_vol _ _ _ _ Hi)) as Hpos.
  unfold position_ok in *. cbn in *. rewrite (step_fs _ _ _ _ Hst). apply Hpos; [lia|]. by split.
Qed.

Lemma seek_behind fl f file cl :
  grow_inv fl f file cl → cl ≠ [] →
  len cl * cluster_length (fs f) = FileDetails.valid_data_length (details file) →
  ∃ file' f' o, seek (FileDetails.valid_data_length (details file)) (file, f) = ((file', f'), o) ∧
    vol_inv fl f' ∧ vol_same fl f f' ∧ cursor_moved file file' ∧
    cursor file' = FileDetails.valid_data_length (details file) ∧
    match chain file with
    | Contiguous _ _ => o = Ok () ∧ (current_cluster file' ∉ cl) ∧
        remaining_bytes_in_cluster file' = cluster_length (fs f)
    | _ => o = Err EndOfFatChain
    end.
Proof.
  intros Hg Hne Hend. pose proof (grow_file _ _ _ _ Hg) as Hi. pose proof (len_pos cl Hne).
  destruct (cluster_length_pos fl f (file_vol _ _ _ _ Hi)) as (? & ? & _).
  destruct (seek_cluster_end fl f file cl Hg Hne) as (f' & o & Hs & Hv & Hst & Ho).
  pose proof (proj1 (proj1 (file_lengths _ _ _ _ Hi))) as Hp0.
  set (pos := FileDetails.valid_data_length (details file)) in *.
  rewrite (seek_search fl f file cl pos Hi); [|intros He; pose proof (file_chain _ _ _ _ Hi) as Hch; by rewrite He in Hch|
    unfold pos in *; lia].
  replace (pos / cluster_length (fs f)) with (len cl) by (rewrite <-Hend; symmetry; apply Z.div_mul; lia).
  set (file0 := set_position (current_cluster file) (remaining_bytes_in_cluster file) pos file).
  assert (Hz : zoom (lsnd (A:=File)) (seek_cluster (chain file) (len cl)) (file0, f) = ((file0, f'), o))
    by (by eapply zoom_to; [exact Hs|]).
  destruct (chain file) as [|first n|first l n].
  - subst o. rewrite (bind_Err _ _ _ _ _ Hz). by exists file0, f', (Err EndOfFatChain).
  - destruct Ho as [-> Hni]. rewrite (bind_Ok _ _ _ _ _ Hz).
    set (file1 := set_position (first + n) (remaining_bytes_in_cluster file) pos file).
    rewrite (bind_Ok _ _ _ (file1, f') ()) by done.
    rewrite (update_remaining_ok fl) by (done || cbn; lia). eexists _, f', (Ok ()). split; [reflexivity|].
    split_and!; [done|done|done|done|done|done|]. cbn. rewrite (step_fs _ _ _ _ Hst), <-Hend, Z.mod_mul by lia. lia.
  - subst o. rewrite (bind_Err _ _ _ _ _ Hz). by exists file0, f', (Err EndOfFatChain).
Qed.
End Seek.

(** * Theorems *)
Section Theorems.
Context {cfg : Config} {crates : Crates} {bd : BlockDevice} {fu : Fuel}.
Context {Hcfg : ConfigOk cfg} {Hcr : CratesOk crates} {Hbd : DeviceOk cfg bd}.
Implicit Types (f : FileSystem) (file : File) (cl : list Z).

(** C26 - [File::seek] goes where it is told: a position behind the valid data
    is refused and nothing changes; any position inside the clusters of the
    file (or the start of an empty file) becomes the cursor, with the file
    consistent - so that reads and writes go on from there - and the volume as
    it was. *)
Theorem seek_moves_cursor fl f file cl pos :
  grow_inv fl f file cl → 0 ≤ pos →
  (FileDetails.valid_data_length (details file) < pos →
     seek pos (file, f) = ((file, f), Err SeekOutOfRange)) ∧
  (pos ≤ FileDetails.valid_data_length (details file) →
   pos < len cl * cluster_length (fs f) ∨ cl = [] →
     ∃ file' f', seek pos (file, f) = ((file', f'), Ok ()) ∧ vol_same fl f f' ∧
       cursor_moved file file' ∧ cursor file' = pos ∧ grow_inv fl f' file' cl).
Proof.
  intros Hg Hp. split.
  - apply (seek_refused fl). apply (grow_file _ _ _ _ Hg).
  - intros Hle [Hin| ->].
    + destruct (seek_inside fl f file cl pos Hg) as (file' & f' & ? & _ & ? & ? & ? & ?); [done..|]. eauto 10.
    + destruct (seek_empty fl f file pos Hg) as (file' & ? & ? & ? & ?); [done|].
      exists file', f. by split_and!; [|apply vol_step_refl|..].
Qed.

(** C4 - what was written is read back: after a successful write that began at or
    before the valid data length and did not fall into the gap of [File::write]
    (a short tail directly behind a cluster boundary that its whole sectors
    reach, [write_misses_cluster]), seeking back to where it began and reading as
    many bytes gives the buffer that was written, across sectors and clusters,
    whether or not the file grew; for buffers of less than 4 GiB and files
    shorter than [2 ^ usize] afterwards. *)
Theorem write_seek_read_roundtrip fl f file cl buf :
  grow_inv fl f file cl → OpenOptions.write (open_options file) = true →
  OpenOptions.read (open_options file) = true → buf ≠ [] →
  Forall byte_ok buf → SIZE + len buf ≤ 2 ^ usize → len buf < 2 ^ 32 →
  Z.max (FileDetails.data_length (details file)) (cursor file + len buf) < 2 ^ usize →
  cursor file ≤ FileDetails.valid_data_length (details file) →
  ¬ write_misses_cluster f (cursor file) (len buf) →
  ∃ file1 f1 o, File.write buf (file, f) = ((file1, f1), o) ∧
    (o = Ok () →
     ∃ file2 f2 file3 f3, seek (cursor file) (file1, f1) = ((file2, f2), Ok ()) ∧
       File.read (zeros (len buf), (file2, f2)) = ((buf, (file3, f3)), Ok (Some (len buf)))).
Proof.
  intros Hg Hw Hrd Hne Hb Hu H32 Hmax Hval Hgap. pose proof (len_pos buf Hne). pose proof SIZE_range.
  pose proof (grow_file _ _ _ _ Hg) as Hi. pose proof (file_cursor _ _ _ _ Hi).
  pose proof (file_lengths _ _ _ _ Hi) as [Hvl _].
  destruct (file_write_ok fl f file cl buf) as (file1 & f1 & nl & o & Hr & Hp & Ho); [done..|].
  exists file1, f1, o. split; [done|]. intros ->. destruct Ho as [(Hdata & Hc1 & Hv1) _].
  pose proof (post_inv _ _ _ _ _ _ _ Hp) as Hg1. pose proof (grow_file _ _ _ _ Hg1) as Hi1.
  pose proof (file_lengths _ _ _ _ Hi1) as [Hvl1 Hcap1]. pose proof (file_length_bound _ _ _ _ Hi1).
  destruct (seek_inside fl f1 file1 (cl ++ nl) (cursor file) Hg1)
    as (file2 & f2 & Hs & Hv2 & Hst & (Hd2 & Ho2 & _) & Hc2 & Hg2); [lia|lia|].
  assert (Hzl : len (zeros (len buf)) = len buf) by (apply zeros_len; lia).
  pose proof (len_file_data fl f (details file) cl ltac:(lia)) as Hlen.
  assert (Hdl1 : FileDetails.data_length (details file1) < 2 ^ usize).
  { pose proof (f_equal len Hdata) as Hl. rewrite len_file_data in Hl by lia. rewrite Hl.
    unfold splice, len in *. rewrite !length_app, length_take, length_drop. lia. }
  destruct (read_ok fl f2 file2 (cl ++ nl) (zeros (len buf)) (grow_file _ _ _ _ Hg2))
    as (buf' & file3 & f3 & o3 & Hread & Hres & _ & _); [rewrite Hzl; lia|by rewrite Hd2|].
  exists file2, f2, file3, f3. split; [done|]. rewrite Hread. unfold read_result in Hres.
  rewrite Ho2, (post_options _ _ _ _ _ _ _ Hp), Hrd in Hres. cbn [negb] in Hres. unfold eof, transfer in Hres.
  rewrite Hd2, Hc2, Hzl, Z.sub_0_r in Hres. rewrite (proj2 (Z.leb_gt _ _)), Z.min_l in Hres by lia.
  destruct Hres as (-> & _ & _ & ->). do 3 f_equal.
  rewrite (file_data_step fl f1 f2 file1 (cl ++ nl) Hi1 Hst), Hdata.
  rewrite (drop_ge (zeros _)), app_nil_r by (unfold len in *; lia).
  unfold splice.
  rewrite drop_app_length' by (rewrite length_take; unfold len in *; lia).
  by rewrite take_app_length' by (unfold len; lia).
Qed.

(** Seeking to the end of a file whose clusters are all full leaves the
    file broken: on a contiguous file it succeeds, but the current cluster is
    then the one behind the file, with a whole cluster of space left in it, so
    that the next write goes to a cluster of something else unless that
    cluster happens to be free; on a fragmented file it fails with
    [EndOfFatChain] although the position is valid, and the cursor has already
    moved. *)
Theorem seek_to_full_end_leaves_file fl f file cl :
  grow_inv fl f file cl → cl ≠ [] →
  len cl * cluster_length (fs f) = FileDetails.valid_data_length (details file) →
  ∃ file' f' o, seek (FileDetails.valid_data_length (details file)) (file, f) = ((file', f'), o) ∧
    cursor file' = FileDetails.valid_data_length (details file) ∧
    match chain file with
    | Contiguous _ _ => o = Ok () ∧ (current_cluster file' ∉ cl) ∧
        remaining_bytes_in_cluster file' = cluster_length (fs f)
    | _ => o = Err EndOfFatChain
    end.
Proof.
  intros Hg Hne He. destruct (seek_behind fl f file cl Hg Hne He) as (file' & f' & o & ? & _ & _ & _ & ? & ?).
  eauto 10.
Qed.
End Theorems.

(** * A concrete file *)
Section Sample.
#[local] Existing Instance debug_build.
#[local] Existing Instance dummy_device.
#[local] Existing Instance reference_crates.
#[local] Existing Instance reference_crates_ok.
#[local] Existing Instance debug_build_ok.
#[local] Instance sample_seek_device_ok : DeviceOk debug_build dummy_device := blank_ok.
#[local] Instance sample_seek_fuel : Fuel := 10%nat.

Lemma seek_moves_cursor_witness :
  ∃ file' f', seek 512 (fragmented_file, fragmented_volume) = ((file', f'), Ok ()) ∧
    grow_inv 1 f' file' [5; 7] ∧ current_cluster file' = 7 ∧
    seek 601 (fragmented_file, fragmented_volume) =
      ((fragmented_file, fragmented_volume), Err SeekOutOfRange).
Proof.
  destruct (seek_moves_cursor 1 fragmented_volume fragmented_file [5; 7] 512 fragmented_grow_inv)
    as [_ (file' & f' & Hr & _ & _ & _ & Hg)]; [done|cbn; lia|left; reflexivity|].
  destruct (seek_moves_cursor 1 fragmented_volume fragmented_file [5; 7] 601 fragmented_grow_inv)
    as [Hout _]; [done|].
  pose proof (eq_refl : current_cluster (fst (fst (seek 512 (fragmented_file, fragmented_volume)))) = 7) as Hc.
  rewrite Hr in Hc. exists file', f'. split; [exact Hr|]. split; [exact Hg|]. split; [exact Hc|].
  apply Hout. cbn. lia.
Defined.

(** The same file with both clusters full. *)
Definition full_file : File :=
  set_details (with_lengths 1024 1024 (details fragmented_file)) fragmented_file.

Lemma full_grow_inv : grow_inv 1 fragmented_volume full_file [5; 7].
Proof.
  destruct fragmented_grow_inv as [[Hv Hc Hcl Ha Hl Hcu Hp] Hs Hnc Hal Hfree Ht].
  split; [split|..]; try done; cbn; unfold len; cbn; lia.
Qed.

Lemma seek_to_full_end_leaves_file_witness :
  ∃ file' f', seek 1024 (full_file, fragmented_volume) = ((file', f'), Err EndOfFatChain) ∧
    cursor file' = 1024.
Proof.
  destruct (seek_to_full_end_leaves_file 1 fragmented_volume full_file [5; 7] full_grow_inv)
    as (file' & f' & o & Hr & Hc & Ho); [done|reflexivity|].
  cbn in Ho. subst o. exists file', f'. split; [exact Hr|exact Hc].
Defined.

(** Two sectors written behind the first cluster, and read back. *)
Definition read_write_file : File :=
  set_position 5 0 512 {| details := details fragmented_file; current_cluster := 5;
    remaining_bytes_in_cluster := 512; cursor := 0;
    open_options := OpenOptions.set_read true (OpenOptions.set_write true OpenOptions.new);
    chain := FatChain 5 7 2; touched := FileDirty_new |}.
Lemma read_write_grow_inv : grow_inv 1 fragmented_volume read_write_file [5; 7].
Proof.
  destruct writable_grow_inv as [[? ? ? ? ? ? ?] ? ? ? ? ?]. split; [split|..]; done.
Qed.

Lemma write_seek_read_roundtrip_witness :
  ∃ file1 f1 file2 f2 file3 f3,
    File.write sample_write_buf (read_write_file, fragmented_volume) = ((file1, f1), Ok ()) ∧
    seek 512 (file1, f1) = ((file2, f2), Ok ()) ∧
    File.read (zeros 1024, (file2, f2)) = ((sample_write_buf, (file3, f3)), Ok (Some 1024)).
Proof.
  destruct (write_seek_read_roundtrip 1 fragmented_volume read_write_file [5; 7] sample_write_buf read_write_grow_inv)
    as (file1 & f1 & o & Hr & Ho);
    [reflexivity|reflexivity|done|apply (bool_decide_unpack _); vm_compute; exact I|vm_compute; congruence|
     reflexivity|reflexivity|vm_compute; congruence|by intros [[] _]|].
  pose proof (eq_refl : snd (File.write sample_write_buf (read_write_file, fragmented_volume)) = Ok ()) as H1.
  rewrite Hr in H1. cbn [snd] in H1. subst o.
  destruct (Ho eq_refl) as (file2 & f2 & file3 & f3 & Hs & Hread).
  exists file1, f1, file2, f2, file3, f3. split; [exact Hr|]. split; [exact Hs|exact Hread].
Defined.
End Sample.
