(* ===== verification/Api.v ===== *)
(** * The operations of src/file_system.rs that open a file *)

From S2P Require Import Prelude Text Crates Errors Utils Timestamp BootSector Device SlotCache Touched Fat Allocation DirectoryEntry Volume Directory FileSystem File.
Open Scope string_scope.
Open Scope list_scope.
Open Scope Z_scope.
Import FileSystemDetails (cluster_length).

Section Ops.
Context {cfg : Config} {crates : Crates} {bd : BlockDevice} {fu : Fuel}.
Abbreviation FSM := (M FileSystem err) (only parsing).

(** the second [match] of [open]: what to do with what was found *)
Definition open_details (path : str) (options : OpenOptions.t)
    (found : ExFatError dev_error + FileDetails.t) : FSM FileDetails.t :=
  match found with
  | inr d =>
      if OpenOptions.create_new options then throw AlreadyExists
      else if OpenOptions.truncate options then truncate_file d 0
      else mret d
  | inl FileNotFound =>
      if OpenOptions.create options || OpenOptions.create_new options
      then create_file path else throw FileNotFound
  | inl e => throw e
  end.

(** the rest of [open]: the chain of the file and the place of its cursor *)
Definition open_file (options : OpenOptions.t) (d : FileDetails.t) : FSM File :=
  chain ← get_stored_chain d;
  cluster_id ← lift
    (if OpenOptions.append options then
       match chain with
       | Empty => Ok (FileDetails.first_cluster d)
       | Contiguous first n => s ← add u32 first n; sub u32 s 1
       | FatChain _ last _ => Ok last
       end
     else Ok (FileDetails.first_cluster d));
  f ← gets fs;
  lift (File_new d cluster_id (cluster_length f) options chain).

Definition open (path : str) (options : OpenOptions.t) : FSM File :=
  mount ;;
  found ← try_ (find_file_or_directory path (Some Archive));
  d ← open_details path options found;
  open_file options d.

(** [let mut file = self.open(..)?; ..; file.close(self)?] *)
Definition with_file {A} (path : str) (options : OpenOptions.t)
    (body : M (File * FileSystem) err A) : FSM A :=
  file ← open path options;
  r ← with_local file (a ← body; File.flush ;; mret a);
  mret (snd r).

Definition read (path : str) : FSM (list Z) :=
  mount ;;
  with_file path (OpenOptions.set_read true OpenOptions.new)
    (r ← with_local [] read_to_end; mret (fst r)).

Definition read_to_string (path : str) : FSM str :=
  mount ;;
  with_file path (OpenOptions.set_read true OpenOptions.new) File.read_to_string.

Definition copy (from_path to_path : str) : FSM () :=
  mount ;;
  if decide (from_path = to_path)
  then throw (InvalidFileName "cannot copy file to the same exact location")
  else with_file from_path (OpenOptions.set_read true OpenOptions.new) (copy_to to_path).

Definition write (path : str) (contents : list Z) : FSM () :=
  mount ;;
  with_file path
    (OpenOptions.set_write true (OpenOptions.set_truncate true (OpenOptions.set_create true
       OpenOptions.new)))
    (File.write contents).
End Ops.
