(* ===== verification/FileOpen.v ===== *)
(** * Opening a file gives a consistent open file

    The last part of [FileSystem::open] of src/file_system.rs: from the details
    of a directory entry to a [File].  When entry, FAT and bitmap agree on the
    clusters of the file ([stored_file]) the open file is consistent with them
    ([grow_inv]), so that reading, writing and seeking do what FileRead.v,
    FileWrite.v and FileSeek.v say.  The exception is a file opened for
    appending whose last cluster is full. *)

From S2P Require Import Prelude Text Crates Errors Utils Timestamp BootSector Device SlotCache Touched Fat Allocation AllocationSearch Regions Volume VolumeInv VolumeAlloc DirectoryEntry Directory FileSystem File FileRead FileGrow FileWrite FileSeek Api.
Import FileSystemDetails (cluster_length, sectors_per_cluster, cluster_heap_offset, fat_offset).

(** * Specification *)
Section Spec.
Context {cfg : Config} {crates : Crates} {bd : BlockDevice} {Hbd : DeviceOk cfg bd}.
Implicit Types (f : FileSystem) (d : FileDetails.t) (cl : list Z).

(** A stored file: its entry, the FAT and the bitmap agree on its clusters,
    which are as many as its length needs. *)
Record stored_file (fl : Z) f d cl : Prop := {
  stored_vol : vol_inv fl f;
  stored_clusters : Forall (data_cluster f) cl;
  stored_nodup : NoDup cl;
  stored_links : stored_ok fl f d cl;
  stored_allocated : Forall (λ id, is_allocated fl f id = true) cl;
  stored_free id : cluster_ok f id → is_allocated fl f id = false → data_cluster f id;
  stored_first : cl ≠ [] → head cl = Some (FileDetails.first_cluster d);
  stored_lengths : 0 ≤ FileDetails.valid_data_length d ≤ FileDetails.data_length d;
  stored_count : len cl = (FileDetails.data_length d + cluster_length (fs f) - 1) / cluster_length (fs f);
}.
End Spec.

(** * Lemmas *)
Section Lemmas.
Context {cfg : Config} {crates : Crates} {bd : BlockDevice} {fu : Fuel}.
Context {Hcfg : ConfigOk cfg} {Hcr : CratesOk crates} {Hbd : DeviceOk cfg bd}.
Implicit Types (f : FileSystem) (d : FileDetails.t) (cl : list Z).

Lemma stored_capacity fl f d cl :
  stored_file fl f d cl →
  FileDetails.data_length d ≤ len cl * cluster_length (fs f) < FileDetails.data_length d + cluster_length (fs f).
Proof.
  intros Hs. destruct (cluster_length_pos fl f (stored_vol _ _ _ _ Hs)) as (? & ? & _).
  rewrite (stored_count _ _ _ _ Hs). set (CL := cluster_length (fs f)) in *.
  pose proof (Z.div_mod (FileDetails.data_length d + CL - 1) CL ltac:(lia)).
  pose proof (Z.mod_pos_bound (FileDetails.data_length d + CL - 1) CL ltac:(lia)). lia.
Qed.

(** A stored file after a step that keeps the tables. *)
Lemma stored_file_kept fl (P : Z → Prop) f f' d cl :
  stored_file fl f d cl → vol_inv fl f' → vol_step fl P f f' →
  (∀ id, cluster_ok f id → fat_entry fl f' id = fat_entry fl f id ∧ is_allocated fl f' id = is_allocated fl f id) →
  stored_file fl f' d cl.
Proof.
  intros [Hv Hcl Hnd Hst Hal Hfree Hhd Hlen Hcount] Hv' Hstep Ht. pose proof (data_clusters_ok _ _ Hcl) as Hok.
  split; try done.
  - eapply Forall_impl; [exact Hcl|]. intros id. by apply (data_cluster_step fl P f f').
  - apply (stored_ok_tables fl f); [done..|]. intros id Hid. by apply Ht.
  - rewrite Forall_forall in Hal, Hok |- *. intros id Hid. rewrite (proj2 (Ht id (Hok id Hid))). auto.
  - intros id Hid Hna. assert (Hid' : cluster_ok f id) by (unfold cluster_ok in *; by rewrite <-(step_fs _ _ _ _ Hstep)).
    rewrite (proj2 (Ht id Hid')) in Hna. apply (data_cluster_step fl P f f' id Hstep). auto.
  - by rewrite (step_fs _ _ _ _ Hstep).
Qed.

(** The chain of a stored file. *)
Lemma get_stored_chain_ok fl f d cl :
  stored_file fl f d cl →
  ∃ f' c, get_stored_chain d f = (f', Ok c) ∧ vol_inv fl f' ∧ vol_same fl f f' ∧
    chain_clusters fl f c cl ∧ (c = Empty ↔ cl = []) ∧
    (no_fat_chain d = true → match c with FatChain _ _ _ => False | _ => True end).
Proof.
  intros Hs. pose proof (stored_vol _ _ _ _ Hs) as Hv. destruct (cluster_length_pos fl f Hv) as (? & ? & _).
  pose proof (stored_capacity _ _ _ _ Hs) as Hcap. pose proof (stored_lengths _ _ _ _ Hs) as Hl.
  pose proof (data_clusters_ok _ _ (stored_clusters _ _ _ _ Hs)) as Hok.
  pose proof (vol_geometry _ _ Hv) as [_ _ [Hc1 [Hcc _]] _ _ _ _]. unfold CLUSTER_LEN in Hcc.
  pose proof (clusters_bound f cl ltac:(lia) Hok (stored_nodup _ _ _ _ Hs)) as Hb.
  pose proof (len_nonneg cl) as Hcl0.
  unfold get_stored_chain. rewrite (bind_Ok (gets fs) _ _ f (fs f)) by done.
  rewrite div_ceil_ok, bind_lift_Ok by lia. rewrite <-(stored_count _ _ _ _ Hs), cast_id by lia.
  destruct (decide (cl = [])) as [->|Hne].
  { exists f, Empty. change (len (@nil Z)) with 0. rewrite orb_true_r. by split_and!; [|done|apply vol_step_refl|..]. }
  pose proof (len_pos cl Hne). pose proof (stored_first _ _ _ _ Hs Hne) as Hhd.
  rewrite head_lookup in Hhd. rewrite Forall_forall in Hok.
  pose proof (Hok _ (list_elem_of_lookup_2 _ _ _ Hhd)) as Hfirst. unfold cluster_ok in Hfirst.
  rewrite (proj2 (Z.eqb_neq _ NO_CLUSTER_ID)), (proj2 (Z.eqb_neq (len cl) 0)) by (unfold NO_CLUSTER_ID; lia).
  cbn [orb]. pose proof (stored_links _ _ _ _ Hs) as Hst. unfold stored_ok in Hst.
  change (contains (FileDetails.flags d) NoFatChain) with (no_fat_chain d).
  destruct (no_fat_chain d) eqn:Hn.
  { exists f, (Contiguous (FileDetails.first_cluster d) (len cl)).
    split_and!; [done|done|apply vol_step_refl| |done|done].
    split; [|done]. apply Hst. by rewrite head_lookup. }
  destruct Hst as [Hlink Hend]. unfold get_cluster_id_at.
  assert (Hdl : 0 < FileDetails.data_length d) by nia.
  rewrite (proj2 (Z.eqb_neq (FileDetails.data_length d) 0)) by lia.
  assert (Hq : (FileDetails.data_length d - 1) / cluster_length (fs f) = len cl - 1).
  { symmetry. apply Z.div_unique with (FileDetails.data_length d - 1 - cluster_length (fs f) * (len cl - 1)); lia. }
  destruct (lookup_lt_is_Some_2 cl (pred (length cl))) as [l Hlast]; [unfold len in *; lia|].
  destruct (follow_fat_ok fl cl (pred (length cl)) f 0 (FileDetails.first_cluster d) l Hv)
    as (f' & Hr & Hv' & Hst'); [apply Hs|done|done|done|].
  exists f', (FatChain (FileDetails.first_cluster d) l (len cl)).
  split; [|split_and!; [done|done| |done|done]].
  - erewrite bind_Ok; [reflexivity|]. rewrite (bind_Ok (gets fs) _ _ f (fs f)) by done.
    rewrite udiv_ok, bind_lift_Ok, Hq, cast_id by lia.
    change (contains (FileDetails.flags d) NoFatChain) with (no_fat_chain d). rewrite Hn.
    by replace (Z.to_nat (len cl - 1)) with (pred (length cl)) by (unfold len; lia).
  - split_and!; [by rewrite head_lookup|by rewrite last_lookup|done|done].
Qed.

(** The cluster of the cursor: the first one, or the last one for appending. *)
Definition start_cluster (o : OpenOptions.t) d cl : Z :=
  if OpenOptions.append o then default (FileDetails.first_cluster d) (last cl)
  else FileDetails.first_cluster d.
Definition start_cursor (o : OpenOptions.t) d : Z :=
  if OpenOptions.append o then FileDetails.valid_data_length d else 0.

Lemma open_file_ok fl f o d cl :
  stored_file fl f d cl →
  ∃ f' file, open_file o d f = (f', Ok file) ∧ vol_inv fl f' ∧ vol_same fl f f' ∧
    chain_clusters fl f (chain file) cl ∧
    (no_fat_chain d = true → match chain file with FatChain _ _ _ => False | _ => True end) ∧
    details file = d ∧ open_options file = o ∧ touched file = FileDirty_new ∧
    cursor file = start_cursor o d ∧ current_cluster file = start_cluster o d cl ∧
    (cl ≠ [] → remaining_bytes_in_cluster file =
       cluster_length (fs f) - start_cursor o d mod cluster_length (fs f)).
Proof.
  intros Hs. pose proof (stored_vol _ _ _ _ Hs) as Hv. destruct (cluster_length_pos fl f Hv) as (? & ? & _).
  destruct (get_stored_chain_ok fl f d cl Hs) as (f' & c & Hr & Hv' & Hst & Hch & Hemp & Hnc).
  pose proof (step_fs _ _ _ _ Hst) as Hfs. exists f'.
  assert (Hmod : 0 ≤ start_cursor o d mod cluster_length (fs f) < cluster_length (fs f))
    by (apply Z.mod_pos_bound; lia).
  assert (Hid : (if OpenOptions.append o then
       match c with
       | Empty => Ok (FileDetails.first_cluster d)
       | Contiguous first n => s ← add (E:=err) u32 first n; sub u32 s 1
       | FatChain _ last _ => Ok last
       end
     else Ok (FileDetails.first_cluster d)) = Ok (start_cluster o d cl)).
  { unfold start_cluster. destruct (OpenOptions.append o); [|done].
    destruct c as [|first n|first l n]; cbn in Hch.
    - by subst.
    - destruct Hch as [Hcl Hn]. pose proof (data_clusters_ok _ _ (stored_clusters _ _ _ _ Hs)) as Hok.
      rewrite Forall_forall in Hok. unfold cluster_ok in Hok.
      pose proof (Hok (first + n - 1) ltac:(rewrite Hcl; apply elem_of_seqZ; lia)).
      pose proof (Hok first ltac:(rewrite Hcl; apply elem_of_seqZ; lia)).
      pose proof (vol_geometry _ _ Hv) as [_ _ [_ [Hcc _]] _ _ _ _]. unfold CLUSTER_LEN in Hcc.
      rewrite add_ok by lia. cbn [mbind outcome_bind]. rewrite sub_ok by lia.
      rewrite Hcl, last_seqZ by lia. done.
    - destruct Hch as (_ & Hl & _). by rewrite Hl. }
  assert (Hnew : ∃ r, File_new d (start_cluster o d cl) (cluster_length (fs f)) o c =
      Ok {| details := d; current_cluster := start_cluster o d cl; remaining_bytes_in_cluster := r;
            cursor := start_cursor o d; open_options := o; chain := c; touched := FileDirty_new |} ∧
      (cl ≠ [] → r = cluster_length (fs f) - start_cursor o d mod cluster_length (fs f))).
  { unfold File_new. fold (start_cursor o d).
    destruct (decide (cl = [])) as [He|Hne].
    { rewrite (proj2 Hemp He). by exists 0. }
    exists (cluster_length (fs f) - start_cursor o d mod cluster_length (fs f)). split; [|done].
    destruct c; [by destruct Hne; apply Hemp| |]; rewrite urem_ok by lia; cbn [mbind outcome_bind];
      rewrite cast_id, sub_ok by lia; done. }
  destruct Hnew as (r & Hnew & Hrem). eexists. split; [|split_and!; [exact Hv'|exact Hst|..]].
  - unfold open_file. rewrite (bind_Ok _ _ _ _ _ Hr). rewrite Hid, bind_lift_Ok.
    rewrite (bind_Ok (gets fs) _ _ f' (fs f)) by (unfold gets; by rewrite Hfs). by rewrite Hnew.
  - done.
  - done.
  - done.
  - done.
  - done.
  - done.
  - done.
  - done.
Qed.
End Lemmas.

(** * Theorems *)
Section Theorems.
Context {cfg : Config} {crates : Crates} {bd : BlockDevice} {fu : Fuel}.
Context {Hcfg : ConfigOk cfg} {Hcr : CratesOk crates} {Hbd : DeviceOk cfg bd}.
Implicit Types (f : FileSystem) (d : FileDetails.t) (cl : list Z).

Lemma open_stored_ok fl f o d cl :
  stored_file fl f d cl →
  (OpenOptions.append o = true → cl ≠ [] →
     (len cl - 1) * cluster_length (fs f) ≤ FileDetails.valid_data_length d < len cl * cluster_length (fs f)) →
  ∃ f' file, open_file o d f = (f', Ok file) ∧ vol_same fl f f' ∧ grow_inv fl f' file cl ∧
    details file = d ∧ open_options file = o ∧ cursor file = start_cursor o d ∧ touched file = FileDirty_new ∧ grow_inv fl f file cl.
Proof.
  intros Hs Happ. destruct (open_file_ok fl f o d cl Hs)
    as (f' & file & Hr & Hv' & Hst & Hch & Hnc & Hd & Ho & Ht & Hc & Hcur & Hrem).
  destruct (stored_lengths _ _ _ _ Hs) as [Hl1 Hl2]. pose proof (stored_capacity _ _ _ _ Hs) as [Hcap _].
  destruct (cluster_length_pos fl f (stored_vol _ _ _ _ Hs)) as (? & ? & _).
  assert (Hcr0 : 0 ≤ start_cursor o d ≤ FileDetails.data_length d)
    by (unfold start_cursor; destruct (OpenOptions.append o); lia).
  exists f', file.
  assert (Hi : file_inv fl f file cl).
  { split; try done; [apply Hs..|by rewrite Hd|by rewrite Hd, Hc|].
    intros Hne. specialize (Hrem Hne). pose proof (len_pos cl Hne) as Hpos. unfold position_ok. rewrite Hcur, Hrem, Hc.
    unfold start_cluster, start_cursor in *. destruct (OpenOptions.append o).
    - specialize (Happ eq_refl Hne). exists (pred (length cl)).
      assert (Hi : Z.of_nat (pred (length cl)) = len cl - 1) by (unfold len in *; lia). rewrite Hi.
      destruct (last cl) as [l|] eqn:Hlast; [|by apply last_None in Hlast].
      rewrite last_lookup in Hlast. set (CL := cluster_length (fs f)) in *.
      assert (Hm : FileDetails.valid_data_length d mod CL = FileDetails.valid_data_length d - CL * (len cl - 1)).
      { symmetry. apply Z.mod_unique with (len cl - 1); lia. }
      rewrite Hm. split_and!; [done|lia|lia|lia].
    - exists 0%nat. rewrite Z.mod_0_l by lia. pose proof (stored_first _ _ _ _ Hs Hne) as Hhd.
      rewrite head_lookup in Hhd. split_and!; [done|lia..]. }
  assert (Hg : grow_inv fl f file cl).
  { split; [done|rewrite Hd; apply Hs|by rewrite Hd|apply Hs|apply Hs|].
    rewrite Ht. split; [apply FileDirty_new_ok|apply Forall_nil_2]. }
  split_and!; [done|done| |done|done|done|done|done].
  apply (grow_inv_same fl f f' file); [done|done|done|].
  apply (file_inv_tables fl _ f f' file cl Hi Hv' Hst). intros id Hid. apply (fat_entry_step fl (λ _, False)); [apply Hs|done|done|tauto].
Qed.

(** C24 - opening a stored file gives a consistent open file: its cursor is at
    the start, or behind the valid data for appending, and everything the
    operations of an open file rely on holds.  Appending to a file is included
    where its valid data ends inside the last cluster. *)
Theorem open_gives_consistent_file fl f o d cl :
  stored_file fl f d cl →
  (OpenOptions.append o = true → cl ≠ [] →
     (len cl - 1) * cluster_length (fs f) ≤ FileDetails.valid_data_length d < len cl * cluster_length (fs f)) →
  ∃ f' file, open_file o d f = (f', Ok file) ∧ vol_same fl f f' ∧ grow_inv fl f' file cl ∧
    details file = d ∧ open_options file = o ∧ cursor file = start_cursor o d.
Proof.
  intros Hs Happ. destruct (open_stored_ok fl f o d cl Hs Happ) as (f' & file & Hr & Hst & Hg & Hd & Ho & Hc & _).
  by exists f', file.
Qed.

(** A file opened for appending whose last cluster is full of valid data
    is not consistent: the code takes the last cluster for the cluster of the
    cursor with all its space left, so the next write goes over its start
    instead of behind the data. *)
Theorem open_append_full_misplaces_cursor fl f o d cl l :
  stored_file fl f d cl → OpenOptions.append o = true → last cl = Some l →
  FileDetails.valid_data_length d = len cl * cluster_length (fs f) →
  ∃ f' file, open_file o d f = (f', Ok file) ∧ cursor file = len cl * cluster_length (fs f) ∧
    current_cluster file = l ∧ remaining_bytes_in_cluster file = cluster_length (fs f) ∧
    get_current_sector_id (file, f') = ((file, f'), Ok (cluster_sector f l)).
Proof.
  intros Hs Happ Hl Hfull. destruct (open_file_ok fl f o d cl Hs)
    as (f' & file & Hr & Hv' & Hst & _ & _ & _ & _ & _ & Hc & Hcur & Hrem).
  destruct (cluster_length_pos fl f (stored_vol _ _ _ _ Hs)) as (? & ? & _).
  pose proof (step_fs _ _ _ _ Hst) as Hfs.
  unfold start_cursor, start_cluster in *. rewrite Happ in *. rewrite Hl in Hcur. cbn [default from_option] in Hcur. unfold id in Hcur. rewrite Hfull in *.
  rewrite Z.mod_mul, Z.sub_0_r in Hrem by lia.
  pose proof (stored_vol _ _ _ _ Hs) as Hv. pose proof SIZE_range.
  assert (Hlok : cluster_ok f l).
  { pose proof (data_clusters_ok _ _ (stored_clusters _ _ _ _ Hs)) as Hok. rewrite Forall_forall in Hok.
    apply Hok. rewrite last_lookup in Hl. by eapply list_elem_of_lookup_2. }
  exists f', file. split_and!; [done|done|done|apply Hrem; by intros ->|].
  unfold get_current_sector_id, get_file, get_fs.
  rewrite (bind_Ok (gets fst) _ _ (file, f') file) by done.
  rewrite (bind_Ok (gets _) _ _ (file, f') (fs f)) by (unfold gets; cbn; by rewrite Hfs).
  rewrite Hc, urem_ok, Z.mod_mul, bind_lift_Ok by lia. rewrite Hcur.
  rewrite (get_heap_sector_ok fl f l (vol_geometry _ _ Hv) Hlok), bind_lift_Ok.
  rewrite (cast_id u32 0), (cast_id u32 SIZE), udiv_ok, bind_lift_Ok by lia. rewrite Z.div_0_l by lia.
  destruct (cluster_sector_heap fl f l 0 (vol_geometry _ _ Hv) Hlok) as [Hlo Hhi]; [pose proof (geo_cluster _ _ _ (vol_geometry _ _ Hv)); lia|].
  pose proof (geo_heap _ _ _ (vol_geometry _ _ Hv)). pose proof (geo_fat _ _ _ (vol_geometry _ _ Hv)).
  unfold lift. by rewrite add_ok, Z.add_0_r by lia.
Qed.
End Theorems.

(** * A concrete file *)
Section Sample.
#[local] Existing Instance debug_build.
#[local] Existing Instance dummy_device.
#[local] Existing Instance reference_crates.
#[local] Existing Instance reference_crates_ok.
#[local] Existing Instance debug_build_ok.
#[local] Instance sample_open_device_ok : DeviceOk debug_build dummy_device := blank_ok.
#[local] Instance sample_open_fuel : Fuel := 10%nat.

(** The fragmented file of FileRead.v, as its directory entry has it. *)
Lemma fragmented_stored (v n : Z) :
  0 ≤ v ≤ n → 512 < n ≤ 1024 →
  stored_file 1 fragmented_volume (with_lengths v n (details fragmented_file)) [5; 7].
Proof.
  intros Hv Hn. destruct fragmented_grow_inv as [[? ? ? ? _ _ _] Hs _ ? ? _].
  split; [done|done|done|exact Hs|done|done|done|done|]. cbn.
  unfold len. cbn. apply Z.div_unique with (n - 513); lia.
Qed.

Definition append_options : OpenOptions.t := OpenOptions.set_append true (OpenOptions.set_write true OpenOptions.new).

Lemma open_gives_consistent_file_witness :
  ∃ f' file, open_file append_options (with_lengths 600 700 (details fragmented_file)) fragmented_volume = (f', Ok file) ∧
    grow_inv 1 f' file [5; 7] ∧ cursor file = 600 ∧ chain file = FatChain 5 7 2.
Proof.
  destruct (open_gives_consistent_file 1 fragmented_volume append_options
    (with_lengths 600 700 (details fragmented_file)) [5; 7])
    as (f' & file & Hr & _ & Hg & _ & _ & Hc); [apply fragmented_stored; lia|cbn; unfold len; cbn; lia|].
  pose proof (eq_refl : match snd (open_file append_options (with_lengths 600 700 (details fragmented_file))
    fragmented_volume) with Ok x => chain x | _ => Empty end = FatChain 5 7 2) as H1.
  rewrite Hr in H1. exists f', file. split; [exact Hr|]. split; [exact Hg|]. split; [exact Hc|exact H1].
Defined.

Lemma open_append_full_misplaces_cursor_witness :
  ∃ f' file, open_file append_options (with_lengths 1024 1024 (details fragmented_file)) fragmented_volume = (f', Ok file) ∧
    cursor file = 1024 ∧ current_cluster file = 7 ∧ remaining_bytes_in_cluster file = 512.
Proof.
  destruct (open_append_full_misplaces_cursor 1 fragmented_volume append_options
    (with_lengths 1024 1024 (details fragmented_file)) [5; 7] 7)
    as (f' & file & Hr & Hc & Hcur & Hrem & _); [apply fragmented_stored; lia|reflexivity|reflexivity|reflexivity|].
  exists f', file. split; [exact Hr|]. split; [exact Hc|]. split; [exact Hcur|exact Hrem].
Defined.
End Sample.
