(* ===== verification/DirRemove.v ===== *)
(** * Removing a directory entry

    [mark_directory_entry_set_unused] of src/file_system.rs clears the in-use
    bits of an entry set; the directory, as a map from names to details, loses
    the name of the set and keeps the others.  [delete_inner] first frees the
    clusters of the file. *)

From S2P Require Import Prelude Text Crates Errors Utils Timestamp BootSector Device SlotCache Touched Fat Allocation AllocationSearch Regions DirectoryEntry Volume VolumeInv VolumeAlloc Directory FileSystem File FileRead FileGrow FreeChain DirSets FileFlush FileOpen DirWalk DirFree DirLookup PathLookup DirCreate DirInsert.
Import FileSystemDetails (cluster_length, sectors_per_cluster, cluster_heap_offset, fat_offset).

(** * Specification *)
Section Spec.
Context {cfg : Config} {crates : Crates} {bd : BlockDevice} {fu : Fuel} {Hbd : DeviceOk cfg bd}.
Implicit Types (f : FileSystem) (cl : list Z) (es : list RawDirEntry).

(** An entry that is no longer in use. *)
Definition cleared (e : RawDirEntry) : RawDirEntry := Z.land (e !!! 0%nat) 0x7F :: drop 1 e.

(** Sector and offset of entry [k]; the loop also has the offset behind the
    last entry of the sector before. *)
Definition at_entry (s k sector_id offset : Z) : Prop :=
  sector_id = s + k / EPS ∧ offset = k mod EPS ∨ sector_id + 1 = s + k / EPS ∧ offset = EPS ∧ k mod EPS = 0.
End Spec.

(** * Clearing the entries *)
Section Clear.
Context {cfg : Config} {crates : Crates} {bd : BlockDevice} {fu : Fuel}.
Context {Hcfg : ConfigOk cfg} {Hcr : CratesOk crates} {Hbd : DeviceOk cfg bd}.
Implicit Types (f : FileSystem) (t : FileDirty) (cl : list Z) (s k : Z).

Lemma low_bits_byte x : byte_ok x → 0 ≤ Z.land x 0x7F < 128.
Proof.
  intros Hx. change 0x7F with (Z.ones 7). rewrite Z.land_ones by lia. apply Z.mod_pos_bound. lia.
Qed.
Lemma splice_one (b : list Z) i x : 0 ≤ i < len b → set_index (E:=err) b i x = Ok (splice b i [x]).
Proof.
  intros Hi. unfold set_index. rewrite (proj2 (Z.leb_le 0 i)), (proj2 (Z.ltb_lt i (len b))) by lia. cbn [andb].
  f_equal. unfold splice. rewrite insert_take_drop by (unfold len in Hi; lia). by rewrite Nat.add_1_r.
Qed.
Lemma entry_first b j : len b = SIZE → 0 ≤ j < EPS → b !! Z.to_nat (32 * j) = Some (entry_in b j !!! 0%nat).
Proof.
  intros Hl Hj. rewrite <-(list_lookup_lookup_total_lt (entry_in b j)) by (rewrite length_entry_in by done; lia).
  rewrite lookup_entry_in by lia. f_equal. lia.
Qed.
Lemma clear_in_use_ok b j :
  block_ok b → 0 ≤ j < EPS →
  clear_in_use (32 * j) b = Ok (splice b (32 * j) [Z.land (entry_in b j !!! 0%nat) 0x7F]).
Proof.
  intros [Hl Hb] Hj. pose proof EPS_range. unfold clear_in_use.
  rewrite (index_ok b (32 * j) (entry_in b j !!! 0%nat)) by (lia || by apply entry_first).
  apply splice_one. lia.
Qed.
Lemma entry_in_cleared b j :
  len b = SIZE → 0 ≤ j < EPS →
  entry_in (splice b (32 * j) [Z.land (entry_in b j !!! 0%nat) 0x7F]) j = cleared (entry_in b j).
Proof.
  intros Hl Hj. pose proof EPS_range. unfold cleared. generalize (Z.land (entry_in b j !!! 0%nat) 0x7F). intros y.
  apply list_eq. intros [|i].
  - rewrite lookup_entry_in by lia. rewrite lookup_splice_in by (unfold len in *; cbn [length]; lia).
    by replace (Z.to_nat (32 * j) + 0 - Z.to_nat (32 * j))%nat with 0%nat by lia.
  - cbn [lookup list_lookup]. change (drop 1 (entry_in b j) !! i) with (drop 1 (entry_in b j) !! i). rewrite lookup_drop.
    destruct (decide (S i < 32)%nat) as [Hi|Hi].
    + rewrite !lookup_entry_in by lia. apply lookup_splice_out; unfold len in *; cbn [length]; lia.
    + rewrite !lookup_ge_None_2; [done|rewrite length_entry_in by done; lia|].
      unfold entry_in. rewrite length_take. lia.
Qed.

Lemma clear_entry_ok fl f t s k :
  vol_inv fl f → dirty_ok t → data_region f (s + k / EPS) →
  ∃ f', zoom ldata (update (s + k / EPS) (clear_in_use (32 * (k mod EPS)))) f = (f', Ok ()) ∧
    vol_op fl (λ x, x = s + k / EPS) t f (insert (TouchedSector_new Dir (s + k / EPS)) t) f' ∧
    dir_entry fl f' s k = cleared (dir_entry fl f s k) ∧ entries_kept fl f s k 1 f'.
Proof.
  intros Hv Ht Hd. pose proof (EPS_mod k) as Hk. pose proof (vseen_ok fl f _ Hv (or_intror (or_intror Hd))) as Hblk.
  pose proof (raw_entry _ _ Hblk Hk) as [Hl Hb].
  assert (Hb0 : byte_ok (entry_in (vseen fl f (s + k / EPS)) (k mod EPS) !!! 0%nat)).
  { eapply Forall_lookup_1; [exact Hb|]. apply list_lookup_lookup_total_lt. lia. }
  pose proof (low_bits_byte _ Hb0).
  set (b := vseen fl f (s + k / EPS)) in *. set (y := Z.land (entry_in b (k mod EPS) !!! 0%nat) 0x7F) in *.
  destruct (update_entry_at_ok fl f t s k (32 * (k mod EPS)) [y] (clear_in_use (32 * (k mod EPS))) Hv Ht Hd)
    as (f' & Hu & Hop & Hs & Hkept);
    [lia|unfold len; cbn [length]; lia|repeat constructor; unfold byte_ok; lia|by apply clear_in_use_ok|].
  exists f'. split; [done|]. split; [done|]. split; [|done]. unfold dir_entry. rewrite Hs. fold b.
  apply entry_in_cleared; [apply Hblk|done].
Qed.

(** ** The loop *)
Lemma at_entry_next s k : 0 ≤ k → at_entry s (k + 1) (s + k / EPS) (k mod EPS + 1).
Proof.
  intros Hk. pose proof (EPS_mod k). pose proof (EPS_div k) as Hd. pose proof EPS_range.
  destruct (decide (k mod EPS + 1 = EPS)) as [He|He].
  - right. destruct (EPS_unique (k / EPS + 1) 0) as [Hq Hr]; [lia|].
    replace (EPS * (k / EPS + 1) + 0) with (k + 1) in Hq, Hr by lia. rewrite Hq, Hr. lia.
  - left. destruct (EPS_unique (k / EPS) (k mod EPS + 1)) as [Hq Hr]; [lia|].
    replace (EPS * (k / EPS) + (k mod EPS + 1)) with (k + 1) in Hq, Hr by lia. by rewrite Hq, Hr.
Qed.
Lemma marked_sector_ok s k sector_id offset :
  0 ≤ s → 0 ≤ k → s + k / EPS < 2 ^ 32 → at_entry s k sector_id offset →
  (if offset =? SIZE / RAW_ENTRY_LEN then x ← add (E:=err) u32 sector_id 1; Ok (x, 0) else Ok (sector_id, offset)) =
    Ok (s + k / EPS, k mod EPS).
Proof.
  intros Hs Hk Hlt Hat. change (SIZE / RAW_ENTRY_LEN) with EPS. pose proof (EPS_mod k).
  assert (0 ≤ k / EPS) by (pose proof EPS_range; apply Z.div_pos; lia).
  destruct Hat as [[-> ->]|(Hsec & -> & Hm)].
  - by rewrite (proj2 (Z.eqb_neq _ _)) by lia.
  - rewrite Z.eqb_refl, add_ok by (pose proof EPS_range; lia). cbn [mbind outcome_bind]. by rewrite Hsec, Hm.
Qed.

Lemma mark_unused_loop_ok fl id (n : nat) : ∀ f t k sector_id offset,
  vol_inv fl f → dirty_ok t → data_cluster f id → 0 ≤ k → k + Z.of_nat n ≤ EPC f →
  at_entry (cluster_sector f id) k sector_id offset →
  ∃ t' f', mark_unused_loop n sector_id offset (t, f) = ((t', f'), Ok ()) ∧
    run_written fl f t id k (cleared <$> set_entries fl f (cluster_sector f id) k (Z.of_nat n)) f' t'.
Proof.
  induction n as [|n IH]; intros f t k sector_id offset Hv Ht Hid Hk Hcap Hat.
  { exists t, f. split; [done|]. by apply run_written_nil. }
  set (s := cluster_sector f id) in *. cbn [mark_unused_loop].
  assert (Hd : data_region f (s + k / EPS)) by (apply cluster_entry_region; [done|unfold EPC in Hcap; lia]).
  assert (Hs : 0 ≤ s) by (apply (cluster_sector_pos fl); [done|apply Hid]).
  destruct (clear_entry_ok fl f t s k Hv Ht Hd) as (f1 & Hu & Hop & He & Hkept).
  pose proof (op_step _ _ _ _ _ _ Hop) as Hst. pose proof (EPS_mod k). pose proof EPS_range as [? HS]. pose proof SIZE_range.
  assert (Hcs : cluster_sector f1 id = s) by (unfold s, cluster_sector; by rewrite (step_fs _ _ _ _ Hst)).
  assert (Hid1 : data_cluster f1 id) by (by apply (data_cluster_step fl _ f f1 id Hst)).
  assert (Hlt : s + k / EPS < 2 ^ 32) by (apply (in_volume_range fl f); [apply Hv|by right; right]).
  destruct (IH f1 (insert (TouchedSector_new Dir (s + k / EPS)) t) (k + 1) (s + k / EPS) (k mod EPS + 1))
    as (t2 & f2 & Hrun & Hw); [apply Hop|apply Hop|done|lia|rewrite (EPC_step fl _ f f1 Hst); lia|
      rewrite Hcs; by apply at_entry_next|].
  exists t2, f2. split.
  - rewrite (marked_sector_ok s k) by done. rewrite bind_lift_Ok. cbv iota beta. unfold RAW_ENTRY_LEN.
    rewrite mul_ok, bind_lift_Ok by (destruct usize_cases as [-> | ->]; lia).
    rewrite (Z.mul_comm (k mod EPS)). rewrite (bind_Ok _ _ _ (t, f1) ()) by (by eapply zoom_to).
    rewrite (bind_Ok _ _ _ (insert (TouchedSector_new Dir (s + k / EPS)) t, f1) ()) by done.
    rewrite (add_ok usize), bind_lift_Ok by (destruct usize_cases as [-> | ->]; lia). exact Hrun.
  - rewrite set_entries_cons by lia. rewrite fmap_cons. apply (run_written_cons fl f t id k _ _ _ _ f2 t2 Hop He Hkept Hid Hk).
    + unfold len. rewrite length_fmap. unfold set_entries. rewrite length_fmap, length_seqZ. lia.
    + replace (Z.of_nat (S n) - 1) with (Z.of_nat n) by lia.
      rewrite Hcs in Hw. enough (Heq : set_entries fl f1 s (k + 1) (Z.of_nat n) = set_entries fl f s (k + 1) (Z.of_nat n))
        by (by rewrite <-Heq). apply (set_entries_kept fl f f1 id k 1); [done|done|lia|unfold EPC in Hcap; lia|lia].
Qed.

(** [mark_directory_entry_set_unused] on [n] entries of a cluster. *)
Lemma mark_unused_ok fl f t id k n :
  vol_inv fl f → dirty_ok t → data_cluster f id → 0 ≤ k → 0 ≤ n → k + n ≤ EPC f →
  ∃ t' f', mark_directory_entry_set_unused (entry_location (cluster_sector f id) k) n (t, f) = ((t', f'), Ok ()) ∧
    run_written fl f t id k (cleared <$> set_entries fl f (cluster_sector f id) k n) f' t'.
Proof.
  intros Hv Ht Hid Hk Hn Hcap.
  destruct (mark_unused_loop_ok fl id (Z.to_nat n) f t k (cluster_sector f id + k / EPS) (k mod EPS))
    as (t' & f' & Hr & Hw); [done..|lia|by left|].
  rewrite Z2Nat.id in Hw by done. by exists t', f'.
Qed.
End Clear.

(** * Lists of entries *)
Section Lists.
Context {cfg : Config} {crates : Crates} {bd : BlockDevice} {fu : Fuel}.
Context {Hcfg : ConfigOk cfg} {Hcr : CratesOk crates} {Hbd : DeviceOk cfg bd}.
Implicit Types (es pre mid post : list RawDirEntry) (p : Z).

Lemma cleared_raw e : raw_ok e → raw_ok (cleared e).
Proof.
  intros [Hl Hb]. split; [unfold cleared; cbn [length]; rewrite length_drop; lia|].
  constructor; [|by apply Forall_drop]. assert (Hb0 : byte_ok (e !!! 0%nat)).
  { eapply Forall_lookup_1; [exact Hb|]. apply list_lookup_lookup_total_lt. lia. }
  pose proof (low_bits_byte _ Hb0). unfold byte_ok. lia.
Qed.
Lemma type_byte e : raw_ok e → EntryType.serialize (entry_type e) = e !!! 0%nat.
Proof.
  intros [Hl Hb]. apply entry_type_roundtrip. eapply Forall_lookup_1; [exact Hb|].
  apply list_lookup_lookup_total_lt. lia.
Qed.
(** The entries of a set are passed over once they are cleared. *)
Definition of_set (e : RawDirEntry) : Prop :=
  raw_ok e ∧ (entry_type e = EntryType.FileAndDirectory ∨ entry_type e = EntryType.StreamExtension ∨
              entry_type e = EntryType.Filename).
Lemma cleared_type e : of_set e → ∃ x, entry_type (cleared e) = EntryType.Unused x.
Proof.
  intros [Hraw Hty]. unfold entry_type at 1, cleared. cbn [lookup_total list_lookup_total].
  rewrite <-(type_byte e Hraw). destruct Hty as [->|[->| ->]]; eexists; reflexivity.
Qed.
Lemma cleared_between e : of_set e → between (cleared e).
Proof.
  intros He. destruct (cleared_type e He) as [x Hx]. unfold between, is_end. rewrite Hx. by rewrite bool_decide_false.
Qed.

(** Where a set begins, and what the directory would be with another tail. *)
Lemma dir_sets_split es : ∀ p l1 s l2, dir_sets es p = Some (l1 ++ s :: l2) →
  ∃ pre e rest, es = pre ++ e :: rest ∧ Forall (λ x, is_end x = false) pre ∧ is_end e = false ∧
    entry_type e = EntryType.FileAndDirectory ∧ parse_set (p + len pre) e rest = Some s ∧
    dir_sets rest (p + len pre + 1) = Some l2 ∧
    ∀ e' tail l', is_name e' = false → entry_type e' ≠ EntryType.StreamExtension →
      dir_sets (e' :: tail) (p + len pre) = Some l' → dir_sets (pre ++ e' :: tail) p = Some (l1 ++ l').
Proof.
  induction es as [|e es IH]; intros p l1 s l2 Hl; cbn [dir_sets] in Hl; [by destruct l1|].
  destruct (is_end e) eqn:Hend; [by destruct l1|].
  assert (Hlen : ∀ pre, p + 1 + len pre = p + len (e :: pre)) by (intros pre; unfold len; cbn [length]; lia).
  destruct (decide (entry_type e = EntryType.FileAndDirectory)) as [Hty|Hty].
  - apply bind_Some in Hl as (s0 & Hs0 & Hl). apply bind_Some in Hl as (l & Hl & Heq).
    destruct l1 as [|s1 l1]; injection Heq as -> ->.
    + exists [], e, es. change (len []) with 0. rewrite Z.add_0_r. by split_and!.
    + destruct (IH (p + 1) l1 s l2 Hl) as (pre & e1 & rest & -> & Hpre & Hend1 & Hty1 & Hs1 & Hl2 & Htail).
      rewrite Hlen in *. exists (e :: pre), e1, rest. split_and!; [done|by constructor|done..|].
      intros e' tail l' Hn Hst Hl'. cbn [app dir_sets]. rewrite Hend, decide_True by done.
      rewrite (parse_set_before pre e1 p e rest (e' :: tail) s1); [|unfold is_name; by rewrite Hty1|by rewrite Hty1|done].
      cbn [mbind option_bind]. by rewrite (Htail e' tail l').
  - destruct (IH (p + 1) l1 s l2 Hl) as (pre & e1 & rest & -> & Hpre & Hend1 & Hty1 & Hs1 & Hl2 & Htail).
    rewrite Hlen in *. exists (e :: pre), e1, rest. split_and!; [done|by constructor|done..|].
    intros e' tail l' Hn Hst Hl'. cbn [app dir_sets]. rewrite Hend, decide_False by done. by apply Htail.
Qed.

(** The entries a set takes. *)
Definition set_size (s : dir_set) : Z := 2 + Z.of_nat (name_count (set_name_length s)).

(** Clearing the entries of one set removes it from the list of the sets. *)
Lemma dir_sets_remove es p l1 s l2 :
  Forall raw_ok es → dir_sets es p = Some (l1 ++ s :: l2) →
  ∃ pre mid post, es = pre ++ mid ++ post ∧ set_pos s = p + len pre ∧ len mid = set_size s ∧
    dir_sets (pre ++ (cleared <$> mid) ++ post) p = Some (l1 ++ l2) ∧
    (ends_ok es → ends_ok (pre ++ (cleared <$> mid) ++ post)).
Proof.
  intros Hraw Hl. destruct (dir_sets_split es p l1 s l2 Hl) as (pre & e & rest & -> & Hpre & Hend & Hty & Hs & Hl2 & Htail).
  destruct (parse_set_Some _ _ _ _ Hs) as (st & ns & _ & Hst & Hsty & _ & _ & Hns & Hall & Hcount & _ & Hpos).
  destruct rest as [|st' rest]; [done|]. injection Hst as ->. cbn [drop] in Hns. rewrite drop_0 in Hns.
  set (m := name_count (set_name_length s)) in *.
  assert (Hrest : rest = ns ++ drop m rest) by (rewrite Hns; symmetry; apply take_drop).
  apply Forall_app in Hraw as [_ [He [Hstr Hr]%Forall_cons]%Forall_cons].
  assert (Hnsr : Forall of_set ns).
  { apply Forall_forall. intros x Hx. rewrite forallb_forall in Hall. split.
    - rewrite Forall_forall in Hr. apply Hr. rewrite Hrest. apply elem_of_app. by left.
    - right; right. pose proof (Hall x (proj1 (list_elem_of_In _ _) Hx)) as Hn. by apply bool_decide_eq_true in Hn. }
  assert (Hset : Forall of_set (e :: st :: ns)) by (repeat (constructor; [split; [done|tauto]|]); done).
  assert (Hbet : Forall between (cleared <$> e :: st :: ns))
    by (apply Forall_fmap; eapply Forall_impl; [exact Hset|]; apply cleared_between).
  assert (Hsec : Forall between (st :: ns)).
  { constructor; [split; unfold is_end; rewrite Hsty; by rewrite ?bool_decide_false|].
    apply Forall_forall. intros x Hx. rewrite forallb_forall in Hall.
    pose proof (Hall x (proj1 (list_elem_of_In _ _) Hx)) as Hn. apply bool_decide_eq_true in Hn.
    split; unfold is_end; rewrite Hn; by rewrite ?bool_decide_false. }
  exists pre, (e :: st :: ns), (drop m rest). split; [rewrite Hrest at 1; done|]. split; [done|].
  split; [unfold set_size, len; cbn [length]; rewrite Hcount; fold m; lia|]. split.
  - pose proof Hset as [He' _]%Forall_cons. destruct (cleared_type e He') as [x Hx].
    cbn [fmap list_fmap app]. apply Htail; [unfold is_name; by rewrite Hx|by rewrite Hx|].
    change (dir_sets ((cleared <$> e :: st :: ns) ++ drop m rest) (p + len pre) = Some l2).
    rewrite dir_sets_between by done. rewrite Hrest in Hl2 at 1.
    change (dir_sets ((st :: ns) ++ drop m rest) (p + len pre + 1) = Some l2) in Hl2.
    rewrite dir_sets_between in Hl2 by done. rewrite <-Hl2. f_equal. unfold len. rewrite length_fmap. cbn [length]. lia.
  - intros Hends. apply (ends_ok_replace pre (e :: st :: ns)); [done| |by rewrite Hrest in Hends at 1].
    eapply Forall_impl; [exact Hbet|]. by intros x [? _].
Qed.
End Lists.

(** * On the volume *)
Section Volume.
Context {cfg : Config} {crates : Crates} {bd : BlockDevice} {fu : Fuel}.
Context {Hcfg : ConfigOk cfg} {Hcr : CratesOk crates} {Hbd : DeviceOk cfg bd}.
Implicit Types (f : FileSystem) (t : FileDirty) (cl : list Z) (name : str) (p : Z).

(** The entries of a run in one cluster. *)
Lemma dir_list_cluster fl f cl p n :
  vol_inv fl f → 0 ≤ p → p mod EPC f + n ≤ EPC f →
  dir_list fl f cl p n = set_entries fl f (cluster_sector f (dir_cluster f cl p)) (p mod EPC f) n.
Proof.
  intros Hv Hp Hcap. pose proof (EPC_pos fl f Hv). assert (Hnz : EPC f ≠ 0) by lia.
  pose proof (Z.div_mod p (EPC f) Hnz). apply list_eq. intros i. unfold dir_list, set_entries. rewrite !list_lookup_fmap.
  destruct (decide (Z.of_nat i < n)) as [Hi|Hi]; [|by rewrite !lookup_seqZ_ge by lia].
  rewrite !lookup_seqZ_lt by lia. cbn [fmap option_fmap option_map]. do 2 f_equal.
  assert (HE : 0 < EPC f) by lia. pose proof (Z.mod_pos_bound p (EPC f) HE).
  assert (Hq : (p + Z.of_nat i) / EPC f = p / EPC f)
    by (symmetry; apply Z.div_unique with (p mod EPC f + Z.of_nat i); lia).
  assert (Hr : (p + Z.of_nat i) mod EPC f = p mod EPC f + Z.of_nat i)
    by (symmetry; apply Z.mod_unique with (p / EPC f); lia).
  unfold dir_at, dir_cluster. by rewrite Hq, Hr.
Qed.

(** Operations on the tables leave a directory as it is. *)
Lemma in_order_kept fl f f' (P : Z → Prop) cl l :
  vol_inv fl f → vol_step fl P f f' → (∀ x, data_region f x → ¬ P x) →
  (∀ id, id ∈ cl → fat_entry fl f' id = fat_entry fl f id) → in_order fl f cl l → in_order fl f' cl l.
Proof.
  intros Hv Hst HP Hfat [[[Hd Hli Hla Hsm] Hne Hfuel Hl Hh] Hends Huniq].
  assert (Hlen : dir_len f' cl = dir_len f cl) by (unfold dir_len; by rewrite (EPC_step fl _ f f' Hst)).
  assert (Hlist : dir_list fl f' cl 0 (dir_len f cl) = dir_list fl f cl 0 (dir_len f cl)).
  { apply list_fmap_ext. intros i x [-> Hi]%lookup_seqZ.
    pose proof (dir_at_region fl f cl (0 + Z.of_nat i) Hv Hd ltac:(lia)) as Hr.
    unfold dir_at, dir_entry, dir_cluster, cluster_sector, EPC in *. rewrite (step_fs _ _ _ _ Hst).
    f_equal. apply (step_seen _ _ _ _ Hst); [by right; right|by apply HP]. }
  split; [split; [split|..]|..].
  - eapply Forall_impl; [exact Hd|]. intros id. by apply (data_cluster_step fl P f f').
  - intros i a b Ha Hb. rewrite Hfat by (by eapply list_elem_of_lookup_2). by apply (Hli i).
  - intros x Hx. rewrite Hfat; [by apply Hla|]. rewrite last_lookup in Hx. by eapply list_elem_of_lookup_2.
  - by rewrite Hlen.
  - done.
  - by rewrite Hlen.
  - by rewrite Hlen, Hlist.
  - by rewrite (step_table _ _ _ _ Hst).
  - by rewrite Hlen, Hlist.
  - by rewrite (step_table _ _ _ _ Hst).
Qed.
Lemma in_order_same fl f f' cl l :
  vol_inv fl f → vol_same fl f f' → in_order fl f cl l → in_order fl f' cl l.
Proof.
  intros Hv Hst Hio. pose proof (dir_data _ _ _ (sb_dir _ _ _ _ (io_search _ _ _ _ Hio))) as Hd.
  apply (in_order_kept fl f f' (λ _, False)); [done|done|tauto| |done].
  intros id Hid. rewrite Forall_forall in Hd. apply (fat_entry_step fl (λ _, False) f f' id Hv Hst); [by apply Hd|tauto].
Qed.

(** Clearing the entries of a set removes it from the directory. *)
Lemma remove_set_ok fl f t cl l1 s l2 f' t' :
  vol_inv fl f → in_order fl f cl (l1 ++ s :: l2) → set_pos s mod EPC f + set_size s ≤ EPC f →
  run_written fl f t (dir_cluster f cl (set_pos s)) (set_pos s mod EPC f)
    (cleared <$> set_entries fl f (cluster_sector f (dir_cluster f cl (set_pos s))) (set_pos s mod EPC f) (set_size s))
    f' t' →
  in_order fl f' cl (l1 ++ l2).
Proof.
  intros Hv [[Hdir Hne Hfuel Hl Hh] Hends Huniq] Hcap Hw. set (p := set_pos s) in *.
  assert (Hraw : Forall raw_ok (dir_list fl f cl 0 (dir_len f cl))).
  { apply Forall_fmap, Forall_forall. intros j Hj%elem_of_seqZ. apply (dir_at_raw fl f cl j Hv (dir_data _ _ _ Hdir)). lia. }
  destruct (dir_sets_remove _ 0 l1 s l2 Hraw Hl) as (pre & mid & post & Hes & Hpos & Hmid & Hl' & Hends'). fold p in Hpos.
  pose proof (len_nonneg pre). pose proof (len_nonneg post). assert (Hs0 : 0 ≤ set_size s) by (unfold set_size; lia).
  assert (Hlen : dir_len f cl = len pre + set_size s + len post).
  { apply (f_equal len) in Hes. rewrite !len_app, Hmid in Hes. unfold dir_list, len at 1 in Hes.
    rewrite length_fmap, length_seqZ in Hes. pose proof (len_nonneg cl). pose proof (EPC_pos fl f Hv).
    assert (0 ≤ dir_len f cl) by (unfold dir_len; nia). lia. }
  assert (Hp0 : 0 ≤ p) by lia. rewrite <-dir_list_cluster in Hw by done.
  assert (Hn : len (cleared <$> dir_list fl f cl p (set_size s)) = set_size s).
  { unfold len, dir_list. rewrite !length_fmap, length_seqZ. lia. }
  destruct (run_written_list fl f t cl p (cleared <$> dir_list fl f cl p (set_size s)) f' t' Hv Hdir Hp0) as [Hold Hnew]; [lia|lia|exact Hw|].
  rewrite Hn in Hold, Hnew. rewrite Hes in Hold.
  assert (Hpl : length pre = length (dir_list fl f cl 0 p))
    by (unfold dir_list; rewrite length_fmap, length_seqZ; unfold len in *; lia).
  apply app_inj_1 in Hold as [Hpre Hold]; [|done].
  apply app_inj_1 in Hold as [Hm Hpost]; [|unfold dir_list; rewrite length_fmap, length_seqZ; unfold len in *; lia].
  rewrite <-Hpre, <-Hm, <-Hpost in Hnew. pose proof (op_step _ _ _ _ _ _ (run_op _ _ _ _ _ _ _ _ Hw)) as Hst.
  assert (Hlen' : dir_len f' cl = dir_len f cl) by (unfold dir_len; by rewrite (EPC_step fl _ f f' Hst)).
  destruct (dir_cluster_ok fl f cl p Hv (dir_data _ _ _ Hdir)) as (_ & Hid & Hmm); [unfold set_size in *; lia|].
  split; [split|..].
  - eapply directory_written; [exact Hv|exact Hst| |done]. intros x Hx. rewrite Hn in Hx.
    eapply run_sectors_data; [exact Hid|apply Hmm| |exact Hx]. lia.
  - done.
  - by rewrite Hlen'.
  - by rewrite Hlen', Hnew.
  - rewrite (step_table _ _ _ _ Hst). apply Forall_app in Hh as [? [_ ?]%Forall_cons]. by apply Forall_app.
  - rewrite Hlen', Hnew. by apply Hends'.
  - rewrite (step_table _ _ _ _ Hst). rewrite fmap_app, fmap_cons in Huniq. rewrite fmap_app.
    rewrite <-Permutation_middle in Huniq. by apply NoDup_cons in Huniq as [_ ?].
Qed.
End Volume.

(** * Deleting *)
Section Delete.
Context {cfg : Config} {crates : Crates} {bd : BlockDevice} {fu : Fuel}.
Context {Hcfg : ConfigOk cfg} {Hcr : CratesOk crates} {Hbd : DeviceOk cfg bd}.
Implicit Types (f : FileSystem) (t : FileDirty) (cl : list Z) (name : str) (p : Z).

(** A directory as a map from names to details, without one name. *)
Definition without_name (table : UpcaseTable) name (m : str → option Z → option FileDetails.t) name' attributes :=
  if eq_name table name name' then None else m name' attributes.

(** A set that can be removed: the file entry counts its entries, they lie in
    one cluster, and the file is stored in the clusters [fcl], none of which is
    one of the directory's. *)
Record removable (fl : Z) f cl l1 (s : dir_set) l2 (fcl : list Z) : Prop := {
  rm_order : in_order fl f cl (l1 ++ s :: l2);
  rm_count : FileDirEntry.secondary_count (set_file s) = set_size s - 1;
  rm_cluster : set_pos s mod EPC f + set_size s ≤ EPC f;
  rm_stored : stored_file fl f (details_of (place f cl) s) fcl;
  rm_disjoint k : k ∈ fcl → k ∉ cl;
}.
(** The sectors of the tables and of the entries of a set. *)
Definition delete_sectors (fl : Z) f cl (s : dir_set) (x : Z) : Prop :=
  table_region fl f x ∨
  entry_sectors (cluster_sector f (dir_cluster f cl (set_pos s))) (set_pos s mod EPC f) (set_size s) x.

Lemma removed_map fl f f' P cl l1 s l2 name :
  vol_step fl P f f' → NoDup (folded (upcase_table f) <$> l1 ++ s :: l2) → same_name (upcase_table f) name s = true →
  ∀ name' attributes, in_directory f' cl (l1 ++ l2) name' attributes =
    without_name (upcase_table f) name (in_directory f cl (l1 ++ s :: l2)) name' attributes.
Proof.
  intros Hst Hnd Hs%bool_decide_eq_true name' attributes. unfold in_directory, without_name.
  rewrite (step_table _ _ _ _ Hst), find_insert.
  assert (Hd : ∀ x, details_of (place f' cl) x = details_of (place f cl) x)
    by (intros x; unfold details_of; by rewrite (place_step fl _ f f' _ _ Hst)).
  destruct (eq_name (upcase_table f) name name') eqn:Heq.
  - apply bool_decide_eq_true in Heq. destruct (List.find _ (l1 ++ l2)) as [x|] eqn:Hx; [exfalso|done].
    apply find_some in Hx as [Hin [Hsn%bool_decide_eq_true _]%andb_true_iff]. rewrite fmap_app, fmap_cons in Hnd.
    rewrite <-Permutation_middle, <-fmap_app in Hnd. apply NoDup_cons in Hnd as [Hni _]. apply Hni.
    apply list_elem_of_fmap. exists x. split; [unfold folded; congruence|by apply list_elem_of_In].
  - assert (Hno : same_name (upcase_table f) name' s = false).
    { apply bool_decide_eq_false in Heq. apply bool_decide_eq_false. congruence. }
    rewrite Hno. cbn [andb]. by apply option_fmap_ext.
Qed.

Lemma entry_sectors_data fl f cl l p n x :
  vol_inv fl f → in_order fl f cl l → 0 ≤ p < dir_len f cl → p mod EPC f + n ≤ EPC f →
  entry_sectors (cluster_sector f (dir_cluster f cl p)) (p mod EPC f) n x → data_region f x.
Proof.
  intros Hv Hio Hp Hcap Hx. pose proof (dir_data _ _ _ (sb_dir _ _ _ _ (io_search _ _ _ _ Hio))) as Hd.
  destruct (dir_cluster_ok fl f cl p Hv Hd Hp) as (_ & Hid & Hm).
  eapply run_sectors_data; [exact Hid|apply Hm|exact Hcap|exact Hx].
Qed.

(** The set lies in the directory. *)
Lemma set_range fl f cl l1 s l2 :
  vol_inv fl f → in_order fl f cl (l1 ++ s :: l2) → 0 ≤ set_pos s ∧ set_pos s + set_size s ≤ dir_len f cl.
Proof.
  intros Hv [[Hdir Hne Hfuel Hl Hh] Hends Huniq].
  assert (Hraw : Forall raw_ok (dir_list fl f cl 0 (dir_len f cl))).
  { apply Forall_fmap, Forall_forall. intros j Hj%elem_of_seqZ. apply (dir_at_raw fl f cl j Hv (dir_data _ _ _ Hdir)). lia. }
  destruct (dir_sets_remove _ 0 l1 s l2 Hraw Hl) as (pre & mid & post & Hes & Hpos & Hmid & _).
  pose proof (len_nonneg pre). pose proof (len_nonneg post).
  apply (f_equal len) in Hes. rewrite !len_app, Hmid in Hes. unfold dir_list, len at 1 in Hes.
  rewrite length_fmap, length_seqZ in Hes. pose proof (len_nonneg cl). pose proof (EPC_pos fl f Hv).
  assert (0 ≤ dir_len f cl) by (unfold dir_len; nia). lia.
Qed.

Lemma data_not_table fl f x : vol_inv fl f → data_region f x → ¬ table_region fl f x.
Proof.
  intros Hv Hx [Hy|Hy]; destruct (regions_disjoint fl f x (vol_geometry _ _ Hv)) as (Hf & Hb & _);
    [by apply Hf in Hy as [_ Hy]|by apply Hb in Hy as [_ Hy]].
Qed.
(** A change of data leaves the tables. *)
Lemma data_step_tables fl f f' P k :
  vol_inv fl f → vol_step fl P f f' → (∀ x, P x → data_region f x) → cluster_ok f k →
  is_allocated fl f' k = is_allocated fl f k ∧ fat_entry fl f' k = fat_entry fl f k.
Proof.
  intros Hv Hst HP Hk. split.
  - apply (is_allocated_step fl P f f' k Hv Hst Hk). intros Hx%HP.
    apply (data_not_table fl f _ Hv Hx). right. by eapply bitmap_sector_region.
  - apply (fat_entry_step fl P f f' k Hv Hst Hk). intros Hx%HP.
    apply (data_not_table fl f _ Hv Hx). left. by apply fat_sector_region.
Qed.

(** First the clusters are freed; the directory stays as it is. *)
Lemma delete_free_ok fl f t cl l1 s l2 fcl :
  removable fl f cl l1 s l2 fcl → dirty_ok t →
  ∃ t' f1 f' c, get_stored_chain (details_of (place f cl) s) f = (f1, Ok c) ∧
    zoom (with_touched lfree) (free c) (t, f1) = ((t', f'), Ok ()) ∧
    freed fl fcl (chained c fcl) t f t' f' ∧ in_order fl f' cl (l1 ++ s :: l2) ∧ chain_clusters fl f c fcl.
Proof.
  intros [Hio Hcount Hcap Hsf Hdis] Ht. pose proof (stored_vol _ _ _ _ Hsf) as Hv.
  destruct (get_stored_chain_ok fl f _ fcl Hsf) as (f1 & c & Hget & Hv1 & Hst1 & Hch & _ & _).
  pose proof (stored_clusters _ _ _ _ Hsf) as Hfcl.
  destruct (free_ok fl f1 t c fcl Hv1 Ht) as (t2 & f2 & Hfree & Hfr).
  { eapply Forall_impl; [exact Hfcl|]. intros k [Hk _]. unfold cluster_ok. by rewrite (step_fs _ _ _ _ Hst1). }
  { apply Hsf. }
  { by apply (chain_clusters_step fl f f1). }
  pose proof (freed_same fl _ _ t f f1 t2 f2 Hst1 Hv Hv1 Ht Hfr) as Hfr'. exists t2, f1, f2, c.
  split_and!; [done..| |done]. pose proof Hfr' as [Hop _ Hfat].
  pose proof (dir_data _ _ _ (sb_dir _ _ _ _ (io_search _ _ _ _ Hio))) as Hd. rewrite Forall_forall in Hd.
  apply (in_order_kept fl f f2 (table_region fl f) _ _ Hv (op_step _ _ _ _ _ _ Hop)); [|intros id Hid|done].
  - intros x. by apply data_not_table.
  - rewrite Hfat, decide_False; [done| |by apply Hd].
    intros Hin. apply (Hdis id); [|done]. by destruct c; [| |exact Hin]; apply elem_of_nil in Hin.
Qed.

(** Then the entries are cleared. *)
Lemma mark_set_ok fl f t cl l1 s l2 :
  vol_inv fl f → dirty_ok t → in_order fl f cl (l1 ++ s :: l2) → set_pos s mod EPC f + set_size s ≤ EPC f →
  ∃ t' f', mark_directory_entry_set_unused (place f cl (set_pos s)) (set_size s) (t, f) = ((t', f'), Ok ()) ∧
    vol_op fl (entry_sectors (cluster_sector f (dir_cluster f cl (set_pos s))) (set_pos s mod EPC f) (set_size s)) t f t' f' ∧
    in_order fl f' cl (l1 ++ l2).
Proof.
  intros Hv Ht Hio Hcap. destruct (set_range fl f cl l1 s l2 Hv Hio) as [Hp0 Hpn].
  assert (Hs2 : 2 ≤ set_size s) by (unfold set_size; lia).
  pose proof (sb_dir _ _ _ _ (io_search _ _ _ _ Hio)) as Hdir. set (p := set_pos s) in *.
  destruct (dir_cluster_ok fl f cl p Hv (dir_data _ _ _ Hdir)) as (_ & Hid & Hm); [lia|].
  destruct (mark_unused_ok fl f t (dir_cluster f cl p) (p mod EPC f) (set_size s) Hv Ht Hid)
    as (t' & f' & Hmark & Hw); [lia|lia|done|].
  exists t', f'. split; [done|]. split.
  - replace (set_size s) with (len (cleared <$> set_entries fl f (cluster_sector f (dir_cluster f cl p)) (p mod EPC f) (set_size s)))
      at 1; [apply Hw|]. unfold set_entries, len. rewrite !length_fmap, length_seqZ. lia.
  - by apply (remove_set_ok fl f t cl l1 s l2 f' t').
Qed.

(** Both changes. *)
Lemma delete_changes_ok fl f t cl l1 s l2 fcl :
  removable fl f cl l1 s l2 fcl → dirty_ok t →
  let d := details_of (place f cl) s in
  ∃ t' f' c, (chain ← zoom lsnd (get_stored_chain d);
      zoom (with_touched lfree) (free chain) ;;
      num_entries ← lift (add usize (FileDetails.secondary_count d) 1);
      mark_directory_entry_set_unused (FileDetails.location d) num_entries) (t, f) = ((t', f'), Ok ()) ∧
    vol_op fl (delete_sectors fl f cl s) t f t' f' ∧ in_order fl f' cl (l1 ++ l2) ∧ chain_clusters fl f c fcl ∧
    ∀ k, cluster_ok f k → is_allocated fl f' k = (if decide (k ∈ fcl) then false else is_allocated fl f k) ∧
      fat_entry fl f' k = (if decide (k ∈ chained c fcl) then NO_CLUSTER_ID else fat_entry fl f k).
Proof.
  intros Hrm Ht d. pose proof (stored_vol _ _ _ _ (rm_stored _ _ _ _ _ _ _ Hrm)) as Hv.
  destruct (delete_free_ok fl f t cl l1 s l2 fcl Hrm Ht) as (t2 & f1 & f2 & c & Hget & Hfree & [Hop Hbits Hfat] & Hio2 & Hch).
  pose proof (op_step _ _ _ _ _ _ Hop) as Hst2. pose proof (step_fs _ _ _ _ Hst2) as Hfs2.
  pose proof (op_inv _ _ _ _ _ _ Hop) as Hv2. pose proof (rm_order _ _ _ _ _ _ _ Hrm) as Hio.
  assert (HE : EPC f2 = EPC f) by (by apply (EPC_step fl _ f f2 Hst2)).
  assert (Hpl : ∀ q, place f2 cl q = place f cl q) by (intros q; by apply (place_step fl _ f f2 cl q Hst2)).
  assert (Hdc : cluster_sector f2 (dir_cluster f2 cl (set_pos s)) = cluster_sector f (dir_cluster f cl (set_pos s)))
    by (unfold cluster_sector, dir_cluster; by rewrite HE, Hfs2).
  destruct (mark_set_ok fl f2 t2 cl l1 s l2 Hv2 (proj1 (op_tracks _ _ _ _ _ _ Hop)) Hio2) as (t3 & f3 & Hmark & Hop3 & Hio3);
    [rewrite HE; apply Hrm|]. rewrite Hpl in Hmark. rewrite Hdc, HE in Hop3.
  pose proof (op_step _ _ _ _ _ _ Hop3) as Hst3.
  destruct (set_range fl f cl l1 s l2 Hv Hio) as [Hp0 Hpn]. assert (Hs2 : 2 ≤ set_size s) by (unfold set_size; lia).
  exists t3, f3, c. split; [|split; [|split; [done|split; [done|]]]].
  - rewrite (bind_Ok _ _ _ (t, f1) c) by (by eapply zoom_to). rewrite (bind_Ok _ _ _ _ _ Hfree).
    cbn [d details_of FileDetails.secondary_count FileDetails.location]. rewrite (rm_count _ _ _ _ _ _ _ Hrm).
    pose proof (dir_small _ _ _ (sb_dir _ _ _ _ (io_search _ _ _ _ Hio))) as Hsm.
    rewrite (add_ok usize), bind_lift_Ok by (destruct usize_cases as [-> | ->]; lia).
    by replace (set_size s - 1 + 1) with (set_size s) by lia.
  - eapply vol_op_trans; [eapply vol_op_weaken; [|exact Hop]; by left|eapply vol_op_weaken; [|exact Hop3]; by right].
  - intros k Hk. rewrite <-Hbits, <-Hfat by done. apply (data_step_tables fl f2 f3 _ k Hv2 Hst3);
      [|unfold cluster_ok; by rewrite Hfs2]. intros x Hx. apply (data_region_step fl _ f f2 x Hst2).
    apply (entry_sectors_data fl f cl (l1 ++ s :: l2) (set_pos s) (set_size s)); [done|done|lia|apply Hrm|done].
Qed.

(** Everything [delete_inner] and [remove_file] leave behind. *)
Record deleted (fl : Z) f cl l1 (s : dir_set) l2 (fcl : list Z) f' : Prop := {
  del_inv : vol_inv fl f';
  del_step : vol_step fl (delete_sectors fl f cl s) f f';
  del_order : in_order fl f' cl (l1 ++ l2);
  del_tables : ∃ c, chain_clusters fl f c fcl ∧ ∀ k, cluster_ok f k →
    is_allocated fl f' k = (if decide (k ∈ fcl) then false else is_allocated fl f k) ∧
    fat_entry fl f' k = (if decide (k ∈ chained c fcl) then NO_CLUSTER_ID else fat_entry fl f k);
  del_durable : (∀ x, in_volume fl f x → durable fl f x) → ∀ x, in_volume fl f x → durable fl f' x;
}.

Lemma delete_ok fl f f0 cl l1 s l2 fcl :
  removable fl f cl l1 s l2 fcl → confirm_has_no_children (details_of (place f cl) s) f0 = (f, Ok ()) →
  ∃ f', delete_inner (details_of (place f cl) s) f0 = (f', Ok ()) ∧ deleted fl f cl l1 s l2 fcl f'.
Proof.
  intros Hrm Hconf. pose proof (stored_vol _ _ _ _ (rm_stored _ _ _ _ _ _ _ Hrm)) as Hv.
  destruct (delete_changes_ok fl f FileDirty_new cl l1 s l2 fcl Hrm FileDirty_new_ok) as (t2 & f2 & c & Hrun & Hop & Hio & Hch & Htab).
  set (d := details_of (place f cl) s) in *. pose proof (op_step _ _ _ _ _ _ Hop) as Hst.
  destruct (FileDirty_flush_ok fl f2 t2 (op_inv _ _ _ _ _ _ Hop)) as (f3 & Hfl & Hv3 & Hst3 & Hdur).
  { eapply vol_op_touched; [exact Hop|]. split; [apply FileDirty_new_ok|apply Forall_nil_2]. }
  pose proof (op_inv _ _ _ _ _ _ Hop) as Hv2.
  exists f3. split; [|split; [done|eapply vol_step_trans; [exact Hst|by apply vol_same_step]|by apply (in_order_same fl f2)| |]].
  - unfold delete_inner. rewrite (bind_Ok _ _ _ _ _ Hconf). rewrite (bind_Ok _ _ _ f3 (FileDirty_new, ())); [done|]. apply (with_local_eq _ _ _ _ _ (Ok ())). fold d.
    rewrite <-Hfl. rewrite <-(bind_Ok _ (λ _, FileDirty_flush) _ _ _ Hrun). rewrite bind_assoc. apply bind_ext.
    intros chain s1. rewrite bind_assoc. apply bind_ext. intros _ s2. rewrite bind_assoc. by apply bind_ext.
  - exists c. split; [done|]. intros k Hk. destruct (Htab k Hk) as [<- <-].
    assert (Hk2 : cluster_ok f2 k) by (unfold cluster_ok; by rewrite (step_fs _ _ _ _ Hst)).
    apply (data_step_tables fl f2 f3 (λ _, False) k Hv2 Hst3); [tauto|done].
  - intros Hall x Hx. pose proof (proj2 (in_volume_step fl _ f f2 x Hst) Hx) as Hx2.
    assert (Htr : tracked fl t2 f2) by (eapply vol_op_tracked; [exact Hop|]; intros y Hy; left; by apply Hall).
    destruct (Htr x Hx2) as [Hd|Hr]; [by apply (step_durable _ _ _ _ Hst3); [done|tauto|]|by apply Hdur].
Qed.

Lemma stored_file_same fl f f' d fcl :
  vol_inv fl f' → vol_same fl f f' → stored_file fl f d fcl → stored_file fl f' d fcl.
Proof.
  intros Hv' Hst Hs. apply (stored_file_kept fl (λ _, False) f f' d fcl Hs Hv' Hst). intros k Hk.
  destruct (data_step_tables fl f f' (λ _, False) k (stored_vol _ _ _ _ Hs) Hst) as [-> ->]; [tauto|done..].
Qed.
Lemma removable_same fl f f' cl l1 s l2 fcl :
  vol_inv fl f' → vol_same fl f f' → removable fl f cl l1 s l2 fcl → removable fl f' cl l1 s l2 fcl.
Proof.
  intros Hv' Hst [Hio Hcount Hcap Hsf Hdis]. pose proof (stored_vol _ _ _ _ Hsf) as Hv.
  split; [by apply (in_order_same fl f)|done|by rewrite (EPC_step fl _ f f' Hst)| |done].
  replace (details_of (place f' cl) s) with (details_of (place f cl) s); [by apply (stored_file_same fl f)|].
  unfold details_of. by rewrite (place_step fl _ f f' cl _ Hst).
Qed.
Lemma deleted_after fl f f1 cl l1 s l2 fcl f' :
  vol_inv fl f → Forall (data_cluster f) fcl → vol_same fl f f1 → deleted fl f1 cl l1 s l2 fcl f' →
  deleted fl f cl l1 s l2 fcl f'.
Proof.
  intros Hv Hfcl Hst [Hi Hs Hio (c & Hch & Htab) Hdur]. pose proof (step_fs _ _ _ _ Hst) as Hfs.
  pose proof (step_bitmap _ _ _ _ Hst) as Hb.
  assert (Hsec : ∀ x, delete_sectors fl f1 cl s x → delete_sectors fl f cl s x).
  { intros x. unfold delete_sectors, table_region, fat_region, bitmap_region, dir_cluster, cluster_sector, EPC.
    by rewrite Hfs, Hb. }
  assert (Htab1 : ∀ k, cluster_ok f k → is_allocated fl f1 k = is_allocated fl f k ∧ fat_entry fl f1 k = fat_entry fl f k)
    by (intros k; apply (data_step_tables fl f f1 (λ _, False) k Hv Hst); tauto).
  split; [done| |done| |].
  - eapply vol_step_trans; [by apply vol_same_step|]. by eapply vol_step_weaken.
  - exists c. split.
    + destruct c; cbn in *; [done|done|]. destruct Hch as (? & ? & ? & Hl). split_and!; try done.
      intros i a b Ha' Hb'. rewrite <-(proj2 (Htab1 a (proj1 (Forall_lookup_1 _ _ _ _ Hfcl Ha')))). by apply (Hl i).
    + intros k Hk. destruct (Htab1 k Hk) as [<- <-]. apply Htab. unfold cluster_ok. by rewrite Hfs.
  - intros Hall x Hx. apply Hdur; [|by apply (in_volume_step fl _ f f1 x Hst)].
    intros y Hy. pose proof (proj1 (in_volume_step fl _ f f1 y Hst) Hy) as Hy'.
    apply (step_durable _ _ _ _ Hst); [done|tauto|by apply Hall].
Qed.
End Delete.

(** * Theorems *)
Section Theorems.
Context {cfg : Config} {crates : Crates} {bd : BlockDevice} {fu : Fuel}.
Context {Hcfg : ConfigOk cfg} {Hcr : CratesOk crates} {Hbd : DeviceOk cfg bd}.
Implicit Types (f : FileSystem) (cl : list Z) (name : str).

(** C11 - removing a file by its path: the call succeeds, the directory as a map
    from names to details loses exactly the name of the file, all clusters of
    the file become free in the bitmap (and in the FAT, for a chain of the FAT),
    no other bit, FAT entry or sector changes, and when everything was on the
    device before, everything is on the device afterwards. *)
Theorem remove_file_removes fl f cl l1 s l2 fcl name (path : str) :
  table_ok (upcase_table f) → removable fl f cl l1 s l2 fcl →
  contains (FileDirEntry.file_attributes (set_file s)) Directory = false → same_name (upcase_table f) name s = true →
  resolves fl f (Some Archive) (path_to_iter path) (FileSystemDetails.first_cluster_of_root_dir (fs f))
    (Some (details_of (place f cl) s)) →
  ∃ f', remove_file path f = (f', Ok ()) ∧ deleted fl f cl l1 s l2 fcl f' ∧
    ∀ name' attributes, in_directory f' cl (l1 ++ l2) name' attributes =
      without_name (upcase_table f) name (in_directory f cl (l1 ++ s :: l2)) name' attributes.
Proof.
  intros Ht Hrm Hfile Hn Hres. pose proof (rm_stored _ _ _ _ _ _ _ Hrm) as Hsf. pose proof (stored_vol _ _ _ _ Hsf) as Hv.
  destruct (find_path_ok fl f (Some Archive) path _ Hv Ht Hres) as (f1 & Hv1 & Hst1 & _ & Hfind).
  destruct (delete_ok fl f1 f1 cl l1 s l2 fcl (removable_same fl f f1 cl l1 s l2 fcl Hv1 Hst1 Hrm)) as (f' & Hdel & Hd);
    [by unfold confirm_has_no_children; cbn [details_of FileDetails.attributes]; rewrite Hfile|].
  assert (Hdet : details_of (place f1 cl) s = details_of (place f cl) s)
    by (unfold details_of; by rewrite (place_step fl _ f f1 cl _ Hst1)).
  rewrite Hdet in Hdel. pose proof (deleted_after fl f f1 cl l1 s l2 fcl f' Hv (stored_clusters _ _ _ _ Hsf) Hst1 Hd) as Hd'.
  exists f'. split; [|split; [done|]].
  - unfold remove_file. rewrite (bind_Ok _ _ _ _ _ (mounted_ok fl f Hv)). by rewrite (bind_Ok _ _ _ _ _ Hfind).
  - eapply removed_map; [apply Hd'| |done]. apply (io_unique _ _ _ _ (rm_order _ _ _ _ _ _ _ Hrm)).
Qed.
End Theorems.

(** * Removing a file *)
Section Sample.
#[local] Existing Instance debug_build.
#[local] Existing Instance dummy_device.
#[local] Existing Instance reference_crates.
#[local] Existing Instance reference_crates_ok.
#[local] Existing Instance debug_build_ok.
#[local] Instance sample_remove_device_ok : DeviceOk debug_build dummy_device := blank_ok.
#[local] Instance sample_remove_fuel : Fuel := 40%nat.

(** The sets of the sample directory. *)
Definition sample_no_set : dir_set := {|
  set_pos := 0; set_file := sample_file_entry; set_stream := sample_stream_entry; set_names := [] |}.
Definition sample_crab : dir_set := default sample_no_set (head sample_sets).
Lemma sample_sets_eq : sample_sets = [] ++ sample_crab :: tail sample_sets.
Proof. vm_compute. reflexivity. Qed.

Lemma sample_crab_removable :
  removable 1 sample_dir_volume [3; 7] [] sample_crab (tail sample_sets) [6; 8].
Proof.
  split.
  - rewrite <-sample_sets_eq. exact sample_in_order.
  - vm_compute. reflexivity.
  - vm_compute. congruence.
  - split.
    + exact sample_dir_inv.
    + unfold data_cluster, cluster_ok, cluster_sector, data_region, heap_region, bitmap_region. cbn.
      repeat (apply Forall_cons_2; [split; [lia|intros k Hk; lia]|]). apply Forall_nil_2.
    + apply (bool_decide_unpack _). vm_compute. exact I.
    + unfold stored_ok. replace (no_fat_chain _) with false by (vm_compute; reflexivity).
      split; [intros [|[|i]] a b; cbn; [|done..]; intros [= <-] [= <-]; vm_compute; reflexivity|].
      intros x [= <-]. vm_compute. reflexivity.
    + apply (bool_decide_unpack _). vm_compute. exact I.
    + intros k Hk Hfree. unfold cluster_ok in Hk. cbn in Hk.
      assert (Hcase : k = 2 ∨ k = 3 ∨ k = 4 ∨ k = 5 ∨ k = 6 ∨ k = 7 ∨ k = 8 ∨ k = 9) by lia.
      destruct Hcase as [->|[->|[->|[->|[->|[->|[->| ->]]]]]]]; try (vm_compute in Hfree; discriminate Hfree).
      unfold data_cluster, cluster_ok, cluster_sector, data_region, heap_region, bitmap_region. cbn.
      split; [lia|intros j Hj; lia].
    + intros _. vm_compute. reflexivity.
    + vm_compute. split; congruence.
    + vm_compute. reflexivity.
  - intros k. rewrite !elem_of_cons, !elem_of_nil. lia.
Qed.

Lemma remove_file_removes_witness :
  ∃ f', remove_file (of_string "/crab.TXT") sample_dir_volume = (f', Ok ()) ∧
    in_directory f' [3; 7] (tail sample_sets) (of_string "CRAB.txt") None = None ∧
    FileDetails.first_cluster <$> in_directory f' [3; 7] (tail sample_sets) (of_string "ferris is a crab.txt") None = Some 5 ∧
    is_allocated 1 f' 6 = false ∧ is_allocated 1 f' 8 = false ∧ is_allocated 1 f' 5 = true ∧ fat_entry 1 f' 5 = 9.
Proof.
  destruct (remove_file_removes 1 sample_dir_volume [3; 7] [] sample_crab (tail sample_sets) [6; 8]
    (of_string "crab.txt") (of_string "/crab.TXT")) as (f' & Hr & [_ _ _ (c & _ & Htab) _] & Hmap).
  - apply default_table_ok.
  - exact sample_crab_removable.
  - vm_compute. reflexivity.
  - vm_compute. reflexivity.
  - change (path_to_iter _) with [of_string "crab.TXT"]. change (FileSystemDetails.first_cluster_of_root_dir _) with (hd 0 [3; 7]).
    replace (Some (details_of (place sample_dir_volume [3; 7]) sample_crab)) with
      (in_directory sample_dir_volume [3; 7] sample_sets (of_string "crab.TXT") (Some Archive))
      by (vm_compute; reflexivity).
    constructor; [apply sample_in_order|]. split; [apply (bool_decide_unpack _); vm_compute; exact I|].
    split; [vm_compute; reflexivity|]. eexists. vm_compute. reflexivity.
  - assert (Hok : ∀ k, 2 ≤ k < 10 → cluster_ok sample_dir_volume k) by (intros k Hk; unfold cluster_ok; cbn; lia).
    exists f'. split; [exact Hr|]. rewrite !Hmap.
    split; [vm_compute; reflexivity|]. split; [vm_compute; reflexivity|].
    destruct (Htab 6 (Hok 6 ltac:(lia))) as [-> _]. destruct (Htab 8 (Hok 8 ltac:(lia))) as [-> _].
    destruct (Htab 5 (Hok 5 ltac:(lia))) as [-> ->]. split; [reflexivity|]. split; [reflexivity|].
    split; [vm_compute; reflexivity|]. rewrite decide_False; [vm_compute; reflexivity|].
    destruct c; cbn [chained]; rewrite ?elem_of_cons, ?elem_of_nil; lia.
Defined.
End Sample.
