(* ===== verification/PathCreate.v ===== *)
(** * Creating and renaming by path

    [create_file] and [rename] of src/file_system.rs in directories that are
    there: the parent directory is found along the path, the entry set is
    written, and what changed is flushed. *)

From S2P Require Import Prelude Text Crates Errors Utils Timestamp BootSector Device SlotCache Touched Fat Allocation AllocationSearch Regions DirectoryEntry Volume VolumeInv VolumeAlloc Directory FileSystem File FileRead FileGrow FreeChain DirSets FileFlush FileOpen DirWalk DirFree DirLookup PathLookup DirCreate DirInsert DirRemove.
Import FileSystemDetails (cluster_length, sectors_per_cluster, first_cluster_of_root_dir).

(** * Specification *)
Section Spec.
Context {cfg : Config} {crates : Crates} {bd : BlockDevice} {fu : Fuel} {Hbd : DeviceOk cfg bd}.
Implicit Types (f : FileSystem) (cl : list Z) (name : str).

(** The directories named one after the other lead from the one at cluster
    [id] to the one at [id']. *)
Inductive reaches (fl : Z) f : list str → Z → Z → Prop :=
  | reaches_here id : reaches fl f [] id id
  | reaches_below name names cl l d id' :
      searchable fl f cl l → name_ok (upcase_table f) name → in_directory f cl l name (Some Directory) = Some d →
      reaches fl f names (FileDetails.first_cluster d) id' → reaches fl f (name :: names) (hd 0 cl) id'.

(** The set [s] of the name [old] is to get the name [name], at [p]: it counts
    its entries and lies in one cluster, the parent directory of the new path is
    the same, which has room and does not have the new name. *)
Record renaming (fl : Z) f cl l1 (s : dir_set) l2 p (dir_path : str) (old name : str) (h : Z) : Prop := {
  rn_clock : clock_ok f;
  rn_table : table_ok (upcase_table f);
  rn_order : in_order fl f cl (l1 ++ s :: l2);
  rn_cluster : set_pos s mod EPC f + set_size s ≤ EPC f;
  rn_count : FileDirEntry.secondary_count (set_file s) = set_size s - 1;
  rn_old : same_name (upcase_table f) old s = true;
  rn_parent : reaches fl f (path_to_iter dir_path) (first_cluster_of_root_dir (fs f)) (hd 0 cl);
  rn_name : legal_name (upcase_table f) name h;
  rn_room : first_room fl f cl (set_count name) p;
  rn_new : List.find (same_name (upcase_table f) name) (l1 ++ s :: l2) = None;
}.
(** The details of the file under its new name. *)
Definition renamed_details f cl (s : dir_set) p name (ts : EncodedTimestamp) : FileDetails.t :=
  let d := details_of (place f cl) s in
  created_details ts (place f cl p) (set_count name - 1) (FileDetails.first_cluster d)
    (FileDetails.attributes d) (FileDetails.flags d) (FileDetails.valid_data_length d) (FileDetails.data_length d).
(** The sectors of the new and of the old entries. *)
Definition rename_sectors f cl (s : dir_set) p name (x : Z) : Prop :=
  entry_sectors (cluster_sector f (dir_cluster f cl p)) (p mod EPC f) (set_count name) x ∨
  entry_sectors (cluster_sector f (dir_cluster f cl (set_pos s))) (set_pos s mod EPC f) (set_size s) x.

(** Nothing was lost: if all was on the device before, it is afterwards. *)
Definition stays_durable (fl : Z) f f' : Prop :=
  (∀ x, in_volume fl f x → durable fl f x) → ∀ x, in_volume fl f x → durable fl f' x.
End Spec.

(** * Lemmas *)
Section Lemmas.
Context {cfg : Config} {crates : Crates} {bd : BlockDevice} {fu : Fuel}.
Context {Hcfg : ConfigOk cfg} {Hcr : CratesOk crates} {Hbd : DeviceOk cfg bd}.
Implicit Types (f : FileSystem) (t : FileDirty) (cl : list Z) (name : str) (p : Z).

Lemma reaches_same fl f f' names id id' :
  vol_inv fl f → vol_same fl f f' → reaches fl f names id id' → reaches fl f' names id id'.
Proof.
  intros Hv Hst. induction 1 as [id|name names cl l d id' Hsb Hn Hd _ IH]; [constructor|].
  apply reaches_below with l d; [by apply (searchable_same fl f f')|by rewrite (step_table _ _ _ _ Hst)| |done].
  by rewrite (in_directory_same fl f f').
Qed.

(** The walk to the parent directory creates nothing when all are there. *)
Lemma get_or_create_loop_ok fl t names : ∀ f id id',
  vol_inv fl f → table_ok (upcase_table f) → reaches fl f names id id' →
  ∃ f', get_or_create_loop names id (t, f) = ((t, f'), Ok id') ∧ vol_inv fl f' ∧ vol_same fl f f'.
Proof.
  induction names as [|name names IH]; intros f id id' Hv Ht Hr; inversion Hr; subst.
  { exists f. split; [done|]. split; [done|apply vol_step_refl]. }
  destruct (search_ok fl f cl l name (Some Directory) Hv Ht) as (filter & f1 & Hf & Hfind & Hv1 & Hst1); [done..|].
  destruct (IH f1 (FileDetails.first_cluster d) id' Hv1) as (f' & Hrun & Hv' & Hst');
    [by rewrite (step_table _ _ _ _ Hst1)|by apply (reaches_same fl f f1)|].
  exists f'. split; [|split; [done|by eapply vol_step_trans]]. cbn [get_or_create_loop].
  rewrite (bind_Ok (gets (upcase_table ∘ snd)) _ _ (t, f) (upcase_table f)) by done.
  rewrite Hf. cbn [map_err_o]. rewrite bind_lift_Ok.
  rewrite (bind_Ok _ _ _ (t, f1) (in_directory f cl l name (Some Directory))) by (by eapply zoom_to).
  by replace (in_directory f cl l name (Some Directory)) with (Some d).
Qed.
Lemma parent_ok fl t f (path : str) id :
  vol_inv fl f → table_ok (upcase_table f) → reaches fl f (path_to_iter path) (first_cluster_of_root_dir (fs f)) id →
  ∃ f', get_or_create_directory path (t, f) = ((t, f'), Ok id) ∧ vol_inv fl f' ∧ vol_same fl f f'.
Proof.
  intros Hv Ht Hr. destruct (get_or_create_loop_ok fl t _ f _ id Hv Ht Hr) as (f' & Hrun & Hv' & Hst).
  exists f'. split; [|done]. unfold get_or_create_directory. by rewrite (bind_Ok (gets (fs ∘ snd)) _ _ (t, f) (fs f)) by done.
Qed.

Lemma free_from_same fl f f' cl p n :
  vol_inv fl f → directory fl f cl → vol_same fl f f' → free_from fl f cl p n ↔ free_from fl f' cl p n.
Proof.
  intros Hv Hdir Hst. assert (Hlen : dir_len f' cl = dir_len f cl) by (unfold dir_len; by rewrite (EPC_step fl _ f f' Hst)).
  unfold free_from. rewrite Hlen. split; intros (Hp & Hn & Hj); split_and!; try done; intros j Hjr.
  - rewrite (dir_at_same fl f f' cl j Hv (dir_data _ _ _ Hdir) Hst) by lia. by apply Hj.
  - rewrite <-(dir_at_same fl f f' cl j Hv (dir_data _ _ _ Hdir) Hst) by lia. by apply Hj.
Qed.
Lemma first_room_same fl f f' cl n p :
  vol_inv fl f → directory fl f cl → vol_same fl f f' → first_room fl f cl n p → first_room fl f' cl n p.
Proof.
  intros Hv Hdir Hst [Hfree Hfirst Hcap]. split; [by apply (free_from_same fl f f')| |by rewrite (EPC_step fl _ f f' Hst)].
  intros q Hq Hf. by apply (Hfirst q Hq), (free_from_same fl f f').
Qed.

(** Flushing after a change that began with an empty list. *)
Lemma flush_changes_ok fl f P t f1 :
  vol_inv fl f → vol_op fl P FileDirty_new f t f1 →
  ∃ f', FileDirty_flush (t, f1) = ((FileDirty_new, f'), Ok ()) ∧ vol_inv fl f' ∧ vol_same fl f1 f' ∧
    vol_step fl P f f' ∧ stays_durable fl f f'.
Proof.
  intros Hv Hop. pose proof (op_step _ _ _ _ _ _ Hop) as Hst.
  destruct (FileDirty_flush_ok fl f1 t (op_inv _ _ _ _ _ _ Hop)) as (f' & Hfl & Hv' & Hst' & Hdur).
  { eapply vol_op_touched; [exact Hop|]. split; [apply FileDirty_new_ok|apply Forall_nil_2]. }
  exists f'. split_and!; [done..|eapply vol_step_trans; [exact Hst|by apply vol_same_step]|].
  intros Hall x Hx. pose proof (proj2 (in_volume_step fl _ f f1 x Hst) Hx) as Hx1.
  assert (Htr : tracked fl t f1) by (eapply vol_op_tracked; [exact Hop|]; intros y Hy; left; by apply Hall).
  destruct (Htr x Hx1) as [Hd|Hr]; [by apply (step_durable _ _ _ _ Hst'); [done|tauto|]|by apply Hdur].
Qed.

Lemma new_file_ok : new_entry_ok NO_CLUSTER_ID Archive (flag_union AllocationPossible NoFatChain) 0 0.
Proof. split; rewrite ?flag_union_spec; unfold byte_ok; split_and?; try reflexivity; vm_compute; congruence. Qed.

Lemma vol_op_after fl P t f f1 t' f' :
  vol_inv fl f1 → vol_same fl f f1 → dirty_ok t → vol_op fl P t f1 t' f' → vol_op fl P t f t' f'.
Proof. intros Hv Hst Ht Hop. apply (vol_op_trans fl P t f t f1); [by apply vol_op_same|done]. Qed.

Lemma with_name_ext table name d m m' :
  (∀ name' attributes, m name' attributes = m' name' attributes) → ∀ name' attributes,
  with_name table name d m name' attributes = with_name table name d m' name' attributes.
Proof. intros H name' attributes. unfold with_name. by rewrite H. Qed.

(** Parent directory and entry, as [create_file] and [rename] make them. *)
Lemma create_at_path_ok fl f cl l p dir_path name h first file_attributes flags valid_length data_length :
  vol_inv fl f → clock_ok f → table_ok (upcase_table f) → in_order fl f cl l →
  reaches fl f (path_to_iter dir_path) (first_cluster_of_root_dir (fs f)) (hd 0 cl) →
  legal_name (upcase_table f) name h → new_entry_ok first file_attributes flags valid_length data_length →
  first_room fl f cl (set_count name) p → List.find (same_name (upcase_table f) name) l = None →
  ∃ ts f1 t' f' l', let d := created_details ts (place f cl p) (set_count name - 1) first file_attributes flags
                          valid_length data_length in
    get_or_create_directory dir_path (FileDirty_new, f) = ((FileDirty_new, f1), Ok (hd 0 cl)) ∧
    create_file_dir_entry_at name (hd 0 cl) first file_attributes flags valid_length data_length (FileDirty_new, f1) =
      ((t', f'), Ok d) ∧ in_order fl f' cl l' ∧
    (∀ name' attributes, in_directory f' cl l' name' attributes =
       with_name (upcase_table f) name (stored d) (in_directory f cl l) name' attributes) ∧
    vol_op fl (entry_sectors (cluster_sector f (dir_cluster f cl p)) (p mod EPC f) (set_count name)) FileDirty_new f t' f' ∧
    ∃ x l1 l2, l = l1 ++ l2 ∧ l' = l1 ++ x :: l2 ∧ set_units x = encode_utf16 name ∧ set_pos x = p ∧
      set_name_length x = len (encode_utf16 name) ∧ details_of (place f cl) x = stored d.
Proof.
  intros Hv Hc Htab Hio Hreach Hn He Hroom Hnone.
  destruct (parent_ok fl FileDirty_new f dir_path (hd 0 cl) Hv Htab Hreach) as (f1 & Hpar & Hv1 & Hst1).
  pose proof (step_table _ _ _ _ Hst1) as Ht1. pose proof (sb_dir _ _ _ _ (io_search _ _ _ _ Hio)) as Hdir.
  pose proof (EPC_step fl _ f f1 Hst1) as HE. pose proof (step_fs _ _ _ _ Hst1) as Hfs.
  destruct (create_insert_ok fl f1 FileDirty_new cl l p name h first file_attributes flags valid_length data_length
    Hv1 FileDirty_new_ok) as (ts & f' & t' & l' & Hrun & Hio' & Hmap & Hop & Hins).
  - unfold clock_ok. by rewrite (step_clock _ _ _ _ Hst1).
  - by apply (in_order_same fl f f1).
  - by rewrite Ht1.
  - done.
  - by apply (first_room_same fl f f1).
  - by rewrite Ht1.
  - rewrite (place_step fl _ f f1 cl p Hst1) in Hrun, Hmap. rewrite Ht1 in Hmap.
    destruct Hins as (x & l1 & l2 & Hl & Hl' & Hun & Hpos & Hlen & Hdet). rewrite (place_step fl _ f f1 cl p Hst1) in Hdet.
    exists ts, f1, t', f', l'. split; [done|]. split; [done|]. split; [done|]. split; [|split].
    3: { exists x, l1, l2. split_and!; try done. rewrite <-Hdet. unfold details_of.
         by rewrite (place_step fl _ f f1 cl _ Hst1). }
    + intros name' attributes. rewrite Hmap. apply with_name_ext. intros n' a'. by apply (in_directory_same fl f f1).
    + apply (vol_op_after fl _ FileDirty_new f f1); [done..|apply FileDirty_new_ok|].
      unfold cluster_sector, dir_cluster in *. by rewrite HE, Hfs in Hop.
Qed.

(** The directory after the flush. *)
Lemma flushed_directory fl f f' cl l (m : str → option Z → option FileDetails.t) :
  vol_inv fl f → vol_same fl f f' → in_order fl f cl l →
  (∀ name' attributes, in_directory f cl l name' attributes = m name' attributes) →
  in_order fl f' cl l ∧ ∀ name' attributes, in_directory f' cl l name' attributes = m name' attributes.
Proof.
  intros Hv Hst Hio Hm. split; [by apply (in_order_same fl f f')|]. intros name' attributes.
  by rewrite (in_directory_same fl f f').
Qed.

(** ** The set that is renamed *)
Lemma set_typed es p l1 s l2 :
  Forall raw_ok es → dir_sets es p = Some (l1 ++ s :: l2) →
  file_entry_typed (set_file s) ∧ stream_entry_typed (set_stream s).
Proof.
  intros Hraw Hl. destruct (dir_sets_split es p l1 s l2 Hl) as (pre & e & rest & -> & _ & _ & _ & Hs & _).
  destruct (parse_set_Some _ _ _ _ Hs) as (st & ns & Hf & Hst & _ & Hstr & _).
  apply Forall_app in Hraw as [_ [He Hr]%Forall_cons].
  assert (Hstraw : raw_ok st) by (by eapply Forall_lookup_1).
  destruct (file_entry_rewrite (E:=err) e He) as (fe & Hfe & Hft & _).
  destruct (stream_entry_parses (E:=err) st Hstraw) as (se & Hse & Hset).
  rewrite Hfe in Hf. rewrite Hse in Hstr. injection Hf as <-. injection Hstr as <-. done.
Qed.
Lemma renamed_entry_ok s :
  file_entry_typed (set_file s) → stream_entry_typed (set_stream s) →
  new_entry_ok (StreamExtensionDirEntry.first_cluster (set_stream s)) (FileDirEntry.file_attributes (set_file s))
    (StreamExtensionDirEntry.general_secondary_flags (set_stream s))
    (StreamExtensionDirEntry.valid_data_length (set_stream s)) (StreamExtensionDirEntry.data_length (set_stream s)).
Proof. unfold file_entry_typed, stream_entry_typed. intros. split; tauto. Qed.

(** The set of the old name, which lies in one cluster and counts its entries,
    can be cleared. *)
Lemma clear_set_ok fl f t cl l1 s l2 name :
  vol_inv fl f → dirty_ok t → in_order fl f cl (l1 ++ s :: l2) → set_pos s mod EPC f + set_size s ≤ EPC f →
  FileDirEntry.secondary_count (set_file s) = set_size s - 1 → same_name (upcase_table f) name s = true →
  ∃ t' f', (num_entries ← lift (add usize (FileDirEntry.secondary_count (set_file s)) 1);
      mark_directory_entry_set_unused (place f cl (set_pos s)) num_entries) (t, f) = ((t', f'), Ok ()) ∧
    vol_op fl (entry_sectors (cluster_sector f (dir_cluster f cl (set_pos s))) (set_pos s mod EPC f) (set_size s)) t f t' f' ∧
    in_order fl f' cl (l1 ++ l2) ∧ ∀ name' attributes, in_directory f' cl (l1 ++ l2) name' attributes =
      without_name (upcase_table f) name (in_directory f cl (l1 ++ s :: l2)) name' attributes.
Proof.
  intros Hv Ht Hio Hcap Hcount Hn. destruct (mark_set_ok fl f t cl l1 s l2 Hv Ht Hio Hcap) as (t' & f' & Hm & Hop & Hio').
  destruct (set_range fl f cl l1 s l2 Hv Hio) as [Hp0 Hpn]. assert (Hs2 : 2 ≤ set_size s) by (unfold set_size; lia).
  pose proof (dir_small _ _ _ (sb_dir _ _ _ _ (io_search _ _ _ _ Hio))) as Hsm.
  exists t', f'. split; [|split; [done|split; [done|]]].
  - rewrite Hcount, (add_ok usize), bind_lift_Ok by (destruct usize_cases as [-> | ->]; lia).
    by replace (set_size s - 1 + 1) with (set_size s) by lia.
  - eapply removed_map; [apply Hop|apply Hio|done].
Qed.

Lemma without_name_ext table name m m' :
  (∀ name' attributes, m name' attributes = m' name' attributes) → ∀ name' attributes,
  without_name table name m name' attributes = without_name table name m' name' attributes.
Proof. intros H name' attributes. unfold without_name. by rewrite H. Qed.

(** Both changes of [rename], in one directory. *)
Lemma rename_changes_ok fl f cl l1 s l2 p dir_path old name h :
  vol_inv fl f → renaming fl f cl l1 s l2 p dir_path old name h →
  let d := details_of (place f cl) s in let d' := renamed_details f cl s p name in
  ∃ ts t' f' l',
    (id ← get_or_create_directory dir_path;
     create_file_dir_entry_at name id (FileDetails.first_cluster d) (FileDetails.attributes d) (FileDetails.flags d)
       (FileDetails.valid_data_length d) (FileDetails.data_length d) ;;
     num_entries ← lift (add usize (FileDetails.secondary_count d) 1);
     mark_directory_entry_set_unused (FileDetails.location d) num_entries) (FileDirty_new, f) = ((t', f'), Ok ()) ∧
    in_order fl f' cl l' ∧
    (∀ name' attributes, in_directory f' cl l' name' attributes = without_name (upcase_table f) old
       (with_name (upcase_table f) name (stored (d' ts)) (in_directory f cl (l1 ++ s :: l2))) name' attributes) ∧
    vol_op fl (rename_sectors f cl s p name) FileDirty_new f t' f'.
Proof.
  intros Hv [Hc Htab Hio Hcap Hcount Hold Hreach Hn Hroom Hnone] d d'.
  assert (Hraw : Forall raw_ok (dir_list fl f cl 0 (dir_len f cl))).
  { apply Forall_fmap, Forall_forall. intros j Hj%elem_of_seqZ.
    apply (dir_at_raw fl f cl j Hv (dir_data _ _ _ (sb_dir _ _ _ _ (io_search _ _ _ _ Hio)))). lia. }
  destruct (set_typed _ 0 l1 s l2 Hraw (sb_sets _ _ _ _ (io_search _ _ _ _ Hio))) as [Hft Hst].
  destruct (create_at_path_ok fl f cl (l1 ++ s :: l2) p dir_path name h _ _ _ _ _ Hv Hc Htab Hio Hreach Hn
    (renamed_entry_ok s Hft Hst) Hroom Hnone) as (ts & f1 & t2 & f2 & l2' & Hpar & Hrun & Hio2 & Hmap & Hop & x & a & b & Hab & -> & _).
  assert (Hs : ∃ u v, a ++ x :: b = u ++ s :: v).
  { apply list_elem_of_split. apply elem_of_app. assert (Hin : s ∈ a ++ b) by (rewrite <-Hab; apply elem_of_app; right; by left).
    rewrite elem_of_app in Hin. rewrite elem_of_cons. tauto. }
  destruct Hs as (u & v & Huv). rewrite Huv in Hio2. pose proof (op_step _ _ _ _ _ _ Hop) as Hst2.
  pose proof (op_inv _ _ _ _ _ _ Hop) as Hv2. pose proof (EPC_step fl _ f f2 Hst2) as HE.
  destruct (clear_set_ok fl f2 t2 cl u s v old Hv2 (proj1 (op_tracks _ _ _ _ _ _ Hop)) Hio2) as (t3 & f3 & Hm & Hop3 & Hio3 & Hmap3);
    [by rewrite HE|done|by rewrite (step_table _ _ _ _ Hst2)|].
  exists ts, t3, f3, (u ++ v). split; [|split; [done|split]].
  - rewrite (bind_Ok _ _ _ _ _ Hpar). rewrite (bind_Ok _ _ _ _ _ Hrun). rewrite <-Hm.
    cbn [d details_of FileDetails.secondary_count FileDetails.location].
    by rewrite (place_step fl _ f f2 cl (set_pos s) Hst2).
  - intros name' attributes. rewrite Hmap3, (step_table _ _ _ _ Hst2). apply without_name_ext. intros n' a'.
    rewrite <-Huv. apply Hmap.
  - eapply vol_op_trans; [eapply vol_op_weaken; [|exact Hop]; by left|].
    assert (Hfs : fs f2 = fs f) by apply (step_fs _ _ _ _ Hst2).
    unfold rename_sectors, cluster_sector, dir_cluster in Hop3 |- *. rewrite HE, Hfs in Hop3.
    eapply vol_op_weaken; [|exact Hop3]. by right.
Qed.

Lemma renaming_same fl f f' cl l1 s l2 p dir_path old name h :
  vol_inv fl f → vol_same fl f f' → renaming fl f cl l1 s l2 p dir_path old name h →
  renaming fl f' cl l1 s l2 p dir_path old name h ∧ renamed_details f' cl s p name = renamed_details f cl s p name ∧
  ∀ x, rename_sectors f' cl s p name x ↔ rename_sectors f cl s p name x.
Proof.
  intros Hv Hst [Hc Htab Hio Hcap Hcount Hold Hreach Hn Hroom Hnone].
  pose proof (step_fs _ _ _ _ Hst) as Hfs. pose proof (step_table _ _ _ _ Hst) as Ht.
  pose proof (EPC_step fl _ f f' Hst) as HE. pose proof (sb_dir _ _ _ _ (io_search _ _ _ _ Hio)) as Hdir.
  split; [split|split].
  - unfold clock_ok. by rewrite (step_clock _ _ _ _ Hst).
  - by rewrite Ht.
  - by apply (in_order_same fl f).
  - by rewrite HE.
  - done.
  - by rewrite Ht.
  - rewrite Hfs. by apply (reaches_same fl f).
  - by rewrite Ht.
  - by apply (first_room_same fl f).
  - by rewrite Ht.
  - unfold renamed_details, details_of. by rewrite !(place_step fl _ f f' cl _ Hst).
  - intros x. unfold rename_sectors, cluster_sector, dir_cluster. by rewrite HE, Hfs.
Qed.
Lemma stays_durable_same fl f f' : vol_same fl f f' → stays_durable fl f f'.
Proof. intros Hst Hall x Hx. apply (step_durable _ _ _ _ Hst); [done|tauto|by apply Hall]. Qed.
Lemma stays_durable_trans fl P f0 f1 f2 :
  vol_step fl P f0 f1 → stays_durable fl f0 f1 → stays_durable fl f1 f2 → stays_durable fl f0 f2.
Proof.
  intros Hst H1 H2 Hall x Hx. apply H2; [|by apply (in_volume_step fl P f0 f1)]. intros y Hy.
  apply H1; [done|by apply (in_volume_step fl P f0 f1) in Hy].
Qed.
End Lemmas.

(** * Theorems *)
Section Theorems.
Context {cfg : Config} {crates : Crates} {bd : BlockDevice} {fu : Fuel}.
Context {Hcfg : ConfigOk cfg} {Hcr : CratesOk crates} {Hbd : DeviceOk cfg bd}.
Implicit Types (f : FileSystem) (cl : list Z) (name : str) (p : Z).

(** [create_file], with the set it writes. *)
Lemma create_file_ok fl f cl l p (path : str) name dir_path h :
  vol_inv fl f → clock_ok f → table_ok (upcase_table f) → in_order fl f cl l → split_path path = (dir_path, name) →
  reaches fl f (path_to_iter dir_path) (first_cluster_of_root_dir (fs f)) (hd 0 cl) →
  legal_name (upcase_table f) name h → first_room fl f cl (set_count name) p →
  List.find (same_name (upcase_table f) name) l = None →
  ∃ ts f' l', let d := created_details ts (place f cl p) (set_count name - 1) NO_CLUSTER_ID Archive
                         (flag_union AllocationPossible NoFatChain) 0 0 in
    create_file path f = (f', Ok d) ∧ vol_inv fl f' ∧ in_order fl f' cl l' ∧
    (∀ name' attributes, in_directory f' cl l' name' attributes =
       with_name (upcase_table f) name (stored d) (in_directory f cl l) name' attributes) ∧
    vol_step fl (entry_sectors (cluster_sector f (dir_cluster f cl p)) (p mod EPC f) (set_count name)) f f' ∧
    stays_durable fl f f' ∧
    ∃ x l1 l2, l = l1 ++ l2 ∧ l' = l1 ++ x :: l2 ∧ set_units x = encode_utf16 name ∧ set_pos x = p ∧
      set_name_length x = len (encode_utf16 name) ∧ details_of (place f cl) x = stored d.
Proof.
  intros Hv Hc Htab Hio Hsplit Hreach Hn Hroom Hnone.
  destruct (create_at_path_ok fl f cl l p dir_path name h _ _ _ _ _ Hv Hc Htab Hio Hreach Hn new_file_ok Hroom Hnone)
    as (ts & f1 & t2 & f2 & l' & Hpar & Hrun & Hio2 & Hmap & Hop & Hx).
  destruct (flush_changes_ok fl f _ t2 f2 Hv Hop) as (f' & Hfl & Hv' & Hst & Hstep & Hdur).
  destruct (flushed_directory fl f2 f' cl l' _ (op_inv _ _ _ _ _ _ Hop) Hst Hio2 Hmap) as [Hio' Hmap'].
  exists ts, f', l'. split; [|done]. unfold create_file. rewrite Hsplit.
  rewrite (bind_Ok _ _ _ f' (FileDirty_new, created_details ts (place f cl p) (set_count name - 1) NO_CLUSTER_ID Archive
                               (flag_union AllocationPossible NoFatChain) 0 0)); [done|].
  apply (with_local_eq _ _ _ _ _ (Ok _)).
  by rewrite (bind_Ok _ _ _ _ _ Hpar), (bind_Ok _ _ _ _ _ Hrun), (bind_Ok _ _ _ _ _ Hfl).
Qed.

(** Creating a file by its path, in a directory that is there, has room
    and does not have the name: the call succeeds and answers with the details
    of an empty file; the directory as a map from names to details gets exactly
    this name; no bit of the bitmap, no FAT entry and no other sector changes;
    and when everything was on the device before, everything is afterwards. *)
Theorem create_file_adds_file fl f cl l p (path : str) name dir_path h :
  vol_inv fl f → clock_ok f → table_ok (upcase_table f) → in_order fl f cl l → split_path path = (dir_path, name) →
  reaches fl f (path_to_iter dir_path) (first_cluster_of_root_dir (fs f)) (hd 0 cl) →
  legal_name (upcase_table f) name h → first_room fl f cl (set_count name) p →
  List.find (same_name (upcase_table f) name) l = None →
  ∃ ts f' l', let d := created_details ts (place f cl p) (set_count name - 1) NO_CLUSTER_ID Archive
                         (flag_union AllocationPossible NoFatChain) 0 0 in
    create_file path f = (f', Ok d) ∧ vol_inv fl f' ∧ in_order fl f' cl l' ∧
    (∀ name' attributes, in_directory f' cl l' name' attributes =
       with_name (upcase_table f) name (stored d) (in_directory f cl l) name' attributes) ∧
    vol_step fl (entry_sectors (cluster_sector f (dir_cluster f cl p)) (p mod EPC f) (set_count name)) f f' ∧
    stays_durable fl f f'.
Proof.
  intros Hv Hc Htab Hio Hsplit Hreach Hn Hroom Hnone.
  destruct (create_file_ok fl f cl l p path name dir_path h Hv Hc Htab Hio Hsplit Hreach Hn Hroom Hnone)
    as (ts & f' & l' & Hrun & Hv' & Hio' & Hmap & Hstep & Hdur & _).
  by exists ts, f', l'.
Qed.

(** C16 - renaming inside a directory, when the new name is not there: the call
    succeeds; the directory as a map from names to details loses the old name
    and gets the new one, with the first cluster, the lengths, the attributes
    and the flags of the old entry; every other name keeps its details.  Only
    sectors of the two entry sets change, so the contents of the file stay, and
    when everything was on the device before, everything is afterwards. *)
Theorem rename_moves_name fl f cl l1 s l2 p (from_path to_path : str) dir_path old name h :
  vol_inv fl f → renaming fl f cl l1 s l2 p dir_path old name h → split_path to_path = (dir_path, name) →
  resolves fl f None (path_to_iter from_path) (first_cluster_of_root_dir (fs f)) (Some (details_of (place f cl) s)) →
  resolves fl f None (path_to_iter to_path) (first_cluster_of_root_dir (fs f)) None →
  ∃ ts f' l', rename from_path to_path f = (f', Ok ()) ∧ vol_inv fl f' ∧ in_order fl f' cl l' ∧
    (∀ name' attributes, in_directory f' cl l' name' attributes =
       without_name (upcase_table f) old (with_name (upcase_table f) name (stored (renamed_details f cl s p name ts))
         (in_directory f cl (l1 ++ s :: l2))) name' attributes) ∧
    vol_step fl (rename_sectors f cl s p name) f f' ∧ stays_durable fl f f'.
Proof.
  intros Hv Hren Hsplit Hfrom Hto. pose proof (rn_table _ _ _ _ _ _ _ _ _ _ _ Hren) as Htab.
  destruct (find_path_ok fl f None from_path _ Hv Htab Hfrom) as (f1 & Hv1 & Hst1 & _ & Hfind1).
  destruct (find_path_ok fl f1 None to_path None Hv1) as (f2 & Hv2 & Hst2 & _ & Hfind2).
  { by rewrite (step_table _ _ _ _ Hst1). }
  { rewrite (step_fs _ _ _ _ Hst1). by apply (resolves_same fl f f1). }
  pose proof (vol_step_trans fl _ f f1 f2 Hst1 Hst2) as Hst.
  destruct (renaming_same fl f f2 cl l1 s l2 p dir_path old name h Hv Hst Hren) as (Hren2 & Hdet & Hsec).
  destruct (rename_changes_ok fl f2 cl l1 s l2 p dir_path old name h Hv2 Hren2) as (ts & t3 & f3 & l' & Hrun & Hio3 & Hmap & Hop).
  rewrite Hdet in Hmap. rewrite (step_table _ _ _ _ Hst) in Hmap.
  assert (Hop' : vol_op fl (rename_sectors f cl s p name) FileDirty_new f t3 f3).
  { apply (vol_op_after fl _ FileDirty_new f f2); [done..|apply FileDirty_new_ok|].
    eapply vol_op_weaken; [|exact Hop]. intros x. apply Hsec. }
  destruct (flush_changes_ok fl f _ t3 f3 Hv Hop') as (f' & Hfl & Hv' & Hst' & Hstep & Hdur).
  destruct (flushed_directory fl f3 f' cl l' _ (op_inv _ _ _ _ _ _ Hop) Hst' Hio3 Hmap) as [Hio' Hmap'].
  exists ts, f', l'. split; [|split_and!; [done..| |done|done]].
  - unfold rename. rewrite (bind_Ok _ _ _ _ _ (mounted_ok fl f Hv)). rewrite (bind_Ok _ _ _ _ _ Hfind1).
    rewrite (bind_Ok (try_ (find_file_inner to_path None)) _ f1 f2 (inl FileNotFound)) by (unfold try_; by rewrite Hfind2).
    cbv iota. rewrite Hsplit.
    rewrite (bind_Ok _ _ _ f' (FileDirty_new, ())); [done|]. apply (with_local_eq _ _ _ _ _ (Ok ())).
    rewrite <-Hfl. rewrite <-(bind_Ok _ (λ _, FileDirty_flush) _ _ _ Hrun).
    assert (Hdd : details_of (place f2 cl) s = details_of (place f cl) s)
      by (unfold details_of; by rewrite (place_step fl _ f f2 cl _ Hst)). rewrite Hdd.
    rewrite bind_assoc. apply bind_ext. intros id s1. rewrite bind_assoc. apply bind_ext. intros d s2.
    rewrite bind_assoc. by apply bind_ext.
  - intros name' attributes. rewrite Hmap'. apply without_name_ext. intros n' a'. apply with_name_ext.
    intros n'' a''. by apply (in_directory_same fl f f2).
Qed.
End Theorems.

(** * Creating and renaming a file *)
Section Sample.
#[local] Existing Instance debug_build.
#[local] Existing Instance dummy_device.
#[local] Existing Instance reference_crates.
#[local] Existing Instance reference_crates_ok.
#[local] Existing Instance debug_build_ok.
#[local] Instance sample_create_device_ok : DeviceOk debug_build dummy_device := blank_ok.
#[local] Instance sample_create_fuel : Fuel := 40%nat.

Lemma create_file_adds_file_witness :
  ∃ f' l', snd (create_file (of_string "/New file.txt") sample_dir_volume) = Ok
      (created_details EncodedTimestamp_default {| Location.sector_id := 3; Location.dir_entry_offset := 0 |} 2 0 0x20 3 0 0) ∧
    fst (create_file (of_string "/New file.txt") sample_dir_volume) = f' ∧
    FileDetails.attributes <$> in_directory f' [3; 7] l' (of_string "NEW file.TXT") None = Some 0x20 ∧
    FileDetails.first_cluster <$> in_directory f' [3; 7] l' (of_string "Crab.txt") None = Some 6.
Proof.
  destruct (create_file_adds_file 1 sample_dir_volume [3; 7] sample_sets 0 (of_string "/New file.txt") sample_new_name []
    (spec_name_hash UpcaseTable_default (encode_utf16 sample_new_name) 0) sample_dir_inv)
    as (ts & f' & l' & Hrun & _ & _ & Hmap & _);
    [exact I|apply default_table_ok|exact sample_in_order|vm_compute; reflexivity|constructor|exact sample_legal|
     exact sample_room|vm_compute; reflexivity|].
  exists f', l'. split; [vm_compute; reflexivity|]. split; [by rewrite Hrun|]. rewrite !Hmap. clear.
  split; vm_compute; reflexivity.
Defined.

Definition sample_lobster : str := of_string "Lobster.txt".
Lemma sample_renaming :
  renaming 1 sample_dir_volume [3; 7] [] sample_crab (tail sample_sets) 0 [] (of_string "crab.txt") sample_lobster
    (spec_name_hash UpcaseTable_default (encode_utf16 sample_lobster) 0).
Proof.
  split.
  - exact I.
  - apply default_table_ok.
  - rewrite <-sample_sets_eq. exact sample_in_order.
  - vm_compute. congruence.
  - vm_compute. reflexivity.
  - vm_compute. reflexivity.
  - constructor.
  - split; [apply default_table_ok|apply (bool_decide_unpack _); vm_compute; exact I|vm_compute; congruence|vm_compute; reflexivity].
  - exact sample_room.
  - vm_compute. reflexivity.
Qed.

Lemma sample_resolves (name : str) o :
  path_to_iter name = [name] →
  name_ok UpcaseTable_default name → in_directory sample_dir_volume [3; 7] sample_sets name None = o →
  resolves 1 sample_dir_volume None (path_to_iter name) 3 o.
Proof.
  intros -> Hn <-. change 3 with (hd 0 [3; 7]). constructor; [apply sample_in_order|exact Hn].
Qed.
Lemma sample_name_ok (name : str) (r : Z * Z) :
  bool_decide (Forall scalar name) = true → bool_decide (len (encode_utf16 name) < 2 ^ usize_bits) = true →
  encode_utf16_upcase_and_hash name UpcaseTable_default = Ok r → name_ok UpcaseTable_default name.
Proof. intros Hs%bool_decide_eq_true Hl%bool_decide_eq_true Hr. split; [done|]. split; [done|]. by exists r. Qed.

Lemma rename_moves_name_witness :
  ∃ f' l', rename (of_string "crab.txt") sample_lobster sample_dir_volume = (f', Ok ()) ∧
    in_directory f' [3; 7] l' (of_string "crab.txt") None = None ∧
    FileDetails.first_cluster <$> in_directory f' [3; 7] l' (of_string "LOBSTER.txt") (Some Archive) = Some 6 ∧
    FileDetails.first_cluster <$> in_directory f' [3; 7] l' (of_string "ferris is a crab.txt") None = Some 5.
Proof.
  destruct (rename_moves_name 1 sample_dir_volume [3; 7] [] sample_crab (tail sample_sets) 0 (of_string "crab.txt")
    sample_lobster [] (of_string "crab.txt") sample_lobster _ sample_dir_inv sample_renaming)
    as (ts & f' & l' & Hrun & _ & _ & Hmap & _).
  - vm_compute. reflexivity.
  - apply sample_resolves; [vm_compute; reflexivity| |vm_compute; reflexivity].
    eapply sample_name_ok; vm_compute; reflexivity.
  - apply sample_resolves; [vm_compute; reflexivity| |vm_compute; reflexivity].
    eapply sample_name_ok; vm_compute; reflexivity.
  - exists f', l'. split; [exact Hrun|]. rewrite !Hmap. clear. split_and!; vm_compute; reflexivity.
Defined.
End Sample.
