(* ===== verification/DirUpdate.v ===== *)
(** * Flushing an open file updates its directory

    [File::flush] of src/file.rs rewrites file entry and stream extension of
    the file's set.  In the list of the directory's sets one set is replaced,
    so the directory, as a map from names to details, gets new details for
    this name and keeps the others. *)

From S2P Require Import Prelude Text Crates Errors Utils Timestamp BootSector Device SlotCache Touched Fat Allocation AllocationSearch Regions DirectoryEntry Volume VolumeInv VolumeAlloc Directory FileSystem File FileRead FileGrow DirSets FileFlush DirWalk DirFree DirLookup PathLookup DirCreate DirInsert DirRemove PathCreate.
Import FileSystemDetails (cluster_length, sectors_per_cluster).

(** * Specification *)
Section Spec.
Context {cfg : Config} {crates : Crates} {bd : BlockDevice} {fu : Fuel} {Hbd : DeviceOk cfg bd}.
Implicit Types (f : FileSystem) (file : File) (cl : list Z) (s : dir_set).

(** The set of the open file [file] is [s], which counts its entries and lies in
    one cluster; the details of the file fit their fields. *)
Record filed (fl : Z) f file cl l1 s l2 : Prop := {
  fd_order : in_order fl f cl (l1 ++ s :: l2);
  fd_cluster : set_pos s mod EPC f + set_size s ≤ EPC f;
  fd_location : FileDetails.location (details file) = place f cl (set_pos s);
  fd_count : FileDetails.secondary_count (details file) = set_size s - 1;
  fd_flags : byte_ok (FileDetails.flags (details file)) ∧
    Z.land (FileDetails.flags (details file)) GeneralSecondaryFlags_all = FileDetails.flags (details file);
  fd_lengths : 0 ≤ FileDetails.valid_data_length (details file) < 2 ^ 64 ∧
    0 ≤ FileDetails.data_length (details file) < 2 ^ 64;
  fd_first : 0 ≤ chain_first (chain file) < 2 ^ 32;
}.

(** The set after the flush: new times, the lengths, the flags and the first
    cluster of the open file. *)
Definition flushed_set (ts : EncodedTimestamp) (c : Z) file s : dir_set := {|
  set_pos := set_pos s;
  set_file := checksummed c (stamp_file_entry ts (set_file s));
  set_stream := store_details (details file) (chain file) (set_stream s);
  set_names := set_names s |}.
End Spec.

(** * Lists of entries *)
Section Lists.
Context {cfg : Config} {crates : Crates} {bd : BlockDevice} {fu : Fuel}.
Context {Hcfg : ConfigOk cfg} {Hcr : CratesOk crates}.
Implicit Types (s : dir_set).

(** Other head entries for one set. *)
Lemma dir_sets_update es p l1 s l2 (e0 e1 : RawDirEntry) s' :
  dir_sets es p = Some (l1 ++ s :: l2) →
  entry_type e0 = EntryType.FileAndDirectory → entry_type e1 = EntryType.StreamExtension →
  FileDirEntry_from (E:=err) e0 = Ok (set_file s') → StreamExtensionDirEntry_from (E:=err) e1 = Ok (set_stream s') →
  set_name_length s' = set_name_length s → set_names s' = set_names s → set_pos s' = set_pos s →
  ∃ pre a b post, es = pre ++ a :: b :: post ∧ set_pos s = p + len pre ∧
    dir_sets (pre ++ e0 :: e1 :: post) p = Some (l1 ++ s' :: l2) ∧
    (ends_ok es → ends_ok (pre ++ e0 :: e1 :: post)).
Proof.
  intros Hl Ht0 Ht1 He0 He1 Hn Hnames Hpos.
  destruct (dir_sets_split es p l1 s l2 Hl) as (pre & e & rest & -> & Hpre & Hend & Hty & Hs & Hl2 & Htail).
  destruct (parse_set_Some _ _ _ _ Hs) as (st & ns & _ & Hst & Hsty & _ & Hpos0 & Hns & Hall & Hcount & Hnm & Hps).
  destruct rest as [|st' rest]; [done|]. injection Hst as ->. cbn [drop] in Hns. rewrite drop_0 in Hns.
  assert (Hne : ∀ x, entry_type x = EntryType.FileAndDirectory ∨ entry_type x = EntryType.StreamExtension → is_end x = false)
    by (intros x [Hx|Hx]; unfold is_end; rewrite Hx; by rewrite bool_decide_false).
  assert (Hb : ∀ x, entry_type x = EntryType.StreamExtension → Forall between [x])
    by (intros x Hx; constructor; [split; [by apply Hne; right|by rewrite Hx]|done]).
  exists pre, e, st, rest. split; [done|]. split; [done|]. split.
  - apply Htail; [unfold is_name; by rewrite Ht0|by rewrite Ht0|]. cbn [dir_sets].
    rewrite (Hne e0) by (by left). rewrite decide_True by done.
    assert (Hset : parse_set (p + len pre) e0 (e1 :: rest) = Some s').
    { unfold parse_set. rewrite He0. cbn [parsed mbind option_bind head]. rewrite decide_True by done. rewrite He1.
      cbn [parsed mbind option_bind drop]. rewrite drop_0. change (StreamExtensionDirEntry.name_length (set_stream s')) with (set_name_length s').
      rewrite Hn, <-Hns, Hall. rewrite (proj2 (Z.ltb_lt _ _)), bool_decide_true by done. cbn [andb].
      rewrite <-Hnm, <-Hnames, <-Hps, <-Hpos. by destruct s'. }
    rewrite Hset. cbn [mbind option_bind].
    pose proof (dir_sets_between [e1] rest (p + len pre + 1) (Hb e1 Ht1)) as H1.
    pose proof (dir_sets_between [st] rest (p + len pre + 1) (Hb st Hsty)) as H2.
    cbn [app] in H1, H2. rewrite Hl2 in H2. change (len [st]) with (len [e1]) in H2. rewrite <-H2 in H1.
    cbn [dir_sets] in H1. by rewrite H1.
  - intros Hends. apply (ends_ok_replace pre [e; st] [e0; e1] rest); [done| |done].
    constructor; [apply Hne; by left|constructor; [apply Hne; by right|done]].
Qed.
End Lists.

(** * On the volume *)
Section Volume.
Context {cfg : Config} {crates : Crates} {bd : BlockDevice} {fu : Fuel}.
Context {Hcfg : ConfigOk cfg} {Hcr : CratesOk crates} {Hbd : DeviceOk cfg bd}.
Implicit Types (f : FileSystem) (t : FileDirty) (file : File) (cl : list Z) (name : str) (s : dir_set).

Lemma dir_list_raw fl f cl l : vol_inv fl f → in_order fl f cl l → Forall raw_ok (dir_list fl f cl 0 (dir_len f cl)).
Proof.
  intros Hv Hio. apply Forall_fmap, Forall_forall. intros j Hj%elem_of_seqZ.
  apply (dir_at_raw fl f cl j Hv (dir_data _ _ _ (sb_dir _ _ _ _ (io_search _ _ _ _ Hio)))). lia.
Qed.

(** The head entries of one set were written. *)
Lemma update_set_ok fl f t cl l1 s l2 (e0 e1 : RawDirEntry) s' f' t' :
  vol_inv fl f → in_order fl f cl (l1 ++ s :: l2) → set_pos s mod EPC f + set_size s ≤ EPC f →
  entry_type e0 = EntryType.FileAndDirectory → entry_type e1 = EntryType.StreamExtension →
  FileDirEntry_from (E:=err) e0 = Ok (set_file s') → StreamExtensionDirEntry_from (E:=err) e1 = Ok (set_stream s') →
  set_name_length s' = set_name_length s → set_names s' = set_names s → set_pos s' = set_pos s →
  (hash_stored (upcase_table f) s → hash_stored (upcase_table f) s') →
  run_written fl f t (dir_cluster f cl (set_pos s)) (set_pos s mod EPC f) [e0; e1] f' t' →
  in_order fl f' cl (l1 ++ s' :: l2).
Proof.
  intros Hv Hio Hcap Ht0 Ht1 He0 He1 Hn Hnames Hposs Hhash Hw. pose proof Hio as [[Hdir Hne Hfuel Hl Hh] Hends Huniq].
  destruct (set_range fl f cl l1 s l2 Hv Hio) as [Hp0 Hpn]. set (p := set_pos s) in *.
  assert (Hs2 : 2 ≤ set_size s) by (unfold set_size; lia).
  destruct (dir_sets_update _ 0 l1 s l2 e0 e1 s' Hl Ht0 Ht1 He0 He1 Hn Hnames Hposs)
    as (pre & a & b & post & Hes & Hpos & Hl' & Hends'). fold p in Hpos.
  destruct (run_written_list fl f t cl p [e0; e1] f' t' Hv Hdir Hp0) as [Hold Hnew];
    [unfold len; cbn [length]; lia|unfold len; cbn [length]; lia|exact Hw|].
  change (len [e0; e1]) with 2 in Hold, Hnew. rewrite Hes in Hold.
  assert (Hpl : length pre = length (dir_list fl f cl 0 p))
    by (unfold dir_list; rewrite length_fmap, length_seqZ; unfold len in *; lia).
  apply app_inj_1 in Hold as [Hpre Hold]; [|done].
  change (a :: b :: post) with ([a; b] ++ post) in Hold.
  apply app_inj_1 in Hold as [_ Hpost]; [|unfold dir_list; rewrite length_fmap, length_seqZ; cbn [length]; lia].
  rewrite <-Hpre, <-Hpost in Hnew. pose proof (op_step _ _ _ _ _ _ (run_op _ _ _ _ _ _ _ _ Hw)) as Hst.
  assert (Hlen' : dir_len f' cl = dir_len f cl) by (unfold dir_len; by rewrite (EPC_step fl _ f f' Hst)).
  destruct (dir_cluster_ok fl f cl p Hv (dir_data _ _ _ Hdir)) as (_ & Hid & Hmm); [lia|].
  assert (Hfold : folded (upcase_table f) s' = folded (upcase_table f) s)
    by (unfold folded, set_units; by rewrite Hn, Hnames).
  split; [split|..].
  - eapply directory_written; [exact Hv|exact Hst| |done]. intros x Hx. change (len [e0; e1]) with 2 in Hx.
    eapply run_sectors_data; [exact Hid|apply Hmm| |exact Hx]. lia.
  - done.
  - by rewrite Hlen'.
  - by rewrite Hlen', Hnew.
  - rewrite (step_table _ _ _ _ Hst). apply Forall_app in Hh as [? [? ?]%Forall_cons]. apply Forall_app. split; [done|].
    constructor; [by apply Hhash|done].
  - rewrite Hlen', Hnew. by apply Hends'.
  - rewrite (step_table _ _ _ _ Hst). rewrite fmap_app, fmap_cons in Huniq |- *. by rewrite Hfold.
Qed.

(** The map before and after: other details for this name. *)
Lemma updated_map fl P f f' cl l1 s s' l2 name :
  vol_step fl P f f' → NoDup (folded (upcase_table f) <$> l1 ++ s :: l2) → same_name (upcase_table f) name s = true →
  set_units s' = set_units s →
  ∀ name' attributes, in_directory f' cl (l1 ++ s' :: l2) name' attributes =
    with_name (upcase_table f) name (details_of (place f cl) s') (in_directory f cl (l1 ++ s :: l2)) name' attributes.
Proof.
  intros Hst Hnd Hs%bool_decide_eq_true Hun name' attributes. unfold in_directory, with_name.
  rewrite (step_table _ _ _ _ Hst), !find_insert.
  assert (Hd : ∀ x, details_of (place f' cl) x = details_of (place f cl) x)
    by (intros x; unfold details_of; by rewrite (place_step fl _ f f' _ _ Hst)).
  assert (Hsame : same_name (upcase_table f) name' s' = same_name (upcase_table f) name' s)
    by (unfold same_name; by rewrite Hun).
  rewrite Hsame. destruct (eq_name (upcase_table f) name name') eqn:Heq.
  - apply bool_decide_eq_true in Heq.
    assert (Hy : same_name (upcase_table f) name' s = true) by (apply bool_decide_eq_true; congruence). rewrite Hy. cbn [andb].
    assert (Hno : ∀ ll, ll ⊆ l1 ++ l2 → List.find (λ x, same_name (upcase_table f) name' x && has_attributes attributes x) ll = None).
    { intros ll Hll. destruct (List.find _ ll) as [x|] eqn:Hx; [exfalso|done].
      apply find_some in Hx as [Hin [Hsn%bool_decide_eq_true _]%andb_true_iff]. rewrite fmap_app, fmap_cons in Hnd.
      rewrite <-Permutation_middle, <-fmap_app in Hnd. apply NoDup_cons in Hnd as [Hni _]. apply Hni.
      apply list_elem_of_fmap. exists x. split; [unfold folded; congruence|]. apply Hll. by apply list_elem_of_In. }
    rewrite (Hno l1) by (intros x Hx; apply elem_of_app; by left). rewrite (Hno (l1 ++ l2)) by done.
    unfold has_attributes. cbn [details_of FileDetails.attributes].
    destruct attributes as [w|]; [destruct (contains _ w); [|done]|]; cbn; by rewrite Hd.
  - assert (Hno : same_name (upcase_table f) name' s = false).
    { apply bool_decide_eq_false in Heq. apply bool_decide_eq_false. congruence. }
    rewrite Hno. cbn [andb]. by apply option_fmap_ext.
Qed.
End Volume.

(** * Flushing *)
Section Flush.
Context {cfg : Config} {crates : Crates} {bd : BlockDevice} {fu : Fuel}.
Context {Hcfg : ConfigOk cfg} {Hcr : CratesOk crates} {Hbd : DeviceOk cfg bd}.
Implicit Types (f : FileSystem) (t : FileDirty) (file : File) (cl : list Z) (name : str) (s : dir_set).

(** A file in a directory has the entry set [flush] asks for. *)
Lemma filed_entry_set fl f file cl l1 s l2 :
  vol_inv fl f → filed fl f file cl l1 s l2 →
  entry_set_at f (details file) (chain file) (dir_cluster f cl (set_pos s)) (set_pos s mod EPC f).
Proof.
  intros Hv [Hio Hcap Hloc Hcount Hflags Hlen Hfirst]. destruct (set_range fl f cl l1 s l2 Hv Hio) as [Hp0 Hpn].
  pose proof (dir_list_raw fl f cl _ Hv Hio) as Hraw.
  destruct (set_typed _ 0 l1 s l2 Hraw (sb_sets _ _ _ _ (io_search _ _ _ _ Hio))) as [_ (_ & Hnl & _)].
  destruct (dir_cluster_ok fl f cl (set_pos s) Hv (dir_data _ _ _ (sb_dir _ _ _ _ (io_search _ _ _ _ Hio)))) as (_ & Hid & Hm).
  { unfold set_size in *. lia. }
  assert (Hcn : 0 ≤ Z.of_nat (name_count (set_name_length s)) ≤ 17).
  { apply name_count_range. unfold set_name_length. unfold byte_ok in Hnl. lia. }
  split; [done|done|rewrite Hcount; unfold set_size; lia| |done..].
  rewrite Hcount. unfold EPC in *. lia.
Qed.

(** The two entries [flush] writes parse as the head of the flushed set. *)
Lemma flushed_entries fl f file cl l1 s l2 ts c :
  vol_inv fl f → filed fl f file cl l1 s l2 → encoded_typed ts → 0 ≤ c < 2 ^ 16 →
  let s' := flushed_set ts c file s in
  let e0 := FileDirEntry.serialize (set_file s') in let e1 := StreamExtensionDirEntry.serialize (set_stream s') in
  entry_type e0 = EntryType.FileAndDirectory ∧ entry_type e1 = EntryType.StreamExtension ∧
  FileDirEntry_from (E:=err) e0 = Ok (set_file s') ∧ StreamExtensionDirEntry_from (E:=err) e1 = Ok (set_stream s').
Proof.
  intros Hv Hfd Hts Hc s' e0 e1. pose proof (dir_list_raw fl f cl _ Hv (fd_order _ _ _ _ _ _ _ Hfd)) as Hraw.
  destruct (set_typed _ 0 l1 s l2 Hraw (sb_sets _ _ _ _ (io_search _ _ _ _ (fd_order _ _ _ _ _ _ _ Hfd)))) as [Hft Hst].
  split; [reflexivity|]. split; [reflexivity|]. split; [apply file_entry_roundtrip|apply stream_entry_roundtrip].
  - unfold encoded_typed, file_entry_typed, byte_ok in *. cbn. tauto.
  - destruct Hfd as [_ _ _ _ Hfl Hlen Hfirst]. destruct Hst as (_ & ? & ? & _). split; [exact Hfl|]. cbn. tauto.
Qed.

Lemma head_sectors_entries (s k x : Z) : head_sectors s k x → entry_sectors s k 2 x.
Proof. intros [-> | ->]; [exists k|exists (k + 1)]; split; done || lia. Qed.
(** The head entries of a set, on the volume. *)
Lemma set_heads fl f cl l1 s l2 :
  vol_inv fl f → in_order fl f cl (l1 ++ s :: l2) → set_pos s mod EPC f + set_size s ≤ EPC f →
  let x := cluster_sector f (dir_cluster f cl (set_pos s)) in let k := set_pos s mod EPC f in
  FileDirEntry_from (E:=err) (dir_entry fl f x k) = Ok (set_file s) ∧
  StreamExtensionDirEntry_from (E:=err) (dir_entry fl f x (k + 1)) = Ok (set_stream s) ∧
  entry_type (dir_entry fl f x k) = EntryType.FileAndDirectory.
Proof.
  intros Hv Hio Hcap x k. destruct (set_range fl f cl l1 s l2 Hv Hio) as [Hp0 Hpn].
  assert (Hs2 : 2 ≤ set_size s) by (unfold set_size; lia).
  destruct (dir_sets_split _ 0 l1 s l2 (sb_sets _ _ _ _ (io_search _ _ _ _ Hio)))
    as (pre & e & rest & Hes & _ & _ & Hety & Hs & _ & _).
  destruct (parse_set_Some _ _ _ _ Hs) as (st & ns & Hf & Hst & _ & Hstr & _ & _ & _ & _ & _ & Hpos).
  destruct rest as [|st' rest]; [done|]. injection Hst as ->. rewrite Z.add_0_l in Hpos.
  assert (Hat : ∀ (i : nat) y, (e :: st :: rest) !! i = Some y → Z.of_nat i < set_size s → y = dir_entry fl f x (k + Z.of_nat i)).
  { intros i y Hi Hlt. pose proof (dir_list_cluster fl f cl (set_pos s) (set_size s) Hv Hp0 Hcap) as Hrun.
    assert (Hl : dir_list fl f cl 0 (dir_len f cl) !! (length pre + i)%nat = Some y)
      by (rewrite Hes, lookup_app_r by lia; by replace (length pre + i - length pre)%nat with i by lia).
    unfold dir_list in Hl at 1. apply list_lookup_fmap_Some_1 in Hl as (q & -> & [-> Hq]%lookup_seqZ).
    assert (Hr : dir_list fl f cl (set_pos s) (set_size s) !! i = Some (dir_at fl f cl (set_pos s + Z.of_nat i)))
      by (unfold dir_list; rewrite list_lookup_fmap, lookup_seqZ_lt by lia; done).
    rewrite Hrun in Hr. unfold set_entries in Hr. rewrite list_lookup_fmap, lookup_seqZ_lt in Hr by lia. injection Hr as Hr.
    unfold len in Hpos. fold x k in Hr. rewrite Hr. f_equal. lia. }
  assert (H1 : st = dir_entry fl f x (k + 1)) by (apply (Hat 1%nat); [done|lia]).
  assert (H0 : e = dir_entry fl f x (k + 0)) by (apply (Hat 0%nat); [done|lia]). rewrite Z.add_0_r in H0.
  rewrite <-H0, <-H1.
  unfold parsed in Hf, Hstr. split_and!; [| |done].
  - destruct (FileDirEntry_from e); simplify_eq; done.
  - destruct (StreamExtensionDirEntry_from st); simplify_eq; done.
Qed.

Lemma flush_changes_set fl f file cl l1 s l2 :
  vol_inv fl f → dirty_ok (touched file) → clock_ok f → filed fl f file cl l1 s l2 →
  is_dir_entry_dirty (touched file) = true →
  ∃ ts c f' t', File.flush (file, f) = zoom ltouched FileDirty_flush (set_touched t' file, f') ∧
    encoded_typed ts ∧ in_order fl f' cl (l1 ++ flushed_set ts c file s :: l2) ∧
    vol_op fl (head_sectors (cluster_sector f (dir_cluster f cl (set_pos s))) (set_pos s mod EPC f)) (touched file) f t' f'.
Proof.
  intros Hv Ht Hc Hfd Hdirty. pose proof Hfd as [Hio Hcap _ Hcount _ _ _].
  destruct (flush_stored_ok fl f file _ _ Hv Ht Hc (filed_entry_set fl f file cl l1 s l2 Hv Hfd) Hdirty)
    as (ts & e0 & e1 & f' & t' & Hrun & Hts & He0 & He1 & _ & Hset & Hkept & Hop).
  destruct (set_heads fl f cl l1 s l2 Hv Hio Hcap) as (Hh0 & Hh1 & _). rewrite Hh0 in He0. rewrite Hh1 in He1.
  injection He0 as <-. injection He1 as <-. set (x := cluster_sector f _) in *. set (k := set_pos s mod EPC f) in *.
  set (names := set_entries fl f x (k + 2) _) in Hset. unfold stored_set in Hset.
  set (c := spec_checksum _) in Hset. assert (Hc16 : 0 ≤ c < 2 ^ 16) by apply spec_checksum_range.
  unfold new_file_entry in Hset. rewrite with_checksum_serialize in Hset.
  exists ts, c, f', t'. split; [done|]. split; [done|]. split; [|done].
  destruct (flushed_entries fl f file cl l1 s l2 ts c Hv Hfd Hts Hc16) as (Ht0 & Ht1 & Hp0 & Hp1).
  assert (Hs2 : 2 ≤ set_size s) by (unfold set_size; lia).
  apply (update_set_ok fl f (touched file) cl l1 s l2 _ _ (flushed_set ts c file s) f' t' Hv Hio Hcap Ht0 Ht1 Hp0 Hp1);
    [reflexivity..|intros Hh; exact Hh|].
  split; fold x k; change (len [_; _]) with 2.
  - eapply vol_op_weaken; [|exact Hop]. intros y. apply head_sectors_entries.
  - rewrite (set_entries_cons fl f' x k), (set_entries_cons fl f' x (k + 1)) in Hset |- * by lia.
    injection Hset as -> -> _. done.
  - done.
Qed.
End Flush.

(** * Theorems *)
Section Theorems.
Context {cfg : Config} {crates : Crates} {bd : BlockDevice} {fu : Fuel}.
Context {Hcfg : ConfigOk cfg} {Hcr : CratesOk crates} {Hbd : DeviceOk cfg bd}.
Implicit Types (f : FileSystem) (file : File) (cl : list Z) (name : str) (s : dir_set).

Lemma flush_filed_ok fl f file cl l1 s l2 :
  vol_inv fl f → touched_ok fl f (touched file) → clock_ok f → filed fl f file cl l1 s l2 →
  is_dir_entry_dirty (touched file) = true →
  ∃ ts c f', let s' := flushed_set ts c file s in
    File.flush (file, f) = ((set_touched FileDirty_new file, f'), Ok ()) ∧ vol_inv fl f' ∧
    encoded_typed ts ∧ in_order fl f' cl (l1 ++ s' :: l2) ∧
    (∀ name, same_name (upcase_table f) name s = true → ∀ name' attributes,
       in_directory f' cl (l1 ++ s' :: l2) name' attributes =
       with_name (upcase_table f) name (details_of (place f cl) s') (in_directory f cl (l1 ++ s :: l2)) name' attributes) ∧
    vol_step fl (head_sectors (cluster_sector f (dir_cluster f cl (set_pos s))) (set_pos s mod EPC f)) f f' ∧
    (tracked fl (touched file) f → ∀ x, in_volume fl f x → durable fl f' x).
Proof.
  intros Hv Htok Hc Hfd Hdirty.
  destruct (flush_changes_set fl f file cl l1 s l2 Hv (proj1 Htok) Hc Hfd Hdirty) as (ts & c & f1 & t1 & Hrun & Hts & Hio1 & Hop).
  pose proof (op_step _ _ _ _ _ _ Hop) as Hst1. pose proof (op_inv _ _ _ _ _ _ Hop) as Hv1.
  destruct (FileDirty_flush_ok fl f1 t1 Hv1 (vol_op_touched _ _ _ _ _ _ Hop Htok)) as (f' & Hfl & Hv' & Hst & Hdur).
  pose proof (vol_step_trans fl _ f f1 f' Hst1 (vol_same_step fl _ f1 f' Hst)) as Hstep.
  exists ts, c, f'. split; [rewrite Hrun; by eapply zoom_to|]. split_and!; [done|done|by apply (in_order_same fl f1)| |done|].
  - intros name Hn name' attributes. by apply (updated_map fl _ f f' cl l1 s _ l2 name Hstep (io_unique _ _ _ _ (fd_order _ _ _ _ _ _ _ Hfd))).
  - intros Htr x Hx. pose proof (proj2 (in_volume_step fl _ f f1 x Hst1) Hx) as Hx1.
    destruct (vol_op_tracked _ _ _ _ _ _ Hop Htr x Hx1) as [Hd|Hr]; [|by apply Hdur].
    by apply (step_durable _ _ _ _ Hst); [done|tauto|].
Qed.

(** C20 - flushing an open file whose directory entry is dirty: the directory, as
    a map from names (up to case) to details, gets for the name of the file the
    lengths, the flags and the first cluster of the open file, with the times
    of the flush, and keeps every other name as it was; its sets stay in order,
    only sectors of the first two entries of the set change, and everything the
    operations on the file recorded is on the device. *)
Theorem flush_updates_details fl f file cl l1 s l2 name :
  vol_inv fl f → touched_ok fl f (touched file) → clock_ok f → filed fl f file cl l1 s l2 →
  is_dir_entry_dirty (touched file) = true → same_name (upcase_table f) name s = true →
  ∃ f' l' d, File.flush (file, f) = ((set_touched FileDirty_new file, f'), Ok ()) ∧ vol_inv fl f' ∧
    in_order fl f' cl l' ∧
    (∀ name' attributes, in_directory f' cl l' name' attributes =
       with_name (upcase_table f) name d (in_directory f cl (l1 ++ s :: l2)) name' attributes) ∧
    FileDetails.data_length d = FileDetails.data_length (details file) ∧
    FileDetails.valid_data_length d = FileDetails.valid_data_length (details file) ∧
    FileDetails.flags d = FileDetails.flags (details file) ∧ FileDetails.first_cluster d = chain_first (chain file) ∧
    FileDetails.attributes d = FileDirEntry.file_attributes (set_file s) ∧
    FileDetails.location d = FileDetails.location (details file) ∧
    vol_step fl (head_sectors (cluster_sector f (dir_cluster f cl (set_pos s))) (set_pos s mod EPC f)) f f' ∧
    (tracked fl (touched file) f → ∀ x, in_volume fl f x → durable fl f' x).
Proof.
  intros Hv Htok Hc Hfd Hdirty Hn.
  destruct (flush_filed_ok fl f file cl l1 s l2 Hv Htok Hc Hfd Hdirty)
    as (ts & c & f' & Hrun & Hv' & _ & Hio & Hmap & Hstep & Hdur).
  exists f'. eexists. exists (details_of (place f cl) (flushed_set ts c file s)).
  split; [done|]. split; [done|]. split; [exact Hio|]. split; [by apply Hmap|]. split_and!; try done.
  by rewrite (fd_location _ _ _ _ _ _ _ Hfd).
Qed.
End Theorems.

(** * Flushing an open file of the sample directory *)
Section Sample.
#[local] Existing Instance debug_build.
#[local] Existing Instance dummy_device.
#[local] Existing Instance reference_crates.
#[local] Existing Instance reference_crates_ok.
#[local] Existing Instance debug_build_ok.
#[local] Instance sample_update_device_ok : DeviceOk debug_build dummy_device := blank_ok.
#[local] Instance sample_update_fuel : Fuel := 40%nat.

(** The crab file, open, after a write has made it 900 bytes long. *)
Definition crab_file : File := {|
  details := {| FileDetails.first_cluster := 6; FileDetails.data_length := 900;
    FileDetails.valid_data_length := 900; FileDetails.attributes := Archive;
    FileDetails.location := place sample_dir_volume [3; 7] (set_pos sample_crab);
    FileDetails.flags := AllocationPossible; FileDetails.secondary_count := 2;
    FileDetails.created := EncodedTimestamp_default; FileDetails.modified := EncodedTimestamp_default;
    FileDetails.accessed := EncodedTimestamp_default |};
  current_cluster := 8; remaining_bytes_in_cluster := 124; cursor := 900;
  open_options := OpenOptions.set_write true OpenOptions.new;
  chain := FatChain 6 8 2; touched := set_dir_entry_dirty true FileDirty_new |}.

Lemma crab_filed : filed 1 sample_dir_volume crab_file [3; 7] [] sample_crab (tail sample_sets).
Proof.
  split.
  - rewrite <-sample_sets_eq. exact sample_in_order.
  - vm_compute. congruence.
  - reflexivity.
  - vm_compute. reflexivity.
  - unfold byte_ok. vm_compute. repeat split; congruence.
  - cbn. lia.
  - cbn. lia.
Qed.

Lemma flush_updates_details_witness :
  ∃ f' l', File.flush (crab_file, sample_dir_volume) = ((set_touched FileDirty_new crab_file, f'), Ok ()) ∧
    FileDetails.data_length <$> in_directory f' [3; 7] l' (of_string "CRAB.txt") None = Some 900 ∧
    FileDetails.first_cluster <$> in_directory f' [3; 7] l' (of_string "crab.TXT") None = Some 6 ∧
    FileDetails.first_cluster <$> in_directory f' [3; 7] l' (of_string "ferris is a crab.txt") None = Some 5.
Proof.
  destruct (flush_updates_details 1 sample_dir_volume crab_file [3; 7] [] sample_crab (tail sample_sets) (of_string "crab.txt")
    sample_dir_inv) as (f' & l' & d & Hrun & _ & _ & Hmap & Hd & _ & _ & Hf & _).
  - split; [split; repeat constructor|apply Forall_nil_2].
  - exact I.
  - exact crab_filed.
  - reflexivity.
  - vm_compute. reflexivity.
  - exists f', l'. split; [exact Hrun|]. rewrite !Hmap. cbn in Hd, Hf. clear Hrun Hmap.
    assert (Hw : ∀ name, eq_name (upcase_table sample_dir_volume) (of_string "crab.txt") name = true →
      with_name (upcase_table sample_dir_volume) (of_string "crab.txt") d
        (in_directory sample_dir_volume [3; 7] ([] ++ sample_crab :: tail sample_sets)) name None = Some d)
      by (intros name Hn; unfold with_name; by rewrite Hn).
    rewrite !Hw by (vm_compute; reflexivity). cbn [fmap option_fmap option_map]. rewrite Hd, Hf.
    split_and!; [reflexivity..|vm_compute; reflexivity].
Defined.
End Sample.
