(* ===== verification/Truncate.v ===== *)
(** * Truncating a file

    [truncate_file] of src/file_system.rs: the stream extension of the file
    gets length 0 and no first cluster, the set its new checksum, and the
    clusters are released. *)

From S2P Require Import Prelude Text Crates Errors Utils Timestamp BootSector Device SlotCache Touched Fat Allocation AllocationSearch Regions Volume VolumeInv VolumeAlloc DirectoryEntry Directory FileSystem File FileRead FileGrow FreeChain FileWrite Api FileOpen DirSets FileFlush DirWalk DirFree DirLookup PathLookup DirCreate DirInsert DirRemove PathCreate DirUpdate.
Import FileSystemDetails (cluster_length, sectors_per_cluster).

(** * Specification *)
Section Spec.
Context {cfg : Config} {crates : Crates} {bd : BlockDevice} {fu : Fuel} {Hbd : DeviceOk cfg bd}.
Implicit Types (f : FileSystem) (cl fcl : list Z) (s : dir_set) (d : FileDetails.t).

(** The details [truncate_file] answers with. *)
Definition emptied d : FileDetails.t := {|
  FileDetails.attributes := FileDetails.attributes d;
  FileDetails.data_length := 0;
  FileDetails.valid_data_length := Z.min (FileDetails.valid_data_length d) 0;
  FileDetails.first_cluster := NO_CLUSTER_ID;
  FileDetails.flags := FileDetails.flags d;
  FileDetails.location := FileDetails.location d;
  FileDetails.secondary_count := FileDetails.secondary_count d;
  FileDetails.accessed := FileDetails.accessed d;
  FileDetails.modified := FileDetails.modified d;
  FileDetails.created := FileDetails.created d |}.

(** The set after truncating. *)
Definition emptied_set (c : Z) d s : dir_set := {|
  set_pos := set_pos s;
  set_file := checksummed c (set_file s);
  set_stream := store_details (emptied d) Empty (set_stream s);
  set_names := set_names s |}.

(** The sectors of the tables and of the two entries that are rewritten. *)
Definition truncate_sectors (fl : Z) f cl s (x : Z) : Prop :=
  table_region fl f x ∨
  head_sectors (cluster_sector f (dir_cluster f cl (set_pos s))) (set_pos s mod EPC f) x.

(** What [truncate_file] leaves behind: the set is replaced, it holds its own
    checksum, and the clusters [fcl] are free. *)
Record truncated (fl : Z) f cl l1 s l2 fcl f' : Prop := {
  trunc_inv : vol_inv fl f';
  trunc_step : vol_step fl (truncate_sectors fl f cl s) f f';
  trunc_order : ∃ c, in_order fl f' cl (l1 ++ emptied_set c (details_of (place f cl) s) s :: l2);
  trunc_checksum : checksum_ok (set_entries fl f' (cluster_sector f (dir_cluster f cl (set_pos s)))
    (set_pos s mod EPC f) (set_size s));
  trunc_tables : ∃ c, chain_clusters fl f c fcl ∧ ∀ k, cluster_ok f k →
    is_allocated fl f' k = (if decide (k ∈ fcl) then false else is_allocated fl f k) ∧
    fat_entry fl f' k = (if decide (k ∈ chained c fcl) then NO_CLUSTER_ID else fat_entry fl f k);
  trunc_durable : stays_durable fl f f';
}.
End Spec.

(** * The entries *)
Section Entries.
Context {cfg : Config} {crates : Crates} {bd : BlockDevice} {fu : Fuel}.
Context {Hcfg : ConfigOk cfg} {Hcr : CratesOk crates} {Hbd : DeviceOk cfg bd}.
Implicit Types (f : FileSystem) (t : FileDirty) (d : FileDetails.t) (k : Z).

(** Storing a checksum in a raw file entry changes its checksum. *)
Lemma with_checksum_parsed (e : RawDirEntry) c fe :
  raw_ok e → 0 ≤ c < 2 ^ 16 → FileDirEntry_from (E:=err) e = Ok fe →
  FileDirEntry_from (E:=err) (with_checksum e c) = Ok (checksummed c fe) ∧ entry_type (with_checksum e c) = entry_type e.
Proof.
  intros Hraw Hc. destruct (raw_ok_explicit e Hraw) as (b0 & b1 & b2 & b3 & b4 & b5 & b6 & b7 & b8 &
    b9 & b10 & b11 & b12 & b13 & b14 & b15 & b16 & b17 & b18 & b19 & b20 & b21 & b22 & b23 & b24 &
    b25 & b26 & b27 & b28 & b29 & b30 & b31 & ->).
  rewrite FileDirEntry_from_bytes. intros [= <-].
  assert (Hl : ∃ x y, to_le_bytes 2 c = [x; y]) by (eexists _, _; reflexivity). destruct Hl as (x & y & Hl).
  unfold with_checksum. rewrite Hl. split; [|reflexivity].
  etransitivity; [apply FileDirEntry_from_bytes|]. rewrite <-Hl, from_to_le_bytes_small by (cbn; lia). reflexivity.
Qed.

(** From the third entry on, and on the second one as long as the flags are the
    ones of the details, the loop does what the loop of [flush] does. *)
Lemma truncate_names_loop (n : nat) d : ∀ i fd s, 2 ≤ i →
  truncate_loop n d i fd s = flush_loop n d Empty i fd s.
Proof.
  induction n as [|n IH]; intros i fd s Hi; [done|]. cbn [truncate_loop flush_loop].
  apply bind_ext. intros [[e loc]|] s1; [|done].
  rewrite (proj2 (Z.eqb_neq i 0)), (proj2 (Z.eqb_neq i 1)) by lia.
  apply bind_ext. intros fd' s2. apply IH. lia.
Qed.
Lemma truncate_stream_loop (n : nat) fl f t d id k c w fd e :
  vol_inv fl f → data_cluster f id → chain_at_entry fl f id k c → Chain.num_entries c ≠ Some (Chain.cursor c) →
  0 ≤ Chain.cursor c < 2 ^ 31 → 0 ≤ k < EPS * sectors_per_cluster (fs f) →
  StreamExtensionDirEntry_from (E:=err) (dir_entry fl f (cluster_sector f id) k) = Ok e →
  FileDetails.flags d = StreamExtensionDirEntry.general_secondary_flags e → FileDetails.first_cluster d = NO_CLUSTER_ID →
  truncate_loop (S n) d 1 fd (c, (w, (t, f))) = flush_loop (S n) d Empty 1 fd (c, (w, (t, f))).
Proof.
  intros Hv Hid Hat Hnum Hcur Hk He Hfl Hfirst.
  destruct (next_entry_ok fl f id k c Hv Hid Hat Hnum) as (c1 & f1 & Hn & _); [lia|lia|].
  cbn [truncate_loop flush_loop]. rewrite !(bind_Ok _ _ _ _ _ (lchain_next c w t f c1 f1 _ Hn)). cbv iota beta.
  change (1 =? 0) with false. change (1 =? 1) with true. cbv iota. rewrite !bind_assoc, He, !bind_lift_Ok.
  unfold store_details. rewrite Hfl, Hfirst. cbn [chain_first]. rewrite !bind_assoc. apply bind_ext. intros ? s1.
  erewrite !bind_Ok by reflexivity. apply truncate_names_loop. lia.
Qed.

(** What was written stays through a step that changes nothing. *)
Lemma entry_written_same fl f t id k e f1 t1 f' :
  data_cluster f id → 0 ≤ k < EPS * sectors_per_cluster (fs f) → vol_inv fl f' → vol_same fl f1 f' →
  entry_written fl f t id k e f1 t1 → entry_written fl f t id k e f' t1.
Proof.
  intros Hid Hk Hv Hst [Hop He Hkept]. pose proof (op_step _ _ _ _ _ _ Hop) as Hst1. split.
  - eapply vol_op_trans; [exact Hop|]. apply vol_op_same; [done|done|apply (op_tracks _ _ _ _ _ _ Hop)].
  - rewrite <-He. apply (entries_kept_same fl f1 _ 0 0 f' Hst); [lia|lia|].
    apply (data_region_step fl _ f f1 _ Hst1). by apply cluster_entry_region.
  - apply (entries_kept_trans fl _ f f1 f' _ _ _ Hst1 Hkept). by apply entries_kept_same.
Qed.

(** The first round passes the file entry. *)
Lemma truncate_file_entry_ok (n : nat) fl f t d id k c :
  vol_inv fl f → data_cluster f id → chain_at_entry fl f id k c → Chain.cursor c = 0 → Chain.num_entries c ≠ Some 0 →
  0 ≤ k < EPS * sectors_per_cluster (fs f) →
  let s := cluster_sector f id in let e0 := dir_entry fl f s k in
  ∃ c' f', truncate_loop (S n) d 0 None (c, (writer_at s k k 0, (t, f))) =
      truncate_loop n d 1 (Some e0) (c', (writer_at s k (k + 1) (calc_checksum e0 true 0), (t, f'))) ∧
    vol_inv fl f' ∧ vol_same fl f f' ∧ chain_at_entry fl f' id (k + 1) c' ∧ Chain.cursor c' = 1 ∧
    Chain.num_entries c' = Chain.num_entries c.
Proof.
  intros Hv Hid Hat Hcur Hnum Hk s e0.
  destruct (next_entry_ok fl f id k c Hv Hid Hat) as (c1 & f1 & Hn & Hv1 & Hst1 & Hat1 & Hcur1 & Hnum1);
    [by rewrite Hcur|lia|lia|]. fold s e0 in Hn.
  assert (Hd : data_region f (s + k / EPS)) by (apply cluster_entry_region; [done|lia]).
  exists c1, f1. split; [|split_and!; [done..|lia|done]].
  cbn [truncate_loop]. rewrite (bind_Ok _ _ _ _ _ (lchain_next c _ t f c1 f1 _ Hn)).
  change (0 =? 0) with true. cbv iota beta. rewrite bind_assoc.
  rewrite (bind_Ok _ _ _ (c1, (writer_at s k (k + 1) (calc_checksum e0 true 0), (t, f1))) ()); [done|].
  eapply zoom_to; [apply add_no_write_ok; [by apply (cluster_sector_pos fl f id Hv), Hid|lia|by apply (data_sector_range fl f)]|done].
Qed.

(** The loop of [truncate_file]. *)
Lemma truncate_set_ok fl f t d id k c e :
  vol_inv fl f → dirty_ok t → entry_set_at f d Empty id k → FileDetails.first_cluster d = NO_CLUSTER_ID →
  let s := cluster_sector f id in
  StreamExtensionDirEntry_from (E:=err) (dir_entry fl f s (k + 1)) = Ok e →
  FileDetails.flags d = StreamExtensionDirEntry.general_secondary_flags e →
  chain_at_entry fl f id k c → Chain.cursor c = 0 → Chain.num_entries c = Some (FileDetails.secondary_count d + 1) →
  let e0 := dir_entry fl f s k in let e1 := new_stream_entry d Empty e in
  ∃ f' t' c' k', truncate_loop ENTRY_ROUNDS d 0 None (c, (writer_at s k k 0, (t, f))) =
      ((c', (writer_at s k k' (spec_checksum (e0 ++ concat (e1 :: set_entries fl f s (k + 2) (FileDetails.secondary_count d - 1)))),
        (t', f'))), Ok (Some e0)) ∧
    entry_written fl f t id (k + 1) e1 f' t' ∧ raw_ok e0.
Proof.
  intros Hv Ht Hset Hfirst s He Hfl Hat Hcur Hnum e0 e1. destruct (FileFlush.set_count _ _ _ _ _ Hset) as [Hm1 Hm2].
  destruct (set_fits _ _ _ _ _ Hset) as [Hk Hfit]. pose proof (set_cluster _ _ _ _ _ Hset) as Hid.
  assert (Hraw : raw_ok e0) by (apply dir_entry_raw; [done|done|lia]).
  destruct (truncate_file_entry_ok 256 fl f t d id k c Hv Hid Hat Hcur) as (c1 & f1 & Hrun1 & Hv1 & Hst1 & Hat1 & Hcur1 & Hnum1);
    [rewrite Hnum; intros [=]; lia|lia|]. fold s e0 in Hrun1. pose proof (step_fs _ _ _ _ Hst1) as Hfs1.
  assert (Hcs1 : cluster_sector f1 id = s) by (unfold s, cluster_sector; by rewrite Hfs1).
  assert (Hid1 : data_cluster f1 id) by (by apply (data_cluster_step fl (λ _, False) f f1)).
  pose proof (entry_set_step fl _ f f1 d Empty id k Hst1 Hset) as Hset1.
  assert (He1 : StreamExtensionDirEntry_from (E:=err) (dir_entry fl f1 s (k + 1)) = Ok e).
  { rewrite <-He. f_equal. apply (entries_kept_same fl f s 0 0 f1 Hst1); [lia|lia|]. apply cluster_entry_region; [done|lia]. }
  destruct (flush_stream_entry_ok 255 fl f1 t d Empty id k (k + 1) c1 (calc_checksum e0 true 0) (Some e0) Hv1 Ht Hset1)
    as (e' & c2 & f2 & t2 & He' & _ & Hrun2 & Hw2 & Hat2 & Hcur2 & Hnum2);
    [rewrite Hfs1; lia|done|done|rewrite Hnum1, Hnum; intros [=]; lia|].
  rewrite Hcs1 in He', Hrun2. rewrite He1 in He'. injection He' as <-. fold (new_stream_entry d Empty e) e1 in Hrun2, Hw2.
  apply (entry_written_after fl f f1) in Hw2; [|done..]. pose proof (written_op _ _ _ _ _ _ _ _ Hw2) as Hop2.
  pose proof (op_step _ _ _ _ _ _ Hop2) as Hst2. pose proof (step_fs _ _ _ _ Hst2) as Hfs2.
  replace (k + 1 + 1) with (k + 2) in * by lia.
  destruct (flush_names_ok fl d Empty id (Some e0) s k (Z.to_nat (FileDetails.secondary_count d - 1))
      255 f2 t2 c2 (k + 2) (calc_checksum e1 false (calc_checksum e0 true 0)) 2 (op_inv _ _ _ _ _ _ Hop2))
    as (c3 & f3 & Hrun3 & Hv3 & Hst3);
    [by apply (data_cluster_step fl _ f f2 id Hst2)|unfold s, cluster_sector; by rewrite Hfs2|done|done|
     rewrite Hnum2, Hnum1, Hnum; f_equal; lia|lia|lia|lia|lia|rewrite Hfs2; lia|].
  exists f3, t2, c3, (k + 2 + Z.of_nat (Z.to_nat (FileDetails.secondary_count d - 1))).
  split; [|split; [apply (entry_written_same fl f t id (k + 1) e1 f2); done || lia|done]].
  change ENTRY_ROUNDS with (S 256). rewrite Hrun1. change 256%nat with (S 255).
  rewrite (truncate_stream_loop 255 fl f1 t d id (k + 1) c1 _ _ e);
    [|done|done|done|rewrite Hnum1, Hnum; intros [=]; lia|lia|rewrite Hfs1; lia|by rewrite Hcs1|done|done].
  rewrite Hrun2, Hrun3, Z2Nat.id by lia.
  assert (Hns : set_entries fl f2 s (k + 2) (FileDetails.secondary_count d - 1) =
      set_entries fl f s (k + 2) (FileDetails.secondary_count d - 1))
    by (apply (set_entries_kept fl f f2 id (k + 1) 1); [apply Hw2|done|lia|lia|lia]).
  rewrite Hns, <-set_checksum_ok by (destruct Hraw as [-> _]; lia). by rewrite fold_left_cons.
Qed.
End Entries.

(** * The set of the file *)
Section Changes.
Context {cfg : Config} {crates : Crates} {bd : BlockDevice} {fu : Fuel}.
Context {Hcfg : ConfigOk cfg} {Hcr : CratesOk crates} {Hbd : DeviceOk cfg bd}.
Implicit Types (f : FileSystem) (t : FileDirty) (cl : list Z) (s : dir_set) (d : FileDetails.t).

(** Storing the set: the part of [truncate_file] before the clusters are freed. *)
Definition store_emptied d : M (FileDirty * FileSystem) err () :=
  f ← gets (fs ∘ snd);
  chain ← lift (chain_new_from_file_details (emptied d) f);
  with_local (DirSetWriter.new (FileDetails.location (emptied d)))
    (r ← with_local chain (truncate_loop ENTRY_ROUNDS (emptied d) 0 None);
     match snd r with
     | Some file_dir => finish file_dir
     | None => mret ()
     end) ;;
  mret ().

Lemma truncate_file_eq d f :
  truncate_file d 0 f =
  (stored_chain ← get_stored_chain d;
   with_local FileDirty_new (store_emptied d ;; zoom (with_touched lfree) (free stored_chain) ;; FileDirty_flush) ;;
   mret (emptied d)) f.
Proof.
  unfold truncate_file. change (0 <? 0) with false. cbv iota. apply bind_ext. intros c f1.
  apply with_local_ext.
  unfold store_emptied. rewrite bind_assoc. apply bind_ext. intros d0 s0. rewrite bind_assoc.
  apply bind_ext. intros ch s1. rewrite bind_assoc. apply bind_ext. intros r s2. done.
Qed.

(** The details of a set suit their fields. *)
Lemma emptied_entry_set fl f cl l1 s l2 :
  vol_inv fl f → in_order fl f cl (l1 ++ s :: l2) → FileDirEntry.secondary_count (set_file s) = set_size s - 1 →
  set_pos s mod EPC f + set_size s ≤ EPC f →
  entry_set_at f (emptied (details_of (place f cl) s)) Empty (dir_cluster f cl (set_pos s)) (set_pos s mod EPC f).
Proof.
  intros Hv Hio Hcount Hcap. destruct (set_range fl f cl l1 s l2 Hv Hio) as [Hp0 Hpn].
  pose proof (dir_list_raw fl f cl _ Hv Hio) as Hraw.
  destruct (set_typed _ 0 l1 s l2 Hraw (sb_sets _ _ _ _ (io_search _ _ _ _ Hio))) as [_ ([Hf1 Hf2] & Hnl & _ & Hvd & _)].
  destruct (dir_cluster_ok fl f cl (set_pos s) Hv (dir_data _ _ _ (sb_dir _ _ _ _ (io_search _ _ _ _ Hio)))) as (_ & Hid & Hm).
  { unfold set_size in *. lia. }
  assert (Hcn : 0 ≤ Z.of_nat (name_count (set_name_length s)) ≤ 17).
  { apply name_count_range. unfold set_name_length. unfold byte_ok in Hnl. lia. }
  split; cbn [emptied details_of FileDetails.location FileDetails.secondary_count FileDetails.flags
    FileDetails.valid_data_length FileDetails.data_length chain_first]; rewrite ?Hcount.
  - done.
  - done.
  - unfold set_size. lia.
  - unfold EPC in *. lia.
  - done.
  - lia.
  - unfold NO_CLUSTER_ID. lia.
Qed.

Lemma store_emptied_ok fl f t cl l1 s l2 :
  vol_inv fl f → dirty_ok t → in_order fl f cl (l1 ++ s :: l2) →
  FileDirEntry.secondary_count (set_file s) = set_size s - 1 → set_pos s mod EPC f + set_size s ≤ EPC f →
  let d := details_of (place f cl) s in let id := dir_cluster f cl (set_pos s) in let k := set_pos s mod EPC f in
  ∃ c f' t' e0 e1, store_emptied d (t, f) = ((t', f'), Ok ()) ∧
    vol_op fl (head_sectors (cluster_sector f id) k) t f t' f' ∧ in_order fl f' cl (l1 ++ emptied_set c d s :: l2) ∧
    set_entries fl f' (cluster_sector f id) k (set_size s) =
      stored_set e0 e1 (set_entries fl f (cluster_sector f id) (k + 2) (set_size s - 2)) ∧ raw_ok e0.
Proof.
  intros Hv Ht Hio Hcount Hcap d id k. destruct (set_heads fl f cl l1 s l2 Hv Hio Hcap) as (Hh0 & Hh1 & Hety).
  fold id k in Hh0, Hh1, Hety. set (x := cluster_sector f id) in *.
  pose proof (emptied_entry_set fl f cl l1 s l2 Hv Hio Hcount Hcap) as Hset. fold d id k in Hset.
  pose proof (set_cluster _ _ _ _ _ Hset) as Hid. destruct (set_fits _ _ _ _ _ Hset) as [Hk Hfit].
  destruct (entry_set_chain fl f (emptied d) Empty id k Hv Hset) as (ch & Hch & Hat & Hcur & Hnum).
  destruct (truncate_set_ok fl f t (emptied d) id k ch (set_stream s) Hv Ht Hset) as (f1 & t1 & ch' & k' & Hrun & Hw & Hraw); [done..|].
  fold x in Hrun, Hw, Hraw. set (e1 := new_stream_entry (emptied d) Empty (set_stream s)) in *. set (e0 := dir_entry fl f x k) in *.
  assert (Hsc : FileDetails.secondary_count (emptied d) = set_size s - 1) by exact Hcount. rewrite Hsc in Hrun, Hfit.
  assert (Hs2 : 2 ≤ set_size s) by (unfold set_size; lia). replace (set_size s - 1 - 1) with (set_size s - 2) in Hrun by lia.
  set (names := set_entries fl f x (k + 2) (set_size s - 2)) in *. set (c := spec_checksum _) in Hrun.
  pose proof (written_op _ _ _ _ _ _ _ _ Hw) as Hop1. pose proof (op_step _ _ _ _ _ _ Hop1) as Hst1.
  destruct (finish_ok fl f1 t1 x k k' c e0 (op_inv _ _ _ _ _ _ Hop1) (proj1 (op_tracks _ _ _ _ _ _ Hop1)))
    as (f2 & t2 & Hfin & Hop2 & He0 & Hk2); [|done|].
  { apply (data_region_step fl _ f f1 _ Hst1). apply cluster_entry_region; [done|lia]. }
  assert (Hop : vol_op fl (head_sectors x k) t f t2 f2).
  { eapply vol_op_trans; (eapply vol_op_weaken; [|eassumption]); [by right|by left]. }
  assert (He1 : dir_entry fl f2 x (k + 1) = e1).
  { rewrite <-(written_entry _ _ _ _ _ _ _ _ Hw). apply Hk2; [lia|lia|].
    apply (data_region_step fl _ f f1 _ Hst1). apply cluster_entry_region; [done|lia]. }
  assert (Hkept : entries_kept fl f x k 2 f2).
  { eapply entries_kept_trans; [exact Hst1| |].
    - eapply (entries_kept_weaken fl f x (k + 1) 1 k 2); [lia|lia|apply Hw].
    - eapply entries_kept_weaken; [| |exact Hk2]; lia. }
  exists c, f2, t2, e0, e1. split; [|split; [done|split; [|split; [|done]]]].
  - unfold store_emptied. rewrite (bind_Ok _ _ _ (t, f) (fs f)) by done. rewrite Hch, bind_lift_Ok.
    rewrite (bind_Ok _ _ _ (t2, f2) (writer_at x k k' c, ())); [done|]. apply (with_local_eq _ _ _ _ _ (Ok ())).
    change (DirSetWriter.new (FileDetails.location (emptied d))) with (writer_at x k k 0).
    rewrite (bind_Ok _ _ _ _ _ (with_local_eq ch _ _ _ _ _ Hrun)). exact Hfin.
  - assert (Hc16 : 0 ≤ c < 2 ^ 16) by apply spec_checksum_range.
    destruct (with_checksum_parsed e0 c (set_file s) Hraw Hc16 Hh0) as [Hp0 Hty0].
    apply (update_set_ok fl f t cl l1 s l2 (with_checksum e0 c) e1 (emptied_set c d s) f2 t2 Hv Hio Hcap);
      [by rewrite Hty0|reflexivity|exact Hp0| |reflexivity..|intros Hh; exact Hh|].
    + apply stream_entry_roundtrip. eapply (store_typed f); [exact Hset| |exact Hh1]. apply dir_entry_raw; [done..|lia].
    + split; fold id k x; change (len [_; _]) with 2.
      * eapply vol_op_weaken; [|exact Hop]. intros y. apply head_sectors_entries.
      * rewrite (set_entries_cons fl f2 x k), (set_entries_cons fl f2 x (k + 1)), He0, He1 by lia. done.
      * done.
  - rewrite (set_entries_cons fl f2 x k), (set_entries_cons fl f2 x (k + 1)), He0, He1 by lia.
    replace (k + 1 + 1) with (k + 2) by lia. replace (set_size s - 1 - 1) with (set_size s - 2) by lia.
    unfold stored_set. fold c. do 2 f_equal. apply (set_entries_kept fl f f2 id k 2); [done|done|lia|lia|lia].
Qed.
End Changes.

(** * The whole of it *)
Section Truncate.
Context {cfg : Config} {crates : Crates} {bd : BlockDevice} {fu : Fuel}.
Context {Hcfg : ConfigOk cfg} {Hcr : CratesOk crates} {Hbd : DeviceOk cfg bd}.
Implicit Types (f : FileSystem) (t : FileDirty) (cl fcl : list Z) (s : dir_set) (d : FileDetails.t) (name path : str).

Lemma chain_clusters_tables fl f f' c fcl :
  (∀ k, k ∈ fcl → fat_entry fl f' k = fat_entry fl f k) → chain_clusters fl f c fcl → chain_clusters fl f' c fcl.
Proof.
  intros Hfat. destruct c; cbn; [done|done|]. intros (? & ? & ? & Hl). split_and!; try done.
  intros i a b Ha Hb. rewrite Hfat by (by eapply list_elem_of_lookup_2). by apply (Hl i).
Qed.

Lemma entries_kept_data fl (P : Z → Prop) f f' x k n :
  vol_step fl P f f' → (∀ y, data_region f y → ¬ P y) → entries_kept fl f x k n f'.
Proof.
  intros Hst HP j Hj _ Hd. unfold dir_entry. rewrite (step_seen _ _ _ _ Hst); [done|by right; right|by apply HP].
Qed.

(** The set is stored, then the clusters are freed. *)
Lemma truncate_changes_ok fl f t cl l1 s l2 fcl ch :
  removable fl f cl l1 s l2 fcl → dirty_ok t → chain_clusters fl f ch fcl →
  let d := details_of (place f cl) s in let x := cluster_sector f (dir_cluster f cl (set_pos s)) in
  ∃ t' f' c, (store_emptied d ;; zoom (with_touched lfree) (free ch)) (t, f) = ((t', f'), Ok ()) ∧
    vol_op fl (truncate_sectors fl f cl s) t f t' f' ∧ in_order fl f' cl (l1 ++ emptied_set c d s :: l2) ∧
    checksum_ok (set_entries fl f' x (set_pos s mod EPC f) (set_size s)) ∧
    ∀ k, cluster_ok f k → is_allocated fl f' k = (if decide (k ∈ fcl) then false else is_allocated fl f k) ∧
      fat_entry fl f' k = (if decide (k ∈ chained ch fcl) then NO_CLUSTER_ID else fat_entry fl f k).
Proof.
  intros [Hio Hcount Hcap Hsf Hdis] Ht Hch d x. pose proof (stored_vol _ _ _ _ Hsf) as Hv.
  destruct (store_emptied_ok fl f t cl l1 s l2 Hv Ht Hio Hcount Hcap)
    as (c & f1 & t1 & e0 & e1 & Hrun & Hop1 & Hio1 & Hents & Hraw). fold d x in Hrun, Hop1, Hio1, Hents.
  pose proof (op_step _ _ _ _ _ _ Hop1) as Hst1. pose proof (op_inv _ _ _ _ _ _ Hop1) as Hv1.
  destruct (set_range fl f cl l1 s l2 Hv Hio) as [Hp0 Hpn]. assert (Hs2 : 2 ≤ set_size s) by (unfold set_size; lia).
  pose proof (dir_data _ _ _ (sb_dir _ _ _ _ (io_search _ _ _ _ Hio))) as Hcl.
  destruct (dir_cluster_ok fl f cl (set_pos s) Hv Hcl) as (_ & Hid & Hm); [lia|].
  assert (Hdata : ∀ y, head_sectors x (set_pos s mod EPC f) y → data_region f y).
  { intros y Hy%head_sectors_entries. eapply (entry_sectors_data fl f cl _ (set_pos s) 2); [done|exact Hio|lia|lia|exact Hy]. }
  pose proof (λ k Hk, tables_same_data fl _ f f1 k Hv Hst1 Hdata Hk) as Htab1.
  pose proof (data_clusters_ok _ _ (stored_clusters _ _ _ _ Hsf)) as Hok.
  destruct (free_ok fl f1 t1 ch fcl Hv1 (proj1 (op_tracks _ _ _ _ _ _ Hop1))) as (t2 & f2 & Hfree & [Hop2 Hbits Hfat]).
  { eapply Forall_impl; [exact Hok|]. intros k. unfold cluster_ok. by rewrite (step_fs _ _ _ _ Hst1). }
  { apply Hsf. }
  { rewrite Forall_forall in Hok. apply (chain_clusters_tables fl f); [|done]. intros k Hk. apply Htab1. by apply Hok. }
  assert (Hok1 : ∀ k, cluster_ok f1 k ↔ cluster_ok f k) by (intros k; unfold cluster_ok; by rewrite (step_fs _ _ _ _ Hst1)).
  pose proof (op_step _ _ _ _ _ _ Hop2) as Hst2. exists t2, f2, c. split; [by rewrite (bind_Ok _ _ _ _ _ Hrun)|].
  assert (Htr : ∀ y, table_region fl f1 y ↔ table_region fl f y).
  { intros y. unfold table_region, fat_region, bitmap_region. by rewrite (step_fs _ _ _ _ Hst1), (step_bitmap _ _ _ _ Hst1). }
  split_and!.
  - eapply vol_op_trans; (eapply vol_op_weaken; [|eassumption]); [by right|]. intros y Hy. left. by apply Htr.
  - rewrite Forall_forall in Hcl. apply (in_order_kept fl f1 f2 (table_region fl f1) _ _ Hv1 Hst2); [|intros id' Hid'|done].
    + intros y. by apply data_not_table.
    + rewrite Hfat, decide_False; [done| |by apply Hok1, Hcl].
      intros Hin. apply (Hdis id'); [|done]. by destruct ch; [| |exact Hin]; apply elem_of_nil in Hin.
  - set (id := dir_cluster f cl (set_pos s)) in *. replace x with (cluster_sector f1 id)
      by (unfold x, cluster_sector; by rewrite (step_fs _ _ _ _ Hst1)).
    rewrite (set_entries_kept fl f1 f2 id 0 0); [| |by apply (data_cluster_step fl _ f f1 id Hst1)|apply Hm|
      rewrite (step_fs _ _ _ _ Hst1); exact Hcap|by left].
    + unfold cluster_sector. rewrite (step_fs _ _ _ _ Hst1). fold (cluster_sector f id) x. rewrite Hents.
      by apply stored_set_checksum_ok.
    + apply (entries_kept_data fl _ f1 f2 _ 0 0 Hst2). intros y. by apply data_not_table.
  - intros k Hk. rewrite Hbits, Hfat by (by apply Hok1). by destruct (Htab1 k Hk) as [-> ->].
Qed.

Lemma truncated_after fl f f1 cl l1 s l2 fcl f' :
  vol_inv fl f → Forall (data_cluster f) fcl → vol_same fl f f1 → truncated fl f1 cl l1 s l2 fcl f' →
  truncated fl f cl l1 s l2 fcl f'.
Proof.
  intros Hv Hfcl Hst [Hi Hs [ck Hio] Hck (c & Hch & Htab) Hdur]. pose proof (step_fs _ _ _ _ Hst) as Hfs.
  pose proof (step_bitmap _ _ _ _ Hst) as Hb.
  assert (Hsec : ∀ x, truncate_sectors fl f1 cl s x → truncate_sectors fl f cl s x).
  { intros x. unfold truncate_sectors, table_region, fat_region, bitmap_region, dir_cluster, cluster_sector, EPC.
    by rewrite Hfs, Hb. }
  assert (Htab1 : ∀ k, cluster_ok f k → fat_entry fl f1 k = fat_entry fl f k ∧ is_allocated fl f1 k = is_allocated fl f k)
    by (intros k; apply (tables_same_data fl (λ _, False) f f1 k Hv Hst); tauto).
  pose proof (data_clusters_ok _ _ Hfcl) as Hok. rewrite Forall_forall in Hok. split; [done| | | | |].
  - eapply vol_step_trans; [by apply vol_same_step|]. by eapply vol_step_weaken.
  - exists ck. replace (details_of (place f cl) s) with (details_of (place f1 cl) s); [done|].
    unfold details_of. by rewrite (place_step fl _ f f1 cl _ Hst).
  - unfold dir_cluster, cluster_sector, EPC in *. by rewrite Hfs in Hck.
  - exists c. split; [apply (chain_clusters_tables fl f1); [|done]; intros k Hk; symmetry; by apply Htab1, Hok|].
    intros k Hk. destruct (Htab1 k Hk) as [<- <-]. apply Htab. unfold cluster_ok. by rewrite Hfs.
  - eapply stays_durable_trans; [exact Hst|by apply stays_durable_same|exact Hdur].
Qed.

Lemma truncate_ok fl f cl l1 s l2 fcl :
  removable fl f cl l1 s l2 fcl → let d := details_of (place f cl) s in
  ∃ f', truncate_file d 0 f = (f', Ok (emptied d)) ∧ truncated fl f cl l1 s l2 fcl f'.
Proof.
  intros Hrm d. pose proof (rm_stored _ _ _ _ _ _ _ Hrm) as Hsf. pose proof (stored_vol _ _ _ _ Hsf) as Hv.
  destruct (get_stored_chain_ok fl f _ fcl Hsf) as (f1 & ch & Hget & Hv1 & Hst1 & Hch & _). fold d in Hget.
  pose proof (removable_same fl f f1 cl l1 s l2 fcl Hv1 Hst1 Hrm) as Hrm1.
  pose proof (chain_clusters_step fl f f1 ch fcl Hv Hst1 (stored_clusters _ _ _ _ Hsf) Hch) as Hch1.
  assert (Hd : details_of (place f1 cl) s = d) by (unfold d, details_of; by rewrite (place_step fl _ f f1 cl _ Hst1)).
  destruct (truncate_changes_ok fl f1 FileDirty_new cl l1 s l2 fcl ch Hrm1 FileDirty_new_ok Hch1)
    as (t2 & f2 & c & Hrun & Hop & Hio & Hck & Htab). rewrite Hd in Hrun, Hio.
  pose proof (op_step _ _ _ _ _ _ Hop) as Hst. pose proof (op_inv _ _ _ _ _ _ Hop) as Hv2.
  destruct (FileDirty_flush_ok fl f2 t2 Hv2) as (f3 & Hfl & Hv3 & Hst3 & Hdur).
  { eapply vol_op_touched; [exact Hop|]. split; [apply FileDirty_new_ok|apply Forall_nil_2]. }
  exists f3. split; [|apply (truncated_after fl f f1); [done|apply Hsf|done|]; split; [done| | | | |]].
  - rewrite truncate_file_eq, (bind_Ok _ _ _ _ _ Hget). rewrite (bind_Ok _ _ _ f3 (FileDirty_new, ())); [done|].
    apply (with_local_eq _ _ _ _ _ (Ok ())). rewrite <-Hfl, <-(bind_Ok _ (λ _, FileDirty_flush) _ _ _ Hrun).
    rewrite bind_assoc. by apply bind_ext.
  - eapply vol_step_trans; [exact Hst|by apply vol_same_step].
  - exists c. rewrite Hd. by apply (in_order_same fl f2).
  - set (id := dir_cluster f1 cl (set_pos s)) in *. pose proof (step_fs _ _ _ _ Hst) as Hfs.
    destruct (set_range fl f1 cl l1 s l2 Hv1 (rm_order _ _ _ _ _ _ _ Hrm1)) as [Hp0 Hpn].
    assert (Hs2 : 2 ≤ set_size s) by (unfold set_size; lia).
    destruct (dir_cluster_ok fl f1 cl (set_pos s) Hv1 (dir_data _ _ _ (sb_dir _ _ _ _ (io_search _ _ _ _
      (rm_order _ _ _ _ _ _ _ Hrm1))))) as (_ & Hid & Hm); [lia|]. fold id in Hid.
    replace (cluster_sector f1 id) with (cluster_sector f2 id) in Hck |- * by (unfold cluster_sector; by rewrite Hfs).
    rewrite (set_entries_kept fl f2 f3 id 0 0); [done|by apply entries_kept_same|
      by apply (data_cluster_step fl _ f1 f2 id Hst)|apply Hm|rewrite Hfs; apply Hrm1|by left].
  - exists ch. split; [done|]. intros k Hk. destruct (Htab k Hk) as [<- <-].
    assert (Hk2 : cluster_ok f2 k) by (unfold cluster_ok; by rewrite (step_fs _ _ _ _ Hst)).
    apply (data_step_tables fl f2 f3 (λ _, False) k Hv2 Hst3); [tauto|done].
  - intros Hall x Hx. pose proof (proj2 (in_volume_step fl _ f1 f2 x Hst) Hx) as Hx2.
    assert (Htr : tracked fl t2 f2) by (eapply vol_op_tracked; [exact Hop|]; intros y Hy; left; by apply Hall).
    destruct (Htr x Hx2) as [Hdx|Hr]; [by apply (step_durable _ _ _ _ Hst3); [done|tauto|]|by apply Hdur].
Qed.

(** The map before and after. *)
Lemma truncated_map fl f cl l1 s l2 fcl f' name :
  removable fl f cl l1 s l2 fcl → truncated fl f cl l1 s l2 fcl f' → same_name (upcase_table f) name s = true →
  ∃ l', in_order fl f' cl l' ∧ ∀ name' attributes, in_directory f' cl l' name' attributes =
    with_name (upcase_table f) name (emptied (details_of (place f cl) s)) (in_directory f cl (l1 ++ s :: l2)) name' attributes.
Proof.
  intros Hrm [_ Hst [c Hio] _ _ _] Hn. eexists. split; [exact Hio|]. intros name' attributes.
  rewrite (updated_map fl _ f f' cl l1 s (emptied_set c (details_of (place f cl) s) s) l2 name Hst); [|apply (io_unique _ _ _ _ (rm_order _ _ _ _ _ _ _ Hrm))|done|done].
  done.
Qed.
End Truncate.

(** * Theorems *)
Section Theorems.
Context {cfg : Config} {crates : Crates} {bd : BlockDevice} {fu : Fuel}.
Context {Hcfg : ConfigOk cfg} {Hcr : CratesOk crates} {Hbd : DeviceOk cfg bd}.
Implicit Types (f : FileSystem) (cl fcl : list Z) (s : dir_set) (name : str).

(** C21 - truncating a file to length 0 always succeeds: the directory, as a map
    from names (up to case) to details, gets for the name of the file length 0,
    valid length 0 and no first cluster, with the other details as they were,
    and keeps every other name; the rewritten set holds its own checksum; all
    clusters of the file become free in the bitmap (and in the FAT, for a chain
    of the FAT); nothing but the tables and the sectors of the first two entries
    of the set changes, and what was on the device stays there.  (The comment on
    [truncate_file] says that the first cluster stays allocated; the code keeps
    none, and no first cluster in the entry either.) *)
Theorem truncate_empties_file fl f cl l1 s l2 fcl name :
  removable fl f cl l1 s l2 fcl → same_name (upcase_table f) name s = true →
  let d := details_of (place f cl) s in
  ∃ f' l', truncate_file d 0 f = (f', Ok (emptied d)) ∧ truncated fl f cl l1 s l2 fcl f' ∧ in_order fl f' cl l' ∧
    ∀ name' attributes, in_directory f' cl l' name' attributes =
      with_name (upcase_table f) name (emptied d) (in_directory f cl (l1 ++ s :: l2)) name' attributes.
Proof.
  intros Hrm Hn d. destruct (truncate_ok fl f cl l1 s l2 fcl Hrm) as (f' & Hrun & Htr).
  destruct (truncated_map fl f cl l1 s l2 fcl f' name Hrm Htr Hn) as (l' & Hio & Hmap). by exists f', l'.
Qed.
End Theorems.

(** * Truncating a file of the sample directory *)
Section Sample.
#[local] Existing Instance debug_build.
#[local] Existing Instance dummy_device.
#[local] Existing Instance reference_crates.
#[local] Existing Instance reference_crates_ok.
#[local] Existing Instance debug_build_ok.
#[local] Existing Instance sample_remove_device_ok.
#[local] Existing Instance sample_remove_fuel.

Lemma truncate_empties_file_witness :
  ∃ f' l', truncate_file (details_of (place sample_dir_volume [3; 7]) sample_crab) 0 sample_dir_volume =
      (f', Ok (emptied (details_of (place sample_dir_volume [3; 7]) sample_crab))) ∧
    FileDetails.data_length <$> in_directory f' [3; 7] l' (of_string "CRAB.txt") None = Some 0 ∧
    FileDetails.first_cluster <$> in_directory f' [3; 7] l' (of_string "crab.TXT") None = Some 0 ∧
    FileDetails.first_cluster <$> in_directory f' [3; 7] l' (of_string "ferris is a crab.txt") None = Some 5 ∧
    is_allocated 1 f' 6 = false ∧ is_allocated 1 f' 8 = false ∧ is_allocated 1 f' 5 = true ∧ fat_entry 1 f' 5 = 9.
Proof.
  destruct (truncate_empties_file 1 sample_dir_volume [3; 7] [] sample_crab (tail sample_sets) [6; 8] (of_string "crab.txt")
    sample_crab_removable) as (f' & l' & Hr & [_ _ _ _ (c & _ & Htab) _] & _ & Hmap); [vm_compute; reflexivity|].
  assert (Hok : ∀ k, 2 ≤ k < 10 → cluster_ok sample_dir_volume k) by (intros k Hk; unfold cluster_ok; cbn; lia).
  exists f', l'. split; [exact Hr|]. rewrite !Hmap. clear Hr Hmap.
  split; [vm_compute; reflexivity|]. split; [vm_compute; reflexivity|]. split; [vm_compute; reflexivity|].
  destruct (Htab 6 (Hok 6 ltac:(lia))) as [-> _]. destruct (Htab 8 (Hok 8 ltac:(lia))) as [-> _].
  destruct (Htab 5 (Hok 5 ltac:(lia))) as [-> ->]. split; [reflexivity|]. split; [reflexivity|].
  split; [vm_compute; reflexivity|]. rewrite decide_False; [vm_compute; reflexivity|].
  destruct c; cbn [chained]; rewrite ?elem_of_cons, ?elem_of_nil; lia.
Defined.
End Sample.
