(* ===== verification/PathFiles.v ===== *)
(** * Reading and writing whole files by path

    [read], [read_to_string] and [write] of src/file_system.rs: looking the path
    up, opening the file, reading or writing it, flushing it.  What [write]
    makes of a new path, [read] returns. *)

From S2P Require Import Prelude Text Crates Errors Utils Timestamp BootSector Device SlotCache Touched Fat Allocation AllocationSearch Regions Volume VolumeInv VolumeAlloc DirectoryEntry Directory FileSystem File FileRead FileGrow FreeChain FileWrite FileSeek Api FileOpen DirSets FileFlush DirWalk DirFree DirLookup PathLookup DirCreate DirInsert DirRemove PathCreate DirUpdate.
Import FileSystemDetails (cluster_length, sectors_per_cluster, first_cluster_of_root_dir).

(** * Specification *)
Section Spec.
Context {cfg : Config} {crates : Crates} {bd : BlockDevice} {fu : Fuel} {Hbd : DeviceOk cfg bd}.
Implicit Types (f : FileSystem) (cl via nl : list Z) (name path : str) (p : Z).

(** A cluster with its data and its FAT entry as they were. *)
Definition kept (fl : Z) f f' (id : Z) : Prop :=
  fat_entry fl f' id = fat_entry fl f id ∧
  ∀ k, 0 ≤ k < sectors_per_cluster (fs f) →
    vseen fl f' (cluster_sector f id + k) = vseen fl f (cluster_sector f id + k).

(** The directories named one after the other lead from the one at cluster
    [id] to the one at [id'], through the clusters [via]. *)
Inductive walks (fl : Z) f : list str → Z → Z → list Z → Prop :=
  | walks_here id : walks fl f [] id id []
  | walks_below name names cl l d id' via :
      searchable fl f cl l → name_ok (upcase_table f) name → in_directory f cl l name (Some Directory) = Some d →
      walks fl f names (FileDetails.first_cluster d) id' via → walks fl f (name :: names) (hd 0 cl) id' (cl ++ via).

(** A path to a file that is to be created: its directory, in the clusters
    [cl], is reached through the directories in the clusters [via], has room at
    [p] and does not have the name; all these clusters are marked as taken. *)
Record new_path (fl : Z) f cl (l : list dir_set) p via path name (h : Z) : Prop := {
  np_inv : vol_inv fl f;
  np_clock : clock_ok f;
  np_table : table_ok (upcase_table f);
  np_order : in_order fl f cl l;
  np_split : snd (split_path path) = name;
  np_path : path_to_iter path = path_to_iter (fst (split_path path)) ++ [name];
  np_walk : walks fl f (path_to_iter (fst (split_path path))) (first_cluster_of_root_dir (fs f)) (hd 0 cl) via;
  np_apart id : id ∈ via → id ∉ cl;
  np_taken : Forall (λ id, is_allocated fl f id = true) (via ++ cl);
  np_free id : cluster_ok f id → is_allocated fl f id = false → data_cluster f id;
  np_name : legal_name (upcase_table f) name h;
  np_room : first_room fl f cl (set_count name) p;
  np_new : List.find (same_name (upcase_table f) name) l = None;
}.

(** The file of a path, open as [file]: its set [x] is in its directory, which
    the path leads to, and it has the clusters [nl]. *)
Record opened (fl : Z) f (file : File) cl l1 (x : dir_set) l2 p via path name nl : Prop := {
  od_clock : clock_ok f;
  od_table : table_ok (upcase_table f);
  od_order : in_order fl f cl (l1 ++ x :: l2);
  od_path : path_to_iter path = path_to_iter (fst (split_path path)) ++ [name];
  od_walk : walks fl f (path_to_iter (fst (split_path path))) (first_cluster_of_root_dir (fs f)) (hd 0 cl) via;
  od_apart id : id ∈ via → id ∉ cl;
  od_taken : Forall (λ id, is_allocated fl f id = true) (via ++ cl);
  od_name : name_ok (upcase_table f) name;
  od_set : same_name (upcase_table f) name x = true ∧ set_pos x = p;
  od_room : p mod EPC f + set_size x ≤ EPC f;
  od_attributes : contains (FileDirEntry.file_attributes (set_file x)) Archive = true;
  od_file : grow_inv fl f file nl;
  od_location : FileDetails.location (details file) = place f cl p;
  od_count : FileDetails.secondary_count (details file) = set_size x - 1;
  od_flags : flags_ok (details file);
  od_clusters : len nl = clusters_for f (FileDetails.data_length (details file));
  od_others id : id ∈ nl → id ∉ via ++ cl;
}.

(** The options [write] opens with. *)
Definition write_options : OpenOptions.t :=
  OpenOptions.set_write true (OpenOptions.set_truncate true (OpenOptions.set_create true OpenOptions.new)).
(** [open] has opened the empty file [file]. *)
Record ready (fl : Z) f path (o : OpenOptions.t) f' (file : File) : Prop := {
  rd_open : Api.open path o f = (f', Ok file);
  rd_step : vol_step fl (λ _, True) f f';
  rd_durable : stays_durable fl f f';
  rd_length : FileDetails.data_length (details file) = 0;
  rd_valid : FileDetails.valid_data_length (details file) = 0;
  rd_cursor : cursor file = 0;
  rd_options : open_options file = o;
  rd_touched : touched file = FileDirty_new;
}.
End Spec.

(** * What is kept *)
Section Frame.
Context {cfg : Config} {crates : Crates} {bd : BlockDevice} {fu : Fuel}.
Context {Hcfg : ConfigOk cfg} {Hcr : CratesOk crates} {Hbd : DeviceOk cfg bd}.
Implicit Types (f : FileSystem) (cl via : list Z) (name : str) (d : FileDetails.t) (P : Z → Prop).

Lemma kept_trans fl P f0 f1 f2 id : vol_step fl P f0 f1 → kept fl f0 f1 id → kept fl f1 f2 id → kept fl f0 f2 id.
Proof.
  intros Hst [Hf Hs] [Hf' Hs']. unfold cluster_sector in *. rewrite (step_fs _ _ _ _ Hst) in Hs'.
  split; [congruence|]. intros k Hk. rewrite Hs' by done. by apply Hs.
Qed.

(** Directories in clusters that are kept are kept. *)
Lemma dir_list_kept fl P f f' cl :
  vol_inv fl f → vol_step fl P f f' → Forall (data_cluster f) cl → Forall (kept fl f f') cl →
  dir_list fl f' cl 0 (dir_len f' cl) = dir_list fl f cl 0 (dir_len f cl).
Proof.
  intros Hv Hst Hcl Hk. assert (Hlen : dir_len f' cl = dir_len f cl) by (unfold dir_len; by rewrite (EPC_step fl _ f f' Hst)).
  rewrite Hlen. apply list_fmap_ext. intros i j [-> Hi]%lookup_seqZ.
  destruct (dir_cluster_ok fl f cl (0 + Z.of_nat i) Hv Hcl) as (Hid & _ & Hm); [lia|].
  pose proof (Forall_lookup_1 _ _ _ _ Hk Hid) as [_ Hs].
  unfold dir_at, dir_cluster, dir_entry, cluster_sector in *. rewrite (EPC_step fl _ f f' Hst), (step_fs _ _ _ _ Hst).
  f_equal. apply Hs. pose proof EPS_range. set (r := (0 + Z.of_nat i) mod EPC f) in *. unfold EPC in Hm.
  split; [apply Z.div_pos; lia|apply Z.div_lt_upper_bound; lia].
Qed.
Lemma searchable_kept fl P f f' cl l :
  vol_inv fl f → vol_step fl P f f' → Forall (kept fl f f') cl → searchable fl f cl l → searchable fl f' cl l.
Proof.
  intros Hv Hst Hk [[Hd Hl He Hs] Hne Hfu Hsets Hh].
  assert (Hlen : dir_len f' cl = dir_len f cl) by (unfold dir_len; by rewrite (EPC_step fl _ f f' Hst)).
  split; [split|done|by rewrite Hlen|by rewrite (dir_list_kept fl P f f')|by rewrite (step_table _ _ _ _ Hst)].
  - eapply Forall_impl; [exact Hd|]. intros id. by apply (data_cluster_step fl P f f').
  - intros i a b Ha Hb. rewrite (proj1 (Forall_lookup_1 _ _ _ _ Hk Ha)). by apply (Hl i a b).
  - intros x Hx. pose proof Hx as Hin. rewrite last_lookup in Hin.
    rewrite (proj1 (Forall_lookup_1 _ _ _ _ Hk Hin)). by apply He.
  - by rewrite Hlen.
Qed.
Lemma in_order_frame fl P f f' cl l :
  vol_inv fl f → vol_step fl P f f' → Forall (kept fl f f') cl → in_order fl f cl l → in_order fl f' cl l.
Proof.
  intros Hv Hst Hk [Hsb Hends Huniq]. split; [by apply (searchable_kept fl P f f')| |by rewrite (step_table _ _ _ _ Hst)].
  by rewrite (dir_list_kept fl P f f' cl Hv Hst (dir_data _ _ _ (sb_dir _ _ _ _ Hsb)) Hk).
Qed.
Lemma in_directory_step fl P f f' cl l name attributes :
  vol_step fl P f f' → in_directory f' cl l name attributes = in_directory f cl l name attributes.
Proof.
  intros Hst. unfold in_directory. rewrite (step_table _ _ _ _ Hst). apply option_fmap_ext.
  intros s. unfold details_of. by rewrite (place_step fl _ f f' _ _ Hst).
Qed.
Lemma walks_kept fl P f f' names id id' via :
  vol_inv fl f → vol_step fl P f f' → Forall (kept fl f f') via → walks fl f names id id' via → walks fl f' names id id' via.
Proof.
  intros Hv Hst Hk. induction 1 as [id|name names cl l d id' via Hsb Hn Hd _ IH]; [constructor|].
  apply Forall_app in Hk as [Hk Hk']. apply walks_below with l d.
  - by apply (searchable_kept fl P f f').
  - by rewrite (step_table _ _ _ _ Hst).
  - by rewrite (in_directory_step fl P f f').
  - by apply IH.
Qed.
Lemma walks_reaches fl f names id id' via : walks fl f names id id' via → reaches fl f names id id'.
Proof. induction 1; [constructor|by eapply reaches_below]. Qed.
Lemma walks_resolves fl f names id cl via l name attributes :
  walks fl f names id (hd 0 cl) via → searchable fl f cl l → name_ok (upcase_table f) name →
  resolves fl f attributes (names ++ [name]) id (in_directory f cl l name attributes).
Proof.
  intros Hw Hsb Hn. remember (hd 0 cl) as id' eqn:Hid.
  induction Hw as [id|name' names cl' l' d id' via Hsb' Hn' Hd Hw IH]; [subst; by constructor|].
  cbn [app]. specialize (IH Hid). destruct (names ++ [name]) as [|x xs] eqn:Hxs; [by destruct names|].
  by apply resolves_below with l' d.
Qed.

(** So are files. *)
Lemma file_data_kept fl P f f' file cl :
  file_inv fl f file cl → vol_step fl P f f' → Forall (kept fl f f') cl →
  file_data fl f' (details file) cl = file_data fl f (details file) cl.
Proof.
  intros Hi Hst Hk. apply list_fmap_ext. intros i p [-> Hp]%lookup_seqZ.
  pose proof (file_lengths _ _ _ _ Hi). destruct (Z.ltb_spec (0 + Z.of_nat i)
    (FileDetails.valid_data_length (details file))); [|done].
  unfold file_byte. rewrite (file_sector_step fl _ _ _ _ _ Hst).
  destruct (file_data_cluster fl f file cl (0 + Z.of_nat i) Hi) as (id & k & Hid & Hkr & ->); [lia|].
  rewrite Forall_forall in Hk. by rewrite (proj2 (Hk id Hid) k Hkr).
Qed.
End Frame.

(** * Reading *)
Section Read.
Context {cfg : Config} {crates : Crates} {bd : BlockDevice} {fu : Fuel}.
Context {Hcfg : ConfigOk cfg} {Hcr : CratesOk crates} {Hbd : DeviceOk cfg bd}.
Implicit Types (f : FileSystem) (cl : list Z) (d : FileDetails.t) (path : str).

(** Opening a path that is there, neither to create nor to truncate it. *)
Lemma open_kept_ok fl f o path d cl :
  table_ok (upcase_table f) → stored_file fl f d cl →
  resolves fl f (Some Archive) (path_to_iter path) (first_cluster_of_root_dir (fs f)) (Some d) →
  OpenOptions.create_new o = false → OpenOptions.truncate o = false →
  (OpenOptions.append o = true → cl ≠ [] →
     (len cl - 1) * cluster_length (fs f) ≤ FileDetails.valid_data_length d < len cl * cluster_length (fs f)) →
  ∃ f' file, Api.open path o f = (f', Ok file) ∧ vol_same fl f f' ∧ grow_inv fl f' file cl ∧
    details file = d ∧ open_options file = o ∧ cursor file = start_cursor o d ∧ touched file = FileDirty_new ∧
    file_data fl f' d cl = file_data fl f d cl.
Proof.
  intros Htab Hs Hres Hnew Htr Happ. pose proof (stored_vol _ _ _ _ Hs) as Hv.
  destruct (find_path_ok fl f (Some Archive) path _ Hv Htab Hres) as (f1 & Hv1 & Hst1 & _ & Hfind).
  destruct (open_stored_ok fl f1 o d cl (stored_file_same fl f f1 d cl Hv1 Hst1 Hs)) as (f' & file & Hr & Hst & Hg & Hd & Ho & Hc & Ht & Hg1);
    [by rewrite (step_fs _ _ _ _ Hst1)|].
  destruct (open_stored_ok fl f o d cl Hs Happ) as (_ & file0 & _ & _ & _ & Hd0 & _ & _ & _ & Hg0).
  exists f', file. split_and!; try done.
  - unfold Api.open. rewrite (bind_Ok _ _ _ _ _ (mounted_ok fl f Hv)).
    rewrite (bind_Ok (try_ (find_file_or_directory path (Some Archive))) _ f f1 (inr d))
      by (unfold try_, find_file_or_directory; by rewrite Hfind).
    unfold open_details. rewrite Hnew, Htr. by rewrite (bind_Ok (mret d) _ f1 f1 d) by done.
  - by eapply vol_step_trans.
  - rewrite <-Hd0. apply (file_data_step fl f f' file0 cl (grow_file _ _ _ _ Hg0)). by eapply vol_step_trans.
Qed.
(** With the cursor at the start. *)
Lemma open_found_ok fl f o path d cl :
  table_ok (upcase_table f) → stored_file fl f d cl →
  resolves fl f (Some Archive) (path_to_iter path) (first_cluster_of_root_dir (fs f)) (Some d) →
  OpenOptions.create_new o = false → OpenOptions.truncate o = false → OpenOptions.append o = false →
  ∃ f' file, Api.open path o f = (f', Ok file) ∧ vol_same fl f f' ∧ grow_inv fl f' file cl ∧
    details file = d ∧ open_options file = o ∧ cursor file = 0 ∧ touched file = FileDirty_new ∧
    file_data fl f' d cl = file_data fl f d cl.
Proof.
  intros Htab Hs Hres Hnew Htr Happ.
  destruct (open_kept_ok fl f o path d cl Htab Hs Hres Hnew Htr) as (f' & file & H1 & H2 & H3 & H4 & H5 & H6 & H7); [by rewrite Happ|].
  exists f', file. unfold start_cursor in H6. rewrite Happ in H6. done.
Qed.

(** Closing a file that was only read. *)
Lemma flush_clean_ok fl f file :
  vol_inv fl f → touched file = FileDirty_new →
  ∃ f', File.flush (file, f) = ((file, f'), Ok ()) ∧ vol_inv fl f' ∧ vol_same fl f f'.
Proof.
  intros Hv Ht. destruct (FileDirty_flush_ok fl f FileDirty_new Hv) as (f' & Hfl & Hv' & Hst & _).
  { split; [apply FileDirty_new_ok|apply Forall_nil_2]. }
  exists f'. split; [|done]. unfold File.flush, get_file.
  rewrite (bind_Ok (gets fst) _ _ (file, f) file) by done. rewrite Ht. cbn [is_dir_entry_dirty FileDirty_new].
  rewrite (bind_Ok (mret ()) _ (file, f) (file, f) ()) by done.
  eapply zoom_to; [cbn; rewrite Ht; exact Hfl|]. cbn. rewrite <-Ht. by rewrite set_touched_id.
Qed.

Lemma with_file_ok {A} fl path o (body : M (File * FileSystem) err A) f f1 file file1 f2 (a : A) :
  Api.open path o f = (f1, Ok file) → body (file, f1) = ((file1, f2), Ok a) → vol_inv fl f2 → touched file1 = FileDirty_new →
  ∃ f', with_file path o body f = (f', Ok a) ∧ vol_inv fl f' ∧ vol_same fl f2 f'.
Proof.
  intros Ho Hb Hv Ht. destruct (flush_clean_ok fl f2 file1 Hv Ht) as (f' & Hfl & Hv' & Hst).
  exists f'. split; [|done]. unfold with_file. rewrite (bind_Ok _ _ _ _ _ Ho).
  rewrite (bind_Ok _ _ _ f' (file1, a)); [done|]. apply (with_local_eq _ _ _ _ _ (Ok a)).
  by rewrite (bind_Ok _ _ _ _ _ Hb), (bind_Ok _ _ _ _ _ Hfl).
Qed.

(** [read] returns the contents of the file. *)
Lemma read_path_ok fl f path d cl :
  table_ok (upcase_table f) → stored_file fl f d cl → FileDetails.data_length d < 2 ^ usize →
  resolves fl f (Some Archive) (path_to_iter path) (first_cluster_of_root_dir (fs f)) (Some d) →
  ∃ f', Api.read path f = (f', Ok (file_data fl f d cl)) ∧ vol_inv fl f' ∧ vol_same fl f f'.
Proof.
  intros Htab Hs Hl Hres. pose proof (stored_vol _ _ _ _ Hs) as Hv.
  destruct (open_found_ok fl f (OpenOptions.set_read true OpenOptions.new) path d cl Htab Hs Hres)
    as (f1 & file & Ho & Hst1 & Hg & Hd & Hopt & Hc & Ht & Hdata); [done..|].
  destruct (read_to_end_ok fl f1 file cl [] (grow_file _ _ _ _ Hg)) as (file' & f2 & Hr & Hi2 & Hst2 & (_ & _ & _ & Ht2) & _);
    [by rewrite Hopt|by rewrite Hd|rewrite Hd; change (len (@nil Z)) with 0; lia|].
  cbn [app] in Hr. rewrite Hc, Hd, drop_0, Hdata in Hr.
  destruct (with_file_ok fl path (OpenOptions.set_read true OpenOptions.new) (r ← with_local [] read_to_end; mret (fst r))
    f f1 file file' f2 (file_data fl f d cl) Ho) as (f' & Hrun & Hv' & Hst').
  - rewrite (bind_Ok _ _ _ (file', f2) (file_data fl f d cl, FileDetails.data_length d - 0)); [done|].
    by apply (with_local_eq _ _ _ _ _ (Ok _)).
  - by apply (file_vol _ _ _ _ Hi2).
  - by rewrite Ht2.
  - exists f'. unfold Api.read. rewrite (bind_Ok _ _ _ _ _ (mounted_ok fl f Hv)).
    split; [exact Hrun|]. split; [done|]. do 2 (eapply vol_step_trans; [eassumption|]). done.
Qed.

(** [read_to_string] returns the text of the valid bytes. *)
Lemma read_string_path_ok fl f path d cl :
  table_ok (upcase_table f) → stored_file fl f d cl → FileDetails.data_length d < 2 ^ usize →
  resolves fl f (Some Archive) (path_to_iter path) (first_cluster_of_root_dir (fs f)) (Some d) →
  ∃ f', Api.read_to_string path f =
      (f', match from_utf8 (take (Z.to_nat (FileDetails.valid_data_length d)) (file_data fl f d cl)) with
           | Some s => Ok s | None => Err Utf8Error end) ∧ vol_inv fl f' ∧ vol_same fl f f'.
Proof.
  intros Htab Hs Hl Hres. pose proof (stored_vol _ _ _ _ Hs) as Hv.
  destruct (open_found_ok fl f (OpenOptions.set_read true OpenOptions.new) path d cl Htab Hs Hres)
    as (f1 & file & Ho & Hst1 & Hg & Hd & Hopt & Hc & Ht & Hdata); [done..|].
  destruct (read_to_string_ok fl f1 file cl (grow_file _ _ _ _ Hg)) as (file' & f2 & Hr & Hi2 & Hst2 & (_ & _ & _ & Ht2) & _);
    [by rewrite Hopt|by rewrite Hd|].
  rewrite Hc, Hd, drop_0, Hdata in Hr. pose proof (file_vol _ _ _ _ Hi2) as Hv2.
  unfold Api.read_to_string. rewrite (bind_Ok _ _ _ _ _ (mounted_ok fl f Hv)).
  destruct (from_utf8 _) as [s|].
  - destruct (with_file_ok fl path (OpenOptions.set_read true OpenOptions.new) File.read_to_string
      f f1 file file' f2 s Ho Hr Hv2) as (f' & Hrun & Hv' & Hst'); [by rewrite Ht2|].
    exists f'. split; [exact Hrun|]. split; [done|]. do 2 (eapply vol_step_trans; [eassumption|]). done.
  - exists f2. split; [|split; [done|by eapply vol_step_trans]]. unfold with_file. rewrite (bind_Ok _ _ _ _ _ Ho).
    unfold with_local, mbind, M_bind. by rewrite Hr.
Qed.
End Read.

(** * Writing *)
Section Write.
Context {cfg : Config} {crates : Crates} {bd : BlockDevice} {fu : Fuel}.
Context {Hcfg : ConfigOk cfg} {Hcr : CratesOk crates} {Hbd : DeviceOk cfg bd}.
Implicit Types (f : FileSystem) (cl via nl : list Z) (d : FileDetails.t) (name path : str) (p : Z) (file : File).

Lemma others_kept fl ids f f' id : others_same fl ids f f' → data_cluster f id → id ∉ ids → kept fl f f' id.
Proof. intros [Hf _ Hd] Hid Hni. split; [apply Hf; [apply Hid|done]|]. intros k Hk. by apply Hd. Qed.
Lemma others_kept_list fl ids f f' cl :
  others_same fl ids f f' → Forall (data_cluster f) cl → (∀ id, id ∈ cl → id ∉ ids) → Forall (kept fl f f') cl.
Proof.
  intros Ho Hcl Hni. rewrite Forall_forall in Hcl |- *. intros id Hid. apply (others_kept fl ids); auto.
Qed.
Lemma walks_data fl f names id id' via : walks fl f names id id' via → Forall (data_cluster f) via.
Proof.
  induction 1 as [|name names cl l d id' via Hsb _ _ _ IH]; [constructor|]. apply Forall_app. split; [|done].
  apply (dir_data _ _ _ (sb_dir _ _ _ _ Hsb)).
Qed.
Lemma walks_same fl f f' names id id' via : vol_inv fl f → vol_same fl f f' → walks fl f names id id' via → walks fl f' names id id' via.
Proof.
  intros Hv Hst Hw. apply (walks_kept fl (λ _, False) f f'); [done|done| |done].
  apply (others_kept_list fl [] f f'); [|by eapply walks_data|by intros ? _ ?%elem_of_nil].
  apply others_same_data; [done|by apply vol_same_step|done].
Qed.
Lemma legal_name_ok table name h : legal_name table name h → name_ok table name.
Proof.
  intros [_ Hs Hl Hh]. split; [done|]. split; [|by eexists]. pose proof (len_nonneg (encode_utf16 name)).
  destruct usize_cases as [-> | ->]; lia.
Qed.

Lemma run_sectors_cluster fl f cl p n x :
  vol_inv fl f → Forall (data_cluster f) cl → 0 ≤ p < dir_len f cl → p mod EPC f + n ≤ EPC f →
  entry_sectors (cluster_sector f (dir_cluster f cl p)) (p mod EPC f) n x → cluster_sectors f cl x.
Proof.
  intros Hv Hcl Hp Hn (j & Hj & ->). destruct (dir_cluster_ok fl f cl p Hv Hcl Hp) as (Hid & _ & Hm).
  exists (dir_cluster f cl p), (j / EPS). pose proof EPS_range.
  split; [by eapply list_elem_of_lookup_2|]. split; [|done]. unfold EPC in Hn at 2.
  set (r := p mod EPC f) in *. split; [apply Z.div_pos; lia|apply Z.div_lt_upper_bound; lia].
Qed.

Lemma new_path_same fl f f' cl l p via path name h :
  vol_inv fl f' → vol_same fl f f' → new_path fl f cl l p via path name h → new_path fl f' cl l p via path name h.
Proof.
  intros Hv' Hst [Hv Hc Ht Hio Hsp Hpa Hw Hap Hal Hfree Hn Hroom Hnew]. pose proof (step_fs _ _ _ _ Hst) as Hfs.
  pose proof (dir_data _ _ _ (sb_dir _ _ _ _ (io_search _ _ _ _ Hio))) as Hcl.
  assert (Hok : ∀ id, cluster_ok f' id ↔ cluster_ok f id) by (intros id; unfold cluster_ok; by rewrite Hfs).
  assert (Hsame : ∀ id, cluster_ok f id → is_allocated fl f' id = is_allocated fl f id)
    by (intros id Hid; apply (tables_same_data fl _ f f' id Hv Hst); [tauto|done]).
  split; try done.
  - unfold clock_ok. by rewrite (step_clock _ _ _ _ Hst).
  - by rewrite (step_table _ _ _ _ Hst).
  - by apply (in_order_same fl f f').
  - rewrite Hfs. by apply (walks_same fl f f').
  - pose proof (walks_data _ _ _ _ _ _ Hw) as Hvia. rewrite Forall_app in Hal |- *.
    rewrite Forall_forall in Hvia, Hcl. rewrite !Forall_forall in Hal |- *. destruct Hal as [Ha1 Ha2].
    split; intros id Hid; (rewrite Hsame; [by auto|]); [by apply (Hvia id)|by apply (Hcl id)].
  - intros id Hid%Hok Hna. rewrite Hsame in Hna by done. apply (data_cluster_step fl _ f f' id Hst). auto.
  - by rewrite (step_table _ _ _ _ Hst).
  - apply (first_room_same fl f f'); [done|apply Hio|done|done].
  - by rewrite (step_table _ _ _ _ Hst).
Qed.

(** An empty file is stored in no clusters. *)
Lemma empty_stored fl f d :
  vol_inv fl f → (∀ id, cluster_ok f id → is_allocated fl f id = false → data_cluster f id) →
  FileDetails.data_length d = 0 → FileDetails.valid_data_length d = 0 → stored_file fl f d [].
Proof.
  intros Hv Hfree Hd Hvd. destruct (cluster_length_pos fl f Hv) as (? & ? & _).
  split; rewrite ?Hd, ?Hvd; try done; [constructor|unfold stored_ok; by destruct (no_fat_chain d)|].
  rewrite Z.div_small by lia. done.
Qed.

(** The file is created in its directory. *)
Lemma new_file_created fl f cl l p via path name h :
  new_path fl f cl l p via path name h →
  ∃ d f' l1 x l2, create_file path f = (f', Ok d) ∧ l = l1 ++ l2 ∧ vol_inv fl f' ∧ in_order fl f' cl (l1 ++ x :: l2) ∧
    (∀ name' attributes, in_directory f' cl (l1 ++ x :: l2) name' attributes =
       with_name (upcase_table f) name (stored d) (in_directory f cl l) name' attributes) ∧
    vol_step fl (cluster_sectors f cl) f f' ∧ stays_durable fl f f' ∧
    set_units x = encode_utf16 name ∧ set_pos x = p ∧ set_name_length x = len (encode_utf16 name) ∧
    details_of (place f cl) x = stored d ∧
    ∃ ts, d = created_details ts (place f cl p) (set_count name - 1) NO_CLUSTER_ID Archive
                (flag_union AllocationPossible NoFatChain) 0 0.
Proof.
  intros [Hv Hc Ht Hio Hsp Hpa Hw Hap Hal Hfree Hn Hroom Hnew].
  destruct (create_file_ok fl f cl l p path name (fst (split_path path)) h Hv Hc Ht Hio)
    as (ts & f' & l' & Hrun & Hv' & Hio' & Hmap & Hst & Hdur & x & l1 & l2 & Hl & -> & Hun & Hpos & Hlen & Hdet);
    [rewrite <-Hsp; by destruct (split_path path)|by eapply walks_reaches|done|done|done|].
  eexists _, f', l1, x, l2. split; [exact Hrun|]. split; [done|]. split; [done|]. split; [done|]. split; [done|].
  split; [|split_and!; [done..|by eexists]]. eapply vol_step_weaken; [|exact Hst]. intros y.
  pose proof Hroom as [(Hp & Hpn & _) _ Hcap].
  apply (run_sectors_cluster fl f cl p); [done|apply Hio| |done]. unfold set_count in *. lia.
Qed.

(** Freeing the clusters [fcl] and changing the ones of the directory leaves the
    others. *)
Lemma tables_others fl f f' c cl fcl :
  vol_inv fl f → vol_step fl (λ x, table_region fl f x ∨ cluster_sectors f cl x) f f' →
  (∀ k, cluster_ok f k →
    is_allocated fl f' k = (if decide (k ∈ fcl) then false else is_allocated fl f k) ∧
    fat_entry fl f' k = (if decide (k ∈ chained c fcl) then NO_CLUSTER_ID else fat_entry fl f k)) →
  others_same fl (fcl ++ cl) f f'.
Proof.
  intros Hv Hst Htab.
  assert (Hch : ∀ id, id ∉ fcl ++ cl → (id ∉ chained c fcl) ∧ (id ∉ fcl) ∧ (id ∉ cl)).
  { intros id Hid. rewrite elem_of_app in Hid. split; [|tauto]. destruct c; cbn [chained]; rewrite ?elem_of_nil; tauto. }
  split.
  - intros id Hid Hni. destruct (Htab id Hid) as [_ ->]. rewrite decide_False; [done|]. apply (Hch id Hni).
  - intros id Hid Hni. destruct (Htab id Hid) as [-> _]. rewrite decide_False; [done|]. apply (Hch id Hni).
  - intros id k [Hid Hd] Hni Hk. specialize (Hd k Hk).
    apply (step_seen _ _ _ _ Hst); [by right; right|]. intros [Hx|(id' & k' & Hin & Hk' & Heq)]; [by apply (data_not_table fl f _ Hv Hd)|].
    destruct (cluster_sector_unique f id' k' id k Hk' Hk Heq) as [Hq _]. rewrite <-Hq in Hin. by apply (Hch id Hni).
Qed.

Lemma find_both {A} (P Q : A → bool) l : List.find P l = None → List.find (λ x, P x && Q x) l = None.
Proof. induction l as [|x l IH]; [done|]. cbn. destruct (P x); [done|]. cbn. exact IH. Qed.

(** [opened] through steps that keep its directories. *)
Lemma opened_step fl P f f' file cl l1 x l2 p via path name nl file' nl' :
  opened fl f file cl l1 x l2 p via path name nl → vol_inv fl f → vol_step fl P f f' → Forall (kept fl f f') (via ++ cl) →
  (∀ id, id ∈ via ++ cl → is_allocated fl f' id = true) → grow_inv fl f' file' nl' →
  FileDetails.location (details file') = FileDetails.location (details file) →
  FileDetails.secondary_count (details file') = FileDetails.secondary_count (details file) → flags_ok (details file') →
  len nl' = clusters_for f' (FileDetails.data_length (details file')) → (∀ id, id ∈ nl' → id ∉ via ++ cl) →
  opened fl f' file' cl l1 x l2 p via path name nl'.
Proof.
  intros [Hc Ht Hio Hpa Hw Hap Hal Hn Hset Hroom Hatt Hg Hloc Hcount Hfl Hcl Hoth] Hv Hst Hk Hal' Hg' Hloc' Hcount' Hfl' Hcl' Hoth'.
  pose proof (proj1 (Forall_app _ _ _) Hk) as [Hkv Hkc].
  split; try done.
  - unfold clock_ok. by rewrite (step_clock _ _ _ _ Hst).
  - by rewrite (step_table _ _ _ _ Hst).
  - by apply (in_order_frame fl P f f').
  - rewrite (step_fs _ _ _ _ Hst). by apply (walks_kept fl P f f').
  - by apply Forall_forall.
  - by rewrite (step_table _ _ _ _ Hst).
  - by rewrite (step_table _ _ _ _ Hst).
  - by rewrite (EPC_step fl P f f' Hst).
  - rewrite Hloc', Hloc. by rewrite (place_step fl P f f' cl p Hst).
  - congruence.
Qed.

(** What a step that only writes data does to the tables. *)
Lemma cluster_step_tables fl f f' cl :
  vol_inv fl f → vol_step fl (cluster_sectors f cl) f f' → Forall (data_cluster f) cl →
  (∀ id, cluster_ok f id → fat_entry fl f' id = fat_entry fl f id ∧ is_allocated fl f' id = is_allocated fl f id) ∧
  ((∀ id, cluster_ok f id → is_allocated fl f id = false → data_cluster f id) →
   ∀ id, cluster_ok f' id → is_allocated fl f' id = false → data_cluster f' id).
Proof.
  intros Hv Hst Hcl.
  assert (Htab : ∀ id, cluster_ok f id → fat_entry fl f' id = fat_entry fl f id ∧ is_allocated fl f' id = is_allocated fl f id)
    by (intros id; apply (tables_same_data fl _ f f' id Hv Hst); intros y; by apply cluster_sectors_data).
  split; [done|]. intros Hfree id Hid Hna.
  assert (Hid' : cluster_ok f id) by (unfold cluster_ok in *; by rewrite <-(step_fs _ _ _ _ Hst)).
  apply (data_cluster_step fl _ f f' id Hst). apply Hfree; [done|]. by rewrite <-(proj2 (Htab id Hid')).
Qed.

(** The new file, as it is opened. *)
Lemma opened_new fl f cl l1 x l2 p via path name h ts f' file :
  new_path fl f cl (l1 ++ l2) p via path name h → vol_inv fl f' → vol_step fl (cluster_sectors f cl) f f' →
  in_order fl f' cl (l1 ++ x :: l2) → set_units x = encode_utf16 name → set_pos x = p →
  set_name_length x = len (encode_utf16 name) →
  let d := created_details ts (place f cl p) (set_count name - 1) NO_CLUSTER_ID Archive
             (flag_union AllocationPossible NoFatChain) 0 0 in
  details_of (place f cl) x = stored d → grow_inv fl f' file [] → details file = d →
  opened fl f' file cl l1 x l2 p via path name [].
Proof.
  intros [Hv Hc Ht Hio _ Hpa Hw Hap Hal _ Hn Hroom _] Hv' Hst Hio' Hun Hpos Hlen d Hdet Hg Hdf.
  pose proof (dir_data _ _ _ (sb_dir _ _ _ _ (io_search _ _ _ _ Hio))) as Hcl.
  pose proof (walks_data _ _ _ _ _ _ Hw) as Hvia.
  assert (Hdata : Forall (data_cluster f) (via ++ cl)) by by apply Forall_app.
  assert (Hsize : set_size x = set_count name) by (unfold set_size, set_count; by rewrite Hlen).
  destruct (cluster_step_tables fl f f' cl Hv Hst Hcl) as [Htab _]. split; try done.
  - unfold clock_ok. by rewrite (step_clock _ _ _ _ Hst).
  - by rewrite (step_table _ _ _ _ Hst).
  - rewrite (step_fs _ _ _ _ Hst). apply (walks_kept fl _ f f' _ _ _ via Hv Hst); [|done].
    apply (others_kept_list fl cl); [by apply others_same_data|done|done].
  - rewrite Forall_forall in Hal, Hdata |- *. intros id Hid. rewrite (proj2 (Htab id (proj1 (Hdata id Hid)))). auto.
  - rewrite (step_table _ _ _ _ Hst). by eapply legal_name_ok.
  - split; [|done]. apply bool_decide_eq_true. by rewrite Hun.
  - rewrite (EPC_step fl _ f f' Hst), Hsize. apply Hroom.
  - change (FileDirEntry.file_attributes (set_file x)) with (FileDetails.attributes (details_of (place f cl) x)).
    rewrite Hdet. by rewrite contains_spec.
  - rewrite Hdf. cbn. by rewrite (place_step fl _ f f' cl p Hst).
  - rewrite Hdf, Hsize. done.
  - rewrite Hdf. apply new_file_ok.
  - rewrite Hdf. destruct (cluster_length_pos fl f' Hv') as (? & ? & _). unfold clusters_for. cbn.
    symmetry. apply Z.div_small. lia.
  - by intros id ?%elem_of_nil.
Qed.
(** The same after a step that changes nothing. *)
Lemma opened_same fl f f' file file' cl l1 x l2 p via path name nl :
  opened fl f file cl l1 x l2 p via path name nl → vol_same fl f f' → grow_inv fl f' file' nl → details file' = details file →
  opened fl f' file' cl l1 x l2 p via path name nl.
Proof.
  intros Hcd Hst Hg Hd. pose proof (file_vol _ _ _ _ (grow_file _ _ _ _ (od_file _ _ _ _ _ _ _ _ _ _ _ _ Hcd))) as Hv.
  pose proof (walks_data _ _ _ _ _ _ (od_walk _ _ _ _ _ _ _ _ _ _ _ _ Hcd)) as Hvia.
  pose proof (dir_data _ _ _ (sb_dir _ _ _ _ (io_search _ _ _ _ (od_order _ _ _ _ _ _ _ _ _ _ _ _ Hcd)))) as Hcl.
  assert (Hdata : Forall (data_cluster f) (via ++ cl)) by by apply Forall_app.
  apply (opened_step fl (λ _, False) f f' file cl l1 x l2 p via path name nl file' nl); rewrite ?Hd; try done; try apply Hcd.
  - apply (others_kept_list fl [] f f'); [|done|by intros ? _ ?%elem_of_nil].
    apply others_same_data; [done|by apply vol_same_step|done].
  - intros id Hid. pose proof (od_taken _ _ _ _ _ _ _ _ _ _ _ _ Hcd) as Ha. rewrite Forall_forall in Ha, Hdata.
    destruct (tables_same_data fl (λ _, False) f f' id Hv Hst) as [_ ->]; [tauto|by apply (Hdata id)|auto].
  - unfold clusters_for. rewrite (step_fs _ _ _ _ Hst). apply Hcd.
Qed.

(** [open] creates the file and opens it. *)
Lemma open_new_ok fl f cl l p via path name h o :
  new_path fl f cl l p via path name h → OpenOptions.create o || OpenOptions.create_new o = true →
  ∃ d f' file l1 x l2, ready fl f path o f' file ∧ l = l1 ++ l2 ∧
    opened fl f' file cl l1 x l2 p via path name [] ∧
    (∀ name' attributes, in_directory f' cl (l1 ++ x :: l2) name' attributes =
       with_name (upcase_table f) name d (in_directory f cl l) name' attributes) ∧
    vol_step fl (cluster_sectors f cl) f f' ∧ FileDetails.data_length d = 0 ∧ FileDetails.valid_data_length d = 0.
Proof.
  intros Hnp Hcr_o. pose proof Hnp as [Hv _ Ht Hio _ Hpa Hw _ _ _ Hn _ Hnew]. pose proof (io_search _ _ _ _ Hio) as Hsb.
  pose proof (walks_resolves fl f _ _ cl via l name (Some Archive) Hw Hsb (legal_name_ok _ _ _ Hn)) as Hres.
  rewrite <-Hpa in Hres. unfold in_directory in Hres. rewrite (find_both _ _ l Hnew) in Hres.
  destruct (find_path_ok fl f (Some Archive) path None Hv Ht Hres) as (f0 & Hv0 & Hst0 & _ & Hfind).
  pose proof (new_path_same fl f f0 cl l p via path name h Hv0 Hst0 Hnp) as Hnp0.
  destruct (new_file_created fl f0 cl l p via path name h Hnp0) as (d & f1 & l1 & x & l2 & Hrun & -> & Hv1 & Hio1 & Hmap & Hst1 & Hdur
    & Hun & Hpos & Hlen & Hdet & ts & Hd).
  destruct (cluster_step_tables fl f0 f1 cl Hv0 Hst1 (dir_data _ _ _ (sb_dir _ _ _ _ (io_search _ _ _ _ (np_order _ _ _ _ _ _ _ _ _ Hnp0)))))
    as [_ Hfree].
  destruct (open_stored_ok fl f1 o d []) as (f2 & file & Hop & Hst2 & Hg & Hdf & Hopt & Hcur & Htou & Hg1);
    [apply empty_stored; [done|by apply Hfree, Hnp0|by rewrite Hd|by rewrite Hd]|done|].
  assert (Hst : vol_step fl (cluster_sectors f cl) f f1).
  { eapply vol_step_trans; [apply vol_same_step; exact Hst0|]. eapply vol_step_weaken; [|exact Hst1].
    intros y. unfold cluster_sectors, cluster_sector. by rewrite (step_fs _ _ _ _ Hst0). }
  assert (Hst02 : vol_step fl (cluster_sectors f cl) f f2) by (eapply vol_step_trans; [exact Hst|by apply vol_same_step]).
  exists (stored d), f2, file, l1, x, l2. split.
  { split; [|by eapply vol_step_weaken; [|exact Hst02]| |by rewrite Hdf, Hd|by rewrite Hdf, Hd| |done|done].
    3: { rewrite Hcur. unfold start_cursor. destruct (OpenOptions.append o); [|done]. by rewrite Hd. }
    2: { eapply stays_durable_trans; [exact Hst|eapply stays_durable_trans; [exact Hst0|by apply stays_durable_same|exact Hdur]|
      by apply stays_durable_same]. }
    unfold Api.open. rewrite (bind_Ok _ _ _ _ _ (mounted_ok fl f Hv)).
    rewrite (bind_Ok (try_ (find_file_or_directory path (Some Archive))) _ f f0 (inl FileNotFound))
      by (unfold try_, find_file_or_directory; by rewrite Hfind).
    unfold open_details. rewrite Hcr_o. rewrite (bind_Ok _ _ _ f1 d) by exact Hrun. exact Hop. }
  split; [done|]. split.
  { apply (opened_same fl f1 f2 file file); [|done..]. eapply (opened_new fl f0); try done; [by rewrite Hdet, Hd|by rewrite Hdf, Hd]. }
  split.
  { intros name' attributes. rewrite (in_directory_step fl _ f1 f2) by done. rewrite Hmap, (step_table _ _ _ _ Hst0).
    apply with_name_ext. intros n a. by apply (in_directory_step fl (λ _, False)). }
  split; [done|]. split; by rewrite Hd.
Qed.

(** [File::write] on the file while it is empty. *)
Lemma file_write_opened_ok fl f file cl l1 x l2 p via path name contents :
  opened fl f file cl l1 x l2 p via path name [] → open_options file = write_options → cursor file = 0 →
  FileDetails.data_length (details file) = 0 → FileDetails.valid_data_length (details file) = 0 →
  contents ≠ [] → Forall byte_ok contents → SIZE + len contents ≤ 2 ^ usize → len contents < 2 ^ 32 →
  ¬ write_misses_cluster f 0 (len contents) →
  ∃ file' f' nl o, File.write contents (file, f) = ((file', f'), o) ∧ others_same fl nl f f' ∧
    (∀ k, k ∈ nl → cluster_ok f k ∧ is_allocated fl f k = false) ∧
    vol_op fl (λ s, table_region fl f s ∨ cluster_sectors f nl s) (touched file) f (touched file') f' ∧
    match o with
    | Ok () => opened fl f' file' cl l1 x l2 p via path name nl ∧ file_data fl f' (details file') nl = contents ∧
        is_dir_entry_dirty (touched file') = true
    | Err DiskFull => in_order fl f' cl (l1 ++ x :: l2) ∧ ∀ k, cluster_ok f' k → is_allocated fl f' k = true
    | _ => False
    end.
Proof.
  intros Hcd Hopt Hcur Hdl Hvl Hne Hb Hu H32 Hgap. pose proof (od_file _ _ _ _ _ _ _ _ _ _ _ _ Hcd) as Hg.
  pose proof (file_vol _ _ _ _ (grow_file _ _ _ _ Hg)) as Hv.
  destruct (file_write_ok fl f file [] contents Hg) as (file' & f' & nl & o & Hr & [Hg' Hos Hnl Hop Hopt'] & Ho);
    [by rewrite Hopt|done|done|done|done|by rewrite Hcur, Hvl|by rewrite Hcur|].
  cbn [app] in *. exists file', f', nl, o. split; [done|]. split; [done|]. split; [done|]. split; [done|].
  pose proof (op_step _ _ _ _ _ _ Hop) as Hst. pose proof (od_taken _ _ _ _ _ _ _ _ _ _ _ _ Hcd) as Htaken.
  pose proof (walks_data _ _ _ _ _ _ (od_walk _ _ _ _ _ _ _ _ _ _ _ _ Hcd)) as Hvia.
  pose proof (dir_data _ _ _ (sb_dir _ _ _ _ (io_search _ _ _ _ (od_order _ _ _ _ _ _ _ _ _ _ _ _ Hcd)))) as Hcl.
  assert (Hdata : Forall (data_cluster f) (via ++ cl)) by by apply Forall_app.
  rewrite Forall_forall in Htaken.
  assert (Hni : ∀ id, id ∈ via ++ cl → id ∉ nl) by (intros id Hid [_ Hna]%Hnl; specialize (Htaken id Hid); congruence).
  pose proof (others_kept_list fl nl f f' (via ++ cl) Hos Hdata Hni) as Hk.
  destruct o as [[]|[]| |]; try done.
  - destruct Ho as [(Hcont & _ & _) [Hwl Hwc Hwf Hwd Hwn Hwk]]. split; [|split; [|done]].
    + eapply (opened_step fl _ f f' file); [done|done|exact Hst|exact Hk| |done|done|done|by apply Hwf, Hcd| |].
      * rewrite Forall_forall in Hdata. intros id Hid.
        rewrite (others_alloc _ _ _ _ Hos id); [auto|by apply (Hdata id)|auto].
      * cbn [app] in Hwk. rewrite Hwn, Hwk by (apply Hcd). rewrite Hcur, Hdl, Hvl. unfold clusters_for. rewrite (step_fs _ _ _ _ Hst).
        pose proof (len_nonneg contents). do 2 f_equal. lia.
      * intros id Hid Hid'. by apply (Hni id).
    + rewrite Hcont, Hcur. replace (file_data fl f (details file) []) with (@nil Z) by (unfold file_data; by rewrite Hdl).
      unfold splice. by rewrite take_nil, drop_nil, app_nil_r.
  - split; [|apply Ho]. apply Forall_app in Hk as [_ Hk]. by apply (in_order_frame fl _ f f' cl _ Hv Hst Hk), Hcd.
Qed.

(** The first cluster of an open file. *)
Lemma chain_first_ok fl f file cl :
  file_inv fl f file cl → 0 ≤ chain_first (chain file) < 2 ^ 32 ∧ (cl ≠ [] → head cl = Some (chain_first (chain file))).
Proof.
  intros Hi. pose proof (file_vol _ _ _ _ Hi) as Hv. pose proof (file_chain _ _ _ _ Hi) as Hch.
  pose proof (data_clusters_ok _ _ (file_clusters _ _ _ _ Hi)) as Hok. rewrite Forall_forall in Hok.
  destruct (vol_geometry _ _ Hv) as [_ _ [_ [Hcc _]] _ _ _ _]. unfold CLUSTER_LEN, cluster_ok in *.
  assert (Hhd : ∀ id, head cl = Some id → 0 ≤ id < 2 ^ 32).
  { intros id Hid. rewrite head_lookup in Hid. specialize (Hok id (list_elem_of_lookup_2 _ _ _ Hid)). lia. }
  destruct (chain file) as [|first n|first l n]; cbn in *.
  - subst. split; [unfold NO_CLUSTER_ID; lia|done].
  - destruct Hch as [-> Hn]. rewrite seqZ_cons in * by lia. split; [by apply Hhd|done].
  - destruct Hch as (Hhead & _). split; [by apply Hhd|done].
Qed.

(** An open file among tables that are left alone, with another list. *)
Lemma grow_inv_tables fl P f f' file cl t :
  grow_inv fl f file cl → vol_inv fl f' → vol_step fl P f f' →
  (∀ id, cluster_ok f id → fat_entry fl f' id = fat_entry fl f id ∧ is_allocated fl f' id = is_allocated fl f id) →
  touched_ok fl f' t → grow_inv fl f' (set_touched t file) cl.
Proof.
  intros [Hi Hs Hnc Hal Hfree _] Hv' Hst Htab Ht. pose proof (data_clusters_ok _ _ (file_clusters _ _ _ _ Hi)) as Hok.
  split; [| |done| | |done].
  - apply file_inv_touched, (file_inv_tables fl P f f'); [done..|]. intros id Hid. by apply Htab.
  - apply (stored_ok_tables fl f); [done|done|]. intros id Hid. by apply Htab.
  - rewrite Forall_forall in Hal, Hok |- *. intros id Hid. rewrite (proj2 (Htab id (Hok id Hid))). auto.
  - intros id Hid Hna. assert (Hid' : cluster_ok f id) by (unfold cluster_ok in *; by rewrite <-(step_fs _ _ _ _ Hst)).
    apply (data_cluster_step fl P f f' id Hst), Hfree; [done|]. by rewrite <-(proj2 (Htab id Hid')).
Qed.

(** Flushing it files it in the directory. *)
Lemma flush_opened_ok fl f file cl l1 x l2 p via path name nl :
  opened fl f file cl l1 x l2 p via path name nl → is_dir_entry_dirty (touched file) = true →
  ∃ d f' x', File.flush (file, f) = ((set_touched FileDirty_new file, f'), Ok ()) ∧ vol_inv fl f' ∧
    in_order fl f' cl (l1 ++ x' :: l2) ∧
    (∀ name' attributes, in_directory f' cl (l1 ++ x' :: l2) name' attributes =
       with_name (upcase_table f) name d (in_directory f cl (l1 ++ x :: l2)) name' attributes) ∧
    resolves fl f' (Some Archive) (path_to_iter path) (first_cluster_of_root_dir (fs f')) (Some d) ∧
    stored_file fl f' d nl ∧ file_data fl f' d nl = file_data fl f (details file) nl ∧
    vol_step fl (cluster_sectors f cl) f f' ∧
    (tracked fl (touched file) f → ∀ y, in_volume fl f y → durable fl f' y) ∧
    opened fl f' (set_touched FileDirty_new file) cl l1 x' l2 p via path name nl.
Proof.
  intros Hod Hdirty. pose proof Hod as [Hc Ht Hio Hpa Hw Hap Hal Hn [Hname Hpos] Hroom Hatt Hg Hloc Hcount Hfl Hcl Hoth].
  pose proof (grow_file _ _ _ _ Hg) as Hi. pose proof (file_vol _ _ _ _ Hi) as Hv.
  destruct (chain_first_ok fl f file nl Hi) as [Hfirst Hhead].
  pose proof (file_length_bound _ _ _ _ Hi) as Hbound. pose proof (file_lengths _ _ _ _ Hi) as [Hlens _].
  assert (Hfd : filed fl f file cl l1 x l2) by (split; rewrite ?Hpos; try done; lia).
  destruct (flush_filed_ok fl f file cl l1 x l2 Hv (grow_touched _ _ _ _ Hg) Hc Hfd Hdirty)
    as (ts & c & f' & Hrun & Hv' & _ & Hio' & Hmap & Hst & Hdur).
  set (x' := flushed_set ts c file x) in *. set (d := details_of (place f cl) x') in *.
  destruct (set_range fl f cl l1 x l2 Hv Hio) as [Hp0 Hpn].
  pose proof (dir_data _ _ _ (sb_dir _ _ _ _ (io_search _ _ _ _ Hio))) as Hdc.
  assert (Hst' : vol_step fl (cluster_sectors f cl) f f').
  { eapply vol_step_weaken; [|exact Hst]. intros y Hy%head_sectors_entries.
    assert (2 ≤ set_size x) by (unfold set_size; lia).
    apply (run_sectors_cluster fl f cl (set_pos x) 2); [done|done|lia| |done]. rewrite Hpos. lia. }
  pose proof (others_same_data fl cl f f' Hv Hst' Hdc) as Hos.
  pose proof (file_clusters _ _ _ _ Hi) as Hnl.
  assert (Hknl : Forall (kept fl f f') nl).
  { apply (others_kept_list fl cl); [done|done|]. intros id Hid Hid'. apply (Hoth id Hid), elem_of_app. by right. }
  assert (Hin : in_directory f' cl (l1 ++ x' :: l2) name (Some Archive) = Some d).
  { rewrite (Hmap name Hname). unfold with_name, eq_name. rewrite bool_decide_true by done.
    change (FileDetails.attributes d) with (FileDirEntry.file_attributes (set_file x)). by rewrite Hatt. }
  exists d, f', x'. split; [done|]. split; [done|]. split; [done|]. split; [by apply Hmap|].
  pose proof (walks_data _ _ _ _ _ _ Hw) as Hvia.
  assert (Hw' : walks fl f' (path_to_iter (fst (split_path path))) (first_cluster_of_root_dir (fs f)) (hd 0 cl) via).
  { apply (walks_kept fl _ f f' _ _ _ via Hv Hst'); [|done]. by apply (others_kept_list fl cl). }
  destruct (cluster_step_tables fl f f' cl Hv Hst' Hdc) as [Htab Hfree'].
  split; [|split; [|split; [|split; [|split]]]].
  - rewrite Hpa, <-Hin, (step_fs _ _ _ _ Hst). apply walks_resolves with via.
    + done.
    + apply Hio'.
    + by rewrite (step_table _ _ _ _ Hst).
  - apply (stored_file_kept fl (cluster_sectors f cl) f f' d nl); [|done|exact Hst'|done]. destruct Hg as [_ Hs _ Hal' Hfree _].
    split; try done. apply Hi.
  - etransitivity; [|by apply (file_data_kept fl (cluster_sectors f cl) f f' file nl Hi Hst')]. done.
  - done.
  - done.
  - assert (Hg' : grow_inv fl f' (set_touched FileDirty_new file) nl).
    { apply (grow_inv_tables fl (cluster_sectors f cl) f f'); [done..|]. split; [apply FileDirty_new_ok|apply Forall_nil_2]. }
    split; try done.
    + unfold clock_ok. by rewrite (step_clock _ _ _ _ Hst).
    + by rewrite (step_table _ _ _ _ Hst).
    + by rewrite (step_fs _ _ _ _ Hst).
    + assert (Hd : Forall (data_cluster f) (via ++ cl)) by by apply Forall_app.
      rewrite Forall_forall in Hal, Hd |- *. intros id Hid. destruct (Htab id (proj1 (Hd id Hid))) as [_ ->]. by apply Hal.
    + by rewrite (step_table _ _ _ _ Hst).
    + split; [|done]. rewrite (step_table _ _ _ _ Hst). done.
    + by rewrite (EPC_step fl _ f f' Hst).
    + cbn. rewrite Hloc. by rewrite (place_step fl _ f f' cl p Hst).
    + unfold clusters_for. rewrite (step_fs _ _ _ _ Hst). exact Hcl.
Qed.
End Write.

(** * Theorems *)
Section Theorems.
Context {cfg : Config} {crates : Crates} {bd : BlockDevice} {fu : Fuel}.
Context {Hcfg : ConfigOk cfg} {Hcr : CratesOk crates} {Hbd : DeviceOk cfg bd}.
Implicit Types (f : FileSystem) (cl via nl : list Z) (d : FileDetails.t) (name path : str) (p : Z).

Lemma others_same_weaken fl ids ids' f f' :
  others_same fl ids f f' → (∀ id, id ∈ ids → id ∈ ids') → others_same fl ids' f f'.
Proof.
  intros [Hf Ha Hd] Hsub. split.
  - intros id Hid Hni. apply Hf; auto.
  - intros id Hid Hni. apply Ha; auto.
  - intros id k Hid Hni. apply Hd; auto.
Qed.
Lemma with_name_twice table name d d' m name' attributes :
  with_name table name d (with_name table name d' m) name' attributes = with_name table name d m name' attributes.
Proof. unfold with_name. by destruct (eq_name table name name'). Qed.

(** [write] once [open] has given it an empty file. *)
Lemma write_ready_ok fl f f1 file cl l1 x l2 p via path name contents :
  vol_inv fl f → ready fl f path write_options f1 file → opened fl f1 file cl l1 x l2 p via path name [] →
  contents ≠ [] → Forall byte_ok contents → SIZE + len contents ≤ 2 ^ usize → len contents < 2 ^ 32 →
  ¬ write_misses_cluster f 0 (len contents) →
  ∃ f' nl l' o, Api.write path contents f = (f', o) ∧ vol_inv fl f' ∧ in_order fl f' cl l' ∧
    upcase_table f' = upcase_table f ∧ others_same fl (nl ++ cl) f1 f' ∧
    (∀ k, k ∈ nl → cluster_ok f k ∧ is_allocated fl f1 k = false) ∧
    match o with
    | Ok () => ∃ d, (∀ name' attributes, in_directory f' cl l' name' attributes =
          with_name (upcase_table f) name d (in_directory f1 cl (l1 ++ x :: l2)) name' attributes) ∧
        resolves fl f' (Some Archive) (path_to_iter path) (first_cluster_of_root_dir (fs f')) (Some d) ∧
        stored_file fl f' d nl ∧ file_data fl f' d nl = contents ∧ stays_durable fl f f'
    | Err DiskFull => (∀ name' attributes, in_directory f' cl l' name' attributes =
          in_directory f1 cl (l1 ++ x :: l2) name' attributes) ∧
        ∀ k, cluster_ok f' k → is_allocated fl f' k = true
    | _ => False
    end.
Proof.
  intros Hv [Hop Hst1 Hdur1 Hdl Hvl Hcur Hopt Htou] Hod Hne Hb Hu H32 Hgap. pose proof (step_fs _ _ _ _ Hst1) as Hfs1.
  destruct (file_write_opened_ok fl f1 file cl l1 x l2 p via path name contents Hod Hopt Hcur Hdl Hvl Hne Hb Hu H32)
    as (file' & f2 & nl & o & Hw & Hos2 & Hnl & Hop2 & Ho); [unfold write_misses_cluster in *; by rewrite Hfs1|].
  pose proof (op_step _ _ _ _ _ _ Hop2) as Hst2. pose proof (op_inv _ _ _ _ _ _ Hop2) as Hv2.
  assert (Hst : vol_step fl (λ _, True) f f2) by (by eapply vol_step_trans; [|eapply vol_step_weaken; [|exact Hst2]]).
  assert (Hos : others_same fl (nl ++ cl) f1 f2)
    by (apply (others_same_weaken fl nl); [done|]; intros id Hid; apply elem_of_app; by left).
  assert (Hnl' : ∀ k, k ∈ nl → cluster_ok f k ∧ is_allocated fl f1 k = false)
    by (intros k [Hk Hna]%Hnl; split; [unfold cluster_ok in *; by rewrite <-Hfs1|done]).
  pose proof (step_table _ _ _ _ Hst) as Ht2.
  assert (Hrun : Api.write path contents f = (match o with
    | Ok () => r ← with_local file' (File.flush ;; mret ()); mret (snd r)
    | Err e => throw e | Panic => lift Panic | OutOfFuel => lift OutOfFuel end) f2).
  { unfold Api.write. rewrite (bind_Ok _ _ _ _ _ (mounted_ok fl f Hv)). unfold with_file. fold write_options.
    rewrite (bind_Ok _ _ _ _ _ Hop). unfold with_local, mbind, M_bind. rewrite Hw. by destruct o as [[]| | |]. }
  destruct o as [[]|[]| |]; try done.
  - destruct Ho as (Hcd & Hcont & Hdirty).
    destruct (flush_opened_ok fl f2 file' cl l1 x l2 p via path name nl Hcd Hdirty) as (d & f' & x' & Hfl & Hv' & Hio' & Hmap' & Hres
      & Hs' & Hdata & Hst' & Hdur' & _).
    exists f', nl, (l1 ++ x' :: l2), (Ok ()). split.
    { rewrite Hrun. rewrite (bind_Ok _ _ f2 f' (set_touched FileDirty_new file', ())); [done|].
      apply (with_local_eq _ _ _ _ _ (Ok ())). by rewrite (bind_Ok _ _ _ _ _ Hfl). }
    split; [done|]. split; [done|]. split; [by rewrite (step_table _ _ _ _ Hst')|]. split.
    { eapply others_same_trans; [apply Hst2|apply Hst2|exact Hos|].
      apply (others_same_weaken fl cl); [|intros id Hid; apply elem_of_app; by right].
      apply others_same_data; [done|done|]. apply (dir_data _ _ _ (sb_dir _ _ _ _ (io_search _ _ _ _ (od_order _ _ _ _ _ _ _ _ _ _ _ _ Hcd)))). }
    split; [done|]. exists d. split; [|split_and!; [done|done|by rewrite Hdata|]].
    + intros name' attributes. rewrite Hmap', Ht2. apply with_name_ext. intros n a. by apply (in_directory_step fl _ f1 f2 _ _ _ _ Hst2).
    + intros Hall y Hy. apply Hdur'; [|by apply (in_volume_step fl _ f f2 y Hst)].
      apply (vol_op_tracked _ _ _ _ _ _ Hop2). rewrite Htou. intros z Hz%(in_volume_step fl _ f f1 z Hst1). left. by apply Hdur1.
  - destruct Ho as [Hio2 Hfull]. exists f2, nl, (l1 ++ x :: l2), (Err DiskFull). do 6 (split; [done|]).
    split; [|done]. intros name' attributes. by apply (in_directory_step fl _ f1 f2 _ _ _ _ Hst2).
Qed.

Lemma write_path_ok fl f cl l p via path name h contents :
  new_path fl f cl l p via path name h →
  contents ≠ [] → Forall byte_ok contents → SIZE + len contents ≤ 2 ^ usize → len contents < 2 ^ 32 →
  ¬ write_misses_cluster f 0 (len contents) →
  ∃ f' nl l' o, Api.write path contents f = (f', o) ∧ vol_inv fl f' ∧ in_order fl f' cl l' ∧
    upcase_table f' = upcase_table f ∧ others_same fl (nl ++ cl) f f' ∧
    (∀ k, k ∈ nl → cluster_ok f k ∧ is_allocated fl f k = false) ∧
    match o with
    | Ok () => ∃ d, (∀ name' attributes, in_directory f' cl l' name' attributes =
          with_name (upcase_table f) name d (in_directory f cl l) name' attributes) ∧
        resolves fl f' (Some Archive) (path_to_iter path) (first_cluster_of_root_dir (fs f')) (Some d) ∧
        stored_file fl f' d nl ∧ file_data fl f' d nl = contents ∧ stays_durable fl f f'
    | Err DiskFull => (∃ d, (∀ name' attributes, in_directory f' cl l' name' attributes =
          with_name (upcase_table f) name d (in_directory f cl l) name' attributes) ∧ FileDetails.data_length d = 0) ∧
        ∀ k, cluster_ok f' k → is_allocated fl f' k = true
    | _ => False
    end.
Proof.
  intros Hnp Hne Hb Hu H32 Hgap. pose proof (np_inv _ _ _ _ _ _ _ _ _ Hnp) as Hv.
  destruct (open_new_ok fl f cl l p via path name h write_options Hnp eq_refl) as (d0 & f1 & file & l1 & x & l2 & Hrd & -> & Hod & Hmap & Hst1 & Hdl & _).
  pose proof (dir_data _ _ _ (sb_dir _ _ _ _ (io_search _ _ _ _ (np_order _ _ _ _ _ _ _ _ _ Hnp)))) as Hcl.
  destruct (cluster_step_tables fl f f1 cl Hv Hst1 Hcl) as [Htab1 _].
  destruct (write_ready_ok fl f f1 file cl l1 x l2 p via path name contents Hv Hrd Hod Hne Hb Hu H32 Hgap)
    as (f' & nl & l' & o & Hrun & Hv' & Hio' & Ht' & Hos & Hnl & Ho).
  exists f', nl, l', o. do 4 (split; [done|]). split.
  { eapply others_same_trans; [apply Hst1|apply Hst1| |exact Hos].
    apply (others_same_weaken fl cl); [by apply others_same_data|]. intros id Hid. apply elem_of_app. by right. }
  split; [intros k [Hk Hna]%Hnl; split; [done|]; by rewrite <-(proj2 (Htab1 k Hk))|].
  destruct o as [[]|[]| |]; try done.
  - destruct Ho as (d & Hmap' & Ho). exists d. split; [|done]. intros name' attributes.
    rewrite Hmap'. rewrite <-(with_name_twice _ name d d0 (in_directory f cl (l1 ++ l2))). apply with_name_ext. intros n a. apply Hmap.
  - destruct Ho as [Hmap' Hfull]. split; [|done]. exists d0. split; [|done]. intros name' attributes. by rewrite Hmap', Hmap.
Qed.

(** C7 - reading a file by its path: [read] returns exactly the contents of the
    file the path stands for, [read_to_string] the text of its valid bytes or
    [Utf8Error] when they are not UTF-8.  Nothing on the volume changes, and
    both terminate. *)
Theorem read_returns_contents fl f path d cl :
  table_ok (upcase_table f) → stored_file fl f d cl → FileDetails.data_length d < 2 ^ usize →
  resolves fl f (Some Archive) (path_to_iter path) (first_cluster_of_root_dir (fs f)) (Some d) →
  (∃ f', Api.read path f = (f', Ok (file_data fl f d cl)) ∧ vol_inv fl f' ∧ vol_same fl f f') ∧
  (∃ f', Api.read_to_string path f =
      (f', match from_utf8 (take (Z.to_nat (FileDetails.valid_data_length d)) (file_data fl f d cl)) with
           | Some s => Ok s | None => Err Utf8Error end) ∧ vol_inv fl f' ∧ vol_same fl f f').
Proof. intros Ht Hs Hl Hres. split; [by apply read_path_ok|by apply read_string_path_ok]. Qed.

(** C6 - writing a new file by its path, with contents of less than 4 GiB whose
    length is not in the gap of [File::write] (a short tail directly behind a
    cluster boundary that the whole sectors reach, [write_misses_cluster]), into
    a directory with room: it either stores a file with exactly these
    contents - the path then stands for it, entry, FAT and bitmap agree on its
    clusters, the directory as a map has this one name more, and everything is
    on the device if it was before - or finds the disk full, and then leaves the
    name with an empty file and every cluster of the volume marked as taken.
    Either way the clusters it took were free, the clusters of everything else
    keep data, FAT entry and bit, and the directory stays in order. *)
Theorem write_creates_file fl f cl l p via path name h contents :
  new_path fl f cl l p via path name h →
  contents ≠ [] → Forall byte_ok contents → SIZE + len contents ≤ 2 ^ usize → len contents < 2 ^ 32 →
  ¬ write_misses_cluster f 0 (len contents) →
  ∃ f' nl l' o, Api.write path contents f = (f', o) ∧ vol_inv fl f' ∧ in_order fl f' cl l' ∧
    upcase_table f' = upcase_table f ∧ others_same fl (nl ++ cl) f f' ∧
    (∀ k, k ∈ nl → cluster_ok f k ∧ is_allocated fl f k = false) ∧
    match o with
    | Ok () => ∃ d, (∀ name' attributes, in_directory f' cl l' name' attributes =
          with_name (upcase_table f) name d (in_directory f cl l) name' attributes) ∧
        resolves fl f' (Some Archive) (path_to_iter path) (first_cluster_of_root_dir (fs f')) (Some d) ∧
        stored_file fl f' d nl ∧ file_data fl f' d nl = contents ∧ stays_durable fl f f'
    | Err DiskFull => (∃ d, (∀ name' attributes, in_directory f' cl l' name' attributes =
          with_name (upcase_table f) name d (in_directory f cl l) name' attributes) ∧ FileDetails.data_length d = 0) ∧
        ∀ k, cluster_ok f' k → is_allocated fl f' k = true
    | _ => False
    end.
Proof. apply write_path_ok. Qed.

(** C5 - what [write] stores under a new path, [read] returns, for contents of
    less than 4 GiB whose length is not in the gap of [File::write] (a short tail
    directly behind a cluster boundary that the whole sectors reach,
    [write_misses_cluster]); the one other outcome of the write is then that
    every cluster of the volume is taken. *)
Theorem write_read_roundtrip fl f cl l p via path name h contents :
  new_path fl f cl l p via path name h →
  contents ≠ [] → Forall byte_ok contents → SIZE + len contents ≤ 2 ^ usize → len contents < 2 ^ 32 →
  ¬ write_misses_cluster f 0 (len contents) →
  ∃ f' o, Api.write path contents f = (f', o) ∧
    match o with
    | Ok () => ∃ f'', Api.read path f' = (f'', Ok contents)
    | Err DiskFull => ∀ k, cluster_ok f' k → is_allocated fl f' k = true
    | _ => False
    end.
Proof.
  intros Hnp Hne Hb Hu H32 Hgap. pose proof SIZE_range.
  destruct (write_path_ok fl f cl l p via path name h contents Hnp Hne Hb Hu H32 Hgap)
    as (f' & nl & l' & o & Hrun & _ & _ & Ht & _ & _ & Ho).
  exists f', o. split; [done|]. destruct o as [[]|[]| |]; try done; [|apply Ho].
  destruct Ho as (d & _ & Hres & Hs & Hdata & _).
  destruct (read_path_ok fl f' path d nl) as (f'' & Hread & _); [by rewrite Ht; apply Hnp|done| |done|].
  - pose proof (stored_lengths _ _ _ _ Hs). pose proof (len_file_data fl f' d nl ltac:(lia)) as Hlen.
    rewrite Hdata in Hlen. lia.
  - exists f''. by rewrite Hread, Hdata.
Qed.
End Theorems.

(** * Files of the sample directory *)
Section Sample.
#[local] Existing Instance debug_build.
#[local] Existing Instance dummy_device.
#[local] Existing Instance reference_crates.
#[local] Existing Instance reference_crates_ok.
#[local] Existing Instance debug_build_ok.
#[local] Instance sample_files_device_ok : DeviceOk debug_build dummy_device := blank_ok.
#[local] Instance sample_files_fuel : Fuel := 40%nat.

Lemma sample_new_path :
  new_path 1 sample_dir_volume [3; 7] sample_sets 0 [] (of_string "/New file.txt") sample_new_name
    (spec_name_hash UpcaseTable_default (encode_utf16 sample_new_name) 0).
Proof.
  split.
  - exact sample_dir_inv.
  - exact I.
  - apply default_table_ok.
  - exact sample_in_order.
  - vm_compute. reflexivity.
  - vm_compute. reflexivity.
  - replace (path_to_iter _) with (@nil str) by (vm_compute; reflexivity).
    change (first_cluster_of_root_dir _) with (hd 0 [3; 7]). constructor.
  - by intros id ?%elem_of_nil.
  - apply (bool_decide_unpack _). vm_compute. exact I.
  - apply (stored_free _ _ _ _ (rm_stored _ _ _ _ _ _ _ sample_crab_removable)).
  - exact sample_legal.
  - exact sample_room.
  - vm_compute. reflexivity.
Qed.
Definition sample_text : list Z := of_string "Ferris was here.".

Lemma sample_write_ok : snd (Api.write (of_string "/New file.txt") sample_text sample_dir_volume) = Ok ().
Proof. vm_compute. reflexivity. Qed.

Lemma write_creates_file_witness :
  ∃ f' l' d nl, Api.write (of_string "/New file.txt") sample_text sample_dir_volume = (f', Ok ()) ∧
    in_directory f' [3; 7] l' (of_string "NEW FILE.txt") None = Some d ∧
    FileDetails.first_cluster <$> in_directory f' [3; 7] l' (of_string "crab.txt") None = Some 6 ∧
    stored_file 1 f' d nl ∧ file_data 1 f' d nl = sample_text ∧ vseen 1 f' (cluster_sector sample_dir_volume 6) =
      vseen 1 sample_dir_volume (cluster_sector sample_dir_volume 6).
Proof.
  destruct (write_creates_file 1 sample_dir_volume [3; 7] sample_sets 0 [] (of_string "/New file.txt") sample_new_name
    (spec_name_hash UpcaseTable_default (encode_utf16 sample_new_name) 0) sample_text sample_new_path)
    as (f' & nl & l' & o & Hrun & _ & _ & _ & Hos & Hnl & Ho).
  - discriminate.
  - apply (bool_decide_unpack _). vm_compute. exact I.
  - vm_compute. congruence.
  - vm_compute. reflexivity.
  - unfold write_misses_cluster. vm_compute. intros (_ & H & _). discriminate H.
  - pose proof sample_write_ok as Ho'. rewrite Hrun in Ho'. cbn [snd] in Ho'. rewrite Ho' in Hrun, Ho.
    destruct Ho as (d & Hmap & _ & Hst & Hdata & _).
    exists f', l', d, nl. split; [exact Hrun|]. rewrite !Hmap. split; [unfold with_name|split].
    + replace (eq_name _ _ _) with true by (vm_compute; reflexivity). reflexivity.
    + unfold with_name. replace (eq_name _ _ _) with false by (vm_compute; reflexivity). vm_compute. reflexivity.
    + split; [exact Hst|]. split; [exact Hdata|].
      pose proof (stored_clusters _ _ _ _ (rm_stored _ _ _ _ _ _ _ sample_crab_removable)) as Hcl.
      rewrite <-(Z.add_0_r (cluster_sector sample_dir_volume 6)).
      apply (others_data _ _ _ _ Hos); [apply (Forall_inv Hcl)| |split; [reflexivity|vm_compute; reflexivity]].
      intros [H|H]%elem_of_app.
      * destruct (Hnl 6 H) as [_ Hna]. vm_compute in Hna. discriminate Hna.
      * apply elem_of_cons in H as [H|H%list_elem_of_singleton]; discriminate H.
Defined.

Lemma read_returns_contents_witness :
  ∃ f' contents, Api.read (of_string "/CRAB.txt") sample_dir_volume = (f', Ok contents) ∧ len contents = 700 ∧
    take 3 contents = [0; 0; 0].
Proof.
  destruct (read_returns_contents 1 sample_dir_volume (of_string "/CRAB.txt")
    (details_of (place sample_dir_volume [3; 7]) sample_crab) [6; 8]) as [(f' & Hrun & _) _].
  - apply default_table_ok.
  - apply sample_crab_removable.
  - vm_compute. reflexivity.
  - replace (path_to_iter _) with [of_string "CRAB.txt"] by (vm_compute; reflexivity).
    change (first_cluster_of_root_dir _) with (hd 0 [3; 7]).
    replace (Some (details_of _ _)) with (in_directory sample_dir_volume [3; 7] sample_sets (of_string "CRAB.txt") (Some Archive))
      by (vm_compute; reflexivity).
    constructor; [apply sample_in_order|]. eapply sample_name_ok; vm_compute; reflexivity.
  - exists f'. eexists. split; [exact Hrun|]. clear. split; vm_compute; reflexivity.
Defined.

Lemma write_read_roundtrip_witness :
  ∃ f' f'', Api.write (of_string "/New file.txt") sample_text sample_dir_volume = (f', Ok ()) ∧
    Api.read (of_string "/New file.txt") f' = (f'', Ok sample_text).
Proof.
  destruct (write_read_roundtrip 1 sample_dir_volume [3; 7] sample_sets 0 [] (of_string "/New file.txt") sample_new_name
    (spec_name_hash UpcaseTable_default (encode_utf16 sample_new_name) 0) sample_text sample_new_path) as (f' & o & Hrun & Ho).
  - vm_compute. discriminate.
  - apply (bool_decide_unpack _). vm_compute. exact I.
  - vm_compute. congruence.
  - vm_compute. reflexivity.
  - unfold write_misses_cluster. vm_compute. intros (_ & H & _). discriminate H.
  - pose proof sample_write_ok as Ho'. rewrite Hrun in Ho'. cbn [snd] in Ho'.
    rewrite Ho' in Hrun, Ho. destruct Ho as [f'' Ho]. exists f', f''. split; [exact Hrun|exact Ho].
Defined.
End Sample.
