(* ===== verification/PathReplace.v ===== *)
(** * Replacing a file by path

    [write] of src/file_system.rs on a path that has a file: [open] truncates
    the file, [File::write] gives it new clusters, [File::flush] files it. *)

From S2P Require Import Prelude Text Crates Errors Utils Timestamp BootSector Device SlotCache Touched Fat Allocation AllocationSearch Regions Volume VolumeInv VolumeAlloc DirectoryEntry Directory FileSystem File FileRead FileGrow FreeChain FileWrite FileSeek Api FileOpen DirSets FileFlush DirWalk DirFree DirLookup PathLookup DirCreate DirInsert DirRemove PathCreate DirUpdate Truncate PathFiles.
Import FileSystemDetails (cluster_length, sectors_per_cluster, first_cluster_of_root_dir).

(** * Specification *)
Section Spec.
Context {cfg : Config} {crates : Crates} {bd : BlockDevice} {fu : Fuel} {Hbd : DeviceOk cfg bd}.
Implicit Types (f : FileSystem) (cl via fcl : list Z) (s : dir_set) (name path : str).

(** A path to a file that is there: its set [s] is in the directory in the
    clusters [cl], which is reached through the clusters [via]; the file is in
    the clusters [fcl], which are none of these. *)
Record old_path (fl : Z) f cl l1 s l2 via fcl path name : Prop := {
  ol_clock : clock_ok f;
  ol_table : table_ok (upcase_table f);
  ol_removable : removable fl f cl l1 s l2 fcl;
  ol_set : same_name (upcase_table f) name s = true;
  ol_attributes : contains (FileDirEntry.file_attributes (set_file s)) Archive = true;
  ol_name : name_ok (upcase_table f) name;
  ol_path : path_to_iter path = path_to_iter (fst (split_path path)) ++ [name];
  ol_walk : walks fl f (path_to_iter (fst (split_path path))) (first_cluster_of_root_dir (fs f)) (hd 0 cl) via;
  ol_apart id : id ∈ via → id ∉ cl;
  ol_others id : id ∈ fcl → id ∉ via;
  ol_taken : Forall (λ id, is_allocated fl f id = true) (via ++ cl);
}.
End Spec.

(** * Opening *)
Section Open.
Context {cfg : Config} {crates : Crates} {bd : BlockDevice} {fu : Fuel}.
Context {Hcfg : ConfigOk cfg} {Hcr : CratesOk crates} {Hbd : DeviceOk cfg bd}.
Implicit Types (f : FileSystem) (cl via fcl : list Z) (s : dir_set) (d : FileDetails.t) (name path : str).

(** The name stands for its own set. *)
Lemma in_directory_own fl f cl l1 s l2 name :
  in_order fl f cl (l1 ++ s :: l2) → same_name (upcase_table f) name s = true →
  contains (FileDirEntry.file_attributes (set_file s)) Archive = true →
  in_directory f cl (l1 ++ s :: l2) name (Some Archive) = Some (details_of (place f cl) s).
Proof.
  intros Hio Hn Ha. assert (Hst : vol_step fl (λ _, False) f f) by (apply vol_step_refl).
  rewrite (updated_map fl _ f f cl l1 s s l2 name Hst (io_unique _ _ _ _ Hio) Hn eq_refl).
  unfold with_name, eq_name. rewrite bool_decide_true by done. cbn [details_of FileDetails.attributes]. by rewrite Ha.
Qed.

(** What truncating does to the clusters. *)
Lemma truncated_others fl f cl l1 s l2 fcl f' :
  removable fl f cl l1 s l2 fcl → truncated fl f cl l1 s l2 fcl f' → others_same fl (fcl ++ cl) f f'.
Proof.
  intros Hrm [_ Hst _ _ (c & _ & Htab) _]. pose proof (stored_vol _ _ _ _ (rm_stored _ _ _ _ _ _ _ Hrm)) as Hv.
  pose proof (rm_order _ _ _ _ _ _ _ Hrm) as Hio.
  pose proof (dir_data _ _ _ (sb_dir _ _ _ _ (io_search _ _ _ _ Hio))) as Hcl.
  destruct (set_range fl f cl l1 s l2 Hv Hio) as [Hp0 Hpn]. assert (Hs2 : 2 ≤ set_size s) by (unfold set_size; lia).
  apply (tables_others fl f f' c); [done| |done]. eapply vol_step_weaken; [|exact Hst].
  intros x [Hx|Hx%head_sectors_entries]; [by left|right].
  apply (run_sectors_cluster fl f cl (set_pos s) 2); [done|done|lia| |done]. pose proof (rm_cluster _ _ _ _ _ _ _ Hrm). lia.
Qed.

(** The emptied file, as it is opened. *)
Lemma opened_empty fl f f' cl l1 s l2 via fcl path name c file :
  old_path fl f cl l1 s l2 via fcl path name → truncated fl f cl l1 s l2 fcl f' →
  let d := details_of (place f cl) s in
  in_order fl f' cl (l1 ++ emptied_set c d s :: l2) → grow_inv fl f' file [] → details file = emptied d →
  opened fl f' file cl l1 (emptied_set c d s) l2 (set_pos s) via path name [].
Proof.
  intros [Hc Ht Hrm Hn Ha Hnm Hpa Hw Hap Hoth Hal] Htr d Hio' Hg Hd.
  pose proof (truncated_others fl f cl l1 s l2 fcl f' Hrm Htr) as Hos. pose proof (trunc_step _ _ _ _ _ _ _ _ Htr) as Hst.
  pose proof (trunc_inv _ _ _ _ _ _ _ _ Htr) as Hv'.
  pose proof (stored_vol _ _ _ _ (rm_stored _ _ _ _ _ _ _ Hrm)) as Hv. pose proof (rm_order _ _ _ _ _ _ _ Hrm) as Hio.
  pose proof (dir_data _ _ _ (sb_dir _ _ _ _ (io_search _ _ _ _ Hio))) as Hcl. pose proof (walks_data _ _ _ _ _ _ Hw) as Hvia.
  assert (Hni : ∀ id, id ∈ via → id ∉ fcl ++ cl).
  { intros id Hid [Hf|Hf]%elem_of_app; [by apply (Hoth id)|by apply (Hap id)]. }
  destruct Htr as [_ _ _ _ (ch & _ & Htab) _]. split; try done.
  - unfold clock_ok. by rewrite (step_clock _ _ _ _ Hst).
  - by rewrite (step_table _ _ _ _ Hst).
  - rewrite (step_fs _ _ _ _ Hst). apply (walks_kept fl _ f f' _ _ _ via Hv Hst); [|done].
    by apply (others_kept_list fl (fcl ++ cl)).
  - rewrite Forall_app in Hal. rewrite Forall_app, !Forall_forall. rewrite !Forall_forall in Hal. rewrite Forall_forall in Hcl, Hvia.
    destruct Hal as [Ha1 Ha2]. split; intros id Hid.
    + destruct (Htab id (proj1 (Hvia id Hid))) as [-> _]. rewrite decide_False; [by apply Ha1|]. intros Hf. by apply (Hoth id).
    + destruct (Htab id (proj1 (Hcl id Hid))) as [-> _]. rewrite decide_False; [by apply Ha2|]. intros Hf.
      by apply (rm_disjoint _ _ _ _ _ _ _ Hrm id).
  - by rewrite (step_table _ _ _ _ Hst).
  - split; [|done]. by rewrite (step_table _ _ _ _ Hst).
  - rewrite (EPC_step fl _ f f' Hst). apply Hrm.
  - rewrite Hd. cbn. by rewrite (place_step fl _ f f' cl _ Hst).
  - rewrite Hd. apply Hrm.
  - rewrite Hd. apply (set_flags _ _ _ _ _ (emptied_entry_set fl f cl l1 s l2 Hv Hio (rm_count _ _ _ _ _ _ _ Hrm) (rm_cluster _ _ _ _ _ _ _ Hrm))).
  - rewrite Hd. destruct (cluster_length_pos fl f' Hv') as (? & ? & _). unfold clusters_for. cbn.
    symmetry. apply Z.div_small. lia.
  - by intros id ?%elem_of_nil.
Qed.

Lemma open_old_ok fl f cl l1 s l2 via fcl path name :
  old_path fl f cl l1 s l2 via fcl path name → let d := details_of (place f cl) s in
  ∃ f' file c, ready fl f path write_options f' file ∧ opened fl f' file cl l1 (emptied_set c d s) l2 (set_pos s) via path name [] ∧
    (∀ name' attributes, in_directory f' cl (l1 ++ emptied_set c d s :: l2) name' attributes =
       with_name (upcase_table f) name (emptied d) (in_directory f cl (l1 ++ s :: l2)) name' attributes) ∧
    others_same fl (fcl ++ cl) f f' ∧ ∀ k, cluster_ok f k → is_allocated fl f' k = (if decide (k ∈ fcl) then false else is_allocated fl f k).
Proof.
  intros Hop d. pose proof Hop as [_ Ht Hrm Hn Ha Hnm Hpa Hw _ _ _]. pose proof (rm_order _ _ _ _ _ _ _ Hrm) as Hio.
  pose proof (rm_stored _ _ _ _ _ _ _ Hrm) as Hsf. pose proof (stored_vol _ _ _ _ Hsf) as Hv.
  pose proof (walks_resolves fl f _ _ cl via _ name (Some Archive) Hw (io_search _ _ _ _ Hio) Hnm) as Hres.
  rewrite <-Hpa, (in_directory_own fl f cl l1 s l2 name Hio Hn Ha) in Hres. fold d in Hres.
  destruct (find_path_ok fl f (Some Archive) path _ Hv Ht Hres) as (f0 & Hv0 & Hst0 & _ & Hfind).
  destruct (truncate_ok fl f0 cl l1 s l2 fcl (removable_same fl f f0 cl l1 s l2 fcl Hv0 Hst0 Hrm)) as (f1 & Hrun & Htr0).
  assert (Hd0 : details_of (place f0 cl) s = d) by (unfold d, details_of; by rewrite (place_step fl _ f f0 cl _ Hst0)).
  rewrite Hd0 in Hrun. pose proof (truncated_after fl f f0 cl l1 s l2 fcl f1 Hv (stored_clusters _ _ _ _ Hsf) Hst0 Htr0) as Htr.
  pose proof Htr as [Hv1 Hst1 [c Hio1] _ (ch & _ & Htab) Hdur]. fold d in Hio1. pose proof (stored_lengths _ _ _ _ Hsf) as Hlen. fold d in Hlen.
  assert (Hmin : FileDetails.valid_data_length (emptied d) = 0) by (cbn [emptied FileDetails.valid_data_length]; lia).
  destruct (open_stored_ok fl f1 write_options (emptied d) []) as (f2 & file & Hopen & Hst2 & Hg & Hdf & Hopt & Hcur & Htou & Hg1).
  { apply empty_stored; [done| |done|done]. intros id Hid Hna.
    assert (Hid' : cluster_ok f id) by (unfold cluster_ok in *; by rewrite <-(step_fs _ _ _ _ Hst1)).
    apply (data_cluster_step fl _ f f1 id Hst1). destruct (Htab id Hid') as [Heq _]. rewrite Heq in Hna.
    destruct (decide (id ∈ fcl)) as [Hin|_]; [|by apply Hsf]. pose proof (stored_clusters _ _ _ _ Hsf) as Hfcl.
    rewrite Forall_forall in Hfcl. by apply Hfcl. }
  { done. }
  exists f2, file, c. split; [|split; [|split; [|split]]].
  - split; [|by eapply vol_step_weaken; [|eapply vol_step_trans; [exact Hst1|by apply vol_same_step]]| | | | |done|done].
    + unfold Api.open. rewrite (bind_Ok _ _ _ _ _ (mounted_ok fl f Hv)).
      rewrite (bind_Ok (try_ (find_file_or_directory path (Some Archive))) _ f f0 (inr d))
        by (unfold try_, find_file_or_directory; by rewrite Hfind).
      unfold open_details. cbn [write_options OpenOptions.create_new OpenOptions.truncate].
      rewrite (bind_Ok _ _ _ f1 (emptied d)) by exact Hrun. exact Hopen.
    + eapply stays_durable_trans; [exact Hst1|exact Hdur|by apply stays_durable_same].
    + by rewrite Hdf.
    + by rewrite Hdf.
    + done.
  - apply (opened_same fl f1 f2 file file); [|done..]. by apply (opened_empty fl f f1 cl l1 s l2 via fcl).
  - intros name' attributes. rewrite (in_directory_step fl _ f1 f2) by done.
    by rewrite (updated_map fl _ f f1 cl l1 s (emptied_set c d s) l2 name Hst1 (io_unique _ _ _ _ Hio) Hn).
  - eapply others_same_trans; [apply Hst1|apply Hst1|by eapply truncated_others|]. apply (others_same_weaken fl []); [|by intros ? ?%elem_of_nil].
    apply others_same_data; [done|by apply vol_same_step|done].
  - intros k Hk. destruct (Htab k Hk) as [<- _]. assert (Hk1 : cluster_ok f1 k) by (unfold cluster_ok; by rewrite (step_fs _ _ _ _ Hst1)).
    apply (tables_same_data fl (λ _, False) f1 f2 k Hv1 Hst2); [tauto|done].
Qed.
End Open.

(** * Theorems *)
Section Theorems.
Context {cfg : Config} {crates : Crates} {bd : BlockDevice} {fu : Fuel}.
Context {Hcfg : ConfigOk cfg} {Hcr : CratesOk crates} {Hbd : DeviceOk cfg bd}.
Implicit Types (f : FileSystem) (cl via fcl : list Z) (s : dir_set) (name path : str).

(** C8 - writing to a path that has a file, with contents of less than 4 GiB whose
    length is not in the gap of [File::write] (a short tail directly behind a
    cluster boundary that the whole sectors reach, [write_misses_cluster]): it
    either replaces its contents - the
    path then stands for a file with exactly the new contents, which [read]
    returns, entry, FAT and bitmap agree on its clusters, and everything is on
    the device if it was before - or finds the disk full, and then leaves the
    name with an empty file and every cluster of the volume marked as taken:
    the old contents are lost.  Either way the new clusters were free or were
    the file's, the old clusters it does not use again are free, the directory
    keeps every other name, and the clusters of everything else keep data, FAT
    entry and bit. *)
Theorem write_replaces_file fl f cl l1 s l2 via fcl path name contents :
  old_path fl f cl l1 s l2 via fcl path name →
  contents ≠ [] → Forall byte_ok contents → SIZE + len contents ≤ 2 ^ usize → len contents < 2 ^ 32 →
  ¬ write_misses_cluster f 0 (len contents) →
  ∃ f' nl l' d o, Api.write path contents f = (f', o) ∧ vol_inv fl f' ∧ in_order fl f' cl l' ∧
    (∀ name' attributes, in_directory f' cl l' name' attributes =
       with_name (upcase_table f) name d (in_directory f cl (l1 ++ s :: l2)) name' attributes) ∧
    others_same fl (nl ++ fcl ++ cl) f f' ∧
    (∀ k, k ∈ nl → cluster_ok f k ∧ (k ∈ fcl ∨ is_allocated fl f k = false)) ∧
    (∀ k, k ∈ fcl → k ∉ nl → is_allocated fl f' k = false) ∧
    match o with
    | Ok () => resolves fl f' (Some Archive) (path_to_iter path) (first_cluster_of_root_dir (fs f')) (Some d) ∧
        stored_file fl f' d nl ∧ file_data fl f' d nl = contents ∧ stays_durable fl f f' ∧
        ∃ f'', Api.read path f' = (f'', Ok contents)
    | Err DiskFull => FileDetails.data_length d = 0 ∧ ∀ k, cluster_ok f' k → is_allocated fl f' k = true
    | _ => False
    end.
Proof.
  intros Hop Hne Hb Hu H32 Hgap. pose proof (ol_removable _ _ _ _ _ _ _ _ _ _ Hop) as Hrm. pose proof SIZE_range.
  pose proof (rm_stored _ _ _ _ _ _ _ Hrm) as Hsf. pose proof (stored_vol _ _ _ _ Hsf) as Hv.
  destruct (open_old_ok fl f cl l1 s l2 via fcl path name Hop) as (f1 & file & c & Hrd & Hod & Hmap & Hos1 & Hal).
  set (d0 := emptied (details_of (place f cl) s)) in *. pose proof (rd_step _ _ _ _ _ _ Hrd) as Hst1.
  destruct (write_ready_ok fl f f1 file cl l1 _ l2 _ via path name contents Hv Hrd Hod Hne Hb Hu H32 Hgap)
    as (f' & nl & l' & o & Hrun & Hv' & Hio' & Ht' & Hos & Hnl & Ho).
  pose proof (data_clusters_ok _ _ (stored_clusters _ _ _ _ Hsf)) as Hok. rewrite Forall_forall in Hok.
  assert (Hos' : others_same fl (nl ++ fcl ++ cl) f f').
  { eapply others_same_trans; [apply Hst1|apply Hst1| |].
    - apply (others_same_weaken fl (fcl ++ cl)); [done|]. intros id Hid. apply elem_of_app. by right.
    - apply (others_same_weaken fl (nl ++ cl)); [done|]. intros id. rewrite !elem_of_app. tauto. }
  assert (Hnl' : ∀ k, k ∈ nl → cluster_ok f k ∧ (k ∈ fcl ∨ is_allocated fl f k = false)).
  { intros k [Hk Hna]%Hnl. split; [done|]. rewrite (Hal k Hk) in Hna. destruct (decide (k ∈ fcl)); [by left|by right]. }
  assert (Hfree : ∀ k, k ∈ fcl → k ∉ nl → is_allocated fl f' k = false).
  { intros k Hin Hni. pose proof (Hok k Hin) as Hk. rewrite (others_alloc _ _ _ _ Hos k).
    - rewrite (Hal k Hk). by rewrite decide_True.
    - unfold cluster_ok in *. by rewrite (step_fs _ _ _ _ Hst1).
    - intros [Hx|Hx]%elem_of_app; [done|]. by apply (rm_disjoint _ _ _ _ _ _ _ Hrm k). }
  destruct o as [[]|[]| |]; try done.
  - destruct Ho as (d & Hmap' & Hres & Hs & Hdata & Hdur). exists f', nl, l', d, (Ok ()). do 3 (split; [done|]). split.
    { intros name' attributes. rewrite Hmap'. rewrite <-(with_name_twice _ name d d0 (in_directory f cl (l1 ++ s :: l2))).
      apply with_name_ext. intros n a. apply Hmap. }
    do 3 (split; [done|]). do 4 (split; [done|]).
    destruct (read_path_ok fl f' path d nl) as (f'' & Hread & _); [by rewrite Ht'; apply Hop|done| |done|].
    + pose proof (stored_lengths _ _ _ _ Hs). pose proof (len_file_data fl f' d nl ltac:(lia)) as Hlen.
      rewrite Hdata in Hlen. lia.
    + exists f''. by rewrite Hread, Hdata.
  - destruct Ho as [Hmap' Hfull]. exists f', nl, l', d0, (Err DiskFull). do 3 (split; [done|]). split.
    { intros name' attributes. by rewrite Hmap', Hmap. }
    done.
Qed.
End Theorems.

(** * Replacing a file of the sample directory *)
Section Sample.
#[local] Existing Instance debug_build.
#[local] Existing Instance dummy_device.
#[local] Existing Instance reference_crates.
#[local] Existing Instance reference_crates_ok.
#[local] Existing Instance debug_build_ok.
#[local] Existing Instance sample_files_device_ok.
#[local] Existing Instance sample_files_fuel.

Lemma sample_old_path :
  old_path 1 sample_dir_volume [3; 7] [] sample_crab (tail sample_sets) [] [6; 8] (of_string "/CRAB.txt") (of_string "CRAB.txt").
Proof.
  split.
  - exact I.
  - apply default_table_ok.
  - exact sample_crab_removable.
  - vm_compute. reflexivity.
  - vm_compute. reflexivity.
  - eapply sample_name_ok; vm_compute; reflexivity.
  - vm_compute. reflexivity.
  - replace (path_to_iter _) with (@nil str) by (vm_compute; reflexivity).
    change (first_cluster_of_root_dir _) with (hd 0 [3; 7]). constructor.
  - by intros id ?%elem_of_nil.
  - by intros id _ ?%elem_of_nil.
  - apply (bool_decide_unpack _). vm_compute. exact I.
Qed.
Lemma sample_replace_ok : snd (Api.write (of_string "/CRAB.txt") sample_text sample_dir_volume) = Ok ().
Proof. vm_compute. reflexivity. Qed.

Lemma write_replaces_file_witness :
  ∃ f' f'' d nl, Api.write (of_string "/CRAB.txt") sample_text sample_dir_volume = (f', Ok ()) ∧
    stored_file 1 f' d nl ∧ file_data 1 f' d nl = sample_text ∧ Api.read (of_string "/CRAB.txt") f' = (f'', Ok sample_text).
Proof.
  destruct (write_replaces_file 1 sample_dir_volume [3; 7] [] sample_crab (tail sample_sets) [] [6; 8] (of_string "/CRAB.txt")
    (of_string "CRAB.txt") sample_text sample_old_path) as (f' & nl & l' & d & o & Hrun & _ & _ & _ & _ & _ & _ & Ho).
  - discriminate.
  - apply (bool_decide_unpack _). vm_compute. exact I.
  - vm_compute. congruence.
  - vm_compute. reflexivity.
  - unfold write_misses_cluster. vm_compute. intros (_ & H & _). discriminate H.
  - pose proof sample_replace_ok as Ho'. rewrite Hrun in Ho'. cbn [snd] in Ho'. rewrite Ho' in Hrun, Ho.
    destruct Ho as (_ & Hs & Hdata & _ & f'' & Hread). exists f', f'', d, nl.
    split; [exact Hrun|]. split; [exact Hs|]. split; [exact Hdata|exact Hread].
Defined.
End Sample.
