(* ===== verification/DirMake.v ===== *)
(** * Creating a directory by path

    [create_directory] of src/file_system.rs: a free cluster is looked for and
    marked, filled with zeros, and gets an entry set in the parent directory. *)

From S2P Require Import Prelude Text Crates Errors Utils Timestamp BootSector Device SlotCache Touched Fat Allocation AllocationSearch Regions Volume VolumeInv VolumeAlloc DirectoryEntry Directory FileSystem File FileRead FileGrow FreeChain FileWrite FileOpen DirSets FileFlush DirWalk DirFree DirLookup PathLookup DirCreate DirInsert DirRemove PathCreate DirUpdate PathFiles.
Import FileSystemDetails (cluster_length, sectors_per_cluster, first_cluster_of_root_dir).

(** * Specification *)
Section Spec.
Context {cfg : Config} {crates : Crates} {bd : BlockDevice} {fu : Fuel} {Hbd : DeviceOk cfg bd}.
Implicit Types (f : FileSystem) (cl via : list Z) (name path : str) (p : Z).

(** The details of a new directory in cluster [c]. *)
Definition directory_details f cl p name c (ts : EncodedTimestamp) : FileDetails.t :=
  stored (created_details ts (place f cl p) (set_count name - 1) c Directory
    (flag_union AllocationPossible NoFatChain) (cluster_length (fs f)) (cluster_length (fs f))).

(** What [create_directory] leaves behind: the set [x] in the parent directory
    in the clusters [cl], and an empty directory in the cluster [c], which was
    free and is filled with zeros. *)
Record made (fl : Z) f cl l p via path name c l1 (x : dir_set) l2 f' : Prop := {
  md_inv : vol_inv fl f';
  md_cluster : data_cluster f c;
  md_free : is_allocated fl f c = false;
  md_bits k : cluster_ok f k → is_allocated fl f' k = if decide (k = c) then true else is_allocated fl f k;
  md_list : l = l1 ++ l2;
  md_order : in_order fl f' cl (l1 ++ x :: l2);
  md_set : set_pos x = p ∧ set_size x = set_count name ∧ same_name (upcase_table f) name x = true;
  md_details : ∃ ts, details_of (place f cl) x = directory_details f cl p name c ts;
  md_map name' attributes : in_directory f' cl (l1 ++ x :: l2) name' attributes =
    with_name (upcase_table f) name (details_of (place f cl) x) (in_directory f cl l) name' attributes;
  md_empty : in_order fl f' [c] [];
  md_zeros k : 0 ≤ k < sectors_per_cluster (fs f) → vseen fl f' (cluster_sector f c + k) = zeros SIZE;
  md_parent : walks fl f' (path_to_iter (fst (split_path path))) (first_cluster_of_root_dir (fs f')) (hd 0 cl) via;
  md_walk : walks fl f' (path_to_iter path) (first_cluster_of_root_dir (fs f')) c (via ++ cl);
  md_step : vol_step fl (λ _, True) f f';
  md_others : others_same fl (c :: cl) f f';
  md_durable : stays_durable fl f f';
}.
End Spec.

(** * Looking for a free cluster *)
Section Search.
Context {cfg : Config} {crates : Crates} {bd : BlockDevice} {fu : Fuel}.
Context {Hcfg : ConfigOk cfg} {Hcr : CratesOk crates} {Hbd : DeviceOk cfg bd}.
Implicit Types (f : FileSystem) (t : FileDirty).

(** The search finds free clusters, as many as asked for or the longest run
    behind the place where the search begins, or there are none; readers see no
    difference. *)
Lemma vol_find_free {T} (t : T) fl f num :
  vol_inv fl f → 0 < num →
  ∃ f' o, zoom lsnd (zoom lallocdev (find_free_clusters None num LongestRun)) (t, f) = ((t, f'), o) ∧
    vol_inv fl f' ∧ vol_same fl f f' ∧
    match o with
    | Ok run => run_ok (allocator f') run ∧ cluster_count run ≤ num ∧
        (∀ k, in_run run k → cluster_ok f k ∧ is_allocated fl f k = false) ∧
        (cluster_count run = num ∨ ∀ k n, next_search_cluster (allocator f) ≤ k → k + n ≤ limit (allocator f) →
           (∀ j, k ≤ j < k + n → is_allocated fl f j = false) → n ≤ cluster_count run)
    | Err DiskFull => ∀ k, cluster_ok f k → is_allocated fl f k = true
    | _ => False
    end.
Proof.
  intros Hv Hnum. pose proof (vol_alloc_inv fl f Hv) as Hai.
  destruct (find_free_clusters_ok (Hbd:=region_device (bitmap_region f) (device f)) (allocator f) (device f) None num LongestRun
    Hai (alloc_rover _ _ Hai)) as (al' & d' & o & Hr & Hai' & Hb & Hs & Ho).
  destruct (bitmap_leave fl f al' d' _ Hv Hai' Hb Hs) as [Hv' Hst].
  exists (put lallocdev (al', d') f), o. split; [|split; [done|split; [done|]]].
  { etransitivity; [apply zoom_eq, zoom_eq, Hr|done]. }
  assert (Hk : ∀ k, 2 ≤ k < limit (allocator f) ↔ cluster_ok f k)
    by (intros k; unfold cluster_ok; by rewrite (vol_limit fl f Hv)).
  unfold find_answer in Ho. pose proof (alloc_rover _ _ Hai) as Hrov. destruct o as [run|[]| |]; try done.
  - destruct Ho as [(start & Hstart & [(R1 & R2 & R3 & R5 & R4) Hpr]) _]. cbn [default] in Hstart.
    assert (H2 : 2 ≤ start ≤ next_search_cluster (allocator f)) by (destruct Hstart as [->|[-> _]]; [cbn; lia|lia]).
    split; [|split; [|split]].
    + unfold run_ok. change (allocator (put lallocdev (al', d') f)) with al'. unfold limit in *. rewrite Hb. lia.
    + by apply R4.
    + intros k Hin. unfold in_run in Hin. assert (Hkr : 2 ≤ k < limit (allocator f)) by lia.
      split; [by apply Hk|]. rewrite (is_allocated_eq fl f k Hv (proj1 (Hk k) Hkr)).
      specialize (R5 k Hin). unfold is_free_in in R5. by apply negb_true_iff.
    + destruct Hpr as [?|Hpr]; [by left|right]. intros k n Hrk Hn Hfr. apply (Hpr k n); [lia|done|]. intros j Hj.
      specialize (Hfr j Hj). rewrite (is_allocated_eq fl f j Hv) in Hfr by (apply Hk; lia). unfold is_free_in. apply negb_true_iff. exact Hfr.
  - intros k Hok. rewrite (is_allocated_eq fl f k Hv Hok). by apply Ho, Hk.
Qed.
End Search.

(** * The new cluster *)
Section Zero.
Context {cfg : Config} {crates : Crates} {bd : BlockDevice} {fu : Fuel}.
Context {Hcfg : ConfigOk cfg} {Hcr : CratesOk crates} {Hbd : DeviceOk cfg bd}.
Implicit Types (f : FileSystem) (t : FileDirty) (cl : list Z).

Lemma zeros_block : block_ok (zeros SIZE).
Proof.
  pose proof SIZE_range. split; [unfold len, zeros; rewrite length_replicate; lia|].
  apply Forall_replicate. unfold byte_ok. lia.
Qed.

Lemma zero_sectors_ok fl (n : nat) : ∀ f t s,
  vol_inv fl f → dirty_ok t → (∀ k, 0 ≤ k < Z.of_nat n → data_region f (s + k)) →
  ∃ t' f', for_each (seqZ s (Z.of_nat n)) (λ sector_id,
      zoom lsnd (zoom ldata (update sector_id (λ b, Ok (replicate (length b) 0)))) ;;
      touch Dir sector_id) (t, f) = ((t', f'), Ok ()) ∧
    vol_op fl (λ x, s ≤ x < s + Z.of_nat n) t f t' f' ∧ ∀ k, 0 ≤ k < Z.of_nat n → vseen fl f' (s + k) = zeros SIZE.
Proof.
  induction n as [|n IH]; intros f t s Hv Ht Hd.
  { exists t, f. split; [done|]. split; [by apply vol_op_refl|]. intros k Hk. lia. }
  assert (Hd0 : data_region f s) by (replace s with (s + 0) by lia; apply Hd; lia).
  pose proof (vseen_ok fl f s Hv (or_intror (or_intror Hd0))) as [Hl _].
  destruct (data_update fl f s (λ b, Ok (replicate (length b) 0)) (zeros SIZE) Hv Hd0) as (f1 & Hu & Hv1 & Hst1 & Hs1).
  { unfold zeros. do 2 f_equal. unfold len in Hl. lia. }
  { apply zeros_block. }
  pose proof (vol_op_one fl t f f1 (TouchedSector_new Dir s) Hv1 Hst1 Ht Hd0) as Hop1.
  destruct (IH f1 (insert (TouchedSector_new Dir s) t) (s + 1) Hv1 (insert_ok _ _ Ht)) as (t2 & f2 & Hr & Hop2 & Hz).
  { intros k Hk. apply (data_region_step fl _ f f1 _ Hst1). replace (s + 1 + k) with (s + (k + 1)) by lia. apply Hd. lia. }
  pose proof (op_step _ _ _ _ _ _ Hop2) as Hst2.
  exists t2, f2. split; [|split].
  - rewrite (seqZ_cons s) by lia. cbn [for_each]. rewrite bind_assoc.
    rewrite (bind_Ok _ _ _ (t, f1) ()) by (by eapply zoom_to).
    rewrite (bind_Ok _ _ _ (insert (TouchedSector_new Dir s) t, f1) ()) by done.
    replace (Z.succ s) with (s + 1) by lia. by replace (Z.pred (Z.of_nat (S n))) with (Z.of_nat n) by lia.
  - eapply vol_op_trans; (eapply vol_op_weaken; [|eassumption]); cbn; lia.
  - intros k Hk. destruct (decide (k = 0)) as [->|Hne].
    + rewrite Z.add_0_r. rewrite (step_seen _ _ _ _ Hst2); [done| |lia].
      apply (in_volume_step fl _ f f1 s Hst1). by right; right.
    + replace (s + k) with (s + 1 + (k - 1)) by lia. apply Hz. lia.
Qed.

(** [zero_cluster] *)
Lemma zero_cluster_ok fl f t id :
  vol_inv fl f → dirty_ok t → data_cluster f id →
  ∃ t' f', zero_cluster id (t, f) = ((t', f'), Ok ()) ∧ vol_op fl (cluster_sectors f [id]) t f t' f' ∧
    ∀ k, 0 ≤ k < sectors_per_cluster (fs f) → vseen fl f' (cluster_sector f id + k) = zeros SIZE.
Proof.
  intros Hv Ht [Hid Hd]. pose proof (vol_geometry _ _ Hv) as Hg. pose proof (cluster_sector_pos fl f id Hv Hid).
  destruct (geo_cluster _ _ _ Hg) as [Hspc _]. set (spc := sectors_per_cluster (fs f)) in *.
  destruct (zero_sectors_ok fl (Z.to_nat spc) f t (cluster_sector f id) Hv Ht) as (t' & f' & Hr & Hop & Hz).
  { intros k Hk. apply Hd. lia. }
  rewrite Z2Nat.id in * by lia. exists t', f'. split; [|split; [|done]].
  - unfold zero_cluster. rewrite (bind_Ok _ _ _ (t, f) (fs f)) by done. fold spc.
    rewrite (get_heap_sector_ok fl f id Hg Hid), bind_lift_Ok. rewrite add_ok, bind_lift_Ok.
    + by replace (cluster_sector f id + spc - cluster_sector f id) with spc by lia.
    + pose proof (geo_heap _ _ _ Hg) as Hheap. pose proof (geo_fat _ _ _ Hg). unfold cluster_ok, cluster_sector in *. fold spc in Hheap |- *.
      assert (0 ≤ (id - 2) * spc) by (apply Z.mul_nonneg_nonneg; lia).
      assert ((id - 2) * spc + spc ≤ spc * FileSystemDetails.cluster_count (fs f))
        by (rewrite <-(Z.mul_succ_l (id - 2) spc), Z.mul_comm; apply Z.mul_le_mono_nonneg_l; lia). lia.
  - eapply vol_op_weaken; [|exact Hop]. intros x Hx. exists id, (x - cluster_sector f id). split; [by apply list_elem_of_singleton|].
    cbn in Hx. fold spc. lia.
Qed.

(** A cluster of zeros is an empty directory. *)
Lemma zero_entry j : 0 ≤ j < EPS → entry_in (zeros SIZE) j = replicate 32 0.
Proof.
  intros Hj. pose proof EPS_range as [? HS]. unfold entry_in, zeros. rewrite drop_replicate, take_replicate. f_equal. lia.
Qed.
Lemma zero_entries fl f id :
  vol_inv fl f → data_cluster f id →
  (∀ k, 0 ≤ k < sectors_per_cluster (fs f) → vseen fl f (cluster_sector f id + k) = zeros SIZE) →
  Forall (λ e, is_end e = true) (dir_list fl f [id] 0 (dir_len f [id])).
Proof.
  intros Hv Hid Hz. apply Forall_fmap, Forall_forall. intros p Hp%elem_of_seqZ. unfold compose, dir_at, dir_entry.
  assert (Hcl : Forall (data_cluster f) [id]) by (by constructor).
  destruct (dir_cluster_ok fl f [id] p Hv Hcl) as (Hin & _ & Hm); [lia|].
  assert (Hone : dir_cluster f [id] p = id).
  { unfold dir_cluster in *. apply list_elem_of_lookup_2, list_elem_of_singleton in Hin. done. }
  rewrite Hone. pose proof EPS_range. set (r := p mod EPC f) in *. unfold EPC in Hm.
  rewrite Hz by (split; [apply Z.div_pos; lia|apply Z.div_lt_upper_bound; lia]).
  rewrite zero_entry by apply EPS_mod. reflexivity.
Qed.
Lemma empty_directory fl f id :
  vol_inv fl f → data_cluster f id → successor (fat_entry fl f id) = None → dir_len f [id] < Z.of_nat fuel →
  dir_len f [id] ≤ 2 ^ 23 →
  (∀ k, 0 ≤ k < sectors_per_cluster (fs f) → vseen fl f (cluster_sector f id + k) = zeros SIZE) →
  in_order fl f [id] [].
Proof.
  intros Hv Hid Hfat Hfu Hsm Hz.
  pose proof (zero_entries fl f id Hv Hid Hz) as Hall.
  split; [split; [split|..]|..]; try done.
  - by constructor.
  - intros l [= <-]. done.
  - destruct (dir_list fl f [id] 0 (dir_len f [id])) as [|e es]; [done|]. cbn [dir_sets].
    by rewrite (Forall_inv Hall).
  - intros pre e post Heq _. rewrite Heq in Hall. by apply Forall_app in Hall as [_ [_ ?]%Forall_cons].
  - constructor.
Qed.
End Zero.

(** * The directory *)
Section Make.
Context {cfg : Config} {crates : Crates} {bd : BlockDevice} {fu : Fuel}.
Context {Hcfg : ConfigOk cfg} {Hcr : CratesOk crates} {Hbd : DeviceOk cfg bd}.
Implicit Types (f : FileSystem) (t : FileDirty) (cl via : list Z) (name path : str) (p : Z).

(** A step of the bitmap keeps everything else. *)
Lemma bits_fat fl f f' id :
  vol_inv fl f → vol_step fl (bitmap_region f) f f' → cluster_ok f id → fat_entry fl f' id = fat_entry fl f id.
Proof.
  intros Hv Hst Hid. apply (fat_entry_step fl _ f f' id Hv Hst Hid). intros Hb. pose proof (fat_sector_region fl f id Hv Hid) as Hf.
  destruct (regions_disjoint fl f (fat_sector f id) (vol_geometry _ _ Hv)) as (H1 & H2 & H3). tauto.
Qed.
Lemma others_same_bits fl ids f f' :
  vol_inv fl f → vol_step fl (bitmap_region f) f f' →
  (∀ k, cluster_ok f k → k ∉ ids → is_allocated fl f' k = is_allocated fl f k) → others_same fl ids f f'.
Proof.
  intros Hv Hst Hal. split; [|done|].
  - intros id Hid _. by apply (bits_fat fl f f').
  - intros id k [_ Hd] _ Hk. specialize (Hd k Hk). apply (step_seen _ _ _ _ Hst); [by right; right|].
    destruct (regions_disjoint fl f (cluster_sector f id + k) (vol_geometry _ _ Hv)) as (H1 & H2 & H3). tauto.
Qed.

(** Room in a directory whose clusters are kept. *)
Lemma dir_at_kept fl P f f' cl j :
  vol_inv fl f → vol_step fl P f f' → Forall (data_cluster f) cl → Forall (kept fl f f') cl → 0 ≤ j < dir_len f cl →
  dir_at fl f' cl j = dir_at fl f cl j.
Proof.
  intros Hv Hst Hcl Hk Hj. pose proof (dir_list_kept fl P f f' cl Hv Hst Hcl Hk) as Hl.
  assert (Hlen : dir_len f' cl = dir_len f cl) by (unfold dir_len; by rewrite (EPC_step fl _ f f' Hst)).
  rewrite Hlen in Hl. apply (f_equal (λ l, l !! Z.to_nat j)) in Hl. unfold dir_list in Hl.
  rewrite !list_lookup_fmap, lookup_seqZ_lt in Hl by lia. cbn in Hl. rewrite Z2Nat.id in Hl by lia. by injection Hl.
Qed.
Lemma first_room_kept fl P f f' cl n p :
  vol_inv fl f → vol_step fl P f f' → Forall (data_cluster f) cl → Forall (kept fl f f') cl →
  first_room fl f cl n p → first_room fl f' cl n p.
Proof.
  intros Hv Hst Hcl Hk [Hfree Hfirst Hcap].
  assert (Hlen : dir_len f' cl = dir_len f cl) by (unfold dir_len; by rewrite (EPC_step fl _ f f' Hst)).
  assert (Heq : ∀ q, free_from fl f' cl q n ↔ free_from fl f cl q n).
  { intros q. unfold free_from. rewrite Hlen. split; intros (Hq & Hn & Hj); split_and!; try done; intros j Hjr.
    - rewrite <-(dir_at_kept fl P f f') by (done || lia). by apply Hj.
    - rewrite (dir_at_kept fl P f f') by (done || lia). by apply Hj. }
  split; [by apply Heq|intros q Hq; rewrite Heq; by apply Hfirst|by rewrite (EPC_step fl _ f f' Hst)].
Qed.

Lemma new_directory_ok f c :
  0 ≤ c < 2 ^ 32 → 0 ≤ cluster_length (fs f) < 2 ^ 32 →
  new_entry_ok c Directory (flag_union AllocationPossible NoFatChain) (cluster_length (fs f)) (cluster_length (fs f)).
Proof.
  intros Hc Hl. split; rewrite ?flag_union_spec; unfold byte_ok.
  - split; [vm_compute; split; congruence|reflexivity].
  - split; [vm_compute; split; congruence|reflexivity].
  - done.
  - lia.
Qed.

(** A free cluster is marked and filled with zeros. *)
Lemma new_cluster_ok fl f t :
  vol_inv fl f → dirty_ok t → (∀ id, cluster_ok f id → is_allocated fl f id = false → data_cluster f id) →
  ∃ f1 o, zoom lsnd (zoom lallocdev (find_free_clusters None 1 LongestRun)) (t, f) = ((t, f1), o) ∧
    vol_inv fl f1 ∧ vol_same fl f f1 ∧
    match o with
    | Ok run => let c := first_cluster run in
        ∃ s t' f', zoom (with_touched lallocdev) (mark_allocated run true) (t, f1) = (s, Ok ()) ∧
          zero_cluster c s = ((t', f'), Ok ()) ∧
          data_cluster f c ∧ is_allocated fl f c = false ∧ is_allocated fl f' c = true ∧
          vol_op fl (λ x, bitmap_region f x ∨ cluster_sectors f [c] x) t f t' f' ∧ others_same fl [c] f f' ∧
          fat_entry fl f' c = fat_entry fl f c ∧
          ∀ k, 0 ≤ k < sectors_per_cluster (fs f) → vseen fl f' (cluster_sector f c + k) = zeros SIZE
    | Err DiskFull => ∀ k, cluster_ok f k → is_allocated fl f k = true
    | _ => False
    end.
Proof.
  intros Hv Ht Hfree. destruct (vol_find_free t fl f 1 Hv) as (f1 & o & Hfind & Hv1 & Hst1 & Ho); [lia|].
  exists f1, o. split; [done|]. split; [done|]. split; [done|]. destruct o as [run|[]| |]; try done.
  destruct Ho as (Hrun & Hle & Hin & _). set (c := first_cluster run) in *.
  assert (Hone : ∀ k, in_run run k ↔ k = c) by (intros k; destruct Hrun as (_ & ? & _); unfold in_run; fold c; lia).
  destruct (Hin c) as [Hc Hna]; [by apply Hone|]. pose proof (Hfree c Hc Hna) as Hd.
  destruct (vol_mark_allocated fl f1 t run true Hv1 Ht Hrun) as (t2 & f2 & Hmark & Hop2 & Hal2).
  pose proof (op_step _ _ _ _ _ _ Hop2) as Hst2. pose proof (op_inv _ _ _ _ _ _ Hop2) as Hv2.
  assert (Hst12 : vol_step fl (bitmap_region f) f f2).
  { eapply vol_step_trans; [by apply vol_same_step|]. eapply vol_step_weaken; [|exact Hst2].
    intros x. unfold bitmap_region. by rewrite (step_bitmap _ _ _ _ Hst1). }
  assert (Hd2 : data_cluster f2 c) by (by apply (data_cluster_step fl _ f f2 c Hst12)).
  destruct (zero_cluster_ok fl f2 t2 c Hv2 (proj1 (op_tracks _ _ _ _ _ _ Hop2)) Hd2) as (t3 & f3 & Hzero & Hop3 & Hz).
  pose proof (op_step _ _ _ _ _ _ Hop3) as Hst3. pose proof (step_fs _ _ _ _ Hst12) as Hfs.
  assert (Hal : ∀ k, cluster_ok f k → is_allocated fl f2 k = if decide (k = c) then true else is_allocated fl f k).
  { intros k Hk. rewrite Hal2 by (unfold cluster_ok in *; by rewrite (step_fs _ _ _ _ Hst1)).
    destruct (decide (in_run run k)) as [Hr|Hr].
    - rewrite decide_True; [done|by apply Hone].
    - rewrite decide_False by (by rewrite <-Hone). apply (tables_same_data fl _ f f1 k Hv Hst1); [tauto|done]. }
  assert (Hcl : Forall (data_cluster f2) [c]) by (by constructor).
  assert (Hos2 : others_same fl [c] f f2).
  { apply others_same_bits; [done..|]. intros k Hk Hne. rewrite Hal by done. rewrite decide_False; [done|].
    intros ->. by apply Hne, list_elem_of_singleton. }
  assert (Hc2 : cluster_ok f2 c) by apply Hd2.
  destruct (tables_same_data fl _ f2 f3 c Hv2 Hst3) as [Hfat3 Hal3]; [intros x; by apply cluster_sectors_data|done|].
  exists (t2, f2), t3, f3. do 4 (split; [done|]). split; [|split; [|split; [|split]]].
  - rewrite Hal3, Hal by done. by rewrite decide_True.
  - eapply vol_op_trans; [apply (vol_op_after fl _ t f f1); [done..|]|].
    + eapply vol_op_weaken; [|exact Hop2]. intros x Hx. left. unfold bitmap_region in *. by rewrite <-(step_bitmap _ _ _ _ Hst1).
    + eapply vol_op_weaken; [|exact Hop3]. intros x. unfold cluster_sectors, cluster_sector. rewrite Hfs. by right.
  - eapply others_same_trans; [exact Hfs|apply Hst12|exact Hos2|by apply others_same_data].
  - rewrite Hfat3. by apply bits_fat.
  - unfold cluster_sector in *. by rewrite Hfs in Hz.
Qed.

(** The cluster is then a directory, no longer than the parent directory. *)
Lemma new_directory_order fl f f' P cl l c :
  vol_inv fl f → vol_inv fl f' → vol_step fl P f f' → in_order fl f cl l → data_cluster f' c →
  successor (fat_entry fl f' c) = None →
  (∀ k, 0 ≤ k < sectors_per_cluster (fs f) → vseen fl f' (cluster_sector f c + k) = zeros SIZE) → in_order fl f' [c] [].
Proof.
  intros Hv Hv' Hst Hio Hd Hfat Hz. pose proof (sb_dir _ _ _ _ (io_search _ _ _ _ Hio)) as Hdir.
  pose proof (EPC_pos fl f Hv). pose proof (step_fs _ _ _ _ Hst) as Hfs.
  assert (dir_len f' [c] ≤ dir_len f cl).
  { unfold dir_len. rewrite (EPC_step fl _ f f' Hst). destruct cl as [|a cl']; [by destruct (sb_some _ _ _ _ (io_search _ _ _ _ Hio))|].
    unfold len. cbn [length]. nia. }
  apply empty_directory; [done|done|done| | |].
  - pose proof (sb_fuel _ _ _ _ (io_search _ _ _ _ Hio)). lia.
  - pose proof (dir_small _ _ _ Hdir). lia.
  - unfold cluster_sector in *. by rewrite Hfs.
Qed.

(** [create_directory_in] *)
Lemma create_directory_in_ok fl f t cl l p name h :
  vol_inv fl f → dirty_ok t → clock_ok f → in_order fl f cl l → legal_name (upcase_table f) name h →
  first_room fl f cl (set_count name) p → List.find (same_name (upcase_table f) name) l = None →
  Forall (λ id, is_allocated fl f id = true) cl →
  (∀ id, cluster_ok f id → is_allocated fl f id = false → data_cluster f id ∧ successor (fat_entry fl f id) = None) →
  ∃ t' f' o, create_directory_in (hd 0 cl) name (t, f) = ((t', f'), o) ∧
    match o with
    | Ok c => ∃ ts l1 x l2, data_cluster f c ∧ is_allocated fl f c = false ∧
        (∀ k, cluster_ok f k → is_allocated fl f' k = if decide (k = c) then true else is_allocated fl f k) ∧
        vol_op fl (λ x, bitmap_region f x ∨ cluster_sectors f (c :: cl) x) t f t' f' ∧ others_same fl (c :: cl) f f' ∧
        l = l1 ++ l2 ∧ in_order fl f' cl (l1 ++ x :: l2) ∧ set_pos x = p ∧ set_size x = set_count name ∧
        same_name (upcase_table f) name x = true ∧ details_of (place f cl) x = directory_details f cl p name c ts ∧
        (∀ name' attributes, in_directory f' cl (l1 ++ x :: l2) name' attributes =
           with_name (upcase_table f) name (details_of (place f cl) x) (in_directory f cl l) name' attributes) ∧
        in_order fl f' [c] [] ∧
        ∀ k, 0 ≤ k < sectors_per_cluster (fs f) → vseen fl f' (cluster_sector f c + k) = zeros SIZE
    | Err DiskFull => t' = t ∧ vol_inv fl f' ∧ vol_same fl f f' ∧ ∀ k, cluster_ok f k → is_allocated fl f k = true
    | _ => False
    end.
Proof.
  intros Hv Ht Hc Hio Hn Hroom Hnew Hal Hfree. pose proof (dir_data _ _ _ (sb_dir _ _ _ _ (io_search _ _ _ _ Hio))) as Hcl.
  destruct (new_cluster_ok fl f t Hv Ht) as (f1 & o & Hfind & Hv1 & Hst1 & Ho); [by intros id Hid Hna; apply Hfree|].
  unfold create_directory_in. destruct o as [run|[]| |]; try done.
  2: { exists t, f1, (Err DiskFull). split; [unfold mbind, M_bind; by rewrite Hfind|done]. }
  set (c := first_cluster run) in *. destruct Ho as (st2 & t3 & f3 & Hmark & Hzero & Hd & Hna & Hal3 & Hop3 & Hos3 & Hfat3 & Hz).
  set (P3 := λ x, bitmap_region f x ∨ cluster_sectors f [c] x) in *. pose proof (op_step _ _ _ _ _ _ Hop3) as Hst3. pose proof (op_inv _ _ _ _ _ _ Hop3) as Hv3. pose proof (step_fs _ _ _ _ Hst3) as Hfs3.
  assert (Hni : ∀ id, id ∈ cl → id ∉ [c]).
  { intros id Hid ->%list_elem_of_singleton. rewrite Forall_forall in Hal. specialize (Hal _ Hid). congruence. }
  pose proof (others_kept_list fl [c] f f3 cl Hos3 Hcl Hni) as Hk3.
  destruct (cluster_length_pos fl f Hv) as (? & ? & _).
  destruct (create_insert_ok fl f3 t3 cl l p name h c Directory (flag_union AllocationPossible NoFatChain)
    (cluster_length (fs f)) (cluster_length (fs f)) Hv3 (proj1 (op_tracks _ _ _ _ _ _ Hop3)))
    as (ts & f4 & t4 & l' & Hrun & Hio4 & Hmap & Hop4 & x & l1 & l2 & Hl & -> & Hun & Hpos & Hlen & Hdet).
  { unfold clock_ok. by rewrite (step_clock _ _ _ _ Hst3). }
  { by apply (in_order_frame fl P3 f f3 cl l Hv Hst3 Hk3). }
  { by rewrite (step_table _ _ _ _ Hst3). }
  { destruct (geo_count _ _ _ (vol_geometry _ _ Hv)) as [_ [Hcc _]]. unfold CLUSTER_LEN in Hcc. destruct Hd as [Hok _].
    unfold cluster_ok in Hok. apply new_directory_ok; lia. }
  { by apply (first_room_kept fl P3 f f3 cl _ p Hv Hst3 Hcl Hk3). }
  { by rewrite (step_table _ _ _ _ Hst3). }
  pose proof (op_step _ _ _ _ _ _ Hop4) as Hst4. pose proof (EPC_step fl _ f f3 Hst3) as HE.
  assert (Hcl3 : Forall (data_cluster f3) cl)
    by (eapply Forall_impl; [exact Hcl|]; intros id; by apply (data_cluster_step fl P3 f f3)).
  assert (Hop4' : vol_op fl (cluster_sectors f3 cl) t3 f3 t4 f4).
  { eapply vol_op_weaken; [|exact Hop4]. intros y. destruct Hroom as [(Hp & Hpn & _) _ Hcap].
    assert (2 ≤ set_count name) by (unfold set_count; lia).
    apply (run_sectors_cluster fl f3 cl p); [done|done|unfold dir_len in *; rewrite HE; lia|by rewrite HE]. }
  pose proof (op_step _ _ _ _ _ _ Hop4') as Hst4'. pose proof (others_same_data fl cl f3 f4 Hv3 Hst4' Hcl3) as Hos4.
  assert (Hcl1 : c ∉ cl) by (intros Hin; apply (Hni c Hin); by apply list_elem_of_singleton).
  assert (Hd3 : data_cluster f3 c) by (by apply (data_cluster_step fl P3 f f3 c Hst3)).
  assert (Hnew3 : in_order fl f3 [c] []).
  { apply (new_directory_order fl f f3 P3 cl l c Hv Hv3 Hst3 Hio Hd3); [|done]. rewrite Hfat3. by apply Hfree, Hna; apply Hd. }
  exists t4, f4, (Ok c). split.
  { rewrite (bind_Ok _ _ _ _ _ Hfind). fold c. rewrite (bind_Ok _ _ _ _ _ Hmark), (bind_Ok _ _ _ _ _ Hzero).
    rewrite (bind_Ok (gets (fs ∘ snd)) _ _ (t3, f3) (fs f)) by (unfold gets, compose; by rewrite <-Hfs3).
    by rewrite (bind_Ok _ _ _ _ _ Hrun). }
  rewrite (place_step fl P3 f f3 cl p Hst3) in Hdet, Hmap. fold (directory_details f cl p name c ts) in Hdet, Hmap.
  assert (Hdet0 : details_of (place f cl) x = directory_details f cl p name c ts)
    by (rewrite <-Hdet; unfold details_of; by rewrite (place_step fl P3 f f3 cl _ Hst3)).
  exists ts, l1, x, l2. split; [done|]. split; [done|]. split.
  { intros k Hk. assert (Hk3' : cluster_ok f3 k) by (unfold cluster_ok in *; by rewrite Hfs3).
    rewrite (proj2 (tables_same_data fl _ f3 f4 k Hv3 Hst4' (λ x, cluster_sectors_data f3 cl x Hcl3) Hk3')).
    destruct (decide (k = c)) as [->|Hne]; [done|]. apply (others_alloc _ _ _ _ Hos3 k Hk). by intros ->%list_elem_of_singleton. }
  split.
  { eapply vol_op_trans; (eapply vol_op_weaken; [|eassumption]); cbn.
    - intros y [Hy|(id & k & ->%list_elem_of_singleton & Hk)]; [by left|right]. exists c, k. split; [by left|done].
    - intros y (id & k & Hin & Hk & ->). right. exists id, k. unfold cluster_sector in *. rewrite Hfs3 in *.
      split; [by right|done]. }
  split.
  { eapply others_same_trans; [exact Hfs3|apply Hst3| |].
    - apply (others_same_weaken fl [c]); [done|]. intros id ->%list_elem_of_singleton. by left.
    - apply (others_same_weaken fl cl); [done|]. intros id Hid. by right. }
  split; [done|]. split; [exact Hio4|]. split; [done|]. split; [unfold set_size, set_count; by rewrite Hlen|].
  split; [apply bool_decide_eq_true; by rewrite Hun|]. split; [done|]. split.
  { intros name' attributes. rewrite Hmap, (step_table _ _ _ _ Hst3), Hdet0. apply with_name_ext. intros n a.
    by apply (in_directory_step fl P3 f f3 _ _ _ _ Hst3). }
  assert (Hkc : kept fl f3 f4 c) by (by apply (others_kept fl cl)). split.
  { apply (in_order_frame fl _ f3 f4 [c] [] Hv3 Hst4'); [|done]. by constructor. }
  intros k Hk. destruct Hkc as [_ Hkc]. unfold cluster_sector in *. rewrite Hfs3 in Hkc. rewrite Hkc by done. by apply Hz.
Qed.

(** ** By path *)
Lemma get_or_create_app names names' : ∀ id s,
  get_or_create_loop (names ++ names') id s = (id' ← get_or_create_loop names id; get_or_create_loop names' id') s.
Proof.
  induction names as [|name names IH]; intros id s; [done|]. cbn [app get_or_create_loop]. rewrite bind_assoc. apply bind_ext.
  intros table s1. rewrite bind_assoc. apply bind_ext. intros filter s2. rewrite bind_assoc. apply bind_ext.
  intros [d|] s3; [by rewrite IH|]. rewrite bind_assoc. apply bind_ext. intros c s4. by rewrite IH.
Qed.
Lemma walks_snoc fl f names id cl l name d via :
  walks fl f names id (hd 0 cl) via → searchable fl f cl l → name_ok (upcase_table f) name →
  in_directory f cl l name (Some Directory) = Some d → walks fl f (names ++ [name]) id (FileDetails.first_cluster d) (via ++ cl).
Proof.
  intros Hw Hsb Hn Hd. remember (hd 0 cl) as id' eqn:Hid.
  induction Hw as [id|name' names cl' l' d' id' via Hsb' Hn' Hd' Hw IH].
  - subst. cbn [app]. rewrite <-(app_nil_r cl) at 2. eapply walks_below; [done..|constructor].
  - cbn [app]. rewrite <-app_assoc. eapply walks_below; [done..|]. by apply IH.
Qed.

(** The last name of the path is not there, and is created. *)
Lemma make_last_ok fl f t cl l p via path name h :
  new_path fl f cl l p via path name h → dirty_ok t →
  (∀ id, cluster_ok f id → is_allocated fl f id = false → successor (fat_entry fl f id) = None) →
  ∃ f0, vol_inv fl f0 ∧ vol_same fl f f0 ∧ get_or_create_directory path (t, f) = create_directory_in (hd 0 cl) name (t, f0).
Proof.
  intros Hnp Ht Hfat. pose proof Hnp as [Hv _ Htab Hio _ Hpa Hw _ _ _ Hn _ Hnew]. pose proof (io_search _ _ _ _ Hio) as Hsb.
  destruct (get_or_create_loop_ok fl t _ f _ _ Hv Htab (walks_reaches _ _ _ _ _ _ Hw)) as (f1 & Hrun & Hv1 & Hst1).
  pose proof (step_table _ _ _ _ Hst1) as Ht1.
  destruct (search_ok fl f1 cl l name (Some Directory) Hv1) as (filter & f2 & Hf & Hfind & Hv2 & Hst2);
    [by rewrite Ht1|by apply (searchable_same fl f f1)|rewrite Ht1; by eapply legal_name_ok|].
  exists f2. split; [done|]. split; [by eapply vol_step_trans|].
  unfold get_or_create_directory. rewrite (bind_Ok (gets (fs ∘ snd)) _ _ (t, f) (fs f)) by done.
  rewrite Hpa, get_or_create_app, (bind_Ok _ _ _ _ _ Hrun). cbn [get_or_create_loop].
  rewrite (bind_Ok (gets (upcase_table ∘ snd)) _ _ (t, f1) (upcase_table f1)) by done.
  rewrite Hf. cbn [map_err_o]. rewrite bind_lift_Ok.
  assert (Hnone : in_directory f1 cl l name (Some Directory) = None)
    by (unfold in_directory; by rewrite Ht1, (find_both _ _ l Hnew)).
  rewrite Hnone in Hfind. rewrite (bind_Ok _ _ _ (t, f2) None) by (by eapply zoom_to).
  unfold mbind, M_bind. by destruct (create_directory_in (hd 0 cl) name (t, f2)) as [s [?|?| |]].
Qed.
End Make.

(** * Theorems *)
Section Theorems.
Context {cfg : Config} {crates : Crates} {bd : BlockDevice} {fu : Fuel}.
Context {Hcfg : ConfigOk cfg} {Hcr : CratesOk crates} {Hbd : DeviceOk cfg bd}.
Implicit Types (f : FileSystem) (cl via : list Z) (name path : str) (p : Z).

(** The call runs [create_directory_in] on a volume that looks the same. *)
Lemma create_directory_run fl f f0 f1 f' t1 cl l p via path name h o :
  new_path fl f cl l p via path name h → get_or_create_directory path (FileDirty_new, f) =
    create_directory_in (hd 0 cl) name (FileDirty_new, f0) →
  create_directory_in (hd 0 cl) name (FileDirty_new, f0) = ((t1, f1), o) →
  match o with Ok _ => FileDirty_flush (t1, f1) = ((FileDirty_new, f'), Ok ()) | _ => f' = f1 end →
  create_directory path f = (f', match o with Ok _ => Ok () | Err e => Err e | Panic => Panic | OutOfFuel => OutOfFuel end).
Proof.
  intros Hnp Hget Hrun Hf'. unfold create_directory. rewrite (bind_Ok _ _ _ _ _ (mounted_ok fl f (np_inv _ _ _ _ _ _ _ _ _ Hnp))).
  unfold with_local, mbind, M_bind. rewrite Hget, Hrun. destruct o as [c|e| |]; [by rewrite Hf'|by subst..].
Qed.
(** The way to the parent directory is kept, and goes on to the new one. *)
Lemma made_walks fl f f' cl l l' p via path name h c d :
  new_path fl f cl l p via path name h → vol_step fl (λ _, True) f f' → is_allocated fl f c = false →
  others_same fl (c :: cl) f f' → in_order fl f' cl l' → in_directory f' cl l' name (Some Directory) = Some d →
  FileDetails.first_cluster d = c →
  walks fl f' (path_to_iter (fst (split_path path))) (first_cluster_of_root_dir (fs f')) (hd 0 cl) via ∧
  walks fl f' (path_to_iter path) (first_cluster_of_root_dir (fs f')) c (via ++ cl).
Proof.
  intros [Hv _ _ _ _ Hpa Hw Hap Hal _ Hn _ _] Hst Hna Hos Hio Hd <-.
  pose proof (walks_data _ _ _ _ _ _ Hw) as Hvia. apply Forall_app in Hal as [Hal _]. rewrite Forall_forall in Hal.
  assert (Hw' : walks fl f' (path_to_iter (fst (split_path path))) (first_cluster_of_root_dir (fs f')) (hd 0 cl) via).
  { rewrite (step_fs _ _ _ _ Hst). apply (walks_kept fl (λ _, True) f f' _ _ _ via Hv Hst); [|done].
    apply (others_kept_list fl (FileDetails.first_cluster d :: cl)); [done|done|].
    intros id Hid [->|Hin]%elem_of_cons; [|by apply (Hap id)]. specialize (Hal _ Hid). congruence. }
  split; [done|]. rewrite Hpa. apply (walks_snoc fl f' _ _ cl l' name d via); [done|apply Hio| |done].
  rewrite (step_table _ _ _ _ Hst). by eapply legal_name_ok.
Qed.

Lemma make_directory_ok fl f cl l p via path name h :
  new_path fl f cl l p via path name h →
  (∀ id, cluster_ok f id → is_allocated fl f id = false → successor (fat_entry fl f id) = None) →
  ∃ f' o, create_directory path f = (f', o) ∧
    match o with
    | Ok () => ∃ c l1 x l2, made fl f cl l p via path name c l1 x l2 f'
    | Err DiskFull => vol_inv fl f' ∧ vol_same fl f f' ∧ ∀ k, cluster_ok f k → is_allocated fl f k = true
    | _ => False
    end.
Proof.
  intros Hnp Hfat. pose proof (np_inv _ _ _ _ _ _ _ _ _ Hnp) as Hv.
  destruct (make_last_ok fl f FileDirty_new cl l p via path name h Hnp FileDirty_new_ok Hfat) as (f0 & Hv0 & Hst0 & Hget).
  pose proof (new_path_same fl f f0 cl l p via path name h Hv0 Hst0 Hnp) as [_ Hc _ Hio _ _ _ _ Hal Hfree Hn Hroom Hnew].
  pose proof (step_fs _ _ _ _ Hst0) as Hfs0. pose proof (step_table _ _ _ _ Hst0) as Ht0.
  assert (Hok0 : ∀ k, cluster_ok f0 k ↔ cluster_ok f k) by (intros k; unfold cluster_ok; by rewrite Hfs0).
  assert (Htab0 : ∀ k, cluster_ok f k → fat_entry fl f0 k = fat_entry fl f k ∧ is_allocated fl f0 k = is_allocated fl f k)
    by (intros k; apply (tables_same_data fl (λ _, False) f f0 k Hv Hst0); tauto).
  apply Forall_app in Hal as [_ Hal].
  destruct (create_directory_in_ok fl f0 FileDirty_new cl l p name h Hv0 FileDirty_new_ok Hc Hio Hn Hroom Hnew Hal)
    as (t1 & f1 & o & Hrun & Ho).
  { intros id Hid Hna. split; [by apply Hfree|]. apply Hok0 in Hid. destruct (Htab0 id Hid) as [Hf Ha].
    rewrite Hf. apply Hfat; [done|congruence]. }
  destruct o as [c|[]| |]; try done.
  2: { destruct Ho as (-> & Hv1 & Hst1 & Hall). exists f1, (Err DiskFull).
       split; [by apply (create_directory_run fl f f0 f1 f1 FileDirty_new cl l p via path name h (Err DiskFull))|]. split; [done|].
       split; [by eapply vol_step_trans|]. intros k Hk. rewrite <-(proj2 (Htab0 k Hk)). by apply Hall, Hok0. }
  destruct Ho as (ts & l1 & x & l2 & Hd & Hna & Hbits & Hop & Hos & Hl & Hio1 & Hpos & Hsize & Hname & Hdet & Hmap & Hnew1 & Hz).
  destruct (flush_changes_ok fl f0 _ t1 f1 Hv0 Hop) as (f' & Hfl & Hv' & Hst' & Hst & Hdur).
  pose proof (op_inv _ _ _ _ _ _ Hop) as Hv1. pose proof (op_step _ _ _ _ _ _ Hop) as Hst1.
  pose proof (step_fs _ _ _ _ Hst1) as Hfs1.
  exists f', (Ok ()). split; [by apply (create_directory_run fl f f0 f1 f' t1 cl l p via path name h (Ok c))|].
  assert (Hpl : ∀ y, details_of (place f0 cl) y = details_of (place f cl) y)
    by (intros y; unfold details_of; by rewrite (place_step fl _ f f0 cl _ Hst0)).
  assert (Hdet' : details_of (place f cl) x = directory_details f cl p name c ts).
  { rewrite <-Hpl, Hdet. unfold directory_details. by rewrite (place_step fl _ f f0 cl p Hst0), Hfs0. }
  assert (Hmap' : ∀ name' attributes, in_directory f' cl (l1 ++ x :: l2) name' attributes =
      with_name (upcase_table f) name (details_of (place f cl) x) (in_directory f cl l) name' attributes).
  { intros name' attributes. rewrite (in_directory_same fl f1 f') by done. rewrite Hmap, Ht0, Hpl. apply with_name_ext. intros n a.
    by apply (in_directory_same fl). }
  assert (Hos' : others_same fl (c :: cl) f f').
  { eapply others_same_trans; [exact Hfs0|apply Hst0|apply (others_same_weaken fl []); [|by intros ? ?%elem_of_nil]|].
    - apply others_same_data; [done|by apply vol_same_step|done].
    - eapply others_same_trans; [exact Hfs1|apply Hst1|exact Hos|]. apply (others_same_weaken fl []); [|by intros ? ?%elem_of_nil].
      apply others_same_data; [done|by apply vol_same_step|done]. }
  assert (Hstf : vol_step fl (λ _, True) f f').
  { eapply vol_step_trans; [|eapply vol_step_weaken; [|exact Hst]; done]. by apply vol_same_step. }
  destruct Hd as [Hdc Hdd]. apply Hok0 in Hdc. pose proof (proj2 (Htab0 c Hdc)) as Hac. rewrite Hna in Hac.
  pose proof (in_order_same fl f1 f' cl _ Hv1 Hst' Hio1) as Hio'.
  destruct (made_walks fl f f' cl l (l1 ++ x :: l2) p via path name h c (details_of (place f cl) x) Hnp Hstf) as [Hw1 Hw2]; [done..| |by rewrite Hdet'|].
  { rewrite Hmap'. unfold with_name, eq_name. rewrite bool_decide_true by done. rewrite Hdet'. cbn. by rewrite contains_spec. }
  exists c, l1, x, l2. split; try done.
  - split; [done|]. intros k Hk. apply (data_region_step fl _ f f0 _ Hst0). unfold cluster_sector in *. rewrite Hfs0 in Hdd. by apply Hdd.
  - intros k Hk. assert (Hk1 : cluster_ok f1 k) by (unfold cluster_ok in *; by rewrite Hfs1, Hfs0).
    rewrite (proj2 (tables_same_data fl (λ _, False) f1 f' k Hv1 Hst' (λ x (H : False), match H with end) Hk1)).
    rewrite Hbits by (by apply Hok0). by rewrite (proj2 (Htab0 k Hk)).
  - rewrite <-Ht0. done.
  - by exists ts.
  - by apply (in_order_same fl f1 f').
  - intros k Hk. unfold cluster_sector in *. rewrite Hfs0 in Hz. rewrite (step_seen _ _ _ _ Hst'); [by apply Hz| |tauto].
    right; right. apply (data_region_step fl _ f0 f1 _ Hst1). rewrite Hfs0 in Hdd. by apply Hdd.
  - eapply stays_durable_trans; [exact Hst0|by apply stays_durable_same|done].
Qed.

(** C12 - creating a directory by its path, in a directory that is there, has
    room and does not have the name, on a volume whose free clusters have no
    links in the FAT: a free cluster becomes an empty directory in order, the
    path leads to it, the parent directory as a map gets exactly this name, no
    other bit of the bitmap changes, the clusters of everything else keep data,
    FAT entry and bit, and what was on the device stays there; or no cluster is
    free, and then the call fails with [DiskFull] and nothing changes. *)
Theorem create_directory_adds_directory fl f cl l p via path name h :
  new_path fl f cl l p via path name h →
  (∀ id, cluster_ok f id → is_allocated fl f id = false → successor (fat_entry fl f id) = None) →
  ∃ f' o, create_directory path f = (f', o) ∧
    match o with
    | Ok () => ∃ c l1 x l2, made fl f cl l p via path name c l1 x l2 f'
    | Err DiskFull => vol_inv fl f' ∧ vol_same fl f f' ∧ ∀ k, cluster_ok f k → is_allocated fl f k = true
    | _ => False
    end.
Proof. apply make_directory_ok. Qed.
End Theorems.

(** * A directory of the sample volume *)
Section Sample.
#[local] Existing Instance debug_build.
#[local] Existing Instance dummy_device.
#[local] Existing Instance reference_crates.
#[local] Existing Instance reference_crates_ok.
#[local] Existing Instance debug_build_ok.
#[local] Existing Instance sample_files_device_ok.
#[local] Existing Instance sample_files_fuel.

Lemma sample_directory_ok : snd (create_directory (of_string "/New file.txt") sample_dir_volume) = Ok ().
Proof. vm_compute. reflexivity. Qed.

(** The free clusters have no links. *)
Lemma sample_free_links id :
  cluster_ok sample_dir_volume id → is_allocated 1 sample_dir_volume id = false → successor (fat_entry 1 sample_dir_volume id) = None.
Proof.
  intros Hk Hfree. unfold cluster_ok in Hk. cbn in Hk.
  assert (Hcase : id = 2 ∨ id = 3 ∨ id = 4 ∨ id = 5 ∨ id = 6 ∨ id = 7 ∨ id = 8 ∨ id = 9) by lia.
  destruct Hcase as [->|[->|[->|[->|[->|[->|[->| ->]]]]]]]; try (vm_compute in Hfree; discriminate Hfree); vm_compute; reflexivity.
Qed.

Lemma create_directory_adds_directory_witness :
  ∃ f' c l' d, create_directory (of_string "/New file.txt") sample_dir_volume = (f', Ok ()) ∧
    in_directory f' [3; 7] l' (of_string "NEW FILE.txt") (Some Directory) = Some d ∧ in_order 1 f' [c] [] ∧
    is_allocated 1 sample_dir_volume c = false ∧ is_allocated 1 f' c = true.
Proof.
  destruct (create_directory_adds_directory 1 sample_dir_volume [3; 7] sample_sets 0 [] (of_string "/New file.txt") sample_new_name
    (spec_name_hash UpcaseTable_default (encode_utf16 sample_new_name) 0) sample_new_path) as (f' & o & Hrun & Ho).
  - exact sample_free_links.
  - pose proof sample_directory_ok as Ho'. rewrite Hrun in Ho'. cbn [snd] in Ho'. rewrite Ho' in Hrun, Ho.
    destruct Ho as (c & l1 & x & l2 & [_ Hc Hna Hbits _ _ _ [ts Hdet] Hmap Hio _ _ _ _ _ _]).
    exists f', c. eexists _, _. split; [exact Hrun|]. split; [|split; [exact Hio|split; [exact Hna|]]].
    + rewrite Hmap. unfold with_name. replace (eq_name _ _ _) with true by (vm_compute; reflexivity).
      change (FileDetails.attributes ?d) with (FileDetails.attributes d). rewrite Hdet.
      cbn [directory_details stored created_details FileDetails.attributes].
      replace (contains _ _) with true by (vm_compute; reflexivity). reflexivity.
    + rewrite Hbits by apply Hc. rewrite decide_True; reflexivity.
Defined.
End Sample.
