(* ===== verification/DirEmpty.v ===== *)
(** * Removing a directory by path

    [remove_dir] of src/file_system.rs: a directory with an entry in use is
    refused; an empty one is removed like a file.  What [create_directory] has
    made, [remove_dir] takes away again. *)

From S2P Require Import Prelude Text Crates Errors Utils Timestamp BootSector Device SlotCache Touched Fat Allocation AllocationSearch Regions Volume VolumeInv VolumeAlloc DirectoryEntry Directory FileSystem File FileRead FileGrow FreeChain FileWrite FileOpen DirSets FileFlush DirWalk DirFree DirLookup PathLookup DirCreate DirInsert DirRemove PathCreate DirUpdate PathFiles DirMake.
Import FileSystemDetails (cluster_length, sectors_per_cluster, first_cluster_of_root_dir).

(** * Specification *)
Section Spec.
Context {cfg : Config} {crates : Crates} {bd : BlockDevice} {fu : Fuel} {Hbd : DeviceOk cfg bd}.
Implicit Types (f : FileSystem) (cl fcl : list Z) (es : list RawDirEntry) (s : dir_set).

(** An entry that stands for something. *)
Definition in_use (e : RawDirEntry) : bool :=
  match entry_type e with EntryType.EndOfDirectory | EntryType.Unused _ => false | _ => true end.
(** There is one before the end of the directory. *)
Fixpoint has_children es : bool :=
  match es with
  | [] => false
  | e :: es => if is_end e then false else if in_use e then true else has_children es
  end.

(** The set [s] is the one of the directory in the clusters [fcl]. *)
Record removable_dir (fl : Z) f cl l1 s l2 fcl : Prop := {
  rmd_removable : removable fl f cl l1 s l2 fcl;
  rmd_attributes : contains (FileDirEntry.file_attributes (set_file s)) Directory = true;
  rmd_directory : directory fl f fcl;
  rmd_clusters : fcl ≠ [];
  rmd_fuel : dir_len f fcl < Z.of_nat fuel;
}.
End Spec.

(** * Lemmas *)
Section Lemmas.
Context {cfg : Config} {crates : Crates} {bd : BlockDevice} {fu : Fuel}.
Context {Hcfg : ConfigOk cfg} {Hcr : CratesOk crates} {Hbd : DeviceOk cfg bd}.
Implicit Types (f : FileSystem) (cl fcl : list Z) (es : list RawDirEntry) (name path : str) (p : Z) (s : dir_set).

(** An empty directory has no sets. *)
Lemma no_children_no_sets es : ∀ p, has_children es = false → dir_sets es p = Some [].
Proof.
  induction es as [|e es IH]; intros p Hc; [done|]. cbn [has_children dir_sets] in *. destruct (is_end e); [done|].
  unfold in_use in Hc. destruct (entry_type e) eqn:Hty; try discriminate; (rewrite decide_False by done); by apply IH.
Qed.

Lemma no_children_loop_ok fl f0 cl es (rounds : nat) :
  ∀ p f c, reading fl f0 cl es p f c → len es - p < Z.of_nat rounds →
  ∃ c' f', no_children_loop rounds (c, f) =
      ((c', f'), if has_children (drop (Z.to_nat p) es) then Err DirectoryNotEmpty else Ok ()) ∧
    vol_inv fl f' ∧ vol_same fl f0 f'.
Proof.
  induction rounds as [|rounds IH]; intros p f c Hrd Hr; pose proof (reading_bounds _ _ _ _ _ _ _ Hrd) as [Hp _]; [lia|].
  cbn [no_children_loop]. destruct (es !! Z.to_nat p) as [e|] eqn:He.
  2: { destruct (next_reading_end fl f0 cl es p f c Hrd He) as (c1 & f1 & Hn & Hv1 & Hst1).
       exists c1, f1. rewrite (bind_Ok _ _ _ _ _ Hn). by rewrite drop_ge by (by apply lookup_ge_None). }
  destruct (next_reading fl f0 cl es p f c e Hrd He) as (c1 & f1 & Hn & Hrd1 & Hraw).
  rewrite (bind_Ok _ _ _ _ _ Hn). cbv iota beta. rewrite (raw_index e Hraw), bind_lift_Ok. fold (entry_type e).
  rewrite (drop_S es e) by done. cbn [has_children]. replace (S (Z.to_nat p)) with (Z.to_nat (p + 1)) by lia.
  destruct (IH (p + 1) f1 c1 Hrd1) as (c2 & f2 & Hl & Hv2 & Hst2); [lia|].
  pose proof (rd_inv _ _ _ _ _ _ _ Hrd1) as Hv1. pose proof (rd_same _ _ _ _ _ _ _ Hrd1) as Hst1.
  unfold is_end, in_use. destruct (entry_type e) eqn:Hty; try (rewrite bool_decide_false by done; cbn [andb]; by eauto).
  rewrite bool_decide_true by done. cbn [andb]. destruct (is_end_of_directory e); eauto.
Qed.

Lemma confirm_ok fl f (d : FileDetails.t) fcl :
  vol_inv fl f → directory fl f fcl → fcl ≠ [] → dir_len f fcl < Z.of_nat fuel →
  contains (FileDetails.attributes d) Directory = true → head fcl = Some (FileDetails.first_cluster d) →
  ∃ f', confirm_has_no_children d f =
      (f', if has_children (dir_list fl f fcl 0 (dir_len f fcl)) then Err DirectoryNotEmpty else Ok ()) ∧
    vol_inv fl f' ∧ vol_same fl f f'.
Proof.
  intros Hv Hdir Hne Hfu Ha Hhd. unfold confirm_has_no_children. rewrite Ha. rewrite (bind_Ok (gets fs) _ _ f (fs f)) by done.
  assert (Hfirst : FileDetails.first_cluster d = hd 0 fcl) by (destruct fcl; [done|by injection Hhd]). rewrite Hfirst.
  destruct (no_children_loop_ok fl f fcl (dir_list fl f fcl 0 (dir_len f fcl)) fuel 0 f (chain_new (hd 0 fcl) (fs f)))
    as (c' & f' & Hl & Hv' & Hst').
  - by apply reading_start.
  - pose proof (len_nonneg fcl). pose proof (EPC_pos fl f Hv). unfold dir_list, len at 1. rewrite length_fmap, length_seqZ.
    assert (0 ≤ dir_len f fcl) by (unfold dir_len; nia). lia.
  - exists f'. split; [|done]. rewrite drop_0 in Hl. unfold with_local, mbind, M_bind. rewrite Hl.
    by destruct (has_children _).
Qed.

(** [remove_dir] *)
Lemma remove_dir_ok fl f cl l1 s l2 fcl name path :
  table_ok (upcase_table f) → removable_dir fl f cl l1 s l2 fcl → same_name (upcase_table f) name s = true →
  resolves fl f (Some Directory) (path_to_iter path) (first_cluster_of_root_dir (fs f)) (Some (details_of (place f cl) s)) →
  ∃ f', if has_children (dir_list fl f fcl 0 (dir_len f fcl))
    then remove_dir path f = (f', Err DirectoryNotEmpty) ∧ vol_inv fl f' ∧ vol_same fl f f'
    else remove_dir path f = (f', Ok ()) ∧ deleted fl f cl l1 s l2 fcl f' ∧
      ∀ name' attributes, in_directory f' cl (l1 ++ l2) name' attributes =
        without_name (upcase_table f) name (in_directory f cl (l1 ++ s :: l2)) name' attributes.
Proof.
  intros Ht [Hrm Ha Hdir Hne Hfu] Hn Hres. pose proof (rm_stored _ _ _ _ _ _ _ Hrm) as Hsf. pose proof (stored_vol _ _ _ _ Hsf) as Hv.
  destruct (find_path_ok fl f (Some Directory) path _ Hv Ht Hres) as (f1 & Hv1 & Hst1 & _ & Hfind).
  set (d := details_of (place f cl) s) in *. pose proof (stored_clusters _ _ _ _ Hsf) as Hfcl.
  assert (Hlen1 : dir_len f1 fcl = dir_len f fcl) by (unfold dir_len; by rewrite (EPC_step fl _ f f1 Hst1)).
  assert (Hk : Forall (kept fl f f1) fcl).
  { apply (others_kept_list fl []); [apply others_same_data; [done|by apply vol_same_step|done]|done|by intros ? _ ?%elem_of_nil]. }
  destruct (confirm_ok fl f1 d fcl Hv1) as (f2 & Hconf & Hv2 & Hst2);
    [by apply (directory_same fl f f1)|done|by rewrite Hlen1|done|by apply (stored_first _ _ _ _ Hsf)|].
  rewrite (dir_list_kept fl _ f f1 fcl Hv Hst1 Hfcl Hk) in Hconf.
  assert (Hst12 : vol_same fl f f2) by by eapply vol_step_trans.
  assert (Hrun : remove_dir path f = delete_inner d f1).
  { unfold remove_dir. rewrite (bind_Ok _ _ _ _ _ (mounted_ok fl f Hv)). by rewrite (bind_Ok _ _ _ _ _ Hfind). }
  rewrite Hrun. destruct (has_children _).
  - exists f2. split; [|done]. unfold delete_inner, mbind, M_bind. by rewrite Hconf.
  - pose proof (removable_same fl f f2 cl l1 s l2 fcl Hv2 Hst12 Hrm) as Hrm2.
    assert (Hd2 : details_of (place f2 cl) s = d) by (unfold d, details_of; by rewrite (place_step fl _ f f2 cl _ Hst12)).
    rewrite <-Hd2 in Hconf. destruct (delete_ok fl f2 f1 cl l1 s l2 fcl Hrm2 Hconf) as (f' & Hdel & Hd). rewrite Hd2 in Hdel.
    pose proof (deleted_after fl f f2 cl l1 s l2 fcl f' Hv Hfcl Hst12 Hd) as Hd'. exists f'. split; [done|]. split; [done|].
    eapply removed_map; [apply Hd'|apply (io_unique _ _ _ _ (rm_order _ _ _ _ _ _ _ Hrm))|done].
Qed.

(** A cluster of zeros has no children. *)
Lemma zeros_no_children fl f c :
  vol_inv fl f → data_cluster f c → (∀ k, 0 ≤ k < sectors_per_cluster (fs f) → vseen fl f (cluster_sector f c + k) = zeros SIZE) →
  has_children (dir_list fl f [c] 0 (dir_len f [c])) = false.
Proof.
  intros Hv Hc Hz. pose proof (zero_entries fl f c Hv Hc Hz) as Hall.
  destruct (dir_list fl f [c] 0 (dir_len f [c])) as [|e es]; [done|]. cbn [has_children]. by rewrite (Forall_inv Hall).
Qed.

(** What removing does to the clusters. *)
Lemma deleted_others fl f cl l1 s l2 fcl f' :
  removable fl f cl l1 s l2 fcl → deleted fl f cl l1 s l2 fcl f' → others_same fl (fcl ++ cl) f f'.
Proof.
  intros Hrm [_ Hst _ (c & _ & Htab) _]. pose proof (stored_vol _ _ _ _ (rm_stored _ _ _ _ _ _ _ Hrm)) as Hv.
  pose proof (rm_order _ _ _ _ _ _ _ Hrm) as Hio.
  pose proof (dir_data _ _ _ (sb_dir _ _ _ _ (io_search _ _ _ _ Hio))) as Hcl.
  destruct (set_range fl f cl l1 s l2 Hv Hio) as [Hp0 Hpn]. assert (Hs2 : 2 ≤ set_size s) by (unfold set_size; lia).
  apply (tables_others fl f f' c); [done| |done]. eapply vol_step_weaken; [|exact Hst].
  intros x [Hx|Hx]; [by left|right]. pose proof (rm_cluster _ _ _ _ _ _ _ Hrm).
  by apply (run_sectors_cluster fl f cl (set_pos s) (set_size s)); [| |lia|..].
Qed.
(** A name put into a directory that did not have it and taken out again. *)
Lemma without_with_name f cl l name d name' attributes :
  List.find (same_name (upcase_table f) name) l = None →
  without_name (upcase_table f) name (with_name (upcase_table f) name d (in_directory f cl l)) name' attributes =
    in_directory f cl l name' attributes.
Proof.
  intros Hnew. unfold without_name, with_name. destruct (eq_name _ name name') eqn:Heq; [|done].
  apply bool_decide_eq_true in Heq. unfold in_directory. rewrite find_both; [done|].
  rewrite <-Hnew. unfold same_name. by rewrite Heq.
Qed.
(** The new directory is found at its path. *)
Lemma made_resolves fl f cl l p via path name h c l1 x l2 f' :
  new_path fl f cl l p via path name h → made fl f cl l p via path name c l1 x l2 f' →
  resolves fl f' (Some Directory) (path_to_iter path) (first_cluster_of_root_dir (fs f')) (Some (details_of (place f' cl) x)).
Proof.
  intros Hnp Hm. destruct Hm as [_ _ _ _ _ Hio _ [ts Hdet] Hmap _ _ Hw _ Hst _ _].
  assert (Hpl : details_of (place f' cl) x = details_of (place f cl) x)
    by (unfold details_of; by rewrite (place_step fl _ f f' cl _ Hst)).
  rewrite (np_path _ _ _ _ _ _ _ _ _ Hnp).
  replace (Some (details_of (place f' cl) x)) with (in_directory f' cl (l1 ++ x :: l2) name (Some Directory)).
  - apply (walks_resolves fl f' _ _ cl via); [done|apply Hio|].
    rewrite (step_table _ _ _ _ Hst). eapply legal_name_ok, Hnp.
  - rewrite Hmap, Hpl. unfold with_name, eq_name. rewrite bool_decide_true by done. rewrite Hdet. cbn. by rewrite contains_spec.
Qed.

(** The directory that was created can be removed. *)
Lemma made_removable fl f cl l p via path name h c l1 x l2 f' :
  new_path fl f cl l p via path name h → made fl f cl l p via path name c l1 x l2 f' →
  removable_dir fl f' cl l1 x l2 [c].
Proof.
  intros Hnp Hm. pose proof Hm as [Hv' Hc Hna Hbits _ Hio (Hpos & Hsize & _) [ts Hdet] _ Hempty _ _ _ Hst _ _].
  pose proof (np_inv _ _ _ _ _ _ _ _ _ Hnp) as Hv. pose proof (step_fs _ _ _ _ Hst) as Hfs.
  assert (Hpl : details_of (place f' cl) x = details_of (place f cl) x)
    by (unfold details_of; by rewrite (place_step fl _ f f' cl _ Hst)).
  assert (Hc' : data_cluster f' c) by (by apply (data_cluster_step fl (λ _, True) f f')).
  assert (Hok : ∀ k, cluster_ok f' k ↔ cluster_ok f k) by (intros k; unfold cluster_ok; by rewrite Hfs).
  destruct (cluster_length_pos fl f Hv) as (? & ? & _). pose proof SIZE_range.
  split; [split|..].
  - done.
  - apply (f_equal FileDetails.secondary_count) in Hdet. cbn in Hdet. lia.
  - rewrite (EPC_step fl _ f f' Hst), Hpos, Hsize. apply (np_room _ _ _ _ _ _ _ _ _ Hnp).
  - rewrite Hpl, Hdet. split; try done.
    + by constructor.
    + apply NoDup_singleton.
    + unfold stored_ok. replace (no_fat_chain _) with true; [by intros first [= <-]|]. symmetry.
      unfold no_fat_chain. cbn. rewrite contains_spec, flag_union_spec. reflexivity.
    + constructor; [|done]. rewrite Hbits by apply Hc. by rewrite decide_True.
    + intros id Hid Hfree. apply Hok in Hid. apply (data_cluster_step fl _ f f' id Hst). apply (np_free _ _ _ _ _ _ _ _ _ Hnp id Hid).
      rewrite (Hbits id Hid) in Hfree. by destruct (decide (id = c)).
    + cbn. lia.
    + cbn. rewrite Hfs. change (len [c]) with 1. apply Z.div_unique with (cluster_length (fs f) - 1); lia.
  - intros k ->%list_elem_of_singleton Hin. pose proof (np_taken _ _ _ _ _ _ _ _ _ Hnp) as Hal.
    apply Forall_app in Hal as [_ Hal]. rewrite Forall_forall in Hal. specialize (Hal _ Hin). congruence.
  - apply (f_equal FileDetails.attributes) in Hdet. cbn in Hdet. rewrite Hdet. by rewrite contains_spec.
  - apply (sb_dir _ _ _ _ (io_search _ _ _ _ Hempty)).
  - done.
  - apply (sb_fuel _ _ _ _ (io_search _ _ _ _ Hempty)).
Qed.
End Lemmas.

(** * Theorems *)
Section Theorems.
Context {cfg : Config} {crates : Crates} {bd : BlockDevice} {fu : Fuel}.
Context {Hcfg : ConfigOk cfg} {Hcr : CratesOk crates} {Hbd : DeviceOk cfg bd}.
Implicit Types (f : FileSystem) (cl fcl via : list Z) (name path : str) (p : Z) (s : dir_set).

(** C13 - removing a directory by its path: when an entry of it is in use the call
    fails with [DirectoryNotEmpty] and nothing changes; otherwise the directory
    has no entry set, the call succeeds, the parent directory as a map loses
    exactly the name, the clusters of the directory become free, no other bit,
    FAT entry or sector changes, and what was on the device stays there. *)
Theorem remove_dir_removes fl f cl l1 s l2 fcl name path :
  table_ok (upcase_table f) → removable_dir fl f cl l1 s l2 fcl → same_name (upcase_table f) name s = true →
  resolves fl f (Some Directory) (path_to_iter path) (first_cluster_of_root_dir (fs f)) (Some (details_of (place f cl) s)) →
  let entries := dir_list fl f fcl 0 (dir_len f fcl) in
  ∃ f', if has_children entries
    then remove_dir path f = (f', Err DirectoryNotEmpty) ∧ vol_inv fl f' ∧ vol_same fl f f'
    else remove_dir path f = (f', Ok ()) ∧ dir_sets entries 0 = Some [] ∧ deleted fl f cl l1 s l2 fcl f' ∧
      ∀ name' attributes, in_directory f' cl (l1 ++ l2) name' attributes =
        without_name (upcase_table f) name (in_directory f cl (l1 ++ s :: l2)) name' attributes.
Proof.
  intros Ht Hrm Hn Hres entries. destruct (remove_dir_ok fl f cl l1 s l2 fcl name path Ht Hrm Hn Hres) as (f' & H). exists f'.
  fold entries in H. pose proof (no_children_no_sets entries 0) as Hs. destruct (has_children entries); [done|].
  destruct H as (? & ? & ?). by split; [|split; [apply Hs|]].
Qed.

(** C14 - a directory that was just created by its path is removed again by
    [remove_dir]: both calls succeed, unless no cluster was free, the parent
    directory is the same map from names to details as before, with the same
    sets, every cluster is allocated or free as before, the clusters of
    everything else keep data, FAT entry and bit, and what was on the device
    stays there. *)
Theorem create_remove_directory_roundtrip fl f cl l p via path name h :
  new_path fl f cl l p via path name h →
  (∀ id, cluster_ok f id → is_allocated fl f id = false → successor (fat_entry fl f id) = None) →
  ∃ f' o, create_directory path f = (f', o) ∧
    match o with
    | Ok () => ∃ f'' c, remove_dir path f' = (f'', Ok ()) ∧ vol_inv fl f'' ∧ in_order fl f'' cl l ∧
        (∀ name' attributes, in_directory f'' cl l name' attributes = in_directory f cl l name' attributes) ∧
        (∀ k, cluster_ok f k → is_allocated fl f'' k = is_allocated fl f k) ∧
        is_allocated fl f c = false ∧ others_same fl (c :: cl) f f'' ∧ stays_durable fl f f''
    | Err DiskFull => ∀ k, cluster_ok f k → is_allocated fl f k = true
    | _ => False
    end.
Proof.
  intros Hnp Hfat. destruct (make_directory_ok fl f cl l p via path name h Hnp Hfat) as (f' & o & Hrun & Ho).
  exists f', o. split; [done|]. destruct o as [[]|[]| |]; try done; [|apply Ho].
  destruct Ho as (c & l1 & x & l2 & Hm). pose proof (made_removable _ _ _ _ _ _ _ _ _ _ _ _ _ _ Hnp Hm) as Hrm.
  pose proof (made_resolves _ _ _ _ _ _ _ _ _ _ _ _ _ _ Hnp Hm) as Hres.
  destruct Hm as [Hv' Hc Hna Hbits Hl _ (_ & _ & Hname) _ Hmap _ Hz _ _ Hst Hos Hdur].
  pose proof (step_table _ _ _ _ Hst) as Ht. pose proof (step_fs _ _ _ _ Hst) as Hfs.
  assert (Hok : ∀ k, cluster_ok f' k ↔ cluster_ok f k) by (intros k; unfold cluster_ok; by rewrite Hfs).
  destruct (remove_dir_ok fl f' cl l1 x l2 [c] name path) as (f'' & Hrm'); [by rewrite Ht; apply Hnp|done|by rewrite Ht|done|].
  rewrite (zeros_no_children fl f' c) in Hrm';
    [|done|by apply (data_cluster_step fl (λ _, True) f f')|by unfold cluster_sector in *; rewrite Hfs].
  destruct Hrm' as (Hrun' & Hdel & Hmap'). exists f'', c. rewrite <-Hl in Hmap'.
  pose proof (deleted_others _ _ _ _ _ _ _ _ (rmd_removable _ _ _ _ _ _ _ Hrm) Hdel) as Hos'.
  destruct Hdel as [Hv'' Hst' Hio (ch & _ & Htab) Hdur']. rewrite <-Hl in Hio. split_and!; try done.
  - intros name' attributes. rewrite Hmap', Ht. unfold without_name at 1. rewrite Hmap.
    by apply without_with_name, Hnp.
  - intros k Hk. destruct (Htab k) as [-> _]; [by apply Hok|]. rewrite (Hbits k Hk).
    destruct (decide (k = c)) as [->|Hne]; [by rewrite decide_True by by apply list_elem_of_singleton|].
    by rewrite decide_False by (by intros ->%list_elem_of_singleton).
  - by eapply others_same_trans; [exact Hfs|apply Hst|exact Hos|].
  - by eapply stays_durable_trans.
Qed.
End Theorems.

(** * A directory of the sample volume *)
Section Sample.
#[local] Existing Instance debug_build.
#[local] Existing Instance dummy_device.
#[local] Existing Instance reference_crates.
#[local] Existing Instance reference_crates_ok.
#[local] Existing Instance debug_build_ok.
#[local] Existing Instance sample_files_device_ok.
#[local] Existing Instance sample_files_fuel.

(** The directory of the sample of [create_directory] is removed. *)
Lemma remove_dir_removes_witness :
  ∃ f' f'' l, create_directory (of_string "/New file.txt") sample_dir_volume = (f', Ok ()) ∧
    remove_dir (of_string "/New file.txt") f' = (f'', Ok ()) ∧
    in_directory f'' [3; 7] l (of_string "NEW FILE.txt") (Some Directory) = None ∧ in_order 1 f'' [3; 7] l.
Proof.
  destruct (make_directory_ok 1 sample_dir_volume [3; 7] sample_sets 0 [] (of_string "/New file.txt") sample_new_name
    (spec_name_hash UpcaseTable_default (encode_utf16 sample_new_name) 0) sample_new_path sample_free_links) as (f' & o & Hrun & Ho).
  pose proof sample_directory_ok as Ho'. rewrite Hrun in Ho'. cbn [snd] in Ho'. rewrite Ho' in Hrun, Ho.
  destruct Ho as (c & l1 & x & l2 & Hm). pose proof (made_removable _ _ _ _ _ _ _ _ _ _ _ _ _ _ sample_new_path Hm) as Hrm.
  pose proof (made_resolves _ _ _ _ _ _ _ _ _ _ _ _ _ _ sample_new_path Hm) as Hres.
  destruct Hm as [Hv Hc _ _ _ _ (_ & _ & Hn) _ _ _ Hz _ _ Hst _ _].
  pose proof (step_table _ _ _ _ Hst) as Ht. pose proof (step_fs _ _ _ _ Hst) as Hfs.
  destruct (remove_dir_removes 1 f' [3; 7] l1 x l2 [c] sample_new_name (of_string "/New file.txt")) as (f'' & Hrm').
  - rewrite Ht. apply sample_new_path.
  - exact Hrm.
  - rewrite Ht. exact Hn.
  - exact Hres.
  - rewrite (zeros_no_children 1 f' c) in Hrm';
      [|exact Hv|exact (proj2 (data_cluster_step 1 (λ _, True) _ f' c Hst) Hc)|unfold cluster_sector in *; rewrite Hfs; exact Hz].
    destruct Hrm' as (Hrun' & _ & Hd & Hmap). exists f', f'', (l1 ++ l2). split; [exact Hrun|]. split; [exact Hrun'|].
    split; [|exact (del_order _ _ _ _ _ _ _ _ Hd)]. rewrite Hmap. unfold without_name.
    replace (eq_name _ _ _) with true; [reflexivity|]. rewrite Ht. vm_compute. reflexivity.
Defined.

Lemma create_remove_directory_roundtrip_witness :
  ∃ f' f'' c, create_directory (of_string "/New file.txt") sample_dir_volume = (f', Ok ()) ∧
    remove_dir (of_string "/New file.txt") f' = (f'', Ok ()) ∧ in_order 1 f'' [3; 7] sample_sets ∧
    is_allocated 1 sample_dir_volume c = false.
Proof.
  destruct (create_remove_directory_roundtrip 1 sample_dir_volume [3; 7] sample_sets 0 [] (of_string "/New file.txt") sample_new_name
    (spec_name_hash UpcaseTable_default (encode_utf16 sample_new_name) 0) sample_new_path sample_free_links) as (f' & o & Hrun & Ho).
  pose proof sample_directory_ok as Ho'. rewrite Hrun in Ho'. cbn [snd] in Ho'. rewrite Ho' in Hrun, Ho.
  destruct Ho as (f'' & c & Hrun' & _ & Hio & _ & _ & Hna & _). exists f', f'', c.
  split; [exact Hrun|]. split; [exact Hrun'|]. split; [exact Hio|exact Hna].
Defined.
End Sample.
