(* ===== verification/DirList.v ===== *)
(** * Listing a directory

    [read_dir] of src/file_system.rs and [DirectoryIterator::next_entry] of
    src/directory.rs: the iterator answers with the entry sets of the directory,
    one after the other, and their names. *)

From S2P Require Import Prelude Text Crates Errors Utils Timestamp BootSector Device SlotCache Touched Fat Allocation AllocationSearch Regions Volume VolumeInv VolumeAlloc DirectoryEntry Directory FileSystem File FileRead DirSets DirWalk DirFree DirLookup PathLookup DirCreate DirInsert PathCreate PathFiles.
Import FileSystemDetails (cluster_length, sectors_per_cluster, first_cluster_of_root_dir).

(** * The loop over an iterator *)
Section Listing.
Context {cfg : Config} {crates : Crates} {bd : BlockDevice} {fu : Fuel}.

#[local] Abbreviation FSM := (M FileSystem err) (only parsing).
#[local] Abbreviation BM := (M (option (list Z) * (Chain.t * FileSystem)) err) (only parsing).
(** [test_utils::list_names]: its [while let] loop, on fuel, and the function;
    [name_buf] is the first component of the state *)
Fixpoint names_loop (n : nat) (names : list str) : BM (list str) :=
  match n with
  | O => lift OutOfFuel
  | S n =>
      entry ← next_entry;
      match entry with
      | None => mret names
      | Some (_, name) => names_loop n (names ++ [name])
      end
  end.
Definition list_names (path : str) : FSM (list str) :=
  iter ← read_dir path;
  r ← with_local (Some (zeros MAX_NAME_LEN), iter)
        (λ '((b, c), s), let '((b', (c', s')), o) := names_loop fuel [] (b, (c, s)) in (((b', c'), s'), o));
  mret (snd r).
End Listing.

(** * Specification *)
Section Spec.
Context {cfg : Config} {crates : Crates} {bd : BlockDevice} {fu : Fuel} {Hbd : DeviceOk cfg bd}.
Implicit Types (f : FileSystem) (cl : list Z) (s : dir_set) (name : str).

(** The name entries of the set hold [name]. *)
Definition named s name : Prop := Forall scalar name ∧ set_units s = encode_utf16 name.

(** The iterator in state [it] is about to answer with the sets [l], whose names
    are [names], and then to end.  A buffer that is too small for a name is
    reported. *)
Fixpoint lists (fl : Z) f cl (l : list dir_set) (names : list str) (it : Chain.t * FileSystem) : Prop :=
  match l, names with
  | [], [] => ∀ buf, ∃ it', next_entry (Some buf, it) = ((Some buf, it'), Ok None) ∧
      vol_inv fl (snd it') ∧ vol_same fl f (snd it')
  | s :: l, name :: names => ∀ buf, len buf < 2 ^ 32 - 4 →
      if len (utf8 name) <=? len buf
      then ∃ buf' it', next_entry (Some buf, it) = ((Some buf', it'), Ok (Some (details_of (place f cl) s, name))) ∧
        len buf' = len buf ∧ lists fl f cl l names it'
      else ∃ buf' it', next_entry (Some buf, it) = ((buf', it'), Err FileNameBufferTooSmall)
  | _, _ => False
  end.
End Spec.

(** * Lemmas *)
Section Lemmas.
Context {cfg : Config} {crates : Crates} {bd : BlockDevice} {fu : Fuel}.
Context {Hcfg : ConfigOk cfg} {Hcr : CratesOk crates} {Hbd : DeviceOk cfg bd}.
Implicit Types (f : FileSystem) (cl via : list Z) (s : dir_set) (name path : str) (p : Z).

(** A unit of UTF-16 takes at most three bytes of UTF-8. *)
Lemma utf8_length name : len (utf8 name) ≤ 3 * len (encode_utf16 name).
Proof.
  induction name as [|c name IH]; [done|]. cbn [utf8 flat_map encode_utf16]. fold (utf8 name).
  unfold encode_utf16 in *. cbn [flat_map]. rewrite !len_app, length_encode_utf8.
  enough (len_utf8 c ≤ 3 * len (encode_utf16_char c)) by lia.
  unfold len_utf8, encode_utf16_char, len. repeat case_match; cbn; lia.
Qed.
(** [MAX_NAME_LEN] is enough for every name in a directory. *)
Lemma names_fit (es : list RawDirEntry) p l names :
  Forall raw_ok es → dir_sets es p = Some l → Forall2 named l names →
  Forall (λ name, len (utf8 name) ≤ MAX_NAME_LEN) names.
Proof.
  intros Hraw Hl Hn. apply Forall_lookup_2. intros i name Hi.
  destruct (Forall2_lookup_r _ _ _ _ _ Hn Hi) as (s & Hs & _ & Hu).
  pose proof (dir_sets_ok es p l Hraw Hl) as Hok. rewrite Forall_lookup in Hok. pose proof (length_set_units s (Hok i s Hs)) as Hlen.
  destruct (list_elem_of_split l s) as (l1 & l2 & ->); [by eapply list_elem_of_lookup_2|].
  destruct (set_typed es p l1 s l2 Hraw Hl) as [_ (_ & Hb & _)]. unfold byte_ok, set_name_length in *.
  pose proof (utf8_length name). rewrite <-Hu, Hlen in H. unfold MAX_NAME_LEN. lia.
Qed.

Lemma dir_sets_length (es : list RawDirEntry) : ∀ p l, dir_sets es p = Some l → (length l ≤ length es)%nat.
Proof.
  induction es as [|e es IH]; intros p l Hl; cbn [dir_sets length] in *; [by injection Hl as <-|].
  destruct (is_end e); [injection Hl as <-; cbn; lia|]. destruct (decide _); [|apply IH in Hl; lia].
  apply bind_Some in Hl as (s & _ & (l' & Hl' & [= <-])%bind_Some). apply IH in Hl'. cbn. lia.
Qed.

(** One entry. *)
Lemma passes_all table s : passes AllPassFilter table s = true.
Proof.
  unfold passes. cbn. generalize 0. induction (set_names s) as [|u us IH]; intros c; [done|]. cbn. apply IH.
Qed.
Lemma next_entry_found place s name buf :
  named s name → len buf < 2 ^ 32 - 4 →
  let '(b, o) := found place (Some buf) s in
  if len (utf8 name) <=? len buf
  then b = Some (utf8 name ++ drop (length (utf8 name)) buf) ∧ o = Ok (Some (details_of place s, len (utf8 name)))
  else o = Err FileNameBufferTooSmall.
Proof.
  intros [Hs Hu] Hb. unfold found. rewrite Hu. pose proof (decode_name_correct (E:=dev_error) name buf Hs Hb) as H. cbv zeta in H.
  destruct (decode_utf16_to_utf8 (encode_utf16 name) buf) as [b r]. destruct (_ <=? _).
  - destruct H as [[= -> ->] _]. done.
  - cbn in H. by subst r.
Qed.

Lemma next_entry_run s name buf it b it' :
  named s name → len buf < 2 ^ 32 - 4 → ∀ pl,
  next_file_entry AllPassFilter (Some buf, it) = ((b, it'), snd (found pl (Some buf) s)) → b = fst (found pl (Some buf) s) →
  if len (utf8 name) <=? len buf
  then ∃ buf', b = Some buf' ∧ len buf' = len buf ∧
    next_entry (Some buf, it) = ((Some buf', it'), Ok (Some (details_of pl s, name)))
  else next_entry (Some buf, it) = ((b, it'), Err FileNameBufferTooSmall).
Proof.
  intros Hn Hb pl Hrun Hfst. pose proof (next_entry_found pl s name buf Hn Hb) as H.
  destruct (found pl (Some buf) s) as [b0 o]. cbn [fst snd] in *. subst b0. unfold next_entry.
  destruct (Z.leb_spec (len (utf8 name)) (len buf)) as [Hle|Hgt].
  - destruct H as [-> ->]. exists (utf8 name ++ drop (length (utf8 name)) buf). split; [done|]. split.
    { unfold len in *. rewrite length_app, length_drop. lia. }
    rewrite (bind_Ok _ _ _ _ _ Hrun). cbv iota beta. rewrite (bind_Ok (gets fst) _ _ _ _ eq_refl). cbn [default].
    pose proof (len_nonneg (utf8 name)).
    cbn [fst from_option id]. rewrite slice_ok, bind_lift_Ok by (rewrite ?len_app; pose proof (len_nonneg (drop (length (utf8 name)) buf)); lia).
    rewrite Z.sub_0_r. unfold len at 1. rewrite Nat2Z.id. change (Z.to_nat 0) with 0%nat. rewrite drop_0, take_app_length.
    by rewrite from_utf8_utf8 by apply Hn.
  - subst o. unfold mbind, M_bind. by rewrite Hrun.
Qed.

(** The iterator that has come to entry [p]. *)
Lemma lists_ok fl f cl es names :
  len es < Z.of_nat fuel → ∀ l p f' c, reading fl f cl es p f' c → dir_sets (drop (Z.to_nat p) es) p = Some l →
  Forall2 named l names → lists fl f cl l names (c, f').
Proof.
  intros Hfu. induction names as [|name names IH]; intros l p f' c Hrd Hl Hn.
  - apply Forall2_nil_inv_r in Hn as ->. intros buf.
    destruct (next_file_entry_ok fl f cl es AllPassFilter fuel (Some buf) p f' c [] Hrd Hl Hfu) as (b' & c' & f'' & o & Hrun & Hv & Hst & Ho);
      [pose proof (reading_bounds _ _ _ _ _ _ _ Hrd); lia|]. destruct Ho as [-> ->].
    exists (c', f''). split; [|done]. unfold next_entry, next_file_entry. by rewrite (bind_Ok _ _ _ _ _ Hrun).
  - destruct (Forall2_cons_inv_r _ _ _ _ Hn) as (s & l' & Hs & Hn' & ->). cbn [lists]. intros buf Hb.
    destruct (next_file_entry_ok fl f cl es AllPassFilter fuel (Some buf) p f' c (s :: l') Hrd Hl Hfu)
      as (b' & c' & f'' & o & Hrun & Hv & Hst & Ho); [pose proof (reading_bounds _ _ _ _ _ _ _ Hrd); lia|].
    cbn [first_passing] in Ho. rewrite passes_all in Ho. destruct Ho as (Hf & q & Hrd' & Hl').
    pose proof (next_entry_run s name buf (c, f') b' (c', f'') Hs Hb (place f cl)) as H. rewrite <-Hf in H. cbn [fst snd] in H.
    specialize (H Hrun eq_refl). destruct (_ <=? _).
    + destruct H as (buf' & -> & Hlen & Hne). exists buf', (c', f''). split; [done|]. split; [done|]. by apply (IH l' q).
    + eauto.
Qed.

(** The loop of [list_names]. *)
Lemma names_loop_ok fl f cl names (rounds : nat) : ∀ l buf it acc,
  lists fl f cl l names it → len buf = MAX_NAME_LEN → Forall (λ name, len (utf8 name) ≤ MAX_NAME_LEN) names →
  (length names < rounds)%nat →
  ∃ buf' it', names_loop rounds acc (Some buf, it) = ((Some buf', it'), Ok (acc ++ names)) ∧
    vol_inv fl (snd it') ∧ vol_same fl f (snd it').
Proof.
  revert rounds. induction names as [|name names IH]; intros [|rounds] l buf it acc Hl Hb Hn Hr; try (cbn in Hr; lia);
    destruct l as [|s l]; try done; cbn [lists] in Hl; cbn [names_loop].
  - destruct (Hl buf) as (it' & Hne & Hv & Hst). exists buf, it'. rewrite (bind_Ok _ _ _ _ _ Hne). by rewrite app_nil_r.
  - apply Forall_cons in Hn as [Hn1 Hn]. specialize (Hl buf). rewrite Hb in Hl. unfold MAX_NAME_LEN in Hl at 1.
    destruct (Z.leb_spec (len (utf8 name)) MAX_NAME_LEN) as [_|?]; [|lia].
    destruct Hl as (buf' & it' & Hne & Hb' & Hl'); [lia|]. rewrite (bind_Ok _ _ _ _ _ Hne). cbv iota beta.
    destruct (IH rounds l buf' it' (acc ++ [name]) Hl') as (buf2 & it2 & Hr2 & H2); [done|done|cbn in Hr; lia|].
    exists buf2, it2. split; [|done]. rewrite Hr2. by rewrite <-app_assoc.
Qed.

(** The way to a directory. *)
Lemma walks_directory fl f names id id' via :
  walks fl f names id id' via → names ≠ [] →
  ∃ d, resolves fl f (Some Directory) names id (Some d) ∧ FileDetails.first_cluster d = id' ∧
    contains (FileDetails.attributes d) Directory = true.
Proof.
  induction 1 as [id|name names cl l d id' via Hsb Hn Hd Hw IH]; intros Hne; [done|].
  destruct names as [|name' names].
  - inversion Hw; subst. exists d. split; [rewrite <-Hd; by constructor|]. split; [done|by eapply in_directory_attributes].
  - destruct IH as (d' & Hres & Hfc & Hat); [done|]. exists d'. split; [|done]. by apply resolves_below with l d.
Qed.
Lemma directory_list_ok fl f path cl via :
  vol_inv fl f → table_ok (upcase_table f) →
  walks fl f (path_to_iter path) (first_cluster_of_root_dir (fs f)) (hd 0 cl) via →
  ∃ f', read_dir path f = (f', Ok (chain_new (hd 0 cl) (fs f'))) ∧ vol_inv fl f' ∧ vol_same fl f f'.
Proof.
  intros Hv Ht Hw. unfold read_dir. rewrite (bind_Ok _ _ _ _ _ (mounted_ok fl f Hv)). unfold directory_list, is_root_directory.
  rewrite (bind_Ok (gets Volume.fs) _ _ f (fs f)) by done. destruct (path_to_iter path) as [|name names] eqn:Hpa.
  - inversion Hw as [id Hid|]; subst. exists f. split; [|split; [done|by apply vol_step_refl]]. done.
  - rewrite <-Hpa in Hw. destruct (walks_directory _ _ _ _ _ _ Hw) as (d & Hres & Hfc & Hat); [by rewrite Hpa|].
    destruct (find_path_ok fl f (Some Directory) path _ Hv Ht Hres) as (f' & Hv' & Hst & Hleaf & _).
    exists f'. split; [|done]. rewrite bind_assoc, (bind_Ok _ _ _ _ _ Hleaf). cbv iota beta. rewrite Hat. by rewrite Hfc.
Qed.
End Lemmas.

(** * Theorems *)
Section Theorems.
Context {cfg : Config} {crates : Crates} {bd : BlockDevice} {fu : Fuel}.
Context {Hcfg : ConfigOk cfg} {Hcr : CratesOk crates} {Hbd : DeviceOk cfg bd}.
Implicit Types (f : FileSystem) (cl via : list Z) (path : str).

(** C19 - listing a directory by its path: the iterator answers with each entry
    set of the directory exactly once and in order, with its details and its
    name, and then with [None], for every buffer that can hold the name; a
    smaller buffer is reported.  With a buffer of [MAX_NAME_LEN] bytes, which
    holds every name, the loop over the iterator ends and gives all names.
    Nothing changes. *)
Theorem read_dir_lists_directory fl f path cl l names via :
  vol_inv fl f → table_ok (upcase_table f) → searchable fl f cl l → Forall2 named l names →
  walks fl f (path_to_iter path) (first_cluster_of_root_dir (fs f)) (hd 0 cl) via →
  ∃ c f1 f2, read_dir path f = (f1, Ok c) ∧ vol_same fl f f1 ∧ lists fl f cl l names (c, f1) ∧
    list_names path f = (f2, Ok names) ∧ vol_inv fl f2 ∧ vol_same fl f f2.
Proof.
  intros Hv Ht Hsb Hn Hw. destruct (directory_list_ok fl f path cl via Hv Ht Hw) as (f1 & Hrun & Hv1 & Hst1).
  pose proof (searchable_same fl f f1 cl l Hv Hst1 Hsb) as Hsb1. destruct Hsb as [Hdir Hne Hfu Hl Hh]. set (es := dir_list fl f cl 0 (dir_len f cl)) in *.
  assert (Hlen : dir_len f1 cl = dir_len f cl) by (unfold dir_len; by rewrite (EPC_step fl _ f f1 Hst1)).
  assert (Hrd : reading fl f cl es 0 f1 (chain_new (hd 0 cl) (fs f1))).
  { split; [done|done|apply Hsb1|by apply walk_start|]. rewrite Hlen. symmetry. apply dir_list_same; [done|apply Hdir|done|lia|lia]. }
  assert (Hles : len es = dir_len f cl) by (rewrite <-Hlen; apply (reading_bounds _ _ _ _ _ _ _ Hrd)).
  assert (Hls : lists fl f cl l names (chain_new (hd 0 cl) (fs f1), f1)) by (eapply (lists_ok fl f cl es); [lia|done|by rewrite drop_0|done]).
  assert (Hraw : Forall raw_ok es).
  { apply Forall_fmap, Forall_forall. intros p Hp%elem_of_seqZ. apply dir_at_raw; [done|apply Hdir|lia]. }
  destruct (names_loop_ok fl f cl names fuel l (zeros MAX_NAME_LEN) _ [] Hls) as (buf' & [c2 f2] & Hloop & Hv2 & Hst2);
    [done|by eapply names_fit| |].
  { pose proof (dir_sets_length es 0 l Hl). apply Forall2_length in Hn. unfold len in *. lia. }
  exists (chain_new (hd 0 cl) (fs f1)), f1, f2. split; [done|]. split; [done|]. split; [done|]. split; [|done].
  unfold list_names. rewrite (bind_Ok _ _ _ _ _ Hrun). rewrite (bind_Ok _ _ _ f2 ((Some buf', c2), names)); [done|].
  apply (with_local_eq _ _ _ _ _ (Ok names)). by rewrite Hloop.
Qed.
End Theorems.

(** * The sample directory *)
Section Sample.
#[local] Existing Instance debug_build.
#[local] Existing Instance dummy_device.
#[local] Existing Instance reference_crates.
#[local] Existing Instance reference_crates_ok.
#[local] Existing Instance debug_build_ok.
#[local] Existing Instance sample_files_device_ok.
#[local] Existing Instance sample_files_fuel.

Definition sample_names : list str := [of_string "crab.txt"; of_string "Ferris is a Crab.txt"].
Lemma sample_named : Forall2 named sample_sets sample_names.
Proof.
  unfold sample_sets. destruct (dir_sets _ _) as [l|] eqn:Hl; vm_compute in Hl; [|discriminate Hl]. injection Hl as <-.
  cbn [default from_option id]. repeat constructor; apply (bool_decide_unpack _); vm_compute; exact I.
Qed.

Lemma read_dir_lists_directory_witness :
  ∃ f', list_names (of_string "/") sample_dir_volume = (f', Ok [of_string "crab.txt"; of_string "Ferris is a Crab.txt"]).
Proof.
  destruct (read_dir_lists_directory 1 sample_dir_volume (of_string "/") [3; 7] sample_sets sample_names [])
    as (c & f1 & f2 & _ & _ & _ & Hrun & _).
  - apply sample_new_path.
  - apply sample_new_path.
  - apply (np_order _ _ _ _ _ _ _ _ _ sample_new_path).
  - apply sample_named.
  - apply walks_here.
  - exists f2. exact Hrun.
Defined.
End Sample.
