(* ===== verification/Leaves.v ===== *)
(** * What operations leave alone

    An operation that borrows a part of the state leaves the other parts as they
    are; [leaves part c]: whatever [c] does, [part] of the state stays the same.
    Two parts matter: the flag of an operation's list that says that the
    directory entry is dirty, and the allocator. *)

From S2P Require Import Prelude Text Crates Errors Utils Timestamp Device SlotCache Touched Fat Allocation Volume DirectoryEntry Directory FileSystem File Api.

Section Leaves.
Context {cfg : Config} {crates : Crates} {bd : BlockDevice} {fu : Fuel}.

Definition leaves {S E A V} (part : S → V) (c : M S E A) : Prop := ∀ s, part (fst (c s)) = part s.
Lemma leaves_ret {S E A V} (part : S → V) (a : A) : leaves (S:=S) (E:=E) part (mret a).
Proof. done. Qed.
Lemma leaves_lift {S E A V} (part : S → V) (o : outcome E A) : leaves (S:=S) part (lift o).
Proof. done. Qed.
Lemma leaves_gets {S E A V} (part : S → V) (g : S → A) : leaves (E:=E) part (gets g).
Proof. done. Qed.
Lemma leaves_throw {S E A V} (part : S → V) (e : E) : leaves (S:=S) (A:=A) part (throw e).
Proof. done. Qed.
Lemma leaves_bind {S E A B V} (part : S → V) (c : M S E A) (k : A → M S E B) :
  leaves part c → (∀ a, leaves part (k a)) → leaves part (c ≫= k).
Proof.
  intros Hc Hk s. specialize (Hc s). unfold mbind, M_bind. destruct (c s) as [s' [a|e| |]]; cbn in *; [|done..].
  by rewrite Hk.
Qed.
Lemma leaves_modify {S E V} (part : S → V) (g : S → S) : (∀ s, part (g s) = part s) → leaves part (modify (E:=E) g).
Proof. intros Hg s. apply Hg. Qed.
Lemma leaves_zoom {S T E A V} (part : S → V) (part' : T → V) (l : lens S T) (c : M T E A) :
  (∀ t s, part (put l t s) = part' t) → (∀ s, part' (view l s) = part s) → leaves part' c → leaves part (zoom l c).
Proof. intros Hp Hv Hc s. unfold zoom. specialize (Hc (view l s)). destruct (c (view l s)). cbn in *. by rewrite Hp, Hc. Qed.
(** Whatever happens to another part of the state. *)
Lemma leaves_other {S T E A V} (part : S → V) (l : lens S T) (c : M T E A) :
  (∀ t s, part (put l t s) = part s) → leaves part (zoom l c).
Proof. intros Hp s. unfold zoom. destruct (c (view l s)). apply Hp. Qed.
Lemma leaves_local {S L E A V} (part : S → V) (x : L) (c : M (L * S) E A) :
  leaves (part ∘ snd) c → leaves part (with_local x c).
Proof. intros Hc s. unfold with_local. specialize (Hc (x, s)). by destruct (c (x, s)) as [[? ?] ?]. Qed.

(** The flag in the states of the operations. *)
Definition list_flag {S} (s : FileDirty * S) : bool := is_dir_entry_dirty (fst s).

Lemma flag_touch {S E} k sector : leaves (S:=FileDirty * S) (E:=E) list_flag (touch k sector).
Proof.
  apply leaves_modify. intros [t s]. cbn. unfold list_flag, insert. cbn. destruct (existsb _ _); [done|]. by destruct (vec_push _ _ _).
Qed.
Create HintDb leaves discriminated.
#[local] Hint Resolve leaves_ret leaves_lift leaves_gets leaves_throw flag_touch leaves_local : leaves.
#[local] Hint Extern 3 (leaves _ (match ?x with _ => _ end)) => destruct x : leaves.
#[local] Hint Extern 2 (leaves _ (_ ≫= _)) => apply leaves_bind; [|intros ?] : leaves.
#[local] Hint Extern 2 (leaves _ (modify _)) => apply leaves_modify; done : leaves.
#[local] Hint Extern 3 (leaves _ (zoom _ _)) => apply leaves_other; done : leaves.

Lemma flag_mark_chunks allocated (n : nat) :
  ∀ iter, leaves (S:=FileDirty * (Allocator * dev)) list_flag (mark_chunks n allocated iter).
Proof. induction n as [|n IH]; intros iter; cbn [mark_chunks]; auto 20 with leaves. Qed.
#[local] Hint Resolve flag_mark_chunks : leaves.
Lemma flag_mark_allocated run allocated :
  leaves (S:=FileDirty * (Allocator * dev)) list_flag (mark_allocated run allocated).
Proof. unfold mark_allocated. auto 20 with leaves. Qed.
Lemma flag_with_touched {T E A} (l : lens FileSystem T) (c : M (FileDirty * T) E A) :
  leaves list_flag c → leaves list_flag (zoom (with_touched l) c).
Proof. by apply leaves_zoom. Qed.

Lemma flag_inner {S L E A} (c : M (FileDirty * S) E A) :
  leaves list_flag c → leaves (S:=L * (FileDirty * S)) (list_flag ∘ snd) (zoom lsnd c).
Proof. by apply leaves_zoom. Qed.
Lemma flag_device {S L T E A} (l : lens S T) (c : M T E A) :
  leaves (S:=L * (FileDirty * S)) (list_flag ∘ snd) (zoom lsnd (zoom lsnd (zoom l c))).
Proof. by apply flag_inner, leaves_other. Qed.
#[local] Hint Resolve flag_mark_allocated flag_with_touched flag_inner flag_device : leaves.
Lemma flag_add_entry entry first : leaves (list_flag ∘ snd) (add_entry entry first).
Proof. unfold add_entry, add_no_write. auto 20 with leaves. Qed.
Lemma flag_finish file_dir : leaves (list_flag ∘ snd) (finish file_dir).
Proof. unfold finish. auto 20 with leaves. Qed.
#[local] Hint Resolve flag_add_entry flag_finish : leaves.
Lemma flag_write_names (n : nat) : ∀ units, leaves (list_flag ∘ snd) (write_names n units).
Proof. induction n as [|n IH]; intros units; cbn [write_names]; auto 20 with leaves. Qed.
#[local] Hint Resolve flag_write_names : leaves.
Lemma flag_create name id first file_attributes flags valid_length data_length :
  leaves list_flag (create_file_dir_entry_at name id first file_attributes flags valid_length data_length).
Proof. unfold create_file_dir_entry_at. auto 20 with leaves. Qed.

(** ** The allocator

    Looking something up reads the data and the FAT. *)
Lemma leaves_inner {S L E A V} (part : S → V) (c : M S E A) :
  leaves part c → leaves (S:=L * S) (part ∘ snd) (zoom lsnd c).
Proof. by apply leaves_zoom. Qed.
#[local] Hint Resolve leaves_inner : leaves.

Lemma next_leaves_allocator : leaves (allocator ∘ snd) next.
Proof. unfold next, next_sector, next_cluster, fetch_sector, take_entry, get_chain, put_chain. auto 20 with leaves. Qed.
#[local] Hint Resolve next_leaves_allocator : leaves.
Lemma next_file_dir_entry_leaves_allocator (n : nat) : leaves (allocator ∘ snd) (next_file_dir_entry_loop n).
Proof. induction n as [|n IH]; cbn [next_file_dir_entry_loop]; auto 20 with leaves. Qed.
Lemma read_name_leaves_allocator filter keep name_length (n : nat) :
  ∀ cursor units, leaves (allocator ∘ snd) (read_name_loop n filter keep name_length cursor units).
Proof. induction n as [|n IH]; intros cursor units; cbn [read_name_loop]; auto 20 with leaves. Qed.
#[local] Hint Resolve next_file_dir_entry_leaves_allocator read_name_leaves_allocator : leaves.
Lemma next_file_entry_leaves_allocator filter (n : nat) : leaves (allocator ∘ snd ∘ snd) (next_file_entry_loop n filter).
Proof.
  induction n as [|n IH]; cbn [next_file_entry_loop]; [auto with leaves|]. unfold next_file_dir_entry. auto 30 with leaves.
Qed.
Lemma find_in_directory_leaves_allocator id filter : leaves allocator (find_in_directory id filter).
Proof.
  unfold find_in_directory. apply leaves_bind; [auto with leaves|]. intros f. apply leaves_bind; [|auto with leaves].
  apply leaves_local. intros [[b c] s]. pose proof (next_file_entry_leaves_allocator filter fuel (b, (c, s))) as H.
  unfold next_file_entry. destruct (next_file_entry_loop _ _ _) as [[b' [c' s']] o]. exact H.
Qed.
#[local] Hint Resolve find_in_directory_leaves_allocator : leaves.
Lemma leaf_loop_leaves_allocator attributes parts : ∀ id, leaves allocator (leaf_loop parts id attributes).
Proof. induction parts as [|part parts IH]; intros id; cbn [leaf_loop]; auto 20 with leaves. Qed.
#[local] Hint Resolve leaf_loop_leaves_allocator : leaves.
Lemma find_file_leaves_allocator path attributes : leaves allocator (find_file_inner path attributes).
Proof. unfold find_file_inner, get_leaf_file_entry. auto 20 with leaves. Qed.
Lemma follow_fat_leaves_allocator (n : nat) : ∀ id, leaves allocator (follow_fat n id).
Proof. induction n as [|n IH]; intros id; cbn [follow_fat]; auto 20 with leaves. Qed.
#[local] Hint Resolve follow_fat_leaves_allocator : leaves.
Lemma open_file_leaves_allocator options d : leaves allocator (open_file options d).
Proof. unfold open_file, get_stored_chain, get_cluster_id_at. auto 20 with leaves. Qed.
End Leaves.
