(* ===== verification/Copy.v ===== *)
(** * Copying a file by path

    [copy] of src/file_system.rs and [copy_to] of src/file.rs: a run of free
    clusters, an entry set in the target directory, and the bytes of the file,
    a sector at a time. *)

From S2P Require Import Prelude Text Crates Errors Utils Timestamp BootSector Device SlotCache Touched Fat Allocation AllocationSearch Regions Volume VolumeInv VolumeAlloc DirectoryEntry Directory FileSystem File FileRead FileGrow FreeChain FileWrite FileSeek Api FileOpen DirSets FileFlush DirWalk DirFree DirLookup PathLookup DirCreate DirInsert DirRemove PathCreate DirUpdate PathFiles DirMake Leaves.
Import FileSystemDetails (cluster_length, sectors_per_cluster, first_cluster_of_root_dir).

(** * The bytes *)
Section Bytes.
Context {cfg : Config} {crates : Crates} {bd : BlockDevice} {fu : Fuel}.
Context {Hcfg : ConfigOk cfg} {Hcr : CratesOk crates} {Hbd : DeviceOk cfg bd}.
Implicit Types (f : FileSystem) (cl fcl : list Z) (file : File) (buf : list Z).

(** The sectors for [n] bytes. *)
Definition sectors_for (n : Z) : Z := (n + SIZE - 1) / SIZE.
(** The bytes [data] lie in the sectors from [s] on. *)
Definition stored_at (fl : Z) f s (data : list Z) : Prop :=
  ∀ i, 0 ≤ i < len data → vseen fl f (s + i / SIZE) !!! Z.to_nat (i mod SIZE) = data !!! Z.to_nat i.

Lemma sectors_for_step n : SIZE < n → sectors_for n = sectors_for (n - SIZE) + 1.
Proof.
  intros Hn. pose proof SIZE_range. unfold sectors_for. rewrite <-Z.div_add by lia. f_equal. lia.
Qed.
Lemma sectors_for_last n : 0 < n ≤ SIZE → sectors_for n = 1.
Proof. intros Hn. unfold sectors_for. symmetry. apply Z.div_unique with (n - 1); lia. Qed.
Lemma sectors_for_nonneg n : 0 ≤ n → 0 ≤ sectors_for n.
Proof. intros Hn. pose proof SIZE_range. unfold sectors_for. apply Z.div_pos; lia. Qed.

(** The first sector, then the rest. *)
Lemma stored_at_app fl f f' s (k : Z) buf data :
  len data = k + len (drop (Z.to_nat k) data) → 0 ≤ k ≤ SIZE → (k = SIZE ∨ drop (Z.to_nat k) data = []) →
  vseen fl f' s = take (Z.to_nat k) data ++ buf → stored_at fl f' (s + 1) (drop (Z.to_nat k) data) → stored_at fl f' s data.
Proof.
  intros Hl Hk Hor Hs Hd i Hi. pose proof SIZE_range. set (rest := drop (Z.to_nat k) data) in *.
  destruct (decide (i < k)) as [Hlt|Hge].
  - rewrite Z.div_small, Z.mod_small, Z.add_0_r, Hs by lia.
    rewrite lookup_total_app_l by (rewrite length_take; unfold len in *; lia). by rewrite lookup_total_take_lt by lia.
  - destruct Hor as [->|Hnil]; [|rewrite Hnil in Hl; unfold len in *; cbn in *; lia].
    specialize (Hd (i - SIZE)). unfold rest in Hd at 2. rewrite lookup_total_drop in Hd.
    replace (i / SIZE) with ((i - SIZE) / SIZE + 1) by (rewrite <-Z.div_add by lia; f_equal; lia).
    replace (i mod SIZE) with ((i - SIZE) mod SIZE) by (rewrite <-(Z_mod_plus_full (i - SIZE) 1); f_equal; lia).
    replace (s + ((i - SIZE) / SIZE + 1)) with (s + 1 + (i - SIZE) / SIZE) by lia. rewrite Hd by lia. f_equal. lia.
Qed.
End Bytes.

(** * The loop *)
Section Loop.
Context {cfg : Config} {crates : Crates} {bd : BlockDevice} {fu : Fuel}.
Context {Hcfg : ConfigOk cfg} {Hcr : CratesOk crates} {Hbd : DeviceOk cfg bd}.
Implicit Types (f : FileSystem) (cl fcl : list Z) (file : File) (buf : list Z).

(** Writing a sector of the heap that is not one of the file. *)
Lemma file_inv_other fl f f' file fcl s :
  file_inv fl f file fcl → vol_inv fl f' → vol_step fl (λ x, x = s) f f' → data_region f s → ¬ cluster_sectors f fcl s →
  file_inv fl f' file fcl ∧ file_data fl f' (details file) fcl = file_data fl f (details file) fcl.
Proof.
  intros Hi Hv' Hst Hs Hns. pose proof (file_vol _ _ _ _ Hi) as Hv.
  assert (Htab : ∀ id, cluster_ok f id → is_allocated fl f' id = is_allocated fl f id ∧ fat_entry fl f' id = fat_entry fl f id).
  { intros id. apply (data_step_tables fl f f' (λ x, x = s) id Hv Hst). by intros x ->. }
  split; [apply (file_inv_tables fl (λ x, x = s) f f'); [done..|]; intros id Hid; by apply Htab|].
  apply (file_data_kept fl (λ x, x = s) f f' _ _ Hi Hst). pose proof (file_clusters _ _ _ _ Hi) as Hcl.
  rewrite Forall_forall in Hcl |- *. intros id Hid. destruct (Hcl id Hid) as [Hok Hd]. split; [by apply Htab|].
  intros k Hk. apply (step_seen _ _ _ _ Hst); [right; right; by apply Hd|]. intros <-. apply Hns. by exists id, k.
Qed.

Lemma file_data_bytes fl f file fcl :
  file_inv fl f file fcl → Forall byte_ok (file_data fl f (details file) fcl).
Proof.
  intros Hi. pose proof SIZE_range. pose proof (file_lengths _ _ _ _ Hi). apply Forall_fmap, Forall_forall. intros p Hp%elem_of_seqZ. cbn.
  destruct (Z.ltb_spec p (FileDetails.valid_data_length (details file))); [|unfold byte_ok; lia].
  destruct (vseen_ok fl f (file_sector f fcl p) (file_vol _ _ _ _ Hi)) as [Hl Hb].
  { right; right. eapply file_sector_region; [done|]. lia. }
  unfold file_byte. rewrite Forall_forall in Hb. apply Hb, list_elem_of_lookup_2 with (Z.to_nat (p mod SIZE)).
  pose proof (Z.mod_pos_bound p SIZE). apply list_lookup_lookup_total_lt. unfold len in *. lia.
Qed.

Lemma copy_loop_ok fl fcl (n : nat) : ∀ f file buf s,
  file_inv fl f file fcl → dirty_ok (touched file) → OpenOptions.read (open_options file) = true →
  FileDetails.data_length (details file) < 2 ^ usize → block_ok buf →
  let rest := drop (Z.to_nat (cursor file)) (file_data fl f (details file) fcl) in
  (∀ j, 0 ≤ j < sectors_for (len rest) → data_region f (s + j) ∧ ¬ cluster_sectors f fcl (s + j)) →
  0 ≤ s → s + sectors_for (len rest) < 2 ^ 32 → sectors_for (len rest) < Z.of_nat n →
  ∃ buf' file' f', copy_loop n s (buf, (file, f)) = ((buf', (file', f')), Ok ()) ∧
    cursor_moved file file' ∧ vol_op fl (λ x, s ≤ x < s + sectors_for (len rest)) (touched file) f (touched file) f' ∧
    stored_at fl f' s rest.
Proof.
  induction n as [|n IH]; intros f file buf s Hi Ht Hro Hdl Hb rest Hsec Hs0 Hs32 Hn;
    pose proof (sectors_for_nonneg (len rest) (len_nonneg rest)); [lia|].
  pose proof (file_vol _ _ _ _ Hi) as Hv. pose proof SIZE_range. pose proof (file_cursor _ _ _ _ Hi) as Hcur.
  set (data := file_data fl f (details file) fcl) in *.
  assert (Hdlen : len data = FileDetails.data_length (details file)) by (apply len_file_data; lia).
  assert (Hrest : len rest = FileDetails.data_length (details file) - cursor file).
  { unfold rest, len in *. rewrite length_drop. lia. }
  pose proof Hb as [Hbl _].
  destruct (read_ok fl f file fcl buf Hi) as (buf1 & file1 & f1 & o & Hrun & Hres & Hi1 & Hst1);
    [rewrite Hbl; destruct usize_cases as [-> | ->]; lia|done|].
  cbn [copy_loop]. unfold read_result in Hres. rewrite Hro in Hres. cbn [negb] in Hres.
  destruct (eof file) eqn:Heof; unfold eof in Heof.
  - destruct Hres as (-> & -> & ->). exists buf, file, f1. rewrite (bind_Ok _ _ _ _ _ Hrun). split; [done|]. split; [done|]. split.
    { apply vol_op_same; [apply Hi1|done|done]. }
    assert (rest = []) as -> by (apply length_zero_iff_nil; unfold len in *; lia). intros i Hi0. cbn in Hi0. lia.
  - destruct Hres as (-> & Hmv & Hc1 & Hbuf). rewrite (bind_Ok _ _ _ _ _ Hrun). cbv iota beta. set (k := transfer file buf 0) in *.
    assert (Hk : k = Z.min SIZE (len rest)) by (unfold k, transfer; rewrite Hbl, Hrest; lia). fold data rest in Hbuf.
    pose proof Hmv as (Hd1 & Ho1 & _ & Ht1). set (rest1 := drop (Z.to_nat k) rest).
    assert (Hl1 : len rest = k + len rest1) by (unfold rest1, len in *; rewrite length_drop; lia).
    assert (Hsf : sectors_for (len rest) = sectors_for (len rest1) + 1).
    { destruct (decide (len rest ≤ SIZE)).
      - assert (len rest1 = 0) as -> by lia. rewrite sectors_for_last by lia. unfold sectors_for. by rewrite Z.div_small by lia.
      - rewrite sectors_for_step by lia. do 2 f_equal. lia. }
    pose proof (sectors_for_nonneg (len rest1) (len_nonneg rest1)).
    destruct (Hsec 0) as [Hd0 Hns0]; [lia|]. rewrite Z.add_0_r in Hd0, Hns0.
    assert (Hb1 : block_ok buf1).
    { rewrite Hbuf. split; [unfold len in *; rewrite length_app, length_take, length_drop; lia|].
      apply Forall_app. split; [apply Forall_take, Forall_drop; by apply file_data_bytes|by apply Forall_drop, Hb]. }
    apply (data_region_step fl _ f f1 _ Hst1) in Hd0.
    destruct (data_write fl f1 s buf1 (file_vol _ _ _ _ Hi1) Hd0 Hb1) as (f2 & Hwr & Hv2 & Hst2 & Hs2 & Hdur).
    assert (Hns1 : ¬ cluster_sectors f1 fcl s) by (unfold cluster_sectors, cluster_sector in *; by rewrite (step_fs _ _ _ _ Hst1)).
    destruct (file_inv_other fl f1 f2 file1 fcl s Hi1 Hv2 Hst2 Hd0 Hns1) as [Hi2 Hdata2].
    rewrite Hd1, (file_data_step fl f f1 file fcl Hi Hst1) in Hdata2. fold data in Hdata2.
    assert (Hr1 : drop (Z.to_nat (cursor file1)) data = rest1) by (unfold rest1, rest; rewrite Hc1, Z2Nat.inj_add, drop_drop by lia; done).
    pose proof (IH f2 file1 buf1 (s + 1) Hi2) as IH1. cbv zeta in IH1. rewrite Ht1, Ho1, Hd1, Hdata2, Hr1 in IH1.
    assert (Hst12 : vol_step fl (λ x, x = s) f f2) by (eapply vol_step_trans; [by apply vol_same_step|done]).
    destruct (IH1 Ht Hro Hdl Hb1) as (buf' & file' & f' & Hloop & Hmv' & Hop & Hat); [|lia|lia|lia|].
    { intros j Hj. destruct (Hsec (j + 1)) as [Hd Hns]; [lia|]. replace (s + 1 + j) with (s + (j + 1)) by lia. split.
      - by apply (data_region_step fl _ f f2 _ Hst12).
      - unfold cluster_sectors, cluster_sector in *. by rewrite (step_fs _ _ _ _ Hst12). }
    exists buf', file', f'. split; [|split; [|split]].
    + rewrite (bind_Ok (gets fst) _ _ (buf1, (file1, f1)) buf1) by done.
      rewrite (bind_Ok _ _ _ (buf1, (file1, f2)) ()) by (by eapply zoom_to; [eapply zoom_to; [exact Hwr|]|]).
      by rewrite add_ok, bind_lift_Ok by lia.
    + destruct Hmv' as (? & ? & ? & ?), Hmv as (? & ? & ? & ?). split_and!; congruence.
    + eapply (vol_op_trans _ _ _ _ (touched file) f2).
      * split; [done| |].
        { eapply vol_step_weaken; [|exact Hst12]. cbn. lia. }
        split; [done|split; [apply extends_refl|]]. intros x Hx Hdx. left. destruct (decide (x = s)) as [->|Hne]; [done|].
        apply (step_durable _ _ _ _ Hst12); done.
      * eapply vol_op_weaken; [|exact Hop]. cbn. lia.
    + apply (stored_at_app fl f f' s k (drop (Z.to_nat k) buf)); fold rest1; [done|lia| | |done].
      * destruct (decide (len rest ≤ SIZE)); [right|left; lia]. apply length_zero_iff_nil. unfold len in *. lia.
      * rewrite (step_seen _ _ _ _ (op_step _ _ _ _ _ _ Hop)); [by rewrite Hs2| |lia].
        right; right. by apply (data_region_step fl _ f1 f2 _ Hst2).
Qed.
End Loop.

(** * The entry and the clusters *)
Section Entry.
Context {cfg : Config} {crates : Crates} {bd : BlockDevice} {fu : Fuel}.
Context {Hcfg : ConfigOk cfg} {Hcr : CratesOk crates} {Hbd : DeviceOk cfg bd}.
Implicit Types (f : FileSystem) (t : FileDirty) (cl fcl via : list Z) (name path : str) (p : Z) (run : AllocatedRun).

Lemma elem_of_run_clusters run k : k ∈ run_clusters run ↔ in_run run k.
Proof. unfold run_clusters, in_run. rewrite elem_of_seqZ. lia. Qed.

Lemma run_ok_step fl P f f' run : vol_step fl P f f' → run_ok (allocator f) run → run_ok (allocator f') run.
Proof. intros Hst. unfold run_ok, limit. by rewrite (step_bitmap _ _ _ _ Hst). Qed.

(** What creating the entry and marking the run leave behind. *)
Record entered (fl : Z) t f cl l p name run (d : FileDetails.t) t' f' l1 (x : dir_set) l2 : Prop := {
  en_op : vol_op fl (λ y, bitmap_region f y ∨ cluster_sectors f cl y) t f t' f';
  en_bits k : cluster_ok f k → is_allocated fl f' k = if decide (in_run run k) then true else is_allocated fl f k;
  en_fat k : cluster_ok f k → fat_entry fl f' k = fat_entry fl f k;
  en_others : others_same fl (run_clusters run ++ cl) f f';
  en_flag : is_dir_entry_dirty t' = is_dir_entry_dirty t;
  en_list : l = l1 ++ l2;
  en_order : in_order fl f' cl (l1 ++ x :: l2);
  en_set : set_pos x = p ∧ set_size x = set_count name ∧ same_name (upcase_table f) name x = true;
  en_details : details_of (place f cl) x = d;
  en_map name' attributes : in_directory f' cl (l1 ++ x :: l2) name' attributes =
    with_name (upcase_table f) name d (in_directory f cl l) name' attributes;
}.

Lemma enter_run_ok fl f t cl l p name h run attributes flags valid_length length :
  vol_inv fl f → dirty_ok t → clock_ok f → in_order fl f cl l → legal_name (upcase_table f) name h →
  first_room fl f cl (set_count name) p → List.find (same_name (upcase_table f) name) l = None →
  new_entry_ok (first_cluster run) attributes flags valid_length length → run_ok (allocator f) run →
  ∃ s d0 ts t' f' l1 x l2,
    let d := stored (created_details ts (place f cl p) (set_count name - 1) (first_cluster run) attributes flags valid_length length) in
    create_file_dir_entry_at name (hd 0 cl) (first_cluster run) attributes flags valid_length length (t, f) = (s, Ok d0) ∧
    zoom (with_touched lallocdev) (mark_allocated run true) s = ((t', f'), Ok ()) ∧ entered fl t f cl l p name run d t' f' l1 x l2.
Proof.
  intros Hv Ht Hc Hio Hn Hroom Hnew He Hrun. pose proof (dir_data _ _ _ (sb_dir _ _ _ _ (io_search _ _ _ _ Hio))) as Hcl.
  destruct (create_insert_ok fl f t cl l p name h (first_cluster run) attributes flags valid_length length Hv Ht Hc Hio Hn He Hroom Hnew)
    as (ts & f1 & t1 & l' & Hcreate & Hio1 & Hmap & Hop1 & x & l1 & l2 & Hl & -> & Hun & Hpos & Hlen & Hdet).
  assert (Hop1' : vol_op fl (cluster_sectors f cl) t f t1 f1).
  { eapply vol_op_weaken; [|exact Hop1]. intros y. destruct Hroom as [(Hp & Hpn & _) _ Hcap].
    assert (2 ≤ set_count name) by (unfold set_count; lia). apply (run_sectors_cluster fl f cl p); [done|done|lia|done]. }
  pose proof (op_step _ _ _ _ _ _ Hop1') as Hst1. pose proof (op_inv _ _ _ _ _ _ Hop1') as Hv1. pose proof (step_fs _ _ _ _ Hst1) as Hfs1.
  destruct (vol_mark_allocated fl f1 t1 run true Hv1 (proj1 (op_tracks _ _ _ _ _ _ Hop1')) (run_ok_step fl _ f f1 run Hst1 Hrun))
    as (t2 & f2 & Hmark & Hop2 & Hal2).
  pose proof (op_step _ _ _ _ _ _ Hop2) as Hst2. pose proof (step_fs _ _ _ _ Hst2) as Hfs2.
  assert (Hok1 : ∀ k, cluster_ok f1 k ↔ cluster_ok f k) by (intros k; unfold cluster_ok; by rewrite Hfs1).
  assert (Htab1 : ∀ k, cluster_ok f k → fat_entry fl f1 k = fat_entry fl f k ∧ is_allocated fl f1 k = is_allocated fl f k)
    by (intros k; apply (tables_same_data fl _ f f1 k Hv Hst1); intros y; by apply cluster_sectors_data).
  assert (Hcl1 : Forall (data_cluster f1) cl)
    by (eapply Forall_impl; [exact Hcl|]; intros id; by apply (data_cluster_step fl _ f f1 id Hst1)).
  assert (Hos2 : others_same fl (run_clusters run) f1 f2).
  { apply others_same_bits; [done..|]. intros k Hk Hne. rewrite Hal2 by done. rewrite decide_False; [done|]. by rewrite <-elem_of_run_clusters. }
  assert (Hk2 : Forall (kept fl f1 f2) cl).
  { rewrite Forall_forall in Hcl1 |- *. intros id Hid. destruct (Hcl1 id Hid) as [Hidok Hidd].
    split; [by apply (bits_fat fl f1 f2)|]. intros k Hk. specialize (Hidd k Hk). apply (step_seen _ _ _ _ Hst2); [by right; right|].
    destruct (regions_disjoint fl f1 (cluster_sector f1 id + k) (vol_geometry _ _ Hv1)) as (H1 & H2 & H3). tauto. }
  eexists (t1, f1), _, ts, t2, f2, l1, x, l2. split; [exact Hcreate|]. split; [exact Hmark|]. split.
  - eapply vol_op_trans; (eapply vol_op_weaken; [|eassumption]); cbn; [by right|]. intros y. unfold bitmap_region.
    rewrite (step_bitmap _ _ _ _ Hst1). by left.
  - intros k Hk. rewrite Hal2 by by apply Hok1. destruct (decide _); [done|]. by apply Htab1.
  - intros k Hk. rewrite (bits_fat fl f1 f2) by (done || by apply Hok1). by apply Htab1.
  - eapply others_same_trans; [exact Hfs1|apply Hst1| |].
    + apply (others_same_weaken fl cl); [by apply others_same_data|]. intros id Hid. apply elem_of_app. by right.
    + apply (others_same_weaken fl (run_clusters run)); [done|]. intros id Hid. apply elem_of_app. by left.
  - pose proof (flag_with_touched lallocdev _ (flag_mark_allocated run true) (t1, f1)) as H2. rewrite Hmark in H2.
    pose proof (flag_create name (hd 0 cl) (first_cluster run) attributes flags valid_length length (t, f)) as H1. rewrite Hcreate in H1.
    unfold list_flag in *. cbn in *. congruence.
  - done.
  - by apply (in_order_frame fl _ f1 f2 cl _ Hv1 Hst2).
  - split; [done|]. split; [unfold set_size, set_count; by rewrite Hlen|]. apply bool_decide_eq_true. by rewrite Hun.
  - done.
  - intros name' attributes'. rewrite (in_directory_step fl _ f1 f2 _ _ _ _ Hst2). by rewrite Hmap.
Qed.
End Entry.

(** * Files in a run of clusters *)
Section Run.
Context {cfg : Config} {crates : Crates} {bd : BlockDevice} {fu : Fuel}.
Context {Hcfg : ConfigOk cfg} {Hcr : CratesOk crates} {Hbd : DeviceOk cfg bd}.
Implicit Types (f : FileSystem) (nl fcl : list Z) (d : FileDetails.t) (run : AllocatedRun).

(** The sectors of a run follow each other. *)
Lemma run_sector f c j :
  0 < sectors_per_cluster (fs f) →
  cluster_sector f c + j = cluster_sector f (c + j / sectors_per_cluster (fs f)) + j mod sectors_per_cluster (fs f).
Proof. intros Hs. unfold cluster_sector. pose proof (Z.div_mod j (sectors_per_cluster (fs f))). nia. Qed.
Lemma run_file_sector fl f run i :
  vol_inv fl f → 0 ≤ i < cluster_count run * cluster_length (fs f) →
  file_sector f (run_clusters run) i = cluster_sector f (first_cluster run) + i / SIZE.
Proof.
  intros Hv Hi. destruct (cluster_length_pos fl f Hv) as (HS & _ & HC). pose proof (geo_cluster _ _ _ (vol_geometry _ _ Hv)) as [Hspc _].
  set (spc := sectors_per_cluster (fs f)) in *. set (CL := cluster_length (fs f)) in *.
  assert (Hq : 0 ≤ i / CL < cluster_count run) by (split; [apply Z.div_pos; lia|apply Z.div_lt_upper_bound; lia]).
  unfold file_sector. fold CL. unfold run_clusters. rewrite (list_lookup_total_correct _ _ (first_cluster run + i / CL)) by (apply lookup_seqZ; lia).
  unfold cluster_sector. fold spc.
  assert (Hd : i / SIZE = i / CL * spc + i mod CL / SIZE).
  { rewrite (Z.div_mod i CL) at 1 by lia. rewrite HC at 1. replace (SIZE * spc * (i / CL) + i mod CL) with (i / CL * spc * SIZE + i mod CL) by lia.
    by rewrite Z.div_add_l by lia. }
  rewrite Hd. lia.
Qed.

(** A file in a run whose sectors hold its bytes. *)
Lemma run_file_data fl f run d data :
  vol_inv fl f → len data = FileDetails.data_length d → FileDetails.data_length d ≤ cluster_count run * cluster_length (fs f) →
  (∀ i, FileDetails.valid_data_length d ≤ i < len data → data !!! Z.to_nat i = 0) →
  stored_at fl f (cluster_sector f (first_cluster run)) data → file_data fl f d (run_clusters run) = data.
Proof.
  intros Hv Hl Hfit Hz Hs. apply list_eq_same_length with (length data); [done| |].
  { unfold file_data. rewrite length_fmap, length_seqZ. unfold len in *. lia. }
  intros i x y Hi Hx Hy. unfold file_data in Hx. apply list_lookup_fmap_Some_1 in Hx as (q & -> & [-> _]%lookup_seqZ).
  rewrite Z.add_0_l. apply list_lookup_total_correct in Hy. subst y. unfold len in Hl.
  destruct (Z.ltb_spec (Z.of_nat i) (FileDetails.valid_data_length d)) as [Hlt|Hge].
  - unfold file_byte. rewrite (run_file_sector fl) by (done || lia). rewrite Hs by (unfold len; lia). by rewrite Nat2Z.id.
  - rewrite <-(Hz (Z.of_nat i)) by (unfold len; lia). by rewrite Nat2Z.id.
Qed.
Lemma file_data_zeros fl f d fcl i :
  0 ≤ FileDetails.valid_data_length d ≤ FileDetails.data_length d →
  FileDetails.valid_data_length d ≤ i < len (file_data fl f d fcl) → file_data fl f d fcl !!! Z.to_nat i = 0.
Proof.
  intros Hd Hi. rewrite len_file_data in Hi by lia. unfold file_data. apply list_lookup_total_correct.
  rewrite list_lookup_fmap, (proj2 (lookup_seqZ 0 (FileDetails.data_length d) (Z.to_nat i) i)) by lia. cbn.
  by rewrite (proj2 (Z.ltb_ge _ _)) by lia.
Qed.
Lemma sectors_for_run fl f n length :
  vol_inv fl f → length ≤ n * cluster_length (fs f) → sectors_for length ≤ n * sectors_per_cluster (fs f).
Proof.
  intros Hv Hl. destruct (cluster_length_pos fl f Hv) as (HS & _ & HC). unfold sectors_for.
  enough ((length + SIZE - 1) / SIZE < n * sectors_per_cluster (fs f) + 1) by lia. apply Z.div_lt_upper_bound; nia.
Qed.
End Run.

(** * Copying *)
Section Copy.
Context {cfg : Config} {crates : Crates} {bd : BlockDevice} {fu : Fuel}.
Context {Hcfg : ConfigOk cfg} {Hcr : CratesOk crates} {Hbd : DeviceOk cfg bd}.
Implicit Types (f : FileSystem) (t : FileDirty) (cl fcl via : list Z) (name path : str) (p : Z) (run : AllocatedRun) (file : File) (d : FileDetails.t).

(** The details of the copy. *)
Definition copy_details f cl p name run d (ts : EncodedTimestamp) : FileDetails.t :=
  stored (created_details ts (place f cl p) (set_count name - 1) (first_cluster run) (FileDetails.attributes d)
    (flag_union AllocationPossible NoFatChain) (FileDetails.valid_data_length d) (FileDetails.data_length d)).
(** Attributes as an entry has them. *)
Definition attributes_ok d : Prop :=
  0 ≤ FileDetails.attributes d < 2 ^ 16 ∧ Z.land (FileDetails.attributes d) FileAttributes_all = FileDetails.attributes d.

Lemma resolves_attributes fl f attributes names id d :
  vol_inv fl f → resolves fl f attributes names id (Some d) → attributes_ok d.
Proof.
  intros Hv Hres. remember (Some d) as o eqn:Ho. induction Hres as [|name cl l Hsb Hn| |]; try done; [|by apply IHHres].
  unfold in_directory in Ho. apply fmap_Some in Ho as (x & [Hin _]%find_some & ->).
  apply list_elem_of_In, list_elem_of_split in Hin as (l1 & l2 & ->).
  destruct (set_typed (dir_list fl f cl 0 (dir_len f cl)) 0 l1 x l2) as [(_ & _ & Ha & _) _]; [|apply Hsb|exact Ha].
  apply Forall_fmap, Forall_forall. intros q Hq%elem_of_seqZ. apply dir_at_raw; [done|apply Hsb|lia].
Qed.

Lemma resolves_wanted fl f a names id d :
  resolves fl f (Some a) names id (Some d) → contains (FileDetails.attributes d) a = true.
Proof.
  intros Hres. remember (Some d) as o eqn:Ho. induction Hres; try done; [|by apply IHHres]. by eapply in_directory_attributes.
Qed.

(** The sectors of the copy are in the run, and not in the file. *)
Lemma run_sectors_ok fl f run fcl length :
  vol_inv fl f → run_ok (allocator f) run → Forall (data_cluster f) (run_clusters run) → (∀ k, k ∈ run_clusters run → k ∉ fcl) →
  0 ≤ length ≤ cluster_count run * cluster_length (fs f) →
  let s := cluster_sector f (first_cluster run) in
  (∀ j, 0 ≤ j < sectors_for length →
     data_region f (s + j) ∧ ¬ cluster_sectors f fcl (s + j) ∧ cluster_sectors f (run_clusters run) (s + j)) ∧
  0 ≤ s ∧ s + sectors_for length < 2 ^ 32.
Proof.
  intros Hv (Hr2 & Hr0 & Hlim) Hd Hdis Hl s. rewrite (vol_limit fl f Hv) in Hlim. pose proof (vol_geometry _ _ Hv) as Hg.
  pose proof (geo_cluster _ _ _ Hg) as [Hspc _]. pose proof (geo_heap _ _ _ Hg) as Hheap.
  pose proof (sectors_for_run fl f (cluster_count run) length Hv ltac:(lia)) as Hs. set (spc := sectors_per_cluster (fs f)) in *.
  assert (Hc : cluster_ok f (first_cluster run)) by (unfold cluster_ok; lia). pose proof (cluster_sector_pos fl f _ Hv Hc).
  split; [|split; [unfold s; lia|]].
  - intros j Hj. assert (Hq : 0 ≤ j / spc < cluster_count run) by (split; [apply Z.div_pos; lia|apply Z.div_lt_upper_bound; lia]).
    pose proof (Z.mod_pos_bound j spc ltac:(lia)) as Hm. assert (Hin : first_cluster run + j / spc ∈ run_clusters run) by (apply elem_of_seqZ; lia).
    unfold s. rewrite run_sector by (fold spc; lia). fold spc. split; [|split].
    + rewrite Forall_forall in Hd. apply (Hd _ Hin). done.
    + intros (id & k & Hid & Hk & Heq). destruct (cluster_sector_unique f id k (first_cluster run + j / spc) (j mod spc) Hk Hm Heq) as [Hq' _].
      rewrite <-Hq' in Hid. by apply (Hdis _ Hin).
    + by exists (first_cluster run + j / spc), (j mod spc).
  - assert (s + cluster_count run * spc ≤ FileSystemDetails.cluster_heap_offset (fs f) + spc * FileSystemDetails.cluster_count (fs f)); [|lia].
    unfold s, cluster_sector. fold spc. nia.
Qed.

(** The entry of the copy is a proper one. *)
Lemma copy_entry_ok fl f run d :
  vol_inv fl f → run_ok (allocator f) run → attributes_ok d →
  0 ≤ FileDetails.valid_data_length d ≤ FileDetails.data_length d → FileDetails.data_length d < 2 ^ usize →
  new_entry_ok (first_cluster run) (FileDetails.attributes d) (flag_union AllocationPossible NoFatChain)
    (FileDetails.valid_data_length d) (FileDetails.data_length d).
Proof.
  intros Hv Hrun Ha Hd Hu. assert (FileDetails.data_length d < 2 ^ 64) by (destruct usize_cases as [Hz|Hz]; rewrite Hz in Hu; lia).
  destruct Hrun as (? & ? & Hlim). rewrite (vol_limit fl f Hv) in Hlim.
  destruct (geo_count _ _ _ (vol_geometry _ _ Hv)) as [_ [Hcc _]]. unfold CLUSTER_LEN in Hcc.
  split; [done| |lia|lia]. rewrite flag_union_spec. unfold byte_ok. split; [vm_compute; split; congruence|reflexivity].
Qed.

(** The bytes, once the entry is there and the run is marked. *)
Lemma fill_run_ok fl f f2 t t4 f4 file fcl cl l p name run d0 l1 x l2 :
  file_inv fl f file fcl → vol_inv fl f2 → vol_same fl f f2 → (∀ id, id ∈ fcl → id ∉ cl) →
  entered fl t f2 cl l p name run d0 t4 f4 l1 x l2 → OpenOptions.read (open_options file) = true → cursor file = 0 →
  let d := details file in
  0 < FileDetails.data_length d < 2 ^ usize → FileDetails.data_length d ≤ cluster_count run * cluster_length (fs f) →
  run_ok (allocator f) run → Forall (data_cluster f) (run_clusters run) → (∀ k, k ∈ run_clusters run → k ∉ fcl) →
  ∃ buf' file' f', copy_loop (Z.to_nat (FileDetails.data_length d / SIZE + 2)) (cluster_sector f4 (first_cluster run))
      (zeros SIZE, (set_touched t4 file, f4)) = ((buf', (file', f')), Ok ()) ∧
    touched file' = t4 ∧ vol_op fl (cluster_sectors f4 (run_clusters run)) t4 f4 t4 f' ∧
    stored_at fl f' (cluster_sector f (first_cluster run)) (file_data fl f d fcl) ∧
    ∀ j, 0 ≤ j < sectors_for (FileDetails.data_length d) → data_region f' (cluster_sector f (first_cluster run) + j).
Proof.
  intros Hi Hv2 Hst12 Hdis Hen Hro Hcur d Hdl Hfit Hrun Hdc Hdisj. pose proof (file_vol _ _ _ _ Hi) as Hv.
  destruct (cluster_length_pos fl f Hv) as (HS & HC32 & HC).
  pose proof Hen as [Hop24 _ Hfat24 Hos24 _ _ _ _ _ _]. pose proof (op_step _ _ _ _ _ _ Hop24) as Hst24. pose proof (op_inv _ _ _ _ _ _ Hop24) as Hv4.
  set (P := λ y, bitmap_region f2 y ∨ cluster_sectors f2 cl y) in *.
  assert (Hst4 : vol_step fl P f f4) by (eapply vol_step_trans; [by apply vol_same_step|done]). pose proof (step_fs _ _ _ _ Hst4) as Hfs4.
  pose proof (step_fs _ _ _ _ Hst12) as Hfs2.
  set (file4 := set_touched t4 file). assert (Hi4 : file_inv fl f4 file4 fcl).
  { apply file_inv_touched, (file_inv_tables fl P f f4); [done..|]. intros id Hid. rewrite Hfat24 by (unfold cluster_ok in *; by rewrite Hfs2).
    by apply (tables_same_data fl (λ _, False) f f2 id Hv Hst12). }
  assert (Hdata4 : file_data fl f4 d fcl = file_data fl f d fcl).
  { apply (file_data_kept fl P f f4 file fcl Hi Hst4). apply (others_kept_list fl (run_clusters run ++ cl)); [|apply Hi|].
    - eapply others_same_trans; [exact Hfs2|apply Hst12| |exact Hos24]. apply (others_same_weaken fl []); [|by intros ? ?%elem_of_nil].
      apply others_same_data; [done|by apply vol_same_step|done].
    - intros id Hid [Hr|Hc]%elem_of_app; [by apply (Hdisj id)|by apply (Hdis id)]. }
  assert (Hdc4 : Forall (data_cluster f4) (run_clusters run)).
  { eapply Forall_impl; [exact Hdc|]. intros id. by apply (data_cluster_step fl P f f4). }
  destruct (run_sectors_ok fl f4 run fcl (FileDetails.data_length d) Hv4 (run_ok_step fl P f f4 run Hst4 Hrun) Hdc4 Hdisj)
    as (Hsec & Hs0 & Hs32); [rewrite Hfs4; lia|].
  assert (Hsd : cluster_sector f4 (first_cluster run) = cluster_sector f (first_cluster run)) by (unfold cluster_sector; by rewrite Hfs4).
  assert (Hdlen : len (file_data fl f4 d fcl) = FileDetails.data_length d) by (apply len_file_data; lia).
  destruct (copy_loop_ok fl fcl (Z.to_nat (FileDetails.data_length d / SIZE + 2)) f4 file4 (zeros SIZE) (cluster_sector f4 (first_cluster run)) Hi4)
    as (buf' & file' & f' & Hloop & Hmv & Hop & Hat);
    change (details file4) with d in *; change (cursor file4) with (cursor file) in *; rewrite ?Hcur in *;
    change (Z.to_nat 0) with 0%nat in *; rewrite ?drop_0, ?Hdlen in *; try done; try lia.
  { apply (op_tracks _ _ _ _ _ _ Hop24). }
  { apply zeros_block. }
  { intros j Hj. by destruct (Hsec j Hj) as (? & ? & _). }
  { assert (0 ≤ FileDetails.data_length d / SIZE) by (apply Z.div_pos; lia). rewrite Z2Nat.id by lia. unfold sectors_for.
    assert ((FileDetails.data_length d + SIZE - 1) / SIZE ≤ FileDetails.data_length d / SIZE + 1); [|lia].
    rewrite <-Z.div_add by lia. apply Z.div_le_mono; lia. }
  exists buf', file', f'. destruct Hmv as (_ & _ & _ & Htf). split_and!; try done.
  - eapply vol_op_weaken; [|exact Hop]. cbn. intros y Hy. destruct (Hsec (y - cluster_sector f4 (first_cluster run))) as (_ & _ & Hc); [lia|].
    by replace (cluster_sector f4 (first_cluster run) + (y - cluster_sector f4 (first_cluster run))) with y in Hc by lia.
  - by rewrite <-Hsd, <-Hdata4.
  - intros j Hj. rewrite <-Hsd. apply (data_region_step fl _ f4 f' _ (op_step _ _ _ _ _ _ Hop)). by apply Hsec.
Qed.

(** [copy_to], before the file is closed. *)
Lemma copy_to_ok fl f file fcl cl l p via path name h :
  new_path fl f cl l p via path name h → file_inv fl f file fcl → Forall (λ id, is_allocated fl f id = true) fcl →
  (∀ id, id ∈ fcl → id ∉ cl) → dirty_ok (touched file) → OpenOptions.read (open_options file) = true → cursor file = 0 →
  let d := details file in
  attributes_ok d → 0 < FileDetails.data_length d < 2 ^ usize → len fcl = clusters_for f (FileDetails.data_length d) →
  ∃ file' f' o, copy_to path (file, f) = ((file', f'), o) ∧
    match o with
    | Ok () => ∃ f2 t4 f4 run ts l1 x l2, vol_inv fl f2 ∧ vol_same fl f f2 ∧
        entered fl (touched file) f2 cl l p name run (copy_details f cl p name run d ts) t4 f4 l1 x l2 ∧
        cluster_count run = len fcl ∧ (∀ k, k ∈ run_clusters run → cluster_ok f k ∧ is_allocated fl f k = false) ∧
        touched file' = t4 ∧ vol_op fl (cluster_sectors f4 (run_clusters run)) t4 f4 t4 f' ∧
        stored_at fl f' (cluster_sector f (first_cluster run)) (file_data fl f d fcl) ∧
        ∀ j, 0 ≤ j < sectors_for (FileDetails.data_length d) → data_region f' (cluster_sector f (first_cluster run) + j)
    | Err DiskFull => file' = file ∧ vol_inv fl f' ∧ vol_same fl f f' ∧
        ∀ k, next_search_cluster (allocator f) ≤ k → k + len fcl ≤ limit (allocator f) →
          ¬ ∀ j, k ≤ j < k + len fcl → is_allocated fl f j = false
    | _ => False
    end.
Proof.
  intros Hnp Hi Hal Hdis Ht Hro Hcur d Ha Hdl Hcount. pose proof (np_inv _ _ _ _ _ _ _ _ _ Hnp) as Hv.
  destruct (cluster_length_pos fl f Hv) as (HS & HC32 & HC). set (n := len fcl) in *.
  assert (Hfit : FileDetails.data_length d ≤ n * cluster_length (fs f) < FileDetails.data_length d + cluster_length (fs f)).
  { rewrite Hcount. unfold clusters_for. pose proof (Z.div_mod (FileDetails.data_length d + cluster_length (fs f) - 1) (cluster_length (fs f)) ltac:(lia)).
    pose proof (Z.mod_pos_bound (FileDetails.data_length d + cluster_length (fs f) - 1) (cluster_length (fs f)) ltac:(lia)). nia. }
  assert (Hn : 0 < n < 2 ^ 32). { split; [nia|]. pose proof (length_clusters fl f file fcl Hi). pose proof (geo_count _ _ _ (vol_geometry _ _ Hv)) as [_ [Hcc _]]. unfold CLUSTER_LEN in Hcc. lia. }
  unfold copy_to. destruct (split_path path) as [dir_path name0] eqn:Hsp. pose proof (np_split _ _ _ _ _ _ _ _ _ Hnp) as Hname.
  rewrite Hsp in Hname. cbn [snd] in Hname. subst name0.
  rewrite (bind_Ok get_file _ _ (file, f) file) by done. rewrite (bind_Ok get_fs _ _ (file, f) (fs f)) by done.
  unfold num_clusters. fold d. rewrite div_ceil_ok by lia. fold (clusters_for f (FileDetails.data_length d)). rewrite <-Hcount.
  cbn [mbind outcome_bind]. rewrite (cast_id u32) by lia. rewrite bind_lift_Ok.
  destruct (vol_find_free file fl f n Hv) as (f1 & o & Hfind & Hv1 & Hst1 & Ho); [lia|].
  assert (Hdf : ∀ run, (∀ k, in_run run k → cluster_ok f k ∧ is_allocated fl f k = false) →
    Forall (data_cluster f) (run_clusters run) ∧ ∀ k, k ∈ run_clusters run → k ∉ fcl).
  { intros run Hin. split.
    - apply Forall_forall. intros k [? ?]%elem_of_run_clusters%Hin. by apply (np_free _ _ _ _ _ _ _ _ _ Hnp).
    - intros k [_ Hk]%elem_of_run_clusters%Hin Hk'. rewrite Forall_forall in Hal. rewrite (Hal _ Hk') in Hk. done. }
  destruct o as [run|[]| |]; try done.
  2: { exists file, f1, (Err DiskFull). split; [unfold mbind, M_bind; by rewrite Hfind|]. split; [done|]. split; [done|]. split; [done|].
       intros k Hk1 Hk2 Hk. specialize (Hk k ltac:(lia)). rewrite Ho in Hk; [done|]. unfold cluster_ok. rewrite (vol_limit fl f Hv) in Hk2.
       pose proof (alloc_rover _ _ (vol_alloc_inv fl f Hv)). lia. }
  destruct Ho as (Hrun & Hle & Hin & Hlong). rewrite (bind_Ok _ _ _ _ _ Hfind).
  destruct (Z.eqb_spec (cluster_count run) n) as [Hrn|Hrn]; cbn [negb].
  2: { exists file, f1, (Err DiskFull). split; [done|]. split; [done|]. split; [done|]. split; [done|].
       intros k Hk1 Hk2 Hk. destruct Hlong as [?|Hlong]; [done|]. specialize (Hlong k n Hk1 Hk2 Hk). lia. }
  destruct (Hdf run Hin) as [Hdc Hdisj]. pose proof (new_path_same fl f f1 cl l p via path name h Hv1 Hst1 Hnp) as Hnp1.
  destruct (get_or_create_loop_ok fl (touched file) _ f1 _ _ Hv1 (np_table _ _ _ _ _ _ _ _ _ Hnp1)
    (walks_reaches _ _ _ _ _ _ (np_walk _ _ _ _ _ _ _ _ _ Hnp1))) as (f2 & Hget & Hv2 & Hst2).
  rewrite Hsp in Hget. cbn [fst] in Hget. pose proof (new_path_same fl f1 f2 cl l p via path name h Hv2 Hst2 Hnp1) as Hnp2.
  assert (Hst12 : vol_same fl f f2) by (by eapply vol_step_trans).
  destruct (enter_run_ok fl f2 (touched file) cl l p name h run (FileDetails.attributes d) (flag_union AllocationPossible NoFatChain)
    (FileDetails.valid_data_length d) (FileDetails.data_length d)) as (s & d0 & ts & t4 & f4 & l1 & x & l2 & Hcreate & Hmark & Hen);
    try apply Hnp2; try done.
  { apply (copy_entry_ok fl f2); [done|by apply (run_ok_step fl _ f1 f2 run Hst2)|done|apply Hi|lia]. }
  { by apply (run_ok_step fl _ f1 f2 run Hst2). }
  rewrite (place_step fl _ f f2 cl p Hst12) in Hen. fold (copy_details f cl p name run d ts) in Hen.
  pose proof (op_inv _ _ _ _ _ _ (en_op _ _ _ _ _ _ _ _ _ _ _ _ _ _ Hen)) as Hv4.
  destruct (fill_run_ok fl f f2 (touched file) t4 f4 file fcl cl l p name run (copy_details f cl p name run d ts) l1 x l2)
    as (buf' & file' & f' & Hloop & Htf & Hop & Hat & Hreg); try done.
  { fold d. rewrite Hrn. lia. }
  { revert Hrun. unfold run_ok, limit. by rewrite (step_bitmap _ _ _ _ Hst1). }
  set (file4 := set_touched t4 file) in *.
  exists file', f', (Ok ()). split.
  { rewrite (bind_Ok _ _ _ (file, f2) (hd 0 cl)).
    2: { eapply zoom_to; [unfold get_or_create_directory; cbn [ltouched view]; rewrite (bind_Ok (gets _) _ _ (touched file, f1) (fs f1)) by done; exact Hget|].
         cbn. by rewrite set_touched_id. }
    destruct s as [t3 f3]. rewrite (bind_Ok _ _ _ (set_touched t3 file, f3) d0) by (by eapply zoom_to; [exact Hcreate|]).
    rewrite (bind_Ok _ _ _ (file4, f4) ()) by (by eapply zoom_to; [exact Hmark|]).
    rewrite (bind_Ok get_fs _ _ (file4, f4) (fs f4)) by done.
    assert (Hc4 : cluster_ok f4 (first_cluster run)).
    { destruct (Hin (first_cluster run)) as [Hok _]; [unfold in_run; lia|]. unfold cluster_ok in *.
      by rewrite (step_fs _ _ _ _ (op_step _ _ _ _ _ _ (en_op _ _ _ _ _ _ _ _ _ _ _ _ _ _ Hen))), (step_fs _ _ _ _ Hst12). }
    rewrite (get_heap_sector_ok fl f4 _ (vol_geometry _ _ Hv4) Hc4), bind_lift_Ok. cbv zeta.
    rewrite (bind_Ok _ _ _ (file', f') (buf', ())); [done|]. by apply (with_local_eq _ _ _ _ _ (Ok ())). }
  exists f2, t4, f4, run, ts, l1, x, l2. split_and!; try done. intros k Hk. by apply Hin, elem_of_run_clusters.
Qed.
End Copy.

(** * The result *)
Section Result.
Context {cfg : Config} {crates : Crates} {bd : BlockDevice} {fu : Fuel}.
Context {Hcfg : ConfigOk cfg} {Hcr : CratesOk crates} {Hbd : DeviceOk cfg bd}.
Implicit Types (f : FileSystem) (t : FileDirty) (cl fcl via : list Z) (name path : str) (p : Z) (run : AllocatedRun) (d : FileDetails.t).

(** What [copy] leaves behind: the entry set [x] of the copy in the clusters
    [cl] of its directory, and its bytes in the clusters of [run]. *)
Record copied (fl : Z) f cl l p path name d fcl run l1 (x : dir_set) l2 f' : Prop := {
  cp_inv : vol_inv fl f';
  cp_count : cluster_count run = len fcl;
  cp_free k : k ∈ run_clusters run → cluster_ok f k ∧ is_allocated fl f k = false;
  cp_bits k : cluster_ok f k → is_allocated fl f' k = if decide (in_run run k) then true else is_allocated fl f k;
  cp_list : l = l1 ++ l2;
  cp_order : in_order fl f' cl (l1 ++ x :: l2);
  cp_details : ∃ ts, details_of (place f cl) x = copy_details f cl p name run d ts;
  cp_map name' attributes : in_directory f' cl (l1 ++ x :: l2) name' attributes =
    with_name (upcase_table f) name (details_of (place f cl) x) (in_directory f cl l) name' attributes;
  cp_resolves : resolves fl f' (Some Archive) (path_to_iter path) (first_cluster_of_root_dir (fs f')) (Some (details_of (place f cl) x));
  cp_stored : stored_file fl f' (details_of (place f cl) x) (run_clusters run);
  cp_data : file_data fl f' (details_of (place f cl) x) (run_clusters run) = file_data fl f d fcl;
  cp_source : stored_file fl f' d fcl ∧ file_data fl f' d fcl = file_data fl f d fcl;
  cp_others : others_same fl (run_clusters run ++ cl) f f';
  cp_durable : stays_durable fl f f';
}.

(** A stored file among clusters that are left alone. *)
Lemma stored_file_others fl P ids f f' d fcl :
  stored_file fl f d fcl → vol_inv fl f' → vol_step fl P f f' → others_same fl ids f f' → (∀ id, id ∈ fcl → id ∉ ids) →
  (∀ id, cluster_ok f id → is_allocated fl f' id = false → is_allocated fl f id = false) →
  stored_file fl f' d fcl ∧ file_data fl f' d fcl = file_data fl f d fcl.
Proof.
  intros Hs Hv' Hst Hos Hni Hbits. pose proof Hs as [Hv Hcl Hnd Hlk Hal Hfree Hhd Hlen Hcount].
  pose proof (others_kept_list fl ids f f' fcl Hos Hcl Hni) as Hk. pose proof (step_fs _ _ _ _ Hst) as Hfs.
  assert (Hfat : ∀ i id, fcl !! i = Some id → fat_entry fl f' id = fat_entry fl f id)
    by (intros i id Hid; apply (proj1 (Forall_lookup_1 _ _ _ _ Hk Hid))).
  split.
  - split; try done.
    + eapply Forall_impl; [exact Hcl|]. intros id. by apply (data_cluster_step fl P f f').
    + unfold stored_ok in *. destruct (no_fat_chain d); [done|]. destruct Hlk as [Hl He]. split.
      * intros i a b Ha Hb. rewrite (Hfat i) by done. by apply (Hl i a b).
      * intros x Hx. pose proof Hx as Hin. rewrite last_lookup in Hin. rewrite (Hfat _ _ Hin). by apply He.
    + rewrite Forall_forall in Hal, Hcl |- *. intros id Hid. rewrite (others_alloc _ _ _ _ Hos); [by apply Hal|by apply Hcl|by apply Hni].
    + intros id Hid Hna. assert (Hid' : cluster_ok f id) by (unfold cluster_ok in *; by rewrite <-Hfs).
      apply (data_cluster_step fl P f f' id Hst). by apply Hfree, Hbits.
    + by rewrite Hfs.
  - destruct (open_stored_ok fl f OpenOptions.new d fcl Hs) as (_ & file0 & _ & _ & _ & Hd0 & _ & _ & _ & Hg0); [done|].
    rewrite <-Hd0. by apply (file_data_kept fl P f f' file0 fcl (grow_file _ _ _ _ Hg0) Hst).
Qed.

(** The copy is a stored file. *)
Lemma copy_stored_ok fl f f' cl p name d fcl run ts :
  vol_inv fl f' → fs f' = fs f → stored_file fl f d fcl → 0 < FileDetails.data_length d → cluster_count run = len fcl →
  Forall (data_cluster f') (run_clusters run) → (∀ k, in_run run k → is_allocated fl f' k = true) →
  (∀ id, cluster_ok f' id → is_allocated fl f' id = false → data_cluster f' id) →
  stored_at fl f' (cluster_sector f (first_cluster run)) (file_data fl f d fcl) →
  let d' := copy_details f cl p name run d ts in
  stored_file fl f' d' (run_clusters run) ∧ file_data fl f' d' (run_clusters run) = file_data fl f d fcl.
Proof.
  intros Hv' Hfs Hs Hpos Hcount Hd Hal Hfree Hat d'. destruct (cluster_length_pos fl f (stored_vol _ _ _ _ Hs)) as (HS & _ & _).
  pose proof (stored_lengths _ _ _ _ Hs) as Hlen. pose proof (stored_count _ _ _ _ Hs) as Hn. pose proof (len_nonneg fcl).
  assert (Hfit : FileDetails.data_length d ≤ len fcl * cluster_length (fs f)).
  { rewrite Hn. pose proof (Z.div_mod (FileDetails.data_length d + cluster_length (fs f) - 1) (cluster_length (fs f)) ltac:(lia)).
    pose proof (Z.mod_pos_bound (FileDetails.data_length d + cluster_length (fs f) - 1) (cluster_length (fs f)) ltac:(lia)). nia. }
  assert (Hlr : len (run_clusters run) = cluster_count run) by (unfold run_clusters, len; rewrite length_seqZ; lia).
  assert (Hrun : run_clusters run ≠ [] → head (run_clusters run) = Some (first_cluster run)).
  { unfold run_clusters. intros Hne. destruct (decide (0 < cluster_count run)); [by rewrite seqZ_cons by lia|].
    rewrite seqZ_nil in Hne by lia. done. }
  split; [split; try done|].
  - apply NoDup_seqZ.
  - unfold stored_ok. replace (no_fat_chain d') with true.
    + intros first Hf. rewrite Hrun in Hf by (intros He; by rewrite He in Hf). injection Hf as <-. by rewrite Hlr.
    + symmetry. unfold no_fat_chain. cbn. rewrite contains_spec, flag_union_spec. reflexivity.
  - apply Forall_forall. intros k Hk%elem_of_run_clusters. by apply Hal.
  - rewrite Hlr, Hcount, Hn, Hfs. done.
  - apply (run_file_data fl f' run d'); [done| | | |].
    + by rewrite len_file_data by lia.
    + rewrite Hfs, Hcount. done.
    + intros i Hi. apply (file_data_zeros fl f d fcl); [done|exact Hi].
    + unfold cluster_sector in *. by rewrite Hfs.
Qed.

(** All of it, from what [copy_to] did. *)
Lemma copied_ok fl f f2 t t4 f4 f' cl l p via path name h d fcl run ts l1 x l2 :
  new_path fl f cl l p via path name h → stored_file fl f d fcl → (∀ id, id ∈ fcl → id ∉ cl) →
  contains (FileDetails.attributes d) Archive = true → 0 < FileDetails.data_length d →
  vol_inv fl f2 → vol_same fl f f2 → entered fl t f2 cl l p name run (copy_details f cl p name run d ts) t4 f4 l1 x l2 →
  cluster_count run = len fcl → (∀ k, k ∈ run_clusters run → cluster_ok f k ∧ is_allocated fl f k = false) →
  vol_inv fl f' → vol_step fl (cluster_sectors f4 (run_clusters run)) f4 f' →
  stored_at fl f' (cluster_sector f (first_cluster run)) (file_data fl f d fcl) → stays_durable fl f f' →
  copied fl f cl l p path name d fcl run l1 x l2 f'.
Proof.
  intros Hnp Hs Hdis Ha Hpos Hv2 Hst2 Hen Hcount Hfree Hv' Hst' Hat Hdur.
  pose proof Hnp as [Hv Hc Htab Hio Hsp Hpa Hw Hap Hal Hfr Hn Hroom Hnew]. pose proof Hen as [Hop Hbits _ Hos _ Hl Hio4 (_ & _ & Hname) Hdet Hmap].
  pose proof (op_step _ _ _ _ _ _ Hop) as Hst4. pose proof (op_inv _ _ _ _ _ _ Hop) as Hv4. set (d' := copy_details f cl p name run d ts) in *.
  pose proof (step_fs _ _ _ _ Hst2) as Hfs2. pose proof (step_fs _ _ _ _ Hst4) as Hfs4. pose proof (step_fs _ _ _ _ Hst') as Hfs'.
  assert (Hstep : vol_step fl (λ _, True) f f').
  { eapply vol_step_trans; [by apply vol_same_step|]. eapply vol_step_trans; eapply vol_step_weaken; [|exact Hst4| |exact Hst']; done. }
  assert (Hdata4 : Forall (data_cluster f4) (run_clusters run)).
  { apply Forall_forall. intros k Hk. apply (data_cluster_step fl _ f2 f4 k Hst4), (data_cluster_step fl _ f f2 k Hst2), Hfr; by apply Hfree. }
  assert (Htab2 : ∀ k, cluster_ok f k → is_allocated fl f2 k = is_allocated fl f k)
    by (intros k Hk; apply (tables_same_data fl (λ _, False) f f2 k Hv Hst2); tauto).
  assert (Hok4 : ∀ k, cluster_ok f4 k ↔ cluster_ok f k) by (intros k; unfold cluster_ok; by rewrite Hfs4, Hfs2).
  pose proof (others_same_data fl (run_clusters run) f4 f' Hv4 Hst' Hdata4) as Hos'.
  assert (Hosf : others_same fl (run_clusters run ++ cl) f f').
  { eapply others_same_trans; [exact Hfs2|apply Hst2|apply (others_same_weaken fl []); [|by intros ? ?%elem_of_nil]|].
    - apply others_same_data; [done|by apply vol_same_step|done].
    - eapply others_same_trans; [exact Hfs4|apply Hst4|exact Hos|]. apply (others_same_weaken fl (run_clusters run)); [done|].
      intros id Hid. apply elem_of_app. by left. }
  assert (Hbits' : ∀ k, cluster_ok f k → is_allocated fl f' k = if decide (in_run run k) then true else is_allocated fl f k).
  { intros k Hk. rewrite (proj2 (tables_same_data fl _ f4 f' k Hv4 Hst' (λ x, cluster_sectors_data f4 _ x Hdata4) (proj2 (Hok4 k) Hk))).
    rewrite Hbits by (unfold cluster_ok; by rewrite Hfs2). by rewrite Htab2. }
  assert (Hkcl : Forall (kept fl f4 f') cl).
  { pose proof (dir_data _ _ _ (sb_dir _ _ _ _ (io_search _ _ _ _ Hio4))) as Hcl4. apply (others_kept_list fl (run_clusters run)); [done|done|].
    intros id Hid Hid'. apply Forall_app in Hal as [_ Hal]. rewrite Forall_forall in Hal. specialize (Hal _ Hid).
    destruct (Hfree _ Hid') as [_ Hna]. congruence. }
  pose proof (in_order_frame fl _ f4 f' cl _ Hv4 Hst' Hkcl Hio4) as Hio'.
  assert (Hdet' : details_of (place f cl) x = d') by (rewrite <-Hdet; unfold details_of; by rewrite (place_step fl _ f f2 cl _ Hst2)).
  assert (Hmap' : ∀ name' attributes, in_directory f' cl (l1 ++ x :: l2) name' attributes =
    with_name (upcase_table f) name d' (in_directory f cl l) name' attributes).
  { intros name' attributes. rewrite (in_directory_step fl _ f4 f' _ _ _ _ Hst'), Hmap, (step_table _ _ _ _ Hst2). apply with_name_ext.
    intros n' a. by apply (in_directory_step fl _ f f2 _ _ _ _ Hst2). }
  assert (Hnaf : ∀ id, cluster_ok f id → is_allocated fl f' id = false → is_allocated fl f id = false).
  { intros id Hid. rewrite Hbits' by done. by destruct (decide _). }
  destruct (copy_stored_ok fl f f' cl p name d fcl run ts Hv') as [Hst5 Hdata]; try done.
  { by rewrite Hfs', Hfs4, Hfs2. }
  { eapply Forall_impl; [exact Hdata4|]. intros id. by apply (data_cluster_step fl _ f4 f' id Hst'). }
  { intros k Hk. rewrite Hbits' by by apply Hfree, elem_of_run_clusters. by rewrite decide_True. }
  { intros id Hid Hna. assert (Hid' : cluster_ok f id) by (unfold cluster_ok in *; by rewrite <-(step_fs _ _ _ _ Hstep)).
    apply (data_cluster_step fl _ f f' id Hstep), Hfr; [done|by apply Hnaf]. }
  split; try done; rewrite ?Hdet'; try done.
  - by exists ts.
  - rewrite Hpa. replace (Some d') with (in_directory f' cl (l1 ++ x :: l2) name (Some Archive)).
    + apply (walks_resolves fl f' _ _ cl via); [|apply Hio'|by rewrite (step_table _ _ _ _ Hstep); eapply legal_name_ok].
      rewrite (step_fs _ _ _ _ Hstep). apply (walks_kept fl (λ _, True) f f' _ _ _ via Hv Hstep); [|done].
      apply (others_kept_list fl (run_clusters run ++ cl)); [done|by eapply walks_data|]. intros id Hid [Hr|Hcl]%elem_of_app; [|by apply (Hap id)].
      apply Forall_app in Hal as [Hal _]. rewrite Forall_forall in Hal. specialize (Hal _ Hid). destruct (Hfree _ Hr). congruence.
    + rewrite Hmap'. unfold with_name, eq_name. rewrite bool_decide_true by done. unfold d'. cbn. by rewrite Ha.
  - apply (stored_file_others fl (λ _, True) (run_clusters run ++ cl)); try done.
    intros id Hid [Hr|Hcl]%elem_of_app; [|by apply (Hdis id)].
    pose proof (stored_allocated _ _ _ _ Hs) as Hsa. rewrite Forall_forall in Hsa. specialize (Hsa _ Hid). destruct (Hfree _ Hr). congruence.
Qed.
End Result.

(** * By path *)
Section Path.
Context {cfg : Config} {crates : Crates} {bd : BlockDevice} {fu : Fuel}.
Context {Hcfg : ConfigOk cfg} {Hcr : CratesOk crates} {Hbd : DeviceOk cfg bd}.
Implicit Types (f : FileSystem) (t : FileDirty) (cl fcl via : list Z) (name path : str) (p : Z) (run : AllocatedRun) (d : FileDetails.t).

Lemma stored_at_same fl f f' s data :
  vol_same fl f f' → (∀ j, 0 ≤ j < sectors_for (len data) → data_region f (s + j)) → stored_at fl f s data → stored_at fl f' s data.
Proof.
  intros Hst Hr Hs i Hi. pose proof SIZE_range. rewrite (step_seen _ _ _ _ Hst); [by apply Hs| |tauto]. right; right. apply Hr.
  split; [apply Z.div_pos; lia|]. unfold sectors_for. enough (i / SIZE + 1 ≤ (len data + SIZE - 1) / SIZE) by lia.
  rewrite <-Z.div_add by lia. apply Z.div_le_mono; lia.
Qed.

(** Closing a file whose own entry is not dirty. *)
Lemma flush_flag_ok f f' file :
  is_dir_entry_dirty (touched file) = false → FileDirty_flush (touched file, f) = ((FileDirty_new, f'), Ok ()) →
  File.flush (file, f) = ((set_touched FileDirty_new file, f'), Ok ()).
Proof.
  intros Hd Hfl. unfold File.flush, get_file. rewrite (bind_Ok (gets fst) _ _ (file, f) file) by done. rewrite Hd.
  rewrite (bind_Ok (mret ()) _ (file, f) (file, f) ()) by done. by eapply zoom_to.
Qed.

(** [copy] opens the file, without a change of the allocator. *)
Lemma open_leaves_allocator fl f f' path options d file cl :
  table_ok (upcase_table f) → vol_inv fl f → stored_file fl f d cl →
  resolves fl f (Some Archive) (path_to_iter path) (first_cluster_of_root_dir (fs f)) (Some d) →
  OpenOptions.create_new options = false → OpenOptions.truncate options = false →
  Api.open path options f = (f', Ok file) → allocator f' = allocator f.
Proof.
  intros Htab Hv Hs Hres Hnew Htr Hrun. destruct (find_path_ok fl f (Some Archive) path _ Hv Htab Hres) as (f1 & _ & _ & _ & Hfind).
  pose proof (find_file_leaves_allocator path (Some Archive) f) as H1. rewrite Hfind in H1. cbn in H1.
  unfold Api.open in Hrun. rewrite (bind_Ok _ _ _ _ _ (mounted_ok fl f Hv)) in Hrun.
  rewrite (bind_Ok (try_ (find_file_or_directory path (Some Archive))) _ f f1 (inr d)) in Hrun
    by (unfold try_, find_file_or_directory; by rewrite Hfind).
  unfold open_details in Hrun. rewrite Hnew, Htr in Hrun. rewrite (bind_Ok (mret d) _ f1 f1 d) in Hrun by done.
  pose proof (open_file_leaves_allocator options d f1) as H2. rewrite Hrun in H2. cbn in H2. congruence.
Qed.

Lemma copy_path_ok fl f cl l p via path name h from d fcl :
  new_path fl f cl l p via path name h → from ≠ path →
  resolves fl f (Some Archive) (path_to_iter from) (first_cluster_of_root_dir (fs f)) (Some d) →
  stored_file fl f d fcl → (∀ id, id ∈ fcl → id ∉ cl) → 0 < FileDetails.data_length d < 2 ^ usize →
  ∃ f' o, copy from path f = (f', o) ∧
    match o with
    | Ok () => ∃ run l1 x l2, copied fl f cl l p path name d fcl run l1 x l2 f'
    | Err DiskFull => vol_inv fl f' ∧ vol_same fl f f' ∧
        ∀ k, next_search_cluster (allocator f) ≤ k → k + len fcl ≤ limit (allocator f) →
          ¬ ∀ j, k ≤ j < k + len fcl → is_allocated fl f j = false
    | _ => False
    end.
Proof.
  intros Hnp Hne Hres Hs Hdis Hdl. pose proof (np_inv _ _ _ _ _ _ _ _ _ Hnp) as Hv. pose proof (np_table _ _ _ _ _ _ _ _ _ Hnp) as Htab.
  destruct (open_found_ok fl f (OpenOptions.set_read true OpenOptions.new) from d fcl Htab Hs Hres)
    as (f1 & file & Ho & Hst1 & Hg & Hd & Hopt & Hc & Ht & Hdata); [done..|].
  pose proof (open_leaves_allocator fl f f1 from (OpenOptions.set_read true OpenOptions.new) d file fcl Htab Hv Hs Hres eq_refl eq_refl Ho) as Hal1.
  pose proof (grow_file _ _ _ _ Hg) as Hi. pose proof (file_vol _ _ _ _ Hi) as Hv1. pose proof (step_fs _ _ _ _ Hst1) as Hfs1.
  assert (Htab1 : ∀ k, cluster_ok f k → is_allocated fl f1 k = is_allocated fl f k)
    by (intros k Hk; apply (tables_same_data fl (λ _, False) f f1 k Hv Hst1); tauto).
  destruct (copy_to_ok fl f1 file fcl cl l p via path name h) as (file' & f5 & o & Hrun & Hres5); try rewrite Hd; try done.
  { by apply (new_path_same fl f f1). }
  { apply Hg. }
  { rewrite Ht. apply FileDirty_new_ok. }
  { by rewrite Hopt. }
  { exact (resolves_attributes fl f _ _ _ d Hv Hres). }
  { unfold clusters_for. rewrite Hfs1. apply (stored_count _ _ _ _ Hs). }
  assert (Hcopy : ∀ r, with_file from (OpenOptions.set_read true OpenOptions.new) (copy_to path) f = r → copy from path f = r).
  { intros r <-. unfold copy. rewrite (bind_Ok _ _ _ _ _ (mounted_ok fl f Hv)). by rewrite decide_False. }
  rewrite Hd in Hres5. destruct o as [[]|[]| |]; try done.
  2: { destruct Hres5 as (-> & Hv5 & Hst5 & Hfull). exists f5, (Err DiskFull). split.
       { apply Hcopy. unfold with_file. rewrite (bind_Ok _ _ _ _ _ Ho). unfold mbind, M_bind, with_local. by rewrite Hrun. }
       split; [done|]. split; [by eapply vol_step_trans|]. rewrite Hal1 in Hfull. intros k Hk1 Hk2 Hk. apply (Hfull k Hk1 Hk2).
       intros j Hj. rewrite Htab1; [by apply Hk|]. unfold cluster_ok. rewrite (vol_limit fl f Hv) in Hk2.
       pose proof (alloc_rover _ _ (vol_alloc_inv fl f Hv)). lia. }
  destruct Hres5 as (f2 & t4 & f4 & run & ts & l1 & x & l2 & Hv2 & Hst2 & Hen & Hcount & Hfree & <- & Hop5 & Hat & Hreg).
  rewrite Ht in Hen. set (t4 := touched file') in *. pose proof (step_fs _ _ _ _ Hst2) as Hfs2. pose proof (op_step _ _ _ _ _ _ Hop5) as Hst5.
  assert (Hst02 : vol_same fl f f2) by (by eapply vol_step_trans).
  assert (Hops : vol_op fl (λ _, True) FileDirty_new f2 t4 f5).
  { eapply vol_op_trans; eapply vol_op_weaken; [|apply (en_op _ _ _ _ _ _ _ _ _ _ _ _ _ _ Hen)| |exact Hop5]; done. }
  destruct (flush_changes_ok fl f2 _ t4 f5 Hv2 Hops) as (f6 & Hfl & Hv6 & Hst6 & _ & Hdur).
  exists f6, (Ok ()). split.
  - apply Hcopy. unfold with_file. rewrite (bind_Ok _ _ _ _ _ Ho). rewrite (bind_Ok _ _ _ f6 (set_touched FileDirty_new file', ())); [done|].
    apply (with_local_eq _ _ _ _ _ (Ok ())). rewrite (bind_Ok _ _ _ _ _ Hrun).
    rewrite (bind_Ok _ _ _ _ _ (flush_flag_ok f5 f6 file' (en_flag _ _ _ _ _ _ _ _ _ _ _ _ _ _ Hen) Hfl)). done.
  - exists run, l1, x, l2. assert (Hcd : copy_details f1 cl p name run d ts = copy_details f cl p name run d ts)
      by (unfold copy_details; by rewrite (place_step fl _ f f1 cl p Hst1)). rewrite Hcd in Hen.
    rewrite Hdata in Hat. assert (Hcs : cluster_sector f1 (first_cluster run) = cluster_sector f (first_cluster run)) by (unfold cluster_sector; by rewrite Hfs1).
    rewrite Hcs in Hat, Hreg.
    apply (copied_ok fl f f2 FileDirty_new t4 f4 f6 cl l p via path name h d fcl run ts l1 x l2); try done.
    + by eapply resolves_wanted.
    + lia.
    + intros k Hk. destruct (Hfree k Hk) as [Hk1 Hk2]. assert (Hok : cluster_ok f k) by (unfold cluster_ok in *; by rewrite <-Hfs1).
      split; [done|]. by rewrite <-Htab1.
    + eapply vol_step_trans; [exact Hst5|by apply vol_same_step].
    + apply (stored_at_same fl f5); [done| |done]. rewrite len_file_data by lia. done.
    + eapply stays_durable_trans; [exact Hst02|by apply stays_durable_same|done].
Qed.
End Path.

(** * Theorems *)
Section Theorems.
Context {cfg : Config} {crates : Crates} {bd : BlockDevice} {fu : Fuel}.
Context {Hcfg : ConfigOk cfg} {Hcr : CratesOk crates} {Hbd : DeviceOk cfg bd}.
Implicit Types (f : FileSystem) (cl fcl via : list Z) (name path : str) (p : Z) (d : FileDetails.t).

(** C15 - copying a file that is not empty and shorter than [2 ^ usize] (any file on
    a 64-bit build; on a 32-bit build less than 4 GiB, since [File::read] never
    ends on longer files) to a path that is not there, in a directory that is
    there and has room: the new path then stands for a file
    with the same bytes, lengths and attributes, in clusters that were free,
    the directory as a map gets exactly this name, the original stays what and
    where it was, the clusters of everything else keep data, FAT entry and
    bit, and what was on the device stays there; or there is no run of as many
    free clusters at or behind the place where the search begins, and then the
    call fails with [DiskFull] and nothing changes. *)
Theorem copy_copies_file fl f cl l p via path name h from d fcl :
  new_path fl f cl l p via path name h → from ≠ path →
  resolves fl f (Some Archive) (path_to_iter from) (first_cluster_of_root_dir (fs f)) (Some d) →
  stored_file fl f d fcl → (∀ id, id ∈ fcl → id ∉ cl) → 0 < FileDetails.data_length d < 2 ^ usize →
  ∃ f' o, copy from path f = (f', o) ∧
    match o with
    | Ok () => ∃ run l1 x l2, copied fl f cl l p path name d fcl run l1 x l2 f'
    | Err DiskFull => vol_inv fl f' ∧ vol_same fl f f' ∧
        ∀ k, next_search_cluster (allocator f) ≤ k → k + len fcl ≤ limit (allocator f) →
          ¬ ∀ j, k ≤ j < k + len fcl → is_allocated fl f j = false
    | _ => False
    end.
Proof. apply copy_path_ok. Qed.
End Theorems.

(** * A copy on a small volume *)
Section Sample.
#[local] Existing Instance debug_build.
#[local] Existing Instance dummy_device.
#[local] Existing Instance reference_crates.
#[local] Existing Instance reference_crates_ok.
#[local] Existing Instance debug_build_ok.
#[local] Existing Instance sample_files_device_ok.
#[local] Existing Instance sample_files_fuel.

(** A directory in the cluster 3 with one file, in the clusters 6 and 8; the
    clusters 4, 5, 7 and 9 are free. *)
Definition sample_crab_device : DummyBlockDevice :=
  let bytes := concat (replicate 10 (0x05 :: zeros 31) ++ sample_entries (of_string "crab.txt") 6) in
  {| blocks := <[1%nat := splice (zeros 512) 12 (to_le_bytes 4 END_OF_CHAIN ++ zeros 8 ++ to_le_bytes 4 8 ++ zeros 4 ++
                    to_le_bytes 4 END_OF_CHAIN)]>
       (<[2%nat := 0x53 :: zeros 511]> (<[3%nat := bytes ++ zeros 96]> (<[6%nat := of_string "Ferris" ++ zeros 506]>
         (<[8%nat := replicate 512 0x21]> (blocks (blank 10))))));
     write_count := 0 |}.
Definition crab_volume : FileSystem := volume_on sample_crab_device.
Definition crab_sets : list dir_set := default [] (dir_sets (dir_list 1 crab_volume [3] 0 16) 0).
Definition crab_set : dir_set := default sample_no_set (head crab_sets).

Lemma crab_in_order : in_order 1 crab_volume [3] crab_sets.
Proof.
  assert (Hlen : dir_len crab_volume [3] = 16) by (vm_compute; reflexivity).
  split; [split| |].
  - split.
    + unfold data_cluster, cluster_ok, cluster_sector, data_region, heap_region, bitmap_region. cbn.
      apply Forall_cons_2; [split; [lia|intros k Hk; lia]|apply Forall_nil_2].
    + intros [|i] a b; cbn; done.
    + intros l [= <-]. vm_compute. reflexivity.
    + vm_compute. congruence.
  - done.
  - rewrite Hlen. reflexivity.
  - rewrite Hlen. unfold crab_sets. destruct (dir_sets _ _) as [l|] eqn:Hl; [reflexivity|]. vm_compute in Hl. discriminate Hl.
  - unfold crab_sets. destruct (dir_sets _ _) as [l|] eqn:Hl; vm_compute in Hl; [|discriminate Hl].
    injection Hl as <-. repeat constructor.
  - rewrite Hlen. apply ends_okb_ok. vm_compute. reflexivity.
  - apply (bool_decide_unpack _). vm_compute. exact I.
Qed.

Lemma crab_stored : stored_file 1 crab_volume (details_of (place crab_volume [3]) crab_set) [6; 8].
Proof.
  split.
  - apply volume_on_inv. intros s Hs. split; [exact Hs|]. apply (bool_decide_unpack _). vm_compute. exact I.
  - unfold data_cluster, cluster_ok, cluster_sector, data_region, heap_region, bitmap_region. cbn.
    repeat (apply Forall_cons_2; [split; [lia|intros k Hk; lia]|]). apply Forall_nil_2.
  - apply (bool_decide_unpack _). vm_compute. exact I.
  - unfold stored_ok. replace (no_fat_chain _) with false by (vm_compute; reflexivity).
    split; [intros [|[|i]] a b; cbn; [|done..]; intros [= <-] [= <-]; vm_compute; reflexivity|].
    intros x [= <-]. vm_compute. reflexivity.
  - apply (bool_decide_unpack _). vm_compute. exact I.
  - intros k Hk Hfree. unfold cluster_ok in Hk. cbn in Hk.
    assert (Hcase : k = 2 ∨ 3 ≤ k < 10) by lia. destruct Hcase as [->|Hk3]; [vm_compute in Hfree; discriminate Hfree|].
    unfold data_cluster, cluster_ok, cluster_sector, data_region, heap_region, bitmap_region. cbn. split; [lia|intros j Hj; lia].
  - intros _. vm_compute. reflexivity.
  - vm_compute. split; congruence.
  - vm_compute. reflexivity.
Qed.

Lemma crab_new_path :
  new_path 1 crab_volume [3] crab_sets 0 [] (of_string "/New file.txt") sample_new_name
    (spec_name_hash UpcaseTable_default (encode_utf16 sample_new_name) 0).
Proof.
  split.
  - apply crab_stored.
  - exact I.
  - apply default_table_ok.
  - exact crab_in_order.
  - vm_compute. reflexivity.
  - vm_compute. reflexivity.
  - replace (path_to_iter _) with (@nil str) by (vm_compute; reflexivity).
    change (first_cluster_of_root_dir _) with (hd 0 [3]). constructor.
  - by intros id ?%elem_of_nil.
  - apply (bool_decide_unpack _). vm_compute. exact I.
  - apply (stored_free _ _ _ _ crab_stored).
  - exact sample_legal.
  - assert (Hlen : dir_len crab_volume [3] = 16) by (vm_compute; reflexivity).
    assert (Hn : set_count sample_new_name = 3) by (vm_compute; reflexivity). rewrite Hn. split.
    + unfold free_from. rewrite Hlen. split_and!; [lia|lia|]. intros j Hj.
      assert (Hcase : j = 0 ∨ j = 1 ∨ j = 2) by lia. destruct Hcase as [->|[->| ->]]; vm_compute; reflexivity.
    + intros q Hq (Hq0 & _). lia.
    + vm_compute. congruence.
  - vm_compute. reflexivity.
Qed.

Lemma crab_copy_ok : snd (copy (of_string "/CRAB.txt") (of_string "/New file.txt") crab_volume) = Ok ().
Proof. vm_compute. reflexivity. Qed.

Lemma copy_copies_file_witness :
  ∃ f' l' d run, copy (of_string "/CRAB.txt") (of_string "/New file.txt") crab_volume = (f', Ok ()) ∧
    in_directory f' [3] l' (of_string "NEW FILE.txt") (Some Archive) = Some d ∧ FileDetails.data_length d = 700 ∧
    stored_file 1 f' d (run_clusters run) ∧ cluster_count run = 2 ∧ take 8 (file_data 1 f' d (run_clusters run)) = of_string "Ferris" ++ [0; 0] ∧
    file_data 1 f' d (run_clusters run) !!! 599%nat = 0x21.
Proof.
  destruct (copy_copies_file 1 crab_volume [3] crab_sets 0 [] (of_string "/New file.txt") sample_new_name
    (spec_name_hash UpcaseTable_default (encode_utf16 sample_new_name) 0) (of_string "/CRAB.txt")
    (details_of (place crab_volume [3]) crab_set) [6; 8] crab_new_path) as (f' & o & Hrun & Ho).
  - vm_compute. discriminate.
  - replace (path_to_iter _) with [of_string "CRAB.txt"] by (vm_compute; reflexivity).
    change (first_cluster_of_root_dir _) with (hd 0 [3]).
    replace (Some (details_of _ _)) with (in_directory crab_volume [3] crab_sets (of_string "CRAB.txt") (Some Archive))
      by (vm_compute; reflexivity).
    constructor; [apply crab_in_order|]. eapply sample_name_ok; vm_compute; reflexivity.
  - exact crab_stored.
  - intros id. rewrite !elem_of_cons, !elem_of_nil. lia.
  - vm_compute. split; [reflexivity|congruence].
  - pose proof crab_copy_ok as Ho'. rewrite Hrun in Ho'. cbn [snd] in Ho'. rewrite Ho' in Hrun, Ho.
    destruct Ho as (run & l1 & x & l2 & [_ Hc _ _ _ _ [ts Hdet] Hmap _ Hst Hdata _ _ _]).
    exists f', (l1 ++ x :: l2). eexists _, run. split; [exact Hrun|]. split; [|split; [|split; [exact Hst|split; [exact Hc|]]]].
    + rewrite Hmap. unfold with_name. replace (eq_name _ _ _) with true by (vm_compute; reflexivity). rewrite Hdet at 1.
      replace (contains _ _) with true by (vm_compute; reflexivity). reflexivity.
    + rewrite Hdet. vm_compute. reflexivity.
    + rewrite Hdata. clear. split; vm_compute; reflexivity.
Defined.
End Sample.
