(* ===== verification/Append.v ===== *)
(** * Appending to a file that stays open

    [write] and [flush] of src/file.rs on an open file, over and over: as long
    as the file is open, its entry set in the directory, its clusters and its
    list of touched sectors stay in agreement. *)

From S2P Require Import Prelude Text Crates Errors Utils Timestamp BootSector Device SlotCache Touched Fat Allocation AllocationSearch Regions Volume VolumeInv VolumeAlloc DirectoryEntry Directory FileSystem File FileRead FileGrow FreeChain FileWrite FileSeek Api FileOpen DirSets FileFlush DirWalk DirFree DirLookup PathLookup DirCreate DirInsert DirRemove PathCreate DirUpdate Truncate PathFiles PathReplace DirMake Leaves Copy.
Import FileSystemDetails (cluster_length, sectors_per_cluster, first_cluster_of_root_dir).

(** * Specification *)
Section Spec.
Context {cfg : Config} {crates : Crates} {bd : BlockDevice} {fu : Fuel} {Hbd : DeviceOk cfg bd}.
Implicit Types (f : FileSystem) (file : File) (cl via nl bs : list Z) (name path : str) (p : Z).

(** The path stands for a file with these bytes. *)
Definition on_volume (fl : Z) f path nl bs : Prop :=
  ∃ d, resolves fl f (Some Archive) (path_to_iter path) (first_cluster_of_root_dir (fs f)) (Some d) ∧
    stored_file fl f d nl ∧ file_data fl f d nl = bs.

(** The disk is full; the open file is consistent and has the contents [bs]. *)
Definition append_full (fl : Z) f file bs : Prop :=
  (∃ nl, grow_inv fl f file nl ∧ file_data fl f (details file) nl = bs) ∧
  ∀ k, cluster_ok f k → is_allocated fl f k = true.

(** A file open for appending, with the contents [bs] and the cursor at the end. *)
Record appending (fl : Z) f file cl l1 (x : dir_set) l2 p via path name nl bs : Prop := {
  ap_opened : opened fl f file cl l1 x l2 p via path name nl;
  ap_write : OpenOptions.write (open_options file) = true;
  ap_cursor : cursor file = len bs;
  ap_length : FileDetails.data_length (details file) = len bs;
  ap_valid : FileDetails.valid_data_length (details file) = len bs;
  ap_data : file_data fl f (details file) nl = bs;
  ap_tracked : tracked fl (touched file) f;
  ap_filed : is_dir_entry_dirty (touched file) = true ∨ on_volume fl f path nl bs;
}.
End Spec.

(** * Lemmas *)
Section Lemmas.
Context {cfg : Config} {crates : Crates} {bd : BlockDevice} {fu : Fuel}.
Context {Hcfg : ConfigOk cfg} {Hcr : CratesOk crates} {Hbd : DeviceOk cfg bd}.
Implicit Types (f : FileSystem) (file : File) (cl via nl bs buf : list Z) (name path : str) (p : Z).

(** A write at the end. *)
Lemma append_ok fl f file cl l1 x l2 p via path name nl bs buf :
  appending fl f file cl l1 x l2 p via path name nl bs → buf ≠ [] → Forall byte_ok buf →
  SIZE + len buf ≤ 2 ^ usize → len buf < 2 ^ 32 → ¬ write_misses_cluster f (len bs) (len buf) →
  ∃ file' f' nl' o, File.write buf (file, f) = ((file', f'), o) ∧
    match o with
    | Ok () => fs f' = fs f ∧ appending fl f' file' cl l1 x l2 p via path name nl' (bs ++ buf)
    | Err DiskFull => fs f' = fs f ∧ append_full fl f' file' bs
    | _ => False
    end.
Proof.
  intros [Hod Hopt Hcur Hdl Hvl Hdata Htr _] Hne Hb Hu H32 Hgap. pose proof (od_file _ _ _ _ _ _ _ _ _ _ _ _ Hod) as Hg.
  pose proof (file_vol _ _ _ _ (grow_file _ _ _ _ Hg)) as Hv.
  destruct (file_write_ok fl f file nl buf Hg) as (file' & f' & nl1 & o & Hr & [Hg' Hos Hnl Hop Hopt'] & Ho);
    [done|done|done|done|done|lia|by rewrite Hcur|].
  exists file', f', (nl ++ nl1), o. split; [done|]. destruct o as [[]|[]| |]; try done.
  2: { destruct Ho as (Hcont & _ & Hall). split; [apply (step_fs _ _ _ _ (op_step _ _ _ _ _ _ Hop))|]. split; [|done].
       exists (nl ++ nl1). split; [done|]. by rewrite Hcont. }
  destruct Ho as [(Hcont & Hcur' & Hvl') [Hwl Hwc Hwf Hwd Hwn Hwk]].
  pose proof (op_step _ _ _ _ _ _ Hop) as Hst. pose proof (len_nonneg bs). pose proof (len_nonneg buf).
  assert (Hlen : len (bs ++ buf) = len bs + len buf) by (unfold len; rewrite length_app; lia).
  assert (Hdata' : file_data fl f' (details file') (nl ++ nl1) = bs ++ buf).
  { rewrite Hcont, Hdata, Hcur. unfold splice, len. rewrite take_ge by lia. rewrite drop_ge by lia. by rewrite app_nil_r. }
  split; [exact (step_fs _ _ _ _ Hst)|]. split; rewrite ?Hlen; try done; try lia.
  - pose proof (walks_data _ _ _ _ _ _ (od_walk _ _ _ _ _ _ _ _ _ _ _ _ Hod)) as Hvia.
    pose proof (dir_data _ _ _ (sb_dir _ _ _ _ (io_search _ _ _ _ (od_order _ _ _ _ _ _ _ _ _ _ _ _ Hod)))) as Hcl.
    pose proof (od_taken _ _ _ _ _ _ _ _ _ _ _ _ Hod) as Htaken. rewrite Forall_forall in Htaken.
    assert (Hd : Forall (data_cluster f) (via ++ cl)) by by apply Forall_app.
    assert (Hni : ∀ id, id ∈ via ++ cl → id ∉ nl ++ nl1).
    { intros id Hid [Hi|[_ Hna]%Hnl]%elem_of_app; [by apply (od_others _ _ _ _ _ _ _ _ _ _ _ _ Hod id)|]. specialize (Htaken id Hid). congruence. }
    pose proof (others_kept_list fl (nl ++ nl1) f f' (via ++ cl) Hos Hd Hni) as Hk.
    apply (opened_step fl _ f f' file cl l1 x l2 p via path name nl file' (nl ++ nl1) Hod Hv Hst Hk);
      [|done|done|done|by apply Hwf, Hod| |].
    + rewrite Forall_forall in Hd. intros id Hid. rewrite (others_alloc _ _ _ _ Hos id); [auto|by apply (Hd id)|auto].
    + rewrite Hwn, Hwk by apply Hod. rewrite Hcur, Hdl, Hvl. unfold clusters_for. rewrite (step_fs _ _ _ _ Hst). do 2 f_equal. lia.
    + intros id Hid Hid'. by apply (Hni id).
  - by rewrite Hopt'.
  - by apply (vol_op_tracked _ _ _ _ _ _ Hop).
  - by left.
Qed.

Lemma stored_file_equal fl f f' d nl :
  stored_file fl f d nl → vol_inv fl f' → vol_same fl f f' → stored_file fl f' d nl ∧ file_data fl f' d nl = file_data fl f d nl.
Proof.
  intros Hs Hv' Hst. pose proof (stored_vol _ _ _ _ Hs) as Hv. apply (stored_file_others fl (λ _, False) []); try done.
  - apply others_same_data; [done|by apply vol_same_step|done].
  - by intros id _ ?%elem_of_nil.
  - intros id Hid. destruct (tables_same_data fl (λ _, False) f f' id Hv Hst) as [_ ->]; [tauto|done..].
Qed.
Lemma on_volume_same fl f f' path nl bs :
  vol_inv fl f → vol_inv fl f' → vol_same fl f f' → on_volume fl f path nl bs → on_volume fl f' path nl bs.
Proof.
  intros Hv Hv' Hst (d & Hres & Hs & Hd). exists d. rewrite (step_fs _ _ _ _ Hst).
  destruct (stored_file_equal fl f f' d nl Hs Hv' Hst) as [Hs' Hd']. split; [by apply (resolves_same fl f f')|]. split; [done|]. by rewrite Hd'.
Qed.

(** Flushing. *)
Lemma append_flush_ok fl f file cl l1 x l2 p via path name nl bs :
  appending fl f file cl l1 x l2 p via path name nl bs →
  ∃ f' x', File.flush (file, f) = ((set_touched FileDirty_new file, f'), Ok ()) ∧ fs f' = fs f ∧
    appending fl f' (set_touched FileDirty_new file) cl l1 x' l2 p via path name nl bs ∧
    on_volume fl f' path nl bs ∧ ∀ y, in_volume fl f' y → durable fl f' y.
Proof.
  intros [Hod Hopt Hcur Hdl Hvl Hdata Htr Hfiled]. pose proof (od_file _ _ _ _ _ _ _ _ _ _ _ _ Hod) as Hg.
  pose proof (file_vol _ _ _ _ (grow_file _ _ _ _ Hg)) as Hv. destruct (is_dir_entry_dirty (touched file)) eqn:Hdirty.
  - destruct (flush_opened_ok fl f file cl l1 x l2 p via path name nl Hod Hdirty)
      as (d & f' & x' & Hfl & Hv' & Hio' & Hmap' & Hres & Hs' & Hdata' & Hst & Hdur & Hod').
    assert (Hall : ∀ y, in_volume fl f' y → durable fl f' y) by (intros y Hy%(in_volume_step fl _ f f' y Hst); by apply Hdur).
    exists f', x'. assert (on_volume fl f' path nl bs) by (exists d; split; [done|]; split; [done|]; by rewrite Hdata').
    split; [done|]. split; [exact (step_fs _ _ _ _ Hst)|]. split; [|done]. split; try done.
    + rewrite <-Hdata. apply (file_data_kept fl (cluster_sectors f cl) f f' file nl (grow_file _ _ _ _ Hg) Hst).
      pose proof (dir_data _ _ _ (sb_dir _ _ _ _ (io_search _ _ _ _ (od_order _ _ _ _ _ _ _ _ _ _ _ _ Hod)))) as Hdc.
      apply (others_kept_list fl cl); [by apply others_same_data|apply Hg|].
      intros id Hid Hid'. apply (od_others _ _ _ _ _ _ _ _ _ _ _ _ Hod id Hid), elem_of_app. by right.
    + intros y Hy. left. by apply Hall.
    + by right.
  - destruct Hfiled as [?|Hon]; [congruence|].
    destruct (FileDirty_flush_ok fl f (touched file) Hv (grow_touched _ _ _ _ Hg)) as (f' & Hfl & Hv' & Hst & Hdur).
    pose proof (flush_flag_ok f f' file Hdirty Hfl) as Hrun.
    assert (Hall : ∀ y, in_volume fl f' y → durable fl f' y).
    { intros y Hy%(in_volume_step fl _ f f' y Hst). destruct (Htr y Hy) as [Hd|Hr]; [|by apply Hdur].
      by apply (step_durable _ _ _ _ Hst); [done|tauto|]. }
    exists f', x. assert (on_volume fl f' path nl bs) by (by apply (on_volume_same fl f)).
    split; [done|]. split; [exact (step_fs _ _ _ _ Hst)|]. split; [|done].
    assert (Htab : ∀ k, cluster_ok f k → fat_entry fl f' k = fat_entry fl f k ∧ is_allocated fl f' k = is_allocated fl f k)
      by (intros k; apply (tables_same_data fl (λ _, False) f f' k Hv Hst); tauto).
    split; try done.
    + apply (opened_same fl f f' file); [done|done| |done]. apply (grow_inv_tables fl (λ _, False) f f'); [done..|].
      split; [apply FileDirty_new_ok|apply Forall_nil_2].
    + rewrite <-Hdata. by apply (file_data_step fl f f' file nl (grow_file _ _ _ _ Hg)).
    + intros y Hy. left. by apply Hall.
    + by right.
Qed.

(** Opening a file to append to it: one that is there, with bytes up to its
    length that end inside its last cluster, and a new one. *)
Lemma open_append_ok fl f cl l1 s l2 via fcl path name o :
  old_path fl f cl l1 s l2 via fcl path name → let d := details_of (place f cl) s in
  OpenOptions.write o = true → OpenOptions.append o = true → OpenOptions.create_new o = false → OpenOptions.truncate o = false →
  FileDetails.valid_data_length d = FileDetails.data_length d →
  (fcl ≠ [] → (len fcl - 1) * cluster_length (fs f) ≤ FileDetails.data_length d < len fcl * cluster_length (fs f)) →
  (∀ y, in_volume fl f y → durable fl f y) →
  ∃ f' file, Api.open path o f = (f', Ok file) ∧ fs f' = fs f ∧
    appending fl f' file cl l1 s l2 (set_pos s) via path name fcl (file_data fl f d fcl) ∧
    on_volume fl f' path fcl (file_data fl f d fcl) ∧ ∀ y, in_volume fl f' y → durable fl f' y.
Proof.
  intros Hop d Hw Happ Hnew Htr Hval Hlast Hdur. pose proof Hop as [Hc Ht Hrm Hn Ha Hnm Hpa Hwk Hap Hoth Hal].
  pose proof (rm_order _ _ _ _ _ _ _ Hrm) as Hio. pose proof (rm_stored _ _ _ _ _ _ _ Hrm) as Hsf. pose proof (stored_vol _ _ _ _ Hsf) as Hv.
  pose proof (walks_resolves fl f _ _ cl via _ name (Some Archive) Hwk (io_search _ _ _ _ Hio) Hnm) as Hres.
  rewrite <-Hpa, (in_directory_own fl f cl l1 s l2 name Hio Hn Ha) in Hres. fold d in Hres, Hsf.
  destruct (open_kept_ok fl f o path d fcl Ht Hsf Hres Hnew Htr) as (f' & file & Hr & Hst & Hg & Hd & Ho & Hcur & Htou & Hdata).
  { intros _ Hne. rewrite Hval. by apply Hlast. }
  pose proof (file_vol _ _ _ _ (grow_file _ _ _ _ Hg)) as Hv'. pose proof (stored_lengths _ _ _ _ Hsf) as Hlen.
  exists f', file. split; [done|]. split; [apply Hst|].
  destruct (open_stored_ok fl f o d fcl Hsf) as (_ & file0 & _ & _ & _ & Hd0 & _ & _ & _ & Hg0);
    [intros _ Hne; rewrite Hval; by apply Hlast|].
  assert (Hod : opened fl f file0 cl l1 s l2 (set_pos s) via path name fcl).
  { split; try done; rewrite ?Hd0; try done.
    - apply Hrm.
    - apply Hrm.
    - apply (set_flags _ _ _ _ _ (emptied_entry_set fl f cl l1 s l2 Hv Hio (rm_count _ _ _ _ _ _ _ Hrm) (rm_cluster _ _ _ _ _ _ _ Hrm))).
    - apply (stored_count _ _ _ _ Hsf).
    - intros id Hid [Hi|Hi]%elem_of_app; [by apply (Hoth id)|by apply (rm_disjoint _ _ _ _ _ _ _ Hrm id)]. }
  assert (Hon : on_volume fl f' path fcl (file_data fl f d fcl)) by (apply (on_volume_same fl f f'); [done..|]; by exists d).
  assert (Hall : ∀ y, in_volume fl f' y → durable fl f' y).
  { intros y Hy%(in_volume_step fl _ f f' y Hst). apply (step_durable _ _ _ _ Hst); [done|tauto|by apply Hdur]. }
  split; [|done].
  unfold start_cursor in Hcur. rewrite Happ, Hval in Hcur. split; rewrite ?Hd, ?len_file_data by lia; try done.
  - apply (opened_same fl f f' file0 file); [done..|]. by rewrite Hd, Hd0.
  - by rewrite Ho.
  - intros y Hy. left. by apply Hall.
  - by right.
Qed.
Lemma open_append_new_ok fl f cl l p via path name h o :
  new_path fl f cl l p via path name h → OpenOptions.create o || OpenOptions.create_new o = true → OpenOptions.write o = true →
  (∀ y, in_volume fl f y → durable fl f y) →
  ∃ f' file l1 x l2, Api.open path o f = (f', Ok file) ∧ fs f' = fs f ∧ l = l1 ++ l2 ∧
    appending fl f' file cl l1 x l2 p via path name [] [] ∧ on_volume fl f' path [] [] ∧ ∀ y, in_volume fl f' y → durable fl f' y.
Proof.
  intros Hnp Hcreate Hw Hdur. pose proof (np_inv _ _ _ _ _ _ _ _ _ Hnp) as Hv.
  destruct (open_new_ok fl f cl l p via path name h o Hnp Hcreate) as (d & f' & file & l1 & x & l2 & Hrd & -> & Hod & Hmap & Hst & Hdl & Hdv).
  destruct Hrd as [Hr _ Hd Hl Hvl Hcur Ho Ht].
  assert (Hon : on_volume fl f' path [] []).
  { pose proof Hod as [_ _ Hio _ Hwk _ _ Hnm [Hn _] _ Ha Hg _ _ _ _ _].
    pose proof (in_directory_own fl f' cl l1 x l2 name Hio Hn Ha) as Hin.
    assert (Hx : details_of (place f' cl) x = d).
    { rewrite Hmap in Hin. unfold with_name, eq_name in Hin. rewrite bool_decide_true in Hin by done.
      destruct (contains (FileDetails.attributes d) Archive); [by injection Hin|done]. }
    exists d. rewrite (od_path _ _ _ _ _ _ _ _ _ _ _ _ Hod), <-Hx, <-Hin. split; [|split].
    - apply (walks_resolves fl f' _ _ cl via); [done|apply Hio|done].
    - rewrite Hx. apply empty_stored; [apply Hg|apply Hg|done|done].
    - unfold file_data. by rewrite Hx, Hdl. }
  assert (Hall : ∀ y, in_volume fl f' y → durable fl f' y) by (intros y Hy%(in_volume_step fl _ f f' y Hst); by apply Hd).
  exists f', file, l1, x, l2. split; [done|]. split; [apply Hst|]. split; [done|]. split; [|done]. split; try done.
  - by rewrite Ho.
  - unfold file_data. by rewrite Hl.
  - intros y Hy. left. by apply Hall.
  - by right.
Qed.
End Lemmas.
