(* ===== verification/FsActor.v ===== *)
(** * src/fs.rs: the file system behind a request channel

    Clients send an [Op] and decode the [Resp] they get; the actor owns the
    [FsManager] (device or mounted file system, handle tables) and serves one
    request at a time with [handle_req].  The embassy channel, signals, mutex
    and semaphore are not part of the repository; what is modelled of the reply
    pool is the slot bitmap it keeps. *)

From S2P Require Import Prelude Text Crates Errors Utils Timestamp BootSector Device SlotCache Touched Fat Allocation DirectoryEntry Volume Directory FileSystem File Api.
Open Scope string_scope.
Open Scope list_scope.
Open Scope Z_scope.

(** ** The error type of the interface *)
Module ActorError.
Inductive Error :=
  | Io (error_code : Z)
  | NoCard
  | DirectoryEntry (e : DirectoryEntryError.Error)
  | NotExFat (e : BootSectorError.Error)
  | EndOfFatChain
  | InvalidUtf16String (reason : string)
  | InvalidFileName (reason : string)
  | InvalidFileSystem (reason : string)
  | FileNotFound
  | DirectoryNotFound
  | Utf8Error
  | DiskFull
  | InvalidClusterId (id : Z)
  | InvalidSectorId (id : Z)
  | DirectoryNotEmpty
  | WriteNotEnabled
  | ReadNotEnabled
  | AlreadyExists
  | SeekOutOfRange
  | InvalidAllocation (allocated allocated_new : bool) (index lba : Z)
  | InvalidOptions
  | UnexpectedResponse
  | ExhaustedFileHandles
  | InvalidFileHandle
  | Unexpected (reason : string)
  | FileNameBufferTooSmall
  | DirectoryFull.
End ActorError.
Abbreviation Error := ActorError.Error.

(** The trait [BlockDeviceError] *)
Class BlockDeviceError (bd : BlockDevice) := {
  to_error_code : dev_error → Z;
  no_card : dev_error → bool;
}.

Section Convert.
Context {bd : BlockDevice} {be : BlockDeviceError bd}.
(** [From<ExFatError<E>> for Error] *)
Definition from_exfat_error (value : ExFatError dev_error) : Error :=
  match value with
  | Io e => if no_card e then ActorError.NoCard else ActorError.Io (to_error_code e)
  | AlreadyExists => ActorError.AlreadyExists
  | DirectoryEntry e => ActorError.DirectoryEntry e
  | DirectoryNotEmpty => ActorError.DirectoryNotEmpty
  | DirectoryNotFound => ActorError.DirectoryNotFound
  | DiskFull => ActorError.DiskFull
  | EndOfFatChain => ActorError.EndOfFatChain
  | FileNotFound => ActorError.FileNotFound
  | InvalidAllocation lba index allocated allocated_new =>
      ActorError.InvalidAllocation allocated allocated_new index lba
  | InvalidClusterId id => ActorError.InvalidClusterId id
  | InvalidFileName reason => ActorError.InvalidFileName reason
  | InvalidFileSystem reason => ActorError.InvalidFileSystem reason
  | InvalidOptions => ActorError.InvalidOptions
  | InvalidSectorId id => ActorError.InvalidSectorId id
  | InvalidUtf16String reason => ActorError.InvalidUtf16String reason
  | NotExFat e => ActorError.NotExFat e
  | ReadNotEnabled => ActorError.ReadNotEnabled
  | SeekOutOfRange => ActorError.SeekOutOfRange
  | Utf8Error => ActorError.Utf8Error
  | WriteNotEnabled => ActorError.WriteNotEnabled
  | Unexpected reason => ActorError.Unexpected reason
  | FileNameBufferTooSmall => ActorError.FileNameBufferTooSmall
  | DirectoryFull => ActorError.DirectoryFull
  end.
End Convert.

(** ** Messages *)
Inductive Op :=
  | ReadToString (path : str)
  | Read (path : str)
  | OpenFile (path : str) (options : OpenOptions.t)
  | ReadFile (handle len : Z)
  | ReadFileToEnd (handle : Z)
  | ReadFileToString (handle : Z)
  | WriteFile (handle : Z) (buffer : list Z)
  | SeekFile (handle position : Z)
  | CloseFile (handle : Z)
  | FlushFile (handle : Z)
  | GetMetadata (handle : Z)
  | OpenDirectory (path : str)
  | DirectoryNextEntry (handle : Z)
  | Exists (path : str)
  | RemoveFile (path : str)
  | CreateDirectory (path : str)
  | Copy (from_path to_path : str)
  | Rename (from_path to_path : str)
  | RemoveDir (path : str)
  | Write (path : str) (buffer : list Z)
  | CloseDirectory (handle : Z)
  | Shutdown.

Module Resp.
Inductive t :=
  | Ok
  | ReadToString (data : str)
  | Read (data : list Z)
  | FileOpen (handle : Z)
  | DirectoryOpen (handle : Z)
  | Metadata (data : FileDetails.t)
  | DirectoryEntry (data : option (FileDetails.t * str))
  | Exists (exists_ : bool).
End Resp.

(** ** Clients

    Every client function sends one request and accepts one kind of answer. *)
Record Client (A : Type) := { request : Op; accept : Resp.t → outcome Error A }.
Arguments request {A} c.
Arguments accept {A} c.

Definition unexpected {A} : outcome Error A := Err ActorError.UnexpectedResponse.
Definition accept_ok (r : Resp.t) : outcome Error () :=
  match r with Resp.Ok => Ok () | _ => unexpected end.
Definition accept_bytes (r : Resp.t) : outcome Error (list Z) :=
  match r with Resp.Read data => Ok data | _ => unexpected end.
Definition accept_string (r : Resp.t) : outcome Error str :=
  match r with Resp.ReadToString data => Ok data | _ => unexpected end.

Definition client_open (path : str) (options : OpenOptions.t) : Client Z := {|
  request := OpenFile path options;
  accept r := match r with Resp.FileOpen h => Ok h | _ => unexpected end |}.
(** [FileHandle::read]: the caller's buffer afterwards and the number of bytes *)
Definition client_file_read (handle : Z) (buf : list Z) : Client (list Z * option Z) := {|
  request := ReadFile handle (len buf);
  accept r :=
    match r with
    | Resp.Read data =>
        if len data =? 0 then Ok (buf, None)
        else buf' ← copy_into buf 0 (len data) data; Ok (buf', Some (len data))
    | _ => unexpected
    end |}.
Definition client_file_read_to_end (handle : Z) : Client (list Z) := {|
  request := ReadFileToEnd handle; accept := accept_bytes |}.
Definition client_file_read_to_string (handle : Z) : Client str := {|
  request := ReadFileToString handle; accept := accept_string |}.
(** sent only for a buffer that is not empty *)
Definition client_file_write (handle : Z) (buffer : list Z) : option (Client ()) :=
  if len buffer =? 0 then None
  else Some {| request := WriteFile handle buffer; accept := accept_ok |}.
Definition client_seek (handle position : Z) : Client () := {|
  request := SeekFile handle position; accept := accept_ok |}.
Definition client_metadata (handle : Z) : Client FileDetails.t := {|
  request := GetMetadata handle;
  accept r := match r with Resp.Metadata d => Ok d | _ => unexpected end |}.
Definition client_close (handle : Z) : Client () := {|
  request := CloseFile handle; accept := accept_ok |}.
Definition client_flush (handle : Z) : Client () := {|
  request := FlushFile handle; accept := accept_ok |}.
Definition client_next_entry (handle : Z) : Client (option (FileDetails.t * str)) := {|
  request := DirectoryNextEntry handle;
  accept r := match r with Resp.DirectoryEntry d => Ok d | _ => unexpected end |}.
Definition client_read_to_string (path : str) : Client str := {|
  request := ReadToString path; accept := accept_string |}.
Definition client_read (path : str) : Client (list Z) := {|
  request := Read path; accept := accept_bytes |}.
Definition client_read_dir (path : str) : Client Z := {|
  request := OpenDirectory path;
  accept r := match r with Resp.DirectoryOpen h => Ok h | _ => unexpected end |}.
Definition client_exists (path : str) : Client bool := {|
  request := Exists path;
  accept r := match r with Resp.Exists b => Ok b | _ => unexpected end |}.
Definition client_remove_file (path : str) : Client () := {|
  request := RemoveFile path; accept := accept_ok |}.
Definition client_create_directory (path : str) : Client () := {|
  request := CreateDirectory path; accept := accept_ok |}.
Definition client_copy (path_from path_to : str) : Client () := {|
  request := Copy path_from path_to; accept := accept_ok |}.
Definition client_rename (path_from path_to : str) : Client () := {|
  request := Rename path_from path_to; accept := accept_ok |}.
Definition client_remove_directory (path : str) : Client () := {|
  request := RemoveDir path; accept := accept_ok |}.
Definition client_write (path : str) (buffer : list Z) : Client () := {|
  request := Write path buffer; accept := accept_ok |}.
Definition client_shutdown : Client () := {| request := Shutdown; accept := accept_ok |}.

(** ** The slot bitmap of the reply pool *)
Definition REPLY_SLOTS : nat := 4.
Fixpoint claim_slot_loop (slots : list nat) (bitmap : Z) : Z * Z :=
  match slots with
  | [] => (bitmap, 0)
  | i :: slots =>
      let mask := Z.shiftl 1 (Z.of_nat i) in
      if Z.land bitmap mask =? 0 then (Z.lor bitmap mask, Z.of_nat i)
      else claim_slot_loop slots bitmap
  end.
(** the bitmap afterwards and the slot *)
Definition claim_slot_locked (bitmap : Z) : Z * Z := claim_slot_loop (seq 0 REPLY_SLOTS) bitmap.
Definition release_slot_locked (bitmap slot : Z) : Z := Z.ldiff bitmap (Z.shiftl 1 slot).

(** ** Handle tables *)
Record Handles (T : Type) := { handles : gmap Z T; next_handle : Z }.
Arguments handles {T} h.
Arguments next_handle {T} h.

Section Handles.
Context {T : Type}.
Definition Handles_new : Handles T := {| handles := ∅; next_handle := 0 |}.
Definition clear (h : Handles T) : Handles T :=
  {| handles := ∅; next_handle := next_handle h |}.

(** the [loop] of [add]: the next handle may be taken, then the one after *)
Fixpoint add_loop (n : nat) (item : T) (counter : Z) : M (Handles T) Error Z := λ h,
  match n with
  | O => (h, OutOfFuel)
  | S n =>
      let handle := wrapping_add u32 (next_handle h) 1 in
      match handles h !! handle with
      | None => ({| handles := <[handle := item]> (handles h); next_handle := handle |}, Ok handle)
      | Some _ =>
          let h := {| handles := handles h; next_handle := handle |} in
          if counter + 1 =? umax u32 then (h, Err ActorError.ExhaustedFileHandles)
          else add_loop n item (counter + 1) h
      end
  end.
Definition add (item : T) : M (Handles T) Error Z := λ h,
  add_loop (S (size (handles h))) item 0 h.

Definition remove (handle : Z) : M (Handles T) Error T := λ h,
  match handles h !! handle with
  | Some x => ({| handles := delete handle (handles h); next_handle := next_handle h |}, Ok x)
  | None => (h, Err ActorError.InvalidFileHandle)
  end.
Definition get (handle : Z) : M (Handles T) Error T := λ h,
  (h, match handles h !! handle with Some x => Ok x | None => Err ActorError.InvalidFileHandle end).
(** what the borrower of [get] leaves behind *)
Definition put_back (handle : Z) (x : T) (h : Handles T) : Handles T :=
  {| handles := <[handle := x]> (handles h); next_handle := next_handle h |}.

(** [pop_first] of the BTreeMap: the entry with the smallest key *)
Definition smallest (l : list (Z * T)) : option (Z * T) :=
  foldr (λ x acc, match acc with
                  | None => Some x
                  | Some y => if (fst x <? fst y)%Z then Some x else Some y
                  end) None l.
Definition take_any (h : Handles T) : Handles T * option T :=
  match smallest (map_to_list (handles h)) with
  | Some (k, x) => ({| handles := delete k (handles h); next_handle := next_handle h |}, Some x)
  | None => (h, None)
  end.
End Handles.

(** ** The manager *)
Section Manager.
Context {cfg : Config} {crates : Crates} {bd : BlockDevice} {be : BlockDeviceError bd} {fu : Fuel}.

(** [mgr_clock]: how often the time provider was called before this mount *)
Record FsManager := {
  mgr_dev : option dev;
  file_system : option FileSystem;
  files : Handles File;
  directories : Handles Chain.t;
  mgr_time_provider : option (nat → Timestamp);
  mgr_clock : nat;
}.
Abbreviation MM := (M FsManager Error) (only parsing).

Definition FsManager_new (d : dev) (time_provider : option (nat → Timestamp)) : FsManager := {|
  mgr_dev := Some d; file_system := None; files := Handles_new; directories := Handles_new;
  mgr_time_provider := time_provider; mgr_clock := 0 |}.

Definition with_fs (d : option dev) (f : option FileSystem) (c : nat) (m : FsManager) : FsManager :=
  {| mgr_dev := d; file_system := f; files := files m; directories := directories m;
     mgr_time_provider := mgr_time_provider m; mgr_clock := c |}.
Definition clear_handles (m : FsManager) : FsManager :=
  {| mgr_dev := mgr_dev m; file_system := file_system m; files := clear (files m);
     directories := clear (directories m); mgr_time_provider := mgr_time_provider m;
     mgr_clock := mgr_clock m |}.
Definition lfiles : lens FsManager (Handles File) :=
  Lens files (λ h m, {| mgr_dev := mgr_dev m; file_system := file_system m; files := h;
    directories := directories m; mgr_time_provider := mgr_time_provider m;
    mgr_clock := mgr_clock m |}).
Definition ldirs : lens FsManager (Handles Chain.t) :=
  Lens directories (λ h m, {| mgr_dev := mgr_dev m; file_system := file_system m; files := files m;
    directories := h; mgr_time_provider := mgr_time_provider m; mgr_clock := mgr_clock m |}).

(** a file system on the device, at the clock of the time provider *)
Definition fresh_fs (d : dev) (m : FsManager) : FileSystem :=
  let f := FileSystem_new d in
  let f := match mgr_time_provider m with Some p => set_time_provider p f | None => f end in
  {| device := device f; is_mounted := is_mounted f; fs := fs f; upcase_table := upcase_table f;
     allocator := allocator f; fat := fat f; data_blocks := data_blocks f;
     time_provider := time_provider f; clock := mgr_clock m |}.

(** [FsManager::mount] *)
Definition mgr_mount : M FsManager err () := λ m,
  match mgr_dev m with
  | Some d =>
      match Volume.mount (fresh_fs d m) with
      | (f, Ok _) => (with_fs None (Some f) (clock f) (clear_handles m), Ok ())
      | (f, Err e) =>
          match Volume.unmount f with
          | (f, Ok d) => (with_fs (Some d) (file_system m) (clock f) m, Err e)
          | (f, Err _) | (f, Panic) => (with_fs None (file_system m) (clock f) m, Panic)
          | (f, OutOfFuel) => (with_fs None (file_system m) (clock f) m, OutOfFuel)
          end
      | (f, Panic) => (with_fs None (file_system m) (clock f) m, Panic)
      | (f, OutOfFuel) => (with_fs None (file_system m) (clock f) m, OutOfFuel)
      end
  | None =>
      match file_system m with
      | Some _ => (m, Ok ())
      | None => (m, Panic) (* neither dev or file_system are set *)
      end
  end.

(** [FsManager::unmount] *)
Definition mgr_unmount : M FsManager err () := λ m,
  match file_system m with
  | Some f =>
      match Volume.unmount f with
      | (f, Ok d) => (clear_handles (with_fs (Some d) None (clock f) m), Ok ())
      | (f, Err e) => (with_fs (mgr_dev m) None (clock f) m, Err e)
      | (f, Panic) => (with_fs (mgr_dev m) None (clock f) m, Panic)
      | (f, OutOfFuel) => (with_fs (mgr_dev m) None (clock f) m, OutOfFuel)
      end
  | None => (clear_handles m, Ok ())
  end.

(** the [while let Some(file) = self.files.take_any()] loop of [shutdown]:
    every file is closed, the first error is kept *)
Fixpoint close_all (n : nat) (first_error : option err) : M FsManager err (option err) := λ m,
  match n with
  | O => (m, OutOfFuel)
  | S n =>
      match file_system m with
      | None => (m, Ok first_error)
      | Some f =>
          let '(h, o) := take_any (files m) in
          match o with
          | None => (m, Ok first_error)
          | Some file =>
              let '((_, f), r) := File.flush (file, f) in
              let m := with_fs (mgr_dev m) (Some f) (mgr_clock m) (put lfiles h m) in
              match r with
              | Ok _ => close_all n first_error m
              | Err e => close_all n (match first_error with None => Some e | e => e end) m
              | Panic => (m, Panic)
              | OutOfFuel => (m, OutOfFuel)
              end
          end
      end
  end.
Definition mgr_shutdown : M FsManager err () :=
  n ← gets (λ m, size (handles (files m)));
  first_error ← close_all (S n) None;
  modify (λ m, match file_system m with Some _ => put ldirs (clear (directories m)) m | None => m end) ;;
  mgr_unmount ;;
  match first_error with
  | None => mret ()
  | Some e => throw e
  end.

(** ** Serving a request *)

(** [call(..).await?] in [handle_req]: the error is converted *)
Definition on_fs {A} (call : M FileSystem err A) : MM A := λ m,
  match file_system m with
  | None => (m, Panic)
  | Some f =>
      let '(f, r) := call f in
      (with_fs (mgr_dev m) (Some f) (mgr_clock m) m, map_err_o from_exfat_error r)
  end.
(** [let file = files.get(handle)?; file.call(file_system, ..).await?] *)
Definition on_file {A} (handle : Z) (call : M (File * FileSystem) err A) : MM A := λ m,
  match handles (files m) !! handle, file_system m with
  | None, _ => (m, Err ActorError.InvalidFileHandle)
  | Some _, None => (m, Panic)
  | Some file, Some f =>
      let '((file, f), r) := call (file, f) in
      (with_fs (mgr_dev m) (Some f) (mgr_clock m) (put lfiles (put_back handle file (files m)) m),
       map_err_o from_exfat_error r)
  end.
Definition on_dir {A} (handle : Z) (call : M (Chain.t * FileSystem) err A) : MM A := λ m,
  match handles (directories m) !! handle, file_system m with
  | None, _ => (m, Err ActorError.InvalidFileHandle)
  | Some _, None => (m, Panic)
  | Some dir, Some f =>
      let '((dir, f), r) := call (dir, f) in
      (with_fs (mgr_dev m) (Some f) (mgr_clock m) (put ldirs (put_back handle dir (directories m)) m),
       map_err_o from_exfat_error r)
  end.
(** an action on the manager whose error is converted by [?] *)
Definition convert {A} (c : M FsManager err A) : MM A := λ m,
  let '(m, r) := c m in (m, map_err_o from_exfat_error r).

(** the [match op] of [handle_req] *)
Definition dispatch (op : Op) : MM Resp.t :=
  match op with
  | ReadToString path => data ← on_fs (Api.read_to_string path); mret (Resp.ReadToString data)
  | Read path => data ← on_fs (Api.read path); mret (Resp.Read data)
  | OpenFile path options =>
      file ← on_fs (Api.open path options);
      handle ← zoom lfiles (add file);
      mret (Resp.FileOpen handle)
  | ReadFileToString handle =>
      data ← on_file handle File.read_to_string; mret (Resp.ReadToString data)
  | ReadFileToEnd handle =>
      r ← on_file handle (with_local [] read_to_end); mret (Resp.Read (fst r))
  | SeekFile handle position => on_file handle (seek position) ;; mret Resp.Ok
  | ReadFile handle l =>
      r ← on_file handle (with_local (zeros l) File.read); mret (Resp.Read (fst r))
  | WriteFile handle buffer => on_file handle (File.write buffer) ;; mret Resp.Ok
  | CloseFile handle =>
      file ← zoom lfiles (remove handle);
      on_fs (with_local file File.flush) ;; mret Resp.Ok
  | FlushFile handle => on_file handle File.flush ;; mret Resp.Ok
  | GetMetadata handle =>
      file ← zoom lfiles (get handle); mret (Resp.Metadata (details_of (metadata file)))
  | OpenDirectory path =>
      dir ← on_fs (read_dir path);
      handle ← zoom ldirs (add dir);
      mret (Resp.DirectoryOpen handle)
  | DirectoryNextEntry handle =>
      r ← on_dir handle (λ s,
        let '((_, s), o) := next_entry (Some (zeros MAX_NAME_LEN), s) in (s, o));
      mret (Resp.DirectoryEntry r)
  | Exists path => b ← on_fs (exists_ path); mret (Resp.Exists b)
  | RemoveFile path => on_fs (remove_file path) ;; mret Resp.Ok
  | CreateDirectory path => on_fs (create_directory path) ;; mret Resp.Ok
  | Copy from_path to_path => on_fs (Api.copy from_path to_path) ;; mret Resp.Ok
  | Rename from_path to_path => on_fs (rename from_path to_path) ;; mret Resp.Ok
  | RemoveDir path => on_fs (remove_dir path) ;; mret Resp.Ok
  | Write path buffer => on_fs (Api.write path buffer) ;; mret Resp.Ok
  | CloseDirectory handle => zoom ldirs (remove handle) ;; mret Resp.Ok
  | Shutdown => mret Resp.Ok
  end.

Definition handle_req (op : Op) : MM Resp.t :=
  match op with
  | Shutdown => convert mgr_shutdown ;; mret Resp.Ok
  | op => convert mgr_mount ;; dispatch op
  end.

(** one round of [fs_actor_task]: the answer for the waiting client *)
Definition serve (op : Op) : MM (Error + Resp.t) :=
  r ← try_ (handle_req op);
  match r with
  | inr resp => mret (inr resp)
  | inl ActorError.NoCard => convert mgr_unmount ;; mret (inl ActorError.NoCard)
  | inl e => mret (inl e)
  end.
End Manager.
