(* ===== verification/Logger.v ===== *)
(** * A logger on the actor: src/demos/embassy-demo

    The demo keeps log messages in a ring buffer in battery backed memory and
    moves them to a file through the clients of src/fs.rs, a whole sector at a
    time, or all of them on demand. [LoggerHelper] is src/helpers.rs of the
    demo, [BackupRam] its src/backup_ram.rs, [write_to_file] and the loop its
    src/logger_fs.rs. The ring buffer is the crate defmt_persist: a parameter
    with its documented behaviour.  What the logger needs of the file system is
    the interface [AppendFile]. *)

From S2P Require Import Prelude Text Crates Errors Utils Timestamp BootSector Device SlotCache Touched Fat Allocation DirectoryEntry Volume Directory FileSystem File Api FsActor.
Open Scope Z_scope.

(** ** Asking the actor *)
Class Server (W : Type) := ask : Op → M W Error (Error + Resp.t).

(** [Fs] is the one variant of the error type of the demo. *)
Inductive DemoError := Fs (e : Error).

Section Calls.
Context {W : Type} {srv : Server W}.
Abbreviation WM := (M W DemoError) (only parsing).

(** the client sends its request and takes its answer; [?] converts the error *)
Definition call {A} (c : Client A) : WM A := λ w,
  let '(w', o) := (r ← ask (request c);
                   match r with inl e => throw e | inr resp => lift (accept c resp) end) w in
  (w', map_err_o Fs o).
Definition file_write (file : Z) (buffer : list Z) : WM () :=
  match client_file_write file buffer with None => mret () | Some c => call c end.
Definition file_flush (file : Z) : WM () := call (client_flush file).
End Calls.

(** ** The ring buffer of log messages *)
Class Persist := {
  consumer : Type;
  is_empty : consumer → bool;
  (** the two parts of the bytes a read grant covers *)
  bufs : consumer → list Z * list Z;
  release : Z → consumer → consumer;
  release_all : consumer → consumer;
  (** bytes that the logging side has put in *)
  produce : list Z → consumer → consumer;
}.

(** ** Battery backed memory *)
Record BackupRam := {
  magic : Z; (* u32 *)
  version : Z; (* u32 *)
  daily_reset_counter : Z; (* u32 *)
  daily_log_bytes : Z; (* u64 *)
}.
Definition zeroed : BackupRam :=
  {| magic := 0; version := 0; daily_reset_counter := 0; daily_log_bytes := 0 |}.
Definition MAGIC : Z := 0x4252414D.
Definition VERSION : Z := 1.
Definition init_if_needed (br : BackupRam) : BackupRam :=
  if negb (magic br =? MAGIC) || negb (version br =? VERSION)
  then {| magic := MAGIC; version := VERSION; daily_reset_counter := daily_reset_counter zeroed;
          daily_log_bytes := daily_log_bytes zeroed |}
  else br.
Definition with_daily_log_bytes (n : Z) (br : BackupRam) : BackupRam :=
  {| magic := magic br; version := version br; daily_reset_counter := daily_reset_counter br; daily_log_bytes := n |}.

Definition MAX_LOG_BYTES_PER_DAY : Z := 1024 * 1024.
Definition daily_limit_exceeded {E} (num_bytes : Z) : M BackupRam E bool :=
  bytes ← gets daily_log_bytes;
  modify (with_daily_log_bytes (wrapping_add u64 bytes (cast u64 num_bytes))) ;;
  mret (MAX_LOG_BYTES_PER_DAY <? bytes).

(** ** The helper *)
Definition BLOCK_LEN : Z := 512.
Record LoggerHelper := { remainder : Z (* usize *) }.

Section Helper.
Context {cfg : Config} {E : Type}.

Definition calc_remainder (file_len : Z) : outcome E Z :=
  sub usize BLOCK_LEN (cast usize (file_len mod BLOCK_LEN)).
Definition LoggerHelper_new (file_len : Z) : outcome E LoggerHelper :=
  remainder ← calc_remainder file_len; Ok {| remainder := remainder |}.
Definition set_remainder (r : Z) : M LoggerHelper E () := modify (λ _, {| remainder := r |}).

Definition update_remainder (len_a len_b : Z) : M LoggerHelper E () :=
  num_bytes ← lift (Prelude.add usize len_a len_b);
  r ← gets remainder;
  l ← lift (sub usize BLOCK_LEN r);
  l ← lift (Prelude.add usize l num_bytes);
  r ← lift (calc_remainder (cast u64 l));
  set_remainder r.

Definition to_write (len_a len_b : Z) : M LoggerHelper E (option (Z * Z)) :=
  l ← lift (Prelude.add usize len_a len_b);
  r ← gets remainder;
  if r <=? l then
    let a := Z.min len_a r in
    r ← lift (sub usize r a);
    let to_write_b := if 0 <? r then Z.min len_b r else 0 in
    set_remainder BLOCK_LEN ;;
    mret (Some (a, to_write_b))
  else mret None.
End Helper.

(** ** The loop *)
Section Loop.
Context {cfg : Config} {W : Type} {srv : Server W} {pst : Persist}.

Record Logger := { ring : consumer; helper : LoggerHelper; ram : BackupRam; world : W }.
Abbreviation LM := (M Logger DemoError) (only parsing).
Definition lring : lens Logger consumer :=
  Lens ring (λ x s, {| ring := x; helper := helper s; ram := ram s; world := world s |}).
Definition lhelper : lens Logger LoggerHelper :=
  Lens helper (λ x s, {| ring := ring s; helper := x; ram := ram s; world := world s |}).
Definition lram : lens Logger BackupRam :=
  Lens ram (λ x s, {| ring := ring s; helper := helper s; ram := x; world := world s |}).
Definition lworld : lens Logger W :=
  Lens world (λ x s, {| ring := ring s; helper := helper s; ram := ram s; world := x |}).

Definition write_to_file (force_flush : bool) (file : Z) : LM () :=
  c ← gets ring;
  if is_empty c then
    if force_flush then zoom lworld (file_flush file) else mret ()
  else
    let '(a, b) := bufs c in
    let len_a := len a in
    let len_b := len b in
    num_bytes ← lift (Prelude.add usize len_a len_b);
    exceeded ← zoom lram (daily_limit_exceeded num_bytes);
    if exceeded : bool then zoom lring (modify release_all)
    else if force_flush then
      zoom lhelper (update_remainder len_a len_b) ;;
      zoom lworld (file_write file a) ;;
      zoom lworld (file_write file b) ;;
      zoom lworld (file_flush file) ;;
      zoom lring (modify release_all)
    else
      o ← zoom lhelper (to_write len_a len_b);
      match o with
      | Some (write_a, write_b) =>
          a ← lift (slice a 0 write_a);
          zoom lworld (file_write file a) ;;
          b ← lift (slice b 0 write_b);
          zoom lworld (file_write file b) ;;
          zoom lworld (file_flush file) ;;
          n ← lift (Prelude.add usize write_a write_b);
          zoom lring (modify (release n))
      | None => mret ()
      end.

(** [logger_loop] up to its loop *)
Definition log_options : OpenOptions.t :=
  OpenOptions.set_append true (OpenOptions.set_write true (OpenOptions.set_create true OpenOptions.new)).
Definition LOG_BIN : str := of_string "log.bin".
Definition logger_open (sd_detect_is_high : bool) : LM Z :=
  if sd_detect_is_high then throw (Fs ActorError.NoCard)
  else
    file ← zoom lworld (call (client_open LOG_BIN log_options));
    d ← zoom lworld (call (client_metadata file));
    h ← lift (LoggerHelper_new (FileDetails.data_length d));
    zoom lhelper (modify (λ _, h)) ;;
    mret file.

(** One round of the loop: [early] has come before its first look at the ring
    buffer, [late] before the second, [wake] says which future was ready. *)
Inductive Wake := WaitForData | FlushLogs.
Record Round := { early : list Z; wake : Wake; late : list Z }.
Definition wants_flush (r : Round) : bool := match wake r with FlushLogs => true | WaitForData => false end.
Definition arrive (bs : list Z) : LM () := zoom lring (modify (produce bs)).
Definition logger_round (file : Z) (r : Round) : LM () :=
  arrive (early r) ;;
  write_to_file false file ;;
  arrive (late r) ;;
  write_to_file (wants_flush r) file.
Fixpoint logger_rounds (file : Z) (rs : list Round) : LM () :=
  match rs with
  | [] => mret ()
  | r :: rs => logger_round file r ;; logger_rounds file rs
  end.
End Loop.
