(* ===== verification/LoggerProofs.v ===== *)
(** * The logger of the demo keeps the log

    Against the interface [AppendFile] of a server: a file behind a handle can
    be appended to and flushed. Whatever arrives in the ring buffer gets into
    the file in order, nothing twice and nothing in between, and only the daily
    limit drops bytes. *)

From S2P Require Import Prelude Text Crates Errors Utils Timestamp BootSector Device SlotCache Touched Fat Allocation DirectoryEntry Volume Directory FileSystem File Api FsActor Logger.
Open Scope Z_scope.

(** ** Interfaces *)

(** The ring buffer: a grant covers the front of the unread bytes, in two
    parts and less than 2 GiB; releasing takes bytes from the front. *)
Class PersistOk (pst : Persist) := {
  unread : consumer → list Z;
  is_empty_ok c : is_empty c = true ↔ unread c = [];
  bufs_ok c : ∃ rest, unread c = fst (bufs c) ++ snd (bufs c) ++ rest;
  bufs_small c : len (fst (bufs c)) + len (snd (bufs c)) < 2 ^ 31;
  release_ok n c : 0 ≤ n ≤ len (fst (bufs c)) + len (snd (bufs c)) → unread (release n c) = drop (Z.to_nat n) (unread c);
  release_all_ok c : unread (release_all c) = drop (length (fst (bufs c)) + length (snd (bufs c))) (unread c);
  produce_ok bs c : unread (produce bs c) = unread c ++ bs;
}.

(** A server on which a file can be appended to. [misses c n] holds where
    appending [n] bytes at [c] is not supported; [full]: the disk is full and the
    file behind the handle has the contents it had. *)
Class AppendFile (SECTOR : Z) (W : Type) (srv : Server W) := {
  holds : W → Z → list Z → Prop;
  saved : W → Z → list Z → Prop;
  full : W → Z → list Z → Prop;
  misses : Z → Z → Prop;
  misses_sector c n : 0 ≤ c → 0 < n ≤ SECTOR - c mod SECTOR → ¬ misses c n;
  saved_holds w h bs : saved w h bs → holds w h bs;
  holds_write w h bs buf :
    holds w h bs → buf ≠ [] → Forall byte_ok buf → len buf < 2 ^ 31 → ¬ misses (len bs) (len buf) →
    ∃ w' r, ask (WriteFile h buf) w = (w', Ok r) ∧
      match r with
      | inr Resp.Ok => holds w' h (bs ++ buf)
      | inl ActorError.DiskFull => full w' h bs
      | _ => False
      end;
  holds_flush w h bs :
    holds w h bs → ∃ w', ask (FlushFile h) w = (w', Ok (inr Resp.Ok)) ∧ saved w' h bs;
}.

(** * Lemmas *)
Section Lemmas.
Context {cfg : Config} {Hcfg : ConfigOk cfg} {W : Type} {srv : Server W} {pst : Persist}.
Context {Hpst : PersistOk pst} {app : AppendFile BLOCK_LEN W srv}.
Implicit Types (s : Logger (W:=W)) (w : W) (bs buf : list Z) (file : Z).

(** ** The file *)
Definition disk_full {A} (o : outcome DemoError A) : Prop := o = Err (Fs ActorError.DiskFull).

Lemma client_write_ok w file bs buf :
  holds w file bs → Forall byte_ok buf → len buf < 2 ^ 31 → (buf ≠ [] → ¬ misses (len bs) (len buf)) →
  ∃ w' o, file_write file buf w = (w', o) ∧
    (o = Ok () ∧ holds w' file (bs ++ buf) ∨ disk_full o ∧ full w' file bs).
Proof.
  intros Hh Hb Hl Hm. unfold file_write, client_file_write. destruct (Z.eqb_spec (len buf) 0) as [Hz|Hz].
  - exists w, (Ok ()). split; [done|]. left. split; [done|]. replace buf with (@nil Z); [by rewrite app_nil_r|].
    symmetry. apply length_zero_iff_nil. unfold len in Hz. lia.
  - assert (Hne : buf ≠ []) by (intros ->; done).
    destruct (holds_write w file bs buf Hh Hne Hb Hl (Hm Hne)) as (w' & r & Hask & Hr).
    unfold call. cbn [request accept]. rewrite (bind_Ok _ _ _ _ _ Hask).
    destruct r as [e|[]]; try done; [exists w', (Err (Fs e)); destruct e; try done; split; [done|by right]|].
    exists w', (Ok ()). split; [done|]. by left.
Qed.
Lemma client_flush_ok w file bs :
  holds w file bs → ∃ w', file_flush file w = (w', Ok ()) ∧ saved w' file bs.
Proof.
  intros Hh. destruct (holds_flush w file bs Hh) as (w' & Hask & Hs). exists w'. split; [|done].
  unfold file_flush, call. cbn [client_flush request accept]. by rewrite (bind_Ok _ _ _ _ _ Hask).
Qed.

(** ** The helper *)
Definition in_step (n : Z) (h : LoggerHelper) : Prop := remainder h = BLOCK_LEN - n mod BLOCK_LEN.

Lemma block_mod n : 0 ≤ n mod BLOCK_LEN < BLOCK_LEN.
Proof. apply Z.mod_pos_bound. done. Qed.
Lemma calc_remainder_ok {E} n : calc_remainder (E:=E) n = Ok (BLOCK_LEN - n mod BLOCK_LEN).
Proof.
  pose proof (block_mod n) as Hm. unfold calc_remainder. unfold BLOCK_LEN in *.
  destruct usize_cases as [-> | ->]; (rewrite cast_id by lia; by rewrite sub_ok by lia).
Qed.
Lemma LoggerHelper_new_ok {E} n : ∃ h, LoggerHelper_new (E:=E) n = Ok h ∧ in_step n h.
Proof. eexists. unfold LoggerHelper_new. rewrite calc_remainder_ok. split; [reflexivity|done]. Qed.

Lemma update_remainder_ok {E} n a b h :
  in_step n h → 0 ≤ n → 0 ≤ a → 0 ≤ b → a + b < 2 ^ 31 →
  ∃ h', update_remainder (E:=E) a b h = (h', Ok ()) ∧ in_step (n + a + b) h'.
Proof.
  intros Hh Hn Ha Hb Hab. pose proof (block_mod n) as Hm. unfold in_step in *. eexists. unfold update_remainder.
  rewrite add_ok by (destruct usize_cases as [-> | ->]; lia). rewrite bind_lift_Ok.
  rewrite (bind_Ok (gets _) _ _ h (remainder h)) by done. rewrite Hh.
  replace (BLOCK_LEN - (BLOCK_LEN - n mod BLOCK_LEN)) with (n mod BLOCK_LEN) by lia.
  rewrite sub_ok by (unfold BLOCK_LEN in *; destruct usize_cases as [-> | ->]; lia). rewrite bind_lift_Ok.
  replace (BLOCK_LEN - (BLOCK_LEN - n mod BLOCK_LEN)) with (n mod BLOCK_LEN) by lia.
  rewrite add_ok by (unfold BLOCK_LEN in *; destruct usize_cases as [-> | ->]; lia). rewrite bind_lift_Ok.
  rewrite cast_id by (unfold BLOCK_LEN in *; lia). rewrite calc_remainder_ok, bind_lift_Ok. split; [reflexivity|].
  cbn. f_equal. rewrite Zplus_mod_idemp_l. f_equal. lia.
Qed.

(** Exactly the bytes that are missing to a whole sector, or nothing. *)
Lemma to_write_ok {E} n a b h :
  in_step n h → 0 ≤ n → 0 ≤ a → 0 ≤ b → a + b < 2 ^ 31 →
  ∃ h' o, to_write (E:=E) a b h = (h', Ok o) ∧
    match o with
    | Some (wa, wb) => 0 ≤ wa ≤ a ∧ 0 ≤ wb ≤ b ∧ wa + wb = BLOCK_LEN - n mod BLOCK_LEN ∧ in_step (n + wa + wb) h' ∧ (wa < a → wb = 0)
    | None => h' = h ∧ a + b < BLOCK_LEN - n mod BLOCK_LEN
    end.
Proof.
  intros Hh Hn Ha Hb Hab. pose proof (block_mod n) as Hm. unfold in_step in *. unfold to_write.
  rewrite add_ok by (destruct usize_cases as [-> | ->]; lia). rewrite bind_lift_Ok.
  rewrite (bind_Ok (gets _) _ _ h (remainder h)) by done. rewrite Hh.
  set (r := BLOCK_LEN - n mod BLOCK_LEN) in *. assert (Hr : 1 ≤ r ≤ 512) by (unfold r, BLOCK_LEN in *; lia).
  destruct (Z.leb_spec r (a + b)); [|exists h, None; split; [done|]; split; [done|lia]].
  rewrite sub_ok by (destruct usize_cases as [-> | ->]; lia). rewrite bind_lift_Ok.
  eexists _, (Some (_, _)). split; [reflexivity|]. cbv zeta.
  assert (Hwb : (if 0 <? r - Z.min a r then Z.min b (r - Z.min a r) else 0) = r - Z.min a r)
    by (destruct (Z.ltb_spec 0 (r - Z.min a r)); lia).
  rewrite Hwb. split; [lia|]. split; [lia|]. split; [lia|]. split; [|lia]. cbn.
  replace (n + Z.min a r + (r - Z.min a r)) with (n + r) by lia. unfold r.
  replace (n + (BLOCK_LEN - n mod BLOCK_LEN)) with ((n / BLOCK_LEN + 1) * BLOCK_LEN)
    by (pose proof (Z.div_mod n BLOCK_LEN ltac:(done)); lia).
  rewrite Z.mod_mul by done. lia.
Qed.

(** ** The loop *)
Definition daily s : Z := daily_log_bytes (ram s).
(** The file behind the handle has the contents [bs], and the helper knows where
    its last sector ends. *)
Record in_sync file s bs : Prop := {
  sync_file : holds (world s) file bs;
  sync_helper : in_step (len bs) (helper s);
  sync_bytes : Forall byte_ok (unread (ring s));
  sync_daily : 0 ≤ daily s < 2 ^ 64;
}.
(** From the unread bytes [u] some got to the end of the file, in order, and the
    others are still there or were dropped. *)
Definition logged (drops : Prop) u bs u' bs' : Prop :=
  ∃ moved, bs' = bs ++ moved ∧ (moved ++ u') `sublist_of` u ∧ (¬ drops → moved ++ u' = u).
Definition saved_since file s bs s' bs' : Prop := world s' = world s ∧ bs' = bs ∨ saved (world s') file bs'.
(** Appending all of the grant is possible. *)
Definition flush_fits s bs : Prop :=
  let '(a, b) := bufs (ring s) in
  (a ≠ [] → ¬ misses (len bs) (len a)) ∧ (b ≠ [] → ¬ misses (len bs + len a) (len b)).

Lemma logged_trans (D D1 D2 : Prop) u bs u1 bs1 got u2 bs2 :
  logged D1 u bs u1 bs1 → logged D2 (u1 ++ got) bs1 u2 bs2 → (D1 → D) → (D2 → D) → logged D (u ++ got) bs u2 bs2.
Proof.
  intros (m1 & -> & Hs1 & He1) (m2 & -> & Hs2 & He2) H1 H2. exists (m1 ++ m2). split; [by rewrite app_assoc|]. split.
  - rewrite <-app_assoc. transitivity (m1 ++ u1 ++ got); [by apply sublist_app|]. rewrite app_assoc. by apply sublist_app.
  - intros HD. rewrite <-app_assoc, He2, app_assoc, He1 by tauto. done.
Qed.
Lemma logged_refl D u bs : logged D u bs u bs.
Proof. exists []. rewrite app_nil_r. done. Qed.
Lemma saved_since_trans file s bs s1 bs1 s2 bs2 :
  saved_since file s bs s1 bs1 → saved_since file s1 bs1 s2 bs2 → saved_since file s bs s2 bs2.
Proof. intros H1 [[Hw ->]|H2]; [|by right]. destruct H1 as [[Hw1 ->]|H1]; [left|right]; [|by rewrite Hw]. by rewrite Hw. Qed.

(** The file has got a part of the unread bytes, and the disk is full. *)
Definition cut_off file s bs w : Prop := ∃ part, part `prefix_of` unread (ring s) ∧ full w file (bs ++ part).

(** The two parts of a grant, cut to [wa] and [wb] bytes, go to the file. *)
Lemma grant_written s file bs (wa wb : Z) :
  in_sync file s bs → 0 ≤ wa ≤ len (fst (bufs (ring s))) → 0 ≤ wb ≤ len (snd (bufs (ring s))) →
  (wa < len (fst (bufs (ring s))) → wb = 0) → (0 < wa → ¬ misses (len bs) wa) → (0 < wb → ¬ misses (len bs + wa) wb) →
  let a := take (Z.to_nat wa) (fst (bufs (ring s))) in
  let b := take (Z.to_nat wb) (snd (bufs (ring s))) in
  (∃ w, file_write file a (world s) = (w, Err (Fs ActorError.DiskFull)) ∧ cut_off file s bs w) ∨
  (∃ w1 w2, file_write file a (world s) = (w1, Ok ()) ∧ file_write file b w1 = (w2, Err (Fs ActorError.DiskFull)) ∧
     cut_off file s bs w2) ∨
  (∃ w1 w2 w3, file_write file a (world s) = (w1, Ok ()) ∧ file_write file b w1 = (w2, Ok ()) ∧
     file_flush file w2 = (w3, Ok ()) ∧ saved w3 file (bs ++ take (Z.to_nat (wa + wb)) (unread (ring s)))).
Proof.
  intros [Hh _ Hb _] Ha Hwb Hcut Hm1 Hm2 a b. destruct (bufs_ok (ring s)) as [rest Hu]. pose proof (bufs_small (ring s)) as Hsm.
  set (ba := fst (bufs (ring s))) in *. set (bb := snd (bufs (ring s))) in *.
  assert (Hla : len a = wa) by (unfold a, len in *; rewrite length_take; lia).
  assert (Hlb : len b = wb) by (unfold b, len in *; rewrite length_take; lia).
  assert (Hbytes : Forall byte_ok ba ∧ Forall byte_ok bb) by (rewrite Hu, !Forall_app in Hb; tauto).
  assert (Htake : take (Z.to_nat (wa + wb)) (unread (ring s)) = a ++ b).
  { rewrite Hu. destruct (decide (wa < len ba)) as [Hlt|Hge].
    - rewrite Hcut by done. unfold b. rewrite Hcut by done. rewrite Z.add_0_r, app_nil_r. rewrite take_app_le by (unfold len in *; lia). done.
    - assert (Hwa : Z.to_nat wa = length ba) by (unfold len in *; lia). unfold a, b. rewrite Hwa, (take_ge ba) by lia.
      rewrite Z2Nat.inj_add, Hwa by lia. rewrite take_app_add. f_equal. rewrite take_app_le by (unfold len in *; lia). done. }
  destruct (client_write_ok (world s) file bs a Hh) as (w1 & o1 & Hw1 & [[-> Hh1]|[Ho Hfull]]).
  { apply Forall_take, Hbytes. } { lia. }
  { rewrite Hla. intros Hne. apply Hm1. destruct a as [|x a']; [done|]. unfold len in Hla. cbn [length] in Hla. lia. }
  2: { left. exists w1. split; [by rewrite Hw1, Ho|]. exists []. rewrite app_nil_r. split; [apply prefix_nil|done]. }
  destruct (client_write_ok w1 file (bs ++ a) b Hh1) as (w2 & o2 & Hw2 & [[-> Hh2]|[Ho Hfull]]).
  { apply Forall_take, Hbytes. } { lia. }
  { rewrite Hlb. replace (len (bs ++ a)) with (len bs + wa) by (unfold len in *; rewrite length_app; lia).
    intros Hne. apply Hm2. destruct b as [|x b']; [done|]. unfold len in Hlb. cbn [length] in Hlb. lia. }
  2: { right; left. exists w1, w2. split; [done|]. split; [by rewrite Hw2, Ho|]. exists a. split; [|done].
       rewrite Hu. apply prefix_app_r, prefix_take. }
  destruct (client_flush_ok w2 file _ Hh2) as (w3 & Hw3 & Hs3). right; right. exists w1, w2, w3.
  split; [done|]. split; [done|]. split; [done|]. by rewrite Htake, app_assoc.
Qed.

(** What one look at the ring buffer does. *)
Definition looked file s bs s' bs' : Prop :=
  in_sync file s' bs' ∧ logged (MAX_LOG_BYTES_PER_DAY < daily s) (unread (ring s)) bs (unread (ring s')) bs' ∧
  saved_since file s bs s' bs' ∧ ∃ t, 0 ≤ t < 2 ^ 31 ∧ daily s' = cast u64 (daily s + t).

Lemma looked_nothing file s bs : in_sync file s bs → looked file s bs s bs.
Proof.
  intros Hs. pose proof (sync_daily _ _ _ Hs). split; [done|]. split; [apply logged_refl|]. split; [by left|].
  exists 0. split; [lia|]. rewrite Z.add_0_r. by rewrite cast_id.
Qed.
(** A look that finds the disk full. *)
Definition looked_full file s bs s' : Prop :=
  ring s' = ring s ∧ cut_off file s bs (world s') ∧ ∃ t, 0 ≤ t < 2 ^ 31 ∧ daily s' = cast u64 (daily s + t).

(** The state after bytes of the grant went to the file. *)
Lemma looked_moved file s bs (n : Z) c h w x :
  in_sync file s bs → 0 ≤ n < 2 ^ 31 → n ≤ len (fst (bufs (ring s))) + len (snd (bufs (ring s))) →
  unread c = drop (Z.to_nat n) (unread (ring s)) →
  in_step (len bs + n) h → saved w file (bs ++ take (Z.to_nat n) (unread (ring s))) → 0 ≤ x < 2 ^ 31 →
  looked file s bs {| ring := c; helper := h; ram := with_daily_log_bytes (cast u64 (daily s + x)) (ram s); world := w |}
    (bs ++ take (Z.to_nat n) (unread (ring s))).
Proof.
  intros [Hh Hst Hb Hd] Hn Hle Hc Hstep Hs Hx. destruct (bufs_ok (ring s)) as [rest Hu].
  assert (Hlen : len (bs ++ take (Z.to_nat n) (unread (ring s))) = len bs + n).
  { unfold len in *. rewrite length_app, length_take. rewrite Hu, !length_app. lia. }
  split; [split; cbn|split; [|split]].
  - by apply saved_holds.
  - by rewrite Hlen.
  - rewrite Hc. by apply Forall_drop.
  - apply Z.mod_pos_bound. done.
  - exists (take (Z.to_nat n) (unread (ring s))). split; [done|]. cbn. rewrite Hc, take_drop. done.
  - by right.
  - exists x. done.
Qed.

(** Two writes and a flush, in front of the rest of the function. *)
Lemma transfer_ok s file bs (wa wb : Z) s1 (k : M Logger DemoError ()) :
  in_sync file s bs → 0 ≤ wa ≤ len (fst (bufs (ring s))) → 0 ≤ wb ≤ len (snd (bufs (ring s))) →
  (wa < len (fst (bufs (ring s))) → wb = 0) → (0 < wa → ¬ misses (len bs) wa) → (0 < wb → ¬ misses (len bs + wa) wb) →
  world s1 = world s →
  let prog := zoom lworld (file_write file (take (Z.to_nat wa) (fst (bufs (ring s))))) ;;
              zoom lworld (file_write file (take (Z.to_nat wb) (snd (bufs (ring s))))) ;;
              zoom lworld (file_flush file) ;; k in
  (∃ w, prog s1 = (put lworld w s1, Err (Fs ActorError.DiskFull)) ∧ cut_off file s bs w) ∨
  (∃ w, prog s1 = k (put lworld w s1) ∧ saved w file (bs ++ take (Z.to_nat (wa + wb)) (unread (ring s)))).
Proof.
  intros Hs Ha Hb Hcut Hm1 Hm2 Hw1 prog. unfold prog.
  destruct (grant_written s file bs wa wb Hs Ha Hb Hcut Hm1 Hm2)
    as [(w & Hw & Hcut')|[(w1 & w2 & Hwa & Hwb & Hcut')|(w1 & w2 & w3 & Hwa & Hwb & Hw3 & Hsv)]]; rewrite <-Hw1 in *.
  - left. exists w. split; [|done]. apply bind_Err. by eapply zoom_to.
  - left. exists w2. split; [|done]. rewrite (bind_Ok _ _ _ (put lworld w1 s1) ()) by (by eapply zoom_to). apply bind_Err. by eapply zoom_to.
  - right. exists w3. split; [|done]. rewrite (bind_Ok _ _ _ (put lworld w1 s1) ()) by (by eapply zoom_to).
    rewrite (bind_Ok _ _ _ (put lworld w2 s1) ()) by (by eapply zoom_to).
    by rewrite (bind_Ok _ _ _ (put lworld w3 s1) ()) by (by eapply zoom_to).
Qed.

(** All of the grant. *)
Lemma forced_ok s file bs s1 :
  in_sync file s bs → flush_fits s bs → ring s1 = ring s → helper s1 = helper s → world s1 = world s →
  let '(a, b) := bufs (ring s) in
  ram s1 = with_daily_log_bytes (cast u64 (daily s + (len a + len b))) (ram s) →
  ∃ s' o, (zoom lhelper (update_remainder (len a) (len b)) ;;
           zoom lworld (file_write file a) ;; zoom lworld (file_write file b) ;;
           zoom lworld (file_flush file) ;; zoom lring (modify release_all)) s1 = (s', o) ∧
    (disk_full o ∧ looked_full file s bs s' ∨ o = Ok () ∧ ∃ bs', looked file s bs s' bs').
Proof.
  intros Hs Hfit Hr Hh Hw. pose proof (bufs_small (ring s)) as Hsm. unfold flush_fits in Hfit.
  assert (Ht := transfer_ok s file bs). assert (Hlm := looked_moved file s bs).
  pose proof (release_all_ok (ring s)) as Hall. destruct (bufs (ring s)) as [a b]. cbn [fst snd] in *.
  pose proof (len_nonneg a). pose proof (len_nonneg b). pose proof (len_nonneg bs). intros Hram. destruct Hfit as [Hm1 Hm2].
  destruct (update_remainder_ok (E:=DemoError) (len bs) (len a) (len b) (helper s) (sync_helper _ _ _ Hs)) as (h & Hup & Hh'); [lia..|].
  rewrite (bind_Ok _ _ s1 (put lhelper h s1) ()) by (eapply zoom_to; [cbn; by rewrite Hh|done]).
  specialize (Ht (len a) (len b) (put lhelper h s1) (zoom lring (modify release_all)) Hs).
  rewrite (take_ge a), (take_ge b) in Ht by (unfold len; lia).
  destruct Ht as [(w & -> & Hcut)|(w & -> & Hsv)]; [lia|lia|intros; lia|intros Hp; apply Hm1; by intros ->|intros Hp; apply Hm2; by intros ->|done|..].
  { eexists _, _. split; [done|]. left. split; [done|]. split; [done|]. split; [done|].
    exists (len a + len b). split; [lia|]. unfold daily. cbn. by rewrite Hram. }
  eexists _, (Ok ()). split; [reflexivity|]. right. split; [done|]. eexists. cbn. rewrite Hr, Hram.
  apply (Hlm (len a + len b)); [done|lia|lia| |by rewrite Z.add_assoc|done|lia]. rewrite Hall. f_equal. unfold len. lia.
Qed.

(** Whole sectors. *)
Lemma sectors_ok s file bs s1 :
  in_sync file s bs → ring s1 = ring s → helper s1 = helper s → world s1 = world s →
  let '(a, b) := bufs (ring s) in
  ram s1 = with_daily_log_bytes (cast u64 (daily s + (len a + len b))) (ram s) →
  ∃ s' o, (o ← zoom lhelper (to_write (len a) (len b));
           match o with
           | Some (write_a, write_b) =>
               a ← lift (slice a 0 write_a);
               zoom lworld (file_write file a) ;;
               b ← lift (slice b 0 write_b);
               zoom lworld (file_write file b) ;;
               zoom lworld (file_flush file) ;;
               n ← lift (Prelude.add usize write_a write_b);
               zoom lring (modify (release n))
           | None => mret ()
           end) s1 = (s', o) ∧
    (disk_full o ∧ looked_full file s bs s' ∨ o = Ok () ∧ ∃ bs', looked file s bs s' bs').
Proof.
  intros Hs Hr Hh Hw. pose proof (bufs_small (ring s)) as Hsm. assert (Ht := transfer_ok s file bs). assert (Hlm := looked_moved file s bs).
  assert (Hrel := λ n, release_ok n (ring s)). destruct (bufs (ring s)) as [a b]. cbn [fst snd] in *.
  pose proof (len_nonneg a). pose proof (len_nonneg b). pose proof (len_nonneg bs). intros Hram. pose proof (block_mod (len bs)) as Hmod.
  destruct (to_write_ok (E:=DemoError) (len bs) (len a) (len b) (helper s) (sync_helper _ _ _ Hs)) as (h & o & Hto & Ho); [lia..|].
  rewrite (bind_Ok _ _ s1 (put lhelper h s1) o) by (eapply zoom_to; [cbn; by rewrite Hh|done]). destruct o as [[wa wb]|].
  2: { destruct Ho as [-> _]. eexists _, (Ok ()). split; [reflexivity|]. right. split; [done|]. exists bs. destruct Hs as [Hf Hst Hb Hd].
    split; [split; cbn; rewrite ?Hr, ?Hw; [done..|rewrite Hram; by apply Z.mod_pos_bound]|]. cbn. rewrite Hr, Hram.
    split; [apply logged_refl|]. split; [by left|]. exists (len a + len b). split; [lia|done]. }
  destruct Ho as (Hwa & Hwb & Hsum & Hh' & Hcut). cbv beta iota. rewrite (slice_ok a), (slice_ok b), !Z.sub_0_r, bind_lift_Ok by lia.
  change (Z.to_nat 0) with 0%nat. rewrite !drop_0.
  specialize (Ht wa wb (put lhelper h s1) (n ← lift (Prelude.add usize wa wb); zoom lring (modify (release n))) Hs Hwa Hwb Hcut).
  destruct Ht as [(w & Hp & Hfull)|(w & Hp & Hsv)]; [intros Hp..|done| |].
  - apply misses_sector; lia.
  - apply misses_sector; [lia|]. assert (Hm : (len bs + wa) mod BLOCK_LEN = len bs mod BLOCK_LEN + wa); [|lia].
    symmetry. apply Z.mod_unique with (len bs / BLOCK_LEN); [lia|]. pose proof (Z.div_mod (len bs) BLOCK_LEN ltac:(done)). lia.
  - eexists _, _. split; [exact Hp|]. left. split; [done|]. split; [done|]. split; [done|].
    exists (len a + len b). split; [lia|]. unfold daily. cbn. by rewrite Hram.
  - eexists _, (Ok ()). split.
    { etransitivity; [exact Hp|]. rewrite add_ok by (unfold BLOCK_LEN in *; destruct usize_cases as [-> | ->]; lia).
      rewrite bind_lift_Ok. reflexivity. }
    right. split; [done|]. eexists. cbn. rewrite Hr, Hram. apply (Hlm (wa + wb)); [done|lia|lia|apply Hrel; lia|by rewrite Z.add_assoc|done|lia].
Qed.

Lemma write_to_file_ok file force s bs :
  in_sync file s bs → (force = true → flush_fits s bs) →
  ∃ s' o, write_to_file force file s = (s', o) ∧ (disk_full o ∧ looked_full file s bs s' ∨ o = Ok () ∧ ∃ bs', looked file s bs s' bs').
Proof.
  intros Hs Hfit. pose proof Hs as [Hh Hst Hb Hd]. unfold write_to_file.
  rewrite (bind_Ok (gets ring) _ s s (ring s)) by done. destruct (is_empty (ring s)) eqn:He.
  { destruct force; [|exists s, (Ok ()); split; [done|]; right; split; [done|]; exists bs; by apply looked_nothing].
    destruct (client_flush_ok (world s) file bs Hh) as (w & Hw & Hsv).
    exists (put lworld w s), (Ok ()). split; [by eapply zoom_to|]. right. split; [done|]. exists bs.
    split; [split; cbn; [by apply saved_holds|done..]|]. split; [apply logged_refl|]. split; [by right|].
    exists 0. split; [lia|]. rewrite Z.add_0_r. symmetry. by apply cast_id. }
  pose proof (bufs_small (ring s)) as Hsm. assert (Hf := λ s1, forced_ok s file bs s1 Hs). assert (Hse := λ s1, sectors_ok s file bs s1 Hs).
  destruct (bufs (ring s)) as [a b]. cbn [fst snd] in Hsm. pose proof (len_nonneg a). pose proof (len_nonneg b).
  rewrite add_ok by (destruct usize_cases as [-> | ->]; lia). rewrite bind_lift_Ok.
  set (s1 := put lram (with_daily_log_bytes (cast u64 (daily s + (len a + len b))) (ram s)) s).
  rewrite (bind_Ok _ _ s s1 (MAX_LOG_BYTES_PER_DAY <? daily s)).
  2: { eapply zoom_to; [|reflexivity]. unfold daily_limit_exceeded. cbn. unfold wrapping_add. rewrite (cast_id u64 (len a + len b)) by lia. done. }
  destruct (Z.ltb_spec MAX_LOG_BYTES_PER_DAY (daily s)) as [Hmax|_].
  { eexists _, (Ok ()). split; [reflexivity|]. right. split; [done|]. exists bs. split; [split; cbn|split; [|split]].
    - done.
    - done.
    - rewrite release_all_ok. by apply Forall_drop.
    - by apply Z.mod_pos_bound.
    - exists []. rewrite app_nil_r. cbn. rewrite release_all_ok. split; [done|]. split; [apply sublist_drop|done].
    - by left.
    - exists (len a + len b). split; [lia|done]. }
  destruct force; [by apply Hf; [apply Hfit|..]|by apply Hse].
Qed.

(** ** Rounds *)
Definition arrivals (rs : list Round) : list Z := concat ((λ r, early r ++ late r) <$> rs).
(** The daily limit was reached, or the counter came round. *)
Definition limit_reached (n : Z) s s' : Prop :=
  ¬ (daily s' ≤ MAX_LOG_BYTES_PER_DAY ∧ daily s + 2 ^ 32 * n < 2 ^ 64).
(** Whenever a flush is asked for, appending the grant is possible. *)
Fixpoint fits_rounds file (rs : list Round) s : Prop :=
  match rs with
  | [] => True
  | r :: rs =>
      (wants_flush r = true → ∀ s1 bs, (arrive (early r) ;; write_to_file false file ;; arrive (late r)) s = (s1, Ok ()) →
         holds (world s1) file bs → flush_fits s1 bs) ∧
      ∀ s2, logger_round file r s = (s2, Ok ()) → fits_rounds file rs s2
  end.

Lemma arrive_ok file s bs got :
  in_sync file s bs → Forall byte_ok got →
  ∃ s', arrive got s = (s', Ok ()) ∧ in_sync file s' bs ∧ unread (ring s') = unread (ring s) ++ got ∧
    world s' = world s ∧ daily s' = daily s.
Proof.
  intros [Hh Hst Hb Hd] Hg. eexists. split; [reflexivity|]. cbn. split; [|by rewrite produce_ok].
  split; cbn; try done. rewrite produce_ok. by apply Forall_app.
Qed.

(** What rounds do. *)
Definition ran (n : Z) file s bs s' bs' got : Prop :=
  in_sync file s' bs' ∧ logged (limit_reached n s s') (unread (ring s) ++ got) bs (unread (ring s')) bs' ∧
  saved_since file s bs s' bs' ∧ ∃ t, 0 ≤ t ≤ 2 ^ 32 * n ∧ daily s' = cast u64 (daily s + t).

(** Rounds that end because the disk is full: of what has come by then, the
    oldest bytes are in the file, the others in the ring buffer; some of these
    may be in the file as well, at its end. *)
Definition ran_full (n : Z) file s bs s' got : Prop :=
  ∃ moved part came, came `prefix_of` got ∧
    logged (limit_reached n s s') (unread (ring s) ++ came) bs (unread (ring s')) (bs ++ moved) ∧
    part `prefix_of` unread (ring s') ∧ full (world s') file ((bs ++ moved) ++ part) ∧
    ∃ t, 0 ≤ t ≤ 2 ^ 32 * n ∧ daily s' = cast u64 (daily s + t).

Lemma logged_weaken (D D' : Prop) u bs u' bs' : (D → D') → logged D u bs u' bs' → logged D' u bs u' bs'.
Proof. intros HD (moved & -> & Hs & He). exists moved. split; [done|]. split; [done|]. tauto. Qed.

Lemma cast_add (n x y : Z) : cast n (cast n x + y) = cast n (x + y).
Proof. apply Zplus_mod_idemp_l. Qed.

Lemma logger_round_ok file r s bs :
  in_sync file s bs → Forall byte_ok (early r) → Forall byte_ok (late r) →
  (wants_flush r = true → ∀ s1 bs, (arrive (early r) ;; write_to_file false file ;; arrive (late r)) s = (s1, Ok ()) →
     holds (world s1) file bs → flush_fits s1 bs) →
  ∃ s' o, logger_round file r s = (s', o) ∧ (disk_full o ∧ ran_full 1 file s bs s' (early r ++ late r) ∨ o = Ok () ∧ ∃ bs', ran 1 file s bs s' bs' (early r ++ late r)).
Proof.
  intros Hs He Hl Hfit. unfold logger_round. pose proof (sync_daily _ _ _ Hs) as Hd.
  destruct (arrive_ok file s bs (early r) Hs He) as (s1 & Hr1 & Hs1 & Hu1 & Hw1 & Hd1). rewrite (bind_Ok _ _ _ _ _ Hr1) in *.
  destruct (write_to_file_ok file false s1 bs Hs1) as (s2 & o & Hr2 & [(Ho & Hring & (part & Hpart & Hfull) & t2 & Ht2 & Hd2)|[-> (bs2 & Hs2 & Hlg2 & Hsv2 & t2 & Ht2 & Hd2)]]); [done| |].
  { exists s2, (Err (Fs ActorError.DiskFull)). split; [apply bind_Err; by rewrite Hr2, Ho|]. left. split; [done|].
    exists [], part, (early r). rewrite app_nil_r, Hring, Hu1 in *. split; [by eexists|]. split; [apply logged_refl|].
    split; [done|]. split; [done|]. exists t2. split; [lia|]. by rewrite Hd2, Hd1. }
  rewrite (bind_Ok _ _ _ _ _ Hr2) in *.
  destruct (arrive_ok file s2 bs2 (late r) Hs2 Hl) as (s3 & Hr3 & Hs3 & Hu3 & Hw3 & Hd3). rewrite (bind_Ok _ _ _ _ _ Hr3).
  destruct (write_to_file_ok file (wants_flush r) s3 bs2 Hs3) as (s4 & o & Hr4 & Ho).
  { intros Hf. apply (Hfit Hf s3 bs2); [|apply Hs3]. rewrite (bind_Ok _ _ _ _ _ Hr1), (bind_Ok _ _ _ _ _ Hr2). exact Hr3. }
  exists s4, o. split; [done|]. destruct Ho as [(Ho & Hring & (part & Hpart & Hfull) & t4 & Ht4 & Hd4)|[-> (bs4 & Hs4 & Hlg4 & Hsv4 & t4 & Ht4 & Hd4)]]; [left|right].
  { assert (Hd24 : daily s4 = cast u64 (daily s + (t2 + t4))) by (rewrite Hd4, Hd3, Hd2, Hd1, cast_add, Z.add_assoc; done).
    split; [done|]. pose proof Hlg2 as (moved & Heq & _). subst bs2. exists moved, part, (early r ++ late r).
    split; [done|]. rewrite Hring, Hu3 in *. split; [|split; [done|split; [done|]]].
    - rewrite app_assoc. rewrite Hu1 in Hlg2.
      apply (logged_trans _ _ False _ _ _ _ _ _ _ Hlg2 (logged_refl _ _ _)); [|tauto]. unfold limit_reached.
      intros Hmax [Hle Hno]. rewrite Hd24, cast_id in Hle by lia. lia.
    - exists (t2 + t4). split; [lia|done]. }
  split; [done|]. exists bs4. split; [done|].
  assert (Hd24 : daily s4 = cast u64 (daily s + (t2 + t4))) by (rewrite Hd4, Hd3, Hd2, Hd1, cast_add, Z.add_assoc; done).
  split; [|split].
  - rewrite app_assoc. rewrite Hu1 in Hlg2. rewrite Hu3 in Hlg4. apply (logged_trans _ _ _ _ _ _ _ _ _ _ Hlg2 Hlg4); unfold limit_reached.
    + intros Hmax [Hle Hno]. rewrite Hd24, cast_id in Hle by lia. lia.
    + intros Hmax [Hle Hno]. rewrite Hd24, cast_id in Hle by lia. rewrite Hd3, Hd2, Hd1, cast_id in Hmax by lia. lia.
  - apply (saved_since_trans file s bs s2 bs2 s4 bs4).
    + destruct Hsv2 as [[Hw ->]|Hsv]; [left; by rewrite Hw, Hw1|by right].
    + destruct Hsv4 as [[Hw ->]|Hsv]; [left; by rewrite Hw, Hw3|by right].
  - exists (t2 + t4). split; [lia|done].
Qed.

(** The same, in the words of the theorems. *)
Lemma ran_full_logged (n : Z) file s bs s' got :
  ran_full n file s bs s' got →
  ∃ moved part came, came `prefix_of` got ∧
    full (world s') file (bs ++ moved ++ part) ∧ part `prefix_of` unread (ring s') ∧
    moved ++ unread (ring s') `sublist_of` unread (ring s) ++ came ∧
    (daily s' ≤ MAX_LOG_BYTES_PER_DAY → daily s + 2 ^ 32 * n < 2 ^ 64 →
       moved ++ unread (ring s') = unread (ring s) ++ came).
Proof.
  intros (moved & part & came & Hcame & (m & Hm & Hsub & Heq) & Hpart & Hfull & _).
  apply app_inv_head in Hm. subst m. exists moved, part, came. rewrite app_assoc.
  split; [done|]. split; [done|]. split; [done|]. split; [done|]. intros H1 H2. apply Heq. unfold limit_reached. tauto.
Qed.

Lemma logger_rounds_ok file rs : ∀ s bs,
  in_sync file s bs → Forall byte_ok (arrivals rs) → fits_rounds file rs s →
  ∃ s' o, logger_rounds file rs s = (s', o) ∧ 
    (disk_full o ∧ ran_full (len rs) file s bs s' (arrivals rs) ∨ o = Ok () ∧ ∃ bs', ran (len rs) file s bs s' bs' (arrivals rs)).
Proof.
  induction rs as [|r rs IH]; intros s bs Hs Hb Hfit.
  { exists s, (Ok ()). split; [done|]. right. split; [done|]. exists bs. pose proof (sync_daily _ _ _ Hs).
    split; [done|]. cbn. rewrite app_nil_r. split; [apply logged_refl|]. split; [by left|]. exists 0. split; [unfold len; cbn [length]; lia|].
    rewrite Z.add_0_r. symmetry. by apply cast_id. }
  unfold arrivals in Hb. cbn [fmap list_fmap concat] in Hb. rewrite !Forall_app in Hb. destruct Hb as [[He Hl] Hb]. destruct Hfit as [Hf1 Hf2].
  assert (Hlen : len (r :: rs) = len rs + 1) by (unfold len; cbn [length]; lia). pose proof (len_nonneg rs) as Hn.
  pose proof (sync_daily _ _ _ Hs) as Hd.
  destruct (logger_round_ok file r s bs Hs He Hl Hf1) as (s1 & o & Hr1 & [(Ho & moved & part & came & Hcame & Hlg & Hpart & Hfull & t & Ht & Hdt)|[-> (bs1 & Hs1 & Hlg1 & Hsv1 & t1 & Ht1 & Hd1)]]).
  { exists s1, (Err (Fs ActorError.DiskFull)). split; [cbn [logger_rounds]; apply bind_Err; by rewrite Hr1, Ho|].
    left. split; [done|]. exists moved, part, came. split; [|split; [|split; [done|split; [done|]]]].
    - unfold arrivals. cbn [fmap list_fmap concat]. by apply prefix_app_r.
    - apply (logged_weaken (limit_reached 1 s s1)); [|done]. unfold limit_reached. rewrite Hlen. intros Hl1 [? ?]. apply Hl1. lia.
    - exists t. rewrite Hlen. split; [lia|done]. }
  cbn [logger_rounds]. rewrite (bind_Ok _ _ _ _ _ Hr1).
  destruct (IH s1 bs1 Hs1 Hb (Hf2 s1 Hr1)) as (s2 & o & Hr2 &
    [(Ho & moved & part & came & Hcame & Hlg & Hpart & Hfull & t & Ht & Hdt)|[-> (bs2 & Hs2 & Hlg2 & Hsv2 & t2 & Ht2 & Hd2)]]).
  { assert (Hd12 : daily s2 = cast u64 (daily s + (t1 + t))) by (rewrite Hdt, Hd1, cast_add, Z.add_assoc; done).
    exists s2, o. split; [done|]. left. split; [done|]. pose proof Hlg1 as (m1 & Heq & _). subst bs1.
    exists (m1 ++ moved), part, ((early r ++ late r) ++ came). rewrite (app_assoc bs). split; [|split; [|split; [done|split; [done|]]]].
    - unfold arrivals. cbn [fmap list_fmap concat]. by apply prefix_app.
    - rewrite app_assoc. apply (logged_trans _ _ _ _ _ _ _ _ _ _ Hlg1 Hlg); unfold limit_reached; rewrite Hlen; intros Hlim [Hle Hno]; apply Hlim;
        rewrite Hd12, cast_id in Hle by lia; rewrite ?Hd12, Hd1, !cast_id by lia; lia.
    - exists (t1 + t). split; [lia|done]. }
  exists s2, (Ok ()). split; [done|]. right. split; [done|]. exists bs2.
  assert (Hd12 : daily s2 = cast u64 (daily s + (t1 + t2))) by (rewrite Hd2, Hd1, cast_add, Z.add_assoc; done).
  split; [done|]. split; [|split].
  - unfold arrivals. cbn [fmap list_fmap concat]. rewrite app_assoc. fold (arrivals rs).
    apply (logged_trans _ _ _ _ _ _ _ _ _ _ Hlg1 Hlg2); unfold limit_reached; rewrite Hlen; intros Hlim [Hle Hno]; apply Hlim;
      rewrite Hd12, cast_id in Hle by lia; rewrite ?Hd12, Hd1, !cast_id by lia; lia.
  - by apply (saved_since_trans file s bs s1 bs1).
  - exists (t1 + t2). split; [lia|done].
Qed.
End Lemmas.

(** * Theorems *)
Section Theorems.
Context {cfg : Config} {Hcfg : ConfigOk cfg} {W : Type} {srv : Server W} {pst : Persist}.
Context {Hpst : PersistOk pst} {app : AppendFile BLOCK_LEN W srv}.
Implicit Types (s : Logger (W:=W)) (bs : list Z) (file : Z).

(** The loop of the logger, for any number of rounds: it goes on until the
    disk is full. What it moved to the file are the oldest unread bytes; what
    is in the file and in the ring buffer afterwards was there or arrived, in
    this order and once; while the daily limit is not reached it is all of
    it. The helper always knows the end of the file's last sector, and what was
    added to the file is saved. When the disk is full, the same holds of what
    has come by then, except that some of the bytes that are still in the ring
    buffer may also be in the file already, at its end. *)
Theorem logger_keeps_log file rs s bs :
  in_sync file s bs → Forall byte_ok (arrivals rs) → fits_rounds file rs s →
  ∃ s' o, logger_rounds file rs s = (s', o) ∧
    match o with
    | Ok () => ∃ moved, in_sync file s' (bs ++ moved) ∧
        moved ++ unread (ring s') `sublist_of` unread (ring s) ++ arrivals rs ∧
        (daily s' ≤ MAX_LOG_BYTES_PER_DAY → daily s + 2 ^ 32 * len rs < 2 ^ 64 →
           moved ++ unread (ring s') = unread (ring s) ++ arrivals rs) ∧
        (moved = [] ∧ world s' = world s ∨ saved (world s') file (bs ++ moved))
    | Err (Fs ActorError.DiskFull) => ∃ moved part came, came `prefix_of` arrivals rs ∧
        full (world s') file (bs ++ moved ++ part) ∧ part `prefix_of` unread (ring s') ∧
        moved ++ unread (ring s') `sublist_of` unread (ring s) ++ came ∧
        (daily s' ≤ MAX_LOG_BYTES_PER_DAY → daily s + 2 ^ 32 * len rs < 2 ^ 64 →
           moved ++ unread (ring s') = unread (ring s) ++ came)
    | _ => False
    end.
Proof.
  intros Hs Hb Hfit. destruct (logger_rounds_ok file rs s bs Hs Hb Hfit) as (s' & o & Hr & Ho). exists s', o. split; [done|].
  destruct Ho as [[-> Hfull]|[-> (bs' & Hs' & (moved & -> & Hsub & Heq) & Hsv & _)]]; [by apply ran_full_logged|]. exists moved. split; [done|]. split; [done|]. split.
  - intros Hd Hn. apply Heq. unfold limit_reached. tauto.
  - destruct Hsv as [[Hw He]|Hsv]; [left|by right]. split; [|done]. by apply (app_inv_head bs); rewrite app_nil_r.
Qed.

(** Looking at the ring buffer [n] times. *)
Fixpoint looks (n : nat) (file : Z) : M Logger DemoError () :=
  match n with O => mret () | S n => write_to_file false file ;; looks n file end.

Lemma look_waits file s bs :
  in_sync file s bs → unread (ring s) = fst (bufs (ring s)) ++ snd (bufs (ring s)) →
  0 < len (unread (ring s)) < remainder (helper s) → daily s ≤ MAX_LOG_BYTES_PER_DAY →
  write_to_file false file s =
    (put lram (with_daily_log_bytes (daily s + len (unread (ring s))) (ram s)) s, Ok ()).
Proof.
  intros [Hh Hst Hb Hd] Hu Hn Hmax. pose proof (bufs_small (ring s)) as Hsm. unfold write_to_file, MAX_LOG_BYTES_PER_DAY in *.
  rewrite (bind_Ok (gets ring) _ s s (ring s)) by done. destruct (is_empty (ring s)) eqn:He.
  { apply is_empty_ok in He. rewrite He in Hn. unfold len in Hn. cbn in Hn. lia. }
  destruct (bufs (ring s)) as [a b]. cbn [fst snd] in *. pose proof (len_nonneg a). pose proof (len_nonneg b).
  assert (Hlen : len (unread (ring s)) = len a + len b) by (rewrite Hu; unfold len; rewrite length_app; lia). rewrite Hlen in *.
  rewrite add_ok by (destruct usize_cases as [-> | ->]; lia). rewrite bind_lift_Ok.
  set (s1 := put lram (with_daily_log_bytes (daily s + (len a + len b)) (ram s)) s).
  rewrite (bind_Ok _ _ s s1 false).
  2: { eapply zoom_to; [|reflexivity]. unfold daily_limit_exceeded. cbn. unfold wrapping_add. rewrite (cast_id u64 (len a + len b)) by lia.
       change ((with_daily_log_bytes (cast u64 (daily s + (len a + len b))) (ram s), Ok (MAX_LOG_BYTES_PER_DAY <? daily s)) =
         ((with_daily_log_bytes (daily s + (len a + len b)) (ram s), Ok false) : BackupRam * outcome DemoError bool)).
       rewrite cast_id by lia. by rewrite (proj2 (Z.ltb_ge _ _)) by (unfold MAX_LOG_BYTES_PER_DAY; lia). }
  destruct (to_write_ok (E:=DemoError) (len bs) (len a) (len b) (helper s) Hst) as (h & o & Hto & Ho);
    [apply len_nonneg|lia|lia|lia|]. unfold in_step in Hst.
  destruct o as [[wa wb]|]; [lia|]. destruct Ho as [-> _].
  rewrite (bind_Ok _ _ s1 s1 None) by (by eapply zoom_to). done.
Qed.

Lemma look_drops file s bs :
  in_sync file s bs → unread (ring s) = fst (bufs (ring s)) ++ snd (bufs (ring s)) → MAX_LOG_BYTES_PER_DAY < daily s →
  ∃ s', write_to_file false file s = (s', Ok ()) ∧ world s' = world s ∧ unread (ring s') = [].
Proof.
  intros [Hh Hst Hb Hd] Hu Hmax. pose proof (bufs_small (ring s)) as Hsm. pose proof (release_all_ok (ring s)) as Hall. unfold write_to_file.
  rewrite (bind_Ok (gets ring) _ s s (ring s)) by done. destruct (is_empty (ring s)) eqn:He.
  { exists s. apply is_empty_ok in He. done. }
  destruct (bufs (ring s)) as [a b]. cbn [fst snd] in *. pose proof (len_nonneg a). pose proof (len_nonneg b).
  rewrite add_ok by (destruct usize_cases as [-> | ->]; lia). rewrite bind_lift_Ok.
  rewrite (bind_Ok _ _ s (put lram (with_daily_log_bytes (wrapping_add u64 (daily s) (cast u64 (len a + len b))) (ram s)) s)
    (MAX_LOG_BYTES_PER_DAY <? daily s)) by (by eapply zoom_to).
  rewrite (proj2 (Z.ltb_lt _ _)) by done. eexists. split; [reflexivity|]. split; [done|]. cbn. rewrite Hall, Hu.
  by rewrite drop_ge by (rewrite length_app; lia).
Qed.

(** Bytes that wait in the ring buffer are counted at every look. Without a
    byte being written the counter reaches the limit, and then they are
    thrown away. *)
Theorem waiting_bytes_use_up_the_limit file s bs :
  in_sync file s bs → unread (ring s) = fst (bufs (ring s)) ++ snd (bufs (ring s)) →
  0 < len (unread (ring s)) < remainder (helper s) → daily s ≤ MAX_LOG_BYTES_PER_DAY →
  ∃ n s', looks n file s = (s', Ok ()) ∧ world s' = world s ∧ unread (ring s') = [].
Proof.
  intros Hs Hu Hn Hmax. set (k := Z.to_nat (MAX_LOG_BYTES_PER_DAY - daily s)).
  assert (Hk : MAX_LOG_BYTES_PER_DAY - daily s ≤ Z.of_nat k) by (unfold k; lia). clearbody k.
  revert s Hs Hu Hn Hmax Hk. induction k as [|k IH]; intros s Hs Hu Hn Hmax Hk; pose proof (look_waits file s bs Hs Hu Hn Hmax) as Hlook;
    pose proof Hs as [Hh Hst Hb Hd]; pose proof (block_mod (len bs)); unfold in_step, BLOCK_LEN in *.
  all: set (s1 := put lram _ s) in Hlook; assert (Hd1 : daily s1 = daily s + len (unread (ring s))) by done.
  all: assert (Hs1 : in_sync file s1 bs) by (unfold MAX_LOG_BYTES_PER_DAY in *; split; [done..|lia]).
  - destruct (look_drops file s1 bs Hs1 Hu) as (s2 & Hr2 & Hw2 & Hu2); [lia|]. exists 2%nat, s2. split; [|done].
    cbn [looks]. rewrite (bind_Ok _ _ _ _ _ Hlook), (bind_Ok _ _ _ _ _ Hr2). done.
  - destruct (decide (daily s1 ≤ MAX_LOG_BYTES_PER_DAY)).
    + destruct (IH s1 Hs1 Hu) as (n & s2 & Hr2 & Hw2 & Hu2); [done|done|lia|]. exists (S n), s2. split; [|done].
      cbn [looks]. by rewrite (bind_Ok _ _ _ _ _ Hlook).
    + destruct (look_drops file s1 bs Hs1 Hu) as (s2 & Hr2 & Hw2 & Hu2); [lia|]. exists 2%nat, s2. split; [|done].
      cbn [looks]. rewrite (bind_Ok _ _ _ _ _ Hlook), (bind_Ok _ _ _ _ _ Hr2). done.
Qed.
End Theorems.

(** * An instance of each interface *)

(** A ring buffer whose grants cover at most [1024] bytes, in two parts. *)
Definition list_persist : Persist := {|
  consumer := list Z;
  is_empty c := bool_decide (c = []);
  bufs c := (take 600 c, take 424 (drop 600 c));
  release n c := drop (Z.to_nat n) c;
  release_all c := drop 1024 c;
  produce bs c := c ++ bs |}.
#[export] Program Instance list_persist_ok : PersistOk list_persist := {| unread c := c |}.
Next Obligation. intros c. apply bool_decide_eq_true. Qed.
Next Obligation. intros c. exists (drop 424 (drop 600 c)). cbn [bufs list_persist fst snd]. by rewrite !take_drop. Qed.
Next Obligation. intros c. cbn. unfold len. rewrite !length_take. lia. Qed.
Next Obligation. intros n c _. done. Qed.
Next Obligation.
  intros c. cbn. rewrite !length_take, length_drop. destruct (decide (1024 ≤ length c)%nat).
  - f_equal. lia.
  - rewrite !drop_ge by lia. done.
Qed.
Next Obligation. done. Qed.

(** A server with one file, in memory. *)
#[export] Instance list_server : Server (list Z) := λ op w,
  match op with
  | WriteFile _ buffer => (w ++ buffer, Ok (inr Resp.Ok))
  | FlushFile _ => (w, Ok (inr Resp.Ok))
  | _ => (w, Ok (inl ActorError.InvalidOptions))
  end.
#[export] Program Instance list_append : AppendFile BLOCK_LEN (list Z) list_server := {|
  holds w _ bs := w = bs; saved w _ bs := w = bs; full w _ bs := w = bs; misses _ _ := False |}.
Next Obligation. intros c n _ _ []. Qed.
Next Obligation. by intros. Qed.
Next Obligation. intros w h bs buf ->. intros. by eexists _, _. Qed.
Next Obligation. intros w h bs ->. by eexists. Qed.

Section Witnesses.
#[local] Existing Instance debug_build.
#[local] Existing Instance debug_build_ok.
#[local] Existing Instance list_persist.

Definition sample_logger : Logger (W:=list Z) := {|
  ring := replicate 300 1; helper := {| remainder := 412 |}; ram := zeroed; world := replicate 100 0 |}.
Definition sample_rounds : list Round := [
  {| early := []; wake := WaitForData; late := replicate 300 2 |};
  {| early := replicate 50 3; wake := FlushLogs; late := [4] |}].
Lemma sample_in_sync : in_sync 7 sample_logger (replicate 100 0).
Proof. split; [done|vm_compute; reflexivity|apply (bool_decide_unpack _); vm_compute; exact I|vm_compute; split; congruence]. Qed.

(** 412 bytes fill the sector, the flush writes the others. *)
Lemma logger_keeps_log_witness :
  ∃ s' moved, logger_rounds 7 sample_rounds sample_logger = (s', Ok ()) ∧ world s' = replicate 100 0 ++ moved ∧
    moved ++ ring s' = replicate 300 1 ++ replicate 300 2 ++ replicate 50 3 ++ [4] ∧ ring s' = [].
Proof.
  destruct (logger_keeps_log 7 sample_rounds sample_logger (replicate 100 0)) as (s' & o & Hrun & Ho).
  - exact sample_in_sync.
  - apply (bool_decide_unpack _). vm_compute. exact I.
  - assert (Hf : ∀ rs s, fits_rounds 7 rs s).
    { induction rs as [|r rs IH]; intros s; [exact I|]. split; [|intros; apply IH]. intros _ s1 bs _ _. split; intros _ []. }
    apply Hf.
  - assert (Hs : fst (logger_rounds 7 sample_rounds sample_logger) = s') by (by rewrite Hrun).
    assert (Ho' : snd (logger_rounds 7 sample_rounds sample_logger) = Ok ()) by (vm_compute; reflexivity).
    rewrite Hrun in Ho'. cbn [snd] in Ho'. subst o. destruct Ho as (moved & [Hw _ _ _] & _ & Heq & _).
    exists s', moved. split; [exact Hrun|]. split; [exact Hw|]. split.
    + etransitivity; [apply Heq|reflexivity]; [rewrite <-Hs; vm_compute; congruence|vm_compute; reflexivity].
    + rewrite <-Hs. vm_compute. reflexivity.
Defined.

(** Ten bytes that nobody adds to. *)
Definition waiting_logger : Logger (W:=list Z) := {| ring := (replicate 10 1 : @consumer list_persist); helper := {| remainder := 412 |}; ram := zeroed; world := replicate 100 0 |}.
Lemma waiting_bytes_use_up_the_limit_witness :
  ∃ n s', looks n 7 waiting_logger =
      (s', Ok ()) ∧ world s' = replicate 100 0 ∧ ring s' = [].
Proof.
  destruct (waiting_bytes_use_up_the_limit 7 waiting_logger (replicate 100 0)) as (n & s' & Hrun & Hw & Hu).
  - split; [done|vm_compute; reflexivity|apply (bool_decide_unpack _); vm_compute; exact I|vm_compute; split; congruence].
  - vm_compute. reflexivity.
  - vm_compute. split; reflexivity.
  - vm_compute. congruence.
  - exists n, s'. split; [exact Hrun|]. split; [exact Hw|exact Hu].
Defined.
End Witnesses.
