(* ===== verification/ActorFile.v ===== *)
(** * The actor as a server of files that are appended to

    [fs_actor_task] of src/fs.rs, asked to write to and to flush a file that a
    client has open, implements the interface [AppendFile] the logger of the
    demo is proved against. *)

From S2P Require Import Prelude Text Crates Errors Utils Timestamp BootSector Device SlotCache Touched Fat Allocation AllocationSearch Regions Volume VolumeInv VolumeAlloc DirectoryEntry Directory FileSystem File FileRead FileGrow FreeChain FileWrite FileSeek Api FileOpen DirSets FileFlush DirWalk DirFree DirLookup PathLookup DirCreate DirInsert DirRemove PathCreate DirUpdate PathFiles PathReplace DirMake Leaves Copy Append FsActor Logger LoggerProofs.
Import FileSystemDetails (cluster_length).
Open Scope Z_scope.

(** * Specification *)
Section Spec.
Context {cfg : Config} {crates : Crates} {bd : BlockDevice} {be : BlockDeviceError bd} {fu : Fuel} {Hbd : DeviceOk cfg bd}.

(** A client has the file of the path open for appending behind the handle. *)
Definition has_open (fl CL : Z) (path : str) (m : FsManager) (handle : Z) (bs : list Z) : Prop :=
  ∃ f file cl l1 x l2 p via name nl, mgr_dev m = None ∧ file_system m = Some f ∧ handles (files m) !! handle = Some file ∧
    cluster_length (fs f) = CL ∧ appending fl f file cl l1 x l2 p via path name nl bs.
(** Moreover the path stands for a file with these bytes, and nothing is left in
    the caches. *)
Definition has_saved (fl CL : Z) (path : str) (m : FsManager) (handle : Z) (bs : list Z) : Prop :=
  has_open fl CL path m handle bs ∧
  ∃ f nl, file_system m = Some f ∧ on_volume fl f path nl bs ∧ ∀ y, in_volume fl f y → durable fl f y.
(** The disk is full, and the file behind the handle has these bytes. *)
Definition has_full (fl CL : Z) (m : FsManager) (handle : Z) (bs : list Z) : Prop :=
  ∃ f file, mgr_dev m = None ∧ file_system m = Some f ∧ handles (files m) !! handle = Some file ∧
    cluster_length (fs f) = CL ∧ append_full fl f file bs.
(** [write_misses_cluster] for this cluster length *)
Definition misses_cluster (CL c n : Z) : Prop :=
  let e := c + n in e mod SIZE ≠ 0 ∧ c < e - e mod SIZE ∧ (e - e mod SIZE) mod CL = 0.
End Spec.

(** * Lemmas *)
Section Lemmas.
Context {cfg : Config} {crates : Crates} {bd : BlockDevice} {be : BlockDeviceError bd} {fu : Fuel}.
Context {Hcfg : ConfigOk cfg} {Hcr : CratesOk crates} {Hbd : DeviceOk cfg bd}.
Implicit Types (m : FsManager) (f : FileSystem) (file : File) (bs buf : list Z) (handle : Z).

#[export] Instance actor_server : Server FsManager := serve.

(** A call on an open file of a mounted volume. *)
Definition after_call m handle file f : FsManager :=
  with_fs (mgr_dev m) (Some f) (mgr_clock m) (put lfiles (put_back handle file (files m)) m).
Lemma on_file_ok {A} m handle f file (c : M (File * FileSystem) err A) file' f' o :
  file_system m = Some f → handles (files m) !! handle = Some file → c (file, f) = ((file', f'), o) →
  on_file handle c m = (after_call m handle file' f', map_err_o from_exfat_error o).
Proof. intros Hf Hh Hc. unfold on_file. by rewrite Hh, Hf, Hc. Qed.
Lemma mounted_already m f : mgr_dev m = None → file_system m = Some f → convert mgr_mount m = (m, Ok ()).
Proof. intros Hd Hf. unfold convert, mgr_mount. by rewrite Hd, Hf. Qed.

Lemma has_open_after fl CL path m handle file f bs cl l1 x l2 p via name nl :
  mgr_dev m = None → cluster_length (fs f) = CL → appending fl f file cl l1 x l2 p via path name nl bs →
  has_open fl CL path (after_call m handle file f) handle bs.
Proof.
  intros Hd Hc Ha. exists f, file, cl, l1, x, l2, p, via, name, nl. split; [done|]. split; [done|]. split; [|done].
  cbn. by rewrite lookup_insert_eq.
Qed.

Lemma serve_Ok op m m' r : handle_req op m = (m', Ok r) → serve op m = (m', Ok (inr r)).
Proof. intros Hr. unfold serve. rewrite (bind_Ok _ _ m m' (inr r)) by (unfold try_; by rewrite Hr). done. Qed.
Lemma serve_Err op m m' e : handle_req op m = (m', Err e) → e ≠ ActorError.NoCard → serve op m = (m', Ok (inl e)).
Proof.
  intros Hr He. unfold serve. rewrite (bind_Ok _ _ m m' (inl e)) by (unfold try_; by rewrite Hr). by destruct e.
Qed.

Lemma serve_write_ok fl CL path m handle bs buf :
  has_open fl CL path m handle bs → buf ≠ [] → Forall byte_ok buf → SIZE + len buf ≤ 2 ^ usize → len buf < 2 ^ 32 →
  ¬ misses_cluster CL (len bs) (len buf) →
  ∃ m' r, serve (WriteFile handle buf) m = (m', Ok r) ∧
    match r with
    | inr Resp.Ok => has_open fl CL path m' handle (bs ++ buf)
    | inl ActorError.DiskFull => has_full fl CL m' handle bs
    | _ => False
    end.
Proof.
  intros (f & file & cl & l1 & x & l2 & p & via & name & nl & Hd & Hf & Hh & HCL & Ha) Hne Hb Hu H32 Hgap.
  destruct (append_ok fl f file cl l1 x l2 p via path name nl bs buf Ha Hne Hb Hu H32) as (file' & f' & nl' & o & Hr & Ho).
  { unfold misses_cluster, write_misses_cluster in *. by rewrite HCL. }
  pose proof (on_file_ok m handle f file _ _ _ _ Hf Hh Hr) as Hon.
  assert (Hreq : handle_req (WriteFile handle buf) m = (on_file handle (File.write buf) ;; mret Resp.Ok) m)
    by (unfold handle_req; by rewrite (bind_Ok _ _ _ _ _ (mounted_already m f Hd Hf))).
  destruct o as [[]|[]| |]; try done.
  - destruct Ho as [Hfs' Ha']. eexists _, (inr Resp.Ok). split; [apply serve_Ok; rewrite Hreq; by rewrite (bind_Ok _ _ _ _ _ Hon)|].
    apply (has_open_after fl CL path m handle file' f' _ cl l1 x l2 p via name nl'); [done|by rewrite Hfs'|done].
  - destruct Ho as [Hfs' Ha']. eexists _, (inl ActorError.DiskFull). split.
    + apply serve_Err; [|done]. rewrite Hreq. by rewrite (bind_Err _ _ _ _ _ Hon).
    + exists f', file'. split; [done|]. split; [done|]. split; [cbn; by rewrite lookup_insert_eq|]. by rewrite Hfs'.
Qed.

Lemma serve_flush_ok fl CL path m handle bs :
  has_open fl CL path m handle bs →
  ∃ m', serve (FlushFile handle) m = (m', Ok (inr Resp.Ok)) ∧ has_saved fl CL path m' handle bs.
Proof.
  intros (f & file & cl & l1 & x & l2 & p & via & name & nl & Hd & Hf & Hh & HCL & Ha).
  destruct (append_flush_ok fl f file cl l1 x l2 p via path name nl bs Ha) as (f' & x' & Hr & Hfs' & Ha' & Hon' & Hdur).
  pose proof (on_file_ok m handle f file _ _ _ _ Hf Hh Hr) as Hon. eexists. split.
  - apply serve_Ok. unfold handle_req. rewrite (bind_Ok _ _ _ _ _ (mounted_already m f Hd Hf)). cbn [dispatch].
    by rewrite (bind_Ok _ _ _ _ _ Hon).
  - split; [|by exists f', nl].
    apply (has_open_after fl CL path m handle _ f' bs cl l1 x' l2 p via name nl); [done|by rewrite Hfs'|done].
Qed.

Lemma serve_open_ok m f f' path o file :
  mgr_dev m = None → file_system m = Some f → Api.open path o f = (f', Ok file) →
  handles (files m) !! wrapping_add u32 (next_handle (files m)) 1 = None →
  ∃ m' handle, serve (OpenFile path o) m = (m', Ok (inr (Resp.FileOpen handle))) ∧
    mgr_dev m' = None ∧ file_system m' = Some f' ∧ handles (files m') !! handle = Some file.
Proof.
  intros Hd Hf Hopen Hfree. set (handle := wrapping_add u32 (next_handle (files m)) 1) in *.
  set (m1 := with_fs (mgr_dev m) (Some f') (mgr_clock m) m).
  assert (Hon : on_fs (Api.open path o) m = (m1, Ok file)) by (unfold on_fs; by rewrite Hf, Hopen).
  assert (Hadd : add file (files m1) =
    ({| handles := <[handle := file]> (handles (files m)); next_handle := handle |}, Ok handle)).
  { unfold add. cbn [add_loop]. change (files m1) with (files m). fold handle. by rewrite Hfree. }
  eexists _, handle. split.
  - apply serve_Ok. unfold handle_req. rewrite (bind_Ok _ _ _ _ _ (mounted_already m f Hd Hf)). cbn [dispatch].
    rewrite (bind_Ok _ _ _ _ _ Hon). by rewrite (bind_Ok _ _ _ _ handle (zoom_eq lfiles _ _ _ _ Hadd)).
  - split; [done|]. split; [done|]. cbn. by rewrite lookup_insert_eq.
Qed.

Lemma serve_metadata_ok m f handle file :
  mgr_dev m = None → file_system m = Some f → handles (files m) !! handle = Some file →
  ∃ m', serve (GetMetadata handle) m = (m', Ok (inr (Resp.Metadata (details file)))) ∧
    mgr_dev m' = None ∧ file_system m' = Some f ∧ handles (files m') !! handle = Some file.
Proof.
  intros Hd Hf Hh. eexists. split.
  - apply serve_Ok. unfold handle_req. rewrite (bind_Ok _ _ _ _ _ (mounted_already m f Hd Hf)). cbn [dispatch].
    assert (Hg : FsActor.get handle (files m) = (files m, Ok file)) by (unfold FsActor.get; by rewrite Hh).
    rewrite (bind_Ok _ _ _ _ file (zoom_eq lfiles _ _ _ _ Hg)). reflexivity.
  - done.
Qed.
End Lemmas.

(** * The interface *)
Section Interface.
Context {cfg : Config} {crates : Crates} {bd : BlockDevice} {be : BlockDeviceError bd} {fu : Fuel}.
Context {Hcfg : ConfigOk cfg} {Hcr : CratesOk crates} {Hbd : DeviceOk cfg bd}.

(** For volumes with sectors of the length the helper works with. *)
Program Definition actor_append (fl CL : Z) (path : str) (HS : SIZE = BLOCK_LEN) : AppendFile BLOCK_LEN FsManager actor_server := {|
  holds := has_open fl CL path; saved := has_saved fl CL path; full := has_full fl CL; misses := misses_cluster CL |}.
Next Obligation.
  intros fl CL path HS c n Hc Hn (Hm & Hlt & _). apply (write_in_sector_ends c n); [done|by rewrite HS|done|done].
Qed.
Next Obligation. by intros fl CL path HS m handle bs [Ho _]. Qed.
Next Obligation.
  intros fl CL path HS m handle bs buf Ho Hne Hb Hl Hm. apply (serve_write_ok fl CL path m handle bs buf Ho Hne Hb); [|lia|done].
  rewrite HS. unfold BLOCK_LEN. destruct usize_cases as [-> | ->]; lia.
Qed.
Next Obligation. intros fl CL path HS m handle bs Ho. by apply serve_flush_ok. Qed.
End Interface.

(** * The logger on the actor *)
Section LoggerOnActor.
Context {cfg : Config} {crates : Crates} {bd : BlockDevice} {be : BlockDeviceError bd} {fu : Fuel} {pst : Persist}.
Context {Hcfg : ConfigOk cfg} {Hcr : CratesOk crates} {Hbd : DeviceOk cfg bd} {Hpst : PersistOk pst}.
Context (fl CL : Z) (HS : SIZE = BLOCK_LEN).
#[local] Instance log_file : AppendFile BLOCK_LEN FsManager actor_server := actor_append fl CL LOG_BIN HS.
Implicit Types (f : FileSystem) (m : FsManager) (bs : list Z) (s : Logger (W:=FsManager)).

(** The path stands for nothing yet, or for a file with the contents [bs] that
    end inside its last cluster; either way in a directory in order. *)
Definition log_ready f path bs : Prop :=
  (∃ cl l p via name h, new_path fl f cl l p via path name h ∧ bs = []) ∨
  (∃ cl l1 x l2 via fcl name, let d := details_of (place f cl) x in
     old_path fl f cl l1 x l2 via fcl path name ∧ FileDetails.valid_data_length d = FileDetails.data_length d ∧
     (fcl ≠ [] → (len fcl - 1) * cluster_length (fs f) ≤ FileDetails.data_length d < len fcl * cluster_length (fs f)) ∧
     bs = file_data fl f d fcl).
(** The actor has a mounted volume, all of it on the device. *)
Definition actor_ready m f : Prop :=
  mgr_dev m = None ∧ file_system m = Some f ∧ handles (files m) !! wrapping_add u32 (next_handle (files m)) 1 = None ∧
  cluster_length (fs f) = CL ∧ ∀ y, in_volume fl f y → durable fl f y.

Lemma log_open_ok f path bs :
  log_ready f path bs → (∀ y, in_volume fl f y → durable fl f y) →
  ∃ f' file cl l1 x l2 p via name nl, Api.open path log_options f = (f', Ok file) ∧ fs f' = fs f ∧
    appending fl f' file cl l1 x l2 p via path name nl bs ∧ on_volume fl f' path nl bs ∧ ∀ y, in_volume fl f' y → durable fl f' y.
Proof.
  intros [(cl & l & p & via & name & h & Hnp & ->)|(cl & l1 & x & l2 & via & fcl & name & Hop & Hval & Hlast & ->)] Hdur.
  - destruct (open_append_new_ok fl f cl l p via path name h log_options Hnp eq_refl eq_refl Hdur)
      as (f' & file & l1 & x & l2 & Hr & Hfs & _ & Ha & Hon & Hall).
    by exists f', file, cl, l1, x, l2, p, via, name, [].
  - destruct (open_append_ok fl f cl l1 x l2 via fcl path name log_options Hop) as (f' & file & Hr & Hfs & Ha & Hon & Hall); [done..|].
    by exists f', file, cl, l1, x, l2, (set_pos x), via, name, fcl.
Qed.

Lemma call_ok {A} (c : Client A) m m' r (a : A) :
  serve (request c) m = (m', Ok (inr r)) → accept c r = Ok a → call c m = (m', Ok a).
Proof. intros Hs Ha. unfold call. rewrite (bind_Ok _ _ m m' (inr r)) by exact Hs. unfold lift. by rewrite Ha. Qed.

Lemma logger_open_ok s f bs :
  actor_ready (world s) f → log_ready f LOG_BIN bs → 0 ≤ daily s < 2 ^ 64 → Forall byte_ok (unread (ring s)) →
  ∃ s1 file, logger_open false s = (s1, Ok file) ∧ in_sync file s1 bs ∧ has_saved fl CL LOG_BIN (world s1) file bs ∧
    ring s1 = ring s ∧ daily s1 = daily s.
Proof.
  intros (Hd & Hf & Hfree & HCL & Hdur) Hlog Hday Hb.
  destruct (log_open_ok f LOG_BIN bs Hlog Hdur) as (f' & file & cl & l1 & x & l2 & p & via & name & nl & Hopen & Hfs & Ha & Hon & Hall).
  destruct (serve_open_ok (world s) f f' LOG_BIN log_options file Hd Hf Hopen Hfree) as (m1 & handle & Hs1 & Hd1 & Hf1 & Hh1).
  destruct (serve_metadata_ok m1 f' handle file Hd1 Hf1 Hh1) as (m2 & Hs2 & Hd2 & Hf2 & Hh2).
  destruct (LoggerHelper_new_ok (E:=DemoError) (FileDetails.data_length (details file))) as (h & Hnew & Hstep).
  rewrite (ap_length _ _ _ _ _ _ _ _ _ _ _ _ _ Ha) in Hstep.
  assert (Hsaved : has_saved fl CL LOG_BIN m2 handle bs).
  { split; [|by exists f', nl]. exists f', file, cl, l1, x, l2, p, via, name, nl. split; [done|]. split; [done|]. split; [done|].
    split; [by rewrite Hfs|done]. }
  set (s1 := put lhelper h (put lworld m2 (put lworld m1 s))). exists s1, handle. split.
  - unfold logger_open. rewrite (bind_Ok _ _ s (put lworld m1 s) handle) by (eapply zoom_to; [by eapply call_ok|done]).
    rewrite (bind_Ok _ _ _ (put lworld m2 (put lworld m1 s)) (details file)) by (eapply zoom_to; [by eapply call_ok|done]).
    rewrite Hnew, bind_lift_Ok. reflexivity.
  - split; [|done]. split; [apply Hsaved|exact Hstep|done|done].
Qed.

(** C9 - the logger over the actor, the library and the device, on a mounted
    volume that is on the device and a free number for the next handle
    ([actor_ready]), with a [log.bin] that is new or
    whose bytes are all valid and end inside its last cluster ([log_ready]: the
    length is not a multiple of the cluster length).  It opens the file, and then
    moves bytes for any number of rounds in which no flush on demand appends a
    grant the write gap of [File::write] is in the way of ([fits_rounds]; whole
    sectors always fit).  Afterwards [log.bin] holds what it held and the oldest
    of the bytes that were in the ring buffer or arrived, in order and once, all
    of them while the daily limit is not reached, the rest being in the ring
    buffer; and all of the volume is on the device.  The one other end is a full
    disk, every cluster of which is taken: of the bytes that had come by then,
    the oldest are in the file and the others still in the ring buffer, none
    lost while the daily limit is not reached; the file may also have the first
    of those others at its end. *)
Theorem logger_stores_log s f rs bs :
  actor_ready (world s) f → log_ready f LOG_BIN bs → 0 ≤ daily s < 2 ^ 64 →
  Forall byte_ok (unread (ring s)) → Forall byte_ok (arrivals rs) →
  ∃ s1 file, logger_open false s = (s1, Ok file) ∧
    (fits_rounds file rs s1 →
     ∃ s' o, logger_rounds file rs s1 = (s', o) ∧
       match o with
       | Ok () => ∃ moved, has_saved fl CL LOG_BIN (world s') file (bs ++ moved) ∧
           moved ++ unread (ring s') `sublist_of` unread (ring s) ++ arrivals rs ∧
           (daily s' ≤ MAX_LOG_BYTES_PER_DAY → daily s + 2 ^ 32 * len rs < 2 ^ 64 →
              moved ++ unread (ring s') = unread (ring s) ++ arrivals rs)
       | Err (Fs ActorError.DiskFull) => ∃ moved part came, came `prefix_of` arrivals rs ∧
           has_full fl CL (world s') file (bs ++ moved ++ part) ∧ part `prefix_of` unread (ring s') ∧
           moved ++ unread (ring s') `sublist_of` unread (ring s) ++ came ∧
           (daily s' ≤ MAX_LOG_BYTES_PER_DAY → daily s + 2 ^ 32 * len rs < 2 ^ 64 →
              moved ++ unread (ring s') = unread (ring s) ++ came)
       | _ => False
       end).
Proof.
  intros Hr Hlog Hday Hb Harr. destruct (logger_open_ok s f bs Hr Hlog Hday Hb) as (s1 & file & Hopen & Hsync & Hsaved & Hring & Hd1).
  exists s1, file. split; [done|]. intros Hfit.
  destruct (logger_rounds_ok file rs s1 bs Hsync Harr Hfit) as (s' & o & Hrun & Ho). exists s', o. split; [done|].
  destruct Ho as [[-> Hfull]|[-> (bs' & Hs' & (moved & -> & Hsub & Heq) & Hsv & _)]].
  { pose proof (ran_full_logged _ _ _ _ _ _ Hfull) as H. by rewrite Hring, Hd1 in H. }
  rewrite Hring in *.
  exists moved. split; [|split; [done|]].
  - destruct Hsv as [[-> ->]|Hsv]; done.
  - intros Hle Hno. apply Heq. unfold limit_reached. rewrite Hd1. tauto.
Qed.
End LoggerOnActor.

(** * The logger on a small volume *)
Section Sample.
#[local] Existing Instance debug_build.
#[local] Existing Instance dummy_device.
#[local] Existing Instance reference_crates.
#[local] Existing Instance reference_crates_ok.
#[local] Existing Instance debug_build_ok.
#[local] Existing Instance sample_files_device_ok.
#[local] Existing Instance sample_files_fuel.
#[local] Existing Instance list_persist.
#[local] Instance dummy_error : BlockDeviceError dummy_device := {| to_error_code _ := 0; no_card _ := false |}.

Lemma log_new_path :
  new_path 1 crab_volume [3] crab_sets 0 [] LOG_BIN LOG_BIN (spec_name_hash UpcaseTable_default (encode_utf16 LOG_BIN) 0).
Proof.
  pose proof crab_new_path as [Hv Hc Ht Hio _ _ _ _ Hal Hfr _ Hroom _]. split.
  - exact Hv.
  - exact Hc.
  - exact Ht.
  - exact Hio.
  - vm_compute. reflexivity.
  - vm_compute. reflexivity.
  - replace (path_to_iter _) with (@nil str) by (vm_compute; reflexivity).
    change (FileSystemDetails.first_cluster_of_root_dir _) with (hd 0 [3]). constructor.
  - by intros id ?%elem_of_nil.
  - exact Hal.
  - exact Hfr.
  - split; [apply default_table_ok|apply (bool_decide_unpack _); vm_compute; exact I|vm_compute; congruence|vm_compute; reflexivity].
  - replace (set_count LOG_BIN) with (set_count sample_new_name) by (vm_compute; reflexivity). exact Hroom.
  - vm_compute. reflexivity.
Qed.

Definition log_manager : FsManager := {|
  mgr_dev := None; file_system := Some crab_volume; files := Handles_new; directories := Handles_new;
  mgr_time_provider := None; mgr_clock := 0 |}.
Definition log_start : Logger (W:=FsManager) := {|
  ring := (replicate 300 1 : @consumer list_persist); helper := {| remainder := 512 |}; ram := zeroed; world := log_manager |}.
Definition log_rounds : list Round := [{| early := []; wake := WaitForData; late := replicate 300 2 |}].

Lemma sample_size : SIZE = BLOCK_LEN.
Proof. reflexivity. Qed.

Lemma logger_stores_log_witness :
  ∃ s1 file s' moved, logger_open false log_start = (s1, Ok file) ∧ logger_rounds file log_rounds s1 = (s', Ok ()) ∧
    has_saved 1 512 LOG_BIN (world s') file moved ∧ len moved = 512 ∧ moved ++ ring s' = replicate 300 1 ++ replicate 300 2.
Proof.
  destruct (logger_stores_log 1 512 sample_size log_start crab_volume log_rounds []) as (s1 & file & Hopen & Hrun).
  - split; [done|]. split; [done|]. split; [done|]. split; [done|].
    intros y _. unfold durable, vseen. do 2 (destruct (decide _); [symmetry; apply seen_new|]). symmetry. apply seen_new.
  - left. exists [3], crab_sets, 0, [], LOG_BIN, (spec_name_hash UpcaseTable_default (encode_utf16 LOG_BIN) 0).
    split; [exact log_new_path|reflexivity].
  - vm_compute. split; congruence.
  - apply (bool_decide_unpack _). vm_compute. exact I.
  - apply (bool_decide_unpack _). vm_compute. exact I.
  - destruct Hrun as (s' & o & Hrun & Ho).
    { split; [discriminate|]. intros s2 _. exact I. }
    assert (Hs1 : fst (logger_open false log_start) = s1) by (by rewrite Hopen).
    assert (Hf : snd (logger_open false log_start) = Ok 1) by (vm_compute; reflexivity).
    rewrite Hopen in Hf. cbn [snd] in Hf. injection Hf as ->.
    assert (Hs' : fst (logger_rounds 1 log_rounds (fst (logger_open false log_start))) = s') by (by rewrite Hs1, Hrun).
    assert (Ho' : snd (logger_rounds 1 log_rounds (fst (logger_open false log_start))) = Ok ()) by (vm_compute; reflexivity).
    rewrite Hs1, Hrun in Ho'. cbn [snd] in Ho'. subst o. destruct Ho as (moved & Hsaved & _ & Heq).
    exists s1, 1, s', moved. split; [exact Hopen|]. split; [exact Hrun|]. split; [exact Hsaved|].
    assert (Hall : moved ++ ring s' = replicate 300 1 ++ replicate 300 2).
    { apply Heq; [rewrite <-Hs'; vm_compute; congruence|vm_compute; reflexivity]. }
    split; [|exact Hall]. apply (f_equal length) in Hall. rewrite length_app in Hall.
    assert (Hring : length (ring s') = 88%nat) by (rewrite <-Hs'; vm_compute; reflexivity).
    rewrite Hring in Hall. unfold len. change (length (replicate 300 1 ++ replicate 300 2)) with 600%nat in Hall. lia.
Defined.
End Sample.
