(* ===== verification/Embassy.v ===== *)
(** * The primitives of embassy_sync the actor uses

    [embassy_sync] is not part of the repository: a channel, a signal and a
    fair semaphore are type classes of operations, and what the documentation
    of the crate promises about them are the classes [ChannelOk], [SignalOk]
    and [SemaphoreOk].  An [await] on one of them is a step that is tried
    again until it succeeds.  [list_channel], [option_signal] and
    [queue_semaphore] are instances the witnesses run on. *)

From S2P Require Import Prelude.

(** ** [Channel<M, A, CAPACITY>] *)
Class Channel (A : Type) := {
  channel : Type;
  channel_new : channel;
  (** [None]: the channel is full and the value is not sent *)
  try_send : A → channel → option channel;
  (** [None]: the channel is empty *)
  try_receive : channel → option (A * channel);
}.
Arguments channel A {_}.

(** First in, first out, at most [capacity] values at a time. *)
Class ChannelOk {A} (ch : Channel A) (capacity : nat) := {
  queued : channel A → list A;
  queued_new : queued channel_new = [];
  send_room x c : (length (queued c) < capacity)%nat →
    ∃ c', try_send x c = Some c' ∧ queued c' = queued c ++ [x];
  send_full x c : (capacity ≤ length (queued c))%nat → try_send x c = None;
  receive_empty c : queued c = [] → try_receive c = None;
  receive_first c x l : queued c = x :: l → ∃ c', try_receive c = Some (x, c') ∧ queued c' = l;
}.

(** ** [Signal<M, A>]: one value, overwritten by the next *)
Class Signal (A : Type) := {
  signal_cell : Type;
  signal_new : signal_cell;
  signal : A → signal_cell → signal_cell;
  (** a poll of [wait]; [None]: no value is there *)
  try_take : signal_cell → option (A * signal_cell);
}.
Arguments signal_cell A {_}.

Class SignalOk {A} (sg : Signal A) := {
  unread : signal_cell A → option A;
  unread_new : unread signal_new = None;
  signal_sets x c : unread (signal x c) = Some x;
  take_none c : unread c = None → try_take c = None;
  take_some c x : unread c = Some x → ∃ c', try_take c = Some (x, c') ∧ unread c' = None;
}.

(** ** [FairSemaphore<M, N>]

    [acquire k] is a poll of the future [acquire(1)] of the task [k].  What it
    returns when the permit is granted is a guard, a [SemaphoreReleaser], that
    releases the permit when it is dropped. *)
Inductive Acquisition := Granted | Pending | WaitQueueFull.

Class FairSemaphore := {
  semaphore : Type;
  semaphore_new : nat → semaphore;
  acquire : nat → semaphore → semaphore * Acquisition;
  release : semaphore → semaphore;
}.

(** A permit is granted at once when one is there and nobody waits. *)
Class SemaphoreOk (sem : FairSemaphore) := {
  permits : semaphore → nat;
  waiters : semaphore → list nat;
  permits_new n : permits (semaphore_new n) = n;
  waiters_new n : waiters (semaphore_new n) = [];
  acquire_granted k s : (0 < permits s)%nat → waiters s = [] →
    ∃ s', acquire k s = (s', Granted) ∧ waiters s' = [];
  acquire_takes k s s' : acquire k s = (s', Granted) → permits s = S (permits s');
  acquire_keeps k s s' r : acquire k s = (s', r) → r ≠ Granted → permits s' = permits s;
  release_permits s : permits (release s) = S (permits s);
  release_waiters s : waiters (release s) = waiters s;
}.

(** ** Instances *)
Definition list_channel (A : Type) (capacity : nat) : Channel A := {|
  channel := list A;
  channel_new := [];
  try_send x c := if decide (length c < capacity)%nat then Some (c ++ [x]) else None;
  try_receive c := match c with [] => None | x :: c => Some (x, c) end |}.
Lemma list_channel_ok A capacity : ChannelOk (list_channel A capacity) capacity.
Proof.
  refine {| queued := λ c : @channel A (list_channel A capacity), c |}; [done|..]; cbn.
  - intros x c ?. rewrite decide_True by done. by eexists.
  - intros x c ?. rewrite decide_False; [done|lia].
  - by intros c ->.
  - intros c x l ->. by eexists.
Defined.

Definition option_signal (A : Type) : Signal A := {|
  signal_cell := option A;
  signal_new := None;
  signal x c := Some x;
  try_take c := match c with Some x => Some (x, None) | None => None end |}.
Lemma option_signal_ok A : SignalOk (option_signal A).
Proof.
  refine {| unread := λ c : @signal_cell A (option_signal A), c |}; cbn; try done.
  - by intros c ->.
  - intros c x ->. by eexists.
Defined.

(** the free permits and the queue of the waiting tasks, at most [n] of them *)
Definition queue_semaphore (n : nat) : FairSemaphore := {|
  semaphore := nat * list nat;
  semaphore_new n := (n, []);
  acquire k '(p, w) :=
    match p, w with
    | S p, [] => ((p, []), Granted)
    | S p, j :: w' => if decide (j = k) then ((p, w'), Granted)
                      else if decide (k ∈ w) then ((S p, w), Pending)
                      else if decide (length w < n)%nat then ((S p, w ++ [k]), Pending)
                      else ((S p, w), WaitQueueFull)
    | O, w => if decide (k ∈ w) then ((O, w), Pending)
              else if decide (length w < n)%nat then ((O, w ++ [k]), Pending)
              else ((O, w), WaitQueueFull)
    end;
  release '(p, w) := (S p, w) |}.
Lemma queue_semaphore_ok n : SemaphoreOk (queue_semaphore n).
Proof.
  refine {| permits := λ s : @semaphore (queue_semaphore n), fst s; waiters := snd |}; try done; cbn.
  - intros k [[|p] w] Hp Hw; cbn in *; [lia|]. subst w. by eexists.
  - intros k [[|p] [|j w]] s'; cbn; repeat case_decide; intros [= <-]; done.
  - intros k [[|p] [|j w]] s' r; cbn; repeat case_decide; intros [= <- <-]; done.
  - by intros [p w].
  - by intros [p w].
Defined.
