(* ===== verification/ReplyPool.v ===== *)
(** * src/fs.rs: the reply pool, its clients and the actor task

    Many tasks call the client functions at the same time; one actor task
    serves them.  A task gets a token (a reply slot and a sequence number) from
    the pool, sends its request over the channel [REQ] and waits for the signal
    of its slot.  The primitives behind this are parameters (Embassy.v).  A
    [System] is all tasks, the pool, the channel and the actor; one step runs
    one of them to its next [await] or to its next access to a shared variable,
    so a schedule of steps is any interleaving the executors can produce. *)

From S2P Require Import Prelude Text Crates Errors Device Volume FsActor Embassy.
Open Scope Z_scope.

Record Token := { slot : Z; seq : Z }.
(** [sender] is a ghost: which task sent the request *)
Record Req := { op : Op; reply : option Token; sender : nat }.
Definition Answer : Type := Error + Resp.t.
Record ReplySignal := { signal_seq : Z; resp : Answer }.

(** the capacity of [REQ] *)
Definition REQ_CAPACITY : nat := 8.

Section Pool.
Context {sg : Signal ReplySignal} {sem : FairSemaphore}.

(** The static variables of the pool. *)
Record Pool := {
  reply_signals : list (signal_cell ReplySignal);
  free_slots : semaphore;
  slot_bitmap : Z;
  next_seq : Z;
}.
Definition ReplyPool_init : Pool := {|
  reply_signals := replicate REPLY_SLOTS signal_new; free_slots := semaphore_new REPLY_SLOTS;
  slot_bitmap := 0; next_seq := 1 |}.
Definition with_semaphore (s : semaphore) (p : Pool) : Pool := {|
  reply_signals := reply_signals p; free_slots := s; slot_bitmap := slot_bitmap p; next_seq := next_seq p |}.
Definition with_bitmap (b : Z) (p : Pool) : Pool := {|
  reply_signals := reply_signals p; free_slots := free_slots p; slot_bitmap := b; next_seq := next_seq p |}.
Definition with_signals (l : list (signal_cell ReplySignal)) (p : Pool) : Pool := {|
  reply_signals := l; free_slots := free_slots p; slot_bitmap := slot_bitmap p; next_seq := next_seq p |}.

(** [ReplyPool::acquire] between its suspension points: at the semaphore; with
    the guard of the permit, which the statement drops; at the mutex of the
    bitmap (claiming is one step, nothing is awaited under the lock); at the
    sequence counter. *)
Inductive Acquiring := AtSemaphore | WithGuard | AtMutex | AtSeq (slot : Z).
Inductive Acquired := Again (a : Acquiring) | GotToken (t : Token) | UnwrapPanics.

Definition acquire_step (task : nat) (a : Acquiring) (p : Pool) : Pool * Acquired :=
  match a with
  | AtSemaphore =>
      let '(s, r) := acquire task (free_slots p) in
      (with_semaphore s p,
       match r with
       | Granted => Again WithGuard
       | Pending => Again AtSemaphore
       | WaitQueueFull => UnwrapPanics
       end)
  | WithGuard => (with_semaphore (release (free_slots p)) p, Again AtMutex)
  | AtMutex =>
      let '(b, slot) := claim_slot_locked (slot_bitmap p) in
      (with_bitmap b p, Again (AtSeq slot))
  | AtSeq slot =>
      ({| reply_signals := reply_signals p; free_slots := free_slots p; slot_bitmap := slot_bitmap p;
          next_seq := wrapping_add u32 (next_seq p) 1 |},
       GotToken {| slot := slot; seq := next_seq p |})
  end.

(** [ReplyPool::wait]: at the signal, at the mutex, at the semaphore. *)
Inductive Waiting := AtSignal | AtRelease (a : Answer) | AtPermit (a : Answer).
Inductive Waited := WaitAgain (w : Waiting) | GotAnswer (a : Answer).

Definition wait_step (token : Token) (w : Waiting) (p : Pool) : option (Pool * Waited) :=
  match w with
  | AtSignal =>
      '(s, c) ← reply_signals p !! Z.to_nat (slot token) ≫= try_take;
      Some (with_signals (<[Z.to_nat (slot token) := c]> (reply_signals p)) p,
            WaitAgain (if signal_seq s =? seq token then AtRelease (resp s) else AtSignal))
  | AtRelease a => Some (with_bitmap (release_slot_locked (slot_bitmap p) (slot token)) p, WaitAgain (AtPermit a))
  | AtPermit a => Some (with_semaphore (release (free_slots p)) p, GotAnswer a)
  end.

(** [ReplyPool::complete]; slots are below 4, so the index is in range *)
Definition complete (token : Token) (resp : Answer) (p : Pool) : Pool :=
  with_signals (alter (signal {| signal_seq := seq token; resp := resp |}) (Z.to_nat (slot token))
                  (reply_signals p)) p.
End Pool.

(** ** Tasks and the actor *)

(** What a task does: call a client function, or drop a handle ([Drop] of
    [FileHandle] and [DirectoryHandle]). *)
Inductive Command := Call (op : Op) | DropFile (handle : Z) | DropDirectory (handle : Z).

Inductive Phase :=
  | Idle
  | Acquire (op : Op) (a : Acquiring)
  | Sending (op : Op) (t : Token)
  | Wait (op : Op) (t : Token) (w : Waiting)
  | Panicked.

Record Task := { program : list Command; phase : Phase; results : list (Op * Answer) }.
Definition task_new (program : list Command) : Task :=
  {| program := program; phase := Idle; results := [] |}.
Definition in_phase (ph : Phase) (t : Task) : Task :=
  {| program := program t; phase := ph; results := results t |}.

(** What [fs_actor_task] is at: receiving, in the handler of a request, putting
    the answer into its signal; [Stopped]: the handler panicked; [Looping]: it
    has not come back within the fuel of the model (a chain of clusters that
    runs in a circle keeps it for ever). *)
Inductive Actor :=
  | Receiving
  | Handling (r : Req)
  | Completing (t : Token) (a : Answer)
  | Stopped (r : Req)
  | Looping (r : Req).

Section System.
Context {cfg : Config} {crates : Crates} {bd : BlockDevice} {be : BlockDeviceError bd} {fu : Fuel}.
Context {ch : Channel Req} {sg : Signal ReplySignal} {sem : FairSemaphore}.

(** [log] is a ghost: the requests in the order they were served, with the task
    that waits for the answer and the answer. *)
Record System := {
  tasks : list Task;
  pool : Pool;
  REQ : channel Req;
  actor : Actor;
  manager : FsManager;
  log : list (option nat * Op * Answer);
}.
Definition system_new (programs : list (list Command)) (m : FsManager) : System := {|
  tasks := task_new <$> programs; pool := ReplyPool_init; REQ := channel_new; actor := Receiving;
  manager := m; log := [] |}.

(** task [k] goes on as [t], with the pool and the channel it leaves behind *)
Definition update_task (k : nat) (t : Task) (p : Pool) (c : channel Req) (s : System) : System := {|
  tasks := <[k := t]> (tasks s); pool := p; REQ := c; actor := actor s; manager := manager s; log := log s |}.

(** [REQ.try_send(req).ok()]: a request without reply, lost when the channel is full *)
Definition send_or_drop (k : nat) (op : Op) (c : channel Req) : channel Req :=
  default c (try_send {| op := op; reply := None; sender := k |} c).

(** The next step of task [k]; [None]: it waits, has ended or panicked. *)
Definition task_step (k : nat) (s : System) : option System :=
  t ← tasks s !! k;
  match phase t with
  | Idle =>
      match program t with
      | [] => None
      | Call op :: rest =>
          Some (update_task k {| program := rest; phase := Acquire op AtSemaphore; results := results t |}
                  (pool s) (REQ s) s)
      | DropFile h :: rest =>
          Some (update_task k {| program := rest; phase := Idle; results := results t |}
                  (pool s) (send_or_drop k (CloseFile h) (REQ s)) s)
      | DropDirectory h :: rest =>
          Some (update_task k {| program := rest; phase := Idle; results := results t |}
                  (pool s) (send_or_drop k (CloseDirectory h) (REQ s)) s)
      end
  | Acquire op a =>
      let '(p, r) := acquire_step k a (pool s) in
      Some (update_task k (in_phase (match r with
                                     | Again a => Acquire op a
                                     | GotToken token => Sending op token
                                     | UnwrapPanics => Panicked
                                     end) t) p (REQ s) s)
  | Sending op token =>
      c ← try_send {| op := op; reply := Some token; sender := k |} (REQ s);
      Some (update_task k (in_phase (Wait op token AtSignal) t) (pool s) c s)
  | Wait op token w =>
      '(p, r) ← wait_step token w (pool s);
      Some (update_task k (match r with
                           | WaitAgain w => in_phase (Wait op token w) t
                           | GotAnswer a => {| program := program t; phase := Idle; results := results t ++ [(op, a)] |}
                           end) p (REQ s) s)
  | Panicked => None
  end.

(** The next step of [fs_actor_task]; a request the handler panics on stops it,
    and so does an error of the task itself, which there is none of
    ([serve_no_error] of ActorProofs.v); from a handler that does not come back there
    is no next step. *)
Definition update_actor (a : Actor) (p : Pool) (c : channel Req) (s : System) : System := {|
  tasks := tasks s; pool := p; REQ := c; actor := a; manager := manager s; log := log s |}.
Definition waits_for (r : Req) : option nat := (λ _, sender r) <$> reply r.
Definition actor_step (s : System) : option System :=
  match actor s with
  | Receiving =>
      '(r, c) ← try_receive (REQ s);
      Some (update_actor (Handling r) (pool s) c s)
  | Handling r =>
      match serve (op r) (manager s) with
      | (m, Ok a) =>
          Some {| tasks := tasks s; pool := pool s; REQ := REQ s;
                  actor := match reply r with Some token => Completing token a | None => Receiving end;
                  manager := m; log := log s ++ [(waits_for r, op r, a)] |}
      | (m, Panic) | (m, Err _) =>
          Some {| tasks := tasks s; pool := pool s; REQ := REQ s; actor := Stopped r; manager := m; log := log s |}
      | (m, OutOfFuel) =>
          Some {| tasks := tasks s; pool := pool s; REQ := REQ s; actor := Looping r; manager := m; log := log s |}
      end
  | Completing token a => Some (update_actor Receiving (complete token a (pool s)) (REQ s) s)
  | Stopped _ | Looping _ => None
  end.

Inductive step (s s' : System) : Prop :=
  | step_task k : task_step k s = Some s' → step s s'
  | step_actor : actor_step s = Some s' → step s s'.

(** A schedule: which task goes next, or the actor. *)
Definition run_one (who : option nat) (s : System) : option System :=
  match who with Some k => task_step k s | None => actor_step s end.
Fixpoint run (schedule : list (option nat)) (s : System) : option System :=
  match schedule with
  | [] => Some s
  | who :: rest => s' ← run_one who s; run rest s'
  end.
End System.
