(* ===== verification/ActorProofs.v ===== *)
(** * Properties of the actor

    The handle tables, the protocol between clients and actor, the reply slots
    and the state of the manager. *)

From S2P Require Import Prelude Text Crates Errors Utils Timestamp BootSector Device SlotCache Touched Fat Allocation DirectoryEntry Volume Directory FileSystem File FileRead Api FsActor.

(** * Handle tables *)
Section Tables.
Context {T : Type}.
Implicit Types (h : Handles T) (x : T) (k : Z).

(** The handles tried from [start] on. *)
Definition candidate (start : Z) (i : nat) : Z := (start + 1 + Z.of_nat i) mod 2 ^ 32.

Lemma candidate_inj start (i j : nat) :
  Z.of_nat i < 2 ^ 32 → Z.of_nat j < 2 ^ 32 → candidate start i = candidate start j → i = j.
Proof. unfold candidate. intros. assert (Z.of_nat i = Z.of_nat j); [|lia]. dlia. Qed.

Lemma candidates_bound start (n : nat) h :
  Z.of_nat n ≤ 2 ^ 32 → (∀ i, (i < n)%nat → is_Some (handles h !! candidate start i)) →
  (n ≤ size (handles h))%nat.
Proof.
  intros Hn Hall. rewrite <-(size_dom (D:=gset Z)).
  assert (Hsub : list_to_set (candidate start <$> seq 0 n) ⊆ dom (D:=gset Z) (handles h)).
  { intros k. rewrite elem_of_list_to_set, list_elem_of_fmap, elem_of_dom.
    intros (i & -> & Hi%elem_of_seq). apply Hall. lia. }
  apply subseteq_size in Hsub. rewrite size_list_to_set in Hsub.
  - by rewrite length_fmap, length_seq in Hsub.
  - apply NoDup_fmap_2_strong; [|apply NoDup_seq].
    intros i j Hi%elem_of_seq Hj%elem_of_seq. apply candidate_inj; lia.
Qed.

Lemma add_loop_ok start n x (i : nat) h :
  next_handle h = (start + Z.of_nat i) mod 2 ^ 32 → Z.of_nat i < 2 ^ 32 - 1 →
  (∀ j, (j < i)%nat → is_Some (handles h !! candidate start j)) →
  (size (handles h) < i + n)%nat →
  (∃ k, add_loop n x (Z.of_nat i) h =
      ({| handles := <[k := x]> (handles h); next_handle := k |}, Ok k) ∧
    0 ≤ k < 2 ^ 32 ∧ handles h !! k = None) ∨
  (∃ h', add_loop n x (Z.of_nat i) h = (h', Err ActorError.ExhaustedFileHandles) ∧
    handles h' = handles h ∧ 2 ^ 32 - 1 ≤ Z.of_nat (size (handles h))).
Proof.
  revert i h. induction n as [|n IH]; intros i h Hnext Hi Hall Hsize.
  { pose proof (candidates_bound start i h ltac:(lia) Hall). lia. }
  cbn [add_loop]. assert (Hk : wrapping_add u32 (next_handle h) 1 = candidate start i).
  { unfold wrapping_add, cast, candidate. rewrite Hnext. dlia. }
  rewrite Hk. assert (Hr : 0 ≤ candidate start i < 2 ^ 32) by (apply Z.mod_pos_bound; lia).
  destruct (handles h !! candidate start i) eqn:Ho; [|left; eauto].
  assert (Hall' : ∀ j, (j < S i)%nat → is_Some (handles h !! candidate start j)).
  { intros j Hj. destruct (decide (j = i)) as [->|]; [by rewrite Ho|apply Hall; lia]. }
  unfold umax. destruct (Z.eqb_spec (Z.of_nat i + 1) (2 ^ u32 - 1)) as [He|Hne].
  - right. eexists. split_and!; [done|done|].
    pose proof (candidates_bound start (S i) h ltac:(lia) Hall'). lia.
  - replace (Z.of_nat i + 1) with (Z.of_nat (S i)) by lia.
    apply (IH (S i) {| handles := handles h; next_handle := candidate start i |}); cbn.
    + unfold candidate. f_equal. lia.
    + lia.
    + done.
    + lia.
Qed.

(** a new handle is never one that is in use: [add] always terminates
    and either stores the item under a 32-bit handle that was free, leaving
    every other handle as it was, or reports [ExhaustedFileHandles] with the
    table unchanged, and then at least 2^32 - 1 handles are open; handles wrap
    around at 2^32 without clashing.  [get] then finds the item and [remove]
    takes it out again, leaving the table as it was before. *)
Theorem add_returns_fresh_handle x h :
  0 ≤ next_handle h < 2 ^ 32 →
  (∃ k h', add x h = (h', Ok k) ∧ handles h !! k = None ∧ 0 ≤ k < 2 ^ 32 ∧
     handles h' = <[k := x]> (handles h) ∧ 0 ≤ next_handle h' < 2 ^ 32 ∧
     get k h' = (h', Ok x) ∧ handles (fst (remove k h')) = handles h ∧ snd (remove k h') = Ok x) ∨
  (∃ h', add x h = (h', Err ActorError.ExhaustedFileHandles) ∧ handles h' = handles h ∧
     2 ^ 32 - 1 ≤ Z.of_nat (size (handles h))).
Proof.
  intros Hn. unfold add. change (add_loop _ x 0 h) with (add_loop (S (size (handles h))) x (Z.of_nat 0) h).
  destruct (add_loop_ok (next_handle h) (S (size (handles h))) x 0 h)
    as [(k & -> & Hk & Hfree)|(h' & -> & ? & ?)];
    [rewrite Z.add_0_r; symmetry; by apply Z.mod_small|lia|lia|lia| |right; eauto].
  left. exists k. eexists. split; [done|]. cbn. unfold get, remove. cbn.
  rewrite lookup_insert_eq. cbn. by rewrite delete_insert_id.
Qed.
End Tables.

(** ** Reply slots *)

(** the slots of the reply pool: as long as one of the four slots is
    free, claiming returns a free slot and marks it and no other; releasing it
    restores the bitmap, so a slot is never given to two waiting clients. *)
Theorem claimed_slot_is_exclusive bitmap :
  0 ≤ bitmap < 15 →
  let '(bitmap', slot) := claim_slot_locked bitmap in
  0 ≤ slot < 4 ∧ Z.testbit bitmap slot = false ∧ bitmap' = Z.lor bitmap (2 ^ slot) ∧
  0 ≤ bitmap' < 16 ∧ release_slot_locked bitmap' slot = bitmap.
Proof.
  intros Hb. assert (Hin : bitmap ∈ seqZ 0 15) by (apply elem_of_seqZ; lia).
  clear Hb. revert bitmap Hin. apply Forall_forall.
  repeat (apply Forall_cons_2; [vm_compute; repeat split; discriminate || reflexivity|]).
  apply Forall_nil_2.
Qed.

(** * The protocol *)
Section Protocol.
Context {cfg : Config} {crates : Crates} {bd : BlockDevice} {be : BlockDeviceError bd} {fu : Fuel}.
Implicit Types (m : FsManager).

(** The client functions of the interface. *)
Inductive is_client : ∀ {A}, Client A → Prop :=
  | is_open p o : is_client (client_open p o)
  | is_file_read h buf : is_client (client_file_read h buf)
  | is_file_read_to_end h : is_client (client_file_read_to_end h)
  | is_file_read_to_string h : is_client (client_file_read_to_string h)
  | is_file_write h buf c : client_file_write h buf = Some c → is_client c
  | is_seek h p : is_client (client_seek h p)
  | is_metadata h : is_client (client_metadata h)
  | is_close h : is_client (client_close h)
  | is_flush h : is_client (client_flush h)
  | is_next_entry h : is_client (client_next_entry h)
  | is_read_to_string p : is_client (client_read_to_string p)
  | is_read p : is_client (client_read p)
  | is_read_dir p : is_client (client_read_dir p)
  | is_exists p : is_client (client_exists p)
  | is_remove_file p : is_client (client_remove_file p)
  | is_create_directory p : is_client (client_create_directory p)
  | is_copy p q : is_client (client_copy p q)
  | is_rename p q : is_client (client_rename p q)
  | is_remove_directory p : is_client (client_remove_directory p)
  | is_write p b : is_client (client_write p b)
  | is_shutdown : is_client client_shutdown.

(** The answer each request gets. *)
Definition answers (op : Op) (r : Resp.t) : bool :=
  match op, r with
  | (ReadToString _ | ReadFileToString _), Resp.ReadToString _ => true
  | (Read _ | ReadFile _ _ | ReadFileToEnd _), Resp.Read _ => true
  | OpenFile _ _, Resp.FileOpen _ => true
  | GetMetadata _, Resp.Metadata _ => true
  | OpenDirectory _, Resp.DirectoryOpen _ => true
  | DirectoryNextEntry _, Resp.DirectoryEntry _ => true
  | Exists _, Resp.Exists _ => true
  | (WriteFile _ _ | SeekFile _ _ | CloseFile _ | FlushFile _ | RemoveFile _ | CreateDirectory _
     | Copy _ _ | Rename _ _ | RemoveDir _ | Write _ _ | CloseDirectory _ | Shutdown), Resp.Ok => true
  | _, _ => false
  end.

Ltac last_step H :=
  repeat (apply bind_Ok_inv in H as (? & ? & _ & H)); unfold mret, M_ret in H; by simplify_eq.
Lemma dispatch_answers op m m' r : dispatch op m = (m', Ok r) → answers op r.
Proof. destruct op; cbn [dispatch]; intros H; try last_step H; unfold mret, M_ret in H; by simplify_eq. Qed.
Lemma handle_req_answers op m m' r : handle_req op m = (m', Ok r) → answers op r.
Proof.
  intros H. assert (op = Shutdown ∨ op ≠ Shutdown) as [->|Hne] by (destruct op; auto).
  - unfold handle_req in H. last_step H.
  - assert (Hd : (convert mgr_mount ;; dispatch op) m = (m', Ok r)) by by destruct op.
    apply bind_Ok_inv in Hd as (? & ? & _ & Hd). by eapply dispatch_answers.
Qed.

(** C37 - clients and actor agree on the protocol: whatever a client function
    asks for, an answer of the actor is one that this client function accepts;
    [UnexpectedResponse] never happens. *)
Theorem responses_match {A} (c : Client A) m m' r :
  is_client c → handle_req (request c) m = (m', Ok r) →
  accept c r ≠ Err ActorError.UnexpectedResponse.
Proof.
  intros Hc H%handle_req_answers. destruct Hc; cbn in *; try (by destruct r);
    try (destruct r; try done; cbn in *; unfold copy_into; by repeat case_match).
  unfold client_file_write in *. case_match; [done|]. simplify_eq. cbn in *. by destruct r.
Qed.
End Protocol.

(** * The manager *)
Section Manager.
Context {cfg : Config} {crates : Crates} {bd : BlockDevice} {be : BlockDeviceError bd} {fu : Fuel}.
Implicit Types (m : FsManager).

(** The manager has either the device, with no handle open, or a file system
    on it. *)
Definition mgr_mounted m : Prop := mgr_dev m = None ∧ is_Some (file_system m).
Definition mgr_unmounted m : Prop :=
  is_Some (mgr_dev m) ∧ file_system m = None ∧ handles (files m) = ∅ ∧ handles (directories m) = ∅.
Definition mgr_ok m : Prop := mgr_mounted m ∨ mgr_unmounted m.

(** An action keeps a property of the manager, however it ends. *)
Definition keeps {E A} (P : FsManager → Prop) (c : M FsManager E A) : Prop :=
  ∀ m, P m → P (fst (c m)).

Lemma keeps_ret {E A} P (a : A) : keeps (E:=E) P (mret a).
Proof. by intros m. Qed.
Lemma keeps_bind {E A B} P (c : M FsManager E A) (k : A → M FsManager E B) :
  keeps P c → (∀ a, keeps P (k a)) → keeps P (c ≫= k).
Proof.
  intros Hc Hk m Hm. specialize (Hc m Hm). unfold mbind, M_bind.
  destruct (c m) as [m' [a|e| |]]; try done. by apply Hk.
Qed.
Lemma keeps_modify {E} P (g : FsManager → FsManager) :
  (∀ m, P m → P (g m)) → keeps P (modify (E:=E) g).
Proof. by intros Hg m Hm; apply Hg. Qed.

Lemma keeps_on_fs {A} (c : M FileSystem err A) : keeps mgr_mounted (on_fs c).
Proof.
  intros m [Hd [f Hf]]. unfold on_fs. rewrite Hf. destruct (c f) as [f' r]. split; [done|]. by eexists.
Qed.
Lemma keeps_on_file {A} h (c : M (File * FileSystem) err A) : keeps mgr_mounted (on_file h c).
Proof.
  intros m [Hd [f Hf]]. unfold on_file. rewrite Hf. destruct (handles (files m) !! h); [|by split].
  destruct (c _) as [[file f'] r]. split; [done|]. by eexists.
Qed.
Lemma keeps_on_dir {A} h (c : M (Chain.t * FileSystem) err A) : keeps mgr_mounted (on_dir h c).
Proof.
  intros m [Hd [f Hf]]. unfold on_dir. rewrite Hf. destruct (handles (directories m) !! h); [|by split].
  destruct (c _) as [[dir f'] r]. split; [done|]. by eexists.
Qed.
Lemma keeps_files {A} (c : M (Handles File) Error A) : keeps mgr_mounted (zoom lfiles c).
Proof. intros m Hm. unfold zoom. destruct (c _) as [h r]. exact Hm. Qed.
Lemma keeps_dirs {A} (c : M (Handles Chain.t) Error A) : keeps mgr_mounted (zoom ldirs c).
Proof. intros m Hm. unfold zoom. destruct (c _) as [h r]. exact Hm. Qed.
#[local] Hint Resolve keeps_ret keeps_bind keeps_on_fs keeps_on_file keeps_on_dir keeps_files
  keeps_dirs : exfat.

Lemma dispatch_keeps_mounted op : keeps mgr_mounted (dispatch op).
Proof. destruct op; cbn [dispatch]; auto 8 with exfat. Qed.

(** How an action that may mount or unmount ends. *)
Definition ends {E A} (Q : FsManager → A → Prop) (R : FsManager → E → Prop)
    (p : FsManager * outcome E A) : Prop :=
  match p with
  | (m, Ok a) => Q m a
  | (m, Err e) => R m e
  | _ => True
  end.
Lemma ends_bind {E A B} (Q : FsManager → A → Prop) (R : FsManager → E → Prop)
    (Q' : FsManager → B → Prop) (c : M FsManager E A) (k : A → M FsManager E B) m :
  ends Q R (c m) → (∀ m a, Q m a → ends Q' R (k a m)) → ends Q' R ((c ≫= k) m).
Proof. unfold mbind, M_bind. intros Hc Hk. destruct (c m) as [m' [a|e| |]]; try done. by apply Hk. Qed.
Lemma ends_convert {A} (Q : FsManager → A → Prop) (R : FsManager → Prop) (c : M FsManager err A) m :
  ends Q (λ m _, R m) (c m) → ends Q (λ m _, R m) (convert c m).
Proof. unfold convert. by destruct (c m) as [m' [a|e| |]]. Qed.

Lemma mgr_mount_ends m : mgr_ok m → ends (λ m _, mgr_mounted m) (λ m _, mgr_ok m) (mgr_mount m).
Proof.
  intros [[Hd [f Hf]]|([d Hd] & Hf & H1 & H2)]; unfold mgr_mount; rewrite Hd.
  - rewrite Hf. cbn. split; [done|]. by eexists.
  - destruct (Volume.mount (fresh_fs d m)) as [f [[]|e| |]]; try done.
    destruct (unmount f) as [f' [d'|e'| |]]; try done; cbn.
    right. split_and!; [by eexists|done..].
Qed.

Lemma unmount_no_error f e : snd (unmount (bd:=bd) f) ≠ Err e.
Proof. unfold unmount, try_, mbind, M_bind, gets. by destruct (Volume.flush f) as [f' [[]|e'| |]]. Qed.

Lemma mgr_unmount_ends m :
  mgr_ok m → ends (λ m _, mgr_unmounted m) (λ _ _, False) (mgr_unmount m).
Proof.
  intros [[Hd [f Hf]]|(Hd & Hf & H1 & H2)]; unfold mgr_unmount; rewrite Hf; [|done].
  pose proof (unmount_no_error f) as Hne. destruct (unmount f) as [f' [d|e| |]]; try done.
  by destruct (Hne e).
Qed.

(** The task never stops with an error: [FsManager::unmount] has none. *)
Lemma serve_no_error op m m' e : serve op m ≠ (m', Err e).
Proof.
  unfold serve, try_, mbind, M_bind. destruct (handle_req op m) as [m1 [r|x| |]]; cbn; try done.
  destruct x; try done. unfold convert, mgr_unmount. destruct (file_system m1) as [f|]; [|done].
  pose proof (unmount_no_error f) as Hne. destruct (unmount f) as [f' [d|x| |]]; try done. by destruct (Hne x).
Qed.

Lemma close_all_ends n e m : mgr_ok m → ends (λ m _, mgr_ok m) (λ _ _, False) (close_all n e m).
Proof.
  revert e m. induction n as [|n IH]; intros e m Hm; [done|]. cbn [close_all].
  destruct (file_system m) as [f|] eqn:Hf; [|done].
  destruct (take_any (files m)) as [h [file|]]; [|done].
  destruct (File.flush (file, f)) as [[file' f'] r].
  assert (Hm' : mgr_ok (with_fs (mgr_dev m) (Some f') (mgr_clock m) (put lfiles h m))).
  { destruct Hm as [[Hd _]|(_ & Hn & _)]; [|congruence]. left. split; [done|by eexists]. }
  destruct r; try done; by apply IH.
Qed.

Lemma mgr_shutdown_ends m :
  mgr_ok m → ends (λ m _, mgr_unmounted m) (λ m _, mgr_unmounted m) (mgr_shutdown m).
Proof.
  intros Hm. unfold mgr_shutdown.
  rewrite (bind_Ok (gets _) _ _ m (size (handles (files m)))) by done.
  eapply (ends_bind (λ m _, mgr_ok m) (λ m _, mgr_unmounted m)).
  { pose proof (close_all_ends (S (size (handles (files m)))) None m Hm) as H.
    revert H. unfold ends. by destruct (close_all _ _ m) as [? []]. }
  intros m2 e Hm2. eapply (ends_bind (λ m _, mgr_ok m)).
  { cbn. destruct Hm2 as [[Hd [f Hf]]|(Hd & Hf & Hh)]; rewrite Hf; [left|right]; [|done].
    split; [done|by eexists]. }
  intros m3 _ Hm3. eapply (ends_bind (λ m _, mgr_unmounted m)).
  { pose proof (mgr_unmount_ends m3 Hm3) as H. revert H. unfold ends.
    by destruct (mgr_unmount m3) as [? []]. }
  intros m4 _ Hm4. by destruct e.
Qed.

(** The [NoCard] case of the task: the card is given back to [mount]. *)
Lemma handle_req_ends op m : mgr_ok m → ends (λ m _, mgr_ok m) (λ m _, mgr_ok m) (handle_req op m).
Proof.
  intros Hm. assert (op = Shutdown ∨ op ≠ Shutdown) as [->|Hne] by (destruct op; auto).
  - unfold handle_req. eapply (ends_bind (λ m _, mgr_ok m)); [|by intros ? _ ?].
    apply ends_convert. pose proof (mgr_shutdown_ends m Hm) as H. unfold ends in *.
    destruct (mgr_shutdown m) as [m' []]; try done; by right.
  - assert (Hd : handle_req op m = (convert mgr_mount ;; dispatch op) m) by by destruct op.
    rewrite Hd. eapply (ends_bind (λ m _, mgr_mounted m)).
    + apply ends_convert. by apply mgr_mount_ends.
    + intros m1 _ Hm1. pose proof (dispatch_keeps_mounted op m1 Hm1) as Hk. unfold ends.
      destruct (dispatch op m1) as [m' []]; try done; by left.
Qed.

(** One round of the task, from a consistent manager. *)
Lemma serve_ends op m :
  mgr_ok m →
  match serve op m with
  | (m', Ok answer) =>
      mgr_ok m' ∧ (answer = inl ActorError.NoCard ∨ op = Shutdown → mgr_unmounted m')
  | (_, Err _) => False
  | _ => True
  end.
Proof.
  intros Hm. unfold serve, try_, mbind, M_bind. pose proof (handle_req_ends op m Hm) as H.
  assert (Hs : op = Shutdown → ends (λ m _, mgr_unmounted m) (λ m _, mgr_unmounted m) (handle_req op m)).
  { intros ->. cbn. pose proof (mgr_shutdown_ends m Hm) as Hsd. revert Hsd.
    unfold convert, mbind, M_bind, ends. by destruct (mgr_shutdown m) as [m' []]. }
  destruct (handle_req op m) as [m' [r|e| |]]; cbn in *; try done.
  - split; [done|]. intros [?|?]; [done|auto].
  - destruct e;
      try (split; [exact H|intros [Hno|Hsd]; [discriminate Hno|exact (Hs Hsd)]]).
    pose proof (mgr_unmount_ends m' H) as Hu. unfold convert, ends in *.
    destruct (mgr_unmount m') as [m2 []]; try done. cbn. split; [by right|done].
Qed.

(** C35 - the state machine of the actor: from its initial state on, after every
    request the manager holds either the device with no handle open, or a file
    system mounted on it; after [NoCard] and after [Shutdown] (even when closing
    a file failed) it holds the device and every handle is gone, so a handle
    never survives the card it belongs to; the task itself never stops with an
    error. *)
Theorem manager_stays_consistent op m d p :
  mgr_ok (FsManager_new d p) ∧
  (mgr_ok m →
   match serve op m with
   | (m', Ok answer) =>
       mgr_ok m' ∧ (answer = inl ActorError.NoCard ∨ op = Shutdown → mgr_unmounted m')
   | (_, Err _) => False
   | _ => True
   end).
Proof. split; [right; split_and!; [by eexists|done..]|apply serve_ends]. Qed.

(** ** Handles do not interfere *)

(** The file or directory handle a request is about. *)
Definition file_target (op : Op) : option Z :=
  match op with
  | ReadFile h _ | ReadFileToEnd h | ReadFileToString h | WriteFile h _ | SeekFile h _
  | CloseFile h | FlushFile h | GetMetadata h => Some h
  | _ => None
  end.
Definition dir_target (op : Op) : option Z :=
  match op with DirectoryNextEntry h | CloseDirectory h => Some h | _ => None end.

(** The manager is mounted and the file [file] (directory [dir]) is open under [k]. *)
Definition file_open k (file : File) m : Prop := mgr_mounted m ∧ handles (files m) !! k = Some file.
Definition dir_open k (dir : Chain.t) m : Prop := mgr_mounted m ∧ handles (directories m) !! k = Some dir.

Lemma add_keeps {T} (x y : T) k h :
  handles h !! k = Some y → handles (fst (add x h)) !! k = Some y.
Proof.
  unfold add. generalize (S (size (handles h))) at 1. generalize 0. intros c n. revert c h.
  induction n as [|n IH]; intros c h Hk; [done|]. cbn [add_loop].
  destruct (handles h !! wrapping_add u32 (next_handle h) 1) eqn:Ho.
  - case_match; [done|]. by apply IH.
  - cbn. rewrite lookup_insert_ne; [done|]. intros <-. congruence.
Qed.

Lemma keeps_on_fs_open {A} P (c : M FileSystem err A) :
  (∀ m f, P m → mgr_mounted m → P (with_fs (mgr_dev m) (Some f) (mgr_clock m) m)) →
  (∀ m, P m → mgr_mounted m) → keeps P (on_fs c).
Proof.
  intros HP Hmt m Hm. unfold on_fs. pose proof (Hmt m Hm) as [_ [f Hf]]. rewrite Hf.
  destruct (c f) as [f' r]. by apply HP, Hmt.
Qed.

Lemma on_fs_file_open {A} k file (c : M FileSystem err A) : keeps (file_open k file) (on_fs c).
Proof.
  intros m [Hm Hk]. split; [by apply keeps_on_fs|]. unfold on_fs.
  destruct (file_system m); [|done]. by destruct (c _).
Qed.
Lemma on_fs_dir_open {A} k dir (c : M FileSystem err A) : keeps (dir_open k dir) (on_fs c).
Proof.
  intros m [Hm Hk]. split; [by apply keeps_on_fs|]. unfold on_fs.
  destruct (file_system m); [|done]. by destruct (c _).
Qed.
Lemma on_file_other {A} k file h (c : M (File * FileSystem) err A) :
  h ≠ k → keeps (file_open k file) (on_file h c).
Proof.
  intros Hne m [Hm Hk]. split; [by apply keeps_on_file|]. unfold on_file.
  destruct (handles (files m) !! h), (file_system m); try done.
  destruct (c _) as [[x f'] r]. cbn. by rewrite lookup_insert_ne.
Qed.
Lemma on_file_dir_open {A} k dir h (c : M (File * FileSystem) err A) :
  keeps (dir_open k dir) (on_file h c).
Proof.
  intros m [Hm Hk]. split; [by apply keeps_on_file|]. unfold on_file.
  destruct (handles (files m) !! h), (file_system m); try done. by destruct (c _) as [[x f'] r].
Qed.
Lemma on_dir_other {A} k dir h (c : M (Chain.t * FileSystem) err A) :
  h ≠ k → keeps (dir_open k dir) (on_dir h c).
Proof.
  intros Hne m [Hm Hk]. split; [by apply keeps_on_dir|]. unfold on_dir.
  destruct (handles (directories m) !! h), (file_system m); try done.
  destruct (c _) as [[x f'] r]. cbn. by rewrite lookup_insert_ne.
Qed.
Lemma on_dir_file_open {A} k file h (c : M (Chain.t * FileSystem) err A) :
  keeps (file_open k file) (on_dir h c).
Proof.
  intros m [Hm Hk]. split; [by apply keeps_on_dir|]. unfold on_dir.
  destruct (handles (directories m) !! h), (file_system m); try done. by destruct (c _) as [[x f'] r].
Qed.
Lemma files_dir_open {A} k dir (c : M (Handles File) Error A) : keeps (dir_open k dir) (zoom lfiles c).
Proof. intros m Hm. unfold zoom. by destruct (c _). Qed.
Lemma dirs_file_open {A} k file (c : M (Handles Chain.t) Error A) :
  keeps (file_open k file) (zoom ldirs c).
Proof. intros m Hm. unfold zoom. by destruct (c _). Qed.
Lemma files_other {A} k file (c : M (Handles File) Error A) :
  (∀ h, handles h !! k = Some file → handles (fst (c h)) !! k = Some file) →
  keeps (file_open k file) (zoom lfiles c).
Proof.
  intros Hc m [Hm Hk]. split; [by apply keeps_files|]. specialize (Hc _ Hk). unfold zoom. cbn in *.
  by destruct (c _).
Qed.
Lemma dirs_other {A} k dir (c : M (Handles Chain.t) Error A) :
  (∀ h, handles h !! k = Some dir → handles (fst (c h)) !! k = Some dir) →
  keeps (dir_open k dir) (zoom ldirs c).
Proof.
  intros Hc m [Hm Hk]. split; [by apply keeps_dirs|]. specialize (Hc _ Hk). unfold zoom. cbn in *.
  by destruct (c _).
Qed.
Lemma remove_other {T} (y : T) k h x : h ≠ k → handles x !! k = Some y →
  handles (fst (remove h x)) !! k = Some y.
Proof. intros. unfold remove. case_match; [cbn; by rewrite lookup_delete_ne|done]. Qed.
Lemma get_same {T} (y : T) k h x : handles x !! k = Some y → handles (fst (get h x)) !! k = Some y.
Proof. done. Qed.
#[local] Hint Resolve on_fs_file_open on_fs_dir_open on_file_other on_file_dir_open on_dir_other
  on_dir_file_open files_dir_open dirs_file_open files_other dirs_other add_keeps remove_other
  get_same : exfat.

Lemma dispatch_other_file op k file : file_target op ≠ Some k → keeps (file_open k file) (dispatch op).
Proof.
  intros Hne. assert (Hh : ∀ h, file_target op = Some h → h ≠ k) by congruence.
  destruct op; cbn [dispatch file_target] in *; try specialize (Hh _ eq_refl); auto 9 with exfat.
Qed.
Lemma dispatch_other_dir op k dir : dir_target op ≠ Some k → keeps (dir_open k dir) (dispatch op).
Proof.
  intros Hne. assert (Hh : ∀ h, dir_target op = Some h → h ≠ k) by congruence.
  destruct op; cbn [dispatch dir_target] in *; try specialize (Hh _ eq_refl); auto 9 with exfat.
Qed.
Lemma mounted_handle_req op m :
  mgr_mounted m → op ≠ Shutdown → handle_req op m = dispatch op m.
Proof.
  intros [Hd [f Hf]] Hne.
  assert (Hr : handle_req op m = (convert mgr_mount ;; dispatch op) m) by by destruct op.
  rewrite Hr. unfold convert, mgr_mount, mbind, M_bind. by rewrite Hd, Hf.
Qed.

(** The handler of a request other than [Shutdown]. *)
Lemma handle_req_other op m k :
  mgr_mounted m → op ≠ Shutdown →
  let m' := fst (handle_req op m) in
  mgr_mounted m' ∧
  (∀ file, handles (files m) !! k = Some file → file_target op ≠ Some k →
     handles (files m') !! k = Some file) ∧
  (∀ dir, handles (directories m) !! k = Some dir → dir_target op ≠ Some k →
     handles (directories m') !! k = Some dir) ∧
  (file_target op = Some k ∧ handles (files m) !! k = None ∨
   dir_target op = Some k ∧ handles (directories m) !! k = None →
     handle_req op m = (m, Err ActorError.InvalidFileHandle)) ∧
  (op = CloseFile k → handles (files m') !! k = None).
Proof.
  intros Hm Hne. rewrite mounted_handle_req by done. split_and!.
  - by apply dispatch_keeps_mounted.
  - intros file Hk Ht. by apply (dispatch_other_file op k file).
  - intros dir Hk Ht. by apply (dispatch_other_dir op k dir).
  - destruct m as [? ? ? ? ? ?].
    intros [[Ht Hn]|[Ht Hn]]; destruct op; cbn in Ht; simplify_eq; cbn in Hn;
      cbn [dispatch]; unfold on_file, on_dir, zoom, remove, get, mbind, M_bind; cbn; by rewrite Hn.
  - intros ->. destruct Hm as [Hd [f Hf]]. cbn [dispatch].
    unfold zoom, remove, on_fs, mbind, M_bind, mret, M_ret. cbn.
    destruct (handles (files m) !! k) eqn:Hk; cbn; [|done]. rewrite Hf.
    destruct (with_local f0 File.flush f) as [f' []]; cbn; by rewrite lookup_delete_eq.
Qed.

(** Only [NoCard] changes the manager after the handler. *)
Lemma serve_keeps op m m' answer :
  serve op m = (m', Ok answer) → answer ≠ inl ActorError.NoCard → m' = fst (handle_req op m).
Proof.
  unfold serve, try_, mbind, M_bind. destruct (handle_req op m) as [m1 [r|e| |]]; cbn; [by intros [= <- _]| |done|done].
  destruct e; try by intros [= <- _]. unfold convert. destruct (mgr_unmount m1) as [m2 []]; try done.
  intros [= _ <-] Hne. by destruct Hne.
Qed.

(** C36 - requests only touch the handle they name, on a mounted file system.
    While the handler of a request other than [Shutdown] runs, every open file
    and directory other than the one the request is about stays open under its
    handle, unchanged, however the request ends; a file or directory handle that
    is not open is refused with [InvalidFileHandle] and nothing changes; once a
    file has been closed its handle is gone, even when flushing it failed.  The
    same holds after the whole round of the task, answer included, unless the
    request was [Shutdown] or the answer is [NoCard]: then no handle at all is
    left. *)
Theorem handles_do_not_interfere op m k :
  mgr_mounted m →
  (op ≠ Shutdown →
   let m' := fst (handle_req op m) in
   mgr_mounted m' ∧
   (∀ file, handles (files m) !! k = Some file → file_target op ≠ Some k →
      handles (files m') !! k = Some file) ∧
   (∀ dir, handles (directories m) !! k = Some dir → dir_target op ≠ Some k →
      handles (directories m') !! k = Some dir) ∧
   (file_target op = Some k ∧ handles (files m) !! k = None ∨
    dir_target op = Some k ∧ handles (directories m) !! k = None →
      handle_req op m = (m, Err ActorError.InvalidFileHandle)) ∧
   (op = CloseFile k → handles (files m') !! k = None)) ∧
  (∀ m' answer, serve op m = (m', Ok answer) →
   (op = Shutdown ∨ answer = inl ActorError.NoCard →
      handles (files m') = ∅ ∧ handles (directories m') = ∅) ∧
   (op ≠ Shutdown → answer ≠ inl ActorError.NoCard →
      mgr_mounted m' ∧
      (∀ file, handles (files m) !! k = Some file → file_target op ≠ Some k →
         handles (files m') !! k = Some file) ∧
      (∀ dir, handles (directories m) !! k = Some dir → dir_target op ≠ Some k →
         handles (directories m') !! k = Some dir) ∧
      (op = CloseFile k → handles (files m') !! k = None))).
Proof.
  intros Hm. split; [by apply handle_req_other|]. intros m' answer Hs. split.
  - intros Hgone. pose proof (serve_ends op m (or_introl Hm)) as H. rewrite Hs in H.
    destruct H as [_ H]. destruct H as (? & ? & ? & ?); [tauto|done].
  - intros Hne Hcard. pose proof (handle_req_other op m k Hm Hne) as (H1 & H2 & H3 & _ & H4).
    by rewrite (serve_keeps op m m' answer Hs Hcard).
Qed.
End Manager.

(** * Reading through the actor *)
Section ActorRead.
Context {cfg : Config} {crates : Crates} {bd : BlockDevice} {be : BlockDeviceError bd} {fu : Fuel}.

(** An action on a buffer and the rest of a state keeps the buffer's length. *)
Definition keeps_length {S A} (c : M (list Z * S) err A) : Prop :=
  ∀ s, length (fst (fst (c s))) = length (fst s).

Lemma keeps_length_bind {S A B} (c : M (list Z * S) err A) (k : A → M (list Z * S) err B) :
  keeps_length c → (∀ a, keeps_length (k a)) → keeps_length (c ≫= k).
Proof.
  intros Hc Hk s. specialize (Hc s). unfold mbind, M_bind.
  destruct (c s) as [s' [a|e| |]]; try done. rewrite Hk. exact Hc.
Qed.
Lemma keeps_length_ret {S A} (a : A) : keeps_length (S:=S) (mret a).
Proof. done. Qed.
Lemma keeps_length_lift {S A} (o : outcome err A) : keeps_length (S:=S) (lift o).
Proof. done. Qed.
Lemma keeps_length_gets {S A} (g : list Z * S → A) : keeps_length (gets g).
Proof. done. Qed.
Lemma keeps_length_lsnd {S A} (c : M S err A) : keeps_length (zoom lsnd c).
Proof. intros s. unfold zoom. by destruct (c _). Qed.
Lemma keeps_length_copy {S} (a b : Z) (src : list Z) (k : Z) :
  keeps_length (S:=S) (buf ← gets fst; buf ← lift (copy_into buf a b src);
    modify (λ s, (buf, snd s)) ;; mret k).
Proof.
  intros [buf s]. rewrite (bind_Ok (gets fst) _ _ (buf, s) buf) by done. unfold copy_into.
  destruct (_ && _) eqn:Hb; [|done]. rewrite bind_lift_Ok. cbn. apply length_splice; lia.
Qed.
#[local] Hint Resolve keeps_length_ret keeps_length_lift keeps_length_gets
  keeps_length_lsnd keeps_length_copy : exfat.

(** Splits an action into its steps, and a branch into its cases; a copy into
    the buffer is one step. *)
#[local] Ltac keep_len :=
  repeat first
    [ apply keeps_length_copy | solve [auto with exfat]
    | apply keeps_length_bind; [|intros ?] | case_match ].

Lemma read_step_length n : keeps_length (read_step n).
Proof. unfold read_step. keep_len. Qed.
Lemma read_loop_length n k : keeps_length (read_loop n k).
Proof.
  revert k. induction n as [|n IH]; intros k; [done|]. cbn [read_loop].
  apply keeps_length_bind; [apply read_step_length|intros ?]. by keep_len.
Qed.
Lemma read_length : keeps_length File.read.
Proof.
  unfold File.read. keep_len; [done|apply read_loop_length].
Qed.

Lemma with_local_length {S A} (b : list Z) (c : M (list Z * S) err A) (s s' : S) r :
  keeps_length c → with_local b c s = (s', Ok r) → length (fst r) = length b.
Proof.
  intros Hk H. specialize (Hk (b, s)). unfold with_local in H.
  destruct (c (b, s)) as [[b' s''] [a|e| |]]; cbn in *; simplify_eq. exact Hk.
Qed.
Lemma on_file_Ok {A} h (c : M (File * FileSystem) err A) m m' r :
  on_file h c m = (m', Ok r) → ∃ s s', c s = (s', Ok r).
Proof.
  unfold on_file. intros H. repeat case_match; simplify_eq.
  repeat match goal with o : outcome _ _ |- _ => destruct o; cbn in *; simplify_eq end; eauto.
Qed.

(** What the actor answers to a read always fills the caller's buffer. *)
Lemma read_file_answer h l m m' r :
  handle_req (ReadFile h l) m = (m', Ok r) → ∃ data, r = Resp.Read data ∧ length data = Z.to_nat l.
Proof.
  intros H. unfold handle_req in H. apply bind_Ok_inv in H as (? & ? & _ & H).
  cbn [dispatch] in H. apply bind_Ok_inv in H as (m1 & a & H & Hr).
  unfold mret, M_ret in Hr. simplify_eq. apply on_file_Ok in H as (s & s' & H).
  eexists. split; [done|]. erewrite with_local_length; [|apply read_length|exact H].
  unfold zeros. apply length_replicate.
Qed.

(** through the actor a read never reports the end of the file: whenever
    the actor answers a client's [read] into a non-empty buffer, the client
    returns [Some] of the whole buffer's length, and replaces the buffer, even
    where the file gave fewer bytes or none. The actor drops the count and
    sends its zero-filled buffer, of the length asked for. *)
Theorem actor_read_hides_end_of_file h buf m m' r :
  buf ≠ [] → handle_req (request (client_file_read h buf)) m = (m', Ok r) →
  ∃ data, r = Resp.Read data ∧ accept (client_file_read h buf) r = Ok (data, Some (len buf)).
Proof.
  intros Hne H. cbn in H. apply read_file_answer in H as (data & -> & Hl).
  assert (Hlen : len data = len buf) by (unfold len in *; lia).
  assert (Hpos : len buf ≠ 0) by (unfold len; destruct buf; [done|cbn; lia]).
  exists data. split; [done|]. cbn. rewrite Hlen. rewrite (proj2 (Z.eqb_neq _ _)) by lia.
  rewrite copy_into_ok by lia. cbn. unfold splice.
  rewrite drop_ge by (unfold len in *; lia). by rewrite app_nil_r.
Qed.
End ActorRead.

(** * A concrete manager *)
Section Sample.
#[local] Existing Instance debug_build.
#[local] Existing Instance dummy_device.
#[local] Existing Instance reference_crates.
(** no error of the in-memory device means that the card is missing *)
#[local] Instance dummy_device_error : BlockDeviceError dummy_device :=
  {| to_error_code := λ _, 0; no_card := λ _, false |}.
#[local] Instance sample_actor_fuel : Fuel := 10%nat.

(** A mounted manager with one file open under handle 5. *)
Definition sample_manager : FsManager := {|
  mgr_dev := None; file_system := Some fragmented_volume;
  files := {| handles := {[5 := fragmented_file]}; next_handle := 5 |};
  directories := Handles_new; mgr_time_provider := None; mgr_clock := 0 |}.
Lemma sample_mounted : mgr_mounted sample_manager.
Proof. split; [done|]. by eexists. Qed.

Lemma add_returns_fresh_handle_witness :
  ∃ h', add fragmented_file {| handles := {[5 := fragmented_file]}; next_handle := 4 |} = (h', Ok 6).
Proof.
  destruct (add_returns_fresh_handle fragmented_file
    {| handles := {[5 := fragmented_file]}; next_handle := 4 |} ltac:(cbn; lia))
    as [(k & h' & H & _)|(h' & H & _)].
  - exists h'. assert (k = 6) as -> by (vm_compute in H; congruence). exact H.
  - exfalso. vm_compute in H. congruence.
Defined.

Lemma claimed_slot_is_exclusive_witness :
  claim_slot_locked 5 = (7, 1) ∧ release_slot_locked 7 1 = 5.
Proof.
  pose proof (claimed_slot_is_exclusive 5 ltac:(lia)) as H.
  replace (claim_slot_locked 5) with (7, 1) in H |- * by (vm_compute; reflexivity).
  destruct H as (_ & _ & _ & _ & H). split; [reflexivity|exact H].
Defined.

Lemma responses_match_witness :
  ∃ m' r, handle_req (request (client_file_read 5 (zeros 650))) sample_manager = (m', Ok r) ∧
    accept (client_file_read 5 (zeros 650)) r ≠ Err ActorError.UnexpectedResponse.
Proof.
  destruct (handle_req (request (client_file_read 5 (zeros 650))) sample_manager)
    as [m' [r|e| |]] eqn:H; [|exfalso; vm_compute in H; congruence..].
  exists m', r. split; [reflexivity|]. exact (responses_match _ _ _ _ (is_file_read 5 _) H).
Defined.

Lemma manager_stays_consistent_witness :
  match serve (CloseFile 5) sample_manager with
  | (m', Ok answer) => mgr_ok m'
  | _ => False
  end.
Proof.
  pose proof (proj2 (manager_stays_consistent (CloseFile 5) sample_manager
    (DummyBlockDevice_new 1) None) (or_introl sample_mounted)) as H.
  destruct (serve (CloseFile 5) sample_manager) as [m' [answer|e| |]] eqn:Hs;
    [exact (proj1 H)|exfalso; vm_compute in Hs; congruence..].
Defined.

Lemma handles_do_not_interfere_witness :
  handle_req (SeekFile 6 100) sample_manager = (sample_manager, Err ActorError.InvalidFileHandle) ∧
  handles (files (fst (handle_req (SeekFile 6 100) sample_manager))) !! 5 = Some fragmented_file.
Proof.
  split.
  - apply (handles_do_not_interfere (SeekFile 6 100) sample_manager 6 sample_mounted); [discriminate|].
    left. split; reflexivity.
  - apply (handles_do_not_interfere (SeekFile 6 100) sample_manager 5 sample_mounted);
      [discriminate|reflexivity|discriminate].
Defined.

(** A read at the end of the file, through the actor. *)
Definition manager_at_end : FsManager :=
  put lfiles {| handles := {[5 := set_position 7 0 700 fragmented_file]}; next_handle := 5 |} sample_manager.

Lemma actor_read_hides_end_of_file_witness :
  ∃ m' r, handle_req (request (client_file_read 5 (zeros 3))) manager_at_end = (m', Ok r) ∧
    accept (client_file_read 5 (zeros 3)) r = Ok (zeros 3, Some 3).
Proof.
  destruct (handle_req (request (client_file_read 5 (zeros 3))) manager_at_end)
    as [m' [r|e| |]] eqn:H; [|exfalso; vm_compute in H; congruence..].
  exists m', r. split; [reflexivity|].
  destruct (actor_read_hides_end_of_file 5 (zeros 3) manager_at_end m' r) as (data & -> & Ha);
    [discriminate|exact H|].
  assert (data = zeros 3) as -> by (vm_compute in H |- *; congruence). exact Ha.
Defined.
End Sample.
