(* ===== verification/ReplyProofs.v ===== *)
(** * The reply pool: every answer reaches the task that asked

    Proofs about ReplyPool.v.  With at most as many tasks as reply slots, every
    interleaving of the tasks and the actor serves the requests one after the
    other, hands each answer to its sender, and comes to an end with every
    request answered, unless a handler panics or does not come back.  With one task more this is lost: the permit of the
    semaphore is returned before the slot is, so that two tasks share a slot. *)

From S2P Require Import Prelude Text Crates Errors Device SlotCache Volume File FsActor ActorProofs Embassy ReplyPool.
From S2P Require Import FileRead.
Open Scope Z_scope.

(** ** Lists and bits *)
Section Lists.
Context {A B : Type} (f : A → option B).
Lemma omap_insert_perm (l : list A) k x y :
  l !! k = Some x →
  omap f (<[k := y]> l) ++ option_list (f x) ≡ₚ omap f l ++ option_list (f y).
Proof.
  intros Hk. destruct (list_elem_of_split_length l k x Hk) as (l1 & l2 & -> & ->).
  rewrite insert_app_r_alt, Nat.sub_diag by done. cbn [insert list_insert].
  rewrite !omap_app. cbn [omap list_omap]. destruct (f x), (f y); cbn [option_list]; rewrite ?app_nil_r; solve_Permutation.
Qed.
End Lists.
Lemma omap_insert_same {A B} (f : A → option B) (l : list A) k x y :
  l !! k = Some x → f y = f x → omap f (<[k := y]> l) ≡ₚ omap f l.
Proof.
  intros Hk Hf. pose proof (omap_insert_perm f l k x y Hk) as H. rewrite Hf in H.
  by apply Permutation_app_inv_r in H.
Qed.

Lemma length_omap_le {A B} (f : A → option B) (l : list A) : (length (omap f l) ≤ length l)%nat.
Proof. induction l as [|x l IH]; [done|]. cbn. destruct (f x); cbn; lia. Qed.
Lemma length_omap_lt {A B} (f : A → option B) (l : list A) k x :
  l !! k = Some x → f x = None → (length (omap f l) < length l)%nat.
Proof.
  intros Hk Hf. destruct (list_elem_of_split_length l k x Hk) as (l1 & l2 & -> & _).
  rewrite omap_app, !length_app. cbn. rewrite Hf.
  pose proof (length_omap_le f l1). pose proof (length_omap_le f l2). lia.
Qed.
Lemma NoDup_omap_inj {A B} (f : A → option B) (l : list A) :
  (∀ i j x y b, l !! i = Some x → l !! j = Some y → f x = Some b → f y = Some b → i = j) → NoDup (omap f l).
Proof.
  induction l as [|x l IH]; intros Hinj; [apply NoDup_nil_2|]. cbn.
  assert (Hl : NoDup (omap f l)).
  { apply IH. intros i j y z b Hy Hz Hfy Hfz. by injection (Hinj (S i) (S j) y z b Hy Hz Hfy Hfz). }
  destruct (f x) as [b|] eqn:Hx; [|done]. apply NoDup_cons. split; [|done].
  intros (y & Hy & Hfy)%list_elem_of_omap. apply list_elem_of_lookup in Hy as [j Hj].
  by pose proof (Hinj 0%nat (S j) x y b eq_refl Hj Hx Hfy).
Qed.

(** ** The bitmap and the semaphore

    [held] are the slots tasks hold: they are distinct, and exactly their bits
    are set. *)
Record slots_ok (held : list Z) (bitmap : Z) : Prop := {
  so_range : 0 ≤ bitmap < 16;
  so_distinct : NoDup held;
  so_bits i : i ∈ held ↔ 0 ≤ i < 4 ∧ Z.testbit bitmap i = true;
}.
#[global] Instance slots_ok_proper : Proper (Permutation ==> eq ==> iff) slots_ok.
Proof.
  intros h1 h2 Hp b ? <-. split; intros [Hr Hn Hb]; split; try done.
  - by rewrite <-Hp.
  - intros i. by rewrite <-Hp.
  - by rewrite Hp.
  - intros i. by rewrite Hp.
Qed.

Lemma all_slots_held held bitmap : slots_ok held bitmap → bitmap = 15 → (4 ≤ length held)%nat.
Proof.
  intros [_ Hn Hb] ->. assert (Hsub : [0; 1; 2; 3] ⊆ held).
  { intros i Hi. apply Hb. set_unfold. split; [lia|]. by destruct Hi as [->|[->|[->|[->|[]]]]]. }
  apply (submseteq_length [0; 1; 2; 3]). apply NoDup_submseteq; [|done].
  repeat (apply NoDup_cons_2; [by set_unfold; lia|]). apply NoDup_nil_2.
Qed.
Lemma claim_ok held b b' i :
  slots_ok held b → (length held < 4)%nat → claim_slot_locked b = (b', i) →
  0 ≤ i < 4 ∧ slots_ok (held ++ [i]) b'.
Proof.
  intros Hs Hl Hc. pose proof Hs as [Hr Hn Hb].
  assert (b ≠ 15) by (intros ->; pose proof (all_slots_held held 15 Hs eq_refl); lia).
  pose proof (claimed_slot_is_exclusive b ltac:(lia)) as H0. rewrite Hc in H0.
  destruct H0 as (Hi & Hfree & -> & Hr' & _). split; [done|]. split; [done|..].
  - apply NoDup_app. split_and!; [done| |apply NoDup_singleton].
    intros j Hj Hji. apply list_elem_of_singleton in Hji as ->. apply Hb in Hj. destruct Hj as [_ Hj]. congruence.
  - intros j. rewrite elem_of_app, list_elem_of_singleton, Hb, Z.lor_spec, orb_true_iff.
    destruct (Z.ltb_spec j 0) as [Hj|Hj]; [split; [intros [[? _]|?]; exfalso; lia|intros [? _]; lia]|].
    rewrite Z.pow2_bits_eqb by lia. rewrite Z.eqb_eq.
    split; [intros [[? ?]| ->]; auto|intros [? [?| ->]]; auto].
Qed.
Lemma release_ok held b i : slots_ok (held ++ [i]) b → slots_ok held (release_slot_locked b i).
Proof.
  intros [Hr Hn Hb]. apply NoDup_app in Hn as (Hn & Hdis & _).
  assert (Hi : 0 ≤ i < 4) by (apply (proj1 (Hb i)), elem_of_app; right; by apply list_elem_of_singleton).
  unfold release_slot_locked. assert (Hbit : ∀ j, 0 ≤ j → Z.testbit (Z.ldiff b (Z.shiftl 1 i)) j = Z.testbit b j && negb (i =? j)).
  { intros j Hj. rewrite Z.ldiff_spec, Z.shiftl_1_l, Z.pow2_bits_eqb by lia. done. }
  split; [|done|].
  - assert (He : Z.ldiff b (Z.shiftl 1 i) = Z.ldiff b (Z.shiftl 1 i) mod 2 ^ 4).
    { rewrite <-Z.land_ones, Z.ldiff_land, <-Z.land_assoc, (Z.land_comm (Z.lnot _)), Z.land_assoc by lia.
      by rewrite (Z.land_ones b), Z.mod_small by lia. }
    rewrite He. apply (Z.mod_pos_bound _ (2 ^ 4)). lia.
  - intros j. split.
    + intros Hj. assert (j ≠ i) by (intros ->; apply (Hdis i Hj), list_elem_of_singleton; done).
      destruct (proj1 (Hb j)) as [Hj1 Hj2]; [apply elem_of_app; by left|]. split; [done|].
      rewrite Hbit, Hj2 by lia. cbn. apply negb_true_iff, Z.eqb_neq. lia.
    + intros [Hj1 Hj2]. rewrite Hbit in Hj2 by lia. apply andb_true_iff in Hj2 as [Hj2 Hj3].
      apply negb_true_iff, Z.eqb_neq in Hj3.
      assert (Hin : j ∈ held ++ [i]) by by apply Hb. apply elem_of_app in Hin as [Hin|Hin]; [done|].
      apply list_elem_of_singleton in Hin. lia.
Qed.

(** * The invariant *)
Definition calls (c : list Command) : list Op :=
  omap (λ x, match x with Call o => Some o | _ => None end) c.

Lemma calls_cons x c : calls (x :: c) = calls [x] ++ calls c.
Proof. unfold calls. cbn. by destruct x. Qed.

(** The answers of the log that task [k] waited for. *)
Definition answers_for (k : nat) (l : list (option nat * Op * Answer)) : list (Op * Answer) :=
  omap (λ x, if decide (x.1.1 = Some k) then Some (x.1.2, x.2) else None) l.

(** What a task holds. *)
Definition slot_held (t : Task) : option Z :=
  match phase t with
  | Acquire _ (AtSeq i) => Some i
  | Sending _ tok | Wait _ tok (AtSignal | AtRelease _) => Some (slot tok)
  | _ => None
  end.
Definition guard_held (t : Task) : option () :=
  match phase t with Acquire _ WithGuard => Some () | _ => None end.
Definition current (t : Task) : list Op :=
  match phase t with Acquire o _ | Sending o _ | Wait o _ _ => [o] | _ => [] end.

(** A task with a ghost: the answer on its way to it, when the actor has one. *)
Abbreviation Ghost := (Task * option Answer)%type.
Definition flight (g : Ghost) : option (Token * option Answer) :=
  match phase g.1 with Wait _ tok AtSignal => Some (tok, g.2) | _ => None end.
Definition pending (g : Ghost) : list (Op * Answer) :=
  match phase g.1 with
  | Wait o _ AtSignal => option_list (pair o <$> g.2)
  | Wait o _ (AtRelease a | AtPermit a) => [(o, a)]
  | _ => []
  end.

Section Invariant.
Context {cfg : Config} {crates : Crates} {bd : BlockDevice} {be : BlockDeviceError bd} {fu : Fuel}.
Context {ch : Channel Req} {sg : Signal ReplySignal} {sem : FairSemaphore}.
Context {Hch : ChannelOk ch REQ_CAPACITY} {Hsg : SignalOk sg} {Hsem : SemaphoreOk sem}.
Implicit Types (s : System) (t : Task) (tok : Token) (g : Ghost) (gs : list Ghost) (m : FsManager).

(** The requests of the log, served one after the other, and the manager then. *)
Fixpoint served m (l : list (option nat * Op * Answer)) m' : Prop :=
  match l with
  | [] => m' = m
  | (_, o, a) :: l => ∃ m1, serve o m = (m1, Ok a) ∧ served m1 l m'
  end.
Lemma served_app m l1 l2 m' : served m (l1 ++ l2) m' ↔ ∃ m1, served m l1 m1 ∧ served m1 l2 m'.
Proof.
  revert m. induction l1 as [|[[w o] a] l1 IH]; intros m; cbn.
  - split; [by exists m|]. by intros (? & -> & ?).
  - setoid_rewrite IH. split; [intros (m1 & ? & m2 & ? & ?)|intros (m2 & (m1 & ? & ?) & ?)]; eauto.
Qed.

(** The actor serves the manager left by the requests of the log; when it has
    stopped, the handler of its request panics on that manager, when it loops,
    the handler does not come back. *)
Definition actor_ok s m : Prop :=
  match actor s with
  | Stopped r => snd (serve (op r) m) = Panic
  | Looping r => snd (serve (op r) m) = OutOfFuel
  | _ => m = manager s
  end.

(** The requests and answers between the tasks and the actor. *)
Definition unanswered (r : Req) : option (Token * option Answer) := (λ tok, (tok, None)) <$> reply r.
Definition actor_requests (a : Actor) : list Req :=
  match a with Handling r | Stopped r | Looping r => [r] | _ => [] end.
Definition actor_answer (a : Actor) : list (Token * option Answer) :=
  match a with Completing tok a => [(tok, Some a)] | _ => [] end.
Definition requests s : list Req := actor_requests (actor s) ++ queued (REQ s).
Definition signal_flight (x : nat * signal_cell ReplySignal) : option (Token * option Answer) :=
  (λ r, ({| slot := Z.of_nat x.1; seq := signal_seq r |}, Some (resp r))) <$> unread x.2.
Definition signal_flights (l : list (signal_cell ReplySignal)) : list (Token * option Answer) :=
  omap signal_flight (imap pair l).
Definition in_transit s : list (Token * option Answer) :=
  omap unanswered (requests s) ++ actor_answer (actor s) ++ signal_flights (reply_signals (pool s)).

(** A request in the channel or at the actor comes from a task that waits for it. *)
Definition asked gs (r : Req) : Prop :=
  ∀ tok, reply r = Some tok → ∃ t, gs !! sender r = Some (t, None) ∧ phase t = Wait (op r) tok AtSignal.

Record task_ok (programs : list (list Command)) (l : list (option nat * Op * Answer)) (k : nat) g : Prop := {
  task_program : ∃ c, programs !! k = Some c ∧ calls c = (results g.1).*1 ++ current g.1 ++ calls (program g.1);
  task_answers : answers_for k l = results g.1 ++ pending g;
  task_alive : phase g.1 ≠ Panicked;
}.

Record semaphore_ok (l : list Task) (x : semaphore) : Prop := {
  sem_waiters : waiters x = [];
  sem_permits : (REPLY_SLOTS ≤ permits x + length (omap guard_held l))%nat;
}.

Record inv programs m0 s gs : Prop := {
  inv_tasks : tasks s = gs.*1;
  inv_few : (length gs ≤ REPLY_SLOTS)%nat;
  inv_ok k g : gs !! k = Some g → task_ok programs (log s) k g;
  inv_transit : in_transit s ≡ₚ omap flight gs;
  inv_asked : Forall (asked gs) (requests s);
  inv_slots : slots_ok (omap slot_held (tasks s)) (slot_bitmap (pool s));
  inv_semaphore : semaphore_ok (tasks s) (free_slots (pool s));
  inv_signals : length (reply_signals (pool s)) = REPLY_SLOTS;
  inv_log : ∃ m, served m0 (log s) m ∧ actor_ok s m;
}.

Lemma inv_ghost programs m0 s gs k t : inv programs m0 s gs → tasks s !! k = Some t → ∃ o, gs !! k = Some (t, o).
Proof.
  intros Hi Ht. rewrite (inv_tasks _ _ _ _ Hi), list_lookup_fmap in Ht. destruct (gs !! k) as [[t' o]|]; [|done].
  cbn in Ht. simplify_eq. by exists o.
Qed.
(** A token in transit belongs to a task that waits for it. *)
Lemma transit_task programs m0 s gs tok o :
  inv programs m0 s gs → (tok, o) ∈ in_transit s →
  ∃ k t op, gs !! k = Some (t, o) ∧ phase t = Wait op tok AtSignal.
Proof.
  intros Hi Hin. rewrite (inv_transit _ _ _ _ Hi) in Hin. apply list_elem_of_omap in Hin as ([t o'] & Hin & Hf).
  apply list_elem_of_lookup in Hin as [k Hk]. unfold flight in Hf. cbn in Hf.
  destruct (phase t) as [|?|?|op tok' []|] eqn:Hp; simplify_eq. by exists k, t, op.
Qed.
(** Two tasks hold different slots. *)
Lemma slots_differ programs m0 s gs j k tj tk oj ok i :
  inv programs m0 s gs → gs !! j = Some (tj, oj) → gs !! k = Some (tk, ok) →
  slot_held tj = Some i → slot_held tk = Some i → j = k.
Proof.
  intros Hi Hj Hk Hsj Hsk. destruct (decide (j = k)) as [|Hne]; [done|]. exfalso.
  pose proof (so_distinct _ _ (inv_slots _ _ _ _ Hi)) as Hnd. rewrite (inv_tasks _ _ _ _ Hi) in Hnd.
  set (f := λ g : Ghost, slot_held g.1).
  assert (Hp : ∀ gs' : list Ghost, omap slot_held gs'.*1 = omap f gs').
  { induction gs' as [|g gs' IH]; [done|]. cbn. by rewrite IH. }
  rewrite Hp in Hnd. destruct tj as [pj phj rj].
  pose proof (omap_insert_perm f gs j _ ({| program := pj; phase := Idle; results := rj |}, None) Hj) as Hperm.
  unfold f in Hperm at 2 4. cbn [fst option_list] in Hperm. rewrite Hsj in Hperm. cbn [option_list slot_held phase] in Hperm.
  rewrite app_nil_r in Hperm. rewrite <-Hperm in Hnd. apply NoDup_app in Hnd as (_ & Hd & _).
  apply (Hd i); [|by apply list_elem_of_singleton]. apply list_elem_of_omap.
  exists (tk, ok). split; [|done]. apply (list_elem_of_lookup_2 _ k). by rewrite list_lookup_insert_ne.
Qed.

(** ** The measure: every step lowers it *)
Definition phase_weight (ph : Phase) : nat :=
  match ph with
  | Idle | Panicked => 0
  | Wait _ _ (AtPermit _) => 1
  | Wait _ _ _ => 2
  | Sending _ _ => 7
  | Acquire _ (AtSeq _) => 8
  | Acquire _ AtMutex => 9
  | Acquire _ WithGuard => 10
  | Acquire _ AtSemaphore => 11
  end.
Definition task_weight t : nat := 12 * length (program t) + phase_weight (phase t).
Definition actor_weight (a : Actor) : nat :=
  match a with Receiving | Stopped _ | Looping _ => 0 | Completing _ _ => 2 | Handling _ => 3 end.
Definition measure s : nat :=
  sum_list (task_weight <$> tasks s) + 4 * length (queued (REQ s)) + actor_weight (actor s) +
  length (signal_flights (reply_signals (pool s))).

Lemma sum_insert (f : Task → nat) (l : list Task) k t t' :
  l !! k = Some t → (sum_list (f <$> <[k := t']> l) + f t = sum_list (f <$> l) + f t')%nat.
Proof.
  intros Hk. destruct (list_elem_of_split_length l k t Hk) as (l1 & l2 & -> & ->).
  rewrite insert_app_r_alt, Nat.sub_diag by done. cbn [insert list_insert].
  rewrite !fmap_app, !fmap_cons. rewrite !sum_list_with_app. cbn. lia.
Qed.

Lemma imap_pair_insert {A} (l : list A) i x : imap pair (<[i := x]> l) = <[i := (i, x)]> (imap pair l).
Proof.
  apply list_eq. intros j. rewrite list_lookup_imap. destruct (decide (i = j)) as [<-|Hne].
  - destruct (decide (i < length l)%nat).
    + rewrite !list_lookup_insert_eq by (rewrite ?length_imap; lia). done.
    + rewrite !list_insert_ge by (rewrite ?length_imap; lia).
      by rewrite list_lookup_imap.
  - rewrite !list_lookup_insert_ne by done. by rewrite list_lookup_imap.
Qed.
Lemma signal_flights_insert l i c c' :
  l !! i = Some c →
  signal_flights (<[i := c']> l) ++ option_list (signal_flight (i, c)) ≡ₚ
    signal_flights l ++ option_list (signal_flight (i, c')).
Proof.
  intros Hi. unfold signal_flights. rewrite imap_pair_insert. apply omap_insert_perm.
  by rewrite list_lookup_imap, Hi.
Qed.

(** ** Steps of a task *)

(** What has to be shown when task [k] goes from [g] to [g'] and leaves the actor
    and the log alone. *)
Definition moves programs m0 s s' : Prop := ∃ gs', inv programs m0 s' gs' ∧ (measure s' < measure s)%nat.
Lemma inv_task_moves programs m0 s gs k g g' p c (sent : list Req) :
  inv programs m0 s gs → gs !! k = Some g → (∀ tok, flight g ≠ Some (tok, None)) →
  task_ok programs (log s) k g' →
  queued c = queued (REQ s) ++ sent → Forall (asked (<[k := g']> gs)) sent →
  omap unanswered sent ++ signal_flights (reply_signals p) ++ option_list (flight g) ≡ₚ
    signal_flights (reply_signals (pool s)) ++ option_list (flight g') →
  slots_ok (omap slot_held (<[k := g'.1]> (tasks s))) (slot_bitmap p) →
  semaphore_ok (<[k := g'.1]> (tasks s)) (free_slots p) → length (reply_signals p) = REPLY_SLOTS →
  (task_weight g'.1 + 4 * length sent + length (signal_flights (reply_signals p)) <
     task_weight g.1 + length (signal_flights (reply_signals (pool s))))%nat →
  moves programs m0 s (update_task k g'.1 p c s).
Proof.
  intros Hi Hk Hf Hok Hq Hsent Htr Hslots Hsem' Hsig Hw.
  assert (Htk : tasks s !! k = Some g.1) by (rewrite (inv_tasks _ _ _ _ Hi), list_lookup_fmap, Hk; done).
  exists (<[k := g']> gs). split; last first.
  { unfold measure. cbn. pose proof (sum_insert task_weight (tasks s) k g.1 g'.1 Htk).
    rewrite Hq, length_app. lia. }
  assert (Hreq : requests (update_task k g'.1 p c s) = requests s ++ sent) by (unfold requests; cbn; by rewrite Hq, app_assoc).
  split; cbn; [|rewrite length_insert; apply Hi| | | |done..|apply Hi].
  - by rewrite list_fmap_insert, (inv_tasks _ _ _ _ Hi).
  - intros j h Hj. destruct (decide (j = k)) as [->|Hne].
    + rewrite list_lookup_insert_eq in Hj by (eapply lookup_lt_Some; eauto). by simplify_eq.
    + rewrite list_lookup_insert_ne in Hj by done. by eapply inv_ok.
  - pose proof (omap_insert_perm flight gs k g g' Hk) as Hp. rewrite <-(inv_transit _ _ _ _ Hi) in Hp.
    apply (Permutation_app_inv_r (option_list (flight g))). rewrite Hp. clear Hp.
    unfold in_transit. rewrite Hreq. cbn. rewrite omap_app, <-!app_assoc.
    apply Permutation_app_head. rewrite Permutation_app_swap_app. by apply Permutation_app_head.
  - rewrite Hreq. apply Forall_app. split; [|done]. eapply Forall_impl; [apply Hi|]. intros r Hr tok Htok.
    destruct (Hr tok Htok) as (t & Ht & Hph). exists t. split; [|done].
    rewrite list_lookup_insert_ne; [done|]. intros ->. rewrite Hk in Ht. simplify_eq.
    apply (Hf tok). unfold flight. cbn. by rewrite Hph.
Qed.

Lemma task_ok_phase programs l k t o ph o' :
  task_ok programs l k (t, o) → current (in_phase ph t) = current t → pending (in_phase ph t, o') = pending (t, o) →
  ph ≠ Panicked → task_ok programs l k (in_phase ph t, o').
Proof.
  intros [Hp Ha _] Hc Hpe Hph. split; cbn in *; [by rewrite Hc|by rewrite Hpe|done].
Qed.
Lemma slots_unchanged programs m0 s gs k g t' :
  inv programs m0 s gs → gs !! k = Some g → slot_held t' = slot_held g.1 →
  slots_ok (omap slot_held (<[k := t']> (tasks s))) (slot_bitmap (pool s)).
Proof.
  intros Hi Hk Ht. rewrite (omap_insert_same _ _ _ g.1); [apply Hi| |done].
  by rewrite (inv_tasks _ _ _ _ Hi), list_lookup_fmap, Hk.
Qed.
Lemma semaphore_moves l k t t' x x' :
  semaphore_ok l x → l !! k = Some t → waiters x' = [] →
  (permits x + length (option_list (guard_held t)) ≤ permits x' + length (option_list (guard_held t')))%nat →
  semaphore_ok (<[k := t']> l) x'.
Proof.
  intros [_ Hp] Hk Hw Hle. split; [done|].
  pose proof (Permutation_length (omap_insert_perm guard_held l k t t' Hk)) as H.
  rewrite !length_app in H. lia.
Qed.

Section TaskSteps.
Context (programs : list (list Command)) (m0 : FsManager) (s : System) (gs : list Ghost).
Context (Hi : inv programs m0 s gs) (k : nat) (t : Task) (o : option Answer) (Hk : gs !! k = Some (t, o)).

Lemma inv_lookup : tasks s !! k = Some t.
Proof using Hi Hk. by rewrite (inv_tasks _ _ _ _ Hi), list_lookup_fmap, Hk. Qed.

Lemma few_tasks : (length (tasks s) ≤ REPLY_SLOTS)%nat.
Proof using Hi. rewrite (inv_tasks _ _ _ _ Hi), length_fmap. apply Hi. Qed.

(** a step that touches neither the channel nor the signals, of a task that does not wait *)
Lemma quiet_moves t' p :
  flight (t, o) = None → flight (t', None) = None → task_ok programs (log s) k (t', None) →
  reply_signals p = reply_signals (pool s) →
  slots_ok (omap slot_held (<[k := t']> (tasks s))) (slot_bitmap p) →
  semaphore_ok (<[k := t']> (tasks s)) (free_slots p) →
  (task_weight t' < task_weight t)%nat → moves programs m0 s (update_task k t' p (REQ s) s).
Proof using Hi Hk.
  intros Hf Hf' Hok Hsig Hsl Hse Hw.
  apply (inv_task_moves programs m0 s gs k (t, o) (t', None) p (REQ s) []); try done.
  - by rewrite Hf.
  - by rewrite app_nil_r.
  - by rewrite Hf, Hf', Hsig.
  - rewrite Hsig. apply Hi.
  - rewrite Hsig. cbn [fst length]. lia.
Qed.

Lemma acquire_moves op a p r :
  phase t = Acquire op a → acquire_step k a (pool s) = (p, r) →
  moves programs m0 s (update_task k (in_phase (match r with
      | Again a => Acquire op a | GotToken token => Sending op token | UnwrapPanics => Panicked end) t) p (REQ s) s).
Proof using Hi Hk Hsem.
  intros Hp Ha. pose proof (inv_ok _ _ _ _ Hi _ _ Hk) as Hok. pose proof inv_lookup as Hl.
  pose proof (inv_semaphore _ _ _ _ Hi) as Hs. pose proof (sem_waiters _ _ Hs) as Hw.
  assert (Hfl : flight (t, o) = None) by (unfold flight; cbn; by rewrite Hp).
  assert (Hmv : ∀ ph, current (in_phase ph t) = [op] → pending (in_phase ph t, None) = [] → ph ≠ Panicked →
    task_ok programs (log s) k (in_phase ph t, None)).
  { intros ph Hc Hpe Hph. eapply task_ok_phase; [done|..|done]; [rewrite Hc|rewrite Hpe]; unfold current, pending; cbn; by rewrite Hp. }
  destruct a as [| | |i]; cbn [acquire_step] in Ha.
  - destruct (acquire_granted k (free_slots (pool s))) as (x & Hx & Hwx); [|done|].
    { pose proof (length_omap_lt guard_held _ _ _ Hl ltac:(unfold guard_held; by rewrite Hp)).
      pose proof (sem_permits _ _ Hs). pose proof few_tasks. lia. }
    rewrite Hx in Ha. simplify_eq. apply quiet_moves; try done; [by apply Hmv| | |].
    + eapply slots_unchanged; [done..|]. unfold slot_held. cbn. by rewrite Hp.
    + apply (semaphore_moves _ _ t _ (free_slots (pool s))); [done..|].
      pose proof (acquire_takes _ _ _ Hx). unfold guard_held. cbn. rewrite Hp. cbn. lia.
    + unfold task_weight. cbn. rewrite Hp. cbn. lia.
  - simplify_eq. apply quiet_moves; try done; [by apply Hmv| | |].
    + eapply slots_unchanged; [done..|]. unfold slot_held. cbn. by rewrite Hp.
    + apply (semaphore_moves _ _ t _ (free_slots (pool s))); [done..| |].
      * cbn. by rewrite release_waiters.
      * cbn. rewrite release_permits. unfold guard_held. cbn. rewrite Hp. cbn. lia.
    + unfold task_weight. cbn. rewrite Hp. cbn. lia.
  - destruct (claim_slot_locked (slot_bitmap (pool s))) as [b i] eqn:Hc. injection Ha as <- <-.
    assert (Hph : omap slot_held (<[k := in_phase (Acquire op (AtSeq i)) t]> (tasks s)) ≡ₚ
      omap slot_held (tasks s) ++ [i]).
    { pose proof (omap_insert_perm slot_held (tasks s) k t (in_phase (Acquire op (AtSeq i)) t) Hl) as H.
      unfold slot_held in H at 2 4. cbn in H. rewrite Hp in H. cbn in H. by rewrite app_nil_r in H. }
    apply quiet_moves; try done; [by apply Hmv| | |].
    + rewrite Hph. refine (proj2 (claim_ok _ _ _ _ (inv_slots _ _ _ _ Hi) _ Hc)).
      pose proof (length_omap_lt slot_held _ _ _ Hl ltac:(unfold slot_held; by rewrite Hp)).
      pose proof few_tasks. unfold REPLY_SLOTS in *. lia.
    + apply (semaphore_moves _ _ t _ (free_slots (pool s))); [done..|]. unfold guard_held. cbn. rewrite Hp. cbn. lia.
    + unfold task_weight. cbn. rewrite Hp. cbn. lia.
  - simplify_eq. apply quiet_moves; try done; [by apply Hmv| | |].
    + eapply slots_unchanged; [done..|]. unfold slot_held. cbn. by rewrite Hp.
    + apply (semaphore_moves _ _ t _ (free_slots (pool s))); [done..|]. unfold guard_held. cbn. rewrite Hp. cbn. lia.
    + unfold task_weight. cbn. rewrite Hp. cbn. lia.
Qed.

Lemma sent_queued x c c' : try_send x c = Some c' → queued c' = queued c ++ [x].
Proof using Hch.
  intros Hs. destruct (decide (length (queued c) < REQ_CAPACITY)%nat).
  - destruct (send_room x c) as (c2 & Hc2 & Hq); [done|]. by simplify_eq.
  - rewrite send_full in Hs by lia. done.
Qed.
Lemma taken_unread c x c' : try_take c = Some (x, c') → unread c = Some x ∧ unread c' = None.
Proof using Hsg.
  intros Ht. destruct (unread c) as [y|] eqn:Hu.
  - destruct (take_some c y Hu) as (c2 & Hc2 & ?). by simplify_eq.
  - rewrite take_none in Ht by done. done.
Qed.

Lemma call_moves op rest :
  phase t = Idle → program t = Call op :: rest →
  moves programs m0 s (update_task k {| program := rest; phase := Acquire op AtSemaphore; results := results t |}
    (pool s) (REQ s) s).
Proof using Hi Hk Hsem.
  intros Hp Hc. destruct (inv_ok _ _ _ _ Hi _ _ Hk) as [(c & Hc1 & Hc2) Ha _].
  apply quiet_moves; try done.
  - unfold flight. cbn. by rewrite Hp.
  - split; cbn; [|rewrite Ha; unfold pending; cbn; by rewrite Hp|done].
    exists c. split; [done|]. rewrite Hc2. cbn. rewrite Hc. unfold current. by rewrite Hp.
  - eapply slots_unchanged; [done..|]. unfold slot_held. cbn. by rewrite Hp.
  - apply (semaphore_moves _ _ t _ (free_slots (pool s))); [apply Hi|apply inv_lookup|apply Hi|].
    unfold guard_held. cbn. rewrite Hp. cbn. lia.
  - unfold task_weight. cbn. rewrite Hp, Hc. cbn. lia.
Qed.
Lemma drop_moves command op rest :
  phase t = Idle → program t = command :: rest → calls [command] = [] →
  moves programs m0 s (update_task k {| program := rest; phase := Idle; results := results t |}
    (pool s) (send_or_drop k op (REQ s)) s).
Proof using Hi Hk Hsem Hch.
  intros Hp Hc Hno. destruct (inv_ok _ _ _ _ Hi _ _ Hk) as [(c & Hc1 & Hc2) Ha _].
  set (t' := {| program := rest; phase := Idle; results := results t |}).
  assert (Hfl : flight (t, o) = None) by (unfold flight; cbn; by rewrite Hp).
  assert (Hsent : ∃ sent, queued (send_or_drop k op (REQ s)) = queued (REQ s) ++ sent ∧
    Forall (λ r, reply r = None) sent ∧ (length sent ≤ 1)%nat).
  { unfold send_or_drop. destruct (try_send _ (REQ s)) as [c'|] eqn:Ht; cbn.
    - apply sent_queued in Ht. eexists. split; [exact Ht|]. split; [by apply Forall_singleton|done].
    - exists []. rewrite app_nil_r. split_and!; [done|apply Forall_nil_2|cbn; lia]. }
  destruct Hsent as (sent & Hq & Hnone & Hlen).
  apply (inv_task_moves programs m0 s gs k (t, o) (t', None) _ _ sent); try done.
  - by rewrite Hfl.
  - split; cbn; [|rewrite Ha; unfold pending; cbn; by rewrite Hp|done].
    exists c. split; [done|]. rewrite Hc2. cbn [fst]. rewrite Hc. rewrite (calls_cons command), Hno. unfold current. by rewrite Hp.
  - eapply Forall_impl; [exact Hnone|]. intros r Hr tok Htok. congruence.
  - rewrite Hfl. assert (omap unanswered sent = []) as ->; [|reflexivity].
    clear -Hnone. induction Hnone as [|r l Hr _ IH]; [done|]. cbn. unfold unanswered. by rewrite Hr.
  - eapply slots_unchanged; [done..|]. unfold slot_held. cbn. by rewrite Hp.
  - apply (semaphore_moves _ _ t _ (free_slots (pool s))); [apply Hi|apply inv_lookup|apply Hi|].
    unfold guard_held. cbn. rewrite Hp. cbn. lia.
  - apply Hi.
  - unfold task_weight. cbn [fst t' phase program]. rewrite Hp, Hc. cbn [phase_weight length]. lia.
Qed.
Lemma send_moves op token c :
  phase t = Sending op token → try_send {| op := op; reply := Some token; sender := k |} (REQ s) = Some c →
  moves programs m0 s (update_task k (in_phase (Wait op token AtSignal) t) (pool s) c s).
Proof using Hi Hk Hsem Hch.
  intros Hp Hc. apply sent_queued in Hc. pose proof (inv_ok _ _ _ _ Hi _ _ Hk) as Hok.
  assert (Hfl : flight (t, o) = None) by (unfold flight; cbn; by rewrite Hp).
  apply (inv_task_moves programs m0 s gs k (t, o) (in_phase (Wait op token AtSignal) t, None) _ _
    [{| op := op; reply := Some token; sender := k |}]); try done.
  - by rewrite Hfl.
  - eapply task_ok_phase; [done|..|done]; unfold current, pending; cbn; by rewrite Hp.
  - apply Forall_singleton. intros tok [= <-]. exists (in_phase (Wait op token AtSignal) t). cbn. split; [|done].
    apply list_lookup_insert_eq. by eapply lookup_lt_Some.
  - rewrite Hfl. cbn [option_list]. rewrite app_nil_r. cbn. by rewrite (Permutation_app_comm _ [_]).
  - eapply slots_unchanged; [done..|]. unfold slot_held. cbn. by rewrite Hp.
  - apply (semaphore_moves _ _ t _ (free_slots (pool s))); [apply Hi|apply inv_lookup|apply Hi|].
    unfold guard_held. cbn. rewrite Hp. cbn. lia.
  - apply Hi.
  - unfold task_weight. cbn [fst in_phase phase program]. rewrite Hp. cbn [phase_weight length]. lia.
Qed.
Lemma take_moves op token p r :
  phase t = Wait op token AtSignal → wait_step token AtSignal (pool s) = Some (p, r) →
  ∃ a, r = WaitAgain (AtRelease a) ∧
  moves programs m0 s (update_task k (in_phase (Wait op token (AtRelease a)) t) p (REQ s) s).
Proof using Hi Hk Hsem Hsg.
  intros Hp Hw. pose proof (inv_ok _ _ _ _ Hi _ _ Hk) as Hok. cbn [wait_step] in Hw.
  destruct (reply_signals (pool s) !! Z.to_nat (slot token)) as [cell|] eqn:Hcell; [|done]. cbn in Hw.
  destruct (try_take cell) as [[x c']|] eqn:Htake; [|done]. cbn in Hw. simplify_eq.
  destruct (taken_unread _ _ _ Htake) as [Hu Hu'].
  assert (Hslot : 0 ≤ slot token < 4).
  { apply (so_bits _ _ (inv_slots _ _ _ _ Hi)), list_elem_of_omap. exists t.
    split; [by eapply list_elem_of_lookup_2, inv_lookup|]. unfold slot_held. by rewrite Hp. }
  set (i := Z.to_nat (slot token)) in *.
  assert (Hfly : signal_flight (i, cell) = Some ({| slot := slot token; seq := signal_seq x |}, Some (resp x))).
  { unfold signal_flight. cbn. rewrite Hu. cbn. unfold i. by rewrite Z2Nat.id by lia. }
  assert (Hin : ({| slot := slot token; seq := signal_seq x |}, Some (resp x)) ∈ in_transit s).
  { unfold in_transit. rewrite !elem_of_app. do 2 right. apply list_elem_of_omap. exists (i, cell).
    split; [|done]. apply (list_elem_of_lookup_2 _ i). by rewrite list_lookup_imap, Hcell. }
  destruct (transit_task _ _ _ _ _ _ Hi Hin) as (j & tj & opj & Hj & Hpj).
  assert (j = k) as ->.
  { eapply (slots_differ programs m0 s gs j k tj t _ _ (slot token)); [done..| |];
      unfold slot_held; [by rewrite Hpj|by rewrite Hp]. }
  rewrite Hk in Hj. assert (tj = t) as -> by congruence. assert (Ho : o = Some (resp x)) by congruence. rewrite Hp in Hpj. injection Hpj as <- Htok.
  assert (Hseq : signal_seq x = seq token) by (by rewrite Htok).
  rewrite (proj2 (Z.eqb_eq _ _) Hseq). exists (resp x). split; [done|].
  pose proof (signal_flights_insert (reply_signals (pool s)) i cell c' Hcell) as Hperm.
  assert (Hno : signal_flight (i, c') = None) by (unfold signal_flight; cbn; by rewrite Hu').
  rewrite Hfly, Hno in Hperm. cbn [option_list] in Hperm.
  rewrite app_nil_r in Hperm.
  assert (Hfl : flight (t, o) = Some (token, Some (resp x))) by (unfold flight; cbn; by rewrite Hp, Ho).
  apply (inv_task_moves programs m0 s gs k (t, o) (in_phase (Wait op token (AtRelease (resp x))) t, None)
    _ _ [] Hi Hk); cbn [reply_signals with_signals free_slots slot_bitmap].
  - rewrite Hfl. done.
  - eapply task_ok_phase; [done|..|done]; unfold current, pending; cbn; by rewrite Hp, ?Ho.
  - by rewrite app_nil_r.
  - done.
  - rewrite Hfl. cbn [flight fst in_phase phase option_list omap list_omap app]. rewrite app_nil_r, <-Hperm.
    by rewrite <-Htok.
  - eapply slots_unchanged; [done..|]. unfold slot_held. cbn. by rewrite Hp.
  - apply (semaphore_moves _ _ t _ (free_slots (pool s))); [apply Hi|apply inv_lookup|apply Hi|].
    unfold guard_held. cbn. rewrite Hp. cbn. lia.
  - rewrite length_insert. apply Hi.
  - apply Permutation_length in Hperm. rewrite length_app in Hperm. cbn [option_rect option_list length] in Hperm.
    unfold task_weight. cbn [fst in_phase phase program]. rewrite Hp. cbn [phase_weight length]. lia.
Qed.
Lemma release_moves op token a p :
  phase t = Wait op token (AtRelease a) → p = with_bitmap (release_slot_locked (slot_bitmap (pool s)) (slot token)) (pool s) →
  moves programs m0 s (update_task k (in_phase (Wait op token (AtPermit a)) t) p (REQ s) s).
Proof using Hi Hk Hsem.
  intros Hp ->. pose proof (inv_ok _ _ _ _ Hi _ _ Hk) as Hok.
  apply quiet_moves; try done.
  - unfold flight. cbn. by rewrite Hp.
  - eapply task_ok_phase; [done|..|done]; unfold current, pending; cbn; by rewrite Hp.
  - cbn. apply release_ok.
    pose proof (omap_insert_perm slot_held (tasks s) k t (in_phase (Wait op token (AtPermit a)) t) inv_lookup) as H.
    unfold slot_held in H at 2 4. cbn in H. rewrite Hp in H. cbn in H. rewrite app_nil_r in H. rewrite H. apply Hi.
  - apply (semaphore_moves _ _ t _ (free_slots (pool s))); [apply Hi|apply inv_lookup|apply Hi|].
    unfold guard_held. cbn. rewrite Hp. cbn. lia.
  - unfold task_weight. cbn. rewrite Hp. cbn. lia.
Qed.
Lemma answer_moves op token a p :
  phase t = Wait op token (AtPermit a) → p = with_semaphore (release (free_slots (pool s))) (pool s) →
  moves programs m0 s (update_task k {| program := program t; phase := Idle; results := results t ++ [(op, a)] |} p (REQ s) s).
Proof using Hi Hk Hsem.
  intros Hp ->. destruct (inv_ok _ _ _ _ Hi _ _ Hk) as [(c & Hc1 & Hc2) Ha _].
  apply quiet_moves; try done.
  - unfold flight. cbn. by rewrite Hp.
  - split; cbn; [|rewrite Ha; unfold pending; cbn; rewrite Hp; by rewrite app_nil_r|done].
    exists c. split; [done|]. rewrite Hc2, fmap_app. unfold current. cbn. rewrite Hp. by rewrite <-app_assoc.
  - eapply slots_unchanged; [done..|]. unfold slot_held. cbn. by rewrite Hp.
  - apply (semaphore_moves _ _ t _ (free_slots (pool s))); [apply Hi|apply inv_lookup| |].
    + cbn. rewrite release_waiters. apply Hi.
    + cbn. rewrite release_permits. unfold guard_held. cbn. rewrite Hp. cbn. lia.
  - unfold task_weight. cbn. rewrite Hp. cbn. lia.
Qed.
End TaskSteps.

(** ** All steps *)
Section Steps.
Context (programs : list (list Command)) (m0 : FsManager) (s : System) (gs : list Ghost).
Context (Hi : inv programs m0 s gs).

Lemma task_step_moves k s' : task_step k s = Some s' → moves programs m0 s s'.
Proof using Hi Hch Hsg Hsem.
  unfold task_step. destruct (tasks s !! k) as [t|] eqn:Ht; [cbn|done].
  destruct (inv_ghost _ _ _ _ _ _ Hi Ht) as [o Hk].
  destruct (phase t) as [|op a|op token|op token w|] eqn:Hp.
  - destruct (program t) as [|[op|h|h] rest] eqn:Hc; [done|..]; intros [= <-].
    + by eapply call_moves.
    + by eapply drop_moves.
    + by eapply drop_moves.
  - destruct (acquire_step k a (pool s)) as [p r] eqn:Ha. intros [= <-]. by eapply acquire_moves.
  - destruct (try_send _ (REQ s)) as [c|] eqn:Hc; [|done]. intros [= <-]. by eapply send_moves.
  - destruct w as [|a|a].
    + destruct (wait_step token AtSignal (pool s)) as [[p r]|] eqn:Hw; [|done].
      destruct (take_moves _ _ _ _ Hi _ _ _ Hk _ _ _ _ Hp Hw) as (a & -> & Hm). cbn. by intros [= <-].
    + intros [= <-]. by eapply release_moves.
    + intros [= <-]. by eapply answer_moves.
  - done.
Qed.

Lemma transit_distinct : NoDup (in_transit s).
Proof using Hi.
  rewrite (inv_transit _ _ _ _ Hi). apply NoDup_omap_inj.
  intros j k [tj oj] [tk ok] x Hj Hk Hfj Hfk. unfold flight in Hfj, Hfk. cbn in Hfj, Hfk.
  destruct (phase tj) as [|?|?|opj tokj []|] eqn:Hpj; simplify_eq.
  destruct (phase tk) as [|?|?|opk tokk []|] eqn:Hpk; simplify_eq.
  eapply (slots_differ programs m0 s gs j k tj tk); [done..| |]; unfold slot_held; by rewrite ?Hpj, ?Hpk.
Qed.

(** the tasks stay as they are *)
Lemma actor_moves s' :
  tasks s' = tasks s → log s' = log s → requests s' = requests s →
  actor_answer (actor s') ++ signal_flights (reply_signals (pool s')) ≡ₚ
    actor_answer (actor s) ++ signal_flights (reply_signals (pool s)) →
  slot_bitmap (pool s') = slot_bitmap (pool s) → free_slots (pool s') = free_slots (pool s) →
  length (reply_signals (pool s')) = length (reply_signals (pool s)) →
  (∃ m, served m0 (log s) m ∧ actor_ok s' m) →
  (4 * length (queued (REQ s')) + actor_weight (actor s') + length (signal_flights (reply_signals (pool s'))) <
   4 * length (queued (REQ s)) + actor_weight (actor s) + length (signal_flights (reply_signals (pool s))))%nat →
  moves programs m0 s s'.
Proof using Hi.
  intros Ht Hl Hr Hf Hb Hs Hsig Hlog Hw. exists gs. split; [|unfold measure; rewrite Ht; lia].
  split; rewrite ?Ht, ?Hl, ?Hr, ?Hb, ?Hs, ?Hsig; [apply Hi..| |apply Hi|apply Hi|apply Hi|apply Hi|done].
  rewrite <-(inv_transit _ _ _ _ Hi). unfold in_transit. rewrite Hr. by apply Permutation_app_head.
Qed.

Lemma receive_moves r c :
  actor s = Receiving → try_receive (REQ s) = Some (r, c) → moves programs m0 s (update_actor (Handling r) (pool s) c s).
Proof using Hi Hch.
  intros Ha Hc. destruct (queued (REQ s)) as [|x l] eqn:Hq; [by rewrite receive_empty in Hc|].
  destruct (receive_first _ _ _ Hq) as (c' & Hc' & Hl). rewrite Hc in Hc'. assert (r = x ∧ c = c') as [-> ->] by (split; congruence).
  apply actor_moves; try done; cbn.
  - unfold requests. cbn. by rewrite Ha, Hl, Hq.
  - by rewrite Ha.
  - destruct (inv_log _ _ _ _ Hi) as (m & Hm & He). unfold actor_ok in He. rewrite Ha in He. by exists m.
  - rewrite Ha, Hl, Hq. cbn [length actor_weight]. lia.
Qed.
Lemma complete_moves token a :
  actor s = Completing token a → moves programs m0 s (update_actor Receiving (complete token a (pool s)) (REQ s) s).
Proof using Hi Hsg.
  intros Ha.
  assert (Hin : (token, Some a) ∈ in_transit s).
  { unfold in_transit. rewrite Ha. cbn. rewrite !elem_of_app. right. rewrite elem_of_cons. by left. }
  destruct (transit_task _ _ _ _ _ _ Hi Hin) as (k & t & op & Hk & Hp).
  assert (Hslot : 0 ≤ slot token < 4).
  { apply (so_bits _ _ (inv_slots _ _ _ _ Hi)), list_elem_of_omap. exists t.
    split; [by eapply list_elem_of_lookup_2, inv_lookup|]. unfold slot_held. by rewrite Hp. }
  set (i := Z.to_nat (slot token)). pose proof (inv_signals _ _ _ _ Hi) as Hlen. unfold REPLY_SLOTS in Hlen.
  destruct (lookup_lt_is_Some_2 (reply_signals (pool s)) i) as [cell Hcell]; [unfold i; lia|].
  assert (Hfly : ∀ x, unread cell = Some x → signal_flight (i, cell) = Some ({| slot := slot token; seq := signal_seq x |}, Some (resp x))).
  { intros x Hx. unfold signal_flight. cbn. rewrite Hx. cbn. unfold i. by rewrite Z2Nat.id by lia. }
  assert (Hempty : unread cell = None).
  { destruct (unread cell) as [x|] eqn:Hx; [exfalso|done]. specialize (Hfly x eq_refl).
    assert (Hsf : ({| slot := slot token; seq := signal_seq x |}, Some (resp x)) ∈ signal_flights (reply_signals (pool s))).
    { apply list_elem_of_omap. exists (i, cell). split; [|done]. apply (list_elem_of_lookup_2 _ i).
      by rewrite list_lookup_imap, Hcell. }
    assert (Hin2 : ({| slot := slot token; seq := signal_seq x |}, Some (resp x)) ∈ in_transit s).
    { unfold in_transit. rewrite !elem_of_app. by do 2 right. }
    destruct (transit_task _ _ _ _ _ _ Hi Hin2) as (j & tj & opj & Hj & Hpj).
    assert (j = k) as ->.
    { eapply (slots_differ programs m0 s gs j k tj t _ _ (slot token)); [done..| |];
        unfold slot_held; [by rewrite Hpj|by rewrite Hp]. }
    rewrite Hk in Hj. injection Hj as <- Hres. rewrite Hp in Hpj. injection Hpj as <- Htok.
    rewrite <-Htok, <-Hres in Hsf. pose proof transit_distinct as Hnd. unfold in_transit in Hnd. rewrite Ha in Hnd.
    apply NoDup_app in Hnd as (_ & _ & Hnd). cbn in Hnd. apply NoDup_cons in Hnd as [Hnd _]. done. }
  pose proof (signal_flights_insert (reply_signals (pool s)) i cell
    (signal {| signal_seq := seq token; resp := a |} cell) Hcell) as Hperm.
  unfold signal_flight in Hperm. cbn [fst snd] in Hperm. rewrite Hempty, signal_sets in Hperm.
  cbn [option_list fmap option_fmap option_map signal_seq resp option_rect] in Hperm.
  rewrite app_nil_r in Hperm. unfold i in Hperm at 2. rewrite Z2Nat.id in Hperm by lia.
  assert (Hset : reply_signals (complete token a (pool s)) =
    <[i := signal {| signal_seq := seq token; resp := a |} cell]> (reply_signals (pool s))).
  { cbn. fold i. apply list_eq. intros j. destruct (decide (i = j)) as [<-|Hne].
    - rewrite list_lookup_alter_eq, Hcell, list_lookup_insert_eq by (eapply lookup_lt_Some; eauto). done.
    - by rewrite list_lookup_alter_ne, list_lookup_insert_ne by done. }
  assert (Htok : {| slot := slot token; seq := seq token |} = token) by (by destruct token).
  rewrite Htok in Hperm.
  apply actor_moves; try done; cbn [update_actor actor pool REQ manager].
  - unfold requests. cbn. by rewrite Ha.
  - rewrite Ha, Hset. cbn [actor_answer app]. rewrite Hperm. by rewrite (Permutation_app_comm _ [_]).
  - rewrite Hset. apply length_insert.
  - destruct (inv_log _ _ _ _ Hi) as (m & Hm & He). unfold actor_ok in He. rewrite Ha in He. by exists m.
  - rewrite Ha, Hset. apply Permutation_length in Hperm. rewrite length_app in Hperm. rewrite Hperm.
    cbn [length actor_weight]. lia.
Qed.

Lemma log_serves r m' a : actor s = Handling r → serve (op r) (manager s) = (m', Ok a) →
  ∃ m, served m0 (log s ++ [(waits_for r, op r, a)]) m ∧ m = m'.
Proof using Hi.
  intros Ha Hs. destruct (inv_log _ _ _ _ Hi) as (m & Hm & He). unfold actor_ok in He. rewrite Ha in He. subst m.
  exists m'. split; [|done]. apply served_app. exists (manager s). split; [done|]. cbn. by exists m'.
Qed.
Lemma answers_for_app k l x : answers_for k (l ++ [x]) =
  answers_for k l ++ (if decide (x.1.1 = Some k) then [(x.1.2, x.2)] else []).
Proof. unfold answers_for. rewrite omap_app. cbn. by destruct (decide _). Qed.

(** a request nobody waits for *)
Lemma handle_silent_moves r m' a :
  actor s = Handling r → reply r = None → serve (op r) (manager s) = (m', Ok a) →
  moves programs m0 s {| tasks := tasks s; pool := pool s; REQ := REQ s; actor := Receiving; manager := m';
    log := log s ++ [(waits_for r, op r, a)] |}.
Proof using Hi.
  intros Ha Hr Hs. pose proof (log_serves _ _ _ Ha Hs) as Hlog. exists gs.
  split; [|unfold measure; cbn [tasks pool REQ actor]; rewrite Ha; cbn [actor_weight]; lia].
  assert (Hw : waits_for r = None) by (unfold waits_for; by rewrite Hr).
  assert (Hreq : requests s = r :: queued (REQ s)) by (unfold requests; by rewrite Ha).
  split; cbn; try apply Hi; [| | |done].
  - intros k g Hk. destruct (inv_ok _ _ _ _ Hi k g Hk) as [? Han ?]. split; try done.
    rewrite answers_for_app, Hw. cbn. by rewrite app_nil_r.
  - rewrite <-(inv_transit _ _ _ _ Hi). unfold in_transit. rewrite Hreq, Ha. cbn.
    unfold unanswered at 2. rewrite Hr. reflexivity.
  - pose proof (inv_asked _ _ _ _ Hi) as H. rewrite Hreq in H. by apply Forall_cons in H as [_ H].
Qed.
Lemma handle_moves r token m' a :
  actor s = Handling r → reply r = Some token → serve (op r) (manager s) = (m', Ok a) →
  moves programs m0 s {| tasks := tasks s; pool := pool s; REQ := REQ s; actor := Completing token a; manager := m';
    log := log s ++ [(waits_for r, op r, a)] |}.
Proof using Hi.
  intros Ha Hr Hs. pose proof (log_serves _ _ _ Ha Hs) as Hlog.
  assert (Hw : waits_for r = Some (sender r)) by (unfold waits_for; by rewrite Hr).
  assert (Hreq : requests s = r :: queued (REQ s)) by (unfold requests; by rewrite Ha).
  pose proof (inv_asked _ _ _ _ Hi) as Hask. rewrite Hreq in Hask. apply Forall_cons in Hask as [Hr0 Hask].
  destruct (Hr0 token Hr) as (t & Hk & Hp). set (k := sender r) in *.
  exists (<[k := (t, Some a)]> gs).
  split; [|unfold measure; cbn [tasks pool REQ actor]; rewrite Ha; cbn [actor_weight]; lia].
  split; cbn; try apply Hi; [|by rewrite length_insert; apply Hi| | | |done].
  - rewrite list_fmap_insert, <-(inv_tasks _ _ _ _ Hi), list_insert_id; [done|].
    by rewrite (inv_tasks _ _ _ _ Hi), list_lookup_fmap, Hk.
  - intros j g Hj. rewrite Hw. destruct (decide (j = k)) as [->|Hne].
    + rewrite list_lookup_insert_eq in Hj by (eapply lookup_lt_Some; eauto). simplify_eq.
      destruct (inv_ok _ _ _ _ Hi _ _ Hk) as [Hpr Han Hal]. split; cbn in *; try done.
      rewrite answers_for_app, Han. cbn. rewrite decide_True by done. unfold pending. cbn. rewrite Hp. cbn.
      by rewrite app_nil_r.
    + rewrite list_lookup_insert_ne in Hj by done. destruct (inv_ok _ _ _ _ Hi _ _ Hj) as [Hpr Han Hal].
      split; try done. rewrite answers_for_app, Han. cbn. rewrite decide_False by congruence. by rewrite app_nil_r.
  - pose proof (omap_insert_perm flight gs k _ (t, Some a) Hk) as Hperm. rewrite <-(inv_transit _ _ _ _ Hi) in Hperm.
    unfold flight in Hperm at 2 3. cbn in Hperm. rewrite Hp in Hperm. cbn in Hperm.
    apply (Permutation_app_inv_r [(token, None)]). rewrite Hperm. unfold in_transit. rewrite Hreq, Ha. cbn.
    unfold unanswered at 2. rewrite Hr. cbn. solve_Permutation.
  - pose proof transit_distinct as Hnd. unfold in_transit in Hnd. rewrite Hreq in Hnd. cbn in Hnd.
    unfold unanswered in Hnd at 1. rewrite Hr in Hnd. cbn in Hnd. apply NoDup_cons in Hnd as [Hnd _].
    apply Forall_forall. intros r' Hin tok Htok. pose proof (proj1 (Forall_forall _ _) Hask r' Hin tok Htok) as (t' & Ht' & Hp').
    exists t'. split; [|done]. rewrite list_lookup_insert_ne; [done|]. intros Heq. rewrite <-Heq, Hk in Ht'. simplify_eq.
    rewrite Hp in Hp'. injection Hp' as _ <-. apply Hnd, elem_of_app. left. apply list_elem_of_omap.
    exists r'. split; [done|]. unfold unanswered. by rewrite Htok.
Qed.
(** the handler panics, or does not come back *)
Lemma stop_moves r m' (looping : bool) :
  actor s = Handling r → serve (op r) (manager s) = (m', if looping then OutOfFuel else Panic) →
  moves programs m0 s {| tasks := tasks s; pool := pool s; REQ := REQ s;
    actor := if looping then Looping r else Stopped r; manager := m'; log := log s |}.
Proof using Hi.
  intros Ha Hs. destruct (inv_log _ _ _ _ Hi) as (m & Hm & He). unfold actor_ok in He. rewrite Ha in He. subst m.
  apply actor_moves; try done; destruct looping; cbn [actor pool manager REQ].
  1, 2: unfold requests; cbn; by rewrite Ha.
  1, 2: by rewrite Ha.
  1, 2: exists (manager s); split; [done|]; unfold actor_ok; cbn; by rewrite Hs.
  all: rewrite Ha; cbn [actor_weight]; lia.
Qed.
Lemma actor_step_moves s' : actor_step s = Some s' → moves programs m0 s s'.
Proof using Hi Hch Hsg Hsem.
  unfold actor_step. destruct (actor s) as [|r|token a|r|r] eqn:Ha.
  - destruct (try_receive (REQ s)) as [[r c]|] eqn:Hc; [|done]. cbn. intros [= <-]. by apply receive_moves.
  - destruct (serve (op r) (manager s)) as [m' [a|e| |]] eqn:Hs.
    + destruct (reply r) as [token|] eqn:Hr; intros [= <-]; [by eapply handle_moves|by eapply handle_silent_moves].
    + by destruct (serve_no_error (op r) (manager s) m' e).
    + intros [= <-]. by apply (stop_moves r m' false).
    + intros [= <-]. by apply (stop_moves r m' true).
  - intros [= <-]. by apply complete_moves.
  - done.
  - done.
Qed.
End Steps.

(** ** The beginning and the end *)
Lemma signal_flights_new n : signal_flights (replicate n signal_new) = [].
Proof using Hsg.
  unfold signal_flights. assert (H : ∀ l : list (nat * signal_cell ReplySignal),
    Forall (λ x, unread x.2 = None) l → omap signal_flight l = []).
  { induction 1 as [|x l Hx _ IH]; [done|]. cbn. unfold signal_flight. by rewrite Hx. }
  apply H, Forall_forall. intros [i c] Hin. apply list_elem_of_lookup in Hin as [j Hj].
  rewrite list_lookup_imap in Hj. destruct (replicate n signal_new !! j) as [c'|] eqn:Hc; [|done].
  apply lookup_replicate in Hc as [-> _]. cbn in Hj. simplify_eq. apply unread_new.
Qed.
Lemma omap_idle {B} (f : Task → option B) programs :
  (∀ c, f (task_new c) = None) → omap f (task_new <$> programs) = [].
Proof. intros Hf. induction programs as [|c l IH]; [done|]. cbn. by rewrite Hf. Qed.

Lemma inv_new programs m :
  (length programs ≤ REPLY_SLOTS)%nat → inv programs m (system_new programs m) ((λ t, (t, None)) <$> (task_new <$> programs)).
Proof using Hch Hsg Hsem.
  intros Hl. split; cbn [system_new tasks pool REQ actor log manager ReplyPool_init slot_bitmap free_slots reply_signals].
  - rewrite <-list_fmap_compose. by rewrite list_fmap_id.
  - by rewrite !length_fmap.
  - intros k g Hk. rewrite !list_lookup_fmap in Hk. destruct (programs !! k) as [c|] eqn:Hc; [|done].
    cbn in Hk. simplify_eq. split; [|done|done]. by exists c.
  - unfold in_transit, requests. cbn [system_new actor REQ pool ReplyPool_init reply_signals actor_requests actor_answer app].
    rewrite queued_new, signal_flights_new. cbn [omap list_omap app].
    clear Hl. induction programs as [|c l IH]; [done|]. cbn. exact IH.
  - unfold requests. cbn. rewrite queued_new. apply Forall_nil_2.
  - rewrite omap_idle by done. split; [lia|apply NoDup_nil_2|]. intros i. rewrite Z.bits_0. split; [by intros ?%not_elem_of_nil|by intros [_ ?]].
  - split; [apply waiters_new|]. rewrite permits_new. lia.
  - apply length_replicate.
  - by exists m.
Qed.

Lemma inv_reachable programs m s :
  (length programs ≤ REPLY_SLOTS)%nat → rtc step (system_new programs m) s → ∃ gs, inv programs m s gs.
Proof using Hch Hsg Hsem.
  intros Hl Hr. pose proof (inv_new programs m Hl) as Hi. revert Hi.
  generalize ((λ t, (t, @None Answer)) <$> (task_new <$> programs)).
  induction Hr as [s|s s' s'' Hs _ IH]; intros gs Hi; [by exists gs|].
  destruct Hs as [k Hs|Hs].
  - destruct (task_step_moves programs m s gs Hi k s' Hs) as (gs' & Hi' & _). by eapply IH.
  - destruct (actor_step_moves programs m s gs Hi s' Hs) as (gs' & Hi' & _). by eapply IH.
Qed.

(** Task [k] has run its program to the end and has the answers the actor gave to its calls. *)
Definition finished (programs : list (list Command)) s : Prop :=
  ∀ k t, tasks s !! k = Some t → phase t = Idle ∧ program t = [] ∧
    results t = answers_for k (log s) ∧ ∃ c, programs !! k = Some c ∧ (results t).*1 = calls c.
Definition stopped s : Prop := match actor s with Stopped _ | Looping _ => True | _ => False end.

(** When the actor waits for a request and none is there, a task that has not ended can go on. *)
Lemma task_progress programs m s gs k t :
  inv programs m s gs → actor s = Receiving → queued (REQ s) = [] → tasks s !! k = Some t →
  (phase t = Idle ∧ program t = []) ∨ ∃ s', task_step k s = Some s'.
Proof using Hch Hsg.
  intros Hi Ha Hq Ht. unfold task_step. rewrite Ht. cbn.
  destruct (phase t) as [|op a|op token|op token w|] eqn:Hp.
  - destruct (program t) as [|[] rest]; [by left|right; by eexists..].
  - right. destruct (acquire_step k a (pool s)). by eexists.
  - right. destruct (send_room {| op := op; reply := Some token; sender := k |} (REQ s)) as (c & Hc & _).
    { rewrite Hq. cbn. unfold REQ_CAPACITY. lia. }
    rewrite Hc. by eexists.
  - right. destruct w as [|a|a]; [|by eexists..].
    destruct (inv_ghost _ _ _ _ _ _ Hi Ht) as [o Hk].
    assert (Hin : (token, o) ∈ in_transit s).
    { rewrite (inv_transit _ _ _ _ Hi). apply list_elem_of_omap. exists (t, o).
      split; [by eapply list_elem_of_lookup_2|]. unfold flight. cbn. by rewrite Hp. }
    unfold in_transit, requests in Hin. rewrite Ha, Hq in Hin. cbn in Hin.
    apply list_elem_of_omap in Hin as ([i c] & Hin & Hf). apply list_elem_of_lookup in Hin as [j Hj].
    rewrite list_lookup_imap in Hj. destruct (reply_signals (pool s) !! j) as [c'|] eqn:Hc; [|done]. cbn in Hj. simplify_eq.
    unfold signal_flight in Hf. cbn in Hf. destruct (unread c) as [x|] eqn:Hu; [|done]. cbn in Hf. simplify_eq. cbn.
    rewrite Nat2Z.id, Hc. cbn. destruct (take_some c x Hu) as (c' & -> & _). cbn. by eexists.
  - exfalso. destruct (inv_ghost _ _ _ _ _ _ Hi Ht) as [o Hk].
    by apply (task_alive _ _ _ _ (inv_ok _ _ _ _ Hi _ _ Hk)).
Qed.
Lemma progress programs m s gs :
  inv programs m s gs → (stopped s ∨ finished programs s) ∨ ∃ s', step s s'.
Proof using Hch Hsg.
  intros Hi. destruct (actor_step s) as [s'|] eqn:Hs; [right; exists s'; by apply step_actor|].
  unfold actor_step in Hs. destruct (actor s) as [|r|token a|r|r] eqn:Ha; [|exfalso|done|..].
  - destruct (queued (REQ s)) as [|r l] eqn:Hq.
    2:{ destruct (receive_first _ _ _ Hq) as (c & Hc & _). by rewrite Hc in Hs. }
    destruct (decide (List.Exists (λ k, is_Some (task_step k s)) (List.seq 0 (length (tasks s))))) as [He|Hn].
    { right. apply Exists_exists in He as (k & _ & s' & Hs'). exists s'. by eapply step_task. }
    left. right. intros k t Ht. destruct (inv_ghost _ _ _ _ _ _ Hi Ht) as [o Hk].
    destruct (task_progress _ _ _ _ _ _ Hi Ha Hq Ht) as [[Hp Hc]|[s' Hs']].
    + destruct (inv_ok _ _ _ _ Hi _ _ Hk) as [(c & Hc1 & Hc2) Han _]. cbn [fst] in *.
      split_and!; [done..| |].
      * rewrite Han. unfold pending. cbn. rewrite Hp. by rewrite app_nil_r.
      * exists c. split; [done|]. rewrite Hc2. unfold current. rewrite Hp, Hc. cbn. by rewrite app_nil_r.
    + exfalso. apply Hn, Exists_exists. exists k. split; [|by eexists].
      apply list_elem_of_In, in_seq. split; [lia|]. by eapply lookup_lt_Some.
  - by destruct (serve (op r) (manager s)) as [m' [a|e| |]].
  - left. left. unfold stopped. by rewrite Ha.
  - left. left. unfold stopped. by rewrite Ha.
Qed.

(** C33 - whatever the interleaving of at most four tasks and the actor: the
    requests are served one after the other; what a task has got so far are the
    answers the actor gave to its own calls, in the order of its program, and at
    most one more answer is on its way to it; no task panics, and two tasks never
    hold the same reply slot. *)
Theorem answers_reach_their_senders programs m s :
  (length programs ≤ REPLY_SLOTS)%nat → rtc step (system_new programs m) s →
  (∃ m', served m (log s) m' ∧ (stopped s ∨ m' = manager s)) ∧
  (∀ k t, tasks s !! k = Some t → phase t ≠ Panicked ∧
     ∃ c rest, programs !! k = Some c ∧ answers_for k (log s) = results t ++ rest ∧ (length rest ≤ 1)%nat ∧
       (answers_for k (log s)).*1 `prefix_of` calls c) ∧
  (∀ j k tj tk i, tasks s !! j = Some tj → tasks s !! k = Some tk →
     slot_held tj = Some i → slot_held tk = Some i → j = k).
Proof using Hch Hsg Hsem.
  intros Hl Hr. destruct (inv_reachable _ _ _ Hl Hr) as [gs Hi]. split_and!.
  - destruct (inv_log _ _ _ _ Hi) as (m' & Hm & He). exists m'. split; [done|].
    unfold actor_ok, stopped in *. destruct (actor s); auto.
  - intros k t Ht. destruct (inv_ghost _ _ _ _ _ _ Hi Ht) as [o Hk].
    destruct (inv_ok _ _ _ _ Hi _ _ Hk) as [(c & Hc1 & Hc2) Han Hal]. split; [done|].
    exists c, (pending (t, o)). split_and!; [done|done| |].
    + unfold pending. cbn. destruct (phase t) as [|?|?|? ? []|]; try (cbn; lia). by destruct o; cbn; lia.
    + rewrite Han, Hc2, fmap_app. apply prefix_app. cbn [fst]. unfold pending, current. cbn.
      destruct (phase t) as [|?|?|? ? []|]; [..|destruct o| | |]; cbn;
        first [apply prefix_nil|by exists (calls (program t))].
  - intros j k tj tk i Hj Hk. destruct (inv_ghost _ _ _ _ _ _ Hi Hj) as [oj Hgj].
    destruct (inv_ghost _ _ _ _ _ _ Hi Hk) as [ok Hgk]. by eapply slots_differ.
Qed.

(** C34 - every request is answered unless a handler panics or does not come back:
    from the start with at most four tasks, every run, whatever the schedule,
    comes to a state in which each task has run its program to the end with an
    answer of the actor to each of its calls, or the actor has stopped at a
    request whose handler panics on the manager the requests before it left, or
    it is at a request whose handler does not come back from there (within the
    fuel of the model, whatever it is: the handler follows a chain of clusters
    that is longer or runs in a circle).  No step is wasted and nothing waits
    for ever before that. *)
Theorem every_request_is_answered programs m :
  (length programs ≤ REPLY_SLOTS)%nat →
  eventually step (λ s, finished programs s ∨
    ∃ r m', served m (log s) m' ∧
      (actor s = Stopped r ∧ snd (serve (op r) m') = Panic ∨
       actor s = Looping r ∧ snd (serve (op r) m') = OutOfFuel)) (system_new programs m).
Proof using Hch Hsg Hsem.
  intros Hl. apply (eventually_measure step (λ s, ∃ gs, inv programs m s gs) _ measure).
  - intros s s' [gs Hi] [k Hs|Hs].
    + destruct (task_step_moves programs m s gs Hi k s' Hs) as (gs' & Hi' & ?). split; [by exists gs'|done].
    + destruct (actor_step_moves programs m s gs Hi s' Hs) as (gs' & Hi' & ?). split; [by exists gs'|done].
  - intros s [gs Hi]. destruct (progress _ _ _ _ Hi) as [[Hs|Hf]|Hs]; [left; right|by left; left|by right].
    destruct (inv_log _ _ _ _ Hi) as (m' & Hm & He). unfold stopped, actor_ok in *.
    destruct (actor s) as [| | |r|r]; try done; exists r, m'; auto.
  - eexists. by apply inv_new.
Qed.
End Invariant.

(** * One task more than slots *)
Section FiveTasks.
Context {cfg : Config} {crates : Crates} {bd : BlockDevice} {be : BlockDeviceError bd} {fu : Fuel}.
#[local] Instance req_channel : Channel Req := list_channel Req REQ_CAPACITY.
#[local] Instance reply_signal : Signal ReplySignal := option_signal ReplySignal.
#[local] Instance slot_semaphore : FairSemaphore := queue_semaphore REPLY_SLOTS.

(** Five tasks ask for the metadata of a file each. *)
Definition five_tasks (handle : Z) : list (list Command) := replicate 5 [Call (GetMetadata handle)].
(** A mounted file system and no open handle. *)
Definition idle_manager (f : FileSystem) : FsManager := {|
  mgr_dev := None; file_system := Some f; files := Handles_new; directories := Handles_new;
  mgr_time_provider := None; mgr_clock := 0 |}.

(** All five get a token and send their request (six steps each); the actor
    serves four of them and the tasks 1 to 3 get their answers; task 4, which
    shares slot 0 with task 0, takes the answer to task 0 from the signal; the
    actor answers task 4, and task 0 takes that answer. *)
Definition lost_answers : list (option nat) :=
  concat ((λ k, replicate 6 (Some k)) <$> List.seq 0 5) ++
  replicate 12 None ++ concat ((λ k, replicate 3 (Some k)) <$> [1; 2; 3]%nat) ++
  [Some 4%nat] ++ replicate 3 None ++ [Some 0%nat].

(** C39 - with five tasks at a time answers get lost: [acquire] drops the guard
    of its permit at once, so the semaphore lets the fifth task in,
    [claim_slot_locked] finds no free slot and gives it slot 0, which task 0 has;
    each of the two takes the answer to the other from the signal and drops it.
    Afterwards all five requests have been served, no step is left, and two tasks
    wait for ever, each at the signal of slot 0. *)
Theorem fifth_request_loses_answers f handle :
  ∃ s, run lost_answers (system_new (five_tasks handle) (idle_manager f)) = Some s ∧
    (∀ s', ¬ step s s') ∧ length (log s) = 5%nat ∧
    ∀ k, k = 0%nat ∨ k = 4%nat → ∃ t token, tasks s !! k = Some t ∧ results t = [] ∧
      phase t = Wait (GetMetadata handle) token AtSignal ∧ slot token = 0.
Proof.
  destruct (run lost_answers (system_new (five_tasks handle) (idle_manager f))) as [s|] eqn:Hr;
    vm_compute in Hr; [|discriminate Hr]. injection Hr as <-.
  eexists. split; [reflexivity|]. split_and!.
  - intros s' [k Hs|Hs]; [|discriminate Hs].
    do 5 (destruct k as [|k]; [discriminate Hs|]). discriminate Hs.
  - reflexivity.
  - intros k [->| ->]; eexists _, _; repeat split; reflexivity.
Qed.

(** A schedule is a run of the system. *)
Lemma run_rtc schedule : ∀ s s', run schedule s = Some s' → rtc step s s'.
Proof.
  induction schedule as [|who l IH]; intros s s'; cbn; [by intros [= ->]|].
  destruct (run_one who s) as [s2|] eqn:Hs; [|done]. cbn. intros Hr. eapply rtc_l; [|by apply IH].
  destruct who as [k|]; [by eapply step_task|by apply step_actor].
Qed.

End FiveTasks.

(** * A concrete system *)
Section Sample.
#[local] Existing Instance debug_build.
#[local] Existing Instance dummy_device.
#[local] Existing Instance reference_crates.
#[local] Existing Instance dummy_device_error.
#[local] Existing Instance sample_actor_fuel.
#[local] Existing Instance req_channel.
#[local] Existing Instance reply_signal.
#[local] Existing Instance slot_semaphore.

(** Two tasks; the first has its answer, the second has sent its request. *)
Definition two_tasks : list (list Command) := [[Call (GetMetadata 7); DropFile 7]; [Call (CloseDirectory 3)]].
Definition half_way : list (option nat) :=
  replicate 6 (Some 0%nat) ++ replicate 6 (Some 1%nat) ++ replicate 3 None ++ replicate 3 (Some 0%nat).

Lemma answers_reach_their_senders_witness :
  ∃ s t, run half_way (system_new two_tasks (idle_manager fragmented_volume)) = Some s ∧
    tasks s !! 0%nat = Some t ∧ results t = answers_for 0 (log s) ∧ length (results t) = 1%nat.
Proof.
  generalize fragmented_volume. intros f. destruct (run half_way (system_new two_tasks (idle_manager f))) as [s|] eqn:Hr;
    [|exfalso; vm_compute in Hr; discriminate Hr].
  pose proof (answers_reach_their_senders (Hch := list_channel_ok Req REQ_CAPACITY)
    (Hsg := option_signal_ok ReplySignal) (Hsem := queue_semaphore_ok REPLY_SLOTS)
    two_tasks (idle_manager f) s ltac:(cbn; unfold REPLY_SLOTS; lia) (run_rtc _ _ _ Hr)) as (_ & H & _).
  exists s. vm_compute in Hr. injection Hr as <-. eexists. split; [reflexivity|]. split; [reflexivity|].
  destruct (H 0%nat _ eq_refl) as (_ & c & rest & _ & Ha & _). split; [|reflexivity].
  cbn [log] in Ha |- *. cbn in Ha |- *. destruct rest; [|discriminate Ha]. reflexivity.
Defined.

Lemma every_request_is_answered_witness :
  eventually step (λ s, finished two_tasks s ∨
    ∃ r m', served (idle_manager fragmented_volume) (log s) m' ∧
      (actor s = Stopped r ∧ snd (serve (op r) m') = Panic ∨
       actor s = Looping r ∧ snd (serve (op r) m') = OutOfFuel)) (system_new two_tasks (idle_manager fragmented_volume)).
Proof.
  generalize fragmented_volume. intros f. apply (every_request_is_answered (Hch := list_channel_ok Req REQ_CAPACITY)
    (Hsg := option_signal_ok ReplySignal) (Hsem := queue_semaphore_ok REPLY_SLOTS)
    two_tasks (idle_manager f)). vm_compute. lia.
Defined.
End Sample.
