(* ===== verification/Replays.v ===== *)
(** * The unit tests of the crate, replayed on the model

    The tests of src/file.rs and src/file_system.rs: each one runs the model's
    operations on the in-memory device and compares what the test compares. *)

From S2P Require Import Prelude Text Crates Errors Utils Timestamp BootSector Device SlotCache Touched Fat Allocation DirectoryEntry Volume Directory FileSystem File Api DirList.
Open Scope string_scope.
Open Scope list_scope.
Open Scope Z_scope.

Section Replays.
#[local] Existing Instance debug_build.
#[local] Existing Instance reference_crates.
#[local] Existing Instance dummy_device.
#[local] Instance fuel_1000 : Fuel := 1000%nat.

(** [test_utils::empty_fs] *)
Definition test_fs (sectors : nat) (bitmap_sector cluster_count : Z) (table : UpcaseTable) : FileSystem := {|
  device := (let d := DummyBlockDevice_new sectors in
             {| blocks := if bitmap_sector =? 0 then blocks d
                          else <[Z.to_nat bitmap_sector := 1 :: zeros 511]> (blocks d);
                write_count := 0 |} : dev);
  is_mounted := true;
  fs := {| FileSystemDetails.cluster_heap_offset := 0; FileSystemDetails.fat_offset := 0;
           FileSystemDetails.sectors_per_cluster := 64; FileSystemDetails.cluster_length := 32768;
           FileSystemDetails.cluster_count := 0; FileSystemDetails.first_cluster_of_root_dir := 2 |};
  upcase_table := table;
  allocator := {| bitmap := {| Slim.first_sector := bitmap_sector; Slim.num_sectors := bitmap_sector;
                               Slim.cluster_count := cluster_count |};
                  acache := SlotCache_new; next_search_cluster := next_search_cluster Allocator_new |};
  fat := Fat_new; data_blocks := SlotCache_new; time_provider := None; clock := 0 |}.
Definition empty_fs : FileSystem := test_fs 512 1 8 UpcaseTable_default.
(** a string literal *)
Definition path (s : string) : str :=
  (λ c, Z.of_nat (Ascii.nat_of_ascii c)) <$> String.list_ascii_of_string s.
Abbreviation TM := (M FileSystem err) (only parsing).

(** the option combinations of the tests *)
Definition create_rw := OpenOptions.set_write true (OpenOptions.set_create true OpenOptions.new).
Definition read_only := OpenOptions.set_read true OpenOptions.new.
(** [fs.open(path, options).unwrap() .. .close(&mut fs)] *)
Definition session {A} (p : string) (o : OpenOptions.t) (body : M (File * FileSystem) err A) : TM A :=
  with_file (path p) o body.
(** the bytes of a file, as [test_utils::read_file] reads them *)
Definition read_file (p : string) : TM (list Z) :=
  file ← open (path p) read_only;
  r ← with_local file
    (l ← gets (metadata_len ∘ metadata ∘ fst);
     r ← with_local (zeros l) File.read; mret (fst r));
  mret (snd r).
(** [fs.dev.blocks[s]] *)
Definition block_of (d : FileSystem) (s : nat) : list Z := blocks (device d : DummyBlockDevice) !!! s.

Definition read_write := OpenOptions.set_read true (OpenOptions.set_write true OpenOptions.new).
Definition write_append := OpenOptions.set_append true (OpenOptions.set_write true OpenOptions.new).
Definition write_truncate := OpenOptions.set_truncate true (OpenOptions.set_write true OpenOptions.new).
(** create and close a file *)
Definition touch_file (p : string) : TM () := session p create_rw (mret ()).
Definition expect (b : bool) : TM () := lift (assert b).
(** [assert_eq!(fs.dev.blocks[s][i], x)] *)
Definition expect_byte (s i : nat) (x : Z) : TM () :=
  b ← gets (λ f, block_of f s !!! i); expect (b =? x).
Definition expect_bytes (s i : nat) (xs : list Z) : TM () :=
  b ← gets (λ f, take (length xs) (drop i (block_of f s))); expect (bool_decide (b = xs)).
Definition expect_names (p : string) (names : list string) : TM () :=
  l ← list_names (path p); expect (bool_decide (l = path <$> names)).
(** the result of an action that is expected to fail *)
Definition fails {A} (m : TM A) (is_expected : err → bool) : TM () :=
  r ← try_ m; expect (match r with inl e => is_expected e | inr _ => false end).
Definition passes (f : FileSystem) (test : TM ()) : bool :=
  match snd (test f) with Ok _ => true | _ => false end.
Definition full (x : Z) : list Z := replicate (Z.to_nat 32768) x.

(** [empty_fs] with a FAT, and the given first byte of the bitmap *)
Definition with_fat (bits : Z) (f : FileSystem) : FileSystem :=
  {| device := ({| blocks := <[1%nat := bits :: zeros 511]> (blocks (device f : DummyBlockDevice));
                   write_count := 0 |} : dev);
     is_mounted := is_mounted f; fs := fs f; upcase_table := upcase_table f;
     allocator := allocator f;
     fat := {| start_of_fat_sector := Some 400; fcache := fcache (fat f) |};
     data_blocks := data_blocks f; time_provider := None; clock := 0 |}.
Definition fat_fs : FileSystem := with_fat 1 empty_fs.

(** ** src/file.rs *)

Example fragmented_write_terminates_fat_chain_correctly :
  passes (with_fat 5 empty_fs)
    (session "fragmented.txt" create_rw (File.write (full 0xAA) ;; File.write (full 0xBB)) ;;
     expect_bytes 400 12 (to_le_bytes 4 5) ;;
     expect_bytes 400 20 (to_le_bytes 4 0xFFFFFFFF) ;;
     buf ← read_file "fragmented.txt";
     expect (bool_decide (buf = full 0xAA ++ full 0xBB))) = true.
Proof. vm_compute. reflexivity. Qed.

Example flush_without_changes_does_not_rewrite_dir_entry :
  passes empty_fs
    (session "hello.txt" create_rw
      (let count := gets (λ s, write_count (device (snd s) : DummyBlockDevice)) in
       File.write (path "foo") ;; File.flush ;; n ← count;
       File.flush ;; n' ← count; lift (assert (n =? n')) ;;
       File.write (path "bla") ;; File.flush ;; n' ← count; lift (assert (n <? n')))) = true.
Proof. vm_compute. reflexivity. Qed.

Example overwrite_in_place_does_not_allocate :
  passes empty_fs
    (session "a.bin" create_rw (File.write (full 0xAA)) ;;
     b ← gets (λ f, block_of f 1 !!! 0%nat);
     session "a.bin" read_write (File.write (full 0xBB)) ;;
     expect_byte 1 0 b ;;
     buf ← read_file "a.bin"; expect (bool_decide (buf = full 0xBB))) = true.
Proof. vm_compute. reflexivity. Qed.

Example overwrite_extending_past_eof_allocates_only_the_overhang :
  passes empty_fs
    (session "b.bin" create_rw
       (File.write (full 0xAA) ;; File.seek 16384 ;; File.write (full 0xBB)) ;;
     expect_byte 1 0 7 ;;
     buf ← read_file "b.bin";
     expect (bool_decide (buf = take (Z.to_nat 16384) (full 0xAA) ++ full 0xBB))) = true.
Proof. vm_compute. reflexivity. Qed.

Example write_after_truncate_allocates_and_marks_the_bitmap :
  passes empty_fs
    (session "a.bin" create_rw (File.write (full 0xAA)) ;;
     session "a.bin" write_truncate (File.write (path "hello")) ;;
     b ← gets (λ f, block_of f 1 !!! 0%nat);
     expect (bool_decide (b ∈ [3; 5; 9])) ;;
     buf ← read_file "a.bin"; expect (bool_decide (buf = path "hello"))) = true.
Proof. vm_compute. reflexivity. Qed.

Definition is_ReadNotEnabled (e : err) : bool := match e with ReadNotEnabled => true | _ => false end.
Example reading_a_write_only_file_fails_even_at_eof :
  let test {A} (body : M (File * FileSystem) err A) : TM () :=
    fails (session "write_only.txt" write_append body) is_ReadNotEnabled in
  passes empty_fs
    (session "write_only.txt" create_rw (File.write (path "hello")) ;;
     test File.read_to_string ;; test (with_local [] File.read_to_end) ;;
     test (with_local (zeros 4) File.read) ;; test (with_local [] File.read)) = true.
Proof. vm_compute. reflexivity. Qed.

Example allocated_reads :
  passes empty_fs
    (session "temp.txt" create_rw (File.write (path "hello")) ;;
     s ← session "temp.txt" read_only File.read_to_string;
     expect (bool_decide (s = path "hello")) ;;
     session "temp.txt" read_only
       (r ← with_local [] File.read_to_end;
        lift (assert (bool_decide (r = (path "hello", 5)))) ;;
        r ← with_local [] File.read_to_end; lift (assert (snd r =? 0)))) = true.
Proof. vm_compute. reflexivity. Qed.

(** ** src/file_system.rs *)

Example removing_file_keeps_later_dir_entries_visible :
  passes empty_fs
    (touch_file "a.txt" ;; touch_file "b.txt" ;; touch_file "c.txt" ;;
     remove_file (path "a.txt") ;;
     expect_names "" ["b.txt"; "c.txt"] ;;
     expect_byte 0 0 0x05 ;; expect_byte 0 32 0x40 ;; expect_byte 0 64 0x41 ;;
     expect_bytes 0 66 [97; 0; 46; 0]) = true.
Proof. vm_compute. reflexivity. Qed.

Example deleted_slot_is_reused_by_next_create :
  passes empty_fs
    (touch_file "a.txt" ;; touch_file "b.txt" ;; remove_file (path "a.txt") ;;
     touch_file "d.txt" ;;
     expect_byte 0 0 0x85 ;; expect_names "" ["d.txt"; "b.txt"]) = true.
Proof. vm_compute. reflexivity. Qed.

Definition is_DirectoryNotEmpty (e : err) : bool :=
  match e with DirectoryNotEmpty => true | _ => false end.
Example can_remove_dir_after_contents_deleted :
  passes empty_fs
    (create_directory (path "my_dir") ;; touch_file "my_dir/a.txt" ;;
     fails (remove_dir (path "my_dir")) is_DirectoryNotEmpty ;;
     remove_file (path "my_dir/a.txt") ;; remove_dir (path "my_dir") ;;
     b ← exists_ (path "my_dir"); expect (negb b)) = true.
Proof. vm_compute. reflexivity. Qed.

Example renaming_a_file_keeps_later_entries_visible :
  passes empty_fs
    (touch_file "a.txt" ;; touch_file "b.txt" ;; touch_file "c.txt" ;;
     rename (path "a.txt") (path "z.txt") ;;
     expect_names "" ["b.txt"; "c.txt"; "z.txt"]) = true.
Proof. vm_compute. reflexivity. Qed.

Example open_file_creates_empty_file :
  passes (test_fs 4 0 0 UpcaseTable_default)
    (open (path "hello.txt") create_rw ;;
     expect_bytes 0 0
       [133; 2; 114; 4; 32; 0; 0; 0; 0; 0; 33; 0; 0; 0; 33; 0; 0; 0; 33; 0; 0; 0; 0; 0; 0; 0; 0; 0; 0; 0; 0; 0;
        192; 3; 0; 9; 70; 48; 0; 0; 0; 0; 0; 0; 0; 0; 0; 0; 0; 0; 0; 0; 0; 0; 0; 0; 0; 0; 0; 0; 0; 0; 0; 0;
        193; 0; 104; 0; 101; 0; 108; 0; 108; 0; 111; 0; 46; 0; 116; 0; 120; 0; 116; 0; 0; 0; 0; 0; 0; 0; 0; 0; 0; 0; 0; 0]) = true.
Proof. vm_compute. reflexivity. Qed.

Example write_text_to_file :
  passes (test_fs 128 1 2 UpcaseTable_default)
    (session "hello.txt" create_rw (File.write (path "world")) ;;
     expect_byte 1 0 3 ;;
     expect_bytes 0 0
       [133; 2; 84; 24; 32; 0; 0; 0; 0; 0; 33; 0; 0; 0; 33; 0; 0; 0; 33; 0; 0; 0; 0; 0; 0; 0; 0; 0; 0; 0; 0; 0;
        192; 3; 0; 9; 70; 48; 0; 0; 5; 0; 0; 0; 0; 0; 0; 0; 0; 0; 0; 0; 3; 0; 0; 0; 5; 0; 0; 0; 0; 0; 0; 0;
        193; 0; 104; 0; 101; 0; 108; 0; 108; 0; 111; 0; 46; 0; 116; 0; 120; 0; 116; 0; 0; 0; 0; 0; 0; 0; 0; 0; 0; 0; 0; 0] ;;
     expect_bytes 64 0 (path "world")) = true.
Proof. vm_compute. reflexivity. Qed.

(** the [remount] of the test: a new file system on the device, of which only
    these fields are set *)
Definition remount (d : dev) : FileSystem :=
  let f := FileSystem_new d in
  {| device := device f; is_mounted := true;
     fs := {| FileSystemDetails.cluster_heap_offset := FileSystemDetails.cluster_heap_offset (fs f);
              FileSystemDetails.fat_offset := FileSystemDetails.fat_offset (fs f);
              FileSystemDetails.sectors_per_cluster := FileSystemDetails.sectors_per_cluster (fs f);
              FileSystemDetails.cluster_length := FileSystemDetails.cluster_length (fs f);
              FileSystemDetails.cluster_count := FileSystemDetails.cluster_count (fs f);
              FileSystemDetails.first_cluster_of_root_dir := 2 |};
     upcase_table := UpcaseTable_default;
     allocator := {| bitmap := {| Slim.first_sector := 1; Slim.num_sectors := 1; Slim.cluster_count := 8 |};
                     acache := acache (allocator f);
                     next_search_cluster := next_search_cluster (allocator f) |};
     fat := fat f; data_blocks := data_blocks f; time_provider := time_provider f; clock := clock f |}.
Definition remounting : TM () := d ← unmount; modify (λ _, remount d).

Example removed_file_stays_removed_after_remount :
  passes empty_fs
    (session "hello.txt" create_rw (File.write (path "foo")) ;;
     remounting ;; b ← exists_ (path "hello.txt"); expect b ;;
     remove_file (path "hello.txt") ;;
     remounting ;; b ← exists_ (path "hello.txt"); expect (negb b)) = true.
Proof. vm_compute. reflexivity. Qed.

(** ** Runs that go wrong

    The same operations on inputs the unit tests leave out. *)

(** A write that fills a cluster and leaves a partial sector: the last partial
    sector is written without moving to the next cluster, and the count of the
    bytes left in the cluster underflows. *)
Example write_past_a_full_cluster_panics :
  snd (session "a" create_rw (File.write (full 0xAA ++ replicate 5 0xBB)) empty_fs) = Panic.
Proof. vm_compute. reflexivity. Qed.

(** Appending to a file whose length is a multiple of the cluster length: the
    bytes overwrite the start of the last cluster instead of going behind it. *)
Example append_at_cluster_boundary_overwrites_data :
  passes empty_fs
    (session "a" create_rw (File.write (full 0xAA)) ;;
     session "a" write_append (File.write (path "xyz")) ;;
     buf ← read_file "a";
     expect (bool_decide (take 4 buf = path "xyz" ++ [0xAA]) &&
             bool_decide (drop (Z.to_nat 32768) buf = [0; 0; 0]))) = true.
Proof. vm_compute. reflexivity. Qed.

(** Seeking to the end of a file whose only cluster is full, and writing: the
    bytes go to the cluster of the file behind it. *)
Example write_after_seek_to_full_end_overwrites_other_file :
  passes fat_fs
    (session "a" create_rw (File.write (full 0xAA)) ;;
     session "b" create_rw (File.write (full 0xBB)) ;;
     session "a" read_write (File.seek 32768 ;; File.write (path "xyz")) ;;
     buf ← read_file "b";
     expect (bool_decide (take 4 buf = path "xyz" ++ [0xBB]))) = true.
Proof. vm_compute. reflexivity. Qed.

(** An empty file cannot be copied. *)
Example copy_of_an_empty_file_fails :
  passes empty_fs
    (touch_file "a" ;;
     fails (copy (path "a") (path "b")) (λ e, match e with DiskFull => true | _ => false end)) = true.
Proof. vm_compute. reflexivity. Qed.

(** A file opened with [append] only cannot be written. *)
Example append_without_write_cannot_write :
  passes empty_fs
    (touch_file "a" ;;
     fails (session "a" (OpenOptions.set_append true OpenOptions.new) (File.write (path "b")))
       (λ e, match e with WriteNotEnabled => true | _ => false end)) = true.
Proof. vm_compute. reflexivity. Qed.

(** [truncate] without [write] truncates, [create] without [write] creates. *)
Example truncate_and_create_without_write :
  passes empty_fs
    (session "a" create_rw (File.write (path "hello")) ;;
     session "a" (OpenOptions.set_truncate true read_only) (mret ()) ;;
     buf ← read_file "a"; expect (bool_decide (buf = [])) ;;
     session "b" (OpenOptions.set_create true OpenOptions.new) (mret ()) ;;
     b ← exists_ (path "b"); expect b) = true.
Proof. vm_compute. reflexivity. Qed.

(** Copying into a directory that does not exist yet, with room for the copy
    only: the clusters for the copy are chosen but not marked before the
    directory is created, so the directory gets the same cluster, and the
    contents of the file overwrite it. *)
Example copy_into_new_directory_overwrites_it :
  passes (with_fat 0xF9 empty_fs)
    (session "a" create_rw (File.write (full 0)) ;;
     copy (path "a") (path "d/b") ;;
     expect_names "d" [] ;;
     fails (read_file "d/b") (λ e, match e with FileNotFound => true | _ => false end)) = true.
Proof. vm_compute. reflexivity. Qed.

(** Copying to a name that is there: the directory has the name twice, and the
    name still stands for the old file. *)
Example copy_to_existing_name_duplicates_it :
  passes fat_fs
    (session "a" create_rw (File.write (path "new")) ;;
     session "b" create_rw (File.write (path "old")) ;;
     copy (path "a") (path "b") ;;
     expect_names "" ["a"; "b"; "b"] ;;
     buf ← read_file "b"; expect (bool_decide (buf = path "old"))) = true.
Proof. vm_compute. reflexivity. Qed.

(** A file and a directory of one name: each is looked up by its attribute, so
    creating the second does not see the first. *)
Example directory_and_file_of_one_name :
  passes fat_fs
    (touch_file "a" ;;
     create_directory (path "a") ;;
     expect_names "" ["a"; "a"] ;;
     create_directory (path "d") ;;
     touch_file "d" ;;
     expect_names "" ["a"; "a"; "d"; "d"]) = true.
Proof. vm_compute. reflexivity. Qed.
End Replays.
